(* ===== verification/_CoqProject ===== *)
-Q . S2P
Prelude.v
NList.v
BitMap.v
Interrupt.v
Threads.v
Disk.v
FileHdr.v
OpenFile.v
Directory.v
FileSys.v
Machine.v
MipsSim.v
MipsIsa.v
AddrSpace.v
ProcTable.v
SemTable.v
SynchCons.v
StubFS.v
Syscalls.v
Floats.v
KernelInv.v
Post.v
Coff2Noff.v
UserProgs.v
UserMerge.v
Switch.v
HostSim.v
PingPong.v
Stacks.v
UserState.v
FsTest.v
ReadFormat.v
CmdLine.v
Boot.v
StartCode.v
FloatCalls.v
System.v
ThreadTest.v
Coff2Flat.v
Disasm.v
SmallProgs.v
NetTest.v
