(* ===== verification/Prelude.v ===== *)
(** * A verification library for Nachos (src/nachos/nachos-3.4/code)

    Nachos is an instructional operating system that runs as a UNIX process:
    a simulated machine (machine/), a thread kernel (threads/), the support of
    user programs with system calls (userprog/), a file system (filesys/) and
    a network (network/).  This library translates the C++ into executable
    definitions and proves what its components promise.

    ** The parts and how they interact

    machine/: [Interrupt] keeps simulated time and the queue of pending
    hardware interrupts; devices (timer, disk, console, network) schedule
    interrupts in it and are called back.  [Machine] is a MIPS processor with
    memory and page table or TLB; it raises exceptions into the kernel.
    threads/: the scheduler and the semaphores run on top of the interrupt
    level; the synchronous disk and console turn device interrupts into
    blocking calls.  filesys/: file headers, open files, directory and file
    system on the synchronous disk; with FILESYS_STUB, which the user-program
    kernel uses, the same interface on UNIX files.  userprog/: address spaces
    load programs into physical pages, the process table and the semaphore
    table serve the system calls of exception.cc.  network/: post offices over
    the network device.

    ** Files

    - Prelude (this file): outcomes of C++ code ([res], [st]), machine
      integers, arrays, loops, little-endian images, shared tactics and hints;
    - NList: threads/list.cc, on a heap of cells, and the sequence it stands for;
    - BitMap: userprog/bitmap.cc;
    - Interrupt: machine/interrupt.cc, machine/stats.cc, machine/timer.cc;
    - Threads: threads/thread.cc, threads/scheduler.cc, threads/synch.cc;
    - Disk: machine/disk.cc and filesys/synchdisk.cc, and the interface
      [SectorStore] through which the file system sees the disk;
    - FileHdr, OpenFile, Directory, FileSys: the files of those names in
      filesys/;
    - Machine: machine/machine.cc and machine/translate.cc;
    - MipsSim, MipsIsa: machine/mipssim.cc, the simulator and what its
      instructions compute;
    - AddrSpace: userprog/addrspace.cc;
    - ProcTable: userprog/pcb.cc and PTable of userprog/table.cc;
    - SemTable: STable of userprog/table.cc;
    - SynchCons: machine/console.cc and threads/synchcons.cc;
    - StubFS: the FILESYS_STUB classes of filesys/filesys.h and
      filesys/openfile.h, and the file calls of machine/sysdep.cc;
    - Syscalls, KernelInv: userprog/exception.cc, the system calls and what
      all of them keep;
    - Post: machine/network.cc, network/post.cc, threads/synchlist.cc;
    - Coff2Noff: bin/coff2noff.c, the tool that makes executables;
    - UserProgs, UserMerge: programs of test/ (quicksort.c, mergesort.c, sort.c,
      matmult.c) as C code that makes system calls;
    - Switch: threads/switch.c (i386) and Thread::StackAllocate;
    - HostSim: bin/execute.c and bin/system.c, the MIPS interpreter of the host;
    - PingPong: test/Ping.c, test/Pong.c and test/PingPong.c on the kernel;
    - Stacks: the stacks of c++example/;
    - UserState: SaveUserState and RestoreUserState of threads/thread.cc and
      their calls in the scheduler;
    - FsTest: filesys/fstest.cc;
    - ReadFormat: the call ReadFileFormat of userprog/exception.cc;
    - CmdLine: the command line (threads/main.cc, threads/system.cc) and the
      commands of the file system;
    - Boot: [Initialize] of threads/system.cc and userprog/progtest.cc;
    - StartCode: test/start.c and the call numbers of userprog/syscall.h, run on
      the simulator;
    - Floats, FloatCalls: the C library on IEEE numbers (atof, the format %f,
      rounding and comparison), and the calls of exception.cc on [float]s;
    - System: the process table, the semaphore table and the threads of the
      running system behind the system calls, as one state;
    - ThreadTest: threads/threadtest.cc;
    - Coff2Flat: bin/coff2flat.c;
    - Disasm: bin/d.c, bin/opstrings.c, bin/out.c, bin/disasm.c and the loader
      of bin/main.c;
    - SmallProgs: test/ascii.c, help.c, customer.c, shell.c, createfile.c,
      halt.c and test.c;
    - NetTest: network/nettest.cc on two machines of Post.

    Records have the fields of the classes, functions the names of the member
    functions (with a prefix or the name of the class where Rocq needs one).
    A component that another one uses enters by an interface: [SectorStore]
    (Disk for the file system), [ProcessCalls] and [KeepsKernel] (processes
    and semaphores for the system calls; System implements them), [FloatHeap]
    (the numbers of the float calls) and [FloatOrder] (comparisons for the
    sorting programs; FloatCalls discharges it), handlers and devices as section
    variables.

    ** What the theorems show

    - Lists, bit maps: the pointer code refines sequences; the word arrays
      refine sets of items.
    - Time: the clock, the order of interrupts and the accounting of ticks;
      interrupts that are due fire once, in order.
    - Threads: an invariant of every interleaving, with semaphores of any initial
      value (a negative one never blocks); no lost wake-up; the kernel routines
      never fail an assertion nor use a deleted thread.
    - Disk and files: a sector write and read through the interrupt path;
      headers, directory and files as functions of the disk; creating,
      opening, writing and removing files act on a finite map from names to
      contents and touch nothing else; formatting and booting.
    - Machine: address translation against a reference; memory round trip;
      every instruction keeps the machine well formed, unless the kernel's handler
      does not return, or stops the simulator in one of five known ways;
      arithmetic, delayed branches and loads.
    - User programs: the bytes of an object file whose data follows its text
      reach the memory of the process that runs it, at their addresses, through
      the converter and the loader, and no other process is touched; the process
      calls are safe in every order, also after a process's own Exit, which comes
      back to the program, as long as no process calls Exit under a number that
      has been given to another one; the join handshake returns by the exit code;
      the semaphore table is a map from names to semaphores.
    - System calls: copies to and from user memory, the file calls, numbers on
      the console, the dispatch and the program counter; the process and semaphore
      calls keep the invariants of threads, processes, named semaphores and the
      semaphores of the PCBs together, and leave a caller that waits in the right
      queue; reading the console returns when it can and waits otherwise.  A call
      of a C program, through the stub of start.c, the trap and the handler, is
      the system call with its number and comes back to the caller.
    - Floating-point numbers: what is typed is rounded to the nearest float; a
      multiple of 1/64, an infinity or a NaN that is printed in less than 40
      characters can be typed in again; comparisons are a total order.
    - Network: letters sent are, in order, those received, in a box, or under
      way; they can always be brought in.
    - Context switch: a thread that is switched away and back goes on with the
      same registers and stack; a forked thread starts in its function.
    - Programs: the sorting programs end within their arrays and write the
      numbers typed, sorted, to their files (quicksort: non-negative numbers, and
      a variable that it does not initialise is 0).  Ping and Pong, with the waits
      of the console and their return into Exit and Halt, alternate in every
      interleaving and never wait for each other.
    - User state: every user program sees a processor of its own.
    - Tests: a UNIX file copied into the file system is printed as it was; the
      performance test cannot pass.
    - Start: the command line is understood as documented; nachos -x brings the
      system up in a state in which the invariants of all components hold and
      starts the program; -cp, -p and -r act as functions on a finite map of files,
      -cp exactly when there is room.
    - Stacks: the array and the list implement the same abstract stack.
    - Host interpreter: it agrees with the kernel's machine on the instructions
      that compute registers, where both are defined and not known to differ
      (non-negative logical immediates, shift counts below 32).
    - Disassembler: the text of an instruction determines the instruction; the
      lines of a listing stay in their buffer and columns; loading a section and
      listing it shows the words of the file.
    - Small programs and mail test: the table of ascii.c is the same on the screen
      and in the file, customer.c prints the numbers of its file, the two machines
      of the mail test get each other's letter and acknowledgement.

    ** Conventions, bounds and fuel

    The host is a 32-bit little-endian UNIX.  An [int] is a [Z] and wraps by
    [to_int] where the code relies on it; tick counters and counts that cannot
    reach 2^31 in a run are unbounded.  A loop of the code is [for_range], a
    recursion on a list, or takes fuel; where fuel appears (the drain of due
    interrupts, the idle loop, the console, the conversion of digits) the
    theorems give an amount that is enough, computed from the state, and
    [NoFuel] otherwise means that a thread waits.  Memory from [new] holds
    arbitrary junk, which is an argument.  Kernel routines run with interrupts
    off and are atomic; steps between them are interleaved freely (Threads,
    ProcTable, Post).  ProcTable assumes no time slices (the option -rs).

    ** Not modelled

    The assembly of threads/switch.s for hosts other than the i386, the start of
    builds other than the one of userprog/Makefile, the text of debug output, the
    frees of [Cleanup] at shut-down (the destructor of the file system is in
    StubFS), the argument loops of the host tools, and signals, delays, memory
    allocation and socket set-up of machine/sysdep.cc, which only call the host.
    The call Fork jumps to a host address that the program passes: what runs there
    is an argument, and so is what the other threads do while a call of System
    waits.  Deleting a PCB frees its two semaphores; in System they stay in the
    kernel, where nothing reaches them any more.  The calls of the UNIX host that the kernel works with are
    modelled by what POSIX documents, the C library's floating-point functions by
    IEEE 754 and the C standard. *)

From Stdlib Require Export ZArith Lia.
From stdpp Require Export base list numbers.

#[global] Open Scope Z_scope.

(** ** Outcomes of C++ code

    A routine returns normally ([Ok]), stops in [ASSERT] (threads/utility.h
    prints the line and calls [Abort()]), reaches a state to which C++ gives no
    meaning ([UB]: an access outside an array, a dangling or NULL pointer, a
    value that was never written), or ends the process ([Halted]:
    [Cleanup()] calls [Exit(0)]).  [NoFuel] is not an outcome of the code: a
    loop given fewer rounds than it needs ends in it. *)

Inductive res (A : Type) : Type :=
| Ok (a : A)
| AssertFail
| UB
| Halted
| NoFuel.
Arguments Ok {A} a.
Arguments AssertFail {A}.
Arguments UB {A}.
Arguments Halted {A}.
Arguments NoFuel {A}.

#[export] Instance res_ret : MRet res := fun A a => Ok a.
#[export] Instance res_bind : MBind res := fun A B f m =>
  match m with
  | Ok a => f a
  | AssertFail => AssertFail
  | UB => UB
  | Halted => Halted
  | NoFuel => NoFuel
  end.
#[export] Instance res_fmap : FMap res := fun A B f m =>
  match m with
  | Ok a => Ok (f a)
  | AssertFail => AssertFail
  | UB => UB
  | Halted => Halted
  | NoFuel => NoFuel
  end.

Declare Scope nachos_scope.
Delimit Scope nachos_scope with nachos.
Notation "'ASSERT' c ; k" := (if c then k else AssertFail)
  (at level 20, c at level 100, k at level 200, right associativity) : nachos_scope.
#[global] Open Scope nachos_scope.

(** Code that threads a state of type [S]: explicit state passing with the
    outcomes above. *)
Definition st (S A : Type) : Type := S -> res (A * S).

#[export] Instance st_ret {S} : MRet (st S) := fun A a s => Ok (a, s).
#[export] Instance st_bind {S} : MBind (st S) := fun A B f m s =>
  match m s with
  | Ok (a, s') => f a s'
  | AssertFail => AssertFail
  | UB => UB
  | Halted => Halted
  | NoFuel => NoFuel
  end.
(** Code that does not touch the state. *)
Definition lift {S A} (r : res A) : st S A := fun s => a ← r; Ok (a, s).
Definition assert_ {S} (c : bool) : st S unit :=
  fun s => if c then Ok (tt, s) else AssertFail.

Definition is_Ok {A} (r : res A) : bool :=
  match r with Ok _ => true | _ => false end.

(** ** Integers of the host (i386): 32-bit two's complement [int] and
    [unsigned int], 16-bit [short], 8-bit signed [char] *)

Definition two32 : Z := 4294967296.
Definition two31 : Z := 2147483648.

(** The value of an [int] after a computation that may leave its range. *)
Definition to_int (z : Z) : Z := (z + two31) mod two32 - two31.
(** The value of an [unsigned int]. *)
Definition to_uint (z : Z) : Z := z mod two32.
(** [(char) b] as an [int]: sign extension of a byte. *)
Definition to_char (z : Z) : Z := (z + 128) mod 256 - 128.

Definition is_int (z : Z) : Prop := - two31 <= z < two31.
Definition is_uint (z : Z) : Prop := 0 <= z < two32.
Definition is_byte (z : Z) : Prop := 0 <= z < 256.

#[export] Instance is_int_dec z : Decision (is_int z).
Proof. unfold is_int; apply _. Defined.
#[export] Instance is_uint_dec z : Decision (is_uint z).
Proof. unfold is_uint; apply _. Defined.
#[export] Instance is_byte_dec z : Decision (is_byte z).
Proof. unfold is_byte; apply _. Defined.

(** threads/utility.h: the division macros ([/] and [%] of C truncate). *)
Definition divRoundDown (n s : Z) : Z := Z.quot n s.
Definition divRoundUp (n s : Z) : Z := Z.quot n s + (if Z.rem n s >? 0 then 1 else 0).

(** ** Arrays: a C array is a list; an access outside it is [UB] *)

Section arrays.
Context {A : Type}.

Definition zlen (l : list A) : Z := Z.of_nat (length l).

Definition zget (l : list A) (i : Z) : option A :=
  if decide (0 <= i) then l !! Z.to_nat i else None.

Definition zset (l : list A) (i : Z) (x : A) : list A :=
  if decide (0 <= i) then <[Z.to_nat i := x]> l else l.

(** [a[i]] as a value *)
Definition rd (l : list A) (i : Z) : res A :=
  match zget l i with Some x => Ok x | None => UB end.

(** [a[i] = x] *)
Definition wr (l : list A) (i : Z) (x : A) : res (list A) :=
  match zget l i with Some _ => Ok (zset l i x) | None => UB end.

(** The [n] elements from offset [off]. *)
Definition slice (off n : Z) (l : list A) : list A :=
  take (Z.to_nat n) (drop (Z.to_nat off) l).

(** [new] written over [l] from offset [off]. *)
Definition splice (off : Z) (new l : list A) : list A :=
  take (Z.to_nat off) l ++ new ++ drop (Z.to_nat off + length new) l.
End arrays.

(** [bcopy(&from[off], to, n)]: the bytes read *)
Definition bytes_from (from : list Z) (off n : Z) : res (list Z) :=
  if (0 <=? off) && (off + n <=? zlen from) then Ok (slice off n from) else UB.
(** [bcopy(data, &to[off], n)]: the array written *)
Definition bytes_to (data to : list Z) (off : Z) : res (list Z) :=
  if (0 <=? off) && (off + zlen data <=? zlen to) then Ok (splice off data to) else UB.

(** ** Little-endian images of integers in memory and on disk *)

Definition le32 (z : Z) : list Z :=
  [z mod 256; (z / 256) mod 256; (z / 65536) mod 256; (z / 16777216) mod 256].
Definition le16 (z : Z) : list Z := [z mod 256; (z / 256) mod 256].
(** The unsigned value of a little-endian byte sequence. *)
Fixpoint le_value (bs : list Z) : Z :=
  match bs with
  | [] => 0
  | b :: bs' => b + 256 * le_value bs'
  end.

(** An array of [int]s as bytes, and back. *)
Definition bytes_of_ints (l : list Z) : list Z := l ≫= le32.
Fixpoint ints_of_bytes (bs : list Z) : list Z :=
  match bs with
  | b0 :: b1 :: b2 :: b3 :: bs' => to_int (le_value [b0; b1; b2; b3]) :: ints_of_bytes bs'
  | _ => []
  end.
(** An array of [unsigned]s. *)
Fixpoint uints_of_bytes (bs : list Z) : list Z :=
  match bs with
  | b0 :: b1 :: b2 :: b3 :: bs' => le_value [b0; b1; b2; b3] :: uints_of_bytes bs'
  | _ => []
  end.

(** ** Loops

    [for_n n i f s] runs [f i], [f (i+1)], ..., [f (i+n-1)];
    [for_range lo hi f s] is [for (i = lo; i < hi; i++) f]. *)

Section loops.
Context {S : Type}.

Fixpoint for_n (n : nat) (i : Z) (f : Z -> S -> res S) (s : S) : res S :=
  match n with
  | O => Ok s
  | Datatypes.S n' => s' ← f i s; for_n n' (i + 1) f s'
  end.

Definition for_range (lo hi : Z) (f : Z -> S -> res S) (s : S) : res S :=
  for_n (Z.to_nat (hi - lo)) lo f s.
End loops.

(** The same loop over code that threads a state [S] and a local value [A]. *)
Fixpoint for_st_n {S A} (n : nat) (i : Z) (f : Z -> A -> st S A) (a : A) : st S A :=
  match n with
  | O => mret a
  | Datatypes.S n' => a' ← f i a; for_st_n n' (i + 1) f a'
  end.
Definition for_st {S A} (lo hi : Z) (f : Z -> A -> st S A) (a : A) : st S A :=
  for_st_n (Z.to_nat (hi - lo)) lo f a.

(** ** Automation *)

Create HintDb nachos discriminated.
Create Rewrite HintDb zlist.
Create Rewrite HintDb nachos_int.

Ltac unfold_int :=
  unfold is_int, is_uint, is_byte, to_int, to_uint, to_char, two31, two32 in *.

(** [lia] on goals with division and remainder by a constant. *)
Ltac lia_mod := Z.div_mod_to_equations; lia.

(** Case analysis on the boolean comparisons of [Z] found in the goal or the
    context, leaving the propositions they decide. *)
Ltac zcases_step :=
  match goal with
  | |- context [?a =? ?b] => destruct (Z.eqb_spec a b)
  | |- context [?a <? ?b] => destruct (Z.ltb_spec a b)
  | |- context [?a <=? ?b] => destruct (Z.leb_spec a b)
  | |- context [?a >? ?b] => rewrite (Z.gtb_ltb a b)
  | |- context [?a >=? ?b] => rewrite (Z.geb_leb a b)
  | H : context [?a =? ?b] |- _ => destruct (Z.eqb_spec a b)
  | H : context [?a <? ?b] |- _ => destruct (Z.ltb_spec a b)
  | H : context [?a <=? ?b] |- _ => destruct (Z.leb_spec a b)
  | H : context [?a >? ?b] |- _ => rewrite (Z.gtb_ltb a b) in H
  | H : context [?a >=? ?b] |- _ => rewrite (Z.geb_leb a b) in H
  end.
Ltac zcases := repeat zcases_step; simpl in *; try lia; try discriminate.

(** Splits the first equation [m = Ok _] about a bind. *)
Ltac inv_bind H :=
  match type of H with
  | mbind _ ?m = Ok _ =>
      let E := fresh "E" in
      destruct m eqn:E; simpl in H; try discriminate H
  end.

(** ** Lemmas on [res] *)

Lemma bind_Ok {A B} (m : res A) (f : A -> res B) b :
  m ≫= f = Ok b <-> exists a, m = Ok a /\ f a = Ok b.
Proof. destruct m; simpl; split; naive_solver. Qed.

Lemma st_bind_Ok {S A B} (m : st S A) (f : A -> st S B) (s : S) a s' :
  m s = Ok (a, s') -> (m ≫= f) s = f a s'.
Proof. intros H. unfold mbind, st_bind. by rewrite H. Qed.
Lemma lift_bind_Ok {S A B} (r : res A) (f : A -> st S B) (s : S) a :
  r = Ok a -> (lift r ≫= f) s = f a s.
Proof. intros ->. done. Qed.

(** ** Code that does not go wrong *)

(** The ways in which code can fail to return. *)
Inductive failure := F_Halted | F_Assert | F_UB | F_NoFuel.
Definition failure_of {A} (r : res A) : option failure :=
  match r with
  | Ok _ => None
  | Halted => Some F_Halted
  | AssertFail => Some F_Assert
  | UB => Some F_UB
  | NoFuel => Some F_NoFuel
  end.

(** [safe_but F P c Q]: [c] run in a state with [P] returns with result and state
    in [Q], or fails in a way that is in [F]. *)
Definition safe_but {S A} (F : failure -> Prop) (P : S -> Prop) (c : st S A) (Q : A -> S -> Prop) : Prop :=
  forall s, P s ->
    match c s with
    | Ok (a, s') => Q a s'
    | Halted => F F_Halted
    | AssertFail => F F_Assert
    | UB => F F_UB
    | NoFuel => F F_NoFuel
    end.
(** [safe P c Q]: [c] fails no [ASSERT], does nothing undefined and has fuel
    enough; it returns or halts the system. *)
Definition safe {S A} : (S -> Prop) -> st S A -> (A -> S -> Prop) -> Prop :=
  safe_but (fun f => match f with F_Halted => True | _ => False end).

Section safe_but.
Context {S : Type} (F : failure -> Prop).
Lemma safe_but_ret {A} (P : S -> Prop) (a : A) (Q : A -> S -> Prop) :
  (forall s, P s -> Q a s) -> safe_but F P (mret a) Q.
Proof. intros H s Hs. by apply H. Qed.
Lemma safe_but_bind {A B} (P : S -> Prop) (c : st S A) (f : A -> st S B) R Q :
  safe_but F P c R -> (forall a, safe_but F (R a) (f a) Q) -> safe_but F P (c ≫= f) Q.
Proof.
  intros Hc Hf s Hs. specialize (Hc s Hs). unfold mbind, st_bind.
  destruct (c s) as [[a s']| | | |]; try done. by apply Hf.
Qed.
Lemma safe_but_conseq {A} (P P' : S -> Prop) (c : st S A) (Q Q' : A -> S -> Prop) :
  safe_but F P c Q -> (forall s, P' s -> P s) -> (forall a s, Q a s -> Q' a s) -> safe_but F P' c Q'.
Proof.
  intros H HP HQ s Hs. specialize (H s (HP s Hs)). destruct (c s) as [[]| | | |]; try done.
  by apply HQ.
Qed.
End safe_but.

(** ** Lemmas on integers *)

Lemma to_int_range z : is_int (to_int z).
Proof. unfold_int. pose proof (Z.mod_pos_bound (z + 2147483648) 4294967296). lia. Qed.
Lemma to_int_id z : is_int z -> to_int z = z.
Proof. unfold_int. intros. rewrite Z.mod_small; lia. Qed.
Lemma to_uint_range z : is_uint (to_uint z).
Proof. unfold_int. apply Z.mod_pos_bound. lia. Qed.
Lemma to_uint_id z : is_uint z -> to_uint z = z.
Proof. unfold_int. intros. rewrite Z.mod_small; lia. Qed.
Lemma to_int_to_uint z : to_int (to_uint z) = to_int z.
Proof. unfold to_int, to_uint. f_equal. by rewrite Zplus_mod_idemp_l. Qed.
Lemma to_uint_to_int z : to_uint (to_int z) = to_uint z.
Proof. unfold to_int, to_uint, two31, two32. lia_mod. Qed.
Lemma to_int_to_int z : to_int (to_int z) = to_int z.
Proof. apply to_int_id, to_int_range. Qed.
Lemma to_uint_of_int z : is_int z -> to_uint z = if z <? 0 then z + two32 else z.
Proof. unfold_int. intros. zcases; lia_mod. Qed.
Lemma to_char_range z : -128 <= to_char z < 128.
Proof. unfold to_char. lia_mod. Qed.
#[export] Hint Resolve to_int_range to_uint_range : nachos.
#[export] Hint Rewrite to_int_to_uint to_uint_to_int to_int_to_int : nachos_int.

(** ** Lemmas on bits *)

Lemma land_shiftl x y n :
  0 <= n -> Z.land x (Z.shiftl y n) = Z.shiftl (Z.land (Z.shiftr x n) y) n.
Proof.
  intros Hn. apply Z.bits_inj'. intros i Hi. rewrite Z.land_spec, !Z.shiftl_spec by lia.
  destruct (Z.lt_ge_cases i n).
  - rewrite !(Z.testbit_neg_r _ (i - n)) by lia. apply andb_false_r.
  - rewrite Z.land_spec, Z.shiftr_spec by lia. do 2 f_equal. lia.
Qed.
(** The bit [n] of [x]. *)
Lemma land_bit x n : 0 <= n -> Z.land x (2 ^ n) = (x / 2 ^ n mod 2) * 2 ^ n.
Proof.
  intros Hn. rewrite <-(Z.mul_1_l (2 ^ n)) at 1. rewrite <-Z.shiftl_mul_pow2 by done.
  rewrite land_shiftl, Z.shiftl_mul_pow2, Z.shiftr_div_pow2 by done.
  change 1 with (Z.ones 1) at 1. by rewrite Z.land_ones by lia.
Qed.

(** An [int] is an integer whose bits from 31 on are all equal. *)
Lemma is_int_shiftr x : is_int x <-> Z.shiftr x 31 = 0 \/ Z.shiftr x 31 = -1.
Proof. rewrite Z.shiftr_div_pow2 by lia. change (2 ^ 31) with 2147483648. unfold_int. lia_mod. Qed.
Lemma is_int_land a b : is_int a -> is_int b -> is_int (Z.land a b).
Proof. rewrite !is_int_shiftr, Z.shiftr_land. intros [-> | ->] [-> | ->]; simpl; auto. Qed.
Lemma is_int_lor a b : is_int a -> is_int b -> is_int (Z.lor a b).
Proof. rewrite !is_int_shiftr, Z.shiftr_lor. intros [-> | ->] [-> | ->]; simpl; auto. Qed.
Lemma is_int_lxor a b : is_int a -> is_int b -> is_int (Z.lxor a b).
Proof. rewrite !is_int_shiftr, Z.shiftr_lxor. intros [-> | ->] [-> | ->]; simpl; auto. Qed.
Lemma is_int_lnot a : is_int a -> is_int (Z.lnot a).
Proof. unfold Z.lnot. unfold_int. lia. Qed.
Lemma is_int_shiftr_n a n : is_int a -> 0 <= n -> is_int (Z.shiftr a n).
Proof.
  intros Ha Hn. rewrite is_int_shiftr in *. rewrite Z.shiftr_shiftr, Z.add_comm by lia.
  rewrite <-Z.shiftr_shiftr by lia. destruct Ha as [-> | ->]; [left; apply Z.shiftr_0_l|right].
  apply Z.bits_inj'. intros i Hi. rewrite Z.shiftr_spec, !Z.bits_m1 by lia. done.
Qed.
#[export] Hint Resolve is_int_land is_int_lor is_int_lxor is_int_lnot : nachos.
Lemma land_mask_bound x n : 0 <= n -> 0 <= Z.land x (Z.ones n) < 2 ^ n.
Proof. intros. rewrite Z.land_ones by done. apply Z.mod_pos_bound. lia. Qed.

Lemma divRoundUp_spec n s :
  0 <= n -> 0 < s ->
  (divRoundUp n s - 1) * s < n <= divRoundUp n s * s.
Proof.
  intros Hn Hs. unfold divRoundUp. rewrite Z.quot_div_nonneg, Z.rem_mod_nonneg by lia.
  pose proof (Z.div_mod n s). pose proof (Z.mod_pos_bound n s Hs).
  zcases; nia.
Qed.
Lemma divRoundUp_nonneg n s : 0 <= n -> 0 < s -> 0 <= divRoundUp n s.
Proof. intros Hn Hs. pose proof (divRoundUp_spec n s Hn Hs). nia. Qed.
#[export] Hint Resolve divRoundUp_nonneg : nachos.

(** ** Lemmas on arrays *)

Section array_lemmas.
Context {A : Type}.
Implicit Types (l : list A) (i j : Z) (x : A).

Lemma zlen_nonneg l : 0 <= zlen l.
Proof. unfold zlen. lia. Qed.

Lemma zget_Some_range l i x : zget l i = Some x -> 0 <= i < zlen l.
Proof.
  unfold zget, zlen. case_decide; [|done]. intros Hl%lookup_lt_Some. lia.
Qed.
Lemma zget_is_Some l i : 0 <= i < zlen l -> exists x, zget l i = Some x.
Proof.
  unfold zget, zlen. intros. rewrite decide_True by lia.
  apply lookup_lt_is_Some_2. lia.
Qed.
Lemma zget_None l i : ~ (0 <= i < zlen l) -> zget l i = None.
Proof.
  unfold zget, zlen. intros. case_decide; [|done]. apply lookup_ge_None_2. lia.
Qed.
Lemma zget_nat l (n : nat) : zget l (Z.of_nat n) = l !! n.
Proof. unfold zget. rewrite decide_True by lia. by rewrite Nat2Z.id. Qed.
Lemma zget_cons_S x l i : 0 < i -> zget (x :: l) i = zget l (i - 1).
Proof.
  intros. unfold zget. rewrite !decide_True by lia.
  replace (Z.to_nat i) with (S (Z.to_nat (i - 1))) by lia. done.
Qed.

Lemma zlen_zset l i x : zlen (zset l i x) = zlen l.
Proof. unfold zlen, zset. case_decide; [by rewrite length_insert | done]. Qed.
Lemma zget_zset l i j x :
  zget (zset l i x) j =
    if decide (i = j /\ 0 <= i < zlen l) then Some x else zget l j.
Proof.
  unfold zget, zset, zlen. repeat case_decide; try done; try lia.
  - destruct_and!; subst. by rewrite list_lookup_insert_eq by lia.
  - destruct (decide (i = j)) as [->|].
    + rewrite list_insert_ge by lia. done.
    + by rewrite list_lookup_insert_ne by lia.
Qed.
Lemma zget_zset_eq l i x : 0 <= i < zlen l -> zget (zset l i x) i = Some x.
Proof. intros. rewrite zget_zset. by rewrite decide_True. Qed.
Lemma zget_zset_ne l i j x : i <> j -> zget (zset l i x) j = zget l j.
Proof. intros. rewrite zget_zset. rewrite decide_False; [done | naive_solver]. Qed.
Lemma zset_id l i x : zget l i = Some x -> zset l i x = l.
Proof.
  unfold zget, zset. case_decide; [|done]. apply list_insert_id.
Qed.
Lemma zget_ext l1 l2 : (forall i, zget l1 i = zget l2 i) -> l1 = l2.
Proof. intros He. apply list_eq. intros i. rewrite <-!zget_nat. apply He. Qed.

Lemma rd_Ok l i x : rd l i = Ok x <-> zget l i = Some x.
Proof. unfold rd. destruct (zget l i); naive_solver. Qed.
Lemma wr_Ok l i x : 0 <= i < zlen l -> wr l i x = Ok (zset l i x).
Proof. intros H. unfold wr. destruct (zget_is_Some l i H) as [y ->]. done. Qed.
Lemma wr_Ok_inv l i x l' : wr l i x = Ok l' -> 0 <= i < zlen l /\ l' = zset l i x.
Proof.
  unfold wr. destruct (zget l i) eqn:E; [|done]. intros [= <-].
  apply zget_Some_range in E. done.
Qed.
Lemma rd_total l i : 0 <= i < zlen l -> exists x, rd l i = Ok x /\ zget l i = Some x.
Proof. intros H. destruct (zget_is_Some l i H) as [x Hx]. exists x. by rewrite rd_Ok. Qed.

Lemma Forall_zget P l i x : Forall P l -> zget l i = Some x -> P x.
Proof.
  intros HF. unfold zget. case_decide; [|done]. by apply Forall_lookup_1.
Qed.
Lemma Forall_zset P l i x : Forall P l -> P x -> Forall P (zset l i x).
Proof. intros HF Hx. unfold zset. case_decide; [by apply Forall_insert | done]. Qed.
End array_lemmas.
#[export] Hint Resolve zlen_nonneg Forall_zset : nachos.
#[export] Hint Rewrite @zlen_zset : zlist.

Section slice_lemmas.
Context {A : Type}.
Implicit Types (l new : list A) (i off n : Z).

Lemma zlen_app l l' : zlen (l ++ l') = zlen l + zlen l'.
Proof. unfold zlen. rewrite length_app. lia. Qed.
Lemma zlen_cons x l : zlen (x :: l) = 1 + zlen l.
Proof. unfold zlen. simpl. lia. Qed.
Lemma zlen_nil : zlen ([] : list A) = 0.
Proof. done. Qed.
Lemma zget_app l l' i :
  zget (l ++ l') i = if decide (i < zlen l) then zget l i else zget l' (i - zlen l).
Proof.
  unfold zget, zlen. repeat case_decide; try lia; try done.
  - rewrite lookup_app_l by lia. done.
  - rewrite lookup_app_r by lia. f_equal. lia.
Qed.
Lemma zlen_slice off n l :
  0 <= off -> zlen (slice off n l) = Z.max 0 (Z.min n (zlen l - off)).
Proof. intros. unfold slice, zlen. rewrite length_take, length_drop. lia. Qed.
Lemma zget_slice off n l i :
  0 <= off -> zget (slice off n l) i = if decide (0 <= i < n) then zget l (off + i) else None.
Proof.
  intros. unfold zget, slice. case_decide.
  - destruct (decide (0 <= i < n)).
    + rewrite lookup_take_lt, lookup_drop by lia. rewrite decide_True by lia. f_equal. lia.
    + rewrite lookup_take_ge by lia. done.
  - rewrite decide_False by lia. done.
Qed.
Lemma zlen_splice off new l :
  0 <= off -> off + zlen new <= zlen l -> zlen (splice off new l) = zlen l.
Proof. intros. unfold splice, zlen in *. rewrite !length_app, length_take, length_drop. lia. Qed.
Lemma zget_splice off new l i :
  0 <= off -> off + zlen new <= zlen l ->
  zget (splice off new l) i =
    if decide (off <= i < off + zlen new) then zget new (i - off) else zget l i.
Proof.
  intros. unfold splice. pose proof (zlen_nonneg new).
  assert (zlen (take (Z.to_nat off) l) = off) as Ht.
  { unfold zlen in *. rewrite length_take. lia. }
  rewrite zget_app, Ht. destruct (decide (i < off)).
  - rewrite decide_False by lia. unfold zget. case_decide; [|done].
    rewrite lookup_take_lt by lia. done.
  - rewrite zget_app. destruct (decide (i - off < zlen new)).
    + rewrite decide_True by lia. done.
    + rewrite decide_False by lia. unfold zget, zlen in *. rewrite !decide_True by lia.
      rewrite lookup_drop. f_equal. lia.
Qed.
Lemma Forall_slice P off n l : Forall P l -> Forall P (slice off n l).
Proof. intros. unfold slice. by apply Forall_take, Forall_drop. Qed.
Lemma Forall_splice P off new l : Forall P l -> Forall P new -> Forall P (splice off new l).
Proof.
  intros. unfold splice. apply Forall_app. split; [by apply Forall_take|].
  apply Forall_app. split; [done|by apply Forall_drop].
Qed.
Lemma slice_all l : slice 0 (zlen l) l = l.
Proof. unfold slice, zlen. rewrite Nat2Z.id. simpl. apply take_ge. lia. Qed.
Lemma zget_ext_range l l' :
  zlen l = zlen l' -> (forall i, 0 <= i < zlen l -> zget l i = zget l' i) -> l = l'.
Proof.
  intros Hl Hi. apply zget_ext. intros i. destruct (decide (0 <= i < zlen l)); [by apply Hi|].
  rewrite !zget_None; [done|lia|lia].
Qed.
End slice_lemmas.
(** Arrays in parts: [h] is in front of the place, [r] behind it. *)
Lemma splice_0 {A} (new l : list A) : splice 0 new l = new ++ drop (length new) l.
Proof. done. Qed.
Lemma splice_behind {A} (h new r : list A) : splice (zlen h) new (h ++ r) = h ++ new ++ drop (length new) r.
Proof.
  unfold splice, zlen. rewrite Nat2Z.id, take_app_length. do 2 f_equal. by rewrite drop_app_add.
Qed.
Lemma slice_front {A} (l r : list A) : slice 0 (zlen l) (l ++ r) = l.
Proof. unfold slice, zlen. rewrite Nat2Z.id. apply take_app_length. Qed.
Lemma slice_behind {A} (h l r : list A) : slice (zlen h) (zlen l) (h ++ l ++ r) = l.
Proof. unfold slice, zlen. rewrite !Nat2Z.id, drop_app_length. apply take_app_length. Qed.
#[export] Hint Rewrite @zlen_app @zlen_cons @zlen_nil : zlist.
#[export] Hint Resolve Forall_slice Forall_splice : nachos.

Lemma NoDup_zget {A} (l : list A) i j x :
  NoDup l -> zget l i = Some x -> zget l j = Some x -> i = j.
Proof.
  unfold zget. intros Hn. repeat case_decide; try done. intros Hi Hj.
  pose proof (NoDup_lookup l _ _ x Hn Hi Hj). lia.
Qed.

Lemma elem_of_zget {A} (l : list A) x : x ∈ l <-> exists i, zget l i = Some x.
Proof.
  rewrite list_elem_of_lookup. split.
  - intros [i Hi]. exists (Z.of_nat i). by rewrite zget_nat.
  - intros [i Hi]. unfold zget in Hi. case_decide; [by eexists|done].
Qed.

Lemma bytes_to_ok data to off :
  0 <= off -> off + zlen data <= zlen to -> bytes_to data to off = Ok (splice off data to).
Proof. intros. unfold bytes_to. rewrite !(proj2 (Z.leb_le _ _)) by lia. done. Qed.
Lemma bytes_from_ok from off n :
  0 <= off -> off + n <= zlen from -> bytes_from from off n = Ok (slice off n from).
Proof. intros. unfold bytes_from. rewrite !(proj2 (Z.leb_le _ _)) by lia. done. Qed.

(** ** Lemmas on little-endian images *)

Lemma le32_bytes z : Forall is_byte (le32 z).
Proof. repeat constructor; unfold is_byte; apply Z.mod_pos_bound; lia. Qed.
Lemma le32_value z : le_value (le32 z) = to_uint z.
Proof. unfold le32, to_uint, two32. cbn [le_value]. lia_mod. Qed.
Lemma le_value_le32 b0 b1 b2 b3 :
  is_byte b0 -> is_byte b1 -> is_byte b2 -> is_byte b3 ->
  le32 (le_value [b0; b1; b2; b3]) = [b0; b1; b2; b3].
Proof. unfold is_byte, le32. cbn [le_value]. intros. do 3 (f_equal; [lia_mod|]). f_equal; lia_mod. Qed.
Lemma le32_to_int z : le32 (to_int z) = le32 z.
Proof.
  assert (exists k, to_int z = z + k * 4294967296) as [k ->].
  { exists (- ((z + two31) / two32)). unfold to_int, two31, two32. lia_mod. }
  unfold le32. do 3 (f_equal; [lia_mod|]). f_equal; lia_mod.
Qed.

Lemma zlen_bytes_of_ints l : zlen (bytes_of_ints l) = 4 * zlen l.
Proof. induction l as [|z l IH]; [done|]. simpl. rewrite !zlen_cons, IH. lia. Qed.
Lemma bytes_of_ints_bytes l : Forall is_byte (bytes_of_ints l).
Proof.
  induction l as [|z l IH]; [constructor|].
  change (bytes_of_ints (z :: l)) with (le32 z ++ bytes_of_ints l).
  apply Forall_app. split; [apply le32_bytes|done].
Qed.
Lemma ints_of_bytes_of_ints l rest :
  Forall is_int l -> ints_of_bytes (bytes_of_ints l ++ rest) = l ++ ints_of_bytes rest.
Proof.
  induction 1 as [|z l Hz Hl IH]; [done|].
  change (bytes_of_ints (z :: l)) with (le32 z ++ bytes_of_ints l).
  cbn [le32 app ints_of_bytes]. fold (le32 z). f_equal; [|exact IH].
  change [z mod 256; (z / 256) mod 256; (z / 65536) mod 256; (z / 16777216) mod 256]
    with (le32 z).
  rewrite le32_value, to_int_to_uint. by apply to_int_id.
Qed.
Lemma uints_of_bytes_of_ints l :
  Forall is_uint l -> uints_of_bytes (bytes_of_ints l) = l.
Proof.
  induction 1 as [|z l Hz Hl IH]; [done|].
  change (bytes_of_ints (z :: l)) with (le32 z ++ bytes_of_ints l).
  cbn [le32 app uints_of_bytes]. f_equal; [|exact IH].
  change [z mod 256; (z / 256) mod 256; (z / 65536) mod 256; (z / 16777216) mod 256]
    with (le32 z).
  rewrite le32_value. by apply to_uint_id.
Qed.

Lemma filter_none {A} (P : A -> Prop) `{!forall x, Decision (P x)} (l : list A) :
  Forall (fun x => ~ P x) l -> filter P l = [].
Proof. induction 1; [done|]. by rewrite filter_cons_False. Qed.

Lemma filter_all {A} (P : A -> Prop) `{!forall x, Decision (P x)} (l : list A) :
  Forall P l -> filter P l = l.
Proof. induction 1; [done|]. rewrite filter_cons_True by done. by f_equal. Qed.

Lemma seqZ_snoc i : 0 <= i -> seqZ 0 (i + 1) = seqZ 0 i ++ [i].
Proof.
  intros. replace (i + 1) with (Z.of_nat (S (Z.to_nat i))) by lia.
  rewrite seqZ_S. repeat f_equal; lia.
Qed.

(** ** Loop rule *)

Lemma for_n_inv {S} (P : Z -> S -> Prop) (f : Z -> S -> res S) n lo s :
  P lo s ->
  (forall i s, lo <= i < lo + Z.of_nat n -> P i s ->
     exists s', f i s = Ok s' /\ P (i + 1) s') ->
  exists s', for_n n lo f s = Ok s' /\ P (lo + Z.of_nat n) s'.
Proof.
  revert lo s. induction n as [|n IH]; intros lo s HP Hstep; simpl.
  - exists s. split; [done|]. by rewrite Z.add_0_r.
  - destruct (Hstep lo s) as (s1 & -> & HP1); [lia | done |]. simpl.
    destruct (IH (lo + 1) s1 HP1) as (s2 & -> & HP2).
    + intros i s' Hi. apply Hstep. lia.
    + exists s2. split; [done|].
      by replace (lo + Z.of_nat (Datatypes.S n)) with (lo + 1 + Z.of_nat n) by lia.
Qed.

Lemma for_n_app {S} n m : forall i (f : Z -> S -> res S) s,
  for_n (n + m) i f s = for_n n i f s ≫= for_n m (i + Z.of_nat n) f.
Proof.
  induction n as [|n IH]; intros i f s; simpl.
  - by rewrite Z.add_0_r.
  - destruct (f i s); simpl; try done. rewrite IH.
    by replace (i + 1 + Z.of_nat n) with (i + Z.of_nat (Datatypes.S n)) by lia.
Qed.

(** The rule for [for (i = lo; i < hi; i++)]: an invariant indexed by the
    loop counter that every iteration re-establishes holds at the end, and
    the loop returns. *)
Lemma for_range_inv {S} (P : Z -> S -> Prop) (f : Z -> S -> res S) lo hi s :
  lo <= hi -> P lo s ->
  (forall i s, lo <= i < hi -> P i s -> exists s', f i s = Ok s' /\ P (i + 1) s') ->
  exists s', for_range lo hi f s = Ok s' /\ P hi s'.
Proof.
  intros Hle HP Hstep. unfold for_range.
  destruct (for_n_inv P f (Z.to_nat (hi - lo)) lo s HP) as (s' & -> & HP').
  - intros i s'' Hi. apply Hstep. lia.
  - exists s'. split; [done|]. by replace hi with (lo + Z.of_nat (Z.to_nat (hi - lo))) by lia.
Qed.

Lemma for_st_n_inv {S A} (P : Z -> A -> S -> Prop) (f : Z -> A -> st S A) n lo a s :
  P lo a s ->
  (forall i a s, lo <= i < lo + Z.of_nat n -> P i a s ->
     exists a' s', f i a s = Ok (a', s') /\ P (i + 1) a' s') ->
  exists a' s', for_st_n n lo f a s = Ok (a', s') /\ P (lo + Z.of_nat n) a' s'.
Proof.
  revert lo a s. induction n as [|n IH]; intros lo a s HP Hstep; simpl.
  - exists a, s. split; [done|]. by rewrite Z.add_0_r.
  - unfold mbind, st_bind. destruct (Hstep lo a s) as (a1 & s1 & -> & HP1); [lia|done|].
    destruct (IH (lo + 1) a1 s1 HP1) as (a2 & s2 & Hr & HP2).
    + intros i a' s' Hi. apply Hstep. lia.
    + exists a2, s2. split; [exact Hr|].
      by replace (lo + Z.of_nat (Datatypes.S n)) with (lo + 1 + Z.of_nat n) by lia.
Qed.

Lemma for_st_inv {S A} (P : Z -> A -> S -> Prop) (f : Z -> A -> st S A) lo hi a s :
  lo <= hi -> P lo a s ->
  (forall i a s, lo <= i < hi -> P i a s ->
     exists a' s', f i a s = Ok (a', s') /\ P (i + 1) a' s') ->
  exists a' s', for_st lo hi f a s = Ok (a', s') /\ P hi a' s'.
Proof.
  intros Hle HP Hstep. unfold for_st.
  destruct (for_st_n_inv P f (Z.to_nat (hi - lo)) lo a s HP) as (a' & s' & -> & HP').
  - intros i a'' s'' Hi. apply Hstep. lia.
  - exists a', s'. split; [done|].
    by replace hi with (lo + Z.of_nat (Z.to_nat (hi - lo))) by lia.
Qed.

Lemma for_range_empty {S} lo hi (f : Z -> S -> res S) s :
  hi <= lo -> for_range lo hi f s = Ok s.
Proof. intros. unfold for_range. by replace (Z.to_nat (hi - lo)) with O by lia. Qed.
