(* ===== verification/NList.v ===== *)
(** * threads/list.cc: singly linked lists of [void *] items

    [Module Impl] is the code: [ListElement] cells in a heap, a [List] with
    its [first] and [last] pointers, and the member functions as they are
    written, on pointers.  [Module Spec] is the sequence the list stands for.
    The theorems say that each member function, run on a well-formed list,
    returns (no dangling pointer is followed, every loop ends) and changes the
    sequence as its comment says, leaving every other cell of the heap alone.
    The other components of the kernel use the functions of [Spec]. *)

From Stdlib Require Import Sorted.
From S2P Require Import Prelude.
From stdpp Require Import gmap list.
#[local] Open Scope Z_scope.

(** A [void *] item: [None] is NULL. *)
Abbreviation voidp := option.

Module Spec.
Section spec.
Context {A : Type}.
(** Keys and items, front first. *)
#[local] Abbreviation seqn := (list (Z * voidp A)).

Definition append (item : voidp A) (xs : seqn) : seqn := xs ++ [(0, item)].
Definition prepend (item : voidp A) (xs : seqn) : seqn := (0, item) :: xs.
Fixpoint sorted_insert (item : voidp A) (k : Z) (xs : seqn) : seqn :=
  match xs with
  | [] => [(k, item)]
  | (k', y) :: r =>
      if k <? k' then (k, item) :: xs else (k', y) :: sorted_insert item k r
  end.
(** The item and key taken off the front, if any. *)
Definition sorted_remove (xs : seqn) : option (Z * voidp A) * seqn :=
  match xs with
  | [] => (None, [])
  | x :: r => (Some x, r)
  end.

Definition key_le (x y : Z * voidp A) : Prop := x.1 <= y.1.
Definition sorted (xs : seqn) : Prop := StronglySorted key_le xs.
End spec.
End Spec.

Module Impl.
Section list.
Context {A : Type}.

(** A cell address; [option loc] is a pointer, [None] is NULL. *)
Definition loc : Type := positive.

Record ListElement := mkListElement {
  next : option loc;
  key : Z;
  item : voidp A
}.

(** The allocator hands out addresses in increasing order. *)
Record heap := mkHeap { cells : gmap loc ListElement; brk : loc }.

Record List := mkList { first : option loc; last : option loc }.

(** [*p], undefined on NULL and on a cell that is not allocated. *)
Definition deref (h : heap) (p : option loc) : res ListElement :=
  match p with
  | None => UB
  | Some a => match cells h !! a with Some e => Ok e | None => UB end
  end.
(** [*p = e] *)
Definition store (h : heap) (p : option loc) (e : ListElement) : res heap :=
  match p with
  | None => UB
  | Some a =>
      match cells h !! a with
      | Some _ => Ok (mkHeap (<[a := e]> (cells h)) (brk h))
      | None => UB
      end
  end.
Definition set_next (h : heap) (p q : option loc) : res heap :=
  e ← deref h p; store h p (mkListElement q (key e) (item e)).
(** [new ListElement(itemPtr, sortKey)] *)
Definition new_ListElement (h : heap) (itemPtr : voidp A) (sortKey : Z) : loc * heap :=
  (brk h, mkHeap (<[brk h := mkListElement None sortKey itemPtr]> (cells h))
                 (Pos.succ (brk h))).
(** [delete p] *)
Definition delete_ListElement (h : heap) (p : option loc) : res heap :=
  _ ← deref h p;
  match p with
  | Some a => Ok (mkHeap (delete a (cells h)) (brk h))
  | None => UB
  end.

Definition new_List : List := mkList None None.

Definition IsEmpty (l : List) : bool :=
  match first l with None => true | Some _ => false end.

Definition Append (l : List) (h : heap) (it : voidp A) : res (List * heap) :=
  let '(element, h) := new_ListElement h it 0 in
  if IsEmpty l then Ok (mkList (Some element) (Some element), h)
  else
    h ← set_next h (last l) (Some element);
    Ok (mkList (first l) (Some element), h).

Definition Prepend (l : List) (h : heap) (it : voidp A) : res (List * heap) :=
  let '(element, h) := new_ListElement h it 0 in
  if IsEmpty l then Ok (mkList (Some element) (Some element), h)
  else
    h ← set_next h (Some element) (first l);
    Ok (mkList (Some element) (last l), h).

(** [for (ptr = first; ptr->next != NULL; ptr = ptr->next)] of
    [SortedInsert]: returns [None] when the loop ran to the end. *)
Fixpoint sorted_insert_loop (fuel : nat) (h : heap) (element : loc)
    (sortKey : Z) (ptr : option loc) : res (option heap) :=
  match fuel with
  | O => NoFuel
  | S fuel' =>
      p ← deref h ptr;
      match next p with
      | None => Ok None
      | Some _ =>
          nx ← deref h (next p);
          if sortKey <? key nx then
            h ← set_next h (Some element) (next p);
            h ← set_next h ptr (Some element);
            Ok (Some h)
          else sorted_insert_loop fuel' h element sortKey (next p)
      end
  end.

(** The walk visits each allocated cell at most once, so the number of
    cells is enough fuel. *)
Definition SortedInsert (l : List) (h : heap) (it : voidp A) (sortKey : Z)
    : res (List * heap) :=
  let '(element, h) := new_ListElement h it sortKey in
  if IsEmpty l then Ok (mkList (Some element) (Some element), h)
  else
    f ← deref h (first l);
    if sortKey <? key f then
      h ← set_next h (Some element) (first l);
      Ok (mkList (Some element) (last l), h)
    else
      r ← sorted_insert_loop (size (cells h)) h element sortKey (first l);
      match r with
      | Some h => Ok (l, h)
      | None =>
          h ← set_next h (last l) (Some element);
          Ok (mkList (first l) (Some element), h)
      end.

(** Returns the item (NULL when the list is empty) and the key stored
    through [keyPtr], [None] when nothing is stored. *)
Definition SortedRemove (l : List) (h : heap)
    : res (voidp A * option Z * List * heap) :=
  if IsEmpty l then Ok (None, None, l, h)
  else
    element ← deref h (first l);
    let l' := if decide (first l = last l) then mkList None None
              else mkList (next element) (last l) in
    h' ← delete_ListElement h (first l);
    Ok (item element, Some (key element), l', h').

Definition Remove (l : List) (h : heap) : res (voidp A * List * heap) :=
  '(it, _, l', h') ← SortedRemove l h; Ok (it, l', h').

(** [~List]: [while (Remove() != NULL) ;] *)
Fixpoint delete_List (fuel : nat) (l : List) (h : heap) : res (List * heap) :=
  match fuel with
  | O => NoFuel
  | S fuel' =>
      '(it, l', h') ← Remove l h;
      match it with
      | None => Ok (l', h')
      | Some _ => delete_List fuel' l' h'
      end
  end.

(** [Mapcar]: [func] is run on every item, front first; it acts on a
    state of its own. *)
Fixpoint mapcar_loop {S} (fuel : nat) (h : heap) (func : voidp A -> S -> S)
    (ptr : option loc) (s : S) : res S :=
  match ptr with
  | None => Ok s
  | Some _ =>
      match fuel with
      | O => NoFuel
      | Datatypes.S fuel' =>
          e ← deref h ptr;
          mapcar_loop fuel' h func (next e) (func (item e) s)
      end
  end.
Definition Mapcar {S} (l : List) (h : heap) (func : voidp A -> S -> S) (s : S) : res S :=
  mapcar_loop (size (cells h)) h func (first l) s.
End list.
Arguments ListElement : clear implicits.
Arguments heap : clear implicits.
End Impl.

(** ** Representation: a linked segment and the sequence it holds *)

Section rep.
Context {A : Type}.
Implicit Types (m : gmap Impl.loc (Impl.ListElement A)) (ls : list Impl.loc)
  (xs : list (Z * voidp A)) (p q r : option Impl.loc).

(** [seg m p q ls xs]: following [next] from [p] visits the cells [ls],
    which hold [xs], and arrives at [q]. *)
Fixpoint seg m p q ls xs : Prop :=
  match ls, xs with
  | [], [] => p = q
  | a :: ls', (k, it) :: xs' =>
      p = Some a /\
      exists r, m !! a = Some (Impl.mkListElement r k it) /\ seg m r q ls' xs'
  | _, _ => False
  end.

(** The heap's allocator is ahead of every cell. *)
Definition heap_ok (h : Impl.heap A) : Prop :=
  forall a, is_Some (Impl.cells h !! a) -> (a < Impl.brk h)%positive.

(** List object [l] stores the sequence [xs] in the cells [ls]. *)
Record lrep (h : Impl.heap A) (l : Impl.List) ls xs : Prop := {
  lrep_heap : heap_ok h;
  lrep_seg : seg (Impl.cells h) (Impl.first l) None ls xs;
  lrep_nodup : NoDup ls;
  lrep_last : Impl.last l = list.last ls
}.

(** Cells outside [ls] are as they were. *)
Definition frame (h h' : Impl.heap A) ls : Prop :=
  forall a e, a ∉ ls -> Impl.cells h !! a = Some e -> Impl.cells h' !! a = Some e.

(** One cell was allocated and joined the list. *)
Definition grown (h h' : Impl.heap A) ls ls' : Prop :=
  ls' ≡ₚ Impl.brk h :: ls /\ (Impl.brk h < Impl.brk h')%positive.

Lemma seg_length m p q ls xs : seg m p q ls xs -> length ls = length xs.
Proof. revert p xs. induction ls as [|a ls IH]; intros p [|[k it] xs]; naive_solver. Qed.

Lemma seg_ext m m' p q ls xs :
  seg m p q ls xs -> (forall a, a ∈ ls -> m' !! a = m !! a) -> seg m' p q ls xs.
Proof.
  revert p xs. induction ls as [|a ls IH]; intros p [|[k it] xs]; simpl; try done.
  intros (-> & r & Hl & Hs) Hm. split; [done|]. exists r. split.
  - rewrite Hm; [done | set_solver].
  - apply IH; [done | set_solver].
Qed.

Lemma seg_app m p q ls1 ls2 xs1 xs2 :
  length ls1 = length xs1 ->
  seg m p q (ls1 ++ ls2) (xs1 ++ xs2) <->
  exists r, seg m p r ls1 xs1 /\ seg m r q ls2 xs2.
Proof.
  revert p xs1. induction ls1 as [|a ls1 IH]; intros p [|[k it] xs1] Hlen; simplify_eq/=.
  - naive_solver.
  - setoid_rewrite IH; [|done]. naive_solver.
Qed.

Lemma seg_allocated m p q ls xs a : seg m p q ls xs -> a ∈ ls -> is_Some (m !! a).
Proof.
  revert p xs. induction ls as [|b ls IH]; intros p [|[k it] xs]; simpl; try set_solver.
Qed.

(** The cells of a list are no more than the cells of the heap. *)
Lemma seg_size m p q ls xs : seg m p q ls xs -> NoDup ls -> (length ls <= size m)%nat.
Proof.
  intros Hs Hnd. rewrite <-(size_dom (D:=gset Impl.loc)).
  rewrite <-(size_list_to_set (C:=gset Impl.loc) ls) by done.
  apply subseteq_size. intros a. rewrite elem_of_list_to_set, elem_of_dom.
  by apply seg_allocated with (1:=Hs).
Qed.

Lemma fresh_not_in h l ls xs : lrep h l ls xs -> Impl.brk h ∉ ls.
Proof.
  intros [Hh Hs _ _] Hin. pose proof (seg_allocated _ _ _ _ _ _ Hs Hin) as Ha.
  specialize (Hh _ Ha). lia.
Qed.

Lemma heap_ok_fresh h : heap_ok h -> Impl.cells h !! Impl.brk h = None.
Proof. intros Hh. apply eq_None_not_Some. intros Ha. specialize (Hh _ Ha). lia. Qed.

Lemma heap_ok_new h it k : heap_ok h -> heap_ok (Impl.new_ListElement h it k).2.
Proof.
  intros Hh a. simpl. rewrite lookup_insert. case_decide; [lia|].
  intros Ha%Hh. lia.
Qed.

Lemma IsEmpty_spec h l ls xs : lrep h l ls xs -> Impl.IsEmpty l = bool_decide (xs = []).
Proof.
  intros [_ Hs _ _]. unfold Impl.IsEmpty.
  destruct ls, xs as [|[k it] xs]; simpl in Hs; try done.
  - by rewrite Hs.
  - destruct Hs as [-> _]. done.
Qed.

(** [p->next = q] on an allocated cell. *)
Lemma set_next_Ok (h : Impl.heap A) a q r k it :
  Impl.cells h !! a = Some (Impl.mkListElement r k it) ->
  Impl.set_next h (Some a) q =
    Ok (Impl.mkHeap (<[a := Impl.mkListElement q k it]> (Impl.cells h)) (Impl.brk h)).
Proof. intros H. unfold Impl.set_next, Impl.store. simpl. by rewrite H. Qed.

Lemma heap_ok_insert h a e :
  heap_ok h -> is_Some (Impl.cells h !! a) ->
  heap_ok (Impl.mkHeap (<[a := e]> (Impl.cells h)) (Impl.brk h)).
Proof.
  intros Hh Ha b. simpl. rewrite lookup_insert. case_decide; [subst; auto|apply Hh].
Qed.
End rep.

(** ** The operations implement the sequence operations *)

Section ops.
Context {A : Type}.
Implicit Types (h : Impl.heap A) (l : Impl.List) (ls : list Impl.loc)
  (xs : list (Z * voidp A)) (it : voidp A).

(** Linking a fresh cell after the last one, the tail end of [Append] and
    of [SortedInsert]. *)
Lemma link_last h l ls xs it k :
  lrep h l ls xs -> xs <> [] ->
  let h1 := (Impl.new_ListElement h it k).2 in
  exists h', Impl.set_next h1 (Impl.last l) (Some (Impl.brk h)) = Ok h' /\
    lrep h' (Impl.mkList (Impl.first l) (Some (Impl.brk h)))
      (ls ++ [Impl.brk h]) (xs ++ [(k, it)]) /\ frame h h' ls /\
    grown h h' ls (ls ++ [Impl.brk h]).
Proof.
  intros Hrep Hne h1. pose proof (fresh_not_in _ _ _ _ Hrep) as Hfr.
  destruct Hrep as [Hh Hs Hnd Hlast].
  destruct xs as [|[k0 i0] xs _] using rev_ind; [done|]. clear Hne.
  pose proof (seg_length _ _ _ _ _ Hs) as Hlen.
  destruct ls as [|a ls _] using rev_ind; [by rewrite length_app in Hlen; simpl in Hlen; lia|].
  rewrite !length_app in Hlen. simpl in Hlen.
  apply seg_app in Hs as (r & Hs1 & -> & r' & Ha & Hr'); [simpl in Hr'|lia]. subst r'.
  rewrite last_snoc in Hlast. rewrite Hlast.
  pose proof Hnd as (Hnd1 & Hdisj & _)%NoDup_app.
  assert (a <> Impl.brk h) as Hab by set_solver.
  eexists. split; [eapply set_next_Ok; simpl; by rewrite lookup_insert_ne|].
  split; [split|split].
  - apply heap_ok_insert; [by apply heap_ok_new|].
    simpl. rewrite lookup_insert_ne by done. by eexists.
  - simpl. apply seg_app; [rewrite !length_app; simpl; lia|]. exists (Some (Impl.brk h)). split.
    + apply seg_app; [lia|]. exists (Some a). split.
      * apply seg_ext with (1:=Hs1). intros b Hb. rewrite !lookup_insert_ne; set_solver.
      * simpl. split; [done|]. eexists. by rewrite lookup_insert_eq.
    + simpl. split; [done|]. exists None.
      rewrite lookup_insert_ne by done. by rewrite lookup_insert_eq.
  - apply NoDup_app. split; [done|]. split; [set_solver|apply NoDup_singleton].
  - by rewrite last_snoc.
  - intros b e Hb Hbe. simpl. rewrite !lookup_insert_ne; [done| |set_solver].
    intros <-. rewrite heap_ok_fresh in Hbe; done.
  - split; [by rewrite Permutation_app_comm|simpl; lia].
Qed.

(** A fresh cell alone, first operation on an empty list. *)
Lemma link_empty h l ls it k :
  lrep h l ls [] ->
  let h1 := (Impl.new_ListElement h it k).2 in
  lrep h1 (Impl.mkList (Some (Impl.brk h)) (Some (Impl.brk h))) [Impl.brk h] [(k, it)]
  /\ frame h h1 ls /\ grown h h1 ls [Impl.brk h].
Proof.
  intros [Hh Hs Hnd Hlast] h1. pose proof (seg_length _ _ _ _ _ Hs) as Hlen.
  split; [split|split].
  - by apply heap_ok_new.
  - simpl. split; [done|]. exists None. by rewrite lookup_insert_eq.
  - apply NoDup_singleton.
  - done.
  - intros b e Hb Hbe. simpl. rewrite lookup_insert_ne; [done|].
    intros <-. rewrite heap_ok_fresh in Hbe; done.
  - split; [by destruct ls|simpl; lia].
Qed.

(** A fresh cell before the first one. *)
Lemma link_first h l ls xs it k :
  lrep h l ls xs -> xs <> [] ->
  let h1 := (Impl.new_ListElement h it k).2 in
  exists h', Impl.set_next h1 (Some (Impl.brk h)) (Impl.first l) = Ok h' /\
    lrep h' (Impl.mkList (Some (Impl.brk h)) (Impl.last l))
      (Impl.brk h :: ls) ((k, it) :: xs) /\ frame h h' ls /\
    grown h h' ls (Impl.brk h :: ls).
Proof.
  intros Hrep Hne h1. pose proof (fresh_not_in _ _ _ _ Hrep) as Hfr.
  destruct Hrep as [Hh Hs Hnd Hlast].
  eexists. split; [eapply set_next_Ok; simpl; by rewrite lookup_insert_eq|].
  split; [split|split].
  - apply heap_ok_insert; [by apply heap_ok_new|]. simpl. rewrite lookup_insert_eq. by eexists.
  - simpl. split; [done|]. eexists. rewrite lookup_insert_eq. split; [done|].
    apply seg_ext with (1:=Hs). intros b Hb. rewrite !lookup_insert_ne; set_solver.
  - by apply NoDup_cons.
  - simpl. rewrite Hlast. pose proof (seg_length _ _ _ _ _ Hs).
    destruct ls, xs; simpl in *; try done.
  - intros b e Hb Hbe. simpl. rewrite !lookup_insert_ne; [done| |];
      intros <-; rewrite heap_ok_fresh in Hbe; done.
  - split; [done|simpl; lia].
Qed.

Lemma IsEmpty_false h l ls xs : lrep h l ls xs -> xs <> [] -> Impl.IsEmpty l = false.
Proof. intros Hrep Hne. rewrite (IsEmpty_spec _ _ _ _ Hrep). by rewrite bool_decide_false. Qed.

Lemma IsEmpty_true h l ls : lrep h l ls [] -> Impl.IsEmpty l = true.
Proof. intros Hrep. by rewrite (IsEmpty_spec _ _ _ _ Hrep). Qed.

(** [Append] puts the item at the end. *)
Lemma Append_refines h l ls xs it :
  lrep h l ls xs ->
  exists l' h' ls', Impl.Append l h it = Ok (l', h') /\
    lrep h' l' ls' (Spec.append it xs) /\ frame h h' ls /\ grown h h' ls ls'.
Proof.
  intros Hrep. unfold Impl.Append, Spec.append. simpl.
  destruct (decide (xs = [])) as [->|Hne].
  - rewrite (IsEmpty_true _ _ _ Hrep).
    destruct (link_empty h l ls it 0 Hrep) as (H1 & H2 & H3). eauto 10.
  - rewrite (IsEmpty_false _ _ _ _ Hrep Hne).
    destruct (link_last h l ls xs it 0 Hrep Hne) as (h' & Hsn & H1 & H2 & H3).
    simpl in Hsn. rewrite Hsn. simpl. eauto 10.
Qed.

(** [Prepend] puts the item at the front. *)
Lemma Prepend_refines h l ls xs it :
  lrep h l ls xs ->
  exists l' h' ls', Impl.Prepend l h it = Ok (l', h') /\
    lrep h' l' ls' (Spec.prepend it xs) /\ frame h h' ls /\ grown h h' ls ls'.
Proof.
  intros Hrep. unfold Impl.Prepend, Spec.prepend. simpl.
  destruct (decide (xs = [])) as [->|Hne].
  - rewrite (IsEmpty_true _ _ _ Hrep).
    destruct (link_empty h l ls it 0 Hrep) as (H1 & H2 & H3). eauto 10.
  - rewrite (IsEmpty_false _ _ _ _ Hrep Hne).
    destruct (link_first h l ls xs it 0 Hrep Hne) as (h' & Hsn & H1 & H2 & H3).
    simpl in Hsn. rewrite Hsn. simpl. eauto 10.
Qed.
End ops.

Section sorted_ops.
Context {A : Type}.
Implicit Types (h : Impl.heap A) (l : Impl.List) (ls : list Impl.loc)
  (xs : list (Z * voidp A)) (it : voidp A).

(** The search loop of [SortedInsert], started at a cell whose key is not
    above [sk]: it links the new cell in before the first larger key and
    keeps the last cell, or reports that no key is larger. *)
Lemma sorted_insert_loop_spec h el it sk : forall ls a k i xs fuel,
  seg (Impl.cells h) (Some a) None (a :: ls) ((k, i) :: xs) ->
  NoDup (a :: ls) -> el ∉ a :: ls ->
  Impl.cells h !! el = Some (Impl.mkListElement None sk it) ->
  k <= sk -> (length (a :: ls) <= fuel)%nat ->
  (Impl.sorted_insert_loop fuel h el sk (Some a) = Ok None /\
   Spec.sorted_insert it sk ((k, i) :: xs) = ((k, i) :: xs) ++ [(sk, it)]) \/
  exists m' ls', Impl.sorted_insert_loop fuel h el sk (Some a) =
      Ok (Some (Impl.mkHeap m' (Impl.brk h))) /\
    seg m' (Some a) None (a :: ls') (Spec.sorted_insert it sk ((k, i) :: xs)) /\
    ls' ≡ₚ el :: ls /\ list.last (a :: ls') = list.last (a :: ls) /\
    dom m' = dom (Impl.cells h) /\
    (forall b, b ∉ el :: a :: ls -> m' !! b = Impl.cells h !! b).
Proof.
  induction ls as [|b ls IH]; intros a k i xs [|fuel] Hs Hnd Hel Hcel Hk Hf;
    simpl in Hf; try lia; destruct Hs as (_ & r & Ha & Hs); simpl; rewrite Ha; simpl.
  - destruct xs; [|done]. simpl in Hs. subst r. left. split; [done|]. by zcases.
  - destruct xs as [|[k2 i2] xs]; [done|]. pose proof Hs as Hs0.
    destruct Hs as (-> & r' & Hb & Hs). simpl. rewrite Hb. simpl.
    apply NoDup_cons in Hnd as [Hab Hnd].
    destruct (Z.ltb_spec sk k) as [|_]; [lia|]. simpl.
    destruct (Z.ltb_spec sk k2) as [Hlt|Hge]; simpl.
    + right. erewrite set_next_Ok by done. simpl.
      rewrite set_next_Ok with (r:=Some b) (k:=k) (it:=i)
        by (simpl; rewrite lookup_insert_ne; [done|set_solver]).
      eexists _, (el :: b :: ls). split; [done|]. split; [split; [done|]|split_and!].
      * exists (Some el). rewrite lookup_insert_eq. split; [done|]. split; [done|].
        exists (Some b). rewrite lookup_insert_ne by set_solver. cbn [Impl.cells].
        rewrite lookup_insert_eq.
        split; [done|]. apply seg_ext with (1:=Hs0). intros c Hc. cbn [Impl.cells].
        rewrite !lookup_insert_ne; set_solver.
      * done.
      * done.
      * simpl. rewrite !dom_insert_lookup_L; [done|by eexists|].
        rewrite lookup_insert_ne by set_solver. by eexists.
      * intros c Hc. simpl. rewrite !lookup_insert_ne; set_solver.
    + destruct (IH b k2 i2 xs fuel) as [[-> Hsp]|(m' & ls' & -> & Hseg & Hp & Hl & Hd & Hfr)];
        [done|done|set_solver|done|done|simpl; lia|left|right].
      * split; [done|]. f_equal. simpl in Hsp. destruct (Z.ltb_spec sk k2); [lia|done].
      * eexists m', (b :: ls'). split; [done|]. split; [split; [done|]|split_and!].
        -- exists (Some b). rewrite Hfr by set_solver. split; [done|].
           simpl in Hseg. destruct (Z.ltb_spec sk k2); [lia|]. exact Hseg.
        -- rewrite Hp. apply perm_swap.
        -- simpl in *. by rewrite Hl.
        -- done.
        -- intros c Hc. apply Hfr. set_solver.
Qed.

(** [SortedInsert] puts the item after every key that is not larger, so
    before the first larger key: the list stays sorted, and items with
    equal keys keep their order of insertion. *)
Lemma SortedInsert_refines h l ls xs it sk :
  lrep h l ls xs ->
  exists l' h' ls', Impl.SortedInsert l h it sk = Ok (l', h') /\
    lrep h' l' ls' (Spec.sorted_insert it sk xs) /\ frame h h' ls /\ grown h h' ls ls'.
Proof.
  intros Hrep. unfold Impl.SortedInsert. simpl.
  destruct (decide (xs = [])) as [->|Hne].
  { rewrite (IsEmpty_true _ _ _ Hrep).
    destruct (link_empty h l ls it sk Hrep) as (H1 & H2 & H3). eauto 10. }
  rewrite (IsEmpty_false _ _ _ _ Hrep Hne).
  pose proof (fresh_not_in _ _ _ _ Hrep) as Hfr.
  pose proof Hrep as [Hh Hs Hnd Hlast].
  destruct ls as [|a ls], xs as [|[k i] xs]; try done.
  pose proof Hs as (Hf & r & Ha & Hs1). rewrite Hf. simpl.
  rewrite lookup_insert_ne by set_solver. rewrite Ha. simpl.
  destruct (Z.ltb_spec sk k) as [Hlt|Hge].
  { destruct (link_first h l (a :: ls) _ it sk Hrep Hne) as (h' & Hsn & H1 & H2 & H3).
    simpl in Hsn. rewrite Hf in Hsn. rewrite Hsn. simpl. eauto 10. }
  set (h1 := (Impl.new_ListElement h it sk).2).
  assert (seg (Impl.cells h1) (Some a) None (a :: ls) ((k, i) :: xs)) as Hs2.
  { rewrite <-Hf. apply seg_ext with (1:=Hs). intros b Hb. simpl.
    rewrite lookup_insert_ne; set_solver. }
  pose proof (seg_size _ _ _ _ _ Hs2 Hnd) as Hsz.
  destruct (sorted_insert_loop_spec h1 (Impl.brk h) it sk ls a k i xs (size (Impl.cells h1)))
    as [[Hlp Hsp]|(m' & ls' & Hlp & Hseg & Hp & Hl & Hd & Hfr2)];
    [done|done|done|by simpl; rewrite lookup_insert_eq|done|done| |].
  - unfold h1 in Hlp. simpl in Hlp. rewrite Hlp. simpl.
    destruct (link_last h l (a :: ls) _ it sk Hrep Hne) as (h' & Hsn & H1 & H2 & H3).
    simpl in Hsn. rewrite Hsn. simpl. simpl in Hsp.
    destruct (Z.ltb_spec sk k) as [|_]; [lia|].
    injection Hsp as ->. rewrite Hf in H1. eauto 10.
  - unfold h1 in Hlp. simpl in Hlp. rewrite Hlp. simpl. eexists _, _, (a :: ls'). split; [done|].
    simpl in Hseg. destruct (Z.ltb_spec sk k) as [|_]; [lia|]. split; [split|split].
    + intros b Hb%elem_of_dom. simpl in Hb. rewrite Hd in Hb.
      by apply (heap_ok_new h it sk Hh), elem_of_dom.
    + rewrite Hf. done.
    + rewrite Hp. apply NoDup_cons in Hnd as [? ?].
      apply NoDup_cons. split; [set_solver|].
      apply NoDup_cons. split; [set_solver|done].
    + rewrite Hlast. done.
    + intros b e Hb Hbe. simpl.
      assert (b <> Impl.brk h) by (intros ->; by rewrite heap_ok_fresh in Hbe).
      rewrite Hfr2 by set_solver. simpl. by rewrite lookup_insert_ne.
    + split; [rewrite Hp; apply perm_swap|simpl; lia].
Qed.

(** [SortedRemove] takes the front off, key and item; NULL on an empty
    list. *)
Lemma SortedRemove_refines h l ls xs :
  lrep h l ls xs ->
  let '(out, xs') := Spec.sorted_remove xs in
  exists l' h', Impl.SortedRemove l h =
      Ok (out ≫= snd, fst <$> out, l', h') /\
    lrep h' l' (tail ls) xs' /\
    (forall b, Impl.cells h' !! b =
       if decide (head ls = Some b) then None else Impl.cells h !! b).
Proof.
  intros Hrep. unfold Impl.SortedRemove.
  destruct xs as [|[k i] xs]; simpl.
  { rewrite (IsEmpty_true _ _ _ Hrep).
    assert (ls = []) as -> by (apply nil_length_inv; apply (seg_length _ _ _ _ _ (lrep_seg _ _ _ _ Hrep))).
    exists l, h. split_and!; done. }
  rewrite (IsEmpty_false _ _ _ _ Hrep) by done.
  destruct Hrep as [Hh Hs Hnd Hlast].
  destruct ls as [|a ls]; [done|]. destruct Hs as (Hf & r & Ha & Hs).
  rewrite Hf. unfold Impl.delete_ListElement. simpl. rewrite Ha. simpl.
  apply NoDup_cons in Hnd as [Hal Hnd].
  eexists _, _. split; [done|]. split; [split|]; simpl.
  - intros b. simpl. rewrite lookup_delete. case_decide; [by intros []|apply Hh].
  - assert (seg (delete a (Impl.cells h)) r None ls xs) as Hs'.
    { apply seg_ext with (1:=Hs). intros b Hb. rewrite lookup_delete_ne; [done|set_solver]. }
    case_decide as Heq; simpl; [|done].
    rewrite Hlast in Heq. destruct ls as [|b ls]; [by destruct xs; simpl in *; subst|].
    rewrite last_cons_cons in Heq. exfalso. apply Hal. by apply last_Some_elem_of.
  - done.
  - case_decide as Heq; simpl.
    + rewrite Hlast in Heq. destruct ls as [|b ls]; [done|].
      rewrite last_cons_cons in Heq. exfalso. apply Hal. by apply last_Some_elem_of.
    + rewrite Hlast. destruct ls as [|b ls]; [|done]. exfalso. apply Heq. by rewrite Hlast.
  - intros b. rewrite lookup_delete. by repeat case_decide; simplify_eq.
Qed.

Lemma Remove_refines h l ls xs :
  lrep h l ls xs ->
  let '(out, xs') := Spec.sorted_remove xs in
  exists l' h', Impl.Remove l h = Ok (out ≫= snd, l', h') /\
    lrep h' l' (tail ls) xs' /\
    (forall b, Impl.cells h' !! b =
       if decide (head ls = Some b) then None else Impl.cells h !! b).
Proof.
  intros Hrep. pose proof (SortedRemove_refines h l ls xs Hrep) as H.
  destruct (Spec.sorted_remove xs) as [o xs'].
  destruct H as (l' & h' & Hrun & H1 & H2). unfold Impl.Remove. rewrite Hrun. simpl. eauto.
Qed.

(** The destructor gives back every cell of a list without NULL items. *)
Lemma delete_List_frees ls : forall h l xs,
  lrep h l ls xs -> Forall (fun x => is_Some x.2) xs ->
  exists l' h', Impl.delete_List (S (length xs)) l h = Ok (l', h') /\
    Impl.IsEmpty l' = true /\
    (forall b, Impl.cells h' !! b = if decide (b ∈ ls) then None else Impl.cells h !! b).
Proof.
  induction ls as [|a ls IH]; intros h l xs Hrep Hall;
    pose proof (Remove_refines h l _ xs Hrep) as Hrm;
    pose proof (seg_length _ _ _ _ _ (lrep_seg _ _ _ _ Hrep)) as Hlen;
    destruct xs as [|[k i] xs]; simpl in Hlen; try done; simpl in Hrm |- *;
    destruct Hrm as (l' & h' & -> & Hrep' & Hc); simpl.
  - exists l', h'. split; [done|]. split; [by apply (IsEmpty_true _ _ _ Hrep')|].
    intros b. rewrite Hc. done.
  - apply Forall_cons in Hall as [[v Hv] Hall]. simpl in Hv. subst i.
    destruct (IH h' l' xs Hrep' Hall) as (l2 & h2 & Hrun & He & Hc2).
    exists l2, h2. split; [exact Hrun|]. split; [done|]. intros b. rewrite Hc2, Hc.
    repeat case_decide; simplify_eq; try done; set_solver.
Qed.

(** [Mapcar] runs the function on the items in list order. *)
Lemma mapcar_loop_fold {T} (func : voidp A -> T -> T) ls : forall m xs p (s : T) fuel h,
  Impl.cells h = m -> seg m p None ls xs -> (length ls <= fuel)%nat ->
  Impl.mapcar_loop fuel h func p s = Ok (foldl (fun s x => func x.2 s) s xs).
Proof.
  induction ls as [|a ls IH]; intros m xs p s fuel h <- Hs Hf;
    destruct xs as [|[k i] xs]; try done; simpl in Hs.
  - subst p. by destruct fuel.
  - destruct Hs as (-> & r & Ha & Hs). destruct fuel as [|fuel]; simpl in Hf; [lia|].
    simpl. rewrite Ha. simpl. eapply IH; [done|exact Hs|lia].
Qed.
End sorted_ops.

(** ** The order of a sorted list *)

Section order.
Context {A : Type}.
Implicit Types (xs : list (Z * voidp A)) (it : voidp A).

Lemma sorted_insert_perm it k xs : Spec.sorted_insert it k xs ≡ₚ (k, it) :: xs.
Proof.
  induction xs as [|[k' y] xs IH]; simpl; [done|].
  destruct (k <? k'); [done|]. rewrite IH. apply perm_swap.
Qed.

Lemma sorted_insert_sorted it k xs :
  Spec.sorted xs -> Spec.sorted (Spec.sorted_insert it k xs).
Proof.
  unfold Spec.sorted. induction 1 as [|[k' y] xs Hs IH Hall]; simpl.
  - repeat constructor.
  - destruct (Z.ltb_spec k k') as [Hlt|Hge].
    + constructor; [by constructor|]. constructor; [unfold Spec.key_le; simpl; lia|].
      eapply Forall_impl; [exact Hall|]. unfold Spec.key_le. simpl. lia.
    + constructor; [done|]. rewrite sorted_insert_perm.
      constructor; [done|exact Hall].
Qed.

Lemma sorted_insert_stable it k xs :
  Spec.sorted xs ->
  filter (fun x => x.1 = k) (Spec.sorted_insert it k xs) =
  filter (fun x => x.1 = k) xs ++ [(k, it)].
Proof.
  unfold Spec.sorted.
  induction 1 as [|[k' y] xs Hs IH Hall]; cbn [Spec.sorted_insert].
  - by rewrite filter_cons_True.
  - destruct (Z.ltb_spec k k') as [Hlt|Hge].
    + rewrite filter_cons_True by done.
      assert (filter (fun x : Z * voidp A => x.1 = k) ((k', y) :: xs) = []) as ->; [|done].
      apply filter_none. constructor; [simpl; lia|].
      eapply Forall_impl; [exact Hall|]. unfold Spec.key_le. simpl. lia.
    + rewrite !filter_cons. case_decide; rewrite IH; done.
Qed.

Lemma sorted_remove_least k it xs xs' :
  Spec.sorted xs -> Spec.sorted_remove xs = (Some (k, it), xs') ->
  Spec.sorted xs' /\ Forall (fun x => k <= x.1) xs'.
Proof.
  intros Hs. destruct xs as [|x xs]; simpl; [done|]. intros [= -> ->].
  apply StronglySorted_inv in Hs as [Hs Hall]. split; [done|].
  eapply Forall_impl; [exact Hall|]. unfold Spec.key_le. simpl. lia.
Qed.
End order.

(** ** Traces of operations *)

Section trace.
Context {A : Type}.

Inductive lop :=
| OpAppend (it : voidp A)
| OpPrepend (it : voidp A)
| OpSortedInsert (it : voidp A) (k : Z)
| OpSortedRemove
| OpIsEmpty.

Inductive lout :=
| OutUnit
| OutItem (it : voidp A) (k : option Z)
| OutBool (b : bool).

Definition impl_step (o : lop) (l : Impl.List) (h : Impl.heap A)
    : res (lout * Impl.List * Impl.heap A) :=
  match o with
  | OpAppend it => '(l, h) ← Impl.Append l h it; Ok (OutUnit, l, h)
  | OpPrepend it => '(l, h) ← Impl.Prepend l h it; Ok (OutUnit, l, h)
  | OpSortedInsert it k => '(l, h) ← Impl.SortedInsert l h it k; Ok (OutUnit, l, h)
  | OpSortedRemove => '(it, k, l, h) ← Impl.SortedRemove l h; Ok (OutItem it k, l, h)
  | OpIsEmpty => Ok (OutBool (Impl.IsEmpty l), l, h)
  end.

Definition spec_step (o : lop) (xs : list (Z * voidp A)) : lout * list (Z * voidp A) :=
  match o with
  | OpAppend it => (OutUnit, Spec.append it xs)
  | OpPrepend it => (OutUnit, Spec.prepend it xs)
  | OpSortedInsert it k => (OutUnit, Spec.sorted_insert it k xs)
  | OpSortedRemove =>
      let '(o, xs') := Spec.sorted_remove xs in (OutItem (o ≫= snd) (fst <$> o), xs')
  | OpIsEmpty => (OutBool (bool_decide (xs = [])), xs)
  end.

Fixpoint impl_run (os : list lop) (l : Impl.List) (h : Impl.heap A)
    : res (list lout * Impl.List * Impl.heap A) :=
  match os with
  | [] => Ok ([], l, h)
  | o :: os' =>
      '(r, l, h) ← impl_step o l h;
      '(rs, l, h) ← impl_run os' l h;
      Ok (r :: rs, l, h)
  end.

Fixpoint spec_run (os : list lop) (xs : list (Z * voidp A))
    : list lout * list (Z * voidp A) :=
  match os with
  | [] => ([], xs)
  | o :: os' =>
      let '(r, xs) := spec_step o xs in
      let '(rs, xs) := spec_run os' xs in
      (r :: rs, xs)
  end.

(** The cells in [m] are not those of the list and are all allocated: they
    belong to someone else. *)
Definition others (m : gmap Impl.loc (Impl.ListElement A)) (h : Impl.heap A)
    (ls : list Impl.loc) : Prop :=
  forall a e, m !! a = Some e -> (a ∉ ls) /\ Impl.cells h !! a = Some e.

Lemma others_grown m h h' ls ls' :
  heap_ok h -> frame h h' ls -> grown h h' ls ls' -> others m h ls -> others m h' ls'.
Proof.
  intros Hh Hf [Hp _] Ho a e Ha. destruct (Ho a e Ha) as [Hn Hc]. split; [|by apply Hf].
  rewrite Hp, not_elem_of_cons. split; [|done].
  intros ->. rewrite heap_ok_fresh in Hc; done.
Qed.

Lemma impl_step_refines m o h l ls xs :
  lrep h l ls xs -> others m h ls ->
  exists l' h' ls', impl_step o l h = Ok ((spec_step o xs).1, l', h') /\
    lrep h' l' ls' (spec_step o xs).2 /\ others m h' ls'.
Proof.
  intros Hrep Ho. pose proof (lrep_heap _ _ _ _ Hrep) as Hh. destruct o; simpl.
  - destruct (Append_refines h l ls xs it Hrep) as (l' & h' & ls' & -> & H & Hf & Hg).
    simpl. eauto 10 using others_grown.
  - destruct (Prepend_refines h l ls xs it Hrep) as (l' & h' & ls' & -> & H & Hf & Hg).
    simpl. eauto 10 using others_grown.
  - destruct (SortedInsert_refines h l ls xs it k Hrep) as (l' & h' & ls' & -> & H & Hf & Hg).
    simpl. eauto 10 using others_grown.
  - pose proof (SortedRemove_refines h l ls xs Hrep) as H.
    destruct (Spec.sorted_remove xs) as [o xs'].
    destruct H as (l' & h' & -> & H & Hc). simpl. do 3 eexists. split; [done|].
    split; [exact H|]. intros a e Ha. destruct (Ho a e Ha) as [Hn Hca]. rewrite Hc.
    destruct ls as [|b ls]; simpl in *; [done|].
    rewrite decide_False by set_solver. set_solver.
  - rewrite (IsEmpty_spec _ _ _ _ Hrep). eauto 10.
Qed.

Lemma impl_run_refines m os : forall h l ls xs,
  lrep h l ls xs -> others m h ls ->
  exists l' h' ls', impl_run os l h = Ok ((spec_run os xs).1, l', h') /\
    lrep h' l' ls' (spec_run os xs).2 /\ others m h' ls'.
Proof.
  induction os as [|o os IH]; intros h l ls xs Hrep Ho; simpl; [eauto 10|].
  destruct (impl_step_refines m o h l ls xs Hrep Ho) as (l1 & h1 & ls1 & -> & H1 & Ho1). simpl.
  destruct (spec_step o xs) as [r xs1]. simpl in *.
  destruct (IH h1 l1 ls1 xs1 H1 Ho1) as (l2 & h2 & ls2 & -> & H2 & Ho2). simpl.
  destruct (spec_run os xs1) as [rs xs2]. simpl in *. eauto 10.
Qed.
End trace.
Arguments lop : clear implicits.
Arguments lout : clear implicits.

(** ** Properties *)

(** C8. Refinement of the linked list.  Start with a new [List] in a heap
    where other objects live, and run any sequence of [Append], [Prepend],
    [SortedInsert], [SortedRemove] and [IsEmpty] calls as list.cc runs them
    on pointers: every call returns (no NULL or dangling pointer is followed
    and the search loop ends), the results are those of the sequence
    operations of [Spec], the final cells hold the final sequence, and the
    cells that were there before are untouched. *)
Theorem list_trace_refines {A} (h : Impl.heap A) (os : list (lop A)) :
  heap_ok h ->
  exists l' h' ls', impl_run os Impl.new_List h = Ok ((spec_run os []).1, l', h') /\
    lrep h' l' ls' (spec_run os []).2 /\
    (forall a e, Impl.cells h !! a = Some e -> Impl.cells h' !! a = Some e).
Proof.
  intros Hh.
  destruct (impl_run_refines (Impl.cells h) os h Impl.new_List [] [])
    as (l' & h' & ls' & Hr & Hl & Ho).
  - split; [done|done|apply NoDup_nil_2|done].
  - intros a e Ha. split; [set_solver|done].
  - exists l', h', ls'. split_and!; [done|done|]. intros a e Ha. by apply Ho.
Qed.

Lemma list_trace_refines_witness :
  exists l' h' ls',
    impl_run [OpSortedInsert (Some 7%nat) 5; OpSortedInsert (Some 8%nat) 3; OpSortedRemove]
      Impl.new_List (Impl.mkHeap ∅ 1%positive)
    = Ok ([OutUnit; OutUnit; OutItem (Some 8%nat) (Some 3)], l', h') /\
    lrep h' l' ls' [(5, Some 7%nat)].
Proof.
  destruct (list_trace_refines (Impl.mkHeap ∅ 1%positive)
    [OpSortedInsert (Some 7%nat) 5; OpSortedInsert (Some 8%nat) 3; OpSortedRemove])
    as (l' & h' & ls' & H1 & H2 & _).
  - intros a [e He]. simpl in He. discriminate He.
  - exists l', h', ls'. split; [exact H1|exact H2].
Defined.

(** Order of a sorted list.  Inserting with [SortedInsert] into a list
    sorted by key keeps it sorted, adds exactly the new element, and places
    it behind the elements with the same key (first in, first out for equal
    keys); taking the front off then yields a key that is at most every
    remaining one. *)
Theorem sorted_insert_priority_queue {A} (it : voidp A) (k : Z) (xs : list (Z * voidp A)) :
  Spec.sorted xs ->
  Spec.sorted (Spec.sorted_insert it k xs) /\
  Spec.sorted_insert it k xs ≡ₚ (k, it) :: xs /\
  filter (fun x => x.1 = k) (Spec.sorted_insert it k xs) =
    filter (fun x => x.1 = k) xs ++ [(k, it)] /\
  match Spec.sorted_remove (Spec.sorted_insert it k xs) with
  | (Some (k', _), rest) => Spec.sorted rest /\ Forall (fun x => k' <= x.1) rest
  | (None, _) => False
  end.
Proof.
  intros Hs. pose proof (sorted_insert_sorted it k xs Hs) as Hs'.
  split_and!; [done|apply sorted_insert_perm|by apply sorted_insert_stable|].
  destruct (Spec.sorted_insert it k xs) as [|[k' i] r] eqn:E.
  - pose proof (sorted_insert_perm it k xs) as Hp. rewrite E in Hp.
    by apply Permutation_nil_cons in Hp.
  - simpl. by apply (sorted_remove_least k' i ((k', i) :: r)).
Qed.

Lemma sorted_insert_priority_queue_witness :
  Spec.sorted_insert (Some 3%nat) 4 [(4, Some 1%nat); (6, Some 2%nat)]
    = [(4, Some 1%nat); (4, Some 3%nat); (6, Some 2%nat)] /\
  Spec.sorted (Spec.sorted_insert (Some 3%nat) 4 [(4, Some 1%nat); (6, Some 2%nat)]).
Proof.
  split; [reflexivity|].
  apply (sorted_insert_priority_queue (Some 3%nat) 4 [(4, Some 1%nat); (6, Some 2%nat)]).
  repeat constructor; unfold Spec.key_le; simpl; lia.
Defined.
