(* ===== verification/BitMap.v ===== *)
(** * userprog/bitmap.cc: bit maps of free and used items

    A [BitMap] is an array of 32-bit words.  The operations are the member
    functions, with their [ASSERT]s; the abstract view is [bit b i], the value
    of the [i]th item, and the theorems give every operation in terms of it.
    The file system uses a bit map for disk sectors, the kernel uses others for
    physical pages, process slots and semaphore slots.  [FetchFrom] and
    [WriteBack], which move the words through an open file, are in FileSys. *)

From S2P Require Import Prelude.
From stdpp Require Import list list_numbers sets.
#[local] Open Scope Z_scope.

Definition BitsInByte : Z := 8.
Definition BitsInWord : Z := 32.

Record BitMap := mkBitMap {
  numBits : Z;
  numWords : Z;
  map : list Z
}.

(** [ASSERT(which >= 0 && which < numBits)] *)
Definition in_range (b : BitMap) (which : Z) : bool :=
  (which >=? 0) && (which <? numBits b).

(** [1 << (which % BitsInWord)], an [int] *)
Definition bit_mask (which : Z) : Z := to_int (Z.shiftl 1 (Z.rem which BitsInWord)).

Definition Mark (b : BitMap) (which : Z) : res BitMap :=
  ASSERT in_range b which;
  w ← rd (map b) (Z.quot which BitsInWord);
  m ← wr (map b) (Z.quot which BitsInWord) (Z.lor w (to_uint (bit_mask which)));
  Ok (mkBitMap (numBits b) (numWords b) m).

Definition Clear (b : BitMap) (which : Z) : res BitMap :=
  ASSERT in_range b which;
  w ← rd (map b) (Z.quot which BitsInWord);
  m ← wr (map b) (Z.quot which BitsInWord)
         (Z.land w (to_uint (Z.lnot (bit_mask which))));
  Ok (mkBitMap (numBits b) (numWords b) m).

Definition Test (b : BitMap) (which : Z) : res bool :=
  ASSERT in_range b which;
  w ← rd (map b) (Z.quot which BitsInWord);
  Ok (negb (Z.land w (to_uint (bit_mask which)) =? 0)).

(** The constructor.  [new unsigned int[numWords]] leaves the words as the
    allocator found them ([junk]); only the [numBits] bits are cleared. *)
Definition new_BitMap (junk : list Z) (nitems : Z) : res BitMap :=
  let b := mkBitMap nitems (divRoundUp nitems BitsInWord) junk in
  for_range 0 nitems (fun i b => Clear b i) b.

Fixpoint find_loop (n : nat) (i : Z) (b : BitMap) : res (Z * BitMap) :=
  match n with
  | O => Ok (-1, b)
  | S n' =>
      t ← Test b i;
      if negb t then b' ← Mark b i; Ok (i, b') else find_loop n' (i + 1) b
  end.

Definition Find (b : BitMap) : res (Z * BitMap) := find_loop (Z.to_nat (numBits b)) 0 b.

(** The same body under a second name. *)
Definition FindFreeSlot (b : BitMap) : res (Z * BitMap) :=
  find_loop (Z.to_nat (numBits b)) 0 b.

Definition NumClear (b : BitMap) : res Z :=
  for_range 0 (numBits b)
    (fun i count => t ← Test b i; Ok (if negb t then count + 1 else count)) 0.

(** The numbers [Print] writes, in order. *)
Definition Print (b : BitMap) : res (list Z) :=
  for_range 0 (numBits b)
    (fun i out => t ← Test b i; Ok (if (t : bool) then (out ++ [i])%list else out)) [].

(** ** Abstract view and well-formedness *)

Definition bit (b : BitMap) (i : Z) : bool :=
  match zget (map b) (i / BitsInWord) with
  | Some w => Z.testbit w (i mod BitsInWord)
  | None => false
  end.

Record wf (b : BitMap) : Prop := {
  wf_bits : 0 <= numBits b;
  wf_words : numWords b = divRoundUp (numBits b) BitsInWord;
  wf_len : zlen (map b) = numWords b;
  wf_uint : Forall is_uint (map b)
}.

(** The items that are clear, and the number of them. *)
Definition clear_items (b : BitMap) : list Z :=
  filter (fun i => bit b i = false) (seqZ 0 (numBits b)).

(** ** Bits of words *)

Lemma two32_pow : two32 = 2 ^ 32.
Proof. reflexivity. Qed.

Lemma testbit_to_uint x k : 0 <= k < 32 -> Z.testbit (to_uint x) k = Z.testbit x k.
Proof. intros. unfold to_uint. rewrite two32_pow. apply Z.mod_pow2_bits_low. lia. Qed.

Lemma testbit_to_uint_high x k : 32 <= k -> Z.testbit (to_uint x) k = false.
Proof. intros. unfold to_uint. rewrite two32_pow. apply Z.mod_pow2_bits_high. lia. Qed.

Lemma testbit_to_int x k : 0 <= k < 32 -> Z.testbit (to_int x) k = Z.testbit x k.
Proof.
  intros. rewrite <-(testbit_to_uint (to_int x)), to_uint_to_int by lia.
  by apply testbit_to_uint.
Qed.

Lemma is_uint_bits x : is_uint x <-> 0 <= x /\ forall k, 32 <= k -> Z.testbit x k = false.
Proof.
  split.
  - intros H. split; [unfold_int; lia|]. intros k Hk. rewrite <-(to_uint_id x H).
    by apply testbit_to_uint_high.
  - intros [H0 H]. enough (to_uint x = x) as <- by apply to_uint_range.
    apply Z.bits_inj'. intros k Hk. destruct (Z.ltb_spec k 32).
    + by apply testbit_to_uint.
    + rewrite H by done. by apply testbit_to_uint_high.
Qed.

Lemma is_uint_lor x y : is_uint x -> is_uint y -> is_uint (Z.lor x y).
Proof.
  rewrite !is_uint_bits. intros [Hx Hxb] [Hy Hyb]. split; [by apply Z.lor_nonneg|].
  intros k Hk. by rewrite Z.lor_spec, Hxb, Hyb.
Qed.
Lemma is_uint_land x y : is_uint x -> is_uint y -> is_uint (Z.land x y).
Proof.
  rewrite !is_uint_bits. intros [Hx Hxb] [Hy Hyb]. split; [apply Z.land_nonneg; by left|].
  intros k Hk. by rewrite Z.land_spec, Hxb, Hyb.
Qed.

Lemma testbit_one_shift j k : 0 <= j -> 0 <= k -> Z.testbit (Z.shiftl 1 j) k = (k =? j).
Proof.
  intros. rewrite Z.shiftl_1_l, Z.pow2_bits_eqb by done. apply Z.eqb_sym.
Qed.

(** The mask of item [i] has exactly bit [i mod 32] set. *)
Lemma testbit_mask i k :
  0 <= i -> 0 <= k < 32 -> Z.testbit (bit_mask i) k = (k =? i mod BitsInWord).
Proof.
  intros. unfold bit_mask, BitsInWord. rewrite Z.rem_mod_nonneg by lia.
  rewrite testbit_to_int by done. apply testbit_one_shift; [|lia].
  pose proof (Z.mod_pos_bound i 32). lia.
Qed.

Lemma test_mask w i :
  is_uint w -> 0 <= i ->
  negb (Z.land w (to_uint (bit_mask i)) =? 0) = Z.testbit w (i mod BitsInWord).
Proof.
  intros Hw Hi. pose proof (Z.mod_pos_bound i BitsInWord) as Hm. unfold BitsInWord in *.
  assert (Z.land w (to_uint (bit_mask i)) =
          if Z.testbit w (i mod 32) then 2 ^ (i mod 32) else 0) as ->.
  { apply Z.bits_inj'. intros k Hk. rewrite Z.land_spec.
    assert (Z.testbit (to_uint (bit_mask i)) k = (k =? i mod 32)) as ->.
    { destruct (Z.ltb_spec k 32).
      - rewrite testbit_to_uint by lia. by apply testbit_mask.
      - rewrite testbit_to_uint_high by lia. symmetry. apply Z.eqb_neq. lia. }
    destruct (Z.eqb_spec k (i mod 32)) as [->|Hne].
    - destruct (Z.testbit w (i mod 32)) eqn:E; simpl.
      + rewrite Z.pow2_bits_true by lia. done.
      + by rewrite Z.testbit_0_l.
    - rewrite andb_false_r. destruct (Z.testbit w (i mod 32)).
      + rewrite Z.pow2_bits_false by lia. done.
      + by rewrite Z.testbit_0_l. }
  destruct (Z.testbit w (i mod 32)); [|done].
  destruct (Z.eqb_spec (2 ^ (i mod 32)) 0); [|done].
  pose proof (Z.pow_pos_nonneg 2 (i mod 32)). lia.
Qed.

(** ** Specifications of the operations *)

Lemma in_range_true b i : in_range b i = true <-> 0 <= i < numBits b.
Proof. unfold in_range. rewrite andb_true_iff, Z.geb_le, Z.ltb_lt. lia. Qed.

Lemma in_range_false b i : ~ (0 <= i < numBits b) -> in_range b i = false.
Proof. intros H. destruct (in_range b i) eqn:E; [|done]. by apply in_range_true in E. Qed.

(** The word that holds item [i]. *)
Lemma word_of_item b i :
  wf b -> 0 <= i < numBits b ->
  0 <= i / BitsInWord < zlen (map b) /\
  exists w, zget (map b) (i / BitsInWord) = Some w /\ is_uint w.
Proof.
  intros [Hb Hw Hl Hu] Hi.
  assert (0 <= i / BitsInWord < zlen (map b)) as Hr.
  { rewrite Hl, Hw. pose proof (divRoundUp_spec (numBits b) BitsInWord Hb eq_refl).
    unfold BitsInWord in *. split; [apply Z.div_pos; lia|]. apply Z.div_lt_upper_bound; lia. }
  split; [done|]. destruct (zget_is_Some _ _ Hr) as [w Hw']. exists w. split; [done|].
  by apply (Forall_zget _ _ _ _ Hu Hw').
Qed.

Lemma quot_word i : 0 <= i -> Z.quot i BitsInWord = i / BitsInWord.
Proof. intros. apply Z.quot_div_nonneg; [done|reflexivity]. Qed.

(** Writing a word [w'] in place of the word of item [i] changes the bits of
    that word only. *)
Lemma bit_update b i w' :
  wf b -> 0 <= i < numBits b -> is_uint w' ->
  let b' := mkBitMap (numBits b) (numWords b) (zset (map b) (i / BitsInWord) w') in
  wf b' /\
  forall j, bit b' j =
    if decide (j / BitsInWord = i / BitsInWord) then Z.testbit w' (j mod BitsInWord)
    else bit b j.
Proof.
  intros Hwf Hi Hw' b'. destruct (word_of_item b i Hwf Hi) as (Hr & w & Hw & _).
  destruct Hwf as [H1 H2 H3 H4]. split.
  - split; simpl; [done|done|by rewrite zlen_zset|by apply Forall_zset].
  - intros j. unfold bit, b'. simpl. rewrite zget_zset.
    destruct (decide (j / BitsInWord = i / BitsInWord)) as [He|He].
    + rewrite decide_True by done. done.
    + rewrite decide_False by naive_solver. done.
Qed.

Lemma same_word_bit i j :
  j / BitsInWord = i / BitsInWord -> (j mod BitsInWord = i mod BitsInWord <-> j = i).
Proof. unfold BitsInWord. intros. lia_mod. Qed.

Lemma mod_word_range i : 0 <= i mod BitsInWord < 32.
Proof. apply Z.mod_pos_bound. reflexivity. Qed.

Lemma Mark_spec b i :
  wf b -> 0 <= i < numBits b ->
  exists b', Mark b i = Ok b' /\ wf b' /\ numBits b' = numBits b /\
    forall j, bit b' j = (j =? i) || bit b j.
Proof.
  intros Hwf Hi. unfold Mark. rewrite (proj2 (in_range_true b i)) by done.
  rewrite quot_word by lia. destruct (word_of_item b i Hwf Hi) as (Hr & w & Hw & Hwu).
  rewrite (proj2 (rd_Ok _ _ _) Hw). simpl. rewrite wr_Ok by done. simpl.
  destruct (bit_update b i (Z.lor w (to_uint (bit_mask i)))) as [Hwf' Hbits];
    [done|done|apply is_uint_lor; [done|apply to_uint_range]|].
  eexists. split; [done|]. split; [done|]. split; [done|]. intros j. rewrite Hbits.
  pose proof (mod_word_range j). destruct (decide _) as [He|He].
  - rewrite Z.lor_spec, testbit_to_uint, testbit_mask by lia.
    unfold bit. rewrite He, Hw. pose proof (same_word_bit i j He).
    destruct (Z.eqb_spec (j mod BitsInWord) (i mod BitsInWord)), (Z.eqb_spec j i);
      rewrite ?orb_true_r, ?orb_false_r; try done; naive_solver.
  - destruct (Z.eqb_spec j i) as [->|]; done.
Qed.

Lemma Clear_spec b i :
  wf b -> 0 <= i < numBits b ->
  exists b', Clear b i = Ok b' /\ wf b' /\ numBits b' = numBits b /\
    forall j, bit b' j = negb (j =? i) && bit b j.
Proof.
  intros Hwf Hi. unfold Clear. rewrite (proj2 (in_range_true b i)) by done.
  rewrite quot_word by lia. destruct (word_of_item b i Hwf Hi) as (Hr & w & Hw & Hwu).
  rewrite (proj2 (rd_Ok _ _ _) Hw). simpl. rewrite wr_Ok by done. simpl.
  destruct (bit_update b i (Z.land w (to_uint (Z.lnot (bit_mask i))))) as [Hwf' Hbits];
    [done|done|apply is_uint_land; [done|apply to_uint_range]|].
  eexists. split; [done|]. split; [done|]. split; [done|]. intros j. rewrite Hbits.
  pose proof (mod_word_range j). destruct (decide _) as [He|He].
  - rewrite Z.land_spec, testbit_to_uint, Z.lnot_spec, testbit_mask by lia.
    unfold bit. rewrite He, Hw. pose proof (same_word_bit i j He).
    destruct (Z.eqb_spec (j mod BitsInWord) (i mod BitsInWord)), (Z.eqb_spec j i);
      simpl; rewrite ?andb_true_r, ?andb_false_r; try done; naive_solver.
  - destruct (Z.eqb_spec j i) as [->|]; done.
Qed.

Lemma Test_spec b i : wf b -> 0 <= i < numBits b -> Test b i = Ok (bit b i).
Proof.
  intros Hwf Hi. unfold Test. rewrite (proj2 (in_range_true b i)) by done.
  rewrite quot_word by lia. destruct (word_of_item b i Hwf Hi) as (Hr & w & Hw & Hwu).
  rewrite (proj2 (rd_Ok _ _ _) Hw). simpl. rewrite test_mask by (done || lia).
  unfold bit. by rewrite Hw.
Qed.

(** Out of range every single-item operation stops in its [ASSERT]. *)
Lemma out_of_range_asserts b i :
  ~ (0 <= i < numBits b) ->
  Mark b i = AssertFail /\ Clear b i = AssertFail /\ Test b i = AssertFail.
Proof. intros H. unfold Mark, Clear, Test. by rewrite in_range_false. Qed.

(** The scan of [Find]: the first clear item, if there is one. *)
Lemma find_loop_spec n : forall i b,
  wf b -> 0 <= i -> i + Z.of_nat n = numBits b ->
  (forall j, i <= j < numBits b -> bit b j = true) /\ find_loop n i b = Ok (-1, b) \/
  exists k b', find_loop n i b = Ok (k, b') /\ Mark b k = Ok b' /\
    i <= k < numBits b /\ bit b k = false /\ (forall j, i <= j < k -> bit b j = true).
Proof.
  induction n as [|n IH]; intros i b Hwf Hi Hn; simpl.
  - left. split; [lia|done].
  - rewrite Test_spec by (done || lia). simpl. destruct (bit b i) eqn:Eb; simpl.
    + destruct (IH (i + 1) b) as [[Hall ->]|(k & b' & -> & Hm & Hk & Hb & Hlt)];
        [done|lia|lia|left|right].
      * split; [|done]. intros j Hj. destruct (decide (j = i)) as [->|]; [done|]. apply Hall. lia.
      * exists k, b'. split_and!; try done; try lia.
        intros j Hj. destruct (decide (j = i)) as [->|]; [done|]. apply Hlt. lia.
    + right. destruct (Mark_spec b i Hwf) as (b' & Hm & _); [lia|].
      exists i, b'. rewrite Hm. split_and!; try done; lia.
Qed.

Lemma FindFreeSlot_Find b : FindFreeSlot b = Find b.
Proof. reflexivity. Qed.

Lemma Find_cases b :
  wf b ->
  (forall j, 0 <= j < numBits b -> bit b j = true) /\ Find b = Ok (-1, b) \/
  exists k b', Find b = Ok (k, b') /\ wf b' /\ numBits b' = numBits b /\
    0 <= k < numBits b /\ bit b k = false /\ (forall j, 0 <= j < k -> bit b j = true) /\
    forall j, bit b' j = (j =? k) || bit b j.
Proof.
  intros Hwf. pose proof (wf_bits b Hwf).
  destruct (find_loop_spec (Z.to_nat (numBits b)) 0 b Hwf) as [[Ha Hf]|(k & b' & Hf & Hm & Hk & Hb & Hlt)];
    [lia|lia|by left|right].
  destruct (Mark_spec b k Hwf Hk) as (b2 & Hm2 & Hwf2 & Hn2 & Hbits).
  rewrite Hm in Hm2. injection Hm2 as <-. exists k, b'. split_and!; done || lia.
Qed.

(** ** Counting *)

Lemma NumClear_spec b : wf b -> NumClear b = Ok (zlen (clear_items b)).
Proof.
  intros Hwf. pose proof (wf_bits b Hwf). unfold NumClear, clear_items.
  destruct (for_range_inv
    (fun i c => c = zlen (filter (fun i => bit b i = false) (seqZ 0 i)))
    (fun i count => t ← Test b i; Ok (if negb t then count + 1 else count))
    0 (numBits b) 0) as (c & -> & ->); [done|done| |done].
  intros i c Hi ->. rewrite Test_spec by (done || lia). simpl. eexists. split; [done|].
  rewrite seqZ_snoc, filter_app, filter_cons by lia.
  unfold zlen. rewrite length_app.
  destruct (bit b i) eqn:E; simpl; lia.
Qed.

Lemma elem_of_clear_items b i :
  i ∈ clear_items b <-> 0 <= i < numBits b /\ bit b i = false.
Proof. unfold clear_items. rewrite list_elem_of_filter, elem_of_seqZ. naive_solver lia. Qed.

Lemma NoDup_clear_items b : NoDup (clear_items b).
Proof. apply NoDup_filter, NoDup_seqZ. Qed.

(** Taking item [k] leaves the other clear items. *)
Lemma clear_items_mark b b' k :
  numBits b' = numBits b -> (forall j, bit b' j = (j =? k) || bit b j) ->
  0 <= k < numBits b -> bit b k = false ->
  clear_items b ≡ₚ k :: clear_items b'.
Proof.
  intros Hn Hb Hk Hc. apply NoDup_Permutation.
  - apply NoDup_clear_items.
  - apply NoDup_cons. split; [|apply NoDup_clear_items].
    rewrite elem_of_clear_items, Hb, Z.eqb_refl. naive_solver.
  - intros i. rewrite elem_of_cons, !elem_of_clear_items, Hn, Hb.
    destruct (Z.eqb_spec i k) as [->|]; simpl; naive_solver.
Qed.

(** Taking several clear items leaves the others. *)
Lemma clear_items_take b b' ks :
  numBits b' = numBits b -> NoDup ks ->
  (forall k, k ∈ ks -> 0 <= k < numBits b /\ bit b k = false) ->
  (forall j, bit b' j = bool_decide (j ∈ ks) || bit b j) ->
  clear_items b ≡ₚ ks ++ clear_items b'.
Proof.
  intros Hn Hnd Hks Hb. apply NoDup_Permutation.
  - apply NoDup_clear_items.
  - apply NoDup_app. split_and!; [done| |apply NoDup_clear_items].
    intros x Hx [_ Hb']%elem_of_clear_items. rewrite Hb in Hb'.
    by rewrite bool_decide_true in Hb'.
  - intros i. rewrite elem_of_app, !elem_of_clear_items, Hn, Hb. split.
    + intros [Hi Hbi]. destruct (decide (i ∈ ks)) as [Hin|Hni]; [by left|right].
      rewrite bool_decide_false by done. done.
    + intros [Hin|[Hi Hbi]]; [by apply Hks|]. apply orb_false_iff in Hbi as [_ ?]. done.
Qed.

Lemma clear_items_nil b :
  clear_items b = [] <-> (forall j, 0 <= j < numBits b -> bit b j = true).
Proof.
  split.
  - intros He j Hj. destruct (bit b j) eqn:E; [done|].
    assert (j ∈ clear_items b) as Hin by by apply elem_of_clear_items.
    rewrite He in Hin. by apply elem_of_nil in Hin.
  - intros Hall. apply elem_of_nil_inv. intros i [Hi Hb]%elem_of_clear_items.
    by rewrite Hall in Hb.
Qed.

Lemma new_BitMap_spec junk nitems :
  0 <= nitems -> zlen junk = divRoundUp nitems BitsInWord -> Forall is_uint junk ->
  exists b, new_BitMap junk nitems = Ok b /\ wf b /\ numBits b = nitems /\
    forall j, 0 <= j < nitems -> bit b j = false.
Proof.
  intros Hn Hl Hu. unfold new_BitMap.
  destruct (for_range_inv
    (fun i b => wf b /\ numBits b = nitems /\ forall j, 0 <= j < i -> bit b j = false)
    (fun i b => Clear b i) 0 nitems (mkBitMap nitems (divRoundUp nitems BitsInWord) junk))
    as (b & -> & Hwf & Hb & Hc); [done| | |].
  - split_and!; [|done|lia]. by split.
  - intros i b Hi (Hwf & Hb & Hc). destruct (Clear_spec b i Hwf) as (b' & -> & Hwf' & Hb' & Hbits);
      [lia|]. eexists. split; [done|]. split_and!; [done|congruence|].
    intros j Hj. rewrite Hbits. destruct (Z.eqb_spec j i); [done|]. rewrite Hc by lia. done.
  - eauto.
Qed.

(** Repeated [Find], the allocation loop of the clients. *)
Fixpoint find_n (n : nat) (b : BitMap) : res (list Z * BitMap) :=
  match n with
  | O => Ok ([], b)
  | S n' => '(k, b) ← Find b; '(ks, b) ← find_n n' b; Ok (k :: ks, b)
  end.

(** With at least [n] clear items, [n] calls of [Find] take [n] distinct
    clear items and mark exactly those. *)
Lemma find_n_spec n : forall b,
  wf b -> (n <= length (clear_items b))%nat ->
  exists ks b', find_n n b = Ok (ks, b') /\ wf b' /\ numBits b' = numBits b /\
    length ks = n /\ clear_items b ≡ₚ ks ++ clear_items b' /\
    forall j, bit b' j = bool_decide (j ∈ ks) || bit b j.
Proof.
  induction n as [|n IH]; intros b Hwf Hle; simpl.
  - exists [], b. split_and!; done.
  - destruct (Find_cases b Hwf) as [[Hall _]|(k & b1 & -> & Hwf1 & Hn1 & Hk & Hbk & _ & Hbits)].
    { apply clear_items_nil in Hall. rewrite Hall in Hle. simpl in Hle. lia. }
    simpl. pose proof (clear_items_mark b b1 k Hn1 Hbits Hk Hbk) as Hp.
    destruct (IH b1 Hwf1) as (ks & b2 & -> & Hwf2 & Hn2 & Hlen & Hp2 & Hbits2).
    { rewrite Hp in Hle. simpl in Hle. lia. }
    simpl. exists (k :: ks), b2. split_and!; [done|done|congruence|by rewrite <-Hlen| |].
    + rewrite Hp, Hp2. done.
    + intros j. rewrite Hbits2, Hbits.
      destruct (Z.eqb_spec j k) as [->|Hne].
      * rewrite (bool_decide_true (k ∈ k :: ks)) by set_solver. simpl. by rewrite orb_true_r.
      * simpl. f_equal. apply bool_decide_ext. set_solver.
Qed.

Lemma Print_spec b :
  wf b -> Print b = Ok (filter (fun i => bit b i = true) (seqZ 0 (numBits b))).
Proof.
  intros Hwf. pose proof (wf_bits b Hwf). unfold Print.
  destruct (for_range_inv
    (fun i (out : list Z) => out = filter (fun i => bit b i = true) (seqZ 0 i))
    (fun i out => t ← Test b i; Ok (if (t : bool) then (out ++ [i])%list else out))
    0 (numBits b) []) as (c & -> & ->); [done|done| |done].
  intros i c Hi ->. rewrite Test_spec by (done || lia). simpl. eexists. split; [done|].
  rewrite seqZ_snoc, filter_app, filter_cons by lia.
  destruct (bit b i) eqn:E; simpl; rewrite ?app_nil_r; done.
Qed.

(** ** Properties *)

(** Single-item operations.  On a well-formed map of [numBits] items and
    an item in range, [Mark] sets that item and no other, [Clear] clears that
    item and no other, [Test] returns it, and the map stays well formed (32-bit
    words, as many as the items need); for an item out of range all three stop
    in [ASSERT]. *)
Theorem bitmap_item_ops (b : BitMap) (i : Z) :
  wf b ->
  if in_range b i then
    (exists b', Mark b i = Ok b' /\ wf b' /\ numBits b' = numBits b /\
       forall j, bit b' j = (j =? i) || bit b j) /\
    (exists b', Clear b i = Ok b' /\ wf b' /\ numBits b' = numBits b /\
       forall j, bit b' j = negb (j =? i) && bit b j) /\
    Test b i = Ok (bit b i)
  else Mark b i = AssertFail /\ Clear b i = AssertFail /\ Test b i = AssertFail.
Proof.
  intros Hwf. destruct (in_range b i) eqn:E.
  - apply in_range_true in E. auto using Mark_spec, Clear_spec, Test_spec.
  - apply out_of_range_asserts. rewrite <-in_range_true. congruence.
Qed.

Definition small_map : BitMap := mkBitMap 40 2 [4294967295; 2].

Lemma small_map_wf : wf small_map.
Proof.
  split; [simpl; lia|reflexivity|reflexivity|].
  repeat constructor; vm_compute; (discriminate || reflexivity).
Qed.

Lemma bitmap_item_ops_witness :
  Test small_map 31 = Ok true /\ Test small_map 32 = Ok false /\
  exists b', Mark small_map 32 = Ok b' /\ wf b' /\ bit b' 32 = true /\ bit b' 33 = true.
Proof.
  split; [reflexivity|]. split; [reflexivity|].
  destruct (bitmap_item_ops small_map 32 small_map_wf) as [(b' & Hm & Hwf & _ & Hb) _].
  exists b'. split; [exact Hm|]. split; [exact Hwf|]. rewrite !Hb. split; reflexivity.
Defined.

(** [Find] and [NumClear].  [NumClear] is the number of clear items in
    range.  [Find] returns -1 and changes nothing exactly when that number is
    0; otherwise it returns the least clear item, marks it and no other, and
    the count goes down by one. *)
Theorem bitmap_find (b : BitMap) :
  wf b ->
  NumClear b = Ok (zlen (clear_items b)) /\
  (clear_items b = [] -> Find b = Ok (-1, b)) /\
  (clear_items b <> [] ->
     exists k b', Find b = Ok (k, b') /\ wf b' /\ 0 <= k < numBits b /\
       bit b k = false /\ (forall j, 0 <= j < k -> bit b j = true) /\
       (forall j, bit b' j = (j =? k) || bit b j) /\
       NumClear b' = Ok (zlen (clear_items b) - 1)).
Proof.
  intros Hwf. split; [by apply NumClear_spec|].
  destruct (Find_cases b Hwf) as [[Hall Hf]|(k & b' & Hf & Hwf' & Hn & Hk & Hbk & Hlt & Hb)].
  - apply clear_items_nil in Hall. done.
  - pose proof (clear_items_mark b b' k Hn Hb Hk Hbk) as Hp. split.
    + intros He. rewrite He in Hp. by apply Permutation_nil_cons in Hp.
    + intros _. exists k, b'. split_and!; try done; try lia.
      rewrite NumClear_spec by done. unfold zlen. rewrite Hp. simpl. do 2 f_equal. lia.
Qed.

Lemma bitmap_find_witness :
  NumClear small_map = Ok 7 /\
  exists b', Find small_map = Ok (32, b') /\ NumClear b' = Ok 6.
Proof.
  destruct (bitmap_find small_map small_map_wf) as (Hn & _ & Hf).
  split; [exact Hn|].
  destruct Hf as (k & b' & Hk & _ & _ & _ & _ & _ & Hc); [discriminate|].
  exists b'. split; [|exact Hc].
  rewrite Hk. vm_compute in Hk. injection Hk as <- _. reflexivity.
Defined.

(** The constructor.  Whatever the allocated words contained, a new map
    of [nitems] items is well formed and has all its items clear, so
    [NumClear] is [nitems]. *)
Theorem new_bitmap_all_clear (junk : list Z) (nitems : Z) :
  0 <= nitems -> zlen junk = divRoundUp nitems BitsInWord -> Forall is_uint junk ->
  exists b, new_BitMap junk nitems = Ok b /\ wf b /\ numBits b = nitems /\
    (forall j, 0 <= j < nitems -> Test b j = Ok false) /\ NumClear b = Ok nitems.
Proof.
  intros Hn Hl Hu. destruct (new_BitMap_spec junk nitems Hn Hl Hu) as (b & Hb & Hwf & Hnb & Hc).
  exists b. split_and!; [done|done|done| |].
  - intros j Hj. rewrite Test_spec, Hc by (done || lia). done.
  - rewrite NumClear_spec by done. f_equal. unfold clear_items.
    rewrite filter_all.
    + unfold zlen. rewrite length_seqZ, Hnb. lia.
    + apply Forall_forall. intros j Hj%elem_of_seqZ. apply Hc. lia.
Qed.

Lemma new_bitmap_all_clear_witness :
  exists b, new_BitMap [77; 4294967295] 33 = Ok b /\ NumClear b = Ok 33.
Proof.
  destruct (new_bitmap_all_clear [77; 4294967295] 33) as (b & Hb & _ & _ & _ & Hc).
  - lia.
  - reflexivity.
  - repeat constructor; vm_compute; (discriminate || reflexivity).
  - exists b. split; [exact Hb|exact Hc].
Defined.
