(* ===== verification/Interrupt.v ===== *)
(** * machine/interrupt.cc, machine/stats.cc, machine/timer.cc: simulated
    time, the queue of pending hardware interrupts, and the timer device

    The state of the simulation is a [sim]: the [Interrupt] object, the
    [Statistics] object that holds the clock, and a [world] of the devices and
    of the kernel, whose type the client chooses.  Three things the code calls
    through pointers are arguments of the section: the interrupt handlers of
    the devices, [machine->DelayedLoad(0, 0)] and [currentThread->Yield()].
    The queue of pending interrupts is the sequence of keys and items that
    NList proves the linked list to be.  Tick counters are integers without a
    bound: a run is shorter than 2^31 ticks. *)

From Stdlib Require Import Sorted.
From S2P Require Import Prelude NList.
From stdpp Require Import list.
#[local] Open Scope Z_scope.

Inductive IntStatus := IntOff | IntOn.
Inductive MachineStatus := IdleMode | SystemMode | UserMode.
Inductive IntType :=
| TimerInt | DiskInt | ConsoleWriteInt | ConsoleReadInt | NetworkSendInt | NetworkRecvInt.
#[export] Instance IntStatus_eq_dec : EqDecision IntStatus.
Proof. solve_decision. Defined.
#[export] Instance MachineStatus_eq_dec : EqDecision MachineStatus.
Proof. solve_decision. Defined.
#[export] Instance IntType_eq_dec : EqDecision IntType.
Proof. solve_decision. Defined.

(** The functions the device simulators pass to [Interrupt::Schedule]. *)
Inductive IntHandler :=
| TimerHandler | DiskDone | ConsoleReadPoll | ConsoleWriteDone
| NetworkReadPoll | NetworkSendDone.
#[export] Instance IntHandler_eq_dec : EqDecision IntHandler.
Proof. solve_decision. Defined.

Record PendingInterrupt := mkPendingInterrupt {
  handler : IntHandler;
  arg : Z;
  when : Z;
  type : IntType
}.

Record Statistics := mkStatistics {
  totalTicks : Z;
  idleTicks : Z;
  systemTicks : Z;
  userTicks : Z;
  numDiskReads : Z;
  numDiskWrites : Z;
  numConsoleCharsRead : Z;
  numConsoleCharsWritten : Z;
  numPageFaults : Z;
  numPacketsSent : Z;
  numPacketsRecvd : Z
}.
Definition new_Statistics : Statistics := mkStatistics 0 0 0 0 0 0 0 0 0 0 0.

Definition UserTick : Z := 1.
Definition SystemTick : Z := 10.
Definition RotationTime : Z := 500.
Definition SeekTime : Z := 500.
Definition ConsoleTime : Z := 100.
Definition NetworkTime : Z := 100.
Definition TimerTicks : Z := 100.

Record Interrupt := mkInterrupt {
  level : IntStatus;
  pending : list (Z * voidp PendingInterrupt);
  inHandler : bool;
  yieldOnReturn : bool;
  status : MachineStatus
}.
Definition new_Interrupt : Interrupt := mkInterrupt IntOff [] false false SystemMode.

Record sim (W : Type) := mkSim {
  interrupt : Interrupt;
  stats : Statistics;
  world : W
}.
Arguments mkSim {W}.
Arguments interrupt {W}.
Arguments stats {W}.
Arguments world {W}.

(** ** Assignments to the fields *)

Section fields.
Context {W : Type}.
Implicit Types (s : sim W).

Definition set_interrupt s (i : Interrupt) : sim W := mkSim i (stats s) (world s).
Definition set_stats s (x : Statistics) : sim W := mkSim (interrupt s) x (world s).
Definition set_world s (w : W) : sim W := mkSim (interrupt s) (stats s) w.

Definition set_level s v : sim W :=
  let i := interrupt s in
  set_interrupt s (mkInterrupt v (pending i) (inHandler i) (yieldOnReturn i) (status i)).
Definition set_pending s v : sim W :=
  let i := interrupt s in
  set_interrupt s (mkInterrupt (level i) v (inHandler i) (yieldOnReturn i) (status i)).
Definition set_inHandler s v : sim W :=
  let i := interrupt s in
  set_interrupt s (mkInterrupt (level i) (pending i) v (yieldOnReturn i) (status i)).
Definition set_yieldOnReturn s v : sim W :=
  let i := interrupt s in
  set_interrupt s (mkInterrupt (level i) (pending i) (inHandler i) v (status i)).
Definition set_status s v : sim W :=
  let i := interrupt s in
  set_interrupt s (mkInterrupt (level i) (pending i) (inHandler i) (yieldOnReturn i) v).
End fields.

(** [totalTicks += n; systemTicks += n] and the like *)
Definition add_ticks (total idle system user : Z) (x : Statistics) : Statistics :=
  mkStatistics (totalTicks x + total) (idleTicks x + idle) (systemTicks x + system)
    (userTicks x + user) (numDiskReads x) (numDiskWrites x) (numConsoleCharsRead x)
    (numConsoleCharsWritten x) (numPageFaults x) (numPacketsSent x) (numPacketsRecvd x).
Definition count_disk (reads writes : Z) (x : Statistics) : Statistics :=
  mkStatistics (totalTicks x) (idleTicks x) (systemTicks x) (userTicks x)
    (numDiskReads x + reads) (numDiskWrites x + writes) (numConsoleCharsRead x)
    (numConsoleCharsWritten x) (numPageFaults x) (numPacketsSent x) (numPacketsRecvd x).
Definition count_console (reads writes : Z) (x : Statistics) : Statistics :=
  mkStatistics (totalTicks x) (idleTicks x) (systemTicks x) (userTicks x)
    (numDiskReads x) (numDiskWrites x) (numConsoleCharsRead x + reads)
    (numConsoleCharsWritten x + writes) (numPageFaults x) (numPacketsSent x)
    (numPacketsRecvd x).
Definition count_packets (sent recvd : Z) (x : Statistics) : Statistics :=
  mkStatistics (totalTicks x) (idleTicks x) (systemTicks x) (userTicks x)
    (numDiskReads x) (numDiskWrites x) (numConsoleCharsRead x)
    (numConsoleCharsWritten x) (numPageFaults x) (numPacketsSent x + sent)
    (numPacketsRecvd x + recvd).

(** ** The operations *)

Section ops.
Context {W : Type}.
(** The call of a handler, [machine->DelayedLoad(0, 0)] (nothing when there is no
    machine) and [currentThread->Yield()]. *)
Context (call_handler : IntHandler -> Z -> st (sim W) unit).
Context (DelayedLoad00 : st (sim W) unit).
Context (Yield : st (sim W) unit).

Definition ChangeLevel (old now : IntStatus) : st (sim W) unit :=
  fun s => Ok (tt, set_level s now).

(** [Schedule] runs its [ASSERT] after building the [PendingInterrupt]. *)
Definition Schedule (h : IntHandler) (a fromNow : Z) (t : IntType) : st (sim W) unit :=
  fun s =>
    let when_ := totalTicks (stats s) + fromNow in
    let toOccur := mkPendingInterrupt h a when_ t in
    ASSERT (0 <? fromNow);
    Ok (tt, set_pending s (Spec.sorted_insert (Some toOccur) when_ (pending (interrupt s)))).

(** The part of [CheckIfDue] after the clock test: [toOccur] is off the
    queue and due. *)
Definition fire (old : MachineStatus) (when_ : Z) (toOccur : PendingInterrupt)
  : st (sim W) bool := fun s =>
  let i := interrupt s in
  if bool_decide (status i = IdleMode) && bool_decide (type toOccur = TimerInt) &&
     bool_decide (pending i = [])
  then Ok (false, set_pending s (Spec.sorted_insert (Some toOccur) when_ (pending i)))
  else
    '(_, s) ← DelayedLoad00 s;
    let s := set_status (set_inHandler s true) SystemMode in
    '(_, s) ← call_handler (handler toOccur) (arg toOccur) s;
    Ok (true, set_inHandler (set_status s old) false).

Definition CheckIfDue (advanceClock : bool) : st (sim W) bool := fun s =>
  let old := status (interrupt s) in
  ASSERT (bool_decide (level (interrupt s) = IntOff));
  match Spec.sorted_remove (pending (interrupt s)) with
  | (None, _) => Ok (false, s)
  | (Some (_, None), rest) => Ok (false, set_pending s rest)
  | (Some (when_, Some toOccur), rest) =>
      let s := set_pending s rest in
      let now := totalTicks (stats s) in
      if advanceClock && (now <? when_) then
        fire old when_ toOccur
          (set_stats s (add_ticks (when_ - now) (when_ - now) 0 0 (stats s)))
      else if now <? when_ then
        Ok (false, set_pending s (Spec.sorted_insert (Some toOccur) when_ rest))
      else fire old when_ toOccur s
  end.

(** [while (CheckIfDue(FALSE)) ;] *)
Fixpoint while_due (fuel : nat) : st (sim W) unit :=
  match fuel with
  | O => fun _ => NoFuel
  | S fuel' => fun s =>
      '(b, s) ← CheckIfDue false s;
      if (b : bool) then while_due fuel' s else Ok (tt, s)
  end.

Definition OneTick (fuel : nat) : st (sim W) unit := fun s =>
  let old := status (interrupt s) in
  let s :=
    if decide (old = SystemMode)
    then set_stats s (add_ticks SystemTick 0 SystemTick 0 (stats s))
    else set_stats s (add_ticks UserTick 0 0 UserTick (stats s)) in
  '(_, s) ← ChangeLevel IntOn IntOff s;
  '(_, s) ← while_due fuel s;
  '(_, s) ← ChangeLevel IntOff IntOn s;
  if yieldOnReturn (interrupt s) then
    let s := set_status (set_yieldOnReturn s false) SystemMode in
    '(_, s) ← Yield s;
    Ok (tt, set_status s old)
  else Ok (tt, s).

Definition SetLevel (fuel : nat) (now : IntStatus) : st (sim W) IntStatus := fun s =>
  let old := level (interrupt s) in
  ASSERT (bool_decide (now = IntOff) || negb (inHandler (interrupt s)));
  '(_, s) ← ChangeLevel old now s;
  if bool_decide (now = IntOn) && bool_decide (old = IntOff)
  then '(_, s) ← OneTick fuel s; Ok (old, s)
  else Ok (old, s).

Definition Enable (fuel : nat) : st (sim W) unit := fun s =>
  '(_, s) ← SetLevel fuel IntOn s; Ok (tt, s).

Definition YieldOnReturn : st (sim W) unit := fun s =>
  ASSERT (inHandler (interrupt s)); Ok (tt, set_yieldOnReturn s true).

Definition getStatus (s : sim W) : MachineStatus := status (interrupt s).
Definition setStatus (v : MachineStatus) : st (sim W) unit :=
  fun s => Ok (tt, set_status s v).
Definition getLevel (s : sim W) : IntStatus := level (interrupt s).

(** [Halt] prints the statistics and ends the process in [Cleanup]. *)
Definition Halt : st (sim W) unit := fun _ => Halted.

Definition Idle (fuel : nat) : st (sim W) unit := fun s =>
  let s := set_status s IdleMode in
  '(b, s) ← CheckIfDue true s;
  if (b : bool) then
    '(_, s) ← while_due fuel s;
    Ok (tt, set_status (set_yieldOnReturn s false) SystemMode)
  else Halt s.
End ops.

(** ** The timer device *)

Section timer.
Context {W : Type}.
(** [Random()] of machine/sysdep.cc, the value of the next call *)
Context (Random : Z).

Record Timer := mkTimer { randomize : bool }.

Definition TimeOfNextInterrupt (t : Timer) : Z :=
  if randomize t then 1 + Z.rem Random (TimerTicks * 2) else TimerTicks.

Definition new_Timer (doRandom : bool) : st (sim W) Timer := fun s =>
  let t := mkTimer doRandom in
  '(_, s) ← Schedule TimerHandler 0 (TimeOfNextInterrupt t) TimerInt s; Ok (t, s).

(** threads/system.cc *)
Definition TimerInterruptHandler : st (sim W) unit := fun s =>
  if bool_decide (getStatus s = IdleMode) then Ok (tt, s) else YieldOnReturn s.

Definition TimerExpired (t : Timer) : st (sim W) unit := fun s =>
  '(_, s) ← Schedule TimerHandler 0 (TimeOfNextInterrupt t) TimerInt s;
  TimerInterruptHandler s.
End timer.

(** ** The pending queue *)

#[local] Abbreviation queue := (list (Z * voidp PendingInterrupt)).

(** Sorted by time, and each key is the time of its interrupt. *)
Definition queue_ok (q : queue) : Prop :=
  Spec.sorted q /\ Forall (fun x => exists p, x.2 = Some p /\ when p = x.1) q.

(** The interrupts due at time [now], in firing order. *)
Definition due (now : Z) (q : queue) : queue := filter (fun x => x.1 <= now) q.

Lemma queue_ok_nil : queue_ok [].
Proof. split; constructor. Qed.

Lemma queue_ok_cons x q :
  queue_ok (x :: q) <->
    (exists p, x.2 = Some p /\ when p = x.1) /\ Forall (fun y => x.1 <= y.1) q /\ queue_ok q.
Proof.
  unfold queue_ok, Spec.sorted. rewrite Forall_cons. split.
  - intros [Hs [Hx Hq]]. inversion Hs; subst. done.
  - intros (Hx & Hle & Hs & Hq). split; [|done]. by constructor.
Qed.

Lemma queue_ok_insert p k q :
  queue_ok q -> when p = k -> queue_ok (Spec.sorted_insert (Some p) k q).
Proof.
  intros [Hs Hf] Hk. split; [by apply sorted_insert_sorted|].
  rewrite sorted_insert_perm. constructor; [|done]. exists p. done.
Qed.

Lemma due_insert p k now q :
  now < k -> queue_ok q -> due now (Spec.sorted_insert (Some p) k q) = due now q.
Proof.
  intros Hk _. induction q as [|[k' y] q IH]; simpl.
  - unfold due. rewrite filter_cons_False by (simpl; lia). done.
  - destruct (Z.ltb_spec k k'); unfold due in *.
    + rewrite filter_cons_False by (simpl; lia). done.
    + rewrite !filter_cons. by rewrite IH.
Qed.

Lemma due_head now x q :
  queue_ok (x :: q) -> due now (x :: q) = [] <-> now < x.1.
Proof.
  intros (_ & Hle & _)%queue_ok_cons. unfold due. split.
  - rewrite filter_cons. destruct (decide _); [done|lia].
  - intros Hn. apply filter_none. constructor; [lia|].
    eapply Forall_impl; [done|]. simpl. intros. lia.
Qed.

Lemma due_cons_le now x q : x.1 <= now -> due now (x :: q) = x :: due now q.
Proof. intros. unfold due. by rewrite filter_cons_True. Qed.

(** ** What a handler may do: the rule the device simulators follow

    A handler runs with interrupts off.  It leaves the clock, the interrupt
    level, the handler flag and the machine status alone, and changes the
    queue only by scheduling interrupts for later. *)

Record handler_step {W} (s s' : sim W) : Prop := {
  hs_clock : totalTicks (stats s') = totalTicks (stats s);
  hs_idle : idleTicks (stats s') = idleTicks (stats s);
  hs_system : systemTicks (stats s') = systemTicks (stats s);
  hs_user : userTicks (stats s') = userTicks (stats s);
  hs_level : level (interrupt s') = level (interrupt s);
  hs_inHandler : inHandler (interrupt s') = inHandler (interrupt s);
  hs_status : status (interrupt s') = status (interrupt s);
  hs_queue : queue_ok (pending (interrupt s)) -> queue_ok (pending (interrupt s'));
  hs_due : queue_ok (pending (interrupt s)) ->
    due (totalTicks (stats s)) (pending (interrupt s')) =
    due (totalTicks (stats s)) (pending (interrupt s));
  hs_new : exists new, Forall (fun x => totalTicks (stats s) < x.1) new /\
    pending (interrupt s') ≡ₚ new ++ pending (interrupt s)
}.

Lemma handler_step_refl {W} (s : sim W) : handler_step s s.
Proof. split; try done. by exists []. Qed.

Lemma handler_step_trans {W} (s1 s2 s3 : sim W) :
  handler_step s1 s2 -> handler_step s2 s3 -> handler_step s1 s3.
Proof.
  intros [] []. split; try congruence; try tauto.
  - intros H. rewrite <-hs_clock0. rewrite hs_due1 by auto. rewrite hs_clock0. auto.
  - destruct hs_new0 as (n1 & Hn1 & Hp1), hs_new1 as (n2 & Hn2 & Hp2).
    exists (n2 ++ n1). rewrite Forall_app. rewrite hs_clock0 in Hn2.
    split; [done|]. by rewrite Hp2, Hp1, app_assoc.
Qed.

(** Scheduling is such a step; so is any change of the world. *)
Lemma Schedule_step {W} h a fromNow t (s : sim W) :
  0 < fromNow ->
  exists s', Schedule h a fromNow t s = Ok (tt, s') /\ handler_step s s' /\
    world s' = world s /\ stats s' = stats s /\
    yieldOnReturn (interrupt s') = yieldOnReturn (interrupt s) /\
    pending (interrupt s') ≡ₚ
      (totalTicks (stats s) + fromNow,
       Some (mkPendingInterrupt h a (totalTicks (stats s) + fromNow) t)) ::
      pending (interrupt s).
Proof.
  intros Hf. unfold Schedule. rewrite (proj2 (Z.ltb_lt _ _) Hf). eexists. split; [done|].
  split; [|split_and!; try done; apply sorted_insert_perm].
  split; simpl; try done.
  - intros. by apply queue_ok_insert.
  - intros. apply due_insert; [lia|done].
  - exists [(totalTicks (stats s) + fromNow,
      Some (mkPendingInterrupt h a (totalTicks (stats s) + fromNow) t))].
    split; [constructor; [simpl; lia|done]|apply sorted_insert_perm].
Qed.

Lemma set_world_step {W} (s : sim W) w : handler_step s (set_world s w).
Proof. split; try done. by exists []. Qed.

Lemma set_stats_step {W} (s : sim W) x :
  totalTicks x = totalTicks (stats s) -> idleTicks x = idleTicks (stats s) ->
  systemTicks x = systemTicks (stats s) -> userTicks x = userTicks (stats s) ->
  handler_step s (set_stats s x).
Proof. intros. split; try done. by exists []. Qed.
#[export] Hint Resolve handler_step_refl set_world_step : nachos.

(** ** Firing interrupts *)

Section laws.
Context {W : Type}.
Context (call_handler : IntHandler -> Z -> st (sim W) unit).
Context (DelayedLoad00 : st (sim W) unit).
Context (Yield : st (sim W) unit).
(** An invariant of the devices, the kernel and the machine. *)
Context (I : W -> Prop).

(** Every handler returns, follows the rule and keeps the invariant. *)
Definition handlers_ok : Prop := forall h a s,
  queue_ok (pending (interrupt s)) -> level (interrupt s) = IntOff ->
  inHandler (interrupt s) = true -> I (world s) ->
  exists s', call_handler h a s = Ok (tt, s') /\ handler_step s s' /\ I (world s').
(** The delayed load changes registers of the machine only. *)
Definition delayed_load_ok : Prop := forall s, I (world s) ->
  exists w, DelayedLoad00 s = Ok (tt, set_world s w) /\ I w.

(** Reference semantics: the interrupts [ds] at the front of the queue go off
    one after the other, each with the machine in kernel mode. *)
Definition go_off (x : Z * voidp PendingInterrupt) : st (sim W) unit := fun s =>
  match x.2 with
  | None => UB
  | Some p =>
      '(_, s1) ← DelayedLoad00 (set_pending s (tail (pending (interrupt s))));
      '(_, s2) ← call_handler (handler p) (arg p)
                   (set_status (set_inHandler s1 true) SystemMode);
      Ok (tt, set_inHandler (set_status s2 (status (interrupt s))) false)
  end.
Fixpoint go_off_all (ds : queue) : st (sim W) unit :=
  match ds with
  | [] => fun s => Ok (tt, s)
  | x :: ds' => fun s => '(_, s) ← go_off x s; go_off_all ds' s
  end.

(** The states in which [CheckIfDue] is called. *)
Record ready_to_fire (s : sim W) : Prop := {
  rf_queue : queue_ok (pending (interrupt s));
  rf_level : level (interrupt s) = IntOff;
  rf_inHandler : inHandler (interrupt s) = false;
  rf_world : I (world s)
}.

(** What the clock shows is the sum of idle, kernel and user time. *)
Definition ticks_balance (x : Statistics) : Prop :=
  totalTicks x = idleTicks x + systemTicks x + userTicks x.

(** From [s] to [s'] with the clock and the machine status unchanged. *)
Record fired (s s' : sim W) : Prop := {
  fd_ready : ready_to_fire s';
  fd_clock : totalTicks (stats s') = totalTicks (stats s);
  fd_status : status (interrupt s') = status (interrupt s);
  fd_balance : ticks_balance (stats s) -> ticks_balance (stats s')
}.

Lemma fired_trans s1 s2 s3 : fired s1 s2 -> fired s2 s3 -> fired s1 s3.
Proof. intros [] []. split; try congruence; auto. Qed.

Context (Hhandlers : handlers_ok) (Hload : delayed_load_ok).

Lemma go_off_head s k p q :
  ready_to_fire s -> pending (interrupt s) = (k, Some p) :: q ->
  exists s', go_off (k, Some p) s = Ok (tt, s') /\ fired s s' /\
    due (totalTicks (stats s)) (pending (interrupt s')) = due (totalTicks (stats s)) q /\
    exists new, Forall (fun x => totalTicks (stats s) < x.1) new /\
      pending (interrupt s') ≡ₚ new ++ q.
Proof.
  intros [Hq Hl Hh Hw] Hp. unfold go_off. simpl. rewrite Hp. simpl.
  rewrite Hp in Hq. apply queue_ok_cons in Hq as (_ & _ & Hq).
  destruct (Hload (set_pending s q)) as (w & -> & HI); [done|]. simpl.
  match goal with |- context [call_handler ?h ?a ?s0] =>
    destruct (Hhandlers h a s0) as (s2 & -> & Hs & HI2); try done end.
  simpl. eexists. split; [done|].
  destruct Hs as [Hc Hi Hsy Hu Hlv Hin Hst Hqu Hdu Hn]; simpl in *.
  split; [|split; [exact (Hdu Hq)|exact Hn]].
  split; simpl; try done.
  - split; simpl; auto; congruence.
  - unfold ticks_balance. rewrite Hc, Hi, Hsy, Hu. done.
Qed.

(** [CheckIfDue(FALSE)], by cases. *)
Lemma CheckIfDue_not_due s :
  ready_to_fire s -> due (totalTicks (stats s)) (pending (interrupt s)) = [] ->
  exists q, CheckIfDue call_handler DelayedLoad00 false s = Ok (false, set_pending s q) /\
    q ≡ₚ pending (interrupt s) /\ queue_ok q.
Proof.
  intros [Hq Hl Hh Hw] Hd. unfold CheckIfDue. rewrite bool_decide_true by done.
  destruct (pending (interrupt s)) as [|[k [p|]] q] eqn:Hp; simpl.
  - exists []. split_and!; [|done|apply queue_ok_nil]. destruct s as [[] ? ?]; simpl in *. by subst.
  - apply due_head in Hd; [|done]. simpl in Hd. rewrite (proj2 (Z.ltb_lt _ _) Hd).
    eexists. split; [done|]. split; [apply sorted_insert_perm|].
    apply queue_ok_cons in Hq as ((p' & [= <-] & Hk) & _ & Hq). by apply queue_ok_insert.
  - apply queue_ok_cons in Hq as ((p' & ? & _) & _). done.
Qed.

Lemma CheckIfDue_due b s k p q :
  ready_to_fire s -> pending (interrupt s) = (k, Some p) :: q ->
  k <= totalTicks (stats s) ->
  ~ (status (interrupt s) = IdleMode /\ type p = TimerInt /\ q = []) ->
  exists s', CheckIfDue call_handler DelayedLoad00 b s = Ok (true, s') /\
    go_off (k, Some p) s = Ok (tt, s').
Proof.
  intros Hr Hp Hk Hq. destruct (go_off_head s k p q Hr Hp) as (s' & Hg & _).
  exists s'. split; [|done].
  destruct Hr as [_ Hl _ _]. unfold CheckIfDue. rewrite bool_decide_true by done.
  rewrite Hp. simpl. rewrite (proj2 (Z.ltb_ge _ _) Hk), andb_false_r.
  unfold fire. simpl. unfold go_off in Hg. simpl in Hg. rewrite Hp in Hg. simpl in Hg.
  destruct (bool_decide _ && _ && _) eqn:E.
  { exfalso. apply Hq. apply andb_true_iff in E as [[E1 E2]%andb_true_iff E3].
    by apply bool_decide_eq_true in E1, E2, E3. }
  destruct (DelayedLoad00 _) as [[[] s1]| | | |]; simpl in *; try done.
  destruct (call_handler _ _ _) as [[[] s2]| | | |]; simpl in *; try done.
  by injection Hg as <-.
Qed.

(** The loop outside the idle mode is the reference semantics. *)
Lemma while_due_fires fuel : forall s,
  ready_to_fire s -> status (interrupt s) <> IdleMode ->
  (length (due (totalTicks (stats s)) (pending (interrupt s))) < fuel)%nat ->
  exists s1 q,
    go_off_all (due (totalTicks (stats s)) (pending (interrupt s))) s = Ok (tt, s1) /\
    while_due call_handler DelayedLoad00 fuel s = Ok (tt, set_pending s1 q) /\
    q ≡ₚ pending (interrupt s1) /\ fired s (set_pending s1 q) /\
    due (totalTicks (stats s)) q = [].
Proof.
  induction fuel as [|fuel IH]; intros s Hr Hs Hf; [lia|].
  destruct (due _ _) as [|x ds] eqn:Hd.
  - destruct (CheckIfDue_not_due s Hr Hd) as (q & Hc & Hp & Hq). exists s, q.
    simpl. rewrite Hc. simpl. split_and!; try done.
    + destruct Hr. split; try done.
    + apply Permutation_nil. rewrite <-Hd. unfold due. by rewrite Hp.
  - destruct (pending (interrupt s)) as [|[k [p|]] q0] eqn:Hp; [done| |].
    2:{ destruct Hr as [Hq _ _ _]. rewrite Hp in Hq.
        apply queue_ok_cons in Hq as ((p' & ? & _) & _). done. }
    assert (k <= totalTicks (stats s)) as Hk.
    { destruct (decide (k <= totalTicks (stats s))); [done|].
      destruct Hr as [Hq _ _ _]. rewrite Hp in Hq.
      rewrite (proj2 (due_head _ _ _ Hq)) in Hd by (simpl; lia). done. }
    rewrite due_cons_le in Hd by done. injection Hd as <- Hd.
    destruct (go_off_head s k p q0 Hr Hp) as (s' & Hg & Hfd & Hdue & _).
    destruct (CheckIfDue_due false s k p q0 Hr Hp Hk) as (s'' & Hc & Hg').
    { intros (? & _). done. }
    rewrite Hg in Hg'. injection Hg' as <-. cbn [while_due go_off_all]. rewrite Hc, Hg. simpl.
    destruct Hfd as [Hr' Hc' Hst' Hb'] eqn:E.
    destruct (IH s' Hr') as (s1 & q & Ha & Hw & Hperm & Hfd2 & Hnd).
    { by rewrite Hst'. }
    { rewrite Hc', Hdue, Hd. simpl in Hf. lia. }
    rewrite Hc', Hdue, Hd in Ha. exists s1, q. split_and!; try done.
    + by apply (fired_trans s s').
    + by rewrite <-Hc'.
Qed.

(** The loop in any mode: it ends, and either nothing due is left or the
    machine idles with the timer alone in the queue. *)
Lemma while_due_ends (P : sim W -> Prop) fuel : forall s,
  (forall s k p q s', P s -> ready_to_fire s -> pending (interrupt s) = (k, Some p) :: q ->
     k <= totalTicks (stats s) -> go_off (k, Some p) s = Ok (tt, s') -> P s') ->
  (forall s q, P s -> q ≡ₚ pending (interrupt s) -> P (set_pending s q)) ->
  ready_to_fire s -> P s ->
  (length (due (totalTicks (stats s)) (pending (interrupt s))) < fuel)%nat ->
  exists s', while_due call_handler DelayedLoad00 fuel s = Ok (tt, s') /\
    fired s s' /\ P s' /\
    (due (totalTicks (stats s)) (pending (interrupt s')) = [] \/
     exists k p, pending (interrupt s') = [(k, Some p)] /\ type p = TimerInt).
Proof.
  induction fuel as [|fuel IH]; intros s Hgo Hperm Hr HP Hf; [lia|].
  destruct (due _ _) as [|x ds] eqn:Hd.
  - destruct (CheckIfDue_not_due s Hr Hd) as (q & Hc & Hp & Hq). exists (set_pending s q).
    simpl. rewrite Hc. simpl. split_and!; try done.
    + destruct Hr. split; try done.
    + by apply Hperm.
    + left. apply Permutation_nil. rewrite <-Hd. unfold due. by rewrite Hp.
  - destruct (pending (interrupt s)) as [|[k [p|]] q0] eqn:Hp; [done| |].
    2:{ destruct Hr as [Hq _ _ _]. rewrite Hp in Hq.
        apply queue_ok_cons in Hq as ((p' & ? & _) & _). done. }
    assert (k <= totalTicks (stats s)) as Hk.
    { destruct (decide (k <= totalTicks (stats s))); [done|].
      destruct Hr as [Hq _ _ _]. rewrite Hp in Hq.
      rewrite (proj2 (due_head _ _ _ Hq)) in Hd by (simpl; lia). done. }
    destruct (decide (status (interrupt s) = IdleMode /\ type p = TimerInt /\ q0 = []))
      as [(Hi & Ht & ->)|Hnq].
    + exists s. simpl. unfold CheckIfDue. destruct Hr as [Hq Hl Hh Hw] eqn:Er.
      rewrite bool_decide_true by done. rewrite Hp. simpl.
      rewrite (proj2 (Z.ltb_ge _ _) Hk). unfold fire. simpl.
      rewrite !bool_decide_true by done. simpl.
      assert (set_pending (set_pending s []) [(k, Some p)] = s) as ->.
      { destruct s as [[] ? ?]; simpl in *. by subst. }
      split; [done|]. split; [by split|]. split; [done|]. right. by exists k, p.
    + rewrite due_cons_le in Hd by done. injection Hd as <- Hd.
      destruct (go_off_head s k p q0 Hr Hp) as (s' & Hg & Hfd & Hdue & _).
      destruct (CheckIfDue_due false s k p q0 Hr Hp Hk Hnq) as (s'' & Hc & Hg').
      rewrite Hg in Hg'. injection Hg' as <-. cbn [while_due]. rewrite Hc. simpl.
      destruct Hfd as [Hr' Hc' Hst' Hb'] eqn:E.
      destruct (IH s' Hgo Hperm Hr') as (s1 & Hw & Hfd2 & HP2 & Hnd).
      { by eapply (Hgo s k p q0). }
      { rewrite Hc', Hdue, Hd. simpl in Hf. lia. }
      exists s1. split_and!; try done.
      * by apply (fired_trans s s').
      * by rewrite <-Hc'.
Qed.

(** Advancing the clock to the first interrupt. *)
Definition advance_to (k : Z) (s : sim W) : sim W :=
  let now := totalTicks (stats s) in
  if now <? k then set_stats s (add_ticks (k - now) (k - now) 0 0 (stats s)) else s.

Lemma CheckIfDue_advance s k p q :
  pending (interrupt s) = (k, Some p) :: q ->
  CheckIfDue call_handler DelayedLoad00 true s =
  CheckIfDue call_handler DelayedLoad00 true (advance_to k s).
Proof.
  intros Hp. unfold advance_to. destruct (Z.ltb_spec (totalTicks (stats s)) k) as [Hlt|]; [|done].
  unfold CheckIfDue. simpl. destruct (bool_decide _); [|done]. rewrite Hp. simpl.
  rewrite (proj2 (Z.ltb_lt _ _) Hlt).
  replace (totalTicks (stats s) + (k - totalTicks (stats s))) with k by lia.
  by rewrite Z.ltb_irrefl.
Qed.

Lemma advance_to_clock k s : totalTicks (stats (advance_to k s)) = Z.max (totalTicks (stats s)) k.
Proof. unfold advance_to. destruct (Z.ltb_spec (totalTicks (stats s)) k); simpl; lia. Qed.
Lemma advance_to_interrupt k s : interrupt (advance_to k s) = interrupt s.
Proof. unfold advance_to. by destruct (_ <? _). Qed.
Lemma advance_to_world k s : world (advance_to k s) = world s.
Proof. unfold advance_to. by destruct (_ <? _). Qed.
Lemma advance_to_balance k s :
  ticks_balance (stats s) -> ticks_balance (stats (advance_to k s)).
Proof. unfold advance_to, ticks_balance. destruct (_ <? _); simpl; lia. Qed.

Lemma length_due now (q : queue) : (length (due now q) <= length q)%nat.
Proof. unfold due. apply length_filter. Qed.

(** The queue is empty, or holds the time-slice timer alone. *)
Definition nothing_to_do (q : queue) : bool :=
  match q with
  | [] => true
  | [(_, Some p)] => bool_decide (type p = TimerInt)
  | _ => false
  end.

Lemma Idle_halts fuel s :
  ready_to_fire s -> nothing_to_do (pending (interrupt s)) = true ->
  Idle call_handler DelayedLoad00 fuel s = Halted.
Proof.
  intros [Hq Hl Hh Hw] Hn. unfold Idle, CheckIfDue. simpl. rewrite bool_decide_true by done.
  destruct (pending (interrupt s)) as [|[k [p|]] [|]] eqn:Hp; simpl in *; try done.
  assert (forall s1, pending (interrupt s1) = [] -> status (interrupt s1) = IdleMode ->
    exists s2, fire call_handler DelayedLoad00 IdleMode k p s1 = Ok (false, s2)) as Hfire.
  { intros s1 Hp1 Hs1. unfold fire. rewrite Hp1, Hs1, Hn. simpl. eauto. }
  destruct (totalTicks (stats s) <? k).
  - match goal with |- context [fire _ _ _ _ _ ?s1] =>
      destruct (Hfire s1) as (s2 & ->); [done|done|done] end.
  - match goal with |- context [fire _ _ _ _ _ ?s1] =>
      destruct (Hfire s1) as (s2 & ->); [done|done|done] end.
Qed.

Lemma Idle_fires (P : sim W -> Prop) fuel s k p q :
  (forall s k p q s', P s -> ready_to_fire s -> pending (interrupt s) = (k, Some p) :: q ->
     k <= totalTicks (stats s) -> go_off (k, Some p) s = Ok (tt, s') -> P s') ->
  (forall s q, P s -> q ≡ₚ pending (interrupt s) -> P (set_pending s q)) ->
  ready_to_fire s -> pending (interrupt s) = (k, Some p) :: q ->
  nothing_to_do (pending (interrupt s)) = false ->
  P (advance_to k (set_status s IdleMode)) -> (length q < fuel)%nat ->
  exists s1 s',
    go_off (k, Some p) (advance_to k (set_status s IdleMode)) = Ok (tt, s1) /\
    Idle call_handler DelayedLoad00 fuel s =
      Ok (tt, set_status (set_yieldOnReturn s' false) SystemMode) /\
    fired (advance_to k (set_status s IdleMode)) s' /\ P s' /\
    (due (Z.max (totalTicks (stats s)) k) (pending (interrupt s')) = [] \/
     exists k p, pending (interrupt s') = [(k, Some p)] /\ type p = TimerInt).
Proof.
  intros Hgo Hperm Hr Hp Hn HP Hf. set (s0 := advance_to k (set_status s IdleMode)).
  assert (ready_to_fire s0) as Hr0.
  { destruct Hr. unfold s0. split; rewrite ?advance_to_interrupt, ?advance_to_world; done. }
  assert (pending (interrupt s0) = (k, Some p) :: q) as Hp0.
  { unfold s0. by rewrite advance_to_interrupt. }
  assert (totalTicks (stats s0) = Z.max (totalTicks (stats s)) k) as Ht0.
  { unfold s0. by rewrite advance_to_clock. }
  destruct (go_off_head s0 k p q Hr0 Hp0) as (s1 & Hg & Hfd & Hdue & Hnew).
  destruct (CheckIfDue_due true s0 k p q Hr0 Hp0) as (s1' & Hc & Hg').
  { lia. }
  { intros (_ & Ht & ->). rewrite Hp in Hn. simpl in Hn. by rewrite bool_decide_true in Hn. }
  rewrite Hg in Hg'. injection Hg' as <-.
  pose proof (Hgo s0 k p q s1 HP Hr0 Hp0 ltac:(lia) Hg) as HP1.
  destruct (while_due_ends P fuel s1 Hgo Hperm (fd_ready _ _ Hfd) HP1) as (s2 & Hw & Hfd2 & HP2 & Hd2).
  { rewrite (fd_clock _ _ Hfd), Hdue. pose proof (length_due (totalTicks (stats s0)) q). lia. }
  exists s1, s2. split; [done|]. split_and!.
  - unfold Idle. cbv zeta.
    rewrite (CheckIfDue_advance (set_status s IdleMode) k p q) by done.
    fold s0. rewrite Hc. simpl. rewrite Hw. done.
  - by apply (fired_trans s0 s1).
  - done.
  - rewrite (fd_clock _ _ Hfd), Ht0 in Hd2. done.
Qed.

(** [OneTick] up to the possible yield. *)
Definition tick_of (m : MachineStatus) (x : Statistics) : Statistics :=
  if decide (m = SystemMode) then add_ticks SystemTick 0 SystemTick 0 x
  else add_ticks UserTick 0 0 UserTick x.

Lemma OneTick_spec fuel s :
  queue_ok (pending (interrupt s)) -> inHandler (interrupt s) = false -> I (world s) ->
  status (interrupt s) <> IdleMode -> (length (pending (interrupt s)) < fuel)%nat ->
  let x := tick_of (status (interrupt s)) (stats s) in
  let s0 := set_level (set_stats s x) IntOff in
  exists s1 q,
    go_off_all (due (totalTicks x) (pending (interrupt s))) s0 = Ok (tt, s1) /\
    q ≡ₚ pending (interrupt s1) /\ fired s0 (set_pending s1 q) /\
    due (totalTicks x) q = [] /\
    let s2 := set_level (set_pending s1 q) IntOn in
    OneTick call_handler DelayedLoad00 Yield fuel s =
      if yieldOnReturn (interrupt s2) then
        '(_, s3) ← Yield (set_status (set_yieldOnReturn s2 false) SystemMode);
        Ok (tt, set_status s3 (status (interrupt s)))
      else Ok (tt, s2).
Proof.
  intros Hq Hh Hw Hs Hf x s0.
  destruct (while_due_fires fuel s0) as (s1 & q & Hg & Hwd & Hp & Hfd & Hd).
  { by split. }
  { done. }
  { pose proof (length_due (totalTicks (stats s0)) (pending (interrupt s0))). simpl in *. lia. }
  exists s1, q. split_and!; try done. unfold OneTick, ChangeLevel. cbv zeta.
  replace (if decide (status (interrupt s) = SystemMode) then _ else _) with (set_stats s x)
    by (unfold x, tick_of; by destruct (decide _)).
  simpl. fold s0. rewrite Hwd. simpl. done.
Qed.
End laws.

(** ** A kernel with the timer only, on which the theorems are tried *)

Definition timer_kernel (h : IntHandler) (a : Z) : st (sim Timer) unit := fun s =>
  match h with
  | TimerHandler => TimerExpired 0 (world s) s
  | _ => Ok (tt, s)
  end.
Definition no_op {W} : st (sim W) unit := fun s => Ok (tt, s).

Lemma TimerExpired_ok {W} (r : Z) t (s : sim W) :
  0 <= r -> inHandler (interrupt s) = true ->
  exists s', TimerExpired r t s = Ok (tt, s') /\ handler_step s s' /\ world s' = world s.
Proof.
  intros Hr Hh. unfold TimerExpired.
  destruct (@Schedule_step W TimerHandler 0 (TimeOfNextInterrupt r t) TimerInt s)
    as (s1 & -> & Hs & Hw & _).
  { unfold TimeOfNextInterrupt, TimerTicks. destruct (randomize t); [|lia].
    pose proof (Z.rem_bound_pos r (100 * 2)). lia. }
  simpl. unfold TimerInterruptHandler, YieldOnReturn. destruct (bool_decide _).
  - eauto.
  - rewrite (hs_inHandler _ _ Hs), Hh. eexists. split; [done|]. split; [|done].
    apply (handler_step_trans s s1); [done|]. split; try done. by exists [].
Qed.

Lemma timer_kernel_ok : handlers_ok timer_kernel (fun _ => True).
Proof.
  intros h a s Hq Hl Hh _. destruct h; simpl; eauto with nachos.
  destruct (TimerExpired_ok 0 (world s) s) as (s' & ? & ? & _); [lia|done|eauto].
Qed.
Lemma no_op_ok {W} : delayed_load_ok (@no_op W) (fun _ => True).
Proof. intros s _. exists (world s). by destruct s. Qed.

Definition timer_start : sim Timer :=
  mkSim (mkInterrupt IntOn
           [(100, Some (mkPendingInterrupt TimerHandler 0 100 TimerInt));
            (250, Some (mkPendingInterrupt DiskDone 0 250 DiskInt))] false false SystemMode)
    (add_ticks 95 0 95 0 new_Statistics) (mkTimer false).

Lemma timer_start_queue : queue_ok (pending (interrupt timer_start)).
Proof.
  apply queue_ok_cons. split; [by eexists|]. split; [repeat constructor; simpl; lia|].
  apply queue_ok_cons. split; [by eexists|]. split; [constructor|apply queue_ok_nil].
Qed.

(** ** Properties *)

(** C9. One tick.  Outside the idle mode, [OneTick] advances the clock by 10
    in kernel mode and by 1 in user mode, charges the same time to the mode,
    fires exactly the interrupts that are due, each once and in the order of
    their times, each in kernel mode with the machine status restored, and
    leaves no due interrupt in the queue; it yields exactly when a handler
    asked for it, and the sum of idle, kernel and user time stays the total.
    The loop ends for every fuel above the length of the queue. *)
Theorem one_tick_fires_due {W} call_handler DelayedLoad00 (Yield : st (sim W) unit) I fuel s :
  handlers_ok call_handler I -> delayed_load_ok DelayedLoad00 I ->
  queue_ok (pending (interrupt s)) -> inHandler (interrupt s) = false -> I (world s) ->
  status (interrupt s) <> IdleMode -> (length (pending (interrupt s)) < fuel)%nat ->
  let now := totalTicks (stats s) +
    (if decide (status (interrupt s) = SystemMode) then SystemTick else UserTick) in
  let s0 := set_level (set_stats s (tick_of (status (interrupt s)) (stats s))) IntOff in
  exists s1 s2,
    go_off_all call_handler DelayedLoad00 (due now (pending (interrupt s))) s0 = Ok (tt, s1) /\
    pending (interrupt s2) ≡ₚ pending (interrupt s1) /\ queue_ok (pending (interrupt s2)) /\
    due now (pending (interrupt s2)) = [] /\
    world s2 = world s1 /\ I (world s2) /\ level (interrupt s2) = IntOn /\
    status (interrupt s2) = status (interrupt s) /\
    totalTicks (stats s2) = now /\
    (ticks_balance (stats s) -> ticks_balance (stats s2)) /\
    OneTick call_handler DelayedLoad00 Yield fuel s =
      if yieldOnReturn (interrupt s1) then
        '(_, s3) ← Yield (set_status (set_yieldOnReturn s2 false) SystemMode);
        Ok (tt, set_status s3 (status (interrupt s)))
      else Ok (tt, s2).
Proof.
  intros Hh Hl Hq Hin HI Hst Hf now s0.
  destruct (OneTick_spec _ _ Yield I Hh Hl fuel s Hq Hin HI Hst Hf)
    as (s1 & q & Hg & Hp & Hfd & Hd & Ho).
  assert (totalTicks (tick_of (status (interrupt s)) (stats s)) = now) as Hnow.
  { unfold now, tick_of. by destruct (decide _). }
  rewrite Hnow in *. destruct Hfd as [[] Hc Hs Hb]. simpl in *.
  exists s1, (set_level (set_pending s1 q) IntOn). split_and!; try done; simpl; try congruence.
  intros Hbal. apply Hb. unfold ticks_balance, tick_of in *.
  destruct (decide _); simpl; unfold SystemTick, UserTick; lia.
Qed.

Lemma one_tick_fires_due_witness : exists s2,
  OneTick timer_kernel no_op no_op 3 timer_start = Ok (tt, s2) /\
  totalTicks (stats s2) = 105 /\ due 105 (pending (interrupt s2)) = [] /\
  length (pending (interrupt s2)) = 2%nat.
Proof.
  destruct (one_tick_fires_due timer_kernel no_op no_op (fun _ => True) 3 timer_start)
    as (s1 & s2 & Hg & Hp & Hq & Hd & Hw & _ & Hl & Hs & Ht & _ & Ho).
  - exact timer_kernel_ok.
  - exact no_op_ok.
  - exact timer_start_queue.
  - reflexivity.
  - exact I.
  - discriminate.
  - simpl. lia.
  - vm_compute in Hg. injection Hg as <-. simpl in Ho. rewrite Ho.
    eexists. split; [reflexivity|]. split; [exact Ht|]. split; [exact Hd|].
    simpl. rewrite Hp. reflexivity.
Defined.

(** Idling.  With nothing pending, or the time-slice timer alone, [Idle]
    ends the process.  Otherwise the clock jumps to the first pending
    interrupt (never back), that interrupt goes off, [Idle] returns in kernel
    mode with no yield requested, and nothing due is left unless the timer is
    the only interrupt pending; the time skipped counts as idle. *)
Theorem idle_fires_or_halts {W} call_handler (DelayedLoad00 : st (sim W) unit) I fuel s :
  handlers_ok call_handler I -> delayed_load_ok DelayedLoad00 I ->
  ready_to_fire I s -> (length (pending (interrupt s)) < fuel)%nat ->
  if nothing_to_do (pending (interrupt s)) then
    Idle call_handler DelayedLoad00 fuel s = Halted
  else exists k p q s1 s',
    pending (interrupt s) = (k, Some p) :: q /\
    go_off call_handler DelayedLoad00 (k, Some p) (advance_to k (set_status s IdleMode)) =
      Ok (tt, s1) /\
    Idle call_handler DelayedLoad00 fuel s = Ok (tt, s') /\
    totalTicks (stats s') = Z.max (totalTicks (stats s)) k /\
    status (interrupt s') = SystemMode /\ yieldOnReturn (interrupt s') = false /\
    (ticks_balance (stats s) -> ticks_balance (stats s')) /\ I (world s') /\
    (due (totalTicks (stats s')) (pending (interrupt s')) = [] \/
     nothing_to_do (pending (interrupt s')) = true).
Proof.
  intros Hh Hl Hr Hf. destruct (nothing_to_do _) eqn:Hn; [by eapply Idle_halts|].
  destruct (pending (interrupt s)) as [|[k [p|]] q] eqn:Hp; [done| |].
  2:{ destruct Hr as [Hq _ _ _]. rewrite Hp in Hq.
      apply queue_ok_cons in Hq as ((p' & ? & _) & _). done. }
  destruct (Idle_fires _ _ I Hh Hl (fun _ => True) fuel s k p q)
    as (s1 & s2 & Hg & Hi & [[] Hc Hst Hb] & _ & Hd); try done.
  { by rewrite Hp. }
  { simpl in Hf. lia. }
  rewrite advance_to_clock in Hc. simpl in Hc.
  exists k, p, q, s1. eexists. split_and!; try done; simpl.
  - intros. by apply Hb, advance_to_balance.
  - rewrite Hc. destruct Hd as [Hd|(k' & p' & -> & Ht)]; [by left|right].
    simpl. by apply bool_decide_eq_true.
Qed.

Lemma idle_fires_or_halts_witness :
  let s := set_level timer_start IntOff in
  exists s', Idle timer_kernel no_op 3 s = Ok (tt, s') /\ totalTicks (stats s') = 100 /\
    idleTicks (stats s') = 5.
Proof.
  pose proof (idle_fires_or_halts timer_kernel no_op (fun _ => True) 3
    (set_level timer_start IntOff) timer_kernel_ok no_op_ok) as H.
  destruct H as (k & p & q & s1 & s' & Hp & _ & Hi & Ht & _).
  - split; [exact timer_start_queue|reflexivity|reflexivity|exact I].
  - simpl. lia.
  - injection Hp as <- <- <-. exists s'. split; [exact Hi|]. split; [exact Ht|].
    vm_compute in Hi. injection Hi as <-. reflexivity.
Defined.
