(* ===== verification/Threads.v ===== *)
(** * threads/thread.cc, threads/scheduler.cc, threads/synch.cc: threads, the
    ready list, context switches and semaphores

    The state is a [kernel].  The routines run with interrupts off, so each is
    an atomic function on it; what is between two of them (the rest of the
    thread, interrupts, a time slice) is a step of the relation [step], in any
    order.  A thread that is not on the CPU is suspended at one of the points
    of [ctl]: it has been forked and not run yet, it gave up the CPU in
    [Yield], it waits in the loop of [Semaphore::P], or it has finished.
    [switching] says that the CPU is in the loop of [Thread::Sleep], which
    looks for a thread to run.  Saving and restoring user registers and page
    tables in [Scheduler::Run] is an argument of the section ([save_user],
    [restore_user]); [SWITCH] itself is assembly.  Threads are numbered; the
    lists of threads are sequences, as NList proves them to be. *)

From S2P Require Import Prelude NList Interrupt.
From stdpp Require Import gmap list sets.
#[local] Open Scope Z_scope.

Inductive ThreadStatus := JUST_CREATED | RUNNING | READY | BLOCKED.
#[export] Instance ThreadStatus_eq_dec : EqDecision ThreadStatus.
Proof. solve_decision. Defined.

(** Where a thread continues when it gets the CPU. *)
Inductive ctl :=
| Fresh                 (* at ThreadRoot *)
| Normal                (* in its own code, or after Run in Yield *)
| InP (s : Z)           (* after Sleep in the loop of P of semaphore [s] *)
| Dead.                 (* after Sleep in Finish: never *)
#[export] Instance ctl_eq_dec : EqDecision ctl.
Proof. solve_decision. Defined.

Record Thread := mkThread {
  status : ThreadStatus;
  threadID : Z;
  (** [None]: [stack == NULL]; [Some f]: the word at the fence post *)
  stack : option Z;
  where_ : ctl
}.
Definition STACK_FENCEPOST : Z := 3735928559.

Record Semaphore := mkSemaphore { value : Z; queue : list Z }.

Record kernel (E : Type) := mkKernel {
  threads : gmap Z Thread;
  currentThread : Z;
  threadToBeDestroyed : option Z;
  readyList : list Z;
  semaphores : gmap Z Semaphore;
  switching : bool;
  ext : E
}.
Arguments mkKernel {E}.
Arguments threads {E}.
Arguments currentThread {E}.
Arguments threadToBeDestroyed {E}.
Arguments readyList {E}.
Arguments semaphores {E}.
Arguments switching {E}.
Arguments ext {E}.

Definition new_Thread (id : Z) : Thread := mkThread JUST_CREATED id None Fresh.
Definition new_Semaphore (initialValue : Z) : Semaphore := mkSemaphore initialValue [].

Section ops.
Context {E : Type}.
Context (save_user restore_user : Z -> E -> E).
Implicit Types (k : kernel E) (t : Z).

Definition set_threads k v : kernel E :=
  mkKernel v (currentThread k) (threadToBeDestroyed k) (readyList k) (semaphores k)
    (switching k) (ext k).
Definition set_current k v : kernel E :=
  mkKernel (threads k) v (threadToBeDestroyed k) (readyList k) (semaphores k)
    (switching k) (ext k).
Definition set_toBeDestroyed k v : kernel E :=
  mkKernel (threads k) (currentThread k) v (readyList k) (semaphores k)
    (switching k) (ext k).
Definition set_ready k v : kernel E :=
  mkKernel (threads k) (currentThread k) (threadToBeDestroyed k) v (semaphores k)
    (switching k) (ext k).
Definition set_semaphores k v : kernel E :=
  mkKernel (threads k) (currentThread k) (threadToBeDestroyed k) (readyList k) v
    (switching k) (ext k).
Definition set_switching k v : kernel E :=
  mkKernel (threads k) (currentThread k) (threadToBeDestroyed k) (readyList k)
    (semaphores k) v (ext k).
Definition set_ext k v : kernel E :=
  mkKernel (threads k) (currentThread k) (threadToBeDestroyed k) (readyList k)
    (semaphores k) (switching k) v.

(** [*t] and [*s], undefined when the object is not allocated. *)
Definition thread_at k t : res Thread :=
  match threads k !! t with Some th => Ok th | None => UB end.
Definition sem_at k (s : Z) : res Semaphore :=
  match semaphores k !! s with Some sem => Ok sem | None => UB end.

Definition setStatus k t (v : ThreadStatus) : res (kernel E) :=
  th ← thread_at k t;
  Ok (set_threads k (<[t := mkThread v (threadID th) (stack th) (where_ th)]> (threads k))).
Definition set_where k t (v : ctl) : res (kernel E) :=
  th ← thread_at k t;
  Ok (set_threads k (<[t := mkThread (status th) (threadID th) (stack th) v]> (threads k))).

(** ** Scheduler *)

Definition ReadyToRun k t : res (kernel E) :=
  k ← setStatus k t READY; Ok (set_ready k (readyList k ++ [t])).

Definition FindNextToRun k : option Z * kernel E :=
  match readyList k with
  | [] => (None, k)
  | t :: r => (Some t, set_ready k r)
  end.

Definition CheckOverflow k t : res unit :=
  th ← thread_at k t;
  match stack th with
  | None => Ok tt
  | Some w => ASSERT (w =? STACK_FENCEPOST); Ok tt
  end.

(** [delete threadToBeDestroyed]: the destructor asserts that the thread is
    not the running one. *)
Definition delete_Thread k t : res (kernel E) :=
  _ ← thread_at k t;
  ASSERT (negb (t =? currentThread k));
  Ok (set_threads k (delete t (threads k))).

(** [Run] up to the point where [nextThread] executes.  A thread that ran
    before continues behind [SWITCH], where it deletes a finished thread and
    restores the user state; a fresh one starts in [ThreadRoot]. *)
Definition Run k (nextThread : Z) : res (kernel E) :=
  let oldThread := currentThread k in
  let k := set_ext k (save_user oldThread (ext k)) in
  _ ← CheckOverflow k oldThread;
  let k := set_current k nextThread in
  k ← setStatus k nextThread RUNNING;
  th ← thread_at k nextThread;
  if decide (where_ th = Fresh) then set_where k nextThread Normal
  else
    k ← match threadToBeDestroyed k with
        | None => Ok k
        | Some d => k ← delete_Thread k d; Ok (set_toBeDestroyed k None)
        end;
    Ok (set_ext k (restore_user nextThread (ext k))).

(** ** Thread *)

(** [StackAllocate], then the thread goes on the ready list. *)
Definition Fork k t : res (kernel E) :=
  th ← thread_at k t;
  let k := set_threads k
    (<[t := mkThread (status th) (threadID th) (Some STACK_FENCEPOST) Fresh]> (threads k)) in
  ReadyToRun k t.

Definition Yield k t : res (kernel E) :=
  ASSERT (t =? currentThread k);
  match FindNextToRun k with
  | (None, k) => Ok k
  | (Some nextThread, k) => k ← ReadyToRun k t; Run k nextThread
  end.

(** [Sleep] called at interrupt level [lvl], up to its loop. *)
Definition Sleep (lvl : IntStatus) k t : res (kernel E) :=
  ASSERT (t =? currentThread k);
  ASSERT (bool_decide (lvl = IntOff));
  k ← setStatus k t BLOCKED; Ok (set_switching k true).

(** One test of [while ((nextThread = FindNextToRun()) == NULL) Idle();]:
    [None] when the machine has to idle. *)
Definition sleep_loop k : res (option (kernel E)) :=
  match FindNextToRun k with
  | (None, _) => Ok None
  | (Some nextThread, k) =>
      k ← Run k nextThread; Ok (Some (set_switching k false))
  end.

Definition Finish k t : res (kernel E) :=
  ASSERT (t =? currentThread k);
  k ← set_where (set_toBeDestroyed k (Some t)) t Dead;
  Sleep IntOff k t.

(** ** Semaphore *)

(** One round of the loop of [P] and what follows it: the thread either
    takes a unit and goes on, or joins the queue and sleeps. *)
Definition P k t (s : Z) : res (kernel E) :=
  sem ← sem_at k s;
  if value sem =? 0 then
    let k := set_semaphores k
      (<[s := mkSemaphore (value sem) (queue sem ++ [t])]> (semaphores k)) in
    k ← set_where k t (InP s);
    Sleep IntOff k t
  else
    let k := set_semaphores k (<[s := mkSemaphore (value sem - 1) (queue sem)]> (semaphores k)) in
    set_where k t Normal.

Definition V k (s : Z) : res (kernel E) :=
  sem ← sem_at k s;
  match queue sem with
  | [] => Ok (set_semaphores k (<[s := mkSemaphore (value sem + 1) []]> (semaphores k)))
  | t :: r =>
      k ← ReadyToRun k t;
      Ok (set_semaphores k (<[s := mkSemaphore (value sem + 1) r]> (semaphores k)))
  end.

(** The lock and condition operations of threads/synch.cc are the dummy ones. *)
Definition Lock_Acquire k : res (kernel E) := Ok k.
Definition Lock_Release k : res (kernel E) := Ok k.
Definition Condition_Wait k : res (kernel E) := AssertFail.
Definition Condition_Signal k : res (kernel E) := Ok k.
Definition Condition_Broadcast k : res (kernel E) := Ok k.

(** ** Steps

    What can happen next: the running thread calls a routine (a time slice is
    a call of [Yield]), an interrupt handler calls [V], or the CPU, in the
    loop of [Sleep], picks a thread. *)
Inductive step : kernel E -> kernel E -> Prop :=
| step_P k k' s :
    switching k = false -> P k (currentThread k) s = Ok k' ->
    (exists th, threads k !! currentThread k = Some th /\ where_ th = Normal) -> step k k'
| step_P_again k k' s :
    switching k = false ->
    (exists th, threads k !! currentThread k = Some th /\ where_ th = InP s) ->
    P k (currentThread k) s = Ok k' -> step k k'
| step_V k k' s : V k s = Ok k' -> step k k'
| step_Yield k k' :
    switching k = false ->
    (exists th, threads k !! currentThread k = Some th /\ where_ th = Normal) ->
    Yield k (currentThread k) = Ok k' -> step k k'
| step_create k t id :
    threads k !! t = None -> step k (set_threads k (<[t := new_Thread id]> (threads k)))
| step_new_sem k s v :
    semaphores k !! s = None ->
    step k (set_semaphores k (<[s := new_Semaphore v]> (semaphores k)))
| step_Fork k k' t th :
    threads k !! t = Some th -> status th = JUST_CREATED ->
    Fork k t = Ok k' -> step k k'
| step_Finish k k' :
    switching k = false ->
    (exists th, threads k !! currentThread k = Some th /\ where_ th = Normal) ->
    Finish k (currentThread k) = Ok k' -> step k k'
| step_sleep k k' :
    switching k = true -> sleep_loop k = Ok (Some k') -> step k k'
| step_ext k e : step k (set_ext k e).

Inductive reachable (k0 : kernel E) : kernel E -> Prop :=
| reach_refl : reachable k0 k0
| reach_step k k' : reachable k0 k -> step k k' -> reachable k0 k'.
End ops.

(** ** The invariant *)

(** [run] is the thread on the CPU, if the CPU is not in the loop of [Sleep]. *)
Definition thread_ok (run : option Z) (ready : list Z) (sems : gmap Z Semaphore)
    (t : Z) (th : Thread) : Prop :=
  (stack th = None \/ stack th = Some STACK_FENCEPOST) /\
  match status th with
  | JUST_CREATED => where_ th = Fresh
  | RUNNING => run = Some t /\ (where_ th = Normal \/ exists s, where_ th = InP s)
  | READY => t ∈ ready /\ where_ th <> Dead
  | BLOCKED => where_ th = Dead \/
      exists s sem, where_ th = InP s /\ sems !! s = Some sem /\ t ∈ queue sem
  end.

(** A value below zero (the constructor takes any) means that nobody has had
    to wait; waiters are blocked in [P] of this semaphore; while there are
    waiters, every unit of the value is matched by a thread that was woken and has not
    yet tried again. *)
Definition sem_ok (thr : gmap Z Thread) (s : Z) (sem : Semaphore) : Prop :=
  (value sem < 0 -> queue sem = []) /\ NoDup (queue sem) /\
  (forall t, t ∈ queue sem ->
     exists th, thr !! t = Some th /\ status th = BLOCKED /\ where_ th = InP s) /\
  (queue sem <> [] -> exists woken, NoDup woken /\
     (forall t, t ∈ woken ->
        exists th, thr !! t = Some th /\ status th <> BLOCKED /\ where_ th = InP s) /\
     value sem <= zlen woken).

Record core (run : option Z) (ready : list Z) (thr : gmap Z Thread)
    (sems : gmap Z Semaphore) (destroy : option Z) : Prop := {
  core_thread : forall t th, thr !! t = Some th -> thread_ok run ready sems t th;
  core_run : forall t, run = Some t -> exists th, thr !! t = Some th /\ status th = RUNNING;
  core_ready_dup : NoDup ready;
  core_ready : forall t, t ∈ ready -> exists th, thr !! t = Some th /\ status th = READY;
  core_sem : forall s sem, sems !! s = Some sem -> sem_ok thr s sem;
  core_destroy : forall d, destroy = Some d ->
    exists th, thr !! d = Some th /\ status th = BLOCKED /\ where_ th = Dead
}.

Section core.

(** *** How the threads change *)

Ltac split_thread t0 :=
  match goal with
  | H : <[?t := _]> _ !! t0 = Some _ |- _ =>
      destruct (decide (t0 = t)) as [->|];
      [rewrite lookup_insert_eq in H; injection H as <- | rewrite lookup_insert_ne in H by done]
  end.

(** A semaphore whose waiters keep their record and whose woken threads stay
    woken keeps its invariant. *)
Lemma sem_ok_insert (thr : gmap Z Thread) s sem t th th' :
  sem_ok thr s sem -> thr !! t = Some th ->
  (status th = BLOCKED -> where_ th = InP s -> status th' = BLOCKED /\ where_ th' = InP s) ->
  (status th <> BLOCKED -> where_ th = InP s -> status th' <> BLOCKED /\ where_ th' = InP s) ->
  sem_ok (<[t := th']> thr) s sem.
Proof.
  intros (Hv & Hd & Hq & Hw) Ht H1 H2. split_and!; try done.
  - intros t0 (th0 & Hth0 & Hs0 & Hw0)%Hq. destruct (decide (t0 = t)) as [->|].
    + rewrite lookup_insert_eq. simplify_eq. eexists. split; [done|]. auto.
    + rewrite lookup_insert_ne by done. eauto.
  - intros (ws & Hnd & Hws & Hle)%Hw. exists ws. split_and!; try done.
    intros t0 (th0 & Hth0 & Hs0 & Hw0)%Hws. destruct (decide (t0 = t)) as [->|].
    + rewrite lookup_insert_eq. simplify_eq. eexists. split; [done|]. auto.
    + rewrite lookup_insert_ne by done. eauto.
Qed.

(** The running thread goes to the end of the ready list. *)
Lemma core_preempt t ready (thr : gmap Z Thread) sems d th :
  core (Some t) ready thr sems d -> thr !! t = Some th ->
  core None (ready ++ [t])
    (<[t := mkThread READY (threadID th) (stack th) (where_ th)]> thr) sems d.
Proof.
  intros [Hth Hrun Hnd Hrd Hsem Hd] Ht.
  destruct (Hrun t eq_refl) as (th' & ? & Hst). simplify_eq.
  pose proof (Hth t th Ht) as (Hstk & Hok). rewrite Hst in Hok. destruct Hok as [_ Hwh].
  assert (t ∉ ready) as Hni.
  { intros Hin. apply Hrd in Hin as (th2 & ? & ?). simplify_eq. congruence. }
  split.
  - intros t0 th0 H0. split_thread t0.
    + split; [done|]. simpl. split; [set_solver|]. destruct Hwh as [->|[s ->]]; done.
    + destruct (Hth t0 th0 H0) as [? Hk]. split; [done|].
      destruct (status th0); [done|destruct Hk; congruence| |done].
      destruct Hk. split; [set_solver|done].
  - done.
  - apply NoDup_app. split_and!; [done| |apply NoDup_singleton]. intros x Hx ->%list_elem_of_singleton. done.
  - intros t0 [Hin| ->%list_elem_of_singleton]%elem_of_app.
    + rewrite lookup_insert_ne by (intros ->; done). auto.
    + rewrite lookup_insert_eq. by eexists.
  - intros s sem Hs. eapply sem_ok_insert; [by apply Hsem|done| |]; simpl; try done.
    intros Hb. congruence.
  - intros x (thx & Hx & Hsx & Hdx)%Hd. exists thx.
    rewrite lookup_insert_ne; [done|]. intros ->. congruence.
Qed.

(** A thread of the ready list gets the CPU. *)
Lemma core_dispatch t ready (thr : gmap Z Thread) sems d th w :
  core None (t :: ready) thr sems d -> thr !! t = Some th ->
  w = (if decide (where_ th = Fresh) then Normal else where_ th) ->
  core (Some t) ready (<[t := mkThread RUNNING (threadID th) (stack th) w]> thr) sems d.
Proof.
  intros [Hth Hrun Hnd Hrd Hsem Hd] Ht Hw.
  destruct (Hrd t) as (th' & ? & Hst); [set_solver|]. simplify_eq.
  pose proof (Hth t th Ht) as (Hstk & Hok). rewrite Hst in Hok. destruct Hok as [_ Hwh].
  apply NoDup_cons in Hnd as [Hni Hnd]. split.
  - intros t0 th0 H0. split_thread t0.
    + split; [done|]. simpl. split; [done|]. destruct (decide _); [by left|].
      destruct (where_ th); try done; [by left|right; by eexists].
    + destruct (Hth t0 th0 H0) as [? Hk]. split; [done|].
      destruct (status th0); [done|by destruct Hk as [? _]| |done].
      destruct Hk. split; [set_solver|done].
  - intros ? [= <-]. rewrite lookup_insert_eq. by eexists.
  - done.
  - intros t0 Hin. rewrite lookup_insert_ne by (intros ->; done). apply Hrd. set_solver.
  - intros s sem Hs. eapply sem_ok_insert; [by apply Hsem|done| |]; simpl.
    + congruence.
    + intros _ Hp. by rewrite decide_False by congruence.
  - intros x (thx & Hx & Hsx & Hdx)%Hd. exists thx.
    rewrite lookup_insert_ne; [done|]. intros ->. congruence.
Qed.

(** A finished thread is deleted. *)
Lemma core_delete run ready (thr : gmap Z Thread) sems d :
  core run ready thr sems (Some d) -> core run ready (delete d thr) sems None.
Proof.
  intros [Hth Hrun Hnd Hrd Hsem Hd].
  destruct (Hd d eq_refl) as (thd & Htd & Hsd & Hwd). split; try done.
  - intros t th [Hne H]%lookup_delete_Some. by apply Hth.
  - intros t (th & H & Hs)%Hrun. exists th. rewrite lookup_delete_ne; [done|congruence].
  - intros t (th & H & Hs)%Hrd. exists th. rewrite lookup_delete_ne; [done|congruence].
  - intros s sem (Hv & Hq & Hb & Hw)%Hsem. split_and!; try done.
    + intros t (th & H & Hs & Hws)%Hb. exists th. rewrite lookup_delete_ne; [done|congruence].
    + intros (ws & Hnw & Hws & Hle)%Hw. exists ws. split_and!; try done.
      intros t (th & H & Hs & Hp)%Hws. exists th. rewrite lookup_delete_ne; [done|congruence].
Qed.

(** Adding waiters to queues keeps the other threads' places. *)
Lemma thread_ok_sems run ready (sems sems' : gmap Z Semaphore) t th :
  (forall s sem, sems !! s = Some sem -> t ∈ queue sem ->
     exists sem', sems' !! s = Some sem' /\ t ∈ queue sem') ->
  thread_ok run ready sems t th -> thread_ok run ready sems' t th.
Proof.
  intros Hq [Hs Hk]. split; [done|]. destruct (status th); try done.
  destruct Hk as [?|(s & sem & ? & Hin & Ht)]; [by left|right].
  destruct (Hq s sem Hin Ht) as (sem' & ? & ?). eauto.
Qed.

(** The running thread blocks on a semaphore without units. *)
Lemma core_wait t s ready (thr : gmap Z Thread) sems d th sem :
  core (Some t) ready thr sems d -> thr !! t = Some th -> sems !! s = Some sem ->
  where_ th = Normal \/ where_ th = InP s -> value sem = 0 ->
  core None ready (<[t := mkThread BLOCKED (threadID th) (stack th) (InP s)]> thr)
    (<[s := mkSemaphore (value sem) (queue sem ++ [t])]> sems) d.
Proof.
  intros [Hth Hrun Hnd Hrd Hsem Hd] Ht Hs Hwh Hv.
  destruct (Hrun t eq_refl) as (th' & ? & Hst). simplify_eq.
  pose proof (Hth t th Ht) as (Hstk & _). split; try done.
  - intros t0 th0 H0. split_thread t0.
    + split; [done|]. right. exists s. eexists. rewrite lookup_insert_eq.
      split_and!; try done. simpl. set_solver.
    + eapply thread_ok_sems.
      2:{ destruct (Hth t0 th0 H0) as [? Hk]. split; [done|].
          destruct (status th0); try done. destruct Hk; congruence. }
      intros s' sem' Hs' Hin. destruct (decide (s' = s)) as [->|].
      * rewrite lookup_insert_eq. simplify_eq. eexists. split; [done|]. simpl. set_solver.
      * rewrite lookup_insert_ne by done. eauto.
  - intros t0 (th0 & H0 & Hs0)%Hrd. exists th0. rewrite lookup_insert_ne; [done|congruence].
  - intros s' sem' Hs'. destruct (decide (s' = s)) as [->|].
    + rewrite lookup_insert_eq in Hs'. simplify_eq.
      destruct (Hsem s sem Hs) as (_ & Hq & Hb & _). split_and!; simpl; [lia| | |].
      * apply NoDup_app. split_and!; [done| |apply NoDup_singleton].
        intros x Hx ->%list_elem_of_singleton. apply Hb in Hx as (th0 & ? & ? & _). congruence.
      * intros t0 [(th0 & H0 & Hs0 & Hw0)%Hb| ->%list_elem_of_singleton]%elem_of_app.
        -- exists th0. rewrite lookup_insert_ne; [done|congruence].
        -- rewrite lookup_insert_eq. by eexists.
      * intros _. exists []. split_and!; [apply NoDup_nil_2|set_solver|rewrite Hv; done].
    + rewrite lookup_insert_ne in Hs' by done.
      eapply sem_ok_insert; [by apply Hsem|done|congruence|].
      intros _ ?. destruct Hwh; congruence.
  - intros x (thx & Hx & Hsx & Hdx)%Hd. exists thx. rewrite lookup_insert_ne; [done|congruence].
Qed.

(** The running thread takes a unit. *)
Lemma core_take t s ready (thr : gmap Z Thread) sems d th sem :
  core (Some t) ready thr sems d -> thr !! t = Some th -> sems !! s = Some sem ->
  where_ th = Normal \/ where_ th = InP s -> value sem <> 0 ->
  core (Some t) ready (<[t := mkThread (status th) (threadID th) (stack th) Normal]> thr)
    (<[s := mkSemaphore (value sem - 1) (queue sem)]> sems) d.
Proof.
  intros [Hth Hrun Hnd Hrd Hsem Hd] Ht Hs Hwh Hv.
  destruct (Hrun t eq_refl) as (th' & ? & Hst). simplify_eq.
  pose proof (Hth t th Ht) as (Hstk & _). split; try done.
  - intros t0 th0 H0. split_thread t0.
    + split; [done|]. simpl. rewrite Hst. split; [done|by left].
    + eapply thread_ok_sems; [|by apply Hth].
      intros s' sem' Hs' Hin. destruct (decide (s' = s)) as [->|].
      * rewrite lookup_insert_eq. simplify_eq. by eexists.
      * rewrite lookup_insert_ne by done. eauto.
  - intros ? [= <-]. rewrite lookup_insert_eq. by eexists.
  - intros t0 (th0 & H0 & Hs0)%Hrd. exists th0. rewrite lookup_insert_ne; [done|congruence].
  - intros s' sem' Hs'. destruct (decide (s' = s)) as [->|].
    + rewrite lookup_insert_eq in Hs'. simplify_eq.
      destruct (Hsem s sem Hs) as (Hv0 & Hq & Hb & Hw). split_and!; simpl; [auto with lia|done| |].
      * intros t0 (th0 & H0 & Hs0 & Hw0)%Hb. exists th0.
        rewrite lookup_insert_ne; [done|congruence].
      * intros (ws & Hnw & Hws & Hle)%Hw. exists (filter (.≠ t) ws). split_and!.
        -- by apply NoDup_filter.
        -- intros t0 [Hne Hin]%list_elem_of_filter. rewrite lookup_insert_ne by done. auto.
        -- assert (zlen ws <= zlen (filter (.≠ t) ws) + 1); [|lia].
           clear -Hnw. induction Hnw as [|x l Hx Hl IH]; [done|]. rewrite filter_cons.
           destruct (decide (x ≠ t)) as [|Hxt%dec_stable]; rewrite !zlen_cons; [lia|].
           subst x. rewrite filter_all; [lia|]. apply Forall_forall. intros y Hy ->. done.
    + rewrite lookup_insert_ne in Hs' by done.
      eapply sem_ok_insert; [by apply Hsem|done|congruence|].
      intros _ ?. destruct Hwh; congruence.
  - intros x (thx & Hx & Hsx & Hdx)%Hd. exists thx. rewrite lookup_insert_ne; [done|congruence].
Qed.

(** [V] with nobody waiting. *)
Lemma core_V_none run s ready (thr : gmap Z Thread) sems d sem :
  core run ready thr sems d -> sems !! s = Some sem -> queue sem = [] ->
  core run ready thr (<[s := mkSemaphore (value sem + 1) []]> sems) d.
Proof.
  intros [Hth Hrun Hnd Hrd Hsem Hd] Hs Hq. split; try done.
  - intros t0 th0 H0. eapply thread_ok_sems; [|by apply Hth].
    intros s' sem' Hs' Hin. destruct (decide (s' = s)) as [->|].
    + simplify_eq. rewrite Hq in Hin. by apply elem_of_nil in Hin.
    + rewrite lookup_insert_ne by done. eauto.
  - intros s' sem' Hs'. destruct (decide (s' = s)) as [->|].
    + rewrite lookup_insert_eq in Hs'. simplify_eq.
      split_and!; simpl; [done|apply NoDup_nil_2|set_solver|done].
    + rewrite lookup_insert_ne in Hs' by done. by apply Hsem.
Qed.

(** [V] with a waiter: the first one becomes ready. *)
Lemma core_V_some run s t q ready (thr : gmap Z Thread) sems d sem th :
  core run ready thr sems d -> sems !! s = Some sem -> queue sem = t :: q ->
  thr !! t = Some th ->
  core run (ready ++ [t]) (<[t := mkThread READY (threadID th) (stack th) (where_ th)]> thr)
    (<[s := mkSemaphore (value sem + 1) q]> sems) d.
Proof.
  intros [Hth Hrun Hnd Hrd Hsem Hd] Hs Hq Ht.
  destruct (Hsem s sem Hs) as (Hv0 & Hqn & Hb & Hw). rewrite Hq in *.
  apply NoDup_cons in Hqn as [Htq Hqn].
  destruct (Hb t) as (th' & ? & Hst & Hwh); [set_solver|]. simplify_eq.
  pose proof (Hth t th Ht) as (Hstk & _). split.
  - intros t0 th0 H0. split_thread t0.
    + split; [done|]. simpl. split; [set_solver|]. by rewrite Hwh.
    + destruct (Hth t0 th0 H0) as [? Hk]. split; [done|].
      destruct (status th0); [done|done|destruct Hk; split; [set_solver|done]|].
      destruct Hk as [?|(s' & sem' & Hw' & Hs' & Hin)]; [by left|right].
      exists s'. destruct (decide (s' = s)) as [->|].
      * rewrite lookup_insert_eq. eexists. split; [done|]. split; [done|].
        simplify_eq. rewrite Hq in Hin. simpl. set_solver.
      * rewrite lookup_insert_ne by done. eauto.
  - intros t0 (th0 & H0 & Hs0)%Hrun. exists th0. rewrite lookup_insert_ne; [done|congruence].
  - apply NoDup_app. split_and!; [done| |apply NoDup_singleton].
    intros x Hx ->%list_elem_of_singleton. apply Hrd in Hx as (th0 & ? & ?). congruence.
  - intros t0 [(th0 & H0 & Hs0)%Hrd| ->%list_elem_of_singleton]%elem_of_app.
    + exists th0. rewrite lookup_insert_ne; [done|congruence].
    + rewrite lookup_insert_eq. by eexists.
  - intros s' sem' Hs'. destruct (decide (s' = s)) as [->|].
    + rewrite lookup_insert_eq in Hs'. simplify_eq.
      assert (0 <= value sem) by (destruct (Z.lt_ge_cases (value sem) 0); [naive_solver|lia]).
      split_and!; simpl; [lia|done| |].
      * intros t0 Hin. destruct (Hb t0) as (th0 & H0 & Hs0 & Hw0); [set_solver|].
        exists th0. rewrite lookup_insert_ne; [done|]. intros ->. done.
      * intros _. destruct Hw as (ws & Hnw & Hws & Hle); [done|].
        assert (t ∉ ws) as Hni by (intros (th0 & ? & ? & _)%Hws; congruence).
        exists (t :: ws). split_and!; [by apply NoDup_cons| |rewrite zlen_cons; lia].
        intros t0 [->|Hin]%elem_of_cons.
        -- rewrite lookup_insert_eq. by eexists.
        -- rewrite lookup_insert_ne by (intros ->; done). auto.
    + rewrite lookup_insert_ne in Hs' by done.
      eapply sem_ok_insert; [by apply Hsem|done|congruence|congruence].
  - intros x (thx & Hx & Hsx & Hdx)%Hd. exists thx. rewrite lookup_insert_ne; [done|congruence].
Qed.

(** The running thread finishes. *)
Lemma core_finish t ready (thr : gmap Z Thread) sems d th :
  core (Some t) ready thr sems d -> thr !! t = Some th -> where_ th = Normal ->
  core None ready (<[t := mkThread BLOCKED (threadID th) (stack th) Dead]> thr) sems (Some t).
Proof.
  intros [Hth Hrun Hnd Hrd Hsem Hd] Ht Hwh.
  destruct (Hrun t eq_refl) as (th' & ? & Hst). simplify_eq.
  pose proof (Hth t th Ht) as (Hstk & _). split; try done.
  - intros t0 th0 H0. split_thread t0; [split; [done|by left]|].
    destruct (Hth t0 th0 H0) as [? Hk]. split; [done|].
    destruct (status th0); try done. destruct Hk; congruence.
  - intros t0 (th0 & H0 & Hs0)%Hrd. exists th0. rewrite lookup_insert_ne; [done|congruence].
  - intros s sem Hs. eapply sem_ok_insert; [by apply Hsem|done|congruence|congruence].
  - intros ? [= <-]. rewrite lookup_insert_eq. by eexists.
Qed.

(** A new thread, and a new thread that is forked. *)
Lemma core_create run t id ready (thr : gmap Z Thread) sems d :
  core run ready thr sems d -> thr !! t = None ->
  core run ready (<[t := new_Thread id]> thr) sems d.
Proof.
  intros [Hth Hrun Hnd Hrd Hsem Hd] Ht. split; try done.
  - intros t0 th0 H0. split_thread t0; [split; [by left|done]|by apply Hth].
  - intros t0 (th0 & H0 & Hs0)%Hrun. exists th0. rewrite lookup_insert_ne; [done|congruence].
  - intros t0 (th0 & H0 & Hs0)%Hrd. exists th0. rewrite lookup_insert_ne; [done|congruence].
  - intros s sem (Hv & Hq & Hb & Hw)%Hsem. split_and!; try done.
    + intros t0 (th0 & H0 & ?)%Hb. exists th0. rewrite lookup_insert_ne; [done|congruence].
    + intros (ws & Hnw & Hws & Hle)%Hw. exists ws. split_and!; try done.
      intros t0 (th0 & H0 & ?)%Hws. exists th0. rewrite lookup_insert_ne; [done|congruence].
  - intros x (thx & Hx & Hsx & Hdx)%Hd. exists thx. rewrite lookup_insert_ne; [done|congruence].
Qed.

Lemma core_fork run t ready (thr : gmap Z Thread) sems d th :
  core run ready thr sems d -> thr !! t = Some th -> status th = JUST_CREATED ->
  core run (ready ++ [t])
    (<[t := mkThread READY (threadID th) (Some STACK_FENCEPOST) Fresh]> thr) sems d.
Proof.
  intros [Hth Hrun Hnd Hrd Hsem Hd] Ht Hst.
  pose proof (Hth t th Ht) as (Hstk & Hwh). rewrite Hst in Hwh. split.
  - intros t0 th0 H0. split_thread t0; [split; [by right|split; [set_solver|done]]|].
    destruct (Hth t0 th0 H0) as [? Hk]. split; [done|].
    destruct (status th0); try done. destruct Hk. split; [set_solver|done].
  - intros t0 (th0 & H0 & Hs0)%Hrun. exists th0. rewrite lookup_insert_ne; [done|congruence].
  - apply NoDup_app. split_and!; [done| |apply NoDup_singleton].
    intros x Hx ->%list_elem_of_singleton. apply Hrd in Hx as (th0 & ? & ?). congruence.
  - intros t0 [(th0 & H0 & Hs0)%Hrd| ->%list_elem_of_singleton]%elem_of_app.
    + exists th0. rewrite lookup_insert_ne; [done|congruence].
    + rewrite lookup_insert_eq. by eexists.
  - intros s sem Hs. eapply sem_ok_insert; [by apply Hsem|done|congruence|congruence].
  - intros x (thx & Hx & Hsx & Hdx)%Hd. exists thx. rewrite lookup_insert_ne; [done|congruence].
Qed.

End core.

Section inv.
Context {E : Type}.
Implicit Types (k : kernel E) (t : Z).

Definition running k : option Z := if switching k then None else Some (currentThread k).

Definition Inv k : Prop :=
  core (running k) (readyList k) (threads k) (semaphores k) (threadToBeDestroyed k) /\
  is_Some (threads k !! currentThread k).

(** *** The routines return and keep the invariant *)

Lemma thread_at_Ok k t th : threads k !! t = Some th -> thread_at k t = Ok th.
Proof. unfold thread_at. by intros ->. Qed.

Lemma CheckOverflow_Ok k run ready sems t :
  is_Some (threads k !! t) ->
  (forall th, threads k !! t = Some th -> thread_ok run ready sems t th) ->
  CheckOverflow k t = Ok tt.
Proof.
  intros [th Ht] Hok. unfold CheckOverflow. rewrite (thread_at_Ok _ _ _ Ht). simpl.
  destruct (Hok th Ht) as [[-> | ->] _]; done.
Qed.

Lemma Inv_current k :
  Inv k -> switching k = false ->
  exists th, threads k !! currentThread k = Some th /\ status th = RUNNING.
Proof.
  intros [Hc _] Hsw. unfold running in Hc. rewrite Hsw in Hc.
  by apply (core_run _ _ _ _ _ Hc).
Qed.

Lemma P_spec k t s th sem :
  Inv k -> switching k = false -> t = currentThread k ->
  threads k !! t = Some th -> where_ th = Normal \/ where_ th = InP s ->
  semaphores k !! s = Some sem ->
  exists k', P k t s = Ok k' /\ Inv k' /\ currentThread k' = t /\
    readyList k' = readyList k /\
    (if value sem =? 0
     then switching k' = true /\
          semaphores k' = <[s := mkSemaphore 0 (queue sem ++ [t])]> (semaphores k)
     else switching k' = false /\
          semaphores k' = <[s := mkSemaphore (value sem - 1) (queue sem)]> (semaphores k)).
Proof.
  intros [Hc Hcur] Hsw -> Hth Hwh Hs. unfold running in Hc. rewrite Hsw in Hc.
  unfold P, sem_at. rewrite Hs. simpl. destruct (Z.eqb_spec (value sem) 0) as [Hv|Hv].
  - unfold set_where. rewrite (thread_at_Ok _ _ th) by done. simpl.
    unfold Sleep, setStatus. simpl. rewrite Z.eqb_refl. simpl.
    erewrite thread_at_Ok by (simpl; apply lookup_insert_eq). simpl.
    eexists. split; [done|]. unfold Inv, running. simpl. rewrite insert_insert_eq, Hv.
    split_and!; try done.
    + rewrite <-Hv at 1. by apply core_wait.
    + rewrite lookup_insert_eq. by eexists.
  - unfold set_where. rewrite (thread_at_Ok _ _ th) by done. simpl.
    eexists. split; [done|]. unfold Inv, running. simpl. rewrite Hsw.
    split_and!; try done.
    + by apply core_take.
    + rewrite lookup_insert_eq. by eexists.
Qed.

Lemma V_spec k s sem :
  Inv k -> semaphores k !! s = Some sem ->
  exists k', V k s = Ok k' /\ Inv k' /\ currentThread k' = currentThread k /\
    switching k' = switching k /\
    semaphores k' = <[s := mkSemaphore (value sem + 1) (tail (queue sem))]> (semaphores k) /\
    readyList k' = readyList k ++ take 1 (queue sem) /\ ext k' = ext k.
Proof.
  intros [Hc [thc Hcur]] Hs. unfold V, sem_at. rewrite Hs. simpl.
  destruct (queue sem) as [|t r] eqn:Hq.
  - eexists. split; [done|]. unfold Inv. simpl. split_and!; try done.
    + by eapply core_V_none.
    + by rewrite app_nil_r.
  - destruct (core_sem _ _ _ _ _ Hc s sem Hs) as (_ & _ & Hb & _).
    destruct (Hb t) as (th & Hth & _); [rewrite Hq; set_solver|].
    unfold ReadyToRun, setStatus. rewrite (thread_at_Ok _ _ th) by done. simpl.
    eexists. split; [done|]. unfold Inv, running. simpl. split_and!; try done.
    + by eapply core_V_some.
    + destruct (decide (currentThread k = t)) as [->|].
      * rewrite lookup_insert_eq. by eexists.
      * rewrite lookup_insert_ne by done. by eexists.
Qed.

Lemma Finish_spec k t th :
  Inv k -> switching k = false -> t = currentThread k ->
  threads k !! t = Some th -> where_ th = Normal ->
  exists k', Finish k t = Ok k' /\ Inv k' /\ switching k' = true /\
    threadToBeDestroyed k' = Some t.
Proof.
  intros [Hc Hcur] Hsw -> Hth Hwh. unfold running in Hc. rewrite Hsw in Hc.
  unfold Finish. rewrite Z.eqb_refl. unfold set_where.
  rewrite (thread_at_Ok _ _ th) by done. simpl.
  unfold Sleep, setStatus. simpl. rewrite Z.eqb_refl. simpl.
  erewrite thread_at_Ok by (simpl; apply lookup_insert_eq). simpl.
  eexists. split; [done|]. unfold Inv, running. simpl. rewrite insert_insert_eq.
  split_and!; try done.
  - by eapply core_finish.
  - rewrite lookup_insert_eq. by eexists.
Qed.

Lemma Fork_spec k t th :
  Inv k -> threads k !! t = Some th -> status th = JUST_CREATED ->
  exists k', Fork k t = Ok k' /\ Inv k' /\ readyList k' = readyList k ++ [t].
Proof.
  intros [Hc [thc Hcur]] Hth Hst. unfold Fork. rewrite (thread_at_Ok _ _ th) by done. simpl.
  unfold ReadyToRun, setStatus.
  erewrite thread_at_Ok by (simpl; apply lookup_insert_eq). simpl.
  eexists. split; [done|]. unfold Inv, running. simpl. rewrite insert_insert_eq.
  split_and!; try done.
  - by eapply core_fork.
  - destruct (decide (currentThread k = t)) as [->|].
    + rewrite lookup_insert_eq. by eexists.
    + rewrite lookup_insert_ne by done. by eexists.
Qed.

(** With nothing ready, nobody is left in [P] of a semaphore that has units. *)
Lemma Inv_no_lost_wakeup k s sem :
  Inv k -> switching k = true -> readyList k = [] ->
  semaphores k !! s = Some sem -> queue sem <> [] -> value sem = 0.
Proof.
  intros [Hc _] Hsw Hr Hs Hq. unfold running in Hc. rewrite Hsw, Hr in Hc.
  destruct (core_sem _ _ _ _ _ Hc s sem Hs) as (Hv & _ & _ & Hw).
  destruct (Z.lt_ge_cases (value sem) 0); [naive_solver|].
  destruct (Hw Hq) as (ws & _ & Hws & Hle). destruct ws as [|t ws]; [unfold zlen in Hle; simpl in Hle; lia|].
  destruct (Hws t) as (th & Hth & Hnb & Hp); [set_solver|].
  destruct (core_thread _ _ _ _ _ Hc t th Hth) as [_ Hk].
  destruct (status th); [congruence|naive_solver| |done].
  destruct Hk as [Hk _]. by apply elem_of_nil in Hk.
Qed.
End inv.

Section dispatch.
Context {E : Type}.
Context (save_user restore_user : Z -> E -> E).
Implicit Types (k : kernel E) (t : Z).

Lemma Run_spec k n :
  core None (n :: readyList k) (threads k) (semaphores k) (threadToBeDestroyed k) ->
  is_Some (threads k !! currentThread k) ->
  exists k', Run save_user restore_user k n = Ok k' /\
    core (Some n) (readyList k') (threads k') (semaphores k') (threadToBeDestroyed k') /\
    currentThread k' = n /\ readyList k' = readyList k /\
    semaphores k' = semaphores k /\ switching k' = switching k.
Proof.
  intros Hc Hcur. destruct (core_ready _ _ _ _ _ Hc n) as (th & Hn & Hst); [set_solver|].
  unfold Run. rewrite (CheckOverflow_Ok _ None (n :: readyList k) (semaphores k));
    [|done|intros; by apply (core_thread _ _ _ _ _ Hc)].
  simpl. unfold setStatus. rewrite (thread_at_Ok _ n th) by done. simpl.
  erewrite (thread_at_Ok _ n) by (simpl; apply lookup_insert_eq). simpl.
  pose proof (core_dispatch n (readyList k) _ _ _ th _ Hc Hn eq_refl) as Hd.
  destruct (decide (where_ th = Fresh)) as [Hf|Hf] in Hd |- *.
  - unfold set_where. erewrite thread_at_Ok by (simpl; apply lookup_insert_eq). simpl.
    eexists. split; [done|]. simpl. rewrite insert_insert_eq. done.
  - destruct (threadToBeDestroyed k) as [d|] eqn:Et; simpl;
      [|eexists; split; [done|]; simpl; by rewrite Et].
    destruct (core_destroy _ _ _ _ _ Hd d eq_refl) as (thd & Hthd & Hsd & Hwd).
    unfold delete_Thread. rewrite (thread_at_Ok _ d thd) by done. simpl.
    assert (d <> n) as Hne.
    { intros ->. rewrite lookup_insert_eq in Hthd. simplify_eq. }
    rewrite (proj2 (Z.eqb_neq _ _) Hne). simpl. eexists. split; [done|]. simpl.
    split_and!; try done. by apply core_delete.
Qed.

Lemma sleep_loop_spec k :
  Inv k -> switching k = true ->
  match readyList k with
  | [] => sleep_loop save_user restore_user k = Ok None
  | n :: r => exists k', sleep_loop save_user restore_user k = Ok (Some k') /\ Inv k' /\
      currentThread k' = n /\ readyList k' = r /\ switching k' = false /\
      semaphores k' = semaphores k
  end.
Proof.
  intros [Hc Hcur] Hsw. unfold sleep_loop, FindNextToRun. unfold running in Hc. rewrite Hsw in Hc.
  destruct (readyList k) as [|n r] eqn:Hr; [done|].
  destruct (Run_spec (set_ready k r) n) as (k' & -> & Hc' & Hn & Hr' & Hs & _); [done|done|].
  simpl. eexists. split; [done|]. split; [|done].
  unfold Inv, running. simpl. rewrite Hn. split; [done|]. destruct (core_run _ _ _ _ _ Hc' n eq_refl) as (th & -> & _). by eexists.
Qed.

Lemma Yield_spec k t :
  Inv k -> switching k = false -> t = currentThread k ->
  exists k', Yield save_user restore_user k t = Ok k' /\ Inv k' /\ switching k' = false /\
    semaphores k' = semaphores k /\
    match readyList k with
    | [] => k' = k
    | n :: r => currentThread k' = n /\ readyList k' = r ++ [t]
    end.
Proof.
  intros Hinv Hsw ->. pose proof Hinv as [Hc Hcur]. unfold Yield. rewrite Z.eqb_refl.
  unfold FindNextToRun. destruct (readyList k) as [|n r] eqn:Hr; [by eexists|].
  unfold running in Hc. rewrite Hsw, ?Hr in Hc. destruct Hcur as [th Hth].
  unfold ReadyToRun, setStatus. rewrite (thread_at_Ok _ _ th) by done. simpl.
  pose proof (core_preempt _ _ _ _ _ th Hc Hth) as Hp.
  match goal with |- context [Run _ _ ?k1 n] => destruct (Run_spec k1 n)
    as (k' & -> & Hc' & Hn & Hr' & Hs & Hsw') end.
  - exact Hp.
  - simpl. rewrite lookup_insert_eq. by eexists.
  - simpl in *. exists k'. rewrite Hr'. split_and!; try done; [|congruence].
    unfold Inv, running. rewrite Hsw', Hsw, Hn. split; [done|].
    destruct (core_run _ _ _ _ _ Hc' n eq_refl) as (th' & -> & _). by eexists.
Qed.

Lemma step_inv k k' : Inv k -> step save_user restore_user k k' -> Inv k'.
Proof.
  intros Hinv Hstep.
  destruct Hstep as [k k' s Hsw HP (th & Hth & Hw)|k k' s Hsw (th & Hth & Hw) HP|k k' s HV
    |k k' Hsw _ HY|k t id Hn|k s v Hn|k k' t th Hth Hst HF|k k' Hsw (th & Hth & Hw) HF
    |k k' Hsw HS|k e].
  - unfold P, sem_at in HP. destruct (semaphores k !! s) as [sem|] eqn:Hs; [|done].
    destruct (P_spec k _ s th sem Hinv Hsw eq_refl Hth (or_introl Hw) Hs) as (k2 & H2 & ? & _).
    unfold P, sem_at in H2. rewrite Hs in H2. simpl in *. congruence.
  - unfold P, sem_at in HP. destruct (semaphores k !! s) as [sem|] eqn:Hs; [|done].
    destruct (P_spec k _ s th sem Hinv Hsw eq_refl Hth (or_intror Hw) Hs) as (k2 & H2 & ? & _).
    unfold P, sem_at in H2. rewrite Hs in H2. simpl in *. congruence.
  - unfold V, sem_at in HV. destruct (semaphores k !! s) as [sem|] eqn:Hs; [|done].
    destruct (V_spec k s sem Hinv Hs) as (k2 & H2 & ? & _).
    unfold V, sem_at in H2. rewrite Hs in H2. simpl in *. congruence.
  - destruct (Yield_spec k _ Hinv Hsw eq_refl) as (k2 & H2 & ? & _). congruence.
  - destruct Hinv as [Hc [thc Hcur]]. split; simpl; [by apply core_create|].
    rewrite lookup_insert_ne; [by eexists|congruence].
  - destruct Hinv as [Hc Hcur]. split; simpl; [|done]. destruct Hc. split; try done.
    + intros t0 th0 H0. eapply thread_ok_sems; [|by auto]. intros s' sem' Hs' Hin.
      exists sem'. rewrite lookup_insert_ne; [done|congruence].
    + intros s' sem' Hs'. destruct (decide (s' = s)) as [->|].
      * rewrite lookup_insert_eq in Hs'. simplify_eq.
        split_and!; simpl; [done|apply NoDup_nil_2|set_solver|done].
      * rewrite lookup_insert_ne in Hs' by done. auto.
  - destruct (Fork_spec k t th Hinv Hth Hst) as (k2 & H2 & ? & _). congruence.
  - destruct (Finish_spec k _ th Hinv Hsw eq_refl Hth Hw) as (k2 & H2 & ? & _). congruence.
  - pose proof (sleep_loop_spec k Hinv Hsw) as H. destruct (readyList k); [congruence|].
    destruct H as (k2 & H2 & ? & _). congruence.
  - done.
Qed.

(** A semaphore keeps existing, and a value that is not negative stays so. *)
Lemma step_keeps_units k k' s sem :
  Inv k -> step save_user restore_user k k' ->
  semaphores k !! s = Some sem -> 0 <= value sem ->
  exists sem', semaphores k' !! s = Some sem' /\ 0 <= value sem'.
Proof.
  assert (forall k' s0 sem0 v q, semaphores k !! s0 = Some sem0 ->
    (0 <= value sem0 -> 0 <= v) -> semaphores k' = <[s0 := mkSemaphore v q]> (semaphores k) ->
    semaphores k !! s = Some sem -> 0 <= value sem ->
    exists sem', semaphores k' !! s = Some sem' /\ 0 <= value sem') as Hins.
  { intros k2 s0 sem0 v q H0 Hv -> Hs Hpos. destruct (decide (s = s0)) as [->|].
    - rewrite lookup_insert_eq. simplify_eq. eauto.
    - rewrite lookup_insert_ne by done. eauto. }
  intros Hinv Hstep.
  assert (forall s0 th k2, switching k = false -> threads k !! currentThread k = Some th ->
    where_ th = Normal \/ where_ th = InP s0 -> P k (currentThread k) s0 = Ok k2 ->
    semaphores k !! s = Some sem -> 0 <= value sem ->
    exists sem', semaphores k2 !! s = Some sem' /\ 0 <= value sem') as HP.
  { intros s0 th k2 Hsw Hth Hw HP.
    destruct (semaphores k !! s0) as [sem0|] eqn:H0; [|unfold P, sem_at in HP; by rewrite H0 in HP].
    destruct (P_spec k _ s0 th sem0 Hinv Hsw eq_refl Hth Hw H0) as (k3 & H3 & _ & _ & _ & Hq).
    assert (k3 = k2) as -> by congruence.
    destruct (Z.eqb_spec (value sem0) 0); destruct Hq as [_ Hq];
      (intros; eapply Hins; [exact H0| |exact Hq|done|done]; lia). }
  destruct Hstep as [k k' s0 Hsw Hp (th & Hth & Hw)|k k' s0 Hsw (th & Hth & Hw) Hp|k k' s0 HV
    |k k' Hsw _ HY|k t id Hn|k s0 v Hn|k k' t th Hth Hst HF|k k' Hsw (th & Hth & Hw) HF
    |k k' Hsw HS|k e]; [eauto|eauto|..|eauto].
  - destruct (semaphores k !! s0) as [sem0|] eqn:H0; [|unfold V, sem_at in HV; by rewrite H0 in HV].
    destruct (V_spec k s0 sem0 Hinv H0) as (k3 & H3 & _ & _ & _ & Hq & _).
    assert (k3 = k') as -> by congruence. intros. eapply Hins; [exact H0| |exact Hq|done|done]. lia.
  - destruct (Yield_spec k _ Hinv Hsw eq_refl) as (k2 & H2 & _ & _ & Hq & _).
    assert (k2 = k') as -> by congruence. rewrite Hq. eauto.
  - eauto.
  - intros Hs Hv. simpl. rewrite lookup_insert_ne by congruence. eauto.
  - unfold Fork, ReadyToRun, setStatus, thread_at in HF. simpl in HF. rewrite Hth in HF.
    simpl in HF. rewrite lookup_insert_eq in HF. injection HF as <-. simpl. eauto.
  - unfold Finish, Sleep, set_where, setStatus, thread_at in HF. rewrite Z.eqb_refl in HF.
    simpl in HF. rewrite Hth in HF. simpl in HF. rewrite Z.eqb_refl in HF. simpl in HF.
    rewrite lookup_insert_eq in HF. injection HF as <-. simpl. eauto.
  - pose proof (sleep_loop_spec k Hinv Hsw) as H. destruct (readyList k); [congruence|].
    destruct H as (k2 & H2 & _ & _ & _ & _ & Hq). assert (k2 = k') as -> by congruence.
    rewrite Hq. eauto.
Qed.

Lemma reachable_keeps_units k k' s sem :
  Inv k -> reachable save_user restore_user k k' ->
  semaphores k !! s = Some sem -> 0 <= value sem ->
  Inv k' /\ exists sem', semaphores k' !! s = Some sem' /\ 0 <= value sem'.
Proof.
  intros Hinv Hr Hs Hv. induction Hr as [|k1 k2 Hr (Hinv1 & sem1 & Hs1 & Hv1) Hstep]; [eauto|].
  split; [by eapply step_inv|]. by eapply step_keeps_units.
Qed.

Lemma reachable_inv k0 k : Inv k0 -> reachable save_user restore_user k0 k -> Inv k.
Proof. intros H0. induction 1; [done|]. by eapply step_inv. Qed.

End dispatch.

(** ** What the kernel does to the places where threads wait

    The user state of a thread is not looked at. *)

Section places.
Context {E : Type}.
Implicit Types (k : kernel E) (t : Z).
Definition keep_user t (e : E) : E := e.

(** A thread keeps its place, or starts. *)
Definition after (w w' : ctl) : Prop := w' = w \/ (w = Fresh /\ w' = Normal).
Record moves k k' : Prop := {
  mv_ext : ext k' = ext k;
  mv_fwd t th : threads k !! t = Some th -> where_ th <> Dead ->
    exists th', threads k' !! t = Some th' /\ after (where_ th) (where_ th');
  mv_bwd t th' : threads k' !! t = Some th' ->
    exists th, threads k !! t = Some th /\ after (where_ th) (where_ th')
}.

Lemma after_dead w w' : after w w' -> w <> Dead -> w' <> Dead.
Proof. by intros [->|[_ ->]]. Qed.
Lemma dead_after w' : after Dead w' -> w' = Dead.
Proof. by intros [->|[? _]]. Qed.
Lemma after_trans w w1 w2 : after w w1 -> after w1 w2 -> after w w2.
Proof. intros [->|[-> ->]] [->|[? ->]]; unfold after; auto. Qed.
Lemma moves_trans k k1 k2 : moves k k1 -> moves k1 k2 -> moves k k2.
Proof.
  intros [He1 Hf1 Hb1] [He2 Hf2 Hb2]. split; [congruence| |].
  - intros t th Ht Hd. destruct (Hf1 t th Ht Hd) as (th1 & Ht1 & Ha1).
    destruct (Hf2 t th1 Ht1) as (th2 & ? & ?); [by eapply after_dead|]. eauto using after_trans.
  - intros t th2 Ht2. destruct (Hb2 t th2 Ht2) as (th1 & Ht1 & ?). destruct (Hb1 t th1 Ht1) as (th & ? & ?).
    eauto using after_trans.
Qed.
Lemma moves_same k k' : ext k' = ext k -> threads k' = threads k -> moves k k'.
Proof. intros He Ht. split; [done|rewrite Ht; unfold after; eauto..]. Qed.
Lemma moves_insert k k' t th th' :
  ext k' = ext k -> threads k' = <[t := th']> (threads k) -> threads k !! t = Some th ->
  after (where_ th) (where_ th') -> moves k k'.
Proof.
  intros He Hk' Ht Ha. split; [done|rewrite Hk'..].
  - intros t0 th0 Ht0 _. destruct (decide (t0 = t)) as [->|].
    + rewrite lookup_insert_eq. exists th'. split; congruence.
    + rewrite lookup_insert_ne by done. exists th0. split; [done|by left].
  - intros t0 th0. destruct (decide (t0 = t)) as [->|].
    + rewrite lookup_insert_eq. intros [= <-]. eauto.
    + rewrite lookup_insert_ne by done. intros ?. exists th0. split; [done|by left].
Qed.
Lemma moves_delete k k' d thd :
  ext k' = ext k -> threads k' = delete d (threads k) -> threads k !! d = Some thd -> where_ thd = Dead -> moves k k'.
Proof.
  intros He Hk' Hd Hw. split; [done|rewrite Hk'..].
  - intros t th Ht Hnd. rewrite lookup_delete_ne by congruence. exists th. split; [done|by left].
  - intros t th [_ Ht]%lookup_delete_Some. exists th. split; [done|by left].
Qed.

Lemma setStatus_moves k t v k' : setStatus k t v = Ok k' -> moves k k'.
Proof.
  unfold setStatus, thread_at. destruct (threads k !! t) as [th|] eqn:Eq; [|done]. simpl. intros [= <-].
  eapply moves_insert; simpl; [done|done|exact Eq|by left].
Qed.
Lemma Run_moves k n k' :
  (forall d thd, threadToBeDestroyed k = Some d -> threads k !! d = Some thd -> where_ thd = Dead) ->
  Run keep_user keep_user k n = Ok k' -> moves k k'.
Proof.
  intros Hdead. unfold Run. destruct (CheckOverflow _ _); try done. cbn [mbind res_bind].
  destruct (setStatus _ n RUNNING) as [k1| | | |] eqn:E1; try done. cbn [mbind res_bind].
  assert (moves k k1) as H1.
  { eapply moves_trans; [|by eapply setStatus_moves]. by apply moves_same. }
  assert (threadToBeDestroyed k1 = threadToBeDestroyed k) as Ed.
  { unfold setStatus in E1. destruct (thread_at _ n); try done. simpl in E1. by injection E1 as <-. }
  unfold thread_at at 1. destruct (threads k1 !! n) as [th|] eqn:En; [|done]. cbn [mbind res_bind].
  destruct (decide (where_ th = Fresh)) as [Hf|Hf].
  - unfold set_where, thread_at. rewrite En. simpl. intros [= <-]. eapply moves_trans; [exact H1|].
    eapply moves_insert; simpl; [done|done|exact En|by right].
  - destruct (threadToBeDestroyed k1) as [d|] eqn:Edd; simpl.
    + unfold delete_Thread, thread_at. destruct (threads k1 !! d) as [thd|] eqn:Etd; [|done]. simpl.
      destruct (negb _); [|done]. simpl. intros [= <-]. eapply moves_trans; [exact H1|].
      eapply moves_delete; simpl; [done|done|exact Etd|].
      destruct (mv_bwd _ _ H1 d thd Etd) as (thd0 & Ht0 & Ha).
      rewrite (Hdead d thd0 (eq_sym Ed) Ht0) in Ha. by apply dead_after.
    + intros [= <-]. eapply moves_trans; [exact H1|]. by apply moves_same.
Qed.
Lemma Inv_dead k d thd :
  Inv k -> threadToBeDestroyed k = Some d -> threads k !! d = Some thd -> where_ thd = Dead.
Proof. intros [Hc _] Hd Ht. destruct (core_destroy _ _ _ _ _ Hc d Hd) as (th & ? & _ & ?). congruence. Qed.

Lemma Yield_moves k t k' : Inv k -> Yield keep_user keep_user k t = Ok k' -> moves k k'.
Proof.
  intros Hinv. unfold Yield. destruct (t =? currentThread k); [|done]. unfold FindNextToRun.
  destruct (readyList k) as [|n r]; [intros [= <-]; by apply moves_same|].
  unfold ReadyToRun. destruct (setStatus _ t READY) as [k1| | | |] eqn:E1; try done. cbn [mbind res_bind].
  intros HR. assert (moves (set_ready k r) k1) as H1 by (by eapply setStatus_moves).
  apply (moves_trans k (set_ready k r)); [by apply moves_same|]. eapply moves_trans; [exact H1|].
  eapply moves_trans; [|eapply Run_moves; [|exact HR]; simpl]; [by apply moves_same|].
  intros d thd Hd Ht. destruct (mv_bwd _ _ H1 d thd Ht) as (thd0 & Ht0 & Ha). simpl in Ht0.
  assert (threadToBeDestroyed k1 = threadToBeDestroyed k) as Ed.
  { unfold setStatus in E1. destruct (thread_at _ t); try done. simpl in E1. by injection E1 as <-. }
  rewrite (Inv_dead k d thd0 Hinv) in Ha; [|congruence|done]. by apply dead_after.
Qed.
Lemma sleep_loop_moves k k' : Inv k -> sleep_loop keep_user keep_user k = Ok (Some k') -> moves k k'.
Proof.
  intros Hinv. unfold sleep_loop, FindNextToRun. destruct (readyList k) as [|n r]; [done|].
  destruct (Run keep_user keep_user (set_ready k r) n) as [k1| | | |] eqn:Eq; try done. simpl. intros [= <-].
  apply (moves_trans k k1); [|by apply moves_same]. apply (moves_trans k (set_ready k r)); [by apply moves_same|].
  eapply Run_moves; [|exact Eq]. simpl. intros d thd. by apply Inv_dead.
Qed.
Lemma V_moves k s k' : V k s = Ok k' -> moves k k'.
Proof.
  unfold V, sem_at. destruct (semaphores k !! s) as [sem|]; [|done]. simpl. destruct (queue sem) as [|t r].
  - intros [= <-]. by apply moves_same.
  - unfold ReadyToRun. destruct (setStatus k t READY) as [k1| | | |] eqn:Eq; try done. simpl. intros [= <-].
    eapply moves_trans; [by eapply setStatus_moves|]. by apply moves_same.
Qed.
(** [P] moves the thread that calls it: into the wait, or on. *)
Lemma P_threads k t s k' sem :
  semaphores k !! s = Some sem -> P k t s = Ok k' ->
  ext k' = ext k /\ exists th, threads k' = <[t := th]> (threads k) /\
    where_ th = (if value sem =? 0 then InP s else Normal).
Proof.
  intros Hs. unfold P, sem_at. rewrite Hs. simpl. destruct (value sem =? 0).
  - unfold set_where, thread_at. simpl. destruct (threads k !! t) as [th|]; [|done]. simpl.
    unfold Sleep, setStatus, thread_at. simpl. destruct (t =? currentThread k); [|done]. simpl.
    rewrite lookup_insert_eq. simpl. intros [= <-]. simpl. split; [done|]. rewrite insert_insert_eq. by eexists.
  - unfold set_where, thread_at. simpl. destruct (threads k !! t) as [th|]; [|done]. simpl. intros [= <-]. simpl.
    split; [done|]. by eexists.
Qed.

Lemma Finish_threads k t k' :
  Finish k t = Ok k' -> ext k' = ext k /\ semaphores k' = semaphores k /\
    exists th, threads k' = <[t := th]> (threads k) /\ where_ th = Dead.
Proof.
  unfold Finish. destruct (t =? currentThread k) eqn:Eq; [|done]. unfold set_where, thread_at. simpl.
  destruct (threads k !! t) as [th|]; [|done]. simpl. unfold Sleep, setStatus, thread_at. simpl. rewrite Eq. simpl.
  rewrite lookup_insert_eq. simpl. intros [= <-]. simpl. rewrite insert_insert_eq. split_and!; try done. by eexists.
Qed.
End places.

(** ** From the boot of the kernel *)

(** [Initialize]: the main thread runs, on the stack of the process. *)
Definition boot {E} (e : E) : kernel E :=
  mkKernel {[0 := mkThread RUNNING 0 None Normal]} 0 None [] ∅ false e.

Lemma boot_inv {E} (e : E) : Inv (boot e).
Proof.
  split; simpl; [|rewrite lookup_singleton_eq; by eexists]. split; simpl.
  - intros t th [<- <-]%lookup_singleton_Some. split; [by left|]. simpl. split; [done|by left].
  - intros ? [= <-]. rewrite lookup_singleton_eq. by eexists.
  - constructor.
  - set_solver.
  - intros s sem Hs. by rewrite lookup_empty in Hs.
  - done.
Qed.

(** The running thread yields [n] times (each time the one then running). *)
Fixpoint yields {E} (save_user restore_user : Z -> E -> E) (n : nat) (k : kernel E)
  : res (kernel E) :=
  match n with
  | O => Ok k
  | S n' =>
      k ← Yield save_user restore_user k (currentThread k);
      yields save_user restore_user n' k
  end.

Lemma yields_round_robin {E} (sv rs : Z -> E -> E) r1 : forall k t r2,
  Inv k -> switching k = false -> readyList k = r1 ++ t :: r2 ->
  exists k', yields sv rs (S (length r1)) k = Ok k' /\ currentThread k' = t.
Proof.
  induction r1 as [|x r1 IH]; intros k t r2 Hinv Hsw Hr; cbn [yields length].
  - destruct (Yield_spec sv rs k _ Hinv Hsw eq_refl) as (k' & -> & _ & _ & _ & H).
    rewrite Hr in H. simpl. exists k'. by destruct H.
  - destruct (Yield_spec sv rs k _ Hinv Hsw eq_refl) as (k' & -> & Hinv' & Hsw' & _ & H).
    rewrite Hr in H. destruct H as [_ Hr']. simpl.
    apply (IH k' t (r2 ++ [currentThread k])); try done.
    rewrite Hr'. simpl. by rewrite <-app_assoc.
Qed.

(** ** Properties *)

Section properties.
Context {E : Type} (save_user restore_user : Z -> E -> E).


(** C14. No lost wakeups.  In every reachable state in which the CPU finds the
    ready list empty, a semaphore that threads wait for has value 0: no [V]
    was spent on a state where a waiter stays asleep. *)
Theorem no_lost_wakeup e k s sem :
  reachable save_user restore_user (boot e) k -> switching k = true -> readyList k = [] ->
  semaphores k !! s = Some sem -> queue sem <> [] -> value sem = 0.
Proof.
  intros Hr. apply (Inv_no_lost_wakeup k s sem (reachable_inv _ _ _ _ (boot_inv e) Hr)).
Qed.

(** C13. The routines do not fail.  In every reachable state, [P] of the
    running thread and [V] on an existing semaphore, [Yield], [Finish] and
    [Fork] of a new thread return (no [ASSERT] fails, no thread object is used
    after it is deleted), and so does a dispatch when some thread is ready. *)
Theorem kernel_routines_return e k :
  reachable save_user restore_user (boot e) k ->
  (forall s, is_Some (semaphores k !! s) -> is_Ok (V k s) = true) /\
  (forall t th, threads k !! t = Some th -> status th = JUST_CREATED ->
     is_Ok (Fork k t) = true) /\
  (switching k = true -> is_Ok (sleep_loop save_user restore_user k) = true) /\
  (switching k = false ->
     is_Ok (Yield save_user restore_user k (currentThread k)) = true /\
     (forall th, threads k !! currentThread k = Some th -> where_ th = Normal ->
        is_Ok (Finish k (currentThread k)) = true /\
        forall s, is_Some (semaphores k !! s) -> is_Ok (P k (currentThread k) s) = true)).
Proof.
  intros Hr. pose proof (reachable_inv _ _ _ _ (boot_inv e) Hr) as Hinv. split_and!.
  - intros s [sem Hs]. by destruct (V_spec k s sem Hinv Hs) as (k' & -> & _).
  - intros t th Ht Hs. by destruct (Fork_spec k t th Hinv Ht Hs) as (k' & -> & _).
  - intros Hsw. pose proof (sleep_loop_spec save_user restore_user k Hinv Hsw) as H.
    destruct (readyList k); [by rewrite H|]. by destruct H as (k' & -> & _).
  - intros Hsw. split.
    + by destruct (Yield_spec save_user restore_user k _ Hinv Hsw eq_refl) as (k' & -> & _).
    + intros th Hth Hw. split.
      * by destruct (Finish_spec k _ th Hinv Hsw eq_refl Hth Hw) as (k' & -> & _).
      * intros s [sem Hs].
        by destruct (P_spec k _ s th sem Hinv Hsw eq_refl Hth (or_introl Hw) Hs) as (k' & -> & _).
Qed.

(** Round robin.  A thread with [n] threads before it in the ready list
    gets the CPU after [n + 1] yields (or time slices) of the running
    threads, from any reachable state. *)
Theorem round_robin e k r1 t r2 :
  reachable save_user restore_user (boot e) k -> switching k = false -> readyList k = r1 ++ t :: r2 ->
  exists k', yields save_user restore_user (S (length r1)) k = Ok k' /\ currentThread k' = t.
Proof.
  intros Hr. apply yields_round_robin, (reachable_inv _ _ _ _ (boot_inv e) Hr).
Qed.
End properties.

(** *** A run: the main thread waits for a semaphore *)

Definition no_user (t : Z) (e : unit) : unit := e.
Definition waiting : kernel unit :=
  set_switching
    (set_threads (set_semaphores (boot tt) {[1 := mkSemaphore 0 [0]]})
       {[0 := mkThread BLOCKED 0 None (InP 1)]}) true.
Lemma waiting_reachable : reachable no_user no_user (boot tt) waiting.
Proof.
  eapply reach_step; [eapply reach_step; [apply reach_refl|]|].
  - apply (step_new_sem _ _ _ 1 0). reflexivity.
  - eapply (step_P _ _ _ _ 1); [reflexivity|vm_compute; reflexivity|].
    exists (mkThread RUNNING 0 None Normal). split; reflexivity.
Qed.

(** Threads 0 (main), 5 and 6, the last two forked by the first. *)
Definition two_forked : kernel unit :=
  set_ready (set_threads (boot tt)
    {[0 := mkThread RUNNING 0 None Normal;
      5 := mkThread READY 5 (Some STACK_FENCEPOST) Fresh;
      6 := mkThread READY 6 (Some STACK_FENCEPOST) Fresh]}) [5; 6].
Lemma two_forked_reachable : reachable no_user no_user (boot tt) two_forked.
Proof.
  eapply reach_step; [eapply reach_step; [eapply reach_step; [eapply reach_step|]|]|];
    [apply reach_refl|..].
  - apply (step_create _ _ _ 5 5). reflexivity.
  - eapply (step_Fork _ _ _ _ 5); reflexivity.
  - apply (step_create _ _ _ 6 6). reflexivity.
  - eapply (step_Fork _ _ _ _ 6); reflexivity.
Qed.


Lemma no_lost_wakeup_witness :
  exists sem, semaphores waiting !! 1 = Some sem /\ queue sem = [0] /\ value sem = 0.
Proof.
  exists (mkSemaphore 0 [0]). split; [reflexivity|]. split; [reflexivity|].
  apply (no_lost_wakeup no_user no_user tt waiting 1); [exact waiting_reachable|..];
    try reflexivity. discriminate.
Defined.

Lemma kernel_routines_return_witness :
  is_Ok (Yield no_user no_user two_forked 0) = true /\ is_Ok (V waiting 1) = true.
Proof.
  destruct (kernel_routines_return no_user no_user tt two_forked two_forked_reachable)
    as (_ & _ & _ & H). split; [apply H; reflexivity|].
  destruct (kernel_routines_return no_user no_user tt waiting waiting_reachable) as [HV _].
  apply HV. by eexists.
Defined.

Lemma round_robin_witness :
  exists k', yields no_user no_user 2 two_forked = Ok k' /\ currentThread k' = 6.
Proof.
  apply (round_robin no_user no_user tt two_forked [5] 6 []);
    [exact two_forked_reachable|reflexivity|reflexivity].
Defined.
