(* ===== verification/Disk.v ===== *)
(** * machine/disk.cc and filesys/synchdisk.cc: the simulated disk and the
    synchronous interface to it

    The disk keeps its sectors in a UNIX file (a sequence of bytes, after a
    magic number) and answers a request with an interrupt some ticks later.
    [SynchDisk] makes the calling thread wait on a semaphore until that
    interrupt.  The model runs the whole path: the request, [Semaphore::P],
    [Thread::Sleep] with its idle loop, [Interrupt::Idle], the disk interrupt,
    [Semaphore::V], the dispatch back and the re-enabling of interrupts.  It
    follows the only kernel thread; if the CPU went to another thread the
    functions stop in [NoFuel].  Other devices are arguments: their state [X],
    their handlers and the hypotheses of [others_ok].  There are no time slices
    (the timer is started only by the option -rs).

    [SectorStore] is the interface the file system uses, with its laws;
    the synchronous disk is an instance. *)

From S2P Require Import Prelude NList Interrupt Threads.
From stdpp Require Import gmap list sets.
#[local] Open Scope Z_scope.

Definition SectorSize : Z := 512.
Definition SectorsPerTrack : Z := 32.
Definition NumTracks : Z := 32.
Definition NumSectors : Z := 1024.
Definition MagicNumber : Z := 1164413355.
Definition MagicSize : Z := 4.
Definition DiskSize : Z := MagicSize + NumSectors * SectorSize.

(** ** The interface: a store of sectors

    [sector d n] is what sector [n] holds; reading and writing a sector in
    range returns, and changes nothing but the sector written. *)

Class SectorStore (D : Type) := {
  read_sector : Z -> st D (list Z);
  write_sector : Z -> list Z -> st D unit;
  sector : D -> Z -> list Z;
  store_ok : D -> Prop
}.

Class SectorStoreLaws (D : Type) {S : SectorStore D} : Prop := {
  sector_bytes : forall d n, store_ok d -> 0 <= n < NumSectors ->
    zlen (sector d n) = SectorSize /\ Forall is_byte (sector d n);
  read_sector_law : forall d n, store_ok d -> 0 <= n < NumSectors ->
    exists d', read_sector n d = Ok (sector d n, d') /\ store_ok d' /\
      forall m, 0 <= m < NumSectors -> sector d' m = sector d m;
  write_sector_law : forall d n data, store_ok d -> 0 <= n < NumSectors ->
    zlen data = SectorSize -> Forall is_byte data ->
    exists d', write_sector n data d = Ok (tt, d') /\ store_ok d' /\
      forall m, 0 <= m < NumSectors ->
        sector d' m = if decide (m = n) then data else sector d m
}.

(** ** UNIX files (machine/sysdep.cc) *)

(** [Lseek] to [off], then [Read] of [n] bytes, which asserts that all of
    them are there. *)
Definition unix_read (file : list Z) (off n : Z) : res (list Z) :=
  ASSERT (0 <=? off);
  ASSERT (off + n <=? zlen file);
  Ok (slice off n file).
(** [Lseek] to [off], then [WriteFile]: a gap behind the end is zero. *)
Definition unix_write (file : list Z) (off : Z) (data : list Z) : res (list Z) :=
  ASSERT (0 <=? off);
  let file := file ++ replicate (Z.to_nat (off + zlen data - zlen file)) 0 in
  Ok (splice off data file).

(** The [n] bytes at a pointer, undefined when the array ends before them. *)
Definition buffer (data : list Z) (n : Z) : res (list Z) :=
  if n <=? zlen data then Ok (slice 0 n data) else UB.

(** ** The disk *)

Record Disk := mkDisk {
  unixfile : list Z;
  active : bool;
  lastSector : Z;
  bufferInit : Z
}.

(** The UNIX file of that name, if there is one. *)
Definition new_Disk (existing : option (list Z)) : res Disk :=
  match existing with
  | Some file =>
      magic ← unix_read file 0 MagicSize;
      ASSERT (to_int (le_value magic) =? to_int MagicNumber);
      Ok (mkDisk file false 0 0)
  | None =>
      file ← unix_write [] 0 (le32 MagicNumber);
      file ← unix_write file (DiskSize - 4) (le32 0);
      Ok (mkDisk file false 0 0)
  end.

(** [TimeToSeek]: the seek time and the rotation delay after it. *)
Definition TimeToSeek (now lastSector newSector : Z) : Z * Z :=
  let newTrack := Z.quot newSector SectorsPerTrack in
  let oldTrack := Z.quot lastSector SectorsPerTrack in
  let seek := Z.abs (newTrack - oldTrack) * SeekTime in
  let over := Z.rem (now + seek) RotationTime in
  (seek, if 0 <? over then RotationTime - over else 0).

Definition ModuloDiff (to from : Z) : Z :=
  let toOffset := Z.rem to SectorsPerTrack in
  let fromOffset := Z.rem from SectorsPerTrack in
  Z.rem ((toOffset - fromOffset) + SectorsPerTrack) SectorsPerTrack.

Definition ComputeLatency (now : Z) (d : Disk) (newSector : Z) (writing : bool) : Z :=
  let '(seek, rotation) := TimeToSeek now (lastSector d) newSector in
  let timeAfter := now + seek + rotation in
  if negb writing && (seek =? 0) &&
     (ModuloDiff newSector (Z.quot (bufferInit d) RotationTime)
        <? Z.quot (timeAfter - bufferInit d) RotationTime)
  then RotationTime
  else
    let rotation := rotation +
      ModuloDiff newSector (Z.quot timeAfter RotationTime) * RotationTime in
    seek + rotation + RotationTime.

Definition UpdateLast (now : Z) (d : Disk) (newSector : Z) : Disk :=
  let '(seek, rotate) := TimeToSeek now (lastSector d) newSector in
  mkDisk (unixfile d) (active d) newSector
    (if seek =? 0 then bufferInit d else now + seek + rotate).

Definition sector_in_range (n : Z) : bool := (0 <=? n) && (n <? NumSectors).
Definition sector_offset (n : Z) : Z := SectorSize * n + MagicSize.

(** ** The synchronous disk in the kernel *)

(** The devices: the disk, and the others. *)
Record dev (X : Type) := mkDev { disk : Disk; others : X }.
Arguments mkDev {X}.
Arguments disk {X}.
Arguments others {X}.

Section synch.
Context {X : Type}.
#[local] Abbreviation ksim := (sim (kernel (dev X))).

(** [SynchDisk::semaphore], in the table of semaphores of Threads *)
Context (disk_sem : Z).
(** The handlers of the other devices, [machine->DelayedLoad(0, 0)] and the
    saving and restoring of user state at a switch. *)
Context (other_handler : IntHandler -> Z -> st ksim unit).
Context (DelayedLoad00 : st ksim unit).
Context (save_other restore_other : Z -> X -> X).

Definition save_user (t : Z) (e : dev X) : dev X := mkDev (disk e) (save_other t (others e)).
Definition restore_user (t : Z) (e : dev X) : dev X :=
  mkDev (disk e) (restore_other t (others e)).

Definition the_disk (s : ksim) : Disk := disk (ext (world s)).
Definition set_disk (s : ksim) (d : Disk) : ksim :=
  set_world s (set_ext (world s) (mkDev d (others (ext (world s))))).
(** Kernel code on the state with interrupts off. *)
Definition on_kernel (f : kernel (dev X) -> res (kernel (dev X))) : st ksim unit := fun s =>
  k ← f (world s); Ok (tt, set_world s k).

Definition ReadRequest (sectorNumber : Z) : st ksim (list Z) := fun s =>
  let now := totalTicks (stats s) in
  let ticks := ComputeLatency now (the_disk s) sectorNumber false in
  ASSERT (negb (active (the_disk s)));
  ASSERT (sector_in_range sectorNumber);
  data ← unix_read (unixfile (the_disk s)) (sector_offset sectorNumber) SectorSize;
  let d := mkDisk (unixfile (the_disk s)) true (lastSector (the_disk s))
             (bufferInit (the_disk s)) in
  let s := set_disk s (UpdateLast now d sectorNumber) in
  let s := set_stats s (count_disk 1 0 (stats s)) in
  '(_, s) ← Schedule DiskDone 0 ticks DiskInt s;
  Ok (data, s).

Definition WriteRequest (sectorNumber : Z) (data : list Z) : st ksim unit := fun s =>
  let now := totalTicks (stats s) in
  let ticks := ComputeLatency now (the_disk s) sectorNumber true in
  ASSERT (negb (active (the_disk s)));
  ASSERT (sector_in_range sectorNumber);
  data ← buffer data SectorSize;
  file ← unix_write (unixfile (the_disk s)) (sector_offset sectorNumber) data;
  let d := mkDisk file true (lastSector (the_disk s)) (bufferInit (the_disk s)) in
  let s := set_disk s (UpdateLast now d sectorNumber) in
  let s := set_stats s (count_disk 0 1 (stats s)) in
  Schedule DiskDone 0 ticks DiskInt s.

(** A handler that enabled interrupts would be stopped by the [ASSERT] of
    [SetLevel]: the handlers inside a handler are never called. *)
Definition none_inside (h : IntHandler) (a : Z) : st ksim unit := fun _ => NoFuel.
Definition no_yield : st ksim unit := fun _ => NoFuel.

(** [SynchDisk::RequestDone], in the interrupt: [semaphore->V()] *)
Definition RequestDone : st ksim unit := fun s =>
  '(oldLevel, s) ← SetLevel none_inside DelayedLoad00 no_yield 0 IntOff s;
  '(_, s) ← on_kernel (fun k => V k disk_sem) s;
  '(_, s) ← SetLevel none_inside DelayedLoad00 no_yield 0 oldLevel s;
  Ok (tt, s).

(** [Disk::HandleInterrupt], with [DiskRequestDone] as its handler. *)
Definition HandleInterrupt : st ksim unit := fun s =>
  let d := the_disk s in
  RequestDone (set_disk s (mkDisk (unixfile d) false (lastSector d) (bufferInit d))).

Definition call_handler (h : IntHandler) (a : Z) : st ksim unit :=
  match h with
  | DiskDone => HandleInterrupt
  | _ => other_handler h a
  end.

(** The loop of [Thread::Sleep]. *)
Fixpoint sleep_wait (fuel : nat) : st ksim unit := fun s =>
  match fuel with
  | O => NoFuel
  | S fuel' =>
      o ← sleep_loop save_user restore_user (world s);
      match o with
      | Some k => Ok (tt, set_world s k)
      | None =>
          '(_, s) ← Idle call_handler DelayedLoad00 (S (length (pending (interrupt s)))) s;
          sleep_wait fuel' s
      end
  end.

(** The loop of [Semaphore::P], for thread [me]. *)
Fixpoint P_loop (rounds fuel : nat) (me sem : Z) : st ksim unit := fun s =>
  match rounds with
  | O => NoFuel
  | S rounds' =>
      '(_, s) ← on_kernel (fun k => P k me sem) s;
      if switching (world s) then
        '(_, s) ← sleep_wait fuel s;
        if currentThread (world s) =? me then P_loop rounds' fuel me sem s else NoFuel
      else Ok (tt, s)
  end.

Definition semaphore_P (fuel : nat) (sem : Z) : st ksim unit := fun s =>
  let me := currentThread (world s) in
  let n := S (length (pending (interrupt s))) in
  '(oldLevel, s) ← SetLevel call_handler DelayedLoad00 no_yield n IntOff s;
  '(_, s) ← P_loop fuel fuel me sem s;
  let n := S (length (pending (interrupt s))) in
  '(_, s) ← SetLevel call_handler DelayedLoad00 no_yield n oldLevel s;
  Ok (tt, s).

(** [SynchDisk::ReadSector] and [WriteSector]; the lock's operations do
    nothing (threads/synch.cc). *)
Definition ReadSector (fuel : nat) (sectorNumber : Z) : st ksim (list Z) := fun s =>
  '(_, s) ← on_kernel Lock_Acquire s;
  '(data, s) ← ReadRequest sectorNumber s;
  '(_, s) ← semaphore_P fuel disk_sem s;
  '(_, s) ← on_kernel Lock_Release s;
  Ok (data, s).

Definition WriteSector (fuel : nat) (sectorNumber : Z) (data : list Z) : st ksim unit :=
  fun s =>
  '(_, s) ← on_kernel Lock_Acquire s;
  '(_, s) ← WriteRequest sectorNumber data s;
  '(_, s) ← semaphore_P fuel disk_sem s;
  on_kernel Lock_Release s.
End synch.

(** ** Latency *)

Lemma ModuloDiff_range to from : 0 <= to -> 0 <= from -> 0 <= ModuloDiff to from < 32.
Proof.
  intros. unfold ModuloDiff, SectorsPerTrack.
  pose proof (Z.rem_bound_pos to 32). pose proof (Z.rem_bound_pos from 32).
  apply Z.rem_bound_pos; lia.
Qed.

Lemma TimeToSeek_range now last new :
  0 <= now -> 0 <= last < NumSectors -> 0 <= new < NumSectors ->
  0 <= (TimeToSeek now last new).1 <= 15500 /\ 0 <= (TimeToSeek now last new).2 < 500.
Proof.
  intros. unfold TimeToSeek, SectorsPerTrack, SeekTime, RotationTime, NumSectors in *. simpl.
  assert (0 <= Z.abs (Z.quot new 32 - Z.quot last 32) <= 31).
  { pose proof (Z.quot_pos new 32). pose proof (Z.quot_pos last 32).
    pose proof (Z.quot_lt_upper_bound new 32 32). pose proof (Z.quot_lt_upper_bound last 32 32). lia. }
  split; [lia|].
  pose proof (Z.rem_bound_pos (now + Z.abs (Z.quot new 32 - Z.quot last 32) * 500) 500).
  zcases.
Qed.

(** A request takes at least one rotation time and less than 32,000 ticks. *)
Lemma latency_range now d n writing :
  0 <= now -> 0 <= lastSector d < NumSectors -> 0 <= n < NumSectors ->
  RotationTime <= ComputeLatency now d n writing <= 32000.
Proof.
  intros Hnow Hl Hn. unfold ComputeLatency.
  pose proof (TimeToSeek_range now (lastSector d) n Hnow Hl Hn) as [Hs Hr].
  destruct (TimeToSeek now (lastSector d) n) as [seek rotation]. simpl in *.
  destruct (negb writing && _ && _); [unfold RotationTime; lia|].
  pose proof (ModuloDiff_range n (Z.quot (now + seek + rotation) RotationTime)) as Hm.
  unfold RotationTime in *. pose proof (Z.quot_pos (now + seek + rotation) 500). lia.
Qed.

(** ** The wait for the disk *)

Definition is_disk (x : Z * voidp PendingInterrupt) : Prop :=
  match x.2 with Some p => handler p = DiskDone | None => False end.
#[export] Instance is_disk_dec x : Decision (is_disk x).
Proof. unfold is_disk. destruct (x.2); apply _. Defined.
(** The disk interrupts in the queue. *)
Definition disk_ints (q : list (Z * voidp PendingInterrupt)) :
  list (Z * voidp PendingInterrupt) := filter is_disk q.
Definition disk_int (T : Z) : Z * voidp PendingInterrupt :=
  (T, Some (mkPendingInterrupt DiskDone 0 T DiskInt)).

Section wait.
Context {X : Type}.
#[local] Abbreviation ksim := (sim (kernel (dev X))).
Context (disk_sem : Z).
Context (other_handler : IntHandler -> Z -> st ksim unit).
Context (DelayedLoad00 : st ksim unit).
Context (save_other restore_other : Z -> X -> X).
(** An invariant of the other devices. *)
Context (IX : X -> Prop).

(** What the handlers of the other devices may do: schedule interrupts of
    their own, change their own state, and signal semaphores other than that
    of the disk for which no thread waits. *)
Record other_step (s s' : ksim) : Prop := {
  os_step : handler_step s s';
  os_yield : yieldOnReturn (interrupt s') = yieldOnReturn (interrupt s);
  os_ints : disk_ints (pending (interrupt s')) ≡ₚ disk_ints (pending (interrupt s));
  os_threads : threads (world s') = threads (world s);
  os_current : currentThread (world s') = currentThread (world s);
  os_destroy : threadToBeDestroyed (world s') = threadToBeDestroyed (world s);
  os_ready : readyList (world s') = readyList (world s);
  os_switching : switching (world s') = switching (world s);
  os_sem : semaphores (world s') !! disk_sem = semaphores (world s) !! disk_sem;
  os_disk : the_disk s' = the_disk s;
  os_others : IX (others (ext (world s')))
}.
Record others_ok : Prop := {
  ok_handler : forall h a s, h <> DiskDone ->
    queue_ok (pending (interrupt s)) -> level (interrupt s) = IntOff ->
    inHandler (interrupt s) = true -> IX (others (ext (world s))) ->
    exists s', other_handler h a s = Ok (tt, s') /\ other_step s s';
  ok_load : forall s, IX (others (ext (world s))) ->
    exists x, DelayedLoad00 s =
      Ok (tt, set_world s (set_ext (world s) (mkDev (disk (ext (world s))) x))) /\ IX x;
  ok_save : forall t x, IX x -> IX (save_other t x);
  ok_restore : forall t x, IX x -> IX (restore_other t x)
}.
Context (Hothers : others_ok).

#[local] Abbreviation handlers := (call_handler disk_sem other_handler DelayedLoad00).

(** The invariant of the kernel that the disk handler needs. *)
Definition I (k : kernel (dev X)) : Prop :=
  IX (others (ext k)) /\
  exists sem, semaphores k !! disk_sem = Some sem /\
    forall t, t ∈ queue sem -> is_Some (threads k !! t).

Lemma set_level_id (s : ksim) l : level (interrupt s) = l -> set_level s l = s.
Proof. destruct s as [[] ? ?]. simpl. by intros ->. Qed.

(** The disk interrupt: the disk is free again, and [V]. *)
Lemma HandleInterrupt_eq (s : ksim) :
  level (interrupt s) = IntOff ->
  HandleInterrupt disk_sem DelayedLoad00 s =
    let d := the_disk s in
    let s0 := set_disk s (mkDisk (unixfile d) false (lastSector d) (bufferInit d)) in
    k ← V (world s0) disk_sem; Ok (tt, set_world s0 k).
Proof.
  destruct s as [[lv q ih yr stt] sts w]. simpl. intros ->.
  unfold HandleInterrupt, RequestDone, SetLevel, ChangeLevel, on_kernel. simpl.
  destruct (V _ disk_sem) as [k| | | |]; done.
Qed.

Lemma handlers_ok_disk : handlers_ok handlers I.
Proof using Hothers.
  intros h a s Hq Hl Hh [HX (sem & Hs & Ht)].
  destruct (decide (h = DiskDone)) as [->|Hne].
  - simpl. rewrite HandleInterrupt_eq by done. cbv zeta. unfold V, sem_at. simpl. rewrite Hs. simpl.
    destruct (queue sem) as [|t r] eqn:Eq; simpl.
    + eexists. split; [done|]. split; [split; try done; by exists []|].
      split; [done|]. eexists. simpl. rewrite lookup_insert_eq. split; [done|]. simpl. set_solver.
    + destruct (Ht t) as [th Hth]; [set_solver|].
      unfold ReadyToRun, setStatus, thread_at. simpl. rewrite Hth. simpl.
      eexists. split; [done|]. split; [split; try done; by exists []|].
      split; [done|]. eexists. simpl. rewrite lookup_insert_eq. split; [done|]. simpl.
      intros t' Hin. destruct (decide (t' = t)) as [->|].
      * rewrite lookup_insert_eq. by eexists.
      * rewrite lookup_insert_ne by done. apply Ht. set_solver.
  - destruct (ok_handler Hothers h a s Hne Hq Hl Hh HX) as (s' & Hs' & []).
    exists s'. split; [by destruct h|]. split; [done|]. split; [done|].
    exists sem. rewrite os_sem0, os_threads0. done.
Qed.

Lemma delayed_load_ok_disk : delayed_load_ok DelayedLoad00 I.
Proof using Hothers.
  intros s [HX Hs]. destruct (ok_load Hothers s HX) as (x & -> & Hx).
  eexists. split; [done|]. split; [done|]. done.
Qed.

(** The thread [c] sleeps in [P] for the disk; [file] is on the disk. *)
Record asleep (c : Z) (file : list Z) (s : ksim) : Prop := {
  as_yield : yieldOnReturn (interrupt s) = false;
  as_current : currentThread (world s) = c;
  as_destroy : threadToBeDestroyed (world s) = None;
  as_switching : switching (world s) = true;
  as_file : unixfile (the_disk s) = file;
  as_last : 0 <= lastSector (the_disk s) < NumSectors
}.
(** The request is due at [T]. *)
Definition waiting (c : Z) (id : Z) (stk : option Z) (T : Z) (s : ksim) : Prop :=
  disk_ints (pending (interrupt s)) = [disk_int T] /\
  readyList (world s) = [] /\
  semaphores (world s) !! disk_sem = Some (mkSemaphore 0 [c]) /\
  threads (world s) !! c = Some (mkThread BLOCKED id stk (InP disk_sem)).
(** The interrupt came. *)
Definition woken (c : Z) (id : Z) (stk : option Z) (s : ksim) : Prop :=
  disk_ints (pending (interrupt s)) = [] /\
  readyList (world s) = [c] /\
  semaphores (world s) !! disk_sem = Some (mkSemaphore 1 []) /\
  threads (world s) !! c = Some (mkThread READY id stk (InP disk_sem)) /\
  active (the_disk s) = false.
Definition waitP c id stk file T (s : ksim) : Prop :=
  asleep c file s /\ (waiting c id stk T s \/ woken c id stk s).

Lemma disk_ints_perm q q' : q ≡ₚ q' -> disk_ints q ≡ₚ disk_ints q'.
Proof. intros H. unfold disk_ints. by rewrite H. Qed.

Lemma waitP_perm c id stk file T (s : ksim) q :
  waitP c id stk file T s -> q ≡ₚ pending (interrupt s) ->
  waitP c id stk file T (set_pending s q).
Proof.
  intros [[] Hw] Hp%disk_ints_perm. split; [by split|].
  destruct Hw as [(Hd & ? & ? & ?)|(Hd & ? & ? & ? & ?)]; [left|right]; rewrite Hd in Hp.
  - apply Permutation_singleton_r in Hp. done.
  - apply Permutation_nil_r in Hp. done.
Qed.

(** Everything the disk and the scheduler depend on is as before. *)
Record undisturbed (s s' : ksim) : Prop := {
  un_yield : yieldOnReturn (interrupt s') = yieldOnReturn (interrupt s);
  un_ints : disk_ints (pending (interrupt s')) ≡ₚ disk_ints (pending (interrupt s));
  un_threads : threads (world s') = threads (world s);
  un_current : currentThread (world s') = currentThread (world s);
  un_destroy : threadToBeDestroyed (world s') = threadToBeDestroyed (world s);
  un_ready : readyList (world s') = readyList (world s);
  un_switching : switching (world s') = switching (world s);
  un_sem : semaphores (world s') !! disk_sem = semaphores (world s) !! disk_sem;
  un_disk : the_disk s' = the_disk s
}.

(** An interrupt of another device goes off. *)
Lemma go_off_other (s : ksim) k p q s' :
  ready_to_fire I s -> pending (interrupt s) = (k, Some p) :: q -> handler p <> DiskDone ->
  go_off handlers DelayedLoad00 (k, Some p) s = Ok (tt, s') -> undisturbed s s'.
Proof using Hothers.
  intros [Hq Hl Hh [HX _]] Hp Hne Hg.
  unfold go_off in Hg. cbn [snd] in Hg. rewrite Hp in Hg. cbn [tail] in Hg.
  destruct (ok_load Hothers (set_pending s q)) as (x & Hload & Hx); [done|].
  rewrite Hload in Hg. simpl in Hg.
  assert (queue_ok q) as Hq' by (rewrite Hp in Hq; by apply queue_ok_cons in Hq as (_ & _ & ?)).
  match type of Hg with context [call_handler _ _ _ _ _ ?s0] =>
    destruct (ok_handler Hothers (handler p) (arg p) s0) as (s2 & Hs2 & []); try done end.
  assert (handlers (handler p) (arg p) = other_handler (handler p) (arg p)) as Heq
    by (unfold call_handler; by destruct (handler p)).
  rewrite Heq, Hs2 in Hg. simpl in Hg. injection Hg as <-.
  split; try done. simpl. rewrite os_ints0, Hp. unfold disk_ints. simpl.
  by rewrite (filter_cons_False _ (k, Some p)).
Qed.

Lemma waitP_go_off c id stk file T (s : ksim) k p q s' :
  waitP c id stk file T s -> ready_to_fire I s ->
  pending (interrupt s) = (k, Some p) :: q ->
  go_off handlers DelayedLoad00 (k, Some p) s = Ok (tt, s') ->
  waitP c id stk file T s'.
Proof using Hothers.
  intros [Ha Hw] [Hq Hl Hh [HX _]] Hp Hg.
  unfold go_off in Hg. cbn [snd] in Hg. rewrite Hp in Hg. cbn [tail] in Hg.
  destruct (ok_load Hothers (set_pending s q)) as (x & Hload & Hx); [done|].
  rewrite Hload in Hg. simpl in Hg.
  assert (queue_ok q) as Hq' by (rewrite Hp in Hq; by apply queue_ok_cons in Hq as (_ & _ & ?)).
  destruct (decide (handler p = DiskDone)) as [He|Hne].
  - destruct Hw as [(Hd & Hr & Hs & Ht)|(Hd & _)].
    2:{ rewrite Hp in Hd. unfold disk_ints in Hd. by rewrite filter_cons_True in Hd. }
    rewrite Hp in Hd. unfold disk_ints in Hd. rewrite filter_cons_True in Hd by done.
    injection Hd as _ _ Hd. rewrite He in Hg. simpl in Hg. rewrite HandleInterrupt_eq in Hg by done.
    simpl in Hg. unfold V, sem_at, ReadyToRun, setStatus, thread_at in Hg. simpl in Hg.
    rewrite Hs in Hg. simpl in Hg. rewrite Ht in Hg. simpl in Hg. injection Hg as <-.
    destruct Ha. split; [by split|]. right. unfold woken. simpl.
    rewrite Hr, !lookup_insert_eq. split_and!; try done.
  - destruct (go_off_other s k p q s') as [Hy Hdi Hth Hc Hdes Hrd Hsw Hsm Hdk]; try done.
    { split; try done. destruct Hw as [(_ & _ & Hs & Ht)|(_ & _ & Hs & Ht & _)];
        split; try done; eexists; (split; [done|]); simpl; set_solver. }
    { unfold go_off. cbn [snd]. rewrite Hp. cbn [tail]. rewrite Hload. done. }
    destruct Ha. unfold waitP, waiting, woken. rewrite Hth, Hrd, Hsm, Hdk. split.
    + split; congruence.
    + destruct Hw as [(Hd & ? & ? & ?)|(Hd & ? & ? & ? & ?)]; rewrite Hd in Hdi; [left|right].
      * apply Permutation_singleton_r in Hdi. done.
      * apply Permutation_nil_r in Hdi. done.
Qed.

Lemma idle_progress c id stk file T (s : ksim) :
  asleep c file s -> waiting c id stk T s -> ready_to_fire I s ->
  exists s', Idle handlers DelayedLoad00 (S (length (pending (interrupt s)))) s = Ok (tt, s') /\
    ready_to_fire I s' /\ asleep c file s' /\ Interrupt.status (interrupt s') = SystemMode /\
    totalTicks (stats s) <= totalTicks (stats s') /\
    (woken c id stk s' \/
     waiting c id stk T s' /\ totalTicks (stats s') < T /\
     due (totalTicks (stats s')) (pending (interrupt s')) = [] /\
     (due (totalTicks (stats s)) (pending (interrupt s)) = [] ->
      totalTicks (stats s) < totalTicks (stats s'))).
Proof using Hothers.
  intros Ha Hw Hr. pose proof Hw as (Hd & _). pose proof Hr as [Hq _ _ _].
  destruct (pending (interrupt s)) as [|[k [p|]] q] eqn:Hp; [done| |].
  2:{ apply queue_ok_cons in Hq as ((? & ? & _) & _). done. }
  destruct (Idle_fires handlers DelayedLoad00 I (handlers_ok_disk) (delayed_load_ok_disk)
    (waitP c id stk file T) (S (length ((k, Some p) :: q))) s k p q)
    as (s1 & s' & _ & Hi & [Hr' Hc' _ _] & [Ha' Hw'] & Hdue); try done.
  - intros. by eapply waitP_go_off.
  - intros. by apply waitP_perm.
  - rewrite Hp. simpl. destruct q; [|done].
    unfold disk_ints in Hd. rewrite filter_cons in Hd. destruct (decide _); [|done].
    by injection Hd as -> ->.
  - unfold waitP, waiting, the_disk, woken. destruct Ha.
    rewrite advance_to_interrupt, advance_to_world. simpl. rewrite Hp.
    split; [|left; split; [exact Hd|exact (proj2 Hw)]]. split; unfold the_disk; rewrite ?advance_to_interrupt, ?advance_to_world; done.
  - simpl. lia.
  - rewrite advance_to_clock in Hc'. simpl in Hc'.
    eexists. split; [exact Hi|]. simpl. destruct Ha', Hr'.
    split; [by split|]. split; [by split|]. split; [done|]. split; [lia|].
    destruct Hw' as [Hw'|Hw']; [right|left; exact Hw'].
    pose proof Hw' as (Hd' & _). split; [exact Hw'|].
    destruct Hdue as [Hdue|(k' & p' & Hp' & Ht)].
    + rewrite Hc'. split_and!; try done.
      * destruct (decide (Z.max (totalTicks (stats s)) k < T)); [done|exfalso].
        assert (disk_int T ∈ disk_ints (pending (interrupt s'))) as Hin by (rewrite Hd'; set_solver).
        apply list_elem_of_filter in Hin as [_ Hin].
        assert (disk_int T ∈ due (Z.max (totalTicks (stats s)) k) (pending (interrupt s'))) as Hin'.
        { apply list_elem_of_filter. split; [simpl; lia|done]. }
        rewrite Hdue in Hin'. by apply elem_of_nil in Hin'.
      * intros Hd0. apply due_head in Hd0; [|done]. simpl in Hd0. lia.
    + exfalso. rewrite Hp' in Hd'. unfold disk_ints in Hd'. rewrite filter_cons in Hd'.
      destruct (decide _); [|done]. injection Hd' as -> ->. done.
Qed.

(** The thread runs again, in [P] of the disk semaphore, which has a unit. *)
Record awake (c id : Z) (stk : option Z) (file : list Z) (s : ksim) : Prop := {
  aw_yield : yieldOnReturn (interrupt s) = false;
  aw_ints : disk_ints (pending (interrupt s)) = [];
  aw_current : currentThread (world s) = c;
  aw_destroy : threadToBeDestroyed (world s) = None;
  aw_switching : switching (world s) = false;
  aw_ready : readyList (world s) = [];
  aw_sem : semaphores (world s) !! disk_sem = Some (mkSemaphore 1 []);
  aw_thread : threads (world s) !! c = Some (mkThread RUNNING id stk (InP disk_sem));
  aw_active : active (the_disk s) = false;
  aw_file : unixfile (the_disk s) = file;
  aw_last : 0 <= lastSector (the_disk s) < NumSectors
}.

#[local] Abbreviation slp := (sleep_loop (save_user save_other) (restore_user restore_other)).

Lemma sleep_loop_woken c id stk file (s : ksim) :
  asleep c file s -> woken c id stk s -> ready_to_fire I s ->
  stk = None \/ stk = Some STACK_FENCEPOST ->
  exists k, slp (world s) = Ok (Some k) /\
    awake c id stk file (set_world s k) /\ ready_to_fire I (set_world s k).
Proof using Hothers.
  intros [] (Hd & Hr & Hs & Ht & Hact) [Hq Hl Hh [HX (sem & Hsem & Hth)]] Hstk.
  unfold sleep_loop, FindNextToRun. rewrite Hr. unfold Run. simpl.
  unfold CheckOverflow, thread_at. simpl. rewrite as_current0, Ht. simpl.
  assert ((match stk with None => Ok tt | Some w => if w =? STACK_FENCEPOST then Ok tt else AssertFail end)
    = Ok tt) as -> by (destruct Hstk as [-> | ->]; done).
  simpl. unfold setStatus, thread_at. simpl. rewrite Ht. simpl. rewrite lookup_insert_eq. simpl.
  rewrite as_destroy0. simpl. eexists. split; [done|]. split.
  - split; unfold the_disk in *; simpl; try done. by rewrite lookup_insert_eq.
  - split; simpl; try done. split; simpl; [apply (ok_restore Hothers), (ok_save Hothers), HX|].
    rewrite Hs in Hsem. simplify_eq. eexists. split; [done|]. simpl. set_solver.
Qed.

Lemma sleep_wait_returns c id stk file T fuel : forall (s : ksim),
  asleep c file s -> waiting c id stk T s -> ready_to_fire I s ->
  stk = None \/ stk = Some STACK_FENCEPOST -> totalTicks (stats s) < T ->
  due (totalTicks (stats s)) (pending (interrupt s)) = [] ->
  (Z.to_nat (T - totalTicks (stats s)) + 1 < fuel)%nat ->
  exists s', sleep_wait disk_sem other_handler DelayedLoad00 save_other restore_other fuel s
      = Ok (tt, s') /\
    awake c id stk file s' /\ ready_to_fire I s' /\ Interrupt.status (interrupt s') = SystemMode /\
    totalTicks (stats s) <= totalTicks (stats s').
Proof using Hothers.
  induction fuel as [|fuel IH]; intros s Ha Hw Hr Hstk Hlt Hdue Hf; [lia|].
  simpl. pose proof Hw as (_ & Hrd & _). unfold sleep_loop at 1, FindNextToRun. rewrite Hrd. simpl.
  destruct (idle_progress c id stk file T s Ha Hw Hr)
    as (s1 & Hi & Hr1 & Ha1 & Hst & Hle & Hcase).
  simpl in Hi. rewrite Hi. simpl. destruct Hcase as [Hwk|(Hw1 & Hlt1 & Hd1 & Hprog)].
  - destruct (sleep_loop_woken c id stk file s1 Ha1 Hwk Hr1 Hstk) as (k & Hk & Haw & Hrk).
    destruct fuel as [|fuel]; [lia|]. simpl. rewrite Hk. simpl. eexists. split; [done|].
    split_and!; try done.
  - specialize (Hprog Hdue).
    destruct (IH s1 Ha1 Hw1 Hr1 Hstk Hlt1 Hd1) as (s2 & -> & H2 & H3 & H4 & H5); [lia|].
    eexists. split; [done|]. split_and!; try done. lia.
Qed.

(** The first round of the wait, with interrupts possibly due already. *)
Lemma sleep_wait_first c id stk file T fuel (s : ksim) :
  asleep c file s -> waiting c id stk T s -> ready_to_fire I s ->
  stk = None \/ stk = Some STACK_FENCEPOST -> totalTicks (stats s) < T ->
  (Z.to_nat (T - totalTicks (stats s)) + 2 < fuel)%nat ->
  exists s', sleep_wait disk_sem other_handler DelayedLoad00 save_other restore_other fuel s
      = Ok (tt, s') /\
    awake c id stk file s' /\ ready_to_fire I s' /\ Interrupt.status (interrupt s') = SystemMode /\
    totalTicks (stats s) <= totalTicks (stats s').
Proof using Hothers.
  intros Ha Hw Hr Hstk Hlt Hf. destruct fuel as [|fuel]; [lia|].
  simpl. pose proof Hw as (_ & Hrd & _). unfold sleep_loop at 1, FindNextToRun. rewrite Hrd. simpl.
  destruct (idle_progress c id stk file T s Ha Hw Hr)
    as (s1 & Hi & Hr1 & Ha1 & Hst & Hle & Hcase).
  simpl in Hi. rewrite Hi. simpl. destruct Hcase as [Hwk|(Hw1 & Hlt1 & Hd1 & _)].
  - destruct (sleep_loop_woken c id stk file s1 Ha1 Hwk Hr1 Hstk) as (k & Hk & Haw & Hrk).
    destruct fuel as [|fuel]; [lia|]. simpl. rewrite Hk. simpl. eexists. split; [done|].
    split_and!; try done.
  - destruct (sleep_wait_returns c id stk file T fuel s1 Ha1 Hw1 Hr1 Hstk Hlt1 Hd1)
      as (s2 & -> & H2 & H3 & H4 & H5); [lia|].
    eexists. split; [done|]. split_and!; try done. lia.
Qed.

(** Between disk requests: the only thread runs, the disk is free and its
    semaphore has no units. *)
Record quiet (c id : Z) (stk : option Z) (file : list Z) (s : ksim) : Prop := {
  qt_yield : yieldOnReturn (interrupt s) = false;
  qt_ints : disk_ints (pending (interrupt s)) = [];
  qt_current : currentThread (world s) = c;
  qt_destroy : threadToBeDestroyed (world s) = None;
  qt_switching : switching (world s) = false;
  qt_ready : readyList (world s) = [];
  qt_sem : semaphores (world s) !! disk_sem = Some (mkSemaphore 0 []);
  qt_thread : threads (world s) !! c = Some (mkThread RUNNING id stk Normal);
  qt_active : active (the_disk s) = false;
  qt_file : unixfile (the_disk s) = file;
  qt_last : 0 <= lastSector (the_disk s) < NumSectors
}.

Lemma quiet_perm c id stk file (s : ksim) q :
  quiet c id stk file s -> q ≡ₚ pending (interrupt s) -> quiet c id stk file (set_pending s q).
Proof.
  intros [] Hp%disk_ints_perm. split; try done.
  rewrite qt_ints0 in Hp. by apply Permutation_nil_r in Hp.
Qed.

Lemma quiet_go_off c id stk file (s : ksim) k p q s' :
  quiet c id stk file s -> ready_to_fire I s -> pending (interrupt s) = (k, Some p) :: q ->
  go_off handlers DelayedLoad00 (k, Some p) s = Ok (tt, s') -> quiet c id stk file s'.
Proof using Hothers.
  intros [] Hr Hp Hg.
  assert (handler p <> DiskDone) as Hne.
  { intros He. rewrite Hp in qt_ints0. unfold disk_ints in qt_ints0.
    by rewrite filter_cons_True in qt_ints0. }
  destruct (go_off_other s k p q s' Hr Hp Hne Hg).
  rewrite qt_ints0 in un_ints0. apply Permutation_nil_r in un_ints0.
  split; congruence.
Qed.

(** The state between two calls of the disk, as the callers see it. *)
Record settled (c id : Z) (stk : option Z) (file : list Z) (s : ksim) : Prop := {
  sd_quiet : quiet c id stk file s;
  sd_queue : queue_ok (pending (interrupt s));
  sd_inHandler : inHandler (interrupt s) = false;
  sd_status : Interrupt.status (interrupt s) = SystemMode;
  sd_clock : 0 <= totalTicks (stats s);
  sd_inv : I (world s);
  sd_stack : stk = None \/ stk = Some STACK_FENCEPOST
}.

Lemma set_level_settled c id stk file (s : ksim) l :
  settled c id stk file s -> settled c id stk file (set_level s l).
Proof. intros [[]]. split; try done. Qed.

(** [SetLevel] back to the old level, which may run due interrupts. *)
Lemma SetLevel_settled c id stk file (s : ksim) l :
  settled c id stk file s -> level (interrupt s) = IntOff ->
  exists o s', SetLevel handlers DelayedLoad00 no_yield (S (length (pending (interrupt s)))) l s
      = Ok (o, s') /\
    settled c id stk file s' /\ level (interrupt s') = l.
Proof using Hothers.
  intros [Hqt Hq Hh Hst Hclk HI Hstk] Hl. remember (S (length (pending (interrupt s)))) as n eqn:Hn.
  unfold SetLevel, ChangeLevel. rewrite Hh, orb_true_r.
  simpl. rewrite Hl. destruct l; simpl.
  - do 2 eexists. split; [done|]. split; [|done]. by apply set_level_settled.
  - unfold OneTick, ChangeLevel. simpl. rewrite Hst. simpl.
    set (s0 := set_level _ IntOff).
    assert (quiet c id stk file s0) as Hq0 by (destruct Hqt; by split).
    destruct (while_due_ends handlers DelayedLoad00 I handlers_ok_disk delayed_load_ok_disk
      (quiet c id stk file) n s0)
      as (s1 & Hw & [[] Hc Hs _] & Hqt1 & _).
    + intros. by eapply quiet_go_off.
    + intros. by apply quiet_perm.
    + by split.
    + done.
    + pose proof (length_due (totalTicks (stats s0)) (pending (interrupt s0))). simpl in *. lia.
    + rewrite Hw. simpl. rewrite (qt_yield _ _ _ _ _ Hqt1). simpl.
      do 2 eexists. split; [done|]. split; [|done].
      simpl in Hc. destruct Hqt1.
      split; simpl; [by split|done|done|by rewrite Hs| |done|done].
      rewrite Hc. unfold SystemTick. lia.
Qed.

(** Turning interrupts off takes no time. *)
Lemma SetLevel_off ch (dl y : st ksim unit) n (s : ksim) :
  SetLevel ch dl y n IntOff s = Ok (level (interrupt s), set_level s IntOff).
Proof. done. Qed.

(** [P] by the running thread without a unit: it joins the queue and sleeps. *)
Definition blocked (c id : Z) (stk : option Z) (s : ksim) : ksim :=
  let k := world s in
  set_world s (mkKernel (<[c := mkThread BLOCKED id stk (InP disk_sem)]> (threads k))
    (currentThread k) (threadToBeDestroyed k) (readyList k)
    (<[disk_sem := mkSemaphore 0 [c]]> (semaphores k)) true (ext k)).
Lemma P_blocks c id stk (s : ksim) :
  currentThread (world s) = c ->
  semaphores (world s) !! disk_sem = Some (mkSemaphore 0 []) ->
  threads (world s) !! c = Some (mkThread RUNNING id stk Normal) ->
  on_kernel (fun k => P k c disk_sem) s = Ok (tt, blocked c id stk s).
Proof.
  intros Hc Hs Ht. unfold on_kernel, P, sem_at. rewrite Hs. simpl.
  unfold set_where, thread_at. simpl. rewrite Ht. simpl. unfold Sleep. simpl.
  rewrite Hc, Z.eqb_refl. simpl. unfold setStatus, thread_at. simpl.
  rewrite lookup_insert_eq. simpl. rewrite insert_insert_eq. unfold blocked. cbv zeta.
  done.
Qed.
(** [P] by the woken thread: it takes the unit. *)
Definition unblocked (c id : Z) (stk : option Z) (s : ksim) : ksim :=
  let k := world s in
  set_world s (mkKernel (<[c := mkThread RUNNING id stk Normal]> (threads k))
    (currentThread k) (threadToBeDestroyed k) (readyList k)
    (<[disk_sem := mkSemaphore 0 []]> (semaphores k)) (switching k) (ext k)).
Lemma P_takes c id stk (s : ksim) :
  semaphores (world s) !! disk_sem = Some (mkSemaphore 1 []) ->
  threads (world s) !! c = Some (mkThread RUNNING id stk (InP disk_sem)) ->
  on_kernel (fun k => P k c disk_sem) s = Ok (tt, unblocked c id stk s).
Proof.
  intros Hs Ht. unfold on_kernel, P, sem_at. rewrite Hs. simpl.
  unfold set_where, thread_at. simpl. rewrite Ht. done.
Qed.

(** [P] after a request that is due at [T]. *)
Lemma semaphore_P_returns c id stk file T fuel (s : ksim) :
  stk = None \/ stk = Some STACK_FENCEPOST ->
  ready_to_fire I (set_level s IntOff) -> Interrupt.status (interrupt s) = SystemMode ->
  0 <= totalTicks (stats s) < T -> (Z.to_nat (T - totalTicks (stats s)) + 2 < fuel)%nat ->
  yieldOnReturn (interrupt s) = false ->
  disk_ints (pending (interrupt s)) = [disk_int T] ->
  currentThread (world s) = c -> threadToBeDestroyed (world s) = None ->
  switching (world s) = false -> readyList (world s) = [] ->
  semaphores (world s) !! disk_sem = Some (mkSemaphore 0 []) ->
  threads (world s) !! c = Some (mkThread RUNNING id stk Normal) ->
  unixfile (the_disk s) = file -> 0 <= lastSector (the_disk s) < NumSectors ->
  exists s', semaphore_P disk_sem other_handler DelayedLoad00 save_other restore_other
      fuel disk_sem s = Ok (tt, s') /\
    settled c id stk file s' /\ level (interrupt s') = level (interrupt s).
Proof using Hothers.
  intros Hstk Hr Hst Hclk Hf Hy Hd Hcur Hdes Hsw Hrd Hs Ht Hfile Hlast.
  unfold semaphore_P. rewrite SetLevel_off. cbn [mbind res_bind].
  assert (exists f, fuel = S (S f)) as [f Ef] by (exists (fuel - 2)%nat; lia).
  subst fuel. cbn [P_loop]. rewrite Hcur.
  rewrite (P_blocks c id stk) by done. cbn [mbind res_bind].
  set (s1 := blocked c id stk _).
  destruct Hr as [Hq Hl Hh [HX _]].
  destruct (sleep_wait_first c id stk file T (S (S f)) s1) as (s2 & Hw & Haw & Hr2 & Hst2 & Hle).
  - split; done.
  - unfold waiting, s1. simpl. rewrite !lookup_insert_eq. done.
  - split; try done. split; [done|]. eexists. simpl. rewrite lookup_insert_eq. split; [done|].
    simpl. intros t ->%list_elem_of_singleton. rewrite lookup_insert_eq. by eexists.
  - done.
  - simpl. lia.
  - simpl. lia.
  - change (switching (world s1)) with true. cbn [mbind res_bind]. rewrite Hw. cbn [mbind res_bind].
    destruct Haw, Hr2 as [Hq2 Hl2 Hh2 [HX2 _]].
    rewrite aw_current0, Z.eqb_refl. rewrite (P_takes c id stk) by done. cbn [mbind res_bind].
    change (switching (world (unblocked c id stk s2))) with (switching (world s2)).
    rewrite aw_switching0. cbn [mbind res_bind].
    match goal with |- context [SetLevel _ _ _ _ _ ?s0] =>
      destruct (SetLevel_settled c id stk file s0 (level (interrupt s)))
        as (o & s4 & He & Hset & Hl4) end.
    + split; [|done|done|done| | |done].
      * split; simpl; try done; rewrite lookup_insert_eq; done.
      * simpl in *. lia.
      * split; [done|]. eexists. simpl. rewrite lookup_insert_eq. split; [done|]. simpl. set_solver.
    + done.
    + rewrite He. simpl. eexists. split; [done|]. split; [exact Hset|exact Hl4].
Qed.

(** ** Reading and writing a sector *)

(** Rounds enough for the wait: more than the longest latency. *)
Definition disk_fuel : nat := Z.to_nat 32100.

#[local] Abbreviation readS := (ReadSector disk_sem other_handler DelayedLoad00 save_other restore_other).
#[local] Abbreviation writeS := (WriteSector disk_sem other_handler DelayedLoad00 save_other restore_other).

(** The disk takes request [n] and finally holds [file]. *)
Definition requested (n : Z) (file : list Z) (counted : Statistics -> Statistics)
    (T : Z) (s s' : ksim) : Prop :=
  let d := the_disk s in
  let d' := mkDisk file true (lastSector d) (bufferInit d) in
  let s1 := set_disk s (UpdateLast (totalTicks (stats s)) d' n) in
  let s2 := set_stats s1 (counted (stats s1)) in
  Schedule DiskDone 0 (T - totalTicks (stats s)) DiskInt s2 = Ok (tt, s').

Lemma requested_then_P c id stk file0 file n counted T (s s' : ksim) :
  settled c id stk file0 s -> 0 <= n < NumSectors ->
  (forall x, totalTicks (counted x) = totalTicks x) ->
  totalTicks (stats s) < T <= totalTicks (stats s) + 32000 ->
  requested n file counted T s s' ->
  exists s2, semaphore_P disk_sem other_handler DelayedLoad00 save_other restore_other
      disk_fuel disk_sem s' = Ok (tt, s2) /\
    settled c id stk file s2 /\ level (interrupt s2) = level (interrupt s).
Proof using Hothers.
  intros [[] Hq Hh Hst Hclk HI Hstk] Hn Hct HT Hrq. unfold requested in Hrq. cbv zeta in Hrq.
  match type of Hrq with Schedule ?h ?a ?d ?t ?s0 = _ =>
    destruct (Schedule_step h a d t s0) as (s1 & Hs1 & Hstep & Hw & Hsts & Hy & Hp); [lia|] end.
  destruct Hstep as [_ _ _ _ Hlv Hih Hss Hqu _ _]. rewrite Hs1 in Hrq. injection Hrq as <-.
  unfold UpdateLast, the_disk in *. simpl in *.
  destruct (TimeToSeek (totalTicks (stats s)) (lastSector (disk (ext (world s)))) n) as [seek rot].
  assert (totalTicks (stats s1) = totalTicks (stats s)) as Htt by (rewrite Hsts; simpl; apply Hct).
  rewrite Hct in Hp. simpl in Hp.
  replace (totalTicks (stats s) + (T - totalTicks (stats s))) with T in Hp by lia.
  destruct (semaphore_P_returns c id stk file T disk_fuel s1) as (s2 & He & Hset & Hl).
  - done.
  - split; simpl; try congruence; [by apply Hqu|]. rewrite Hw. simpl. exact HI.
  - congruence.
  - lia.
  - unfold disk_fuel. lia.
  - congruence.
  - apply disk_ints_perm in Hp. unfold disk_ints in Hp at 2.
    rewrite filter_cons_True in Hp by done. unfold disk_ints in qt_ints0.
    rewrite qt_ints0 in Hp. by apply Permutation_singleton_r in Hp.
  - by rewrite Hw.
  - by rewrite Hw.
  - by rewrite Hw.
  - by rewrite Hw.
  - by rewrite Hw.
  - by rewrite Hw.
  - unfold the_disk. by rewrite Hw.
  - unfold the_disk. by rewrite Hw.
  - exists s2. split_and!; try done. congruence.
Qed.

Lemma in_range_sector n : sector_in_range n = true <-> 0 <= n < NumSectors.
Proof. unfold sector_in_range. rewrite andb_true_iff, Z.leb_le, Z.ltb_lt. done. Qed.

Lemma sector_offset_range n :
  0 <= n < NumSectors -> 0 <= sector_offset n /\ sector_offset n + SectorSize <= DiskSize.
Proof. unfold sector_offset, DiskSize, SectorSize, NumSectors, MagicSize. lia. Qed.

Lemma ReadSector_returns c id stk file n (s : ksim) :
  settled c id stk file s -> zlen file = DiskSize -> 0 <= n < NumSectors ->
  exists s', readS disk_fuel n s = Ok (slice (sector_offset n) SectorSize file, s') /\
    settled c id stk file s' /\ level (interrupt s') = level (interrupt s).
Proof using Hothers.
  intros Hset Hlen Hn. pose proof (sector_offset_range n Hn) as [Ho1 Ho2].
  pose proof Hset as [[] _ _ _ Hclk _ _].
  unfold ReadSector, on_kernel, Lock_Acquire, ReadRequest. simpl.
  rewrite (proj2 (in_range_sector n) Hn).
  unfold the_disk in *. simpl. rewrite qt_active0, qt_file0. simpl.
  unfold unix_read. rewrite (proj2 (Z.leb_le _ _) Ho1), Hlen, (proj2 (Z.leb_le _ _) Ho2). simpl.
  pose proof (latency_range (totalTicks (stats s)) (disk (ext (world s))) n false Hclk qt_last0 Hn) as Hlat.
  unfold RotationTime in Hlat.
  set (t := ComputeLatency _ _ _ _) in *.
  match goal with |- context [Schedule ?h ?a ?d ?ty ?s0] =>
    destruct (Schedule_step h a d ty s0) as (s1 & Hs1 & _); [lia|]; rewrite Hs1 end.
  simpl. destruct (requested_then_P c id stk file file n (count_disk 1 0)
    (totalTicks (stats s) + t) s s1) as (s2 & -> & Hset2 & Hl); try done.
  - lia.
  - unfold requested, the_disk. cbv zeta.
    replace (totalTicks (stats s) + t - totalTicks (stats s)) with t by lia. by destruct s.
  - simpl. eexists. split; [done|]. unfold Lock_Release.
    replace (set_world s2 (world s2)) with s2 by by destruct s2. done.
Qed.

Lemma slice_ge {A} (l : list A) n : zlen l = n -> slice 0 n l = l.
Proof. intros <-. apply slice_all. Qed.

Lemma WriteSector_returns c id stk file n data (s : ksim) :
  settled c id stk file s -> zlen file = DiskSize -> 0 <= n < NumSectors ->
  zlen data = SectorSize ->
  exists s', writeS disk_fuel n data s = Ok (tt, s') /\
    settled c id stk (splice (sector_offset n) data file) s' /\
    level (interrupt s') = level (interrupt s).
Proof using Hothers.
  intros Hset Hlen Hn Hd. pose proof (sector_offset_range n Hn) as [Ho1 Ho2].
  pose proof Hset as [[] _ _ _ Hclk _ _].
  unfold WriteSector, on_kernel, Lock_Acquire, WriteRequest. simpl.
  rewrite (proj2 (in_range_sector n) Hn).
  unfold the_disk in *. simpl. rewrite qt_active0, qt_file0. simpl.
  unfold buffer. rewrite Hd, Z.leb_refl. simpl. rewrite slice_ge by done.
  unfold unix_write. rewrite (proj2 (Z.leb_le _ _) Ho1). simpl.
  replace (Z.to_nat (sector_offset n + zlen data - zlen file)) with O by lia.
  simpl. rewrite app_nil_r.
  pose proof (latency_range (totalTicks (stats s)) (disk (ext (world s))) n true Hclk qt_last0 Hn) as Hlat.
  unfold RotationTime in Hlat.
  set (t := ComputeLatency _ _ _ _) in *.
  match goal with |- context [Schedule ?h ?a ?d ?ty ?s0] =>
    destruct (Schedule_step h a d ty s0) as (s1 & Hs1 & _); [lia|]; rewrite Hs1 end.
  simpl. destruct (requested_then_P c id stk file (splice (sector_offset n) data file) n
    (count_disk 0 1) (totalTicks (stats s) + t) s s1) as (s2 & -> & Hset2 & Hl); try done.
  - lia.
  - unfold requested, the_disk. cbv zeta.
    replace (totalTicks (stats s) + t - totalTicks (stats s)) with t by lia. by destruct s.
  - simpl. eexists. split; [done|]. unfold Lock_Release.
    replace (set_world s2 (world s2)) with s2 by by destruct s2. done.
Qed.
End wait.

(** ** The synchronous disk is a store of sectors *)

Section instance.
Context {X : Type}.
#[local] Abbreviation ksim := (sim (kernel (dev X))).
Context (disk_sem : Z).
Context (other_handler : IntHandler -> Z -> st ksim unit).
Context (DelayedLoad00 : st ksim unit).
Context (save_other restore_other : Z -> X -> X).
Context (IX : X -> Prop).

Definition disk_ok (s : ksim) : Prop :=
  exists c id stk file, settled disk_sem IX c id stk file s /\
    zlen file = DiskSize /\ Forall is_byte file.

Definition synch_disk_store : SectorStore ksim := {|
  read_sector := ReadSector disk_sem other_handler DelayedLoad00 save_other restore_other disk_fuel;
  write_sector := WriteSector disk_sem other_handler DelayedLoad00 save_other restore_other disk_fuel;
  sector s n := slice (sector_offset n) SectorSize (unixfile (the_disk s));
  store_ok := disk_ok
|}.

Lemma synch_disk_laws :
  others_ok disk_sem other_handler DelayedLoad00 save_other restore_other IX ->
  SectorStoreLaws ksim (S := synch_disk_store).
Proof.
  intros Ho. split; simpl.
  - intros s n (c & id & stk & file & [[] _ _ _ _ _ _] & Hlen & Hb) Hn.
    pose proof (sector_offset_range n Hn). rewrite qt_file0. rewrite zlen_slice by lia.
    split; [unfold SectorSize in *; lia|]. by apply Forall_slice.
  - intros s n (c & id & stk & file & Hs & Hlen & Hb) Hn.
    destruct (ReadSector_returns _ _ _ _ _ _ Ho c id stk file n s Hs Hlen Hn) as (s' & -> & Hs' & _).
    exists s'. rewrite (qt_file _ _ _ _ _ _ (sd_quiet _ _ _ _ _ _ _ Hs)).
    split; [done|]. split; [by exists c, id, stk, file|].
    intros m _. by rewrite (qt_file _ _ _ _ _ _ (sd_quiet _ _ _ _ _ _ _ Hs')).
  - intros s n data (c & id & stk & file & Hs & Hlen & Hb) Hn Hd Hdb.
    destruct (WriteSector_returns _ _ _ _ _ _ Ho c id stk file n data s Hs Hlen Hn Hd)
      as (s' & -> & Hs' & _).
    pose proof (sector_offset_range n Hn).
    exists s'. split; [done|]. split.
    + do 4 eexists. split; [exact Hs'|]. rewrite zlen_splice by lia.
      split; [done|]. by apply Forall_splice.
    + intros m Hm. pose proof (sector_offset_range m Hm).
      rewrite (qt_file _ _ _ _ _ _ (sd_quiet _ _ _ _ _ _ _ Hs)),
        (qt_file _ _ _ _ _ _ (sd_quiet _ _ _ _ _ _ _ Hs')).
      unfold sector_offset, SectorSize, MagicSize in *.
      apply zget_ext_range.
      * rewrite zlen_slice, zlen_splice by lia. case_decide; [lia|].
        rewrite zlen_slice by lia. lia.
      * intros i Hi. rewrite zlen_slice, zlen_splice in Hi by lia.
        rewrite zget_slice, zget_splice by lia. rewrite decide_True by lia.
        destruct (decide (m = n)) as [->|].
        -- rewrite decide_True by lia. f_equal. lia.
        -- rewrite decide_False by lia. rewrite zget_slice by lia. by rewrite decide_True by lia.
Qed.
End instance.

(** ** A machine with the disk only *)

Definition no_handler (h : IntHandler) (a : Z) : st (sim (kernel (dev unit))) unit :=
  fun s => Ok (tt, s).
Definition keep (t : Z) (x : unit) : unit := x.

Lemma no_others_ok : others_ok 0 no_handler no_op keep keep (fun _ => True).
Proof.
  split; try done.
  - intros h a s _ Hq Hl Hh _. eexists. split; [done|]. by split; eauto with nachos.
  - intros s _. exists (others (ext (world s))). split; [|done].
    destruct s as [i x [? ? ? ? ? ? []]]. done.
Qed.

(** A new disk: the magic number and zeros. *)
Definition blank_file : list Z := le32 MagicNumber ++ replicate (Z.to_nat (DiskSize - 4)) 0.

Lemma blank_file_len : zlen blank_file = DiskSize.
Proof. unfold blank_file, zlen. rewrite length_app, length_replicate. simpl length.
  unfold DiskSize, NumSectors, SectorSize, MagicSize. lia.
Qed.

Lemma blank_file_bytes : Forall is_byte blank_file.
Proof.
  apply Forall_app. split; [apply le32_bytes|]. apply Forall_replicate. unfold is_byte. lia.
Qed.

Lemma zget_replicate {A} (x : A) n i : 0 <= i < n -> zget (replicate (Z.to_nat n) x) i = Some x.
Proof. intros. unfold zget. rewrite decide_True by lia. apply lookup_replicate_2. lia. Qed.

Lemma blank_file_written :
  splice (DiskSize - 4) (le32 0)
    (le32 MagicNumber ++ replicate (Z.to_nat (DiskSize - 4)) 0) = blank_file.
Proof.
  unfold blank_file. set (m := le32 MagicNumber). set (z := replicate _ 0).
  assert (zlen m = 4) as Hm by done.
  assert (zlen z = DiskSize - 4) as Hz.
  { unfold z, zlen. rewrite length_replicate. unfold DiskSize, NumSectors, SectorSize, MagicSize. lia. }
  assert (zlen (le32 0) = 4) as H0 by done.
  unfold DiskSize, NumSectors, SectorSize, MagicSize in *.
  apply zget_ext_range; [apply zlen_splice; rewrite ?zlen_app; lia|].
  intros i Hi. rewrite zlen_splice in Hi by (rewrite ?zlen_app; lia). rewrite zlen_app in Hi.
  rewrite zget_splice by (rewrite ?zlen_app; lia). case_decide as Hc; [|reflexivity].
  rewrite zget_app, decide_False by lia. unfold z. rewrite zget_replicate by lia.
  unfold zget. rewrite decide_True by lia.
  assert (i - (4 + 1024 * 512 - 4) = 0 \/ i - (4 + 1024 * 512 - 4) = 1 \/
    i - (4 + 1024 * 512 - 4) = 2 \/ i - (4 + 1024 * 512 - 4) = 3) as [-> | [-> | [-> | ->]]] by lia;
    reflexivity.
Qed.

Lemma unix_write_eq file off data :
  0 <= off -> unix_write file off data =
    Ok (splice off data (file ++ replicate (Z.to_nat (off + zlen data - zlen file)) 0)).
Proof. intros H. unfold unix_write. by rewrite (proj2 (Z.leb_le _ _) H). Qed.

Lemma blank_file_second_write :
  unix_write (le32 MagicNumber) (DiskSize - 4) (le32 0) = Ok blank_file.
Proof.
  rewrite unix_write_eq by (unfold DiskSize, NumSectors, SectorSize, MagicSize; lia).
  assert (DiskSize - 4 + zlen (le32 0) - zlen (le32 MagicNumber) = DiskSize - 4) as -> by reflexivity.
  rewrite blank_file_written. reflexivity.
Qed.

Lemma new_Disk_blank : new_Disk None = Ok (mkDisk blank_file false 0 0).
Proof.
  unfold new_Disk. apply bind_Ok. exists (le32 MagicNumber). split; [reflexivity|].
  apply bind_Ok. exists blank_file. split; [exact blank_file_second_write|reflexivity].
Qed.

Definition disk_boot (file : list Z) : sim (kernel (dev unit)) :=
  mkSim (mkInterrupt IntOn [] false false SystemMode) new_Statistics
    (set_semaphores (boot (mkDev (mkDisk file false 0 0) tt)) {[0 := new_Semaphore 0]}).

Lemma disk_boot_ok file :
  zlen file = DiskSize -> Forall is_byte file ->
  disk_ok 0 (fun _ => True) (disk_boot file).
Proof.
  intros Hl Hb. exists 0, 0, None, file. split; [|done].
  split; [by split|apply queue_ok_nil|done|done|done| |by left].
  split; [done|]. eexists. split; [reflexivity|]. simpl. set_solver.
Qed.

(** ** Properties *)



(** Latency.  From any position of the head and any time, a request to a
    sector of the disk completes between 500 and 32,000 ticks later: the
    interrupt is always in the future, as [Schedule] asserts. *)
Theorem disk_latency_bounds now d n writing :
  0 <= now -> 0 <= lastSector d < NumSectors -> 0 <= n < NumSectors ->
  500 <= ComputeLatency now d n writing <= 32000.
Proof. apply latency_range. Qed.

Lemma disk_latency_bounds_witness :
  500 <= ComputeLatency 1234 (mkDisk [] false 1023 0) 0 true <= 32000 /\
  ComputeLatency 1234 (mkDisk [] false 1023 0) 0 true = 31266.
Proof.
  split; [apply disk_latency_bounds; simpl; unfold NumSectors; lia|reflexivity].
Defined.

(** ** A store in memory, for examples: sectors not written are zero *)

Definition zero_sector : list Z := replicate (Z.to_nat SectorSize) 0.
#[export] Instance mem_store : SectorStore (gmap Z (list Z)) := {|
  read_sector n d :=
    ASSERT (sector_in_range n); Ok (default zero_sector (d !! n), d);
  write_sector n data d :=
    ASSERT (sector_in_range n); data ← buffer data SectorSize; Ok (tt, <[n := data]> d);
  sector d n := default zero_sector (d !! n);
  store_ok d := map_Forall (fun _ l => zlen l = SectorSize /\ Forall is_byte l) d
|}.

Lemma mem_sector_ok (d : gmap Z (list Z)) n :
  store_ok d -> zlen (sector d n) = SectorSize /\ Forall is_byte (sector d n).
Proof.
  simpl. intros Hd. destruct (d !! n) as [l|] eqn:E; simpl; [by apply (Hd n)|].
  split; [reflexivity|]. apply Forall_replicate. unfold is_byte. lia.
Qed.

#[export] Instance mem_store_laws : SectorStoreLaws (gmap Z (list Z)).
Proof.
  split.
  - intros d n Hd _. by apply mem_sector_ok.
  - intros d n Hd Hn. exists d. simpl. by rewrite (proj2 (in_range_sector n) Hn).
  - intros d n data Hd Hn Hl Hb. simpl. rewrite (proj2 (in_range_sector n) Hn).
    unfold buffer. rewrite Hl, Z.leb_refl. simpl. rewrite slice_ge by done.
    eexists. split; [done|]. split.
    + intros m l. rewrite lookup_insert. case_decide; [by intros [= <-]|apply Hd].
    + intros m _. rewrite lookup_insert. case_decide; subst; [by rewrite decide_True|].
      by rewrite decide_False.
Qed.
