(* ===== verification/FileHdr.v ===== *)
(** * filesys/filehdr.cc: file headers

    A header is the length of a file and the table of its data sectors; on
    disk it fills one sector, as the little-endian image of its fields.  The
    sectors are read and written through the interface [SectorStore]. *)

From S2P Require Import Prelude BitMap Disk.
From stdpp Require Import list sets.
#[local] Open Scope Z_scope.

Definition NumDirect : Z := 126.
Definition MaxFileSize : Z := NumDirect * SectorSize.

Record FileHeader := mkFileHeader {
  numBytes : Z;
  numSectors : Z;
  dataSectors : list Z
}.

(** The loop of [Allocate]; a sector beyond the table is written outside the
    array. *)
Definition allocate_loop (numSectors : Z) (freeMap : BitMap) (ds : list Z)
  : res (BitMap * list Z) :=
  for_range 0 numSectors
    (fun i '(m, ds) => '(k, m) ← Find m; ds ← wr ds i k; Ok (m, ds)) (freeMap, ds).

(** The header as the caller's memory has it ([hdr]: there is no
    constructor), the map of free sectors; result, header and map. *)
Definition Allocate (hdr : FileHeader) (freeMap : BitMap) (fileSize : Z)
  : res (bool * FileHeader * BitMap) :=
  let numSectors := divRoundUp fileSize SectorSize in
  c ← NumClear freeMap;
  if c <? numSectors then Ok (false, mkFileHeader fileSize numSectors (dataSectors hdr), freeMap)
  else
    '(m, ds) ← allocate_loop numSectors freeMap (dataSectors hdr);
    Ok (true, mkFileHeader fileSize numSectors ds, m).

Definition Deallocate (hdr : FileHeader) (freeMap : BitMap) : res BitMap :=
  for_range 0 (numSectors hdr)
    (fun i m =>
       s ← rd (dataSectors hdr) i;
       t ← Test m s;
       ASSERT (t : bool);
       Clear m s) freeMap.

(** The header as an array of bytes, and back. *)
Definition encode_hdr (h : FileHeader) : list Z :=
  bytes_of_ints (numBytes h :: numSectors h :: dataSectors h).
Definition decode_hdr (bs : list Z) : res FileHeader :=
  match ints_of_bytes bs with
  | nb :: ns :: ds => Ok (mkFileHeader nb ns ds)
  | _ => UB
  end.

Definition ByteToSector (h : FileHeader) (offset : Z) : res Z :=
  rd (dataSectors h) (Z.quot offset SectorSize).
Definition FileLength (h : FileHeader) : Z := numBytes h.

Section store.
Context {D : Type} `{SectorStore D}.

Definition hdr_FetchFrom (sec : Z) : st D FileHeader :=
  bs ← read_sector sec; lift (decode_hdr bs).
Definition hdr_WriteBack (h : FileHeader) (sec : Z) : st D unit :=
  write_sector sec (encode_hdr h).
End store.

(** ** Well-formed headers *)

(** The table has its size and its fields fit their type. *)
Record hdr_shape (h : FileHeader) : Prop := {
  hs_len : zlen (dataSectors h) = NumDirect;
  hs_ints : Forall is_int (numBytes h :: numSectors h :: dataSectors h)
}.

(** The data sectors in use. *)
Definition used_sectors (h : FileHeader) : list Z := slice 0 (numSectors h) (dataSectors h).

Record hdr_ok (h : FileHeader) : Prop := {
  ho_shape : hdr_shape h;
  ho_bytes : 0 <= numBytes h;
  ho_sectors : numSectors h = divRoundUp (numBytes h) SectorSize;
  ho_fits : numSectors h <= NumDirect;
  ho_range : Forall (fun s => 0 <= s < NumSectors) (used_sectors h);
  ho_nodup : NoDup (used_sectors h)
}.

Lemma decode_encode h : hdr_shape h -> decode_hdr (encode_hdr h) = Ok h.
Proof.
  intros [_ Hi]. unfold decode_hdr, encode_hdr.
  rewrite <-(app_nil_r (bytes_of_ints _)), ints_of_bytes_of_ints by done.
  rewrite app_nil_r. by destruct h.
Qed.

Lemma encode_len h : hdr_shape h -> zlen (encode_hdr h) = SectorSize.
Proof.
  intros [Hl _]. unfold encode_hdr. rewrite zlen_bytes_of_ints, !zlen_cons, Hl. done.
Qed.

Lemma encode_bytes h : Forall is_byte (encode_hdr h).
Proof. apply bytes_of_ints_bytes. Qed.

(** The sector of a byte of the file. *)
Lemma sector_index h p :
  hdr_ok h -> 0 <= p < numBytes h -> 0 <= p / SectorSize < numSectors h.
Proof.
  intros [_ Hb Hs _ _ _] Hp. pose proof (divRoundUp_spec (numBytes h) SectorSize Hb eq_refl).
  rewrite <-Hs in *. unfold SectorSize in *. lia_mod.
Qed.

Lemma used_sector h i :
  hdr_ok h -> 0 <= i < numSectors h ->
  exists s, zget (dataSectors h) i = Some s /\ zget (used_sectors h) i = Some s /\
    0 <= s < NumSectors.
Proof.
  intros [[Hl _] Hb Hs Hf Hr _] Hi.
  destruct (zget_is_Some (dataSectors h) i) as [s Hs']; [lia|]. exists s.
  assert (zget (used_sectors h) i = Some s) as Hu.
  { unfold used_sectors. rewrite zget_slice by lia. rewrite decide_True by lia. done. }
  split_and!; try done; by apply (Forall_zget _ _ _ _ Hr Hu).
Qed.

Lemma used_sector_inj h i j s :
  hdr_ok h -> 0 <= i < numSectors h -> 0 <= j < numSectors h ->
  zget (dataSectors h) i = Some s -> zget (dataSectors h) j = Some s -> i = j.
Proof.
  intros Hh Hi Hj H1 H2. destruct (used_sector h i Hh Hi) as (s1 & ? & Hu1 & _).
  destruct (used_sector h j Hh Hj) as (s2 & ? & Hu2 & _). simplify_eq.
  exact (NoDup_zget _ _ _ _ (ho_nodup _ Hh) Hu1 Hu2).
Qed.

(** ** Allocation *)

(** The loop takes the sectors that [find_n] takes, in order. *)
Lemma allocate_loop_find_n n : forall i m ds ks m',
  0 <= i -> i + Z.of_nat n <= zlen ds ->
  find_n n m = Ok (ks, m') ->
  for_n n i (fun i '(m, ds) => '(k, m) ← Find m; ds ← wr ds i k; Ok (m, ds)) (m, ds) =
    Ok (m', splice i ks ds).
Proof.
  induction n as [|n IH]; intros i m ds ks m' Hi Hle Hf; simpl in *.
  - injection Hf as <- <-. unfold splice. simpl. by rewrite Nat.add_0_r, take_drop.
  - destruct (Find m) as [[k m1]| | | |]; simpl in *; try done.
    destruct (find_n n m1) as [[ks1 m2]| | | |] eqn:E; simpl in *; try done.
    injection Hf as <- <-. rewrite wr_Ok by lia. simpl.
    rewrite (IH (i + 1) m1 (zset ds i k) ks1 m2); [|lia|rewrite zlen_zset; lia|done].
    assert (zlen ks1 = Z.of_nat n) as Hks.
    { clear -E. revert m1 ks1 m2 E. induction n as [|n IH]; intros m ks m2 E; simpl in E.
      - by injection E as <- <-.
      - destruct (Find m) as [[]| | | |]; simpl in E; try done.
        destruct (find_n n b) as [[]| | | |] eqn:E2; simpl in E; try done.
        injection E as <- <-. rewrite zlen_cons. apply IH in E2. lia. }
    f_equal. f_equal. apply zget_ext_range.
    + rewrite !zlen_splice; rewrite ?zlen_zset, ?zlen_cons; lia.
    + intros j Hj. rewrite !zget_splice; rewrite ?zlen_zset, ?zlen_cons; try lia.
      rewrite zget_zset.
      destruct (decide (j = i)) as [->|].
      * rewrite decide_False by lia. rewrite decide_True by lia. rewrite decide_True by lia.
        by rewrite Z.sub_diag.
      * destruct (decide (i + 1 <= j < i + 1 + zlen ks1)).
        -- rewrite decide_True by lia. rewrite zget_cons_S by lia. f_equal. lia.
        -- rewrite decide_False by lia. by rewrite decide_False by lia.
Qed.

(** [Allocate] by cases: too little space, more sectors than the table has
    room for, or success. *)
Lemma Allocate_spec hdr m size :
  zlen (dataSectors hdr) = NumDirect -> wf m -> 0 <= size ->
  let n := divRoundUp size SectorSize in
  if decide (zlen (clear_items m) < n) then
    Allocate hdr m size = Ok (false, mkFileHeader size n (dataSectors hdr), m)
  else n <= NumDirect ->
    exists ks m', zlen ks = n /\ wf m' /\ numBits m' = numBits m /\
      clear_items m ≡ₚ ks ++ clear_items m' /\
      (forall j, bit m' j = bool_decide (j ∈ ks) || bit m j) /\
      Allocate hdr m size = Ok (true, mkFileHeader size n (splice 0 ks (dataSectors hdr)), m').
Proof.
  intros Hl Hwf Hsz n. unfold Allocate. rewrite NumClear_spec by done. simpl. fold n.
  assert (0 <= n) as Hn by (apply divRoundUp_nonneg; [done|reflexivity]).
  case_decide.
  - by rewrite (proj2 (Z.ltb_lt _ _)).
  - intros Hfit. rewrite (proj2 (Z.ltb_ge _ _)) by lia.
    destruct (find_n_spec (Z.to_nat n) m Hwf) as (ks & m' & Hf & Hwf' & Hnb & Hlen & Hp & Hb).
    { unfold zlen in *. lia. }
    exists ks, m'. split_and!; try done; [unfold zlen; lia|].
    unfold allocate_loop, for_range. rewrite Z.sub_0_r.
    rewrite (allocate_loop_find_n _ 0 m _ ks m') by (done || lia). done.
Qed.

(** The fields of an allocated header. *)
Lemma allocated_hdr_ok hdr size ks :
  hdr_shape hdr -> 0 <= size -> divRoundUp size SectorSize <= NumDirect ->
  zlen ks = divRoundUp size SectorSize -> NoDup ks ->
  Forall (fun s => 0 <= s < NumSectors) ks ->
  let h := mkFileHeader size (divRoundUp size SectorSize) (splice 0 ks (dataSectors hdr)) in
  hdr_ok h /\ used_sectors h = ks.
Proof.
  intros [Hl Hi] Hsz Hfit Hks Hnd Hr h. pose proof (zlen_nonneg ks).
  assert (used_sectors h = ks) as Hu.
  { unfold used_sectors, h. simpl. rewrite <-Hks. apply zget_ext_range.
    - rewrite zlen_slice, zlen_splice by lia. lia.
    - intros i Hi'. rewrite zlen_slice, zlen_splice in Hi' by lia.
      rewrite zget_slice, zget_splice by lia. rewrite !decide_True by lia. f_equal. lia. }
  pose proof (divRoundUp_spec size SectorSize Hsz eq_refl) as Hd.
  unfold NumDirect, SectorSize in *.
  split; [|done]. split; rewrite ?Hu; try done. split.
  - unfold h. simpl. rewrite zlen_splice; [done|lia|]. unfold NumDirect in *. lia.
  - apply Forall_cons in Hi as [_ Hi]. apply Forall_cons in Hi as [_ Hi].
    unfold h. simpl. repeat constructor; try (unfold_int; lia).
    apply Forall_splice; [done|]. eapply Forall_impl; [exact Hr|].
    unfold NumSectors. intros. unfold_int. lia.
Qed.

(** [Allocate] by cases, for a map of the disk. *)
Lemma Allocate_cases (hdr : FileHeader) (m : BitMap) (size : Z) :
  hdr_shape hdr -> wf m -> numBits m = NumSectors ->
  0 <= size -> divRoundUp size SectorSize <= NumDirect ->
  if decide (zlen (clear_items m) < divRoundUp size SectorSize) then
    exists h, Allocate hdr m size = Ok (false, h, m)
  else exists h m', Allocate hdr m size = Ok (true, h, m') /\ hdr_ok h /\ numBytes h = size /\
    wf m' /\ numBits m' = NumSectors /\
    (forall s, s ∈ used_sectors h -> bit m s = false) /\
    (forall s, bit m' s = bool_decide (s ∈ used_sectors h) || bit m s).
Proof.
  intros Hh Hwf Hnb Hsz Hfit.
  pose proof (Allocate_spec hdr m size (hs_len _ Hh) Hwf Hsz) as Ha. cbv zeta in Ha.
  case_decide; [by eexists|].
  destruct (Ha Hfit) as (ks & m' & Hk & Hwf' & Hnb' & Hp & Hb & ->).
  assert (forall s, s ∈ ks -> 0 <= s < NumSectors /\ bit m s = false) as Hks.
  { intros s Hin. assert (s ∈ clear_items m) as Hc by (rewrite Hp; set_solver).
    apply elem_of_clear_items in Hc. by rewrite Hnb in Hc. }
  destruct (allocated_hdr_ok hdr size ks Hh Hsz Hfit Hk) as [Ho Hu].
  - pose proof (NoDup_clear_items m) as Hn. rewrite Hp in Hn. by apply NoDup_app in Hn as [? _].
  - apply Forall_forall. intros s Hin. by apply Hks.
  - eexists _, m'. rewrite !Hu. split_and!; try done; [congruence|].
    intros s Hin. by apply Hks.
Qed.

(** [Deallocate] clears the sectors of the file, which must all be marked. *)
Lemma Deallocate_spec h m :
  hdr_ok h -> wf m -> numBits m = NumSectors ->
  (forall s, s ∈ used_sectors h -> bit m s = true) ->
  exists m', Deallocate h m = Ok m' /\ wf m' /\ numBits m' = NumSectors /\
    forall j, bit m' j = negb (bool_decide (j ∈ used_sectors h)) && bit m j.
Proof.
  intros Hh Hwf Hnb Hall. unfold Deallocate.
  destruct (for_range_inv
    (fun i m' => wf m' /\ numBits m' = NumSectors /\
       forall j, bit m' j = negb (bool_decide (j ∈ slice 0 i (dataSectors h))) && bit m j)
    (fun i m => s ← rd (dataSectors h) i; t ← Test m s; ASSERT (t : bool); Clear m s)
    0 (numSectors h) m) as (m' & -> & Hwf' & Hnb' & Hb).
  - rewrite (ho_sectors _ Hh). apply divRoundUp_nonneg; [apply Hh|reflexivity].
  - done.
  - intros i m1 Hi (Hwf1 & Hnb1 & Hb1).
    destruct (used_sector h i Hh Hi) as (s & Hs & Hu & Hr).
    rewrite (proj2 (rd_Ok _ _ _) Hs). simpl. rewrite Test_spec by (done || lia). simpl.
    assert (s ∉ slice 0 i (dataSectors h)) as Hni.
    { intros [j Hj]%elem_of_zget. rewrite zget_slice in Hj by lia. case_decide; [|done].
      simpl in Hj. pose proof (used_sector_inj h j i s Hh ltac:(lia) Hi Hj Hs). lia. }
    rewrite Hb1, bool_decide_false by done. simpl.
    rewrite Hall by (apply elem_of_zget; by exists i).
    destruct (Clear_spec m1 s Hwf1) as (m2 & -> & Hwf2 & Hnb2 & Hb2); [lia|].
    exists m2. split; [done|]. split_and!; try done; [congruence|].
    intros j. rewrite Hb2, Hb1. destruct (Z.eqb_spec j s) as [->|Hne]; simpl.
    + rewrite bool_decide_true; [done|]. apply elem_of_zget. exists i.
      rewrite zget_slice by lia. rewrite decide_True by lia. done.
    + f_equal. f_equal. apply bool_decide_ext. rewrite !elem_of_zget. split.
      * intros [x Hx]. exists x. rewrite zget_slice in * by lia. case_decide; [|done].
        by rewrite decide_True by lia.
      * intros [x Hx]. exists x. rewrite zget_slice in * by lia.
        destruct (decide (0 <= x < i + 1)) in Hx; [|done].
        destruct (decide (x = i)); [|by rewrite decide_True by lia].
        subst x. rewrite Z.add_0_l in Hx. congruence.
  - exists m'. done.
Qed.

(** ** Properties *)

(** Headers on disk.  A header written to a sector and fetched from it
    comes back unchanged, its image is exactly one sector long, and no other
    sector changes. *)
Theorem header_roundtrip {D} `{SectorStoreLaws D} (d : D) (h : FileHeader) (sec : Z) :
  store_ok d -> 0 <= sec < NumSectors -> hdr_shape h ->
  zlen (encode_hdr h) = SectorSize /\
  exists d1 d2, hdr_WriteBack h sec d = Ok (tt, d1) /\ store_ok d1 /\
    (forall m, 0 <= m < NumSectors -> m <> sec -> sector d1 m = sector d m) /\
    hdr_FetchFrom sec d1 = Ok (h, d2) /\ store_ok d2 /\
    (forall m, 0 <= m < NumSectors -> sector d2 m = sector d1 m).
Proof.
  intros Hd Hs Hh. split; [by apply encode_len|].
  destruct (write_sector_law d sec (encode_hdr h) Hd Hs (encode_len _ Hh) (encode_bytes h))
    as (d1 & Hw & Hd1 & Hs1).
  destruct (read_sector_law d1 sec Hd1 Hs) as (d2 & Hr & Hd2 & Hs2).
  exists d1, d2. split_and!; try done.
  - intros m Hm Hne. rewrite Hs1 by done. by rewrite decide_False.
  - unfold hdr_FetchFrom. rewrite (st_bind_Ok _ _ _ _ _ Hr), Hs1, decide_True by done.
    unfold lift. by rewrite decode_encode.
Qed.

(** A file of 600 bytes in sectors 9 and 4; the unused entries are zero. *)
Definition sample_hdr : FileHeader := mkFileHeader 600 2 ([9; 4] ++ replicate 124 0).
Lemma sample_hdr_ok : hdr_ok sample_hdr.
Proof.
  split; try reflexivity.
  - split; [reflexivity|]. unfold sample_hdr. cbn [numBytes numSectors dataSectors].
    do 2 (constructor; [unfold_int; lia|]). apply Forall_app.
    split; [repeat constructor; unfold_int; lia|apply Forall_replicate; unfold_int; lia].
  - simpl. lia.
  - vm_compute. discriminate.
  - change (used_sectors sample_hdr) with [9; 4]. repeat constructor; unfold NumSectors; lia.
  - change (used_sectors sample_hdr) with [9; 4].
    apply NoDup_cons. split; [set_solver|apply NoDup_singleton].
Qed.

Lemma header_roundtrip_witness :
  exists d1 d2, hdr_WriteBack sample_hdr 3 (∅ : gmap.gmap Z (list Z)) = Ok (tt, d1) /\
    hdr_FetchFrom 3 d1 = Ok (sample_hdr, d2).
Proof.
  destruct (header_roundtrip (∅ : gmap.gmap Z (list Z)) sample_hdr 3)
    as (_ & d1 & d2 & Hw & _ & _ & Hr & _).
  - apply fin_maps.map_Forall_empty.
  - unfold NumSectors. lia.
  - apply sample_hdr_ok.
  - exists d1, d2. split; [exact Hw|exact Hr].
Defined.

(** Allocation.  With a table of 126 entries and a well-formed map of free
    sectors, [Allocate] of a size that needs at most 126 sectors returns FALSE
    and leaves the map alone when fewer sectors are free than the size needs;
    otherwise it returns TRUE with a well-formed header for that size whose
    data sectors are distinct and were free, and exactly those become used. *)
Theorem allocate_takes_free_sectors (hdr : FileHeader) (m : BitMap) (size : Z) :
  hdr_shape hdr -> wf m -> numBits m = NumSectors ->
  0 <= size -> divRoundUp size SectorSize <= NumDirect ->
  if decide (zlen (clear_items m) < divRoundUp size SectorSize) then
    exists h, Allocate hdr m size = Ok (false, h, m)
  else exists h m', Allocate hdr m size = Ok (true, h, m') /\ hdr_ok h /\ numBytes h = size /\
    wf m' /\ numBits m' = NumSectors /\
    (forall s, s ∈ used_sectors h -> bit m s = false) /\
    (forall s, bit m' s = bool_decide (s ∈ used_sectors h) || bit m s).
Proof. apply Allocate_cases. Qed.

Definition empty_map : BitMap := mkBitMap 1024 32 (replicate 32 0).
Lemma empty_map_wf : wf empty_map.
Proof.
  split; [simpl; lia|reflexivity|reflexivity|].
  apply Forall_replicate. unfold_int. lia.
Qed.
Lemma empty_map_clear i : bit empty_map i = false.
Proof.
  unfold bit, empty_map. cbn [map]. destruct (zget _ _) as [w|] eqn:E; [|done].
  assert (w = 0) as ->; [|apply Z.testbit_0_l].
  unfold zget in E. case_decide; [|done]. by apply lookup_replicate in E as [-> _].
Qed.
Lemma empty_map_free : zlen (clear_items empty_map) = 1024.
Proof.
  unfold clear_items. rewrite filter_all.
  - unfold zlen. by rewrite length_seqZ.
  - apply Forall_forall. intros. apply empty_map_clear.
Qed.

Lemma allocate_takes_free_sectors_witness :
  exists h m', Allocate sample_hdr empty_map 700 = Ok (true, h, m') /\ numBytes h = 700 /\ hdr_ok h.
Proof.
  pose proof (allocate_takes_free_sectors sample_hdr empty_map 700) as H.
  rewrite decide_False in H by (rewrite empty_map_free; vm_compute; discriminate).
  destruct H as (h & m' & Ha & Ho & Hn & _).
  - apply sample_hdr_ok.
  - exact empty_map_wf.
  - reflexivity.
  - lia.
  - vm_compute. discriminate.
  - exists h, m'. split; [exact Ha|]. split; [exact Hn|exact Ho].
Defined.

(** The table of a header is not guarded.  [Allocate] checks the number
    of free sectors only: for a file that needs more sectors than the 126
    entries of [dataSectors], with that many sectors free, the loop writes
    outside the array. *)
Theorem allocate_overruns_table (hdr : FileHeader) (m : BitMap) (size : Z) :
  hdr_shape hdr -> wf m -> 0 <= size ->
  NumDirect < divRoundUp size SectorSize <= zlen (clear_items m) ->
  Allocate hdr m size = UB.
Proof.
  intros [Hl _] Hwf Hsz Hn. unfold Allocate. rewrite NumClear_spec by done. simpl.
  rewrite (proj2 (Z.ltb_ge _ _)) by lia. unfold allocate_loop, for_range.
  rewrite Z.sub_0_r. set (n := divRoundUp size SectorSize) in *.
  assert (Z.to_nat n = 126 + S (Z.to_nat n - 127))%nat as -> by (unfold NumDirect in Hn; lia).
  rewrite for_n_app.
  destruct (find_n_spec 126 m Hwf) as (ks & m' & Hf & Hwf' & Hnb & Hlen & Hp & _).
  { unfold zlen in Hn. unfold NumDirect in Hn. lia. }
  rewrite (allocate_loop_find_n 126 0 m _ ks m'); [|lia|rewrite Hl; unfold NumDirect; lia|done].
  simpl. destruct (Find_cases m' Hwf') as [[Hall _]|(k & m2 & -> & _)].
  - exfalso. apply clear_items_nil in Hall. rewrite Hall, app_nil_r in Hp.
    assert (zlen (clear_items m) = 126) by (unfold zlen; rewrite Hp; lia).
    unfold NumDirect in Hn. lia.
  - simpl. unfold wr. rewrite zget_None; [done|].
    rewrite zlen_splice, Hl; [unfold NumDirect; lia|lia|].
    unfold zlen. rewrite Hlen. unfold zlen in Hl. rewrite Hl. unfold NumDirect. lia.
Qed.

Lemma allocate_overruns_table_witness : Allocate sample_hdr empty_map 70000 = UB.
Proof.
  apply allocate_overruns_table; [apply sample_hdr_ok|exact empty_map_wf|lia|].
  rewrite empty_map_free. vm_compute. split; [reflexivity|discriminate].
Defined.
