(* ===== verification/OpenFile.v ===== *)
(** * filesys/openfile.cc: open files of the Nachos file system

    An open file is its header, its position and its type.  [ReadAt] and
    [WriteAt] move bytes between a buffer and the sectors of the file, through
    the interface [SectorStore].  A buffer from [new char[n]] holds [junk],
    whatever the allocator left there.  [content d h] is the file as a sequence
    of bytes: the theorems say that the routines read and write slices of it
    and touch no sector of another file. *)

From S2P Require Import Prelude Disk FileHdr.
From stdpp Require Import list list_numbers sets.
#[local] Open Scope Z_scope.

Record OpenFile := mkOpenFile {
  hdr : FileHeader;
  fileID : Z;
  (** [None] after the constructor that does not set it *)
  type : option Z;
  seekPosition : Z
}.

(** [new char[n]] *)
Definition new_chars (junk : Z -> Z) (n : Z) : list Z := junk <$> seqZ 0 n.

Section ops.
Context {D : Type} `{SectorStore D}.
Context (junk : Z -> Z).

Definition new_OpenFile (sec : Z) : st D OpenFile :=
  h ← hdr_FetchFrom sec; mret (mkOpenFile h sec None 0).
Definition new_OpenFile_t (sec t : Z) : st D OpenFile :=
  h ← hdr_FetchFrom sec; mret (mkOpenFile h sec (Some t) 0).

Definition Seek (f : OpenFile) (position : Z) : OpenFile :=
  mkOpenFile (hdr f) (fileID f) (type f) position.

(** Sectors [firstSector .. lastSector] of the file into a buffer. *)
Definition read_sectors (h : FileHeader) (firstSector lastSector : Z) (buf : list Z)
  : st D (list Z) :=
  for_st firstSector (lastSector + 1)
    (fun i buf =>
       s ← lift (ByteToSector h (i * SectorSize));
       data ← read_sector s;
       lift (bytes_to data buf ((i - firstSector) * SectorSize))) buf.

Definition write_sectors (h : FileHeader) (firstSector lastSector : Z) (buf : list Z)
  : st D unit :=
  for_st firstSector (lastSector + 1)
    (fun i _ =>
       s ← lift (ByteToSector h (i * SectorSize));
       data ← lift (bytes_from buf ((i - firstSector) * SectorSize) SectorSize);
       write_sector s data) tt.

(** The bytes put into [into]; the result is their number. *)
Definition ReadAt (f : OpenFile) (n position : Z) : st D (list Z) :=
  let fileLength := FileLength (hdr f) in
  if (n <=? 0) || (fileLength <=? position) then mret []
  else
    let n := if fileLength <? to_int (position + n) then fileLength - position else n in
    let firstSector := divRoundDown position SectorSize in
    let lastSector := divRoundDown (to_int (position + n - 1)) SectorSize in
    let numSectors := 1 + lastSector - firstSector in
    buf ← read_sectors (hdr f) firstSector lastSector (new_chars junk (numSectors * SectorSize));
    lift (bytes_from buf (position - firstSector * SectorSize) n).

Definition WriteAt (f : OpenFile) (from : list Z) (n position : Z) : st D Z :=
  let fileLength := FileLength (hdr f) in
  if (n <=? 0) || (fileLength <=? position) then mret 0
  else
    let n := if fileLength <? to_int (position + n) then fileLength - position else n in
    let firstSector := divRoundDown position SectorSize in
    let lastSector := divRoundDown (to_int (position + n - 1)) SectorSize in
    let numSectors := 1 + lastSector - firstSector in
    let buf := new_chars junk (numSectors * SectorSize) in
    let firstAligned := position =? firstSector * SectorSize in
    let lastAligned := to_int (position + n) =? (lastSector + 1) * SectorSize in
    buf ← (if negb firstAligned
           then data ← ReadAt f SectorSize (firstSector * SectorSize);
                lift (bytes_to data buf 0)
           else mret buf);
    buf ← (if negb lastAligned && (negb (firstSector =? lastSector) || firstAligned)
           then data ← ReadAt f SectorSize (lastSector * SectorSize);
                lift (bytes_to data buf ((lastSector - firstSector) * SectorSize))
           else mret buf);
    data ← lift (bytes_from from 0 n);
    buf ← lift (bytes_to data buf (position - firstSector * SectorSize));
    write_sectors (hdr f) firstSector lastSector buf;;
    mret n.

Definition Read (f : OpenFile) (n : Z) : st D (list Z * OpenFile) :=
  data ← ReadAt f n (seekPosition f);
  mret (data, Seek f (seekPosition f + zlen data)).
Definition Write (f : OpenFile) (from : list Z) (n : Z) : st D (Z * OpenFile) :=
  r ← WriteAt f from n (seekPosition f);
  mret (r, Seek f (seekPosition f + r)).
End ops.

Definition Length (f : OpenFile) : Z := FileLength (hdr f).
Definition GetID (f : OpenFile) : Z := fileID f.
Definition GetType (f : OpenFile) : res Z :=
  match type f with Some t => Ok t | None => UB end.
Definition GetCurSeekPos (f : OpenFile) : Z := seekPosition f.

(** ** The file as a sequence of bytes *)

Section content.
Context {D : Type} `{SectorStore D}.

(** The byte of the disk at offset [p] of the data sectors of [h]. *)
Definition byte_at (d : D) (h : FileHeader) (p : Z) : Z :=
  match zget (dataSectors h) (p / SectorSize) with
  | Some s => match zget (sector d s) (p mod SectorSize) with Some b => b | None => 0 end
  | None => 0
  end.

Definition content (d : D) (h : FileHeader) : list Z :=
  (fun p => byte_at d h p) <$> seqZ 0 (numBytes h).

(** Two stores with the same sectors. *)
Definition same_sectors (d d' : D) : Prop :=
  forall m, 0 <= m < NumSectors -> sector d' m = sector d m.
End content.

Lemma zlen_fmap {A B} (f : A -> B) l : zlen (f <$> l) = zlen l.
Proof. unfold zlen. by rewrite length_fmap. Qed.
Lemma zlen_seqZ n : 0 <= n -> zlen (seqZ 0 n) = n.
Proof. intros. unfold zlen. rewrite length_seqZ. lia. Qed.
Lemma zget_fmap_seqZ {A} (f : Z -> A) n i :
  zget (f <$> seqZ 0 n) i = if decide (0 <= i < n) then Some (f i) else None.
Proof.
  unfold zget. case_decide.
  - rewrite list_lookup_fmap. case_decide.
    + rewrite lookup_seqZ_lt by lia. simpl. do 2 f_equal. lia.
    + rewrite lookup_seqZ_ge by lia. done.
  - by rewrite decide_False by lia.
Qed.

Section specs.
Context {D : Type} `{SectorStoreLaws D}.
Context (junk : Z -> Z).
Implicit Types (d : D) (h : FileHeader) (f : OpenFile).

Lemma zlen_content d h : 0 <= numBytes h -> zlen (content d h) = numBytes h.
Proof. intros. unfold content. rewrite zlen_fmap. by apply zlen_seqZ. Qed.
Lemma zget_content d h p :
  zget (content d h) p = if decide (0 <= p < numBytes h) then Some (byte_at d h p) else None.
Proof. apply zget_fmap_seqZ. Qed.

Lemma same_sectors_refl d : same_sectors d d.
Proof. by intros m _. Qed.
Lemma same_sectors_trans d1 d2 d3 :
  same_sectors d1 d2 -> same_sectors d2 d3 -> same_sectors d1 d3.
Proof. intros H1 H2 m Hm. by rewrite H2, H1. Qed.

(** The bytes of a file depend on its sectors only. *)
Lemma byte_at_ext d d' h p :
  hdr_ok h -> 0 <= p / SectorSize < numSectors h ->
  (forall s, s ∈ used_sectors h -> sector d' s = sector d s) ->
  byte_at d' h p = byte_at d h p.
Proof.
  intros Hh Hp Hs. destruct (used_sector h _ Hh Hp) as (s & Hg & Hu & _).
  unfold byte_at. rewrite Hg, Hs; [done|]. apply elem_of_zget. by eexists.
Qed.
Lemma content_ext d d' h :
  hdr_ok h -> (forall s, s ∈ used_sectors h -> sector d' s = sector d s) ->
  content d' h = content d h.
Proof.
  intros Hh Hs. apply zget_ext. intros p. rewrite !zget_content. case_decide; [|done].
  f_equal. apply byte_at_ext; [done| |done]. by apply sector_index.
Qed.
Lemma content_same d d' h : hdr_ok h -> same_sectors d d' -> content d' h = content d h.
Proof.
  intros Hh Hs. apply content_ext; [done|]. intros s [i Hi]%elem_of_zget. apply Hs.
  exact (Forall_zget _ _ _ _ (ho_range _ Hh) Hi).
Qed.

Lemma zget_sector d h q s :
  store_ok d -> zget (dataSectors h) (q / SectorSize) = Some s -> 0 <= s < NumSectors ->
  zget (sector d s) (q mod SectorSize) = Some (byte_at d h q).
Proof.
  intros Hd Hs Hr. unfold byte_at. rewrite Hs.
  destruct (sector_bytes d s Hd Hr) as [Hl _].
  destruct (zget_is_Some (sector d s) (q mod SectorSize)) as [b Hb]; [|by rewrite Hb].
  rewrite Hl. apply Z.mod_pos_bound. reflexivity.
Qed.

Lemma ByteToSector_ok h i :
  hdr_ok h -> 0 <= i < numSectors h ->
  exists s, ByteToSector h (i * SectorSize) = Ok s /\ zget (dataSectors h) i = Some s /\
    s ∈ used_sectors h /\ 0 <= s < NumSectors.
Proof.
  intros Hh Hi. destruct (used_sector h i Hh Hi) as (s & Hs & Hu & Hr).
  exists s. split_and!; try done; try lia; [|apply elem_of_zget; by eexists].
  unfold ByteToSector. rewrite Z.quot_mul by done. by apply rd_Ok.
Qed.

Lemma read_sectors_spec d h first last buf :
  hdr_ok h -> store_ok d -> 0 <= first -> first <= last < numSectors h ->
  zlen buf = (1 + last - first) * SectorSize ->
  exists d' buf', read_sectors h first last buf d = Ok (buf', d') /\ store_ok d' /\
    same_sectors d d' /\ zlen buf' = zlen buf /\
    forall b, 0 <= b < zlen buf -> zget buf' b = Some (byte_at d h (first * SectorSize + b)).
Proof.
  intros Hh Hd Hf Hfl Hl. unfold read_sectors.
  destruct (for_st_inv (fun i buf1 d1 => store_ok d1 /\ same_sectors d d1 /\
     zlen buf1 = zlen buf /\
     forall b, 0 <= b < (i - first) * SectorSize ->
       zget buf1 b = Some (byte_at d h (first * SectorSize + b)))
    (fun i buf => s ← lift (ByteToSector h (i * SectorSize)); data ← read_sector s;
       lift (bytes_to data buf ((i - first) * SectorSize)))
    first (last + 1) buf d) as (buf' & d' & -> & Hd' & Hs' & Hl' & Hb).
  - lia.
  - split_and!; try done. intros b Hb. lia.
  - intros i b1 d1 Hi (Hd1 & Hs1 & Hl1 & Hb1).
    destruct (ByteToSector_ok h i Hh) as (s & HB & Hg & _ & Hr); [lia|].
    rewrite (lift_bind_Ok _ _ _ _ HB).
    destruct (read_sector_law d1 s Hd1 Hr) as (d2 & Hrd & Hd2 & Hs2).
    rewrite (st_bind_Ok _ _ _ _ _ Hrd).
    destruct (sector_bytes d1 s Hd1 Hr) as [Hls _].
    unfold SectorSize in *.
    unfold lift. rewrite bytes_to_ok by (rewrite ?Hls; lia). simpl.
    do 2 eexists. split; [done|]. split_and!; try done.
    + by apply (same_sectors_trans _ d1).
    + rewrite zlen_splice by lia. done.
    + intros b Hb. rewrite zget_splice by lia. rewrite Hls. case_decide as Hc.
      * rewrite Hs1 by done. rewrite <-(zget_sector d h (first * 512 + b) s).
        -- f_equal. unfold SectorSize. lia_mod.
        -- done.
        -- unfold SectorSize. rewrite <-Hg. f_equal. lia_mod.
        -- done.
      * apply Hb1. lia.
  - do 2 eexists. split; [done|]. split_and!; try done. intros b Hb'. apply Hb.
    unfold SectorSize in *. lia.
Qed.

Lemma zlen_new_chars n : 0 <= n -> zlen (new_chars junk n) = n.
Proof. intros. unfold new_chars. rewrite zlen_fmap. by apply zlen_seqZ. Qed.

(** The request after truncation at the end of the file. *)
Lemma request_sectors h pos n :
  hdr_ok h -> 0 <= pos -> 0 < n -> pos + n <= numBytes h ->
  let first := divRoundDown pos SectorSize in
  let last := divRoundDown (to_int (pos + n - 1)) SectorSize in
  0 <= first /\ first <= last < numSectors h /\
  first * SectorSize <= pos < (first + 1) * SectorSize /\
  last * SectorSize <= pos + n - 1 < (last + 1) * SectorSize.
Proof.
  intros Hh Hp Hn Hle first last. pose proof Hh as [[Hl _] Hb Hs Hf _ _].
  pose proof (divRoundUp_spec (numBytes h) SectorSize Hb eq_refl) as Hd. rewrite <-Hs in Hd.
  unfold first, last, divRoundDown, NumDirect, SectorSize in *.
  rewrite to_int_id by (unfold_int; lia). rewrite !Z.quot_div_nonneg by lia. lia_mod.
Qed.

Lemma truncate_eq h pos n :
  hdr_ok h -> 0 <= pos < numBytes h -> 0 < n -> pos + n < two31 ->
  (if FileLength h <? to_int (pos + n) then FileLength h - pos else n) = Z.min n (numBytes h - pos).
Proof.
  intros Hh Hp Hn Ho. unfold FileLength. rewrite to_int_id by (unfold_int; lia).
  destruct (Z.ltb_spec (numBytes h) (pos + n)); lia.
Qed.

Lemma slice_empty {A} off n (l : list A) :
  0 <= off -> n <= 0 \/ zlen l <= off -> slice off n l = [].
Proof.
  intros Ho Hn. apply length_zero_iff_nil.
  pose proof (zlen_slice off n l Ho). unfold zlen in *. lia.
Qed.
Lemma slice_min {A} off n (l : list A) :
  0 <= off -> slice off (Z.min n (zlen l - off)) l = slice off n l.
Proof.
  intros Ho. apply zget_ext_range; [rewrite !zlen_slice by lia; lia|].
  intros i Hi. rewrite zlen_slice in Hi by lia. rewrite !zget_slice by lia.
  rewrite !decide_True by lia. done.
Qed.

(** [ReadAt] returns the slice of the file that was asked for, cut at its
    end, and changes no sector. *)
Lemma ReadAt_spec d f n pos :
  hdr_ok (hdr f) -> store_ok d -> 0 <= pos -> pos + n < two31 ->
  exists d', ReadAt junk f n pos d = Ok (slice pos n (content d (hdr f)), d') /\
    store_ok d' /\ same_sectors d d'.
Proof.
  intros Hh Hd Hp Ho. pose proof Hh as [_ Hb _ _ _ _].
  pose proof (zlen_content d (hdr f) Hb) as Hlc. unfold ReadAt.
  destruct (Z.leb_spec n 0) as [Hn|Hn]; simpl.
  { rewrite slice_empty by lia. exists d. split; [done|]. split; [done|apply same_sectors_refl]. }
  unfold FileLength at 1.
  destruct (Z.leb_spec (numBytes (hdr f)) pos) as [Hq|Hq]; simpl.
  { rewrite slice_empty by lia. exists d. split; [done|]. split; [done|apply same_sectors_refl]. }
  rewrite truncate_eq by (done || lia). rewrite <-(slice_min pos n) by done. rewrite Hlc.
  set (m := Z.min n (numBytes (hdr f) - pos)).
  destruct (request_sectors (hdr f) pos m Hh Hp) as (Hf & Hfl & Hpf & Hpl); [lia|lia|].
  set (first := divRoundDown pos SectorSize) in *.
  set (last := divRoundDown (to_int (pos + m - 1)) SectorSize) in *.
  destruct (read_sectors_spec d (hdr f) first last
    (new_chars junk ((1 + last - first) * SectorSize)) Hh Hd Hf Hfl) as (d' & buf & Hr & Hd' & Hs & Hl & Hb').
  { apply zlen_new_chars. unfold SectorSize. lia. }
  rewrite (st_bind_Ok _ _ _ _ _ Hr).
  rewrite zlen_new_chars in Hl, Hb' by (unfold SectorSize; lia).
  unfold SectorSize in *. unfold lift. rewrite bytes_from_ok by lia. simpl.
  exists d'. split; [|done]. f_equal. f_equal. apply zget_ext_range.
  - rewrite !zlen_slice by lia. lia.
  - intros i Hi. rewrite zlen_slice in Hi by lia. rewrite !zget_slice by lia.
    rewrite !decide_True by lia. rewrite Hb' by lia. rewrite zget_content.
    rewrite decide_True by lia. do 2 f_equal. lia.
Qed.

Lemma content_bytes d h : hdr_ok h -> store_ok d -> Forall is_byte (content d h).
Proof.
  intros Hh Hd. apply Forall_forall. intros b [p Hp]%elem_of_zget. rewrite zget_content in Hp.
  case_decide as Hc; [|done]. injection Hp as <-.
  destruct (used_sector h (p / SectorSize) Hh) as (s & Hs & _ & Hr); [by apply sector_index|].
  destruct (sector_bytes d s Hd Hr) as [_ Hb].
  exact (Forall_zget _ _ _ _ Hb (zget_sector d h p s Hd Hs Hr)).
Qed.

Lemma write_sectors_spec d h first last buf :
  hdr_ok h -> store_ok d -> 0 <= first -> first <= last < numSectors h ->
  zlen buf = (1 + last - first) * SectorSize -> Forall is_byte buf ->
  exists d', write_sectors h first last buf d = Ok (tt, d') /\ store_ok d' /\
    (forall i s, first <= i <= last -> zget (dataSectors h) i = Some s ->
       sector d' s = slice ((i - first) * SectorSize) SectorSize buf) /\
    (forall m, 0 <= m < NumSectors ->
       (forall i, first <= i <= last -> zget (dataSectors h) i <> Some m) ->
       sector d' m = sector d m).
Proof.
  intros Hh Hd Hf Hfl Hl Hby. unfold write_sectors.
  destruct (for_st_inv (fun i (_ : unit) d1 => store_ok d1 /\
     (forall j s, first <= j < i -> zget (dataSectors h) j = Some s ->
        sector d1 s = slice ((j - first) * SectorSize) SectorSize buf) /\
     (forall m, 0 <= m < NumSectors ->
        (forall j, first <= j < i -> zget (dataSectors h) j <> Some m) ->
        sector d1 m = sector d m))
    (fun i _ => s ← lift (ByteToSector h (i * SectorSize));
       data ← lift (bytes_from buf ((i - first) * SectorSize) SectorSize); write_sector s data)
    first (last + 1) tt d) as ([] & d' & -> & Hd' & Hw & Ho).
  - lia.
  - split_and!; try done. intros. lia.
  - intros i [] d1 Hi (Hd1 & Hw1 & Ho1).
    destruct (ByteToSector_ok h i Hh) as (s & HB & Hg & _ & Hr); [lia|].
    rewrite (lift_bind_Ok _ _ _ _ HB).
    assert (0 <= (i - first) * SectorSize /\ (i - first) * SectorSize + SectorSize <= zlen buf) as Hrg
      by (unfold SectorSize in *; lia).
    rewrite (lift_bind_Ok _ _ _ _ (bytes_from_ok buf _ SectorSize (proj1 Hrg) (proj2 Hrg))).
    destruct (write_sector_law d1 s (slice ((i - first) * SectorSize) SectorSize buf) Hd1 Hr)
      as (d2 & Hwr & Hd2 & Hs2).
    { rewrite zlen_slice by lia. unfold SectorSize in *. lia. }
    { by apply Forall_slice. }
    exists tt, d2. split; [done|]. split_and!; [done| |].
    + intros j s' Hj Hs'.
      destruct (used_sector h j Hh) as (s1 & Hs1 & _ & Hr1); [lia|]. simplify_eq.
      rewrite Hs2 by done. destruct (decide (s' = s)) as [->|Hne].
      * by rewrite (used_sector_inj h j i s Hh ltac:(lia) ltac:(lia) Hs' Hg).
      * apply Hw1; [|done]. destruct (decide (j = i)); [congruence|lia].
    + intros m Hm Hno. rewrite Hs2 by done. rewrite decide_False.
      * apply Ho1; [done|]. intros j Hj. apply Hno. lia.
      * intros ->. apply (Hno i); [lia|done].
  - exists d'. split_and!; try done.
    + intros i s Hi. apply Hw. lia.
    + intros m Hm Hno. apply Ho; [done|]. intros j Hj. apply Hno. lia.
Qed.

(** The bytes of the sectors that a write touches, as [WriteAt] assembles
    them from the old content [C], of length [len], and the new bytes. *)
Definition assemble (C new buf0 : list Z) (first last pos m : Z) (c1 c2 : bool) : list Z :=
  let buf1 := if c1 then splice 0 (slice (first * SectorSize) SectorSize C) buf0 else buf0 in
  let buf2 := if c2 then splice ((last - first) * SectorSize)
                           (slice (last * SectorSize) SectorSize C) buf1 else buf1 in
  splice (pos - first * SectorSize) new buf2.

Lemma assemble_spec C new buf0 first last pos m :
  0 <= first <= last -> zlen new = m -> 0 < m ->
  first * SectorSize <= pos < (first + 1) * SectorSize ->
  last * SectorSize <= pos + m - 1 < (last + 1) * SectorSize ->
  pos + m <= zlen C -> zlen buf0 = (1 + last - first) * SectorSize ->
  let c1 := negb (pos =? first * SectorSize) in
  let c2 := negb (pos + m =? (last + 1) * SectorSize) &&
            (negb (first =? last) || (pos =? first * SectorSize)) in
  let buf := assemble C new buf0 first last pos m c1 c2 in
  zlen buf = zlen buf0 /\
  forall p, first * SectorSize <= p < (last + 1) * SectorSize -> p < zlen C ->
    zget buf (p - first * SectorSize) =
      if decide (pos <= p < pos + m) then zget new (p - pos) else zget C p.
Proof.
  intros Hfl Hn Hm Hpf Hpl Hlen Hb0 c1 c2 buf. unfold buf, assemble, SectorSize in *.
  set (s1 := slice (first * 512) 512 C). set (s2 := slice (last * 512) 512 C).
  assert (zlen s1 <= 512 /\ zlen s1 = Z.min 512 (zlen C - first * 512)) as [H1 H1'].
  { unfold s1. rewrite zlen_slice by lia. lia. }
  assert (zlen s2 <= 512 /\ zlen s2 = Z.min 512 (zlen C - last * 512)) as [H2 H2'].
  { unfold s2. rewrite zlen_slice by lia. lia. }
  set (buf1 := if c1 then splice 0 s1 buf0 else buf0).
  assert (zlen buf1 = zlen buf0) as Hb1.
  { unfold buf1. destruct c1; [|done]. apply zlen_splice; lia. }
  set (buf2 := if c2 then splice ((last - first) * 512) s2 buf1 else buf1).
  assert (zlen buf2 = zlen buf0) as Hb2.
  { unfold buf2. destruct c2; [|done]. rewrite zlen_splice; lia. }
  split; [rewrite zlen_splice; lia|].
  intros p Hp Hpc. rewrite zget_splice by lia.
  destruct (decide (pos <= p < pos + m)).
  { rewrite decide_True by lia. f_equal. lia. }
  rewrite decide_False by lia.
  assert (zget s1 (p - first * 512) = if decide (p < (first + 1) * 512) then zget C p else None) as Hg1.
  { unfold s1. rewrite zget_slice by lia. repeat case_decide; try lia; f_equal; lia. }
  assert (last * 512 <= p -> zget s2 (p - last * 512) = zget C p) as Hg2.
  { intros. unfold s2. rewrite zget_slice by lia. rewrite decide_True by lia. f_equal. lia. }
  unfold buf2, c2. destruct (Z.eqb_spec (pos + m) ((last + 1) * 512)) as [Hla|Hla]; simpl.
  - (* the last sector is written whole: [p] is before [pos] *)
    unfold buf1, c1. rewrite ?(proj2 (Z.eqb_neq _ _)) by lia. simpl.
    rewrite zget_splice by lia. rewrite decide_True by lia. rewrite Z.sub_0_r, Hg1.
    rewrite decide_True by lia. done.
  - destruct (Z.eqb_spec first last) as [He|He]; simpl.
    + destruct (Z.eqb_spec pos (first * 512)) as [Hfa|Hfa].
      * rewrite zget_splice by lia. rewrite decide_True by lia.
        replace (p - first * 512 - (last - first) * 512) with (p - last * 512) by lia.
        apply Hg2. lia.
      * unfold buf1, c1. rewrite ?(proj2 (Z.eqb_neq _ _)) by lia. simpl.
        rewrite zget_splice by lia. rewrite decide_True by lia. rewrite Z.sub_0_r, Hg1.
        rewrite decide_True by lia. done.
    + rewrite zget_splice by lia. destruct (decide (last * 512 <= p)).
      * rewrite decide_True by lia.
        replace (p - first * 512 - (last - first) * 512) with (p - last * 512) by lia.
        by apply Hg2.
      * rewrite decide_False by lia.
        unfold buf1, c1. rewrite ?(proj2 (Z.eqb_neq _ _)) by lia. simpl.
        rewrite zget_splice by lia. rewrite decide_True by lia. rewrite Z.sub_0_r, Hg1.
        rewrite decide_True by lia. done.
Qed.

(** The optional read of a sector into the buffer. *)
Lemma prefetch_spec d f (c : bool) k off buf :
  hdr_ok (hdr f) -> store_ok d -> 0 <= k -> k * SectorSize + SectorSize < two31 ->
  0 <= off -> off + SectorSize <= zlen buf ->
  exists d', (if c then data ← ReadAt junk f SectorSize (k * SectorSize);
                        lift (bytes_to data buf off)
              else mret buf) d =
      Ok (if c then splice off (slice (k * SectorSize) SectorSize (content d (hdr f))) buf
          else buf, d') /\
    store_ok d' /\ same_sectors d d'.
Proof.
  intros Hh Hd Hk Ho Hoff Hbuf. destruct c; [|exists d; split; [done|split; [done|apply same_sectors_refl]]].
  destruct (ReadAt_spec d f SectorSize (k * SectorSize) Hh Hd) as (d' & Hr & Hd' & Hs).
  { unfold SectorSize. lia. }
  { lia. }
  exists d'. split; [|done]. rewrite (st_bind_Ok _ _ _ _ _ Hr). unfold lift.
  rewrite bytes_to_ok; [done|done|]. rewrite zlen_slice by (unfold SectorSize; lia).
  unfold SectorSize in *. lia.
Qed.

(** The sectors after the write, as a file. *)
Lemma written_content d d' h first last pos m new buf :
  hdr_ok h -> 0 <= first -> first <= last < numSectors h ->
  first * SectorSize <= pos -> pos + m <= (last + 1) * SectorSize -> pos + m <= numBytes h ->
  zlen new = m -> zlen buf = (1 + last - first) * SectorSize ->
  (forall i s, first <= i <= last -> zget (dataSectors h) i = Some s ->
     sector d' s = slice ((i - first) * SectorSize) SectorSize buf) ->
  (forall x, 0 <= x < NumSectors ->
     (forall i, first <= i <= last -> zget (dataSectors h) i <> Some x) ->
     sector d' x = sector d x) ->
  (forall p, first * SectorSize <= p < (last + 1) * SectorSize -> p < numBytes h ->
     zget buf (p - first * SectorSize) =
       if decide (pos <= p < pos + m) then zget new (p - pos) else zget (content d h) p) ->
  content d' h = splice pos new (content d h).
Proof.
  intros Hh Hf Hfl Hp1 Hp2 Hle Hn Hlb Hw Ho Hbuf. pose proof (ho_bytes _ Hh) as Hb.
  pose proof (zlen_content d h Hb) as Hlc. pose proof (zlen_content d' h Hb) as Hlc'.
  pose proof (zlen_nonneg new). unfold SectorSize in *.
  apply zget_ext_range; [rewrite zlen_splice; lia|].
  intros p Hp. rewrite Hlc' in Hp. rewrite zget_splice, Hn by lia.
  pose proof (sector_index h p Hh Hp) as Hi. unfold SectorSize in Hi.
  destruct (used_sector h _ Hh Hi) as (s & Hs & _ & Hr).
  destruct (decide (first <= p / 512 <= last)) as [Hin|Hout].
  - specialize (Hbuf p ltac:(lia_mod) ltac:(lia)). rewrite <-Hbuf.
    rewrite zget_content, decide_True by done. unfold byte_at, SectorSize. rewrite Hs.
    rewrite (Hw _ s Hin Hs). rewrite zget_slice by lia.
    rewrite decide_True by lia_mod.
    replace ((p / 512 - first) * 512 + p mod 512) with (p - first * 512) by lia_mod.
    destruct (zget_is_Some buf (p - first * 512)) as [b ->]; [lia_mod|done].
  - rewrite decide_False by lia_mod. rewrite !zget_content, !decide_True by done.
    f_equal. unfold byte_at, SectorSize. rewrite Hs. rewrite Ho; [done|done|].
    intros i Hi' Hs'. apply Hout.
    rewrite (used_sector_inj h (p / 512) i s Hh Hi ltac:(lia) Hs Hs'). lia.
Qed.

Lemma splice_nil {A} off (l : list A) : splice off [] l = l.
Proof. unfold splice. simpl. by rewrite Nat.add_0_r, take_drop. Qed.

(** [WriteAt] puts the bytes into the file, cut at its end, and touches no
    sector of another file. *)
Lemma WriteAt_spec d f from n pos :
  (forall i, is_byte (junk i)) ->
  hdr_ok (hdr f) -> store_ok d -> 0 <= pos -> pos + n < two31 ->
  let m := Z.max 0 (Z.min n (numBytes (hdr f) - pos)) in
  m <= zlen from -> Forall is_byte from ->
  exists d', WriteAt junk f from n pos d = Ok (m, d') /\ store_ok d' /\
    content d' (hdr f) = splice pos (slice 0 m from) (content d (hdr f)) /\
    forall x, 0 <= x < NumSectors -> x ∉ used_sectors (hdr f) -> sector d' x = sector d x.
Proof.
  intros Hj Hh Hd Hp Ho m Hm Hfrom. pose proof (ho_bytes _ Hh) as Hb.
  pose proof (zlen_content d (hdr f) Hb) as Hlc. unfold WriteAt.
  destruct (Z.leb_spec n 0) as [Hn|Hn]; simpl.
  { exists d. replace m with 0 by lia. rewrite (slice_empty 0 0) by lia. by rewrite splice_nil. }
  unfold FileLength at 1.
  destruct (Z.leb_spec (numBytes (hdr f)) pos) as [Hq|Hq]; simpl.
  { exists d. replace m with 0 by lia. rewrite (slice_empty 0 0) by lia. by rewrite splice_nil. }
  rewrite truncate_eq by (done || lia).
  replace (Z.min n (numBytes (hdr f) - pos)) with m by lia.
  destruct (request_sectors (hdr f) pos m Hh Hp) as (Hf & Hfl & Hpf & Hpl); [lia|lia|].
  assert (m <= n) as Hmn by lia.
  rewrite (to_int_id (pos + m)) by (unfold_int; lia).
  set (first := divRoundDown pos SectorSize) in *.
  set (last := divRoundDown (to_int (pos + m - 1)) SectorSize) in *.
  pose proof (ho_fits _ Hh) as Hfit.
  assert (0 <= (1 + last - first) * SectorSize) as Hpos by (unfold SectorSize; lia).
  pose proof (zlen_new_chars _ Hpos) as Hlb0.
  set (buf0 := new_chars junk _) in *.
  set (c1 := negb (pos =? first * SectorSize)).
  set (c2 := negb (pos + m =? (last + 1) * SectorSize) && _).
  unfold SectorSize, NumDirect, two31 in *.
  destruct (prefetch_spec d f c1 first 0 buf0 Hh Hd) as (d1 & H1 & Hd1 & Hs1);
    unfold SectorSize, two31; try lia.
  rewrite (st_bind_Ok _ _ _ _ _ H1). unfold SectorSize.
  set (buf1 := if c1 then _ else _).
  assert (zlen buf1 = zlen buf0) as Hlb1.
  { unfold buf1. destruct c1; [|done]. apply zlen_splice; rewrite ?zlen_slice by lia; lia. }
  destruct (prefetch_spec d1 f c2 last ((last - first) * 512) buf1 Hh Hd1) as (d2 & H2 & Hd2 & Hs2);
    unfold SectorSize, two31; try lia.
  rewrite (content_same d d1 _ Hh Hs1) in H2. unfold SectorSize in H2.
  rewrite (st_bind_Ok _ _ _ _ _ H2).
  rewrite (lift_bind_Ok _ _ _ _ (bytes_from_ok from 0 m ltac:(lia) ltac:(lia))).
  set (new := slice 0 m from).
  assert (zlen new = m) as Hln by (unfold new; rewrite zlen_slice by lia; lia).
  destruct (assemble_spec (content d (hdr f)) new buf0 first last pos m) as [Hla Hbuf];
    unfold SectorSize; try lia.
  set (buf2 := if c2 then _ else _).
  assert (zlen buf2 = zlen buf0) as Hlb2.
  { unfold buf2. destruct c2; [|done]. rewrite zlen_splice; rewrite ?zlen_slice by lia; lia. }
  rewrite (lift_bind_Ok _ _ _ _ (bytes_to_ok new buf2 (pos - first * 512) ltac:(lia) ltac:(lia))).
  change (splice (pos - first * 512) new buf2) with
    (assemble (content d (hdr f)) new buf0 first last pos m c1 c2).
  destruct (write_sectors_spec d2 (hdr f) first last
    (assemble (content d (hdr f)) new buf0 first last pos m c1 c2)) as (d3 & H3 & Hd3 & Hw3 & Ho3);
    try done.
  { unfold SectorSize in *. etransitivity; [exact Hla|done]. }
  { pose proof (content_bytes d (hdr f) Hh Hd). unfold assemble.
    assert (Forall is_byte buf0).
    { unfold buf0, new_chars. apply Forall_fmap, Forall_forall. intros. apply Hj. }
    assert (Forall is_byte new) by (by apply Forall_slice).
    destruct c1, c2; eauto 10 with nachos. }
  rewrite (st_bind_Ok _ _ _ _ _ H3). exists d3. split; [done|]. split; [done|]. split.
  - pose proof (same_sectors_trans _ _ _ Hs1 Hs2) as Hs12.
    rewrite <-(content_same d d2 _ Hh Hs12).
    apply (written_content d2 d3 (hdr f) first last pos m new
      (assemble (content d (hdr f)) new buf0 first last pos m c1 c2)); try done;
      unfold SectorSize; try lia.
    + etransitivity; [exact Hla|done].
    + intros p Hp' Hpn. rewrite (content_same d d2 _ Hh Hs12). apply Hbuf; [done|lia].
  - intros x Hx Hni. rewrite Ho3.
    + rewrite Hs2, Hs1 by done. done.
    + done.
    + intros i Hi Hs. apply Hni. apply elem_of_zget. exists i.
      destruct (used_sector (hdr f) i Hh) as (s & ? & ? & _); [lia|]. congruence.
Qed.
End specs.

(** ** Properties *)

(** Reading.  For every position and count, [ReadAt] on a file with a
    well-formed header returns the bytes of the file from that position, cut at
    the end of the file (none at or behind the end, none for a count that is
    not positive), and changes no sector; [Read] starts at the seek position
    and moves it by the number of bytes read. *)
Theorem readat_reads_slice {D} `{SectorStoreLaws D} (junk : Z -> Z) (d : D) (f : OpenFile) (n pos : Z) :
  hdr_ok (hdr f) -> store_ok d -> 0 <= pos -> pos + n < two31 ->
  let data := slice pos n (content d (hdr f)) in
  zlen data = Z.max 0 (Z.min n (numBytes (hdr f) - pos)) /\
  exists d', ReadAt junk f n pos d = Ok (data, d') /\ store_ok d' /\ same_sectors d d' /\
    Read junk (Seek f pos) n d = Ok ((data, Seek f (pos + zlen data)), d').
Proof.
  intros Hh Hd Hp Ho data. split.
  - unfold data. rewrite zlen_slice, zlen_content by (done || apply Hh). done.
  - destruct (ReadAt_spec junk d f n pos Hh Hd Hp Ho) as (d' & Hr & Hd' & Hs).
    exists d'. split_and!; try done. unfold Read.
    assert (ReadAt junk (Seek f pos) n (seekPosition (Seek f pos)) d = Ok (data, d')) as Hr' by done.
    by rewrite (st_bind_Ok _ _ _ _ _ Hr').
Qed.

(** Writing.  [WriteAt] of [n] bytes at a position of the file writes as
    many as fit before the end of the file and returns that number; the file
    then holds the new bytes there and its old bytes elsewhere, although whole
    sectors are written and the buffer started with junk; a file that shares no
    data sector with it is unchanged. *)
Theorem writeat_writes_slice {D} `{SectorStoreLaws D} (junk : Z -> Z) (d : D) (f : OpenFile)
    (from : list Z) (n pos : Z) :
  (forall i, is_byte (junk i)) ->
  hdr_ok (hdr f) -> store_ok d -> 0 <= pos -> pos + n < two31 ->
  let m := Z.max 0 (Z.min n (numBytes (hdr f) - pos)) in
  m <= zlen from -> Forall is_byte from ->
  exists d', WriteAt junk f from n pos d = Ok (m, d') /\ store_ok d' /\
    content d' (hdr f) = splice pos (slice 0 m from) (content d (hdr f)) /\
    (forall h, hdr_ok h -> used_sectors h ## used_sectors (hdr f) ->
       content d' h = content d h).
Proof.
  intros Hj Hh Hd Hp Ho m Hm Hf.
  destruct (WriteAt_spec junk d f from n pos Hj Hh Hd Hp Ho Hm Hf) as (d' & Hw & Hd' & Hc & Hs).
  exists d'. split_and!; try done. intros h Hho Hdis. apply content_ext; [done|].
  intros s Hin. apply Hs.
  - apply elem_of_zget in Hin as [i Hi]. exact (Forall_zget _ _ _ _ (ho_range _ Hho) Hi).
  - intros Hin'. exact (Hdis s Hin Hin').
Qed.

(** Write, then read.  Bytes written inside a file are read back from the
    same place, and reading any range before or behind them gives what was
    there before. *)
Theorem write_then_read {D} `{SectorStoreLaws D} (junk : Z -> Z) (d : D) (f : OpenFile)
    (from : list Z) (pos : Z) :
  (forall i, is_byte (junk i)) ->
  hdr_ok (hdr f) -> store_ok d -> 0 <= pos -> pos + zlen from <= numBytes (hdr f) ->
  Forall is_byte from ->
  exists d1, WriteAt junk f from (zlen from) pos d = Ok (zlen from, d1) /\
    (exists d2, ReadAt junk f (zlen from) pos d1 = Ok (from, d2)) /\
    (forall q n, 0 <= q -> q + n < two31 -> q + n <= pos \/ pos + zlen from <= q ->
       exists d2, ReadAt junk f n q d1 = Ok (slice q n (content d (hdr f)), d2)).
Proof.
  intros Hj Hh Hd Hp Hle Hf. pose proof (zlen_nonneg from) as H0.
  pose proof (ho_bytes _ Hh) as Hb. pose proof (zlen_content d (hdr f) Hb) as Hlc.
  pose proof (divRoundUp_spec (numBytes (hdr f)) SectorSize Hb eq_refl) as Hd1.
  rewrite <-(ho_sectors _ Hh) in Hd1. pose proof (ho_fits _ Hh). unfold NumDirect, SectorSize in *.
  destruct (WriteAt_spec junk d f from (zlen from) pos Hj Hh Hd Hp) as (d1 & Hw & Hs1 & Hc & _);
    [unfold two31; lia|lia|done|].
  replace (Z.max 0 (Z.min (zlen from) (numBytes (hdr f) - pos))) with (zlen from) in * by lia.
  rewrite slice_all in Hc. exists d1. split; [done|]. split.
  - destruct (ReadAt_spec junk d1 f (zlen from) pos Hh Hs1 Hp) as (d2 & Hr & _); [unfold two31; lia|].
    exists d2. rewrite Hr, Hc. do 2 f_equal. apply zget_ext_range.
    + rewrite zlen_slice, zlen_splice by lia. lia.
    + intros i Hi. rewrite zlen_slice, zlen_splice in Hi by lia.
      rewrite zget_slice, zget_splice by lia. rewrite !decide_True by lia. f_equal. lia.
  - intros q n Hq Hqn Hout.
    destruct (ReadAt_spec junk d1 f n q Hh Hs1 Hq Hqn) as (d2 & Hr & _).
    exists d2. rewrite Hr, Hc. do 2 f_equal. apply zget_ext_range.
    + rewrite !zlen_slice, zlen_splice by lia. done.
    + intros i Hi. rewrite zlen_slice, zlen_splice in Hi by lia.
      rewrite !zget_slice, zget_splice by lia.
      rewrite (decide_False (P := pos <= q + i < pos + zlen from)) by lia. done.
Qed.

Definition sample_file : OpenFile := mkOpenFile sample_hdr 3 None 0.
Definition blank : gmap.gmap Z (list Z) := ∅.
Lemma blank_ok : store_ok blank.
Proof. apply fin_maps.map_Forall_empty. Qed.

Lemma readat_reads_slice_witness :
  exists d', ReadAt (fun _ => 7) sample_file 20 590 blank =
    Ok (slice 590 20 (content blank sample_hdr), d') /\
    zlen (slice 590 20 (content blank sample_hdr)) = 10.
Proof.
  destruct (readat_reads_slice (fun _ => 7) blank sample_file 20 590) as (Hl & d' & Hr & _).
  - exact sample_hdr_ok.
  - exact blank_ok.
  - lia.
  - unfold two31. lia.
  - exists d'. split; [exact Hr|exact Hl].
Defined.

Lemma writeat_writes_slice_witness :
  exists d', WriteAt (fun _ => 7) sample_file [1; 2; 3; 4] 4 598 blank = Ok (2, d') /\
    content d' sample_hdr = splice 598 [1; 2] (content blank sample_hdr).
Proof.
  destruct (writeat_writes_slice (fun _ => 7) blank sample_file [1; 2; 3; 4] 4 598)
    as (d' & Hw & _ & Hc & _).
  - intros i. unfold is_byte. lia.
  - exact sample_hdr_ok.
  - exact blank_ok.
  - lia.
  - unfold two31. lia.
  - vm_compute. discriminate.
  - repeat constructor; unfold is_byte; lia.
  - exists d'. split; [exact Hw|exact Hc].
Defined.

Lemma write_then_read_witness :
  exists d1 d2, WriteAt (fun _ => 7) sample_file [72; 105] 2 511 blank = Ok (2, d1) /\
    ReadAt (fun _ => 7) sample_file 2 511 d1 = Ok ([72; 105], d2).
Proof.
  destruct (write_then_read (fun _ => 7) blank sample_file [72; 105] 511) as (d1 & Hw & [d2 Hr] & _).
  - intros i. unfold is_byte. lia.
  - exact sample_hdr_ok.
  - exact blank_ok.
  - lia.
  - vm_compute. discriminate.
  - repeat constructor; unfold is_byte; lia.
  - exists d1, d2. split; [exact Hw|exact Hr].
Defined.
