(* ===== verification/Directory.v ===== *)
(** * filesys/directory.cc: the directory

    A table of entries (in use, header sector, name of up to 9 characters),
    kept in a file as the image of the array.  A name is a C string: its
    characters followed by a zero byte.  The comparison and the copy look at
    nine characters ([strncmp] and [strncpy] with [FileNameMaxLen]), so the
    directory is a finite map from the first nine characters of a name
    ([key_of]) to a sector; [lookup_dir] is that map, and the theorems give
    every operation on it. *)

From S2P Require Import Prelude Disk FileHdr OpenFile.
From stdpp Require Import list list_numbers sets.
#[local] Open Scope Z_scope.

Definition FileNameMaxLen : Z := 9.

(** The bytes between the fields are part of the image (i386 layout). *)
Record DirectoryEntry := mkDirectoryEntry {
  inUse : bool;
  pad1 : list Z;
  sector_ : Z;
  name : list Z;
  pad2 : list Z
}.
Definition DirectoryEntrySize : Z := 20.

Record Directory := mkDirectory {
  tableSize : Z;
  table : list DirectoryEntry
}.

(** ** C strings *)

(** [strncmp(a, b, n) == 0] *)
Fixpoint strncmp_eq (n : nat) (a b : list Z) : res bool :=
  match n with
  | O => Ok true
  | S n' =>
      match a, b with
      | x :: a', y :: b' =>
          if x =? y then if x =? 0 then Ok true else strncmp_eq n' a' b' else Ok false
      | _, _ => UB
      end
  end.

(** [strncpy(dst, src, n)]: stops at the zero of [src], pads with zeros *)
Fixpoint strncpy (n : nat) (src dst : list Z) : res (list Z) :=
  match n with
  | O => Ok dst
  | S n' =>
      match src, dst with
      | x :: src', _ :: dst' =>
          r ← (if x =? 0 then strncpy n' src dst' else strncpy n' src' dst'); Ok (x :: r)
      | _, _ => UB
      end
  end.

(** The characters [printf("%s")] writes. *)
Fixpoint c_string (a : list Z) : res (list Z) :=
  match a with
  | [] => UB
  | x :: a' => if x =? 0 then Ok [] else r ← c_string a'; Ok (x :: r)
  end.

(** A C string: no zero before its end. *)
Definition is_name (s : list Z) : Prop := Forall (fun c => 0 < c < 256) s.
(** The array that holds the string. *)
Definition c_str (s : list Z) : list Z := s ++ [0].
(** The characters that count. *)
Definition key_of (s : list Z) : list Z := take 9 s.

(** ** The operations *)

(** [new DirectoryEntry[size]] leaves the entries as they were in memory. *)
Definition new_Directory (junk : list DirectoryEntry) (size : Z) : res Directory :=
  t ← for_range 0 size
    (fun i t =>
       e ← rd t i;
       wr t i (mkDirectoryEntry false (pad1 e) (sector_ e) (name e) (pad2 e))) junk;
  Ok (mkDirectory size t).

Fixpoint find_index_loop (n : nat) (i : Z) (t : list DirectoryEntry) (nm : list Z) : res Z :=
  match n with
  | O => Ok (-1)
  | S n' =>
      e ← rd t i;
      if inUse e then
        b ← strncmp_eq 9 (name e) nm;
        if (b : bool) then Ok i else find_index_loop n' (i + 1) t nm
      else find_index_loop n' (i + 1) t nm
  end.
Definition FindIndex (d : Directory) (nm : list Z) : res Z :=
  find_index_loop (Z.to_nat (tableSize d)) 0 (table d) nm.

Definition dir_Find (d : Directory) (nm : list Z) : res Z :=
  i ← FindIndex d nm;
  if negb (i =? -1) then e ← rd (table d) i; Ok (sector_ e) else Ok (-1).

Fixpoint add_loop (n : nat) (i : Z) (t : list DirectoryEntry) (nm : list Z) (newSector : Z)
  : res (bool * list DirectoryEntry) :=
  match n with
  | O => Ok (false, t)
  | S n' =>
      e ← rd t i;
      if negb (inUse e) then
        nm' ← strncpy 9 nm (name e);
        t ← wr t i (mkDirectoryEntry true (pad1 e) newSector nm' (pad2 e));
        Ok (true, t)
      else add_loop n' (i + 1) t nm newSector
  end.
Definition Add (d : Directory) (nm : list Z) (newSector : Z) : res (bool * Directory) :=
  i ← FindIndex d nm;
  if negb (i =? -1) then Ok (false, d)
  else
    '(b, t) ← add_loop (Z.to_nat (tableSize d)) 0 (table d) nm newSector;
    Ok (b, mkDirectory (tableSize d) t).

Definition dir_Remove (d : Directory) (nm : list Z) : res (bool * Directory) :=
  i ← FindIndex d nm;
  if i =? -1 then Ok (false, d)
  else
    e ← rd (table d) i;
    t ← wr (table d) i (mkDirectoryEntry false (pad1 e) (sector_ e) (name e) (pad2 e));
    Ok (true, mkDirectory (tableSize d) t).

(** The lines printed by [List]. *)
Definition dir_List (d : Directory) : res (list (list Z)) :=
  for_range 0 (tableSize d)
    (fun i out =>
       e ← rd (table d) i;
       if inUse e then s ← c_string (name e); Ok (out ++ [s]) else Ok out) [].

(** ** The image in the file *)

Definition encode_entry (e : DirectoryEntry) : list Z :=
  (if inUse e then 1 else 0) :: pad1 e ++ le32 (sector_ e) ++ name e ++ pad2 e.
Definition decode_entry (bs : list Z) : res DirectoryEntry :=
  match bs with
  | b :: p0 :: p1 :: p2 :: s0 :: s1 :: s2 :: s3 ::
    c0 :: c1 :: c2 :: c3 :: c4 :: c5 :: c6 :: c7 :: c8 :: c9 :: q0 :: q1 :: _ =>
      Ok (mkDirectoryEntry (negb (b =? 0)) [p0; p1; p2]
            (to_int (le_value [s0; s1; s2; s3]))
            [c0; c1; c2; c3; c4; c5; c6; c7; c8; c9] [q0; q1])
  | _ => UB
  end.
Definition encode_table (t : list DirectoryEntry) : list Z := t ≫= encode_entry.
Fixpoint decode_table (n : nat) (bs : list Z) : res (list DirectoryEntry) :=
  match n with
  | O => Ok []
  | S n' =>
      e ← decode_entry bs;
      t ← decode_table n' (drop 20 bs);
      Ok (e :: t)
  end.

Section file.
Context {D : Type} `{SectorStore D}.
Context (junk : Z -> Z).

(** The bytes read replace the front of the table. *)
Definition dir_FetchFrom (d : Directory) (f : OpenFile) : st D Directory :=
  data ← ReadAt junk f (tableSize d * DirectoryEntrySize) 0;
  t ← lift (bytes_to data (encode_table (table d)) 0 ≫=
            decode_table (Z.to_nat (tableSize d)));
  mret (mkDirectory (tableSize d) t).
Definition dir_WriteBack (d : Directory) (f : OpenFile) : st D unit :=
  WriteAt junk f (encode_table (table d)) (tableSize d * DirectoryEntrySize) 0;; mret tt.
End file.

(** ** The directory as a map *)

(** The characters of an entry that count. *)
Fixpoint until_zero (n : nat) (a : list Z) : list Z :=
  match n, a with
  | S n', x :: a' => if x =? 0 then [] else x :: until_zero n' a'
  | _, _ => []
  end.
Definition entry_key (e : DirectoryEntry) : list Z := until_zero 9 (name e).

Fixpoint lookup_dir (t : list DirectoryEntry) (k : list Z) : option Z :=
  match t with
  | [] => None
  | e :: t' =>
      if decide (inUse e = true /\ entry_key e = k) then Some (sector_ e) else lookup_dir t' k
  end.

Record entry_ok (e : DirectoryEntry) : Prop := {
  eo_pad1 : length (pad1 e) = 3%nat;
  eo_name : length (name e) = 10%nat;
  eo_pad2 : length (pad2 e) = 2%nat;
  eo_int : is_int (sector_ e);
  eo_bytes : Forall is_byte (pad1 e ++ name e ++ pad2 e)
}.

(** Keys of the entries in use. *)
Definition keys (t : list DirectoryEntry) : list (list Z) :=
  entry_key <$> filter (fun e => inUse e = true) t.

Record dir_ok (d : Directory) : Prop := {
  do_size : zlen (table d) = tableSize d;
  do_entries : Forall entry_ok (table d);
  do_keys : NoDup (keys (table d))
}.

(** ** String lemmas *)

Lemma strncmp_spec n : forall a s,
  (n <= length a)%nat -> is_name s ->
  strncmp_eq n a (c_str s) = Ok (bool_decide (until_zero n a = take n s)).
Proof.
  induction n as [|n IH]; intros a s Hl Hs; [done|].
  destruct a as [|x a]; simpl in Hl; [lia|]. destruct s as [|y s]; simpl.
  - destruct (Z.eqb_spec x 0) as [->|]; [done|]. done.
  - apply Forall_cons in Hs as [Hy Hs]. destruct (Z.eqb_spec x y) as [->|Hne].
    + destruct (Z.eqb_spec y 0); [lia|]. fold (c_str s). rewrite IH by (done || lia).
      f_equal. apply bool_decide_ext. split; [by intros ->|by intros [=]].
    + destruct (Z.eqb_spec x 0); [by rewrite bool_decide_false|].
      rewrite bool_decide_false; [done|]. intros [=]. done.
Qed.

Lemma strncpy_spec n : forall s dst,
  (n <= length dst)%nat -> is_name s ->
  exists r, strncpy n (c_str s) dst = Ok r /\ length r = length dst /\
    until_zero n r = take n s /\ (Forall is_byte dst -> Forall is_byte r).
Proof.
  induction n as [|n IH]; intros s dst Hl Hs; [by exists dst|].
  destruct dst as [|z dst]; simpl in Hl; [lia|]. destruct s as [|y s]; simpl.
  - destruct (IH [] dst) as (r & Hr & Hlr & _ & Hb); [lia|done|]. simpl in Hr. rewrite Hr. simpl.
    eexists. split; [done|]. split; [by rewrite <-Hlr|]. split; [done|].
    intros [_ Hd]%Forall_cons. constructor; [unfold is_byte; lia|auto].
  - apply Forall_cons in Hs as [Hy Hs]. destruct (Z.eqb_spec y 0); [lia|].
    fold (c_str s). destruct (IH s dst) as (r & -> & Hlr & Hu & Hb); [lia|done|]. simpl.
    eexists. split; [done|]. split; [by rewrite <-Hlr|]. rewrite (proj2 (Z.eqb_neq _ _)) by lia.
    split; [by rewrite Hu|]. intros [_ Hd]%Forall_cons. constructor; [unfold is_byte; lia|auto].
Qed.

(** ** Searching the table *)

(** The entry that holds key [k]. *)
Definition holds (k : list Z) (e : DirectoryEntry) : Prop := inUse e = true /\ entry_key e = k.
#[export] Instance holds_dec k e : Decision (holds k e).
Proof. unfold holds. apply _. Defined.

Lemma lookup_dir_find t k : lookup_dir t k = (fun x => sector_ x.2) <$> list_find (holds k) t.
Proof.
  induction t as [|e t IH]; [done|]. simpl. unfold holds at 1. destruct (decide _); [done|].
  rewrite IH. destruct (list_find _ t) as [[]|]; done.
Qed.

Lemma rd_app_head {A} (t1 t2 : list A) e : rd (t1 ++ e :: t2) (zlen t1) = Ok e.
Proof.
  apply rd_Ok. unfold zlen. rewrite zget_nat. by rewrite lookup_app_r, Nat.sub_diag by lia.
Qed.

Lemma find_index_loop_spec s : forall t2 t1,
  is_name s -> Forall entry_ok t2 ->
  find_index_loop (length t2) (zlen t1) (t1 ++ t2) (c_str s) =
    Ok (match list_find (holds (key_of s)) t2 with
        | Some (j, _) => zlen t1 + Z.of_nat j
        | None => -1
        end).
Proof.
  induction t2 as [|e t2 IH]; intros t1 Hs Ho; [done|]. cbn [length find_index_loop].
  rewrite rd_app_head. cbn [mbind res_bind list_find]. apply Forall_cons in Ho as [He Ho].
  specialize (IH (t1 ++ [e]) Hs Ho). rewrite <-app_assoc in IH. cbn [app] in IH.
  replace (zlen (t1 ++ [e])) with (zlen t1 + 1) in IH by (rewrite zlen_app; done).
  assert (forall k : option (nat * DirectoryEntry),
    match prod_map S id <$> k with Some (j, _) => zlen t1 + Z.of_nat j | None => -1 end =
    match k with Some (j, _) => zlen t1 + 1 + Z.of_nat j | None => -1 end) as Hk.
  { intros [[j x]|]; simpl; [lia|done]. }
  destruct (decide (holds (key_of s) e)) as [[Hu Hkey]|Hn].
  - rewrite Hu. rewrite strncmp_spec by (destruct He; done || lia). cbn [mbind res_bind].
    fold (entry_key e). unfold key_of in Hkey. rewrite bool_decide_true by done. f_equal. lia.
  - rewrite Hk. destruct (inUse e) eqn:Hu; [|by rewrite IH].
    rewrite strncmp_spec by (destruct He; done || lia). cbn [mbind res_bind].
    fold (entry_key e). rewrite bool_decide_false; [by rewrite IH|].
    intros Heq. apply Hn. done.
Qed.

Lemma FindIndex_spec d s :
  dir_ok d -> is_name s ->
  FindIndex d (c_str s) = Ok (match list_find (holds (key_of s)) (table d) with
                              | Some (j, _) => Z.of_nat j
                              | None => -1
                              end).
Proof.
  intros [Hsz Ho _] Hs. unfold FindIndex. rewrite <-Hsz. unfold zlen at 1. rewrite Nat2Z.id.
  exact (find_index_loop_spec s (table d) [] Hs Ho).
Qed.

Lemma dir_Find_spec d s :
  dir_ok d -> is_name s ->
  dir_Find d (c_str s) = Ok (default (-1) (lookup_dir (table d) (key_of s))).
Proof.
  intros Hd Hs. unfold dir_Find. rewrite FindIndex_spec by done. cbn [mbind res_bind].
  rewrite lookup_dir_find. destruct (list_find _ _) as [[j e]|] eqn:E; [|done].
  apply list_find_Some in E as (Hj & _ & _). rewrite (proj2 (Z.eqb_neq _ _)) by lia.
  cbn [negb]. unfold rd. by rewrite zget_nat, Hj.
Qed.

(** ** Changing one entry *)

Lemma keys_insert_free t j e e' :
  t !! j = Some e -> inUse e = false -> inUse e' = true ->
  keys (<[j := e']> t) ≡ₚ entry_key e' :: keys t.
Proof.
  intros Hj Hu Hu'. unfold keys. rewrite insert_take_drop by (by eapply lookup_lt_Some).
  rewrite <-(take_drop_middle t j e Hj) at 3.
  rewrite !filter_app, filter_cons_True, filter_cons_False by congruence.
  rewrite !fmap_app. simpl. by rewrite <-Permutation_middle.
Qed.

Lemma keys_insert_used t j e e' :
  t !! j = Some e -> inUse e = true -> inUse e' = false ->
  entry_key e :: keys (<[j := e']> t) ≡ₚ keys t.
Proof.
  intros Hj Hu Hu'. unfold keys. rewrite insert_take_drop by (by eapply lookup_lt_Some).
  rewrite <-(take_drop_middle t j e Hj) at 3.
  rewrite !filter_app, filter_cons_False, filter_cons_True by congruence.
  rewrite !fmap_app. simpl. by rewrite <-Permutation_middle.
Qed.

Lemma lookup_dir_keys t k : is_Some (lookup_dir t k) <-> k ∈ keys t.
Proof.
  unfold keys. induction t as [|e t IH]; simpl; [rewrite elem_of_nil; split; [by intros []|done]|].
  rewrite filter_cons. destruct (decide (inUse e = true /\ entry_key e = k)) as [[Hu <-]|Hn].
  - rewrite decide_True by done. simpl. split; [set_solver|by eexists].
  - rewrite IH. destruct (decide (inUse e = true)) as [Hu|Hu]; [|done].
    simpl. rewrite elem_of_cons. split; [by right|]. intros [->|?]; [|done]. by destruct Hn.
Qed.

Lemma lookup_dir_add t : forall j e e' k,
  t !! j = Some e -> inUse e = false -> inUse e' = true -> entry_key e' ∉ keys t ->
  lookup_dir (<[j := e']> t) k =
    if decide (k = entry_key e') then Some (sector_ e') else lookup_dir t k.
Proof.
  induction t as [|x t IH]; intros [|j] e e' k Hj Hu Hu' Hni; try done.
  - simpl in *. injection Hj as ->. rewrite (decide_False (P := inUse e = true /\ entry_key e = k)) by (intros [? _]; congruence).
    destruct (decide (k = entry_key e')) as [->|]; [by rewrite decide_True|].
    rewrite decide_False by (intros [_ ?]; congruence). done.
  - simpl in *. unfold keys in *. rewrite filter_cons in Hni.
    rewrite (IH j e e' k) by (done || (destruct (decide (inUse x = true)); set_solver)).
    destruct (decide (inUse x = true /\ entry_key x = k)) as [[Hux <-]|]; [|done].
    rewrite decide_False; [done|]. intros Heq. apply Hni. rewrite decide_True by done.
    simpl. rewrite Heq. set_solver.
Qed.

Lemma lookup_dir_remove t : forall j e e' k,
  t !! j = Some e -> inUse e = true -> inUse e' = false -> NoDup (keys t) ->
  lookup_dir (<[j := e']> t) k =
    if decide (k = entry_key e) then None else lookup_dir t k.
Proof.
  induction t as [|x t IH]; intros [|j] e e' k Hj Hu Hu' Hnd; try done.
  - simpl in *. injection Hj as ->. rewrite (decide_False (P := inUse e' = true /\ entry_key e' = k)) by (intros [? _]; congruence).
    destruct (decide (k = entry_key e)) as [->|].
    + unfold keys in Hnd. rewrite filter_cons_True in Hnd by done.
      apply NoDup_cons in Hnd as [Hni _].
      destruct (lookup_dir t (entry_key e)) eqn:E; [|done].
      exfalso. apply Hni, (lookup_dir_keys t). by eexists.
    + rewrite decide_False by (intros [_ ?]; congruence). done.
  - simpl in *. unfold keys in *. rewrite filter_cons in Hnd.
    assert (entry_key e ∈ keys t) as Hin.
    { unfold keys. apply list_elem_of_fmap. exists e. split; [done|].
      apply list_elem_of_filter. split; [done|]. by eapply list_elem_of_lookup_2. }
    destruct (decide (inUse x = true)) as [Hux|Hux]; simpl in Hnd.
    + apply NoDup_cons in Hnd as [Hni Hnd]. rewrite (IH j e e' k) by done.
      destruct (decide (inUse x = true /\ entry_key x = k)) as [[_ <-]|]; [|done].
      rewrite decide_False; [done|]. intros Heq. apply Hni. by rewrite Heq.
    + rewrite (IH j e e' k) by done.
      by repeat case_decide; destruct_and?.
Qed.

(** ** Adding and removing *)

(** The first entry that is not in use. *)
Definition free_entry (e : DirectoryEntry) : Prop := inUse e = false.
#[export] Instance free_entry_dec e : Decision (free_entry e).
Proof. unfold free_entry. apply _. Defined.

Lemma wr_app_head {A} (t1 t2 : list A) e e' :
  wr (t1 ++ e :: t2) (zlen t1) e' = Ok (<[length t1 := e']> (t1 ++ e :: t2)).
Proof.
  unfold wr, zlen. rewrite zget_nat, lookup_app_r, Nat.sub_diag by lia. simpl.
  unfold zset. rewrite decide_True by lia. by rewrite Nat2Z.id.
Qed.

Lemma add_loop_spec s sec : forall t2 t1,
  is_name s -> Forall entry_ok t2 -> is_int sec ->
  match list_find free_entry t2 with
  | None => add_loop (length t2) (zlen t1) (t1 ++ t2) (c_str s) sec = Ok (false, t1 ++ t2)
  | Some (j, e) => exists e',
      add_loop (length t2) (zlen t1) (t1 ++ t2) (c_str s) sec =
        Ok (true, <[(length t1 + j)%nat := e']> (t1 ++ t2)) /\
      entry_ok e' /\ inUse e' = true /\ entry_key e' = key_of s /\ sector_ e' = sec
  end.
Proof.
  induction t2 as [|e t2 IH]; intros t1 Hs Ho Hsec; [done|]. cbn [length add_loop list_find].
  rewrite rd_app_head. cbn [mbind res_bind]. apply Forall_cons in Ho as [He Ho].
  destruct (decide (free_entry e)) as [Hf|Hf].
  - rewrite Hf. cbn [negb]. destruct He as [H1 H2 H3 H4 H5].
    destruct (strncpy_spec 9 s (name e)) as (r & Hr & Hl & Hk & Hb); [lia|done|].
    rewrite Hr. cbn [mbind res_bind]. rewrite wr_app_head. cbn [mbind res_bind].
    eexists. rewrite Nat.add_0_r. split; [done|].
    apply Forall_app in H5 as [Hb1 [Hb2 Hb3]%Forall_app].
    split_and!; try done. split; simpl; try done; [lia|].
    apply Forall_app. split; [done|]. apply Forall_app. split; [by apply Hb|done].
  - assert (inUse e = true) as Hu by (unfold free_entry in Hf; by destruct (inUse e)).
    rewrite Hu. cbn [negb]. specialize (IH (t1 ++ [e]) Hs Ho Hsec).
    rewrite <-app_assoc in IH. cbn [app] in IH.
    replace (zlen (t1 ++ [e])) with (zlen t1 + 1) in IH by (rewrite zlen_app; done).
    destruct (list_find free_entry t2) as [[j x]|]; simpl; [|done].
    destruct IH as (e' & -> & H'). exists e'. split; [|done]. rewrite length_app. simpl.
    by replace (length t1 + 1 + j)%nat with (length t1 + S j)%nat by lia.
Qed.

(** [Add] on the map: no change when the key is there or the table is full. *)
Lemma Add_spec d s sec :
  dir_ok d -> is_name s -> is_int sec ->
  if decide (is_Some (lookup_dir (table d) (key_of s)) \/
             Forall (fun e => inUse e = true) (table d))
  then Add d (c_str s) sec = Ok (false, d)
  else exists d', Add d (c_str s) sec = Ok (true, d') /\ dir_ok d' /\
    tableSize d' = tableSize d /\
    forall k, lookup_dir (table d') k =
      if decide (k = key_of s) then Some sec else lookup_dir (table d) k.
Proof.
  intros Hd Hs Hsec. pose proof Hd as [Hsz Ho Hk]. unfold Add.
  rewrite FindIndex_spec by done. cbn [mbind res_bind]. rewrite lookup_dir_find.
  destruct (list_find (holds (key_of s)) (table d)) as [[j e]|] eqn:E.
  { rewrite decide_True by (left; by eexists). by rewrite (proj2 (Z.eqb_neq _ _)) by lia. }
  change (-1 =? -1) with true. cbn [negb].
  assert (key_of s ∉ keys (table d)) as Hnk.
  { rewrite <-lookup_dir_keys, lookup_dir_find, E. by intros []. }
  pose proof (add_loop_spec s sec (table d) [] Hs Ho Hsec) as Ha. simpl in Ha.
  assert (Z.to_nat (tableSize d) = length (table d)) as -> by (unfold zlen in Hsz; lia).
  destruct (list_find free_entry (table d)) as [[j e]|] eqn:Ef.
  - apply list_find_Some in Ef as (Hj & Hf & _). rewrite decide_False.
    + destruct Ha as (e' & Hal & He' & Hu' & Hk' & Hs').
      change 0 with (zlen (@nil DirectoryEntry)). rewrite Hal. cbn [mbind res_bind].
      eexists. split; [done|]. cbn [table tableSize]. split_and!.
      * split; simpl.
        -- unfold zlen in *. by rewrite length_insert.
        -- by apply Forall_insert.
        -- rewrite (keys_insert_free _ _ e e') by done. apply NoDup_cons.
           split; [by rewrite Hk'|done].
      * done.
      * intros k. rewrite (lookup_dir_add _ _ e e') by (done || by rewrite Hk').
        by rewrite Hk', Hs'.
    + intros [[? H]|Hall]; [done|].
      rewrite Forall_forall in Hall. specialize (Hall e (list_elem_of_lookup_2 _ _ _ Hj)).
      unfold free_entry in Hf. congruence.
  - rewrite decide_True.
    + change 0 with (zlen (@nil DirectoryEntry)). rewrite Ha. cbn [mbind res_bind].
      by destruct d; simpl in *; subst.
    + right. apply list_find_None in Ef. eapply Forall_impl; [exact Ef|].
      intros e He. unfold free_entry in He. by destruct (inUse e).
Qed.

Lemma dir_Remove_spec d s :
  dir_ok d -> is_name s ->
  match lookup_dir (table d) (key_of s) with
  | None => dir_Remove d (c_str s) = Ok (false, d)
  | Some _ => exists d', dir_Remove d (c_str s) = Ok (true, d') /\ dir_ok d' /\
      tableSize d' = tableSize d /\
      forall k, lookup_dir (table d') k =
        if decide (k = key_of s) then None else lookup_dir (table d) k
  end.
Proof.
  intros Hd Hs. pose proof Hd as [Hsz Ho Hk]. unfold dir_Remove.
  rewrite FindIndex_spec by done. cbn [mbind res_bind]. rewrite lookup_dir_find.
  destruct (list_find (holds (key_of s)) (table d)) as [[j e]|] eqn:E; [|done].
  apply list_find_Some in E as (Hj & [Hu Hke] & _). cbn [fmap option_fmap option_map].
  rewrite (proj2 (Z.eqb_neq _ _)) by lia.
  unfold rd. rewrite zget_nat, Hj. cbn [mbind res_bind].
  unfold wr. rewrite zget_nat, Hj. cbn [mbind res_bind].
  unfold zset. rewrite decide_True, Nat2Z.id by lia. eexists. split; [done|].
  cbn [table tableSize]. split_and!; [|done|].
  - split; simpl.
    + unfold zlen in *. by rewrite length_insert.
    + apply Forall_insert; [done|]. rewrite Forall_forall in Ho.
      destruct (Ho e (list_elem_of_lookup_2 _ _ _ Hj)). by split.
    + match goal with |- NoDup (keys (<[j := ?e']> _)) =>
        pose proof (keys_insert_used (table d) j e e' Hj Hu eq_refl) as Hp end.
      rewrite <-Hp in Hk. by apply NoDup_cons in Hk as [_ ?].
  - intros k. rewrite (lookup_dir_remove _ _ e) by done. by rewrite Hke.
Qed.

(** ** The image *)

Lemma encode_entry_len e : entry_ok e -> length (encode_entry e) = 20%nat.
Proof. intros [H1 H2 H3 _ _]. unfold encode_entry. rewrite length_cons, !length_app, H1, H2, H3. done. Qed.

Lemma encode_entry_bytes e : entry_ok e -> Forall is_byte (encode_entry e).
Proof.
  intros [_ _ _ _ Hb]. apply Forall_app in Hb as [Hb1 [Hb2 Hb3]%Forall_app].
  unfold encode_entry. constructor; [destruct (inUse e); unfold is_byte; lia|].
  apply Forall_app. split; [done|]. apply Forall_app. split; [apply le32_bytes|].
  apply Forall_app. done.
Qed.

Lemma decode_encode_entry e rest : entry_ok e -> decode_entry (encode_entry e ++ rest) = Ok e.
Proof.
  intros [H1 H2 H3 H4 _]. destruct e as [u p1 s nm p2]. simpl in *.
  destruct p1 as [|? [|? [|? []]]]; try done. destruct p2 as [|? [|? []]]; try done.
  do 11 (destruct nm as [|? nm]; try done).
  unfold encode_entry. cbn [inUse pad1 sector_ name pad2 app decode_entry le32].
  f_equal. f_equal; [by destruct u|].
  change (to_int (le_value (le32 s)) = s).
  rewrite le32_value, to_int_to_uint. by apply to_int_id.
Qed.

Lemma encode_table_len t : Forall entry_ok t -> zlen (encode_table t) = 20 * zlen t.
Proof.
  induction 1 as [|e t He Ht IH]; [done|].
  change (encode_table (e :: t)) with (encode_entry e ++ encode_table t).
  rewrite zlen_app, zlen_cons, IH. unfold zlen at 1. rewrite encode_entry_len by done. lia.
Qed.

Lemma encode_table_bytes t : Forall entry_ok t -> Forall is_byte (encode_table t).
Proof.
  induction 1 as [|e t He Ht IH]; [constructor|].
  change (encode_table (e :: t)) with (encode_entry e ++ encode_table t).
  apply Forall_app. split; [by apply encode_entry_bytes|done].
Qed.

Lemma decode_encode_table t rest :
  Forall entry_ok t -> decode_table (length t) (encode_table t ++ rest) = Ok t.
Proof.
  induction 1 as [|e t He Ht IH]; [done|].
  change (encode_table (e :: t)) with (encode_entry e ++ encode_table t).
  rewrite <-app_assoc. cbn [length decode_table]. rewrite decode_encode_entry by done.
  cbn [mbind res_bind]. rewrite drop_app_length' by (by rewrite encode_entry_len).
  rewrite IH. done.
Qed.

Section image.
Context {D : Type} `{SectorStoreLaws D}.
Context (junk : Z -> Z).
Implicit Types (d : D) (f : OpenFile).

(** The directory file holds the image of [t]. *)
Definition holds_table d f (t : list DirectoryEntry) : Prop :=
  slice 0 (20 * zlen t) (content d (hdr f)) = encode_table t.

Lemma dir_FetchFrom_spec d f dir t :
  hdr_ok (hdr f) -> store_ok d -> 20 * tableSize dir < two31 ->
  zlen (table dir) = tableSize dir -> Forall entry_ok (table dir) ->
  zlen t = tableSize dir -> Forall entry_ok t -> holds_table d f t ->
  exists d', dir_FetchFrom junk dir f d = Ok (mkDirectory (tableSize dir) t, d') /\
    store_ok d' /\ same_sectors d d'.
Proof.
  intros Hh Hd Hsz Hl0 Ho0 Hl Ho Ht. unfold dir_FetchFrom, DirectoryEntrySize.
  destruct (ReadAt_spec junk d f (tableSize dir * 20) 0 Hh Hd) as (d' & Hr & Hd' & Hs);
    [lia|lia|].
  exists d'. split; [|done]. rewrite (st_bind_Ok _ _ _ _ _ Hr).
  replace (tableSize dir * 20) with (20 * zlen t) by lia.
  unfold holds_table in Ht. rewrite Ht.
  pose proof (encode_table_len _ Ho0) as E0. pose proof (encode_table_len _ Ho) as E1.
  rewrite bytes_to_ok by lia. cbn [mbind res_bind].
  assert (splice 0 (encode_table t) (encode_table (table dir)) = encode_table t ++ []) as ->.
  { rewrite app_nil_r. apply zget_ext_range; [rewrite zlen_splice by lia; lia|].
    intros i Hi. rewrite zlen_splice in Hi by lia. rewrite zget_splice by lia.
    rewrite decide_True by lia. f_equal. lia. }
  replace (Z.to_nat (tableSize dir)) with (length t) by (unfold zlen in Hl; lia).
  rewrite (lift_bind_Ok _ _ _ t); [done|]. by apply decode_encode_table.
Qed.

Lemma dir_WriteBack_spec d f dir :
  (forall i, is_byte (junk i)) ->
  hdr_ok (hdr f) -> store_ok d -> 20 * tableSize dir <= numBytes (hdr f) ->
  dir_ok dir ->
  exists d', dir_WriteBack junk dir f d = Ok (tt, d') /\ store_ok d' /\
    holds_table d' f (table dir) /\
    forall x, 0 <= x < NumSectors -> x ∉ used_sectors (hdr f) -> sector d' x = sector d x.
Proof.
  intros Hj Hh Hd Hsz [Hl Ho Hk]. unfold dir_WriteBack, DirectoryEntrySize.
  pose proof (zlen_nonneg (table dir)) as H0.
  pose proof (encode_table_len _ Ho) as El. pose proof (ho_bytes _ Hh) as Hb.
  pose proof (divRoundUp_spec (numBytes (hdr f)) SectorSize Hb eq_refl) as Hd1.
  rewrite <-(ho_sectors _ Hh) in Hd1. pose proof (ho_fits _ Hh). unfold NumDirect, SectorSize in *.
  destruct (WriteAt_spec junk d f (encode_table (table dir)) (tableSize dir * 20) 0)
    as (d' & Hw & Hd' & Hc & Hs); try done; [unfold two31; lia|lia|by apply encode_table_bytes|].
  exists d'. rewrite (st_bind_Ok _ _ _ _ _ Hw). split_and!; try done.
  unfold holds_table. rewrite Hc.
  replace (Z.max 0 (Z.min (tableSize dir * 20) (numBytes (hdr f) - 0)))
    with (zlen (encode_table (table dir))) by lia.
  rewrite slice_all, <-El. pose proof (zlen_content d (hdr f) Hb).
  apply zget_ext_range; [rewrite zlen_slice, zlen_splice by lia; lia|].
  intros i Hi. rewrite zlen_slice, zlen_splice in Hi by lia.
  rewrite zget_slice, zget_splice by lia. rewrite !decide_True by lia. f_equal. lia.
Qed.
End image.

(** ** Properties *)

(** The directory is a finite map of bounded size.  On a well-formed
    directory and any name, [Find] returns the sector stored for the first
    nine characters of the name, or -1; [Add] fails and changes nothing when
    the key is present or every entry is in use, and otherwise adds exactly
    that binding; [Remove] fails when the key is absent and otherwise removes
    exactly that binding; the directory stays well formed, with distinct keys. *)
Theorem directory_is_map (d : Directory) (s : list Z) (sec : Z) :
  dir_ok d -> is_name s -> is_int sec ->
  dir_Find d (c_str s) = Ok (default (-1) (lookup_dir (table d) (key_of s))) /\
  (if decide (is_Some (lookup_dir (table d) (key_of s)) \/
              Forall (fun e => inUse e = true) (table d))
   then Add d (c_str s) sec = Ok (false, d)
   else exists d', Add d (c_str s) sec = Ok (true, d') /\ dir_ok d' /\
     forall k, lookup_dir (table d') k =
       if decide (k = key_of s) then Some sec else lookup_dir (table d) k) /\
  match lookup_dir (table d) (key_of s) with
  | None => dir_Remove d (c_str s) = Ok (false, d)
  | Some _ => exists d', dir_Remove d (c_str s) = Ok (true, d') /\ dir_ok d' /\
      forall k, lookup_dir (table d') k =
        if decide (k = key_of s) then None else lookup_dir (table d) k
  end.
Proof.
  intros Hd Hs Hsec. split; [by apply dir_Find_spec|]. split.
  - pose proof (Add_spec d s sec Hd Hs Hsec) as Ha. destruct (decide _); [done|].
    destruct Ha as (d' & ? & ? & _ & ?). eauto.
  - pose proof (dir_Remove_spec d s Hd Hs) as Hr. destruct (lookup_dir _ _); [|done].
    destruct Hr as (d' & ? & ? & _ & ?). eauto.
Qed.

(** A directory of two entries: the file "ab" in sector 7, and a free entry. *)
Definition sample_entry : DirectoryEntry :=
  mkDirectoryEntry true [0; 0; 0] 7 [97; 98; 0; 0; 0; 0; 0; 0; 0; 0] [0; 0].
Definition free_sample : DirectoryEntry :=
  mkDirectoryEntry false [1; 2; 3] 55 [120; 120; 120; 120; 120; 120; 120; 120; 120; 120] [9; 9].
Definition sample_dir : Directory := mkDirectory 2 [sample_entry; free_sample].
Lemma sample_entries_ok : Forall entry_ok [sample_entry; free_sample].
Proof.
  apply Forall_cons. split; [|apply Forall_cons; split; [|by apply Forall_nil]];
    (split; [reflexivity|reflexivity|reflexivity|unfold_int; simpl; lia|]);
    simpl; repeat (apply Forall_cons; split; [unfold_int; lia|]); by apply Forall_nil.
Qed.
Lemma sample_dir_ok : dir_ok sample_dir.
Proof.
  split; [reflexivity|exact sample_entries_ok|]. apply NoDup_singleton.
Qed.

Lemma directory_is_map_witness :
  dir_Find sample_dir (c_str [97; 98]) = Ok 7 /\
  exists d', Add sample_dir (c_str [99]) 12 = Ok (true, d') /\
    lookup_dir (table d') [99] = Some 12 /\ lookup_dir (table d') [97; 98] = Some 7.
Proof.
  split; [reflexivity|].
  destruct (directory_is_map sample_dir [99] 12) as (_ & Ha & _).
  - exact sample_dir_ok.
  - repeat constructor; lia.
  - unfold_int. lia.
  - rewrite decide_False in Ha.
    + destruct Ha as (d' & Ha & _ & Hl). exists d'. split; [exact Ha|]. rewrite !Hl.
      split; reflexivity.
    + intros [[x Hx]|Hall]; [vm_compute in Hx; discriminate Hx|].
      apply Forall_cons in Hall as [_ Hall]. apply Forall_cons in Hall as [Hf _]. discriminate Hf.
Defined.

(** The directory file.  A directory written back to a file that is long
    enough and fetched into a table of the same size, whatever that table
    held, comes back entry by entry. *)
Theorem directory_roundtrip {D} `{SectorStoreLaws D} (junk : Z -> Z) (d : D) (f : OpenFile)
    (dir dir0 : Directory) :
  (forall i, is_byte (junk i)) -> hdr_ok (hdr f) -> store_ok d ->
  dir_ok dir -> 20 * tableSize dir <= numBytes (hdr f) ->
  tableSize dir0 = tableSize dir -> zlen (table dir0) = tableSize dir ->
  Forall entry_ok (table dir0) ->
  exists d1 d2, dir_WriteBack junk dir f d = Ok (tt, d1) /\
    dir_FetchFrom junk dir0 f d1 = Ok (dir, d2).
Proof.
  intros Hj Hh Hd Hdir Hle Hs0 Hl0 Ho0.
  destruct (dir_WriteBack_spec junk d f dir Hj Hh Hd Hle Hdir) as (d1 & Hw & Hd1 & Ht & _).
  pose proof Hdir as [Hl Ho _]. pose proof (zlen_nonneg (table dir)) as H0.
  pose proof (divRoundUp_spec _ SectorSize (ho_bytes _ Hh) eq_refl) as Hd2.
  rewrite <-(ho_sectors _ Hh) in Hd2. pose proof (ho_fits _ Hh). unfold NumDirect, SectorSize in *.
  destruct (dir_FetchFrom_spec junk d1 f dir0 (table dir)) as (d2 & Hf & _);
    try done; try lia; [unfold two31; lia|].
  exists d1, d2. split; [done|]. rewrite Hf, Hs0. by destruct dir.
Qed.

Lemma directory_roundtrip_witness :
  exists d1 d2, dir_WriteBack (fun _ => 7) sample_dir sample_file blank = Ok (tt, d1) /\
    dir_FetchFrom (fun _ => 7) (mkDirectory 2 [free_sample; free_sample]) sample_file d1 =
      Ok (sample_dir, d2).
Proof.
  apply (directory_roundtrip (fun _ => 7) blank sample_file sample_dir
    (mkDirectory 2 [free_sample; free_sample])).
  - intros i. unfold is_byte. lia.
  - exact sample_hdr_ok.
  - exact blank_ok.
  - exact sample_dir_ok.
  - vm_compute. discriminate.
  - reflexivity.
  - reflexivity.
  - pose proof sample_entries_ok as Hs. apply Forall_cons in Hs as [_ Hs].
    apply Forall_cons. split; [|exact Hs]. by apply Forall_cons in Hs as [Hs _].
Defined.

(** A name of nine characters has no room for its end.  [Add] copies nine
    characters and leaves the tenth byte of the entry as it was; when that
    byte is not zero, [List] reads past the name. *)
Theorem nine_characters_unterminated (e : DirectoryEntry) (s : list Z) (sec x : Z) (l : list Z) :
  is_name s -> length s = 9%nat -> inUse e = false ->
  length l = 9%nat -> name e = l ++ [x] -> x <> 0 ->
  exists d', Add (mkDirectory 1 [e]) (c_str s) sec = Ok (true, d') /\ dir_List d' = UB.
Proof.
  intros Hs Hl Hu Hll Hn Hx.
  do 10 (destruct s as [|? s]; try done). do 10 (destruct l as [|? l]; try done).
  repeat (apply Forall_cons in Hs as [? Hs]).
  unfold Add, FindIndex. simpl. rewrite Hu. simpl. rewrite ?Hu. simpl. rewrite Hn.
  simpl. repeat (rewrite (proj2 (Z.eqb_neq _ _)) by lia; simpl).
  eexists. split; [done|]. unfold dir_List, for_range. simpl.
  repeat (rewrite (proj2 (Z.eqb_neq _ _)) by lia; simpl). done.
Qed.

Lemma nine_characters_unterminated_witness :
  exists d', Add (mkDirectory 1 [free_sample]) (c_str [97; 98; 99; 100; 101; 102; 103; 104; 105]) 12 =
    Ok (true, d') /\ dir_List d' = UB.
Proof.
  apply (nine_characters_unterminated free_sample _ 12 120
    [120; 120; 120; 120; 120; 120; 120; 120; 120]); try reflexivity.
  - repeat constructor; lia.
  - discriminate.
Defined.
