(* ===== verification/FileSys.v ===== *)
(** * filesys/filesys.cc: the Nachos file system

    The bit map of free sectors and the directory are themselves files, with
    their headers in sectors 0 and 1.  Every operation fetches them into
    memory, works on the copies and writes back what it changed.  [fs_inv]
    relates the disk to the abstract state: a bit map, a table and a finite
    map from names to files (header sector and header); the theorems give
    formatting, creating, opening, writing and removing on that map.  Memory
    from [new] holds junk: the section variables. *)

From S2P Require Import Prelude BitMap Disk FileHdr OpenFile Directory.
From stdpp Require Import gmap list list_numbers sets.
#[local] Open Scope Z_scope.

Definition FreeMapSector : Z := 0.
Definition DirectorySector : Z := 1.
Definition FreeMapFileSize : Z := Z.quot NumSectors BitsInByte.
Definition NumDirEntries : Z := 10.
Definition DirectoryFileSize : Z := DirectoryEntrySize * NumDirEntries.

Record FileSystem := mkFileSystem {
  freeMapFile : OpenFile;
  directoryFile : OpenFile;
  openFileList : list (option OpenFile)
}.

(** "stdin" and "stdout" *)
Definition stdin_name : list Z := [115; 116; 100; 105; 110].
Definition stdout_name : list Z := [115; 116; 100; 111; 117; 116].

Section ops.
Context {D : Type} `{SectorStore D}.
(** What [new] finds in memory: characters, bit map words, directory
    entries, a file header. *)
Context (junk : Z -> Z) (junk_words : list Z) (junk_entries : list DirectoryEntry)
  (junk_hdr : FileHeader).

(** [BitMap::FetchFrom] and [WriteBack] (userprog/bitmap.cc) *)
Definition map_FetchFrom (m : BitMap) (f : OpenFile) : st D BitMap :=
  data ← ReadAt junk f (numWords m * 4) 0;
  bs ← lift (bytes_to data (bytes_of_ints (BitMap.map m)) 0);
  mret (mkBitMap (numBits m) (numWords m) (uints_of_bytes bs)).
Definition map_WriteBack (m : BitMap) (f : OpenFile) : st D unit :=
  WriteAt junk f (bytes_of_ints (BitMap.map m)) (numWords m * 4) 0;; mret tt.

(** The copies of the directory and of the map an operation works on. *)
Definition fetch_directory (fs : FileSystem) : st D Directory :=
  dir ← lift (new_Directory junk_entries NumDirEntries);
  dir_FetchFrom junk dir (directoryFile fs).
Definition fetch_freeMap (fs : FileSystem) : st D BitMap :=
  m ← lift (new_BitMap junk_words NumSectors);
  map_FetchFrom m (freeMapFile fs).

Definition Create (fs : FileSystem) (nm : list Z) (initialSize : Z) : st D bool :=
  directory ← fetch_directory fs;
  s ← lift (dir_Find directory nm);
  if negb (s =? -1) then mret false
  else
    freeMap ← fetch_freeMap fs;
    '(sec, freeMap) ← lift (Find freeMap);
    if sec =? -1 then mret false
    else
      '(b, directory) ← lift (Directory.Add directory nm sec);
      if negb b then mret false
      else
        '(ok, h, freeMap) ← lift (Allocate junk_hdr freeMap initialSize);
        if negb ok then mret false
        else
          hdr_WriteBack h sec;;
          dir_WriteBack junk directory (directoryFile fs);;
          map_WriteBack freeMap (freeMapFile fs);;
          mret true.

(** [Open(name)] and [Open(name, t)]; [None] is NULL. *)
Definition Open (fs : FileSystem) (nm : list Z) : st D (option OpenFile) :=
  directory ← fetch_directory fs;
  s ← lift (dir_Find directory nm);
  if 0 <=? s then f ← new_OpenFile s; mret (Some f) else mret None.
Definition Open_t (fs : FileSystem) (nm : list Z) (t : Z) : st D (option OpenFile) :=
  directory ← fetch_directory fs;
  s ← lift (dir_Find directory nm);
  if 0 <=? s then f ← new_OpenFile_t s t; mret (Some f) else mret None.

Definition Remove (fs : FileSystem) (nm : list Z) : st D bool :=
  directory ← fetch_directory fs;
  sec ← lift (dir_Find directory nm);
  if sec =? -1 then mret false
  else
    fileHdr ← hdr_FetchFrom sec;
    freeMap ← fetch_freeMap fs;
    freeMap ← lift (Deallocate fileHdr freeMap);
    freeMap ← lift (Clear freeMap sec);
    '(_, directory) ← lift (dir_Remove directory nm);
    map_WriteBack freeMap (freeMapFile fs);;
    dir_WriteBack junk directory (directoryFile fs);;
    mret true.

(** The names [List] prints. *)
Definition fs_List (fs : FileSystem) : st D (list (list Z)) :=
  directory ← fetch_directory fs;
  lift (dir_List directory).

(** ** The table of open files *)

Definition Close (fs : FileSystem) (id : Z) : res (bool * FileSystem) :=
  o ← rd (openFileList fs) id;
  match o with
  | None => Ok (false, fs)
  | Some _ =>
      l ← wr (openFileList fs) id None;
      Ok (true, mkFileSystem (freeMapFile fs) (directoryFile fs) l)
  end.

Fixpoint find_free_block (n : nat) (i : Z) (l : list (option OpenFile)) : res Z :=
  match n with
  | O => Ok (-1)
  | S n' =>
      o ← rd l i;
      match o with None => Ok i | Some _ => find_free_block n' (i + 1) l end
  end.
Definition FindFreeBlock (fs : FileSystem) : res Z :=
  find_free_block 8 2 (openFileList fs).

(** ** The constructor *)

(** An empty file system on the disk: the map, the directory and their
    headers. *)
Definition format_disk : st D (OpenFile * OpenFile) :=
  freeMap ← lift (new_BitMap junk_words NumSectors);
  directory ← lift (new_Directory junk_entries NumDirEntries);
  freeMap ← lift (Mark freeMap FreeMapSector);
  freeMap ← lift (Mark freeMap DirectorySector);
  '(ok, mapHdr, freeMap) ← lift (Allocate junk_hdr freeMap FreeMapFileSize);
  assert_ ok;;
  '(ok, dirHdr, freeMap) ← lift (Allocate junk_hdr freeMap DirectoryFileSize);
  assert_ ok;;
  hdr_WriteBack mapHdr FreeMapSector;;
  hdr_WriteBack dirHdr DirectorySector;;
  freeMapFile ← new_OpenFile FreeMapSector;
  directoryFile ← new_OpenFile DirectorySector;
  map_WriteBack freeMap freeMapFile;;
  dir_WriteBack junk directory directoryFile;;
  mret (freeMapFile, directoryFile).

Definition open_disk : st D (OpenFile * OpenFile) :=
  freeMapFile ← new_OpenFile FreeMapSector;
  directoryFile ← new_OpenFile DirectorySector;
  mret (freeMapFile, directoryFile).

Definition new_FileSystem (format : bool) : st D FileSystem :=
  '(mf, df) ← (if format then format_disk else open_disk);
  let fs := mkFileSystem mf df (replicate 10 None) in
  Create fs (c_str stdin_name) 2;;
  Create fs (c_str stdout_name) 3;;
  f0 ← Open_t fs (c_str stdin_name) 2;
  f1 ← Open_t fs (c_str stdout_name) 3;
  l ← lift (wr (openFileList fs) 0 f0 ≫= fun l => wr l 1 f1);
  mret (mkFileSystem mf df l).
End ops.

(** ** The invariant *)

Abbreviation fmap_t := (gmap (list Z) (Z * FileHeader)).

(** The sectors of a file: header and data. *)
Definition file_sectors (x : Z * FileHeader) : list Z := x.1 :: used_sectors x.2.
(** The sectors of the file system itself. *)
Definition sys_sectors (fs : FileSystem) : list Z :=
  [FreeMapSector; DirectorySector] ++ used_sectors (hdr (freeMapFile fs)) ++
  used_sectors (hdr (directoryFile fs)).
Definition owned (fs : FileSystem) (fm : fmap_t) (s : Z) : Prop :=
  s ∈ sys_sectors fs \/ exists k x, fm !! k = Some x /\ s ∈ file_sectors x.

Section inv.
Context {D : Type} `{SectorStore D}.

Record fs_inv (d : D) (fs : FileSystem) (m : BitMap) (t : list DirectoryEntry)
    (fm : fmap_t) : Prop := {
  fi_store : store_ok d;
  fi_mh : hdr_ok (hdr (freeMapFile fs));
  fi_mh_size : numBytes (hdr (freeMapFile fs)) = FreeMapFileSize;
  fi_mh_sector : decode_hdr (sector d FreeMapSector) = Ok (hdr (freeMapFile fs));
  fi_dh : hdr_ok (hdr (directoryFile fs));
  fi_dh_size : numBytes (hdr (directoryFile fs)) = DirectoryFileSize;
  fi_dh_sector : decode_hdr (sector d DirectorySector) = Ok (hdr (directoryFile fs));
  fi_wf : wf m;
  fi_bitsn : numBits m = NumSectors;
  fi_map : content d (hdr (freeMapFile fs)) = bytes_of_ints (BitMap.map m);
  fi_dir : dir_ok (mkDirectory NumDirEntries t);
  fi_table : holds_table d (directoryFile fs) t;
  fi_lookup : forall k, lookup_dir t k = fst <$> fm !! k;
  fi_file : forall k sec h, fm !! k = Some (sec, h) ->
    0 <= sec < NumSectors /\ decode_hdr (sector d sec) = Ok h /\ hdr_ok h /\
    NoDup (file_sectors (sec, h));
  fi_sys : NoDup (sys_sectors fs);
  fi_sys_files : forall k x s, fm !! k = Some x -> s ∈ file_sectors x -> s ∉ sys_sectors fs;
  fi_files : forall k1 k2 x1 x2 s, fm !! k1 = Some x1 -> fm !! k2 = Some x2 ->
    s ∈ file_sectors x1 -> s ∈ file_sectors x2 -> k1 = k2;
  fi_bits : forall s, 0 <= s < NumSectors -> bit m s = true <-> owned fs fm s
}.
End inv.

(** What [new] finds in memory can be anything of the right type. *)
Record junk_ok (junk : Z -> Z) (junk_words : list Z) (junk_entries : list DirectoryEntry)
    (junk_hdr : FileHeader) : Prop := {
  jo_chars : forall i, is_byte (junk i);
  jo_words_len : zlen junk_words = 32;
  jo_words : Forall is_uint junk_words;
  jo_entries_len : zlen junk_entries = NumDirEntries;
  jo_entries : Forall entry_ok junk_entries;
  jo_hdr : hdr_shape junk_hdr
}.

Section specs.
Context {D : Type} `{SectorStoreLaws D}.
Context (junk : Z -> Z) (junk_words : list Z) (junk_entries : list DirectoryEntry)
  (junk_hdr : FileHeader).
Context (Hjunk : junk_ok junk junk_words junk_entries junk_hdr).
Implicit Types (d : D) (fs : FileSystem) (m : BitMap) (t : list DirectoryEntry) (fm : fmap_t).

Lemma hdr_sector_range h s : hdr_ok h -> s ∈ used_sectors h -> 0 <= s < NumSectors.
Proof. intros Hh [i Hi]%elem_of_zget. exact (Forall_zget _ _ _ _ (ho_range _ Hh) Hi). Qed.

(** ** Fetching and writing back *)

Lemma fs_inv_same d d' fs m t fm :
  fs_inv d fs m t fm -> store_ok d' -> same_sectors d d' -> fs_inv d' fs m t fm.
Proof.
  intros [] Hd Hs. split; try done.
  - by rewrite Hs.
  - by rewrite Hs.
  - by rewrite (content_same d d').
  - unfold holds_table in *. by rewrite (content_same d d').
  - intros k sec h Hk. destruct (fi_file0 k sec h Hk) as (Hr & Hdec & ?). by rewrite Hs.
Qed.

Lemma wf_words m : wf m -> numBits m = NumSectors -> numWords m = 32.
Proof. intros [_ Hw _ _] Hn. rewrite Hw, Hn. reflexivity. Qed.

Lemma map_image_len m : wf m -> numBits m = NumSectors -> zlen (bytes_of_ints (BitMap.map m)) = 128.
Proof.
  intros Hw Hn. rewrite zlen_bytes_of_ints, (wf_len _ Hw), (wf_words m Hw Hn). done.
Qed.

Lemma splice_whole {A} (a b : list A) : zlen a = zlen b -> splice 0 a b = a.
Proof.
  intros Hl. pose proof (zlen_nonneg a). apply zget_ext_range; [rewrite zlen_splice; lia|].
  intros i Hi. rewrite zlen_splice in Hi by lia. rewrite zget_splice by lia.
  rewrite decide_True by lia. f_equal. lia.
Qed.

Lemma fetch_freeMap_spec d fs m t fm :
  fs_inv d fs m t fm ->
  exists d', fetch_freeMap junk junk_words fs d = Ok (m, d') /\ fs_inv d' fs m t fm /\
    same_sectors d d'.
Proof using All.
  intros Hinv. pose proof Hinv as [].
  destruct (new_BitMap_spec junk_words NumSectors) as (m0 & Hm0 & Hwf0 & Hn0 & _);
    [done|by apply Hjunk|by apply Hjunk|].
  unfold fetch_freeMap. rewrite (lift_bind_Ok _ _ _ _ Hm0). unfold map_FetchFrom.
  rewrite (wf_words m0 Hwf0 Hn0).
  destruct (ReadAt_spec junk d (freeMapFile fs) (32 * 4) 0) as (d' & Hr & Hd' & Hs);
    try done.
  rewrite (st_bind_Ok _ _ _ _ _ Hr). rewrite fi_map0.
  pose proof (map_image_len m fi_wf0 fi_bitsn0) as Hl.
  pose proof (map_image_len m0 Hwf0 Hn0) as Hl0.
  rewrite slice_ge by done.
  rewrite (lift_bind_Ok _ _ _ _ (bytes_to_ok (bytes_of_ints (BitMap.map m))
    (bytes_of_ints (BitMap.map m0)) 0 ltac:(lia) ltac:(lia))).
  rewrite splice_whole by lia. exists d'. split; [|split; [by eapply fs_inv_same|done]].
  unfold mret, st_ret. do 2 f_equal. rewrite uints_of_bytes_of_ints by apply fi_wf0.
  rewrite Hn0, <-fi_bitsn0, <-(wf_words m fi_wf0 fi_bitsn0). by destruct m.
Qed.

Lemma new_Directory_spec :
  exists t, new_Directory junk_entries NumDirEntries = Ok (mkDirectory NumDirEntries t) /\
    zlen t = NumDirEntries /\ Forall entry_ok t /\ Forall (fun e => inUse e = false) t.
Proof using All.
  destruct Hjunk as [_ _ _ Hl Ho _]. unfold new_Directory.
  destruct (for_range_inv (fun i t => zlen t = NumDirEntries /\ Forall entry_ok t /\
      forall j e, 0 <= j < i -> zget t j = Some e -> inUse e = false)
    (fun i t => e ← rd t i;
       wr t i (mkDirectoryEntry false (pad1 e) (sector_ e) (name e) (pad2 e)))
    0 NumDirEntries junk_entries) as (t & -> & Hlt & Hot & Hu).
  - done.
  - split_and!; try done. intros. lia.
  - intros i t Hi (Hlt & Hot & Hu).
    destruct (rd_total t i) as (e & He & Hg); [lia|]. rewrite He. simpl.
    rewrite wr_Ok by lia. eexists. split; [done|]. split_and!.
    + by rewrite zlen_zset.
    + apply Forall_zset; [done|]. destruct (Forall_zget _ _ _ _ Hot Hg). by split.
    + intros j x Hj Hx. rewrite zget_zset in Hx. case_decide as Hc; [by injection Hx as <-|].
      apply (Hu j); [|done]. destruct (decide (i = j)); [|lia]. naive_solver lia.
  - exists t. split; [done|]. split_and!; try done. apply Forall_forall. intros e [j Hj]%elem_of_zget.
    apply (Hu j); [|done]. apply zget_Some_range in Hj. lia.
Qed.

Lemma fetch_directory_spec d fs m t fm :
  fs_inv d fs m t fm ->
  exists d', fetch_directory junk junk_entries fs d = Ok (mkDirectory NumDirEntries t, d') /\
    fs_inv d' fs m t fm /\ same_sectors d d'.
Proof using All.
  intros Hinv. pose proof Hinv as [].
  destruct new_Directory_spec as (t0 & Ht0 & Hl0 & Ho0 & _).
  unfold fetch_directory. rewrite (lift_bind_Ok _ _ _ _ Ht0).
  destruct (dir_FetchFrom_spec junk d (directoryFile fs) (mkDirectory NumDirEntries t0) t)
    as (d' & Hf & Hd' & Hs); try done; try apply fi_dir0.
  exists d'. split; [done|]. split; [by eapply fs_inv_same|done].
Qed.

Lemma map_WriteBack_spec d f m :
  hdr_ok (hdr f) -> numBytes (hdr f) = FreeMapFileSize -> store_ok d ->
  wf m -> numBits m = NumSectors ->
  exists d', map_WriteBack junk m f d = Ok (tt, d') /\ store_ok d' /\
    content d' (hdr f) = bytes_of_ints (BitMap.map m) /\
    forall x, 0 <= x < NumSectors -> x ∉ used_sectors (hdr f) -> sector d' x = sector d x.
Proof using All.
  intros Hh Hn Hd Hwf Hb. unfold map_WriteBack. rewrite (wf_words m Hwf Hb).
  pose proof (map_image_len m Hwf Hb) as Hl.
  destruct (WriteAt_spec junk d f (bytes_of_ints (BitMap.map m)) (32 * 4) 0)
    as (d' & Hw & Hd' & Hc & Hs); try done.
  { apply Hjunk. }
  { rewrite Hn. unfold FreeMapFileSize. rewrite Hl. vm_compute. discriminate. }
  { apply bytes_of_ints_bytes. }
  exists d'. rewrite (st_bind_Ok _ _ _ _ _ Hw). split_and!; try done.
  rewrite Hc. replace (Z.max 0 (Z.min (32 * 4) (numBytes (hdr f) - 0))) with 128
    by (rewrite Hn; reflexivity).
  rewrite slice_ge by done. apply splice_whole.
  rewrite zlen_content, Hn, Hl by apply Hh. reflexivity.
Qed.

(** A file in the directory is found, with its sector; a name that is not
    there is not. *)
Lemma find_in_inv d fs m t fm s :
  fs_inv d fs m t fm -> is_name s ->
  dir_Find (mkDirectory NumDirEntries t) (c_str s) =
    Ok (match fm !! key_of s with Some (sec, _) => sec | None => -1 end).
Proof.
  intros [] Hs. rewrite dir_Find_spec by done. simpl. rewrite fi_lookup0.
  by destruct (fm !! key_of s) as [[]|].
Qed.

(** ** Ownership *)

Lemma free_not_owned d fs m t fm s :
  fs_inv d fs m t fm -> 0 <= s < NumSectors -> bit m s = false -> ~ owned fs fm s.
Proof. intros [] Hs Hb Ho. apply fi_bits0 in Ho; [congruence|done]. Qed.

Lemma sys_parts d fs m t fm :
  fs_inv d fs m t fm ->
  (FreeMapSector ∉ used_sectors (hdr (freeMapFile fs))) /\
  (FreeMapSector ∉ used_sectors (hdr (directoryFile fs))) /\
  (DirectorySector ∉ used_sectors (hdr (freeMapFile fs))) /\
  (DirectorySector ∉ used_sectors (hdr (directoryFile fs))) /\
  (forall s, s ∈ used_sectors (hdr (freeMapFile fs)) ->
     s ∉ used_sectors (hdr (directoryFile fs))).
Proof.
  intros []. unfold sys_sectors in fi_sys0. simpl in fi_sys0.
  apply NoDup_cons in fi_sys0 as [H0 H1]. apply NoDup_cons in H1 as [H1 H2].
  apply NoDup_app in H2 as (_ & Hd & _). split_and!; set_solver.
Qed.

(** Files do not notice writes outside their sectors. *)
Lemma file_untouched d d' fs m t fm k sec h (W : list Z) :
  fs_inv d fs m t fm -> fm !! k = Some (sec, h) ->
  (forall x, 0 <= x < NumSectors -> x ∉ W -> sector d' x = sector d x) ->
  (forall x, x ∈ W -> x ∉ file_sectors (sec, h)) ->
  decode_hdr (sector d' sec) = Ok h /\ content d' h = content d h.
Proof.
  intros Hinv Hk Hw Hd. destruct (fi_file _ _ _ _ _ Hinv k sec h Hk) as (Hr & Hdec & Hh & _).
  split.
  - rewrite Hw; [done|done|]. intros Hin. apply (Hd sec Hin). set_solver.
  - apply content_ext; [done|]. intros s Hs. apply Hw.
    + apply elem_of_zget in Hs as [i Hi]. exact (Forall_zget _ _ _ _ (ho_range _ Hh) Hi).
    + intros Hin. apply (Hd s Hin). set_solver.
Qed.

(** The write of the directory and of the map at the end of an operation. *)
Lemma flush_spec d fs m t fm m' dir' :
  fs_inv d fs m t fm ->
  forall d0, store_ok d0 ->
  dir_ok dir' -> tableSize dir' = NumDirEntries -> wf m' -> numBits m' = NumSectors ->
  let W := used_sectors (hdr (freeMapFile fs)) ++ used_sectors (hdr (directoryFile fs)) in
  (exists d1 d', dir_WriteBack junk dir' (directoryFile fs) d0 = Ok (tt, d1) /\
    map_WriteBack junk m' (freeMapFile fs) d1 = Ok (tt, d') /\ store_ok d' /\
    content d' (hdr (freeMapFile fs)) = bytes_of_ints (BitMap.map m') /\
    holds_table d' (directoryFile fs) (table dir') /\
    (forall x, 0 <= x < NumSectors -> x ∉ W -> sector d' x = sector d0 x)) /\
  (exists d1 d', map_WriteBack junk m' (freeMapFile fs) d0 = Ok (tt, d1) /\
    dir_WriteBack junk dir' (directoryFile fs) d1 = Ok (tt, d') /\ store_ok d' /\
    content d' (hdr (freeMapFile fs)) = bytes_of_ints (BitMap.map m') /\
    holds_table d' (directoryFile fs) (table dir') /\
    (forall x, 0 <= x < NumSectors -> x ∉ W -> sector d' x = sector d0 x)).
Proof using All.
  intros Hinv d0 Hd0 Hdir Hsz Hwf Hnb W. pose proof Hinv as [].
  destruct (sys_parts _ _ _ _ _ Hinv) as (_ & _ & _ & _ & Hdis).
  assert (20 * tableSize dir' <= numBytes (hdr (directoryFile fs))) as Hle
    by (rewrite Hsz, fi_dh_size0; vm_compute; discriminate).
  split.
  - destruct (dir_WriteBack_spec junk d0 (directoryFile fs) dir') as (d1 & Hw1 & Hd1 & Ht1 & Hs1);
      try done; [apply Hjunk|].
    destruct (map_WriteBack_spec d1 (freeMapFile fs) m') as (d2 & Hw2 & Hd2 & Hc2 & Hs2); try done.
    exists d1, d2. split_and!; try done.
    + unfold holds_table. rewrite (content_ext d1 d2); [done|done|].
      intros s Hs. apply Hs2; [by eapply hdr_sector_range|]. intros Hin. by eapply Hdis.
    + intros x Hx HW. unfold W in HW. rewrite Hs2, Hs1 by (done || set_solver). done.
  - destruct (map_WriteBack_spec d0 (freeMapFile fs) m') as (d1 & Hw1 & Hd1 & Hc1 & Hs1); try done.
    destruct (dir_WriteBack_spec junk d1 (directoryFile fs) dir') as (d2 & Hw2 & Hd2 & Ht2 & Hs2);
      try done; [apply Hjunk|].
    exists d1, d2. split_and!; try done.
    + rewrite (content_ext d1 d2); [done|done|].
      intros s Hs. apply Hs2; [by apply (hdr_sector_range (hdr (freeMapFile fs)))|]. by apply Hdis.
    + intros x Hx HW. unfold W in HW. rewrite Hs2, Hs1 by (done || set_solver). done.
Qed.

(** ** A file comes, a file goes *)

Lemma owned_range d fs m t fm s :
  fs_inv d fs m t fm -> owned fs fm s -> 0 <= s < NumSectors.
Proof.
  intros [] [Hs|(k & [sec h] & Hk & Hs)].
  - unfold sys_sectors in Hs. rewrite !elem_of_app in Hs.
    destruct Hs as [Hs|[Hs|Hs]].
    + unfold NumSectors, FreeMapSector, DirectorySector in *. set_unfold. lia.
    + apply elem_of_zget in Hs as [i Hi]. exact (Forall_zget _ _ _ _ (ho_range _ fi_mh0) Hi).
    + apply elem_of_zget in Hs as [i Hi]. exact (Forall_zget _ _ _ _ (ho_range _ fi_dh0) Hi).
  - destruct (fi_file0 k sec h Hk) as (Hr & _ & Hh & _). unfold file_sectors in Hs. simpl in Hs.
    apply elem_of_cons in Hs as [->|Hs]; [done|].
    apply elem_of_zget in Hs as [i Hi]. exact (Forall_zget _ _ _ _ (ho_range _ Hh) Hi).
Qed.

Lemma fs_inv_create d d' fs m t fm k sec h m' t' :
  fs_inv d fs m t fm -> fm !! k = None -> 0 <= sec < NumSectors -> hdr_ok h ->
  NoDup (file_sectors (sec, h)) ->
  (forall s, s ∈ file_sectors (sec, h) -> ~ owned fs fm s) ->
  store_ok d' -> wf m' -> numBits m' = NumSectors -> dir_ok (mkDirectory NumDirEntries t') ->
  (forall k', lookup_dir t' k' = if decide (k' = k) then Some sec else lookup_dir t k') ->
  (forall s, bit m' s = bool_decide (s ∈ file_sectors (sec, h)) || bit m s) ->
  content d' (hdr (freeMapFile fs)) = bytes_of_ints (BitMap.map m') ->
  holds_table d' (directoryFile fs) t' -> decode_hdr (sector d' sec) = Ok h ->
  (forall x, 0 <= x < NumSectors -> x <> sec ->
     x ∉ used_sectors (hdr (freeMapFile fs)) ++ used_sectors (hdr (directoryFile fs)) ->
     sector d' x = sector d x) ->
  fs_inv d' fs m' t' (<[k := (sec, h)]> fm) /\
  forall k' x, fm !! k' = Some x -> content d' x.2 = content d x.2.
Proof using All.
  intros Hinv Hk Hsec Hh Hnd Hfree Hd' Hwf' Hnb' Hdir' Hl' Hb' Hc' Ht' Hdec' Hfr.
  pose proof Hinv as []. destruct (sys_parts _ _ _ _ _ Hinv) as (S1 & S2 & S3 & S4 & _).
  set (W := sec :: used_sectors (hdr (freeMapFile fs)) ++ used_sectors (hdr (directoryFile fs))).
  assert (forall x, 0 <= x < NumSectors -> x ∉ W -> sector d' x = sector d x) as HfrW.
  { intros x Hx Hni. apply Hfr; [done| |]; unfold W in Hni; set_solver. }
  assert (forall k' x s, fm !! k' = Some x -> s ∈ W -> s ∉ file_sectors x) as HWfile.
  { intros k' x s Hx HsW Hsx. unfold W in HsW. apply elem_of_cons in HsW as [->|HsW].
    - apply (Hfree sec); [set_solver|]. right. by exists k', x.
    - apply (fi_sys_files0 k' x s Hx Hsx). unfold sys_sectors. set_solver. }
  assert (forall s, s ∈ sys_sectors fs -> s <> sec) as Hsyssec.
  { intros s Hs ->. apply (Hfree sec); [set_solver|by left]. }
  assert (FreeMapSector ∈ sys_sectors fs /\ DirectorySector ∈ sys_sectors fs) as [Hin0 Hin1].
  { unfold sys_sectors. set_solver. }
  assert (forall k' sec' h', fm !! k' = Some (sec', h') ->
    decode_hdr (sector d' sec') = Ok h' /\ content d' h' = content d h') as Hold.
  { intros k' sec' h' Hk'. apply (file_untouched d d' fs m t fm k' sec' h' W Hinv Hk' HfrW).
    intros x Hx. by apply (HWfile k' _ x Hk'). }
  split; [|intros k' [sec' h'] Hk'; by apply (Hold k' sec' h')].
  split; try done.
  - rewrite Hfr; [done|done|by apply Hsyssec|set_solver].
  - rewrite Hfr; [done|done|by apply Hsyssec|set_solver].
  - intros k'. rewrite Hl', lookup_insert. destruct (decide (k' = k)) as [->|].
    + by rewrite decide_True.
    + by rewrite decide_False.
  - intros k' sec' h' Hk'. rewrite lookup_insert in Hk'. case_decide.
    + injection Hk' as <- <-. done.
    + destruct (fi_file0 k' sec' h' Hk') as (? & _ & ? & ?). split; [done|]. split; [|done].
      by apply (Hold k').
  - intros k' x s Hk' Hs. rewrite lookup_insert in Hk'. case_decide.
    + injection Hk' as <-. intros Hin. apply (Hfree s Hs). by left.
    + by apply (fi_sys_files0 k' x).
  - intros k1 k2 x1 x2 s H1 H2 Hs1 Hs2.
    destruct (decide (k = k1)) as [<-|N1], (decide (k = k2)) as [<-|N2]; [done| | |].
    + rewrite lookup_insert_eq in H1. rewrite lookup_insert_ne in H2 by done. injection H1 as <-.
      exfalso. apply (Hfree s Hs1). right. by exists k2, x2.
    + rewrite lookup_insert_eq in H2. rewrite lookup_insert_ne in H1 by done. injection H2 as <-.
      exfalso. apply (Hfree s Hs2). right. by exists k1, x1.
    + rewrite lookup_insert_ne in H1, H2 by done. by apply (fi_files0 k1 k2 x1 x2 s).
  - intros s Hs. rewrite Hb'. rewrite orb_true_iff, bool_decide_eq_true, fi_bits0 by done.
    unfold owned. split.
    + intros [Hin|[Hin|(k' & x & Hx & Hin)]].
      * right. exists k, (sec, h). by rewrite lookup_insert_eq.
      * by left.
      * right. exists k', x. rewrite lookup_insert_ne; [done|congruence].
    + intros [Hin|(k' & x & Hx & Hin)]; [right; by left|].
      rewrite lookup_insert in Hx. case_decide.
      * injection Hx as <-. by left.
      * right. right. by exists k', x.
Qed.

(** There is a free sector for the header and enough for the data, a free
    directory entry, and no file of that name. *)
Definition can_create (m : BitMap) (t : list DirectoryEntry) (fm : fmap_t) (k : list Z)
    (size : Z) : Prop :=
  fm !! k = None /\ ~ Forall (fun e => inUse e = true) t /\
  divRoundUp size SectorSize + 1 <= zlen (clear_items m).
#[export] Instance can_create_dec m t fm k size : Decision (can_create m t fm k size).
Proof. unfold can_create. apply _. Defined.

#[local] Abbreviation create := (Create junk junk_words junk_entries junk_hdr).
#[local] Abbreviation remove := (Remove junk junk_words junk_entries).

(** The sectors that [Create] takes, one for the header and those of the data,
    belong to no file yet and are pairwise different. *)
Lemma new_file_sectors d fs m t fm sec h m1 :
  fs_inv d fs m t fm -> 0 <= sec < NumSectors -> bit m sec = false ->
  (forall x, bit m1 x = (x =? sec) || bit m x) -> hdr_ok h ->
  (forall x, x ∈ used_sectors h -> bit m1 x = false) ->
  (forall x, x ∈ file_sectors (sec, h) -> ~ owned fs fm x) /\
  NoDup (file_sectors (sec, h)) /\
  sec ∉ used_sectors (hdr (freeMapFile fs)) ++ used_sectors (hdr (directoryFile fs)).
Proof using All.
  intros Hinv Hsec Hbs Hb1 Hh Hfree.
  assert (forall x, x ∈ file_sectors (sec, h) -> ~ owned fs fm x) as Hno.
  { intros x Hx. unfold file_sectors in Hx. simpl in Hx.
    apply elem_of_cons in Hx as [->|Hx]; [by apply (free_not_owned d fs m t fm)|].
    pose proof (Hfree x Hx) as Hbx. rewrite Hb1 in Hbx. apply orb_false_iff in Hbx as [_ Hbx].
    apply (free_not_owned d fs m t fm); [done| |done].
    apply elem_of_zget in Hx as [i Hi]. exact (Forall_zget _ _ _ _ (ho_range _ Hh) Hi). }
  split_and!; [done| |].
  - unfold file_sectors. simpl. apply NoDup_cons. split; [|apply Hh].
    intros Hin. pose proof (Hfree sec Hin) as Hb. by rewrite Hb1, Z.eqb_refl in Hb.
  - intros Hin. apply (Hno sec); [unfold file_sectors; set_solver|].
    left. unfold sys_sectors. set_solver.
Qed.

(** The number of clear bits falls by the number of data sectors. *)
Lemma allocated_count m1 m2 h :
  numBits m1 = NumSectors -> numBits m2 = NumSectors -> hdr_ok h ->
  (forall x, x ∈ used_sectors h -> bit m1 x = false) ->
  (forall x, bit m2 x = bool_decide (x ∈ used_sectors h) || bit m1 x) ->
  zlen (clear_items m1) = divRoundUp (numBytes h) SectorSize + zlen (clear_items m2).
Proof using All.
  intros Hn1 Hn2 Hh Hfree Hb2.
  assert (clear_items m1 ≡ₚ used_sectors h ++ clear_items m2) as Hc2.
  { apply clear_items_take; [congruence|apply Hh| |done]. intros x Hx. split; [|by apply Hfree].
    rewrite Hn1. apply elem_of_zget in Hx as [i Hi].
    exact (Forall_zget _ _ _ _ (ho_range _ Hh) Hi). }
  assert (zlen (used_sectors h) = divRoundUp (numBytes h) SectorSize) as Hlu.
  { assert (0 <= divRoundUp (numBytes h) SectorSize).
    { pose proof (divRoundUp_spec (numBytes h) SectorSize (ho_bytes _ Hh) eq_refl).
      pose proof (ho_bytes _ Hh). unfold SectorSize in *. lia. }
    pose proof (ho_fits _ Hh). unfold used_sectors.
    rewrite zlen_slice, (hs_len _ (ho_shape _ Hh)) by done. rewrite (ho_sectors _ Hh) in *. lia. }
  unfold zlen in Hlu |- *. rewrite Hc2, length_app. lia.
Qed.

(** The three write-backs at the end of [Create]: the header, the directory and
    the map reach the disk, the file is there and no other file has changed. *)
Lemma Create_commit d fs m t fm k sec h m1 m2 dir' :
  fs_inv d fs m t fm -> fm !! k = None -> 0 <= sec < NumSectors -> bit m sec = false ->
  (forall x, bit m1 x = (x =? sec) || bit m x) -> hdr_ok h ->
  (forall x, x ∈ used_sectors h -> bit m1 x = false) ->
  (forall x, bit m2 x = bool_decide (x ∈ used_sectors h) || bit m1 x) ->
  wf m2 -> numBits m2 = NumSectors -> dir_ok dir' -> tableSize dir' = NumDirEntries ->
  (forall k', lookup_dir (table dir') k' = if decide (k' = k) then Some sec else lookup_dir t k') ->
  exists d3 d4 d5, hdr_WriteBack h sec d = Ok (tt, d3) /\
    dir_WriteBack junk dir' (directoryFile fs) d3 = Ok (tt, d4) /\
    map_WriteBack junk m2 (freeMapFile fs) d4 = Ok (tt, d5) /\
    fs_inv d5 fs m2 (table dir') (<[k := (sec, h)]> fm) /\
    forall k' x, fm !! k' = Some x -> content d5 x.2 = content d x.2.
Proof using All.
  intros Hinv Hk Hsec Hbs Hb1 Hh Hfree Hb2 Hwf2 Hn2 Hdir' Hsz' Hl'. pose proof Hinv as [].
  destruct (write_sector_law d sec (encode_hdr h) fi_store0 Hsec) as (d3 & Hw3 & Hd3 & Hs3);
    [apply encode_len, Hh|apply encode_bytes|].
  destruct (flush_spec d fs m t fm m2 dir' Hinv d3 Hd3) as [(d4 & d5 & Hw4 & Hw5 & Hd5 & Hc5 & Ht5 & Hs5) _];
    try done.
  destruct (new_file_sectors d fs m t fm sec h m1) as (Hno & Hnd & Hsecs); try done.
  exists d3, d4, d5. split; [exact Hw3|]. split; [done|]. split; [done|].
  apply (fs_inv_create d d5 fs m t fm k sec h m2 (table dir') Hinv); try done.
  - destruct dir' as [sz t']. simpl in *. by subst sz.
  - intros x. rewrite Hb2, Hb1. unfold file_sectors. simpl.
    destruct (Z.eqb_spec x sec) as [->|Hne].
    + rewrite (bool_decide_true (sec ∈ sec :: _)) by set_solver. by rewrite orb_true_r.
    + simpl. f_equal. apply bool_decide_ext. set_solver.
  - rewrite Hs5, Hs3 by done. rewrite decide_True by done. apply FileHdr.decode_encode, Hh.
  - intros x Hx Hne Hni. rewrite Hs5, Hs3 by done. by rewrite decide_False.
Qed.

Lemma Create_spec d fs m t fm s size :
  fs_inv d fs m t fm -> is_name s -> 0 <= size <= MaxFileSize ->
  if decide (can_create m t fm (key_of s) size) then
    exists d' m' t' sec h, create fs (c_str s) size d = Ok (true, d') /\
      fs_inv d' fs m' t' (<[key_of s := (sec, h)]> fm) /\ numBytes h = size /\
      (forall k x, fm !! k = Some x -> content d' x.2 = content d x.2) /\
      zlen (clear_items m') = zlen (clear_items m) - (divRoundUp size SectorSize + 1)
  else exists d', create fs (c_str s) size d = Ok (false, d') /\
    fs_inv d' fs m t fm /\ same_sectors d d'.
Proof using All.
  intros Hinv Hs Hsize. unfold Create.
  destruct (fetch_directory_spec d fs m t fm Hinv) as (d1 & Hf1 & Hinv1 & Hs1).
  rewrite (st_bind_Ok _ _ _ _ _ Hf1).
  rewrite (lift_bind_Ok _ _ _ _ (find_in_inv _ _ _ _ _ _ Hinv1 Hs)).
  assert (0 <= divRoundUp size SectorSize <= NumDirect) as Hfit.
  { pose proof (divRoundUp_spec size SectorSize ltac:(lia) eq_refl).
    unfold MaxFileSize, NumDirect, SectorSize in *. lia. }
  destruct (fm !! key_of s) as [[sec0 h0]|] eqn:Ek.
  { rewrite decide_False by (intros [? _]; congruence).
    destruct (fi_file _ _ _ _ _ Hinv _ _ _ Ek) as [Hr _].
    rewrite (proj2 (Z.eqb_neq _ _)) by lia. exists d1. done. }
  change (-1 =? -1) with true. cbn [negb].
  destruct (fetch_freeMap_spec d1 fs m t fm Hinv1) as (d2 & Hf2 & Hinv2 & Hs2).
  rewrite (st_bind_Ok _ _ _ _ _ Hf2).
  pose proof (same_sectors_trans _ _ _ Hs1 Hs2) as Hs12.
  pose proof Hinv2 as [].
  destruct (Find_cases m fi_wf0) as [[Hall Hfind]|(sec & m1 & Hfind & Hwf1 & Hn1 & Hsec & Hbs & _ & Hb1)].
  { rewrite (lift_bind_Ok _ _ _ _ Hfind). change (-1 =? -1) with true.
    rewrite decide_False; [exists d2; done|]. intros (_ & _ & Hc).
    apply clear_items_nil in Hall. rewrite Hall in Hc. unfold zlen in Hc. simpl in Hc. lia. }
  rewrite (lift_bind_Ok _ _ _ _ Hfind). rewrite fi_bitsn0 in Hsec, Hn1.
  rewrite (proj2 (Z.eqb_neq _ _)) by lia.
  pose proof (clear_items_mark m m1 sec ltac:(congruence) Hb1 ltac:(lia) Hbs) as Hcl.
  assert (zlen (clear_items m) = 1 + zlen (clear_items m1)) as Hcount
    by (unfold zlen; rewrite Hcl; simpl; lia).
  pose proof (Add_spec (mkDirectory NumDirEntries t) s sec fi_dir0 Hs) as HA.
  simpl in HA. rewrite fi_lookup0, Ek in HA. simpl in HA.
  assert (is_int sec) as Hint by (unfold NumSectors in *; unfold_int; lia).
  specialize (HA Hint).
  destruct (decide (Forall (fun e => inUse e = true) t)) as [Hfull|Hnfull].
  { rewrite decide_True in HA by (by right). rewrite (lift_bind_Ok _ _ _ _ HA). cbn [negb].
    rewrite decide_False by (intros (_ & ? & _); done). exists d2. done. }
  rewrite decide_False in HA by (intros [[? ?]|?]; done).
  destruct HA as (dir' & HA & Hdir' & Hsz' & Hl').
  rewrite (lift_bind_Ok _ _ _ _ HA). cbn [negb].
  pose proof (Allocate_cases junk_hdr m1 size (jo_hdr _ _ _ _ Hjunk) Hwf1 Hn1) as Hal.
  specialize (Hal ltac:(lia) ltac:(lia)).
  destruct (decide (zlen (clear_items m1) < divRoundUp size SectorSize)) as [Hlow|Henough].
  { destruct Hal as [h Hal]. rewrite (lift_bind_Ok _ _ _ _ Hal). cbn [negb].
    rewrite decide_False by (intros (_ & _ & ?); lia). exists d2. done. }
  destruct Hal as (h & m2 & Hal & Hh & Hnb & Hwf2 & Hn2 & Hfree & Hb2).
  rewrite (lift_bind_Ok _ _ _ _ Hal). cbn [negb].
  rewrite decide_True by (split_and!; [done|done|lia]).
  destruct (Create_commit d2 fs m t fm (key_of s) sec h m1 m2 dir')
    as (d3 & d4 & d5 & Hw3 & Hw4 & Hw5 & Hfinal & Hcont); try done.
  rewrite (st_bind_Ok _ _ _ _ _ Hw3), (st_bind_Ok _ _ _ _ _ Hw4), (st_bind_Ok _ _ _ _ _ Hw5).
  exists d5, m2, (table dir'), sec, h. split_and!; try done.
  - intros k [sec' h'] Hk. rewrite (Hcont k _ Hk). simpl. apply content_same; [|done].
    destruct (fi_file _ _ _ _ _ Hinv _ _ _ Hk) as (_ & _ & Hh' & _). done.
  - rewrite Hcount, (allocated_count m1 m2 h), Hnb by (done || congruence). lia.
Qed.

Lemma fs_inv_remove d d' fs m t fm k sec h m' t' :
  fs_inv d fs m t fm -> fm !! k = Some (sec, h) ->
  store_ok d' -> wf m' -> numBits m' = NumSectors -> dir_ok (mkDirectory NumDirEntries t') ->
  (forall k', lookup_dir t' k' = if decide (k' = k) then None else lookup_dir t k') ->
  (forall s, bit m' s = negb (bool_decide (s ∈ file_sectors (sec, h))) && bit m s) ->
  content d' (hdr (freeMapFile fs)) = bytes_of_ints (BitMap.map m') ->
  holds_table d' (directoryFile fs) t' ->
  (forall x, 0 <= x < NumSectors ->
     x ∉ used_sectors (hdr (freeMapFile fs)) ++ used_sectors (hdr (directoryFile fs)) ->
     sector d' x = sector d x) ->
  fs_inv d' fs m' t' (delete k fm) /\
  forall k' x, fm !! k' = Some x -> content d' x.2 = content d x.2.
Proof using All.
  intros Hinv Hk Hd' Hwf' Hnb' Hdir' Hl' Hb' Hc' Ht' Hfr.
  pose proof Hinv as []. destruct (sys_parts _ _ _ _ _ Hinv) as (S1 & S2 & S3 & S4 & _).
  set (W := used_sectors (hdr (freeMapFile fs)) ++ used_sectors (hdr (directoryFile fs))) in *.
  assert (forall k' sec' h', fm !! k' = Some (sec', h') ->
    decode_hdr (sector d' sec') = Ok h' /\ content d' h' = content d h') as Hold.
  { intros k' sec' h' Hk'. apply (file_untouched d d' fs m t fm k' sec' h' W Hinv Hk' Hfr).
    intros x Hx Hin. apply (fi_sys_files0 k' _ x Hk' Hin). unfold sys_sectors, W in *. set_solver. }
  split; [|intros k' [sec' h'] Hk'; by apply (Hold k' sec' h')].
  split; try done.
  - rewrite Hfr; [done|done|unfold W; set_solver].
  - rewrite Hfr; [done|done|unfold W; set_solver].
  - intros k'. rewrite Hl'. destruct (decide (k' = k)) as [->|].
    + by rewrite lookup_delete_eq.
    + by rewrite lookup_delete_ne.
  - intros k' sec' h' [_ Hk']%lookup_delete_Some.
    destruct (fi_file0 k' sec' h' Hk') as (? & _ & ? & ?). split; [done|]. split; [|done].
    by apply (Hold k').
  - intros k' x s [_ Hk']%lookup_delete_Some. by apply fi_sys_files0 with k'.
  - intros k1 k2 x1 x2 s [_ H1]%lookup_delete_Some [_ H2]%lookup_delete_Some.
    by apply fi_files0.
  - intros s Hs. rewrite Hb'. rewrite andb_true_iff, negb_true_iff, bool_decide_eq_false.
    rewrite fi_bits0 by done. unfold owned. split.
    + intros [Hni [Hin|(k' & x & Hx & Hin)]]; [by left|right]. exists k', x.
      split; [|done]. rewrite lookup_delete_ne; [done|]. intros <-. congruence.
    + intros [Hin|(k' & x & [Hne Hx]%lookup_delete_Some & Hin)].
      * split; [|by left]. intros Hin'. by apply (fi_sys_files0 k _ s Hk).
      * split; [|right; by exists k', x]. intros Hin'. apply Hne.
        by apply (fi_files0 k k' _ _ s Hk Hx).
Qed.

Lemma Remove_spec d fs m t fm s :
  fs_inv d fs m t fm -> is_name s ->
  match fm !! key_of s with
  | None => exists d', remove fs (c_str s) d = Ok (false, d') /\
      fs_inv d' fs m t fm /\ same_sectors d d'
  | Some (sec, h) => exists d' m' t', remove fs (c_str s) d = Ok (true, d') /\
      fs_inv d' fs m' t' (delete (key_of s) fm) /\
      (forall x, bit m' x = negb (bool_decide (x ∈ file_sectors (sec, h))) && bit m x) /\
      forall k x, fm !! k = Some x -> content d' x.2 = content d x.2
  end.
Proof using All.
  intros Hinv Hs. unfold Remove.
  destruct (fetch_directory_spec d fs m t fm Hinv) as (d1 & Hf1 & Hinv1 & Hs1).
  rewrite (st_bind_Ok _ _ _ _ _ Hf1).
  rewrite (lift_bind_Ok _ _ _ _ (find_in_inv _ _ _ _ _ _ Hinv1 Hs)).
  destruct (fm !! key_of s) as [[sec h]|] eqn:Ek.
  2:{ change (-1 =? -1) with true. exists d1. done. }
  destruct (fi_file _ _ _ _ _ Hinv1 _ _ _ Ek) as (Hr & Hdec & Hh & Hnd).
  rewrite (proj2 (Z.eqb_neq _ _)) by lia.
  destruct (read_sector_law d1 sec (fi_store _ _ _ _ _ Hinv1) Hr) as (d2 & Hr2 & Hd2 & Hs2).
  assert (hdr_FetchFrom sec d1 = Ok (h, d2)) as Hfh.
  { unfold hdr_FetchFrom. rewrite (st_bind_Ok _ _ _ _ _ Hr2). unfold lift. by rewrite Hdec. }
  rewrite (st_bind_Ok _ _ _ _ _ Hfh).
  pose proof (fs_inv_same _ _ _ _ _ _ Hinv1 Hd2 Hs2) as Hinv2.
  destruct (fetch_freeMap_spec d2 fs m t fm Hinv2) as (d3 & Hf3 & Hinv3 & Hs3).
  rewrite (st_bind_Ok _ _ _ _ _ Hf3).
  assert (same_sectors d d3) as Hs13
    by (eapply same_sectors_trans; [exact Hs1|eapply same_sectors_trans; [exact Hs2|done]]).
  pose proof Hinv3 as [].
  assert (forall x, x ∈ file_sectors (sec, h) -> bit m x = true) as Hused.
  { intros x Hx. assert (owned fs fm x) as Ho by (right; by exists (key_of s), (sec, h)).
    apply fi_bits0; [by apply (owned_range d3 fs m t fm)|done]. }
  destruct (Deallocate_spec h m Hh fi_wf0 fi_bitsn0) as (m1 & Hm1 & Hwf1 & Hn1 & Hb1).
  { intros x Hx. apply Hused. unfold file_sectors. set_solver. }
  rewrite (lift_bind_Ok _ _ _ _ Hm1).
  destruct (Clear_spec m1 sec Hwf1) as (m2 & Hm2 & Hwf2 & Hn2 & Hb2); [lia|].
  rewrite (lift_bind_Ok _ _ _ _ Hm2).
  pose proof (dir_Remove_spec (mkDirectory NumDirEntries t) s fi_dir0 Hs) as Hrm.
  simpl in Hrm. rewrite fi_lookup0, Ek in Hrm. simpl in Hrm.
  destruct Hrm as (dir' & Hrm & Hdir' & Hsz' & Hl').
  rewrite (lift_bind_Ok _ _ _ _ Hrm).
  destruct (flush_spec d3 fs m t fm m2 dir' Hinv3 d3 fi_store0)
    as [_ (d4 & d5 & Hw4 & Hw5 & Hd5 & Hc5 & Ht5 & Hs5)]; try done; [congruence|].
  rewrite (st_bind_Ok _ _ _ _ _ Hw4), (st_bind_Ok _ _ _ _ _ Hw5).
  assert (forall x, bit m2 x = negb (bool_decide (x ∈ file_sectors (sec, h))) && bit m x) as Hbits.
  { intros x. rewrite Hb2, Hb1. unfold file_sectors. simpl.
    destruct (Z.eqb_spec x sec) as [->|Hne]; simpl.
    - by rewrite (bool_decide_true (sec ∈ sec :: _)) by set_solver.
    - f_equal. f_equal. apply bool_decide_ext. set_solver. }
  exists d5, m2, (table dir'). split; [done|].
  destruct (fs_inv_remove d3 d5 fs m t fm (key_of s) sec h m2 (table dir') Hinv3 Ek)
    as [Hfinal Hcont]; try done; [congruence| |].
  - destruct dir' as [sz t']. simpl in *. by subst sz.
  - split_and!; try done. intros k [sec' h'] Hk. rewrite (Hcont k _ Hk). simpl.
    apply content_same; [|done].
    destruct (fi_file _ _ _ _ _ Hinv _ _ _ Hk) as (_ & _ & Hh' & _). done.
Qed.

Lemma Open_spec d fs m t fm s :
  fs_inv d fs m t fm -> is_name s ->
  exists d', fs_inv d' fs m t fm /\ same_sectors d d' /\
    Open junk junk_entries fs (c_str s) d =
      Ok (match fm !! key_of s with
          | Some (sec, h) => Some (mkOpenFile h sec None 0)
          | None => None
          end, d') /\
    forall ty, Open_t junk junk_entries fs (c_str s) ty d =
      Ok (match fm !! key_of s with
          | Some (sec, h) => Some (mkOpenFile h sec (Some ty) 0)
          | None => None
          end, d').
Proof using All.
  intros Hinv Hs. unfold Open, Open_t.
  destruct (fetch_directory_spec d fs m t fm Hinv) as (d1 & Hf1 & Hinv1 & Hs1).
  rewrite (st_bind_Ok _ _ _ _ _ Hf1).
  rewrite (lift_bind_Ok _ _ _ _ (find_in_inv _ _ _ _ _ _ Hinv1 Hs)).
  destruct (fm !! key_of s) as [[sec h]|] eqn:Ek.
  - destruct (fi_file _ _ _ _ _ Hinv1 _ _ _ Ek) as (Hr & Hdec & _).
    destruct (read_sector_law d1 sec (fi_store _ _ _ _ _ Hinv1) Hr) as (d2 & Hr2 & Hd2 & Hs2).
    assert (hdr_FetchFrom sec d1 = Ok (h, d2)) as Hfh.
    { unfold hdr_FetchFrom. rewrite (st_bind_Ok _ _ _ _ _ Hr2). unfold lift. by rewrite Hdec. }
    exists d2. split; [by eapply fs_inv_same|]. split; [by eapply same_sectors_trans|].
    rewrite (proj2 (Z.leb_le _ _)) by lia. split.
    + unfold new_OpenFile. unfold mbind at 1, st_bind at 1. by rewrite (st_bind_Ok _ _ _ _ _ Hfh).
    + intros ty. rewrite (st_bind_Ok _ _ _ _ _ Hf1).
      rewrite (lift_bind_Ok _ _ _ _ (find_in_inv _ _ _ _ _ _ Hinv1 Hs)), Ek.
      rewrite (proj2 (Z.leb_le _ _)) by lia.
      unfold new_OpenFile_t. unfold mbind at 1, st_bind at 1. by rewrite (st_bind_Ok _ _ _ _ _ Hfh).
  - exists d1. split; [done|]. split; [done|]. split; [done|].
    intros ty. rewrite (st_bind_Ok _ _ _ _ _ Hf1).
    by rewrite (lift_bind_Ok _ _ _ _ (find_in_inv _ _ _ _ _ _ Hinv1 Hs)), Ek.
Qed.

(** Writing into an open file of the file system. *)
Lemma fs_WriteAt_spec d fs m t fm k sec f from n pos :
  fs_inv d fs m t fm -> fm !! k = Some (sec, hdr f) ->
  0 <= pos -> pos + n < two31 -> Forall is_byte from ->
  let r := Z.max 0 (Z.min n (numBytes (hdr f) - pos)) in
  r <= zlen from ->
  exists d', WriteAt junk f from n pos d = Ok (r, d') /\ fs_inv d' fs m t fm /\
    content d' (hdr f) = splice pos (slice 0 r from) (content d (hdr f)) /\
    forall k' x, k' <> k -> fm !! k' = Some x -> content d' x.2 = content d x.2.
Proof using All.
  intros Hinv Hk Hp Ho Hfrom r Hr. pose proof Hinv as [].
  destruct (fi_file0 k sec (hdr f) Hk) as (Hsec & Hdec & Hh & Hnd).
  destruct (WriteAt_spec junk d f from n pos (jo_chars _ _ _ _ Hjunk) Hh fi_store0 Hp Ho Hr Hfrom)
    as (d' & Hw & Hd' & Hc & Hs).
  assert (forall s, s ∈ used_sectors (hdr f) -> s ∈ file_sectors (sec, hdr f)) as Hin.
  { intros s Hin. unfold file_sectors. set_solver. }
  assert (forall h s, hdr_ok h -> s ∈ used_sectors h -> 0 <= s < NumSectors) as hdr_sector_range.
  { intros h s Hho [i Hi]%elem_of_zget. exact (Forall_zget _ _ _ _ (ho_range _ Hho) Hi). }
  assert (forall s, s ∈ sys_sectors fs -> 0 <= s < NumSectors -> sector d' s = sector d s) as Hsys.
  { intros s Hs' Hr'. apply Hs; [done|]. intros Hu. by apply (fi_sys_files0 k _ s Hk (Hin s Hu)). }
  assert (forall k' x s, k' <> k -> fm !! k' = Some x -> s ∈ file_sectors x ->
    0 <= s < NumSectors -> sector d' s = sector d s) as Hoth.
  { intros k' x s Hne Hx Hsx Hr'. apply Hs; [done|]. intros Hu. apply Hne.
    by apply (fi_files0 k' k x _ s Hx Hk Hsx (Hin s Hu)). }
  exists d'. split; [done|]. split; [|split; [done|]].
  - split; try done.
    + rewrite Hsys; [done|unfold sys_sectors; set_solver|done].
    + rewrite Hsys; [done|unfold sys_sectors; set_solver|done].
    + rewrite (content_ext d d'); [done|done|]. intros s Hu.
      apply Hsys; [unfold sys_sectors; set_solver|by apply (hdr_sector_range _ _ fi_mh0)].
    + unfold holds_table in *. rewrite (content_ext d d'); [done|done|]. intros s Hu.
      apply Hsys; [unfold sys_sectors; set_solver|by apply (hdr_sector_range _ _ fi_dh0)].
    + intros k' sec' h' Hk'. destruct (fi_file0 k' sec' h' Hk') as (H1 & H2 & H3 & H4).
      split; [done|]. split; [|done]. rewrite Hs; [done|done|]. intros Hu.
      destruct (decide (k' = k)) as [->|Hne].
      * rewrite Hk in Hk'. simplify_eq. by apply NoDup_cons in Hnd as [? _].
      * apply Hne. apply (fi_files0 k' k (sec', h') _ sec' Hk' Hk); [unfold file_sectors; set_solver|].
        by apply Hin.
  - intros k' [sec' h'] Hne Hx. simpl. destruct (fi_file0 k' sec' h' Hx) as (_ & _ & H3 & _).
    apply content_ext; [done|]. intros s Hu.
    apply (Hoth k' _ s Hne Hx); [unfold file_sectors; set_solver|by apply (hdr_sector_range _ _ H3)].
Qed.
(** ** Formatting *)

(** A file of one sector, room for it, and the sectors of the two system files. *)
Lemma used_one_sector h :
  hdr_ok h -> divRoundUp (numBytes h) SectorSize = 1 -> exists k, used_sectors h = [k].
Proof.
  intros Hh H1. assert (zlen (used_sectors h) = 1) as Hl.
  { unfold used_sectors. rewrite zlen_slice, (hs_len _ (ho_shape _ Hh)) by done.
    rewrite (ho_sectors _ Hh), H1. reflexivity. }
  destruct (used_sectors h) as [|k [|]]; try done; [by exists k|].
  unfold zlen in Hl. simpl in Hl. lia.
Qed.
Lemma room_for_one m a :
  0 <= a < numBits m -> bit m a = false -> ~ zlen (clear_items m) < 1.
Proof.
  intros Ha Hba Hlt. assert (a ∈ clear_items m) as Hin by (by apply elem_of_clear_items).
  destruct (clear_items m); [by apply elem_of_nil in Hin|]. unfold zlen in Hlt. simpl in Hlt. lia.
Qed.
Lemma system_sectors_nodup (us vs : list Z) :
  NoDup us -> NoDup vs -> (forall s, s ∈ us -> s <> 0 /\ s <> 1) ->
  (forall s, s ∈ vs -> s <> 0 /\ s <> 1 /\ s ∉ us) ->
  NoDup ([FreeMapSector; DirectorySector] ++ us ++ vs).
Proof.
  intros Hu Hv D1 D2. unfold FreeMapSector, DirectorySector. simpl. apply NoDup_cons. split.
  { rewrite elem_of_cons, elem_of_app. intros [?|[Hs|Hs]]; [done| |].
    - by destruct (D1 _ Hs).
    - by destruct (D2 _ Hs). }
  apply NoDup_cons. split.
  { rewrite elem_of_app. intros [Hs|Hs].
    - by destruct (D1 _ Hs).
    - by destruct (D2 _ Hs) as (_ & ? & _). }
  apply NoDup_app. split_and!; [done| |done].
  intros x Hx Hx'. by destruct (D2 x Hx') as (_ & _ & ?).
Qed.

(** The map of a fresh disk: the two header sectors and one data sector for
    each of the two files are taken, and nothing else. *)
Lemma format_layout :
  exists m0 m1 m2 m3 m mapHdr dirHdr,
    new_BitMap junk_words NumSectors = Ok m0 /\ Mark m0 FreeMapSector = Ok m1 /\
    Mark m1 DirectorySector = Ok m2 /\
    Allocate junk_hdr m2 FreeMapFileSize = Ok (true, mapHdr, m3) /\
    Allocate junk_hdr m3 DirectoryFileSize = Ok (true, dirHdr, m) /\
    hdr_ok mapHdr /\ numBytes mapHdr = FreeMapFileSize /\
    hdr_ok dirHdr /\ numBytes dirHdr = DirectoryFileSize /\
    wf m /\ numBits m = NumSectors /\
    let sys := [FreeMapSector; DirectorySector] ++ used_sectors mapHdr ++ used_sectors dirHdr in
    NoDup sys /\ (forall s, 0 <= s < NumSectors -> bit m s = bool_decide (s ∈ sys)).
Proof using All.
  destruct (new_BitMap_spec junk_words NumSectors) as (m0 & Hm0 & Hw0 & Hn0 & Hb0);
    [done|by apply Hjunk|by apply Hjunk|].
  destruct (Mark_spec m0 FreeMapSector Hw0) as (m1 & Hm1 & Hw1 & Hn1 & Hb1); [by rewrite Hn0|].
  destruct (Mark_spec m1 DirectorySector Hw1) as (m2 & Hm2 & Hw2 & Hn2 & Hb2);
    [by rewrite Hn1, Hn0|].
  rewrite Hn1, Hn0 in Hn2. rewrite Hn0 in Hn1.
  pose proof (Allocate_cases junk_hdr m2 FreeMapFileSize (jo_hdr _ _ _ _ Hjunk) Hw2 Hn2
    ltac:(done) ltac:(done)) as HA.
  rewrite decide_False in HA.
  2:{ apply (room_for_one m2 2); [by rewrite Hn2|]. rewrite Hb2, Hb1, Hb0; done. }
  destruct HA as (mh & m3 & HA & Hmh & Hmn & Hw3 & Hn3 & Hf3 & Hb3).
  pose proof (Allocate_cases junk_hdr m3 DirectoryFileSize (jo_hdr _ _ _ _ Hjunk) Hw3 Hn3
    ltac:(done) ltac:(done)) as HB.
  destruct (used_one_sector mh Hmh) as [k Hk]; [by rewrite Hmn|].
  assert (exists a, 0 <= a < NumSectors /\ bit m3 a = false) as (a & Ha & Hba).
  { exists (if k =? 2 then 3 else 2). split; [zcases; done|].
    rewrite Hb3, Hb2, Hb1, Hb0 by (zcases; done). rewrite Hk, bool_decide_false.
    - zcases; done.
    - rewrite list_elem_of_singleton. destruct (Z.eqb_spec k 2); lia. }
  rewrite decide_False in HB by (apply (room_for_one m3 a); [by rewrite Hn3|done]).
  destruct HB as (dh & m & HB & Hdh & Hdn & Hw & Hn & Hf & Hb).
  exists m0, m1, m2, m3, m, mh, dh. split_and!; try done.
  assert (forall s, s ∈ used_sectors mh -> s <> 0 /\ s <> 1) as D1.
  { intros s Hs%Hf3. rewrite Hb2, Hb1 in Hs. unfold FreeMapSector, DirectorySector in Hs. zcases. }
  assert (forall s, s ∈ used_sectors dh -> s <> 0 /\ s <> 1 /\ s ∉ used_sectors mh) as D2.
  { intros s Hs%Hf. rewrite Hb3, Hb2, Hb1 in Hs.
    unfold FreeMapSector, DirectorySector in Hs. apply orb_false_iff in Hs as [Hs1 Hs2].
    apply bool_decide_eq_false in Hs1. split_and!; [zcases|zcases|done]. }
  split.
  - apply system_sectors_nodup; [apply Hmh|apply Hdh|done|done].
  - intros s Hs. rewrite Hb, Hb3, Hb2, Hb1, Hb0, orb_false_r by done.
    apply eq_bool_prop_intro. rewrite !orb_True, !bool_decide_spec, !Is_true_true, !Z.eqb_eq.
    set_solver.
Qed.

Lemma new_OpenFile_at d sec h :
  store_ok d -> 0 <= sec < NumSectors -> decode_hdr (sector d sec) = Ok h ->
  exists d', new_OpenFile sec d = Ok (mkOpenFile h sec None 0, d') /\ store_ok d' /\
    same_sectors d d'.
Proof.
  intros Hd Hs Hdec. destruct (read_sector_law d sec Hd Hs) as (d' & Hr & Hd' & Hss).
  exists d'. split_and!; [|done|done].
  unfold new_OpenFile, hdr_FetchFrom. unfold mbind at 1, st_bind at 1.
  rewrite (st_bind_Ok _ _ _ _ _ Hr). unfold lift. by rewrite Hdec.
Qed.

Lemma free_count (m : BitMap) (l : list Z) :
  numBits m = NumSectors -> NoDup l -> (forall s, s ∈ l -> 0 <= s < NumSectors) ->
  (forall s, 0 <= s < NumSectors -> bit m s = bool_decide (s ∈ l)) ->
  zlen (clear_items m) = NumSectors - zlen l.
Proof.
  intros Hn Hnd Hr Hb.
  assert (seqZ 0 NumSectors ≡ₚ l ++ clear_items m) as Hp.
  { apply NoDup_Permutation; [apply NoDup_seqZ| |].
    - apply NoDup_app. split_and!; [done| |apply NoDup_clear_items].
      intros x Hx [_ Hbx]%elem_of_clear_items. rewrite Hb in Hbx by (by apply Hr).
      by apply bool_decide_eq_false in Hbx.
    - intros x. rewrite elem_of_seqZ, elem_of_app, elem_of_clear_items, Hn. split.
      + intros Hx. destruct (decide (x ∈ l)) as [|Hni]; [by left|right].
        rewrite Hb by lia. split; [lia|]. by rewrite bool_decide_eq_false.
      + intros [Hx%Hr|[Hx _]]; lia. }
  apply Permutation_length in Hp. rewrite length_app, length_seqZ in Hp.
  unfold zlen, NumSectors in *. lia.
Qed.

(** The four sectors of an empty file system leave 1020. *)
Lemma layout_free m mh dh :
  let sys := [FreeMapSector; DirectorySector] ++ used_sectors mh ++ used_sectors dh in
  hdr_ok mh -> numBytes mh = FreeMapFileSize -> hdr_ok dh -> numBytes dh = DirectoryFileSize ->
  numBits m = NumSectors -> NoDup sys ->
  (forall s, 0 <= s < NumSectors -> bit m s = bool_decide (s ∈ sys)) ->
  zlen (clear_items m) = 1020.
Proof.
  intros sys Hmh Hmn Hdh Hdn Hnb Hnd Hbits. rewrite (free_count m sys); try done.
  - assert (forall h, hdr_ok h -> divRoundUp (numBytes h) SectorSize = 1 -> zlen (used_sectors h) = 1)
      as Hone.
    { intros h Hh Hs. unfold used_sectors. rewrite zlen_slice, (hs_len _ (ho_shape _ Hh)) by done.
      by rewrite (ho_sectors _ Hh), Hs. }
    unfold sys.
    rewrite !zlen_app, (Hone mh Hmh), (Hone dh Hdh) by (rewrite ?Hmn, ?Hdn; reflexivity).
    reflexivity.
  - intros s. unfold sys. rewrite !elem_of_app.
    intros [Hs|[Hs|Hs]]; [|by apply (hdr_sector_range mh)|by apply (hdr_sector_range dh)].
    unfold FreeMapSector, DirectorySector, NumSectors in *. set_unfold. lia.
Qed.

Lemma format_disk_spec d :
  store_ok d ->
  exists d' mf df m t, format_disk junk junk_words junk_entries junk_hdr d = Ok ((mf, df), d') /\
    forall l, fs_inv d' (mkFileSystem mf df l) m t ∅ /\ zlen (clear_items m) = 1020.
Proof using All.
  intros Hd.
  destruct format_layout as (m0 & m1 & m2 & m3 & m & mh & dh & H0 & H1 & H2 & H3 & H4 & Hmh & Hmn &
    Hdh & Hdn & Hwf & Hnb & Hnd & Hbits).
  destruct new_Directory_spec as (t & Ht & Hlt & Hot & Hut).
  assert (keys t = []) as Hkeys.
  { unfold keys. rewrite filter_none; [done|]. eapply Forall_impl; [exact Hut|].
    intros e He. simpl. congruence. }
  assert (dir_ok (mkDirectory NumDirEntries t)) as Hdir.
  { split; simpl; [done|done|]. rewrite Hkeys. apply NoDup_nil_2. }
  unfold format_disk.
  rewrite (lift_bind_Ok _ _ _ _ H0), (lift_bind_Ok _ _ _ _ Ht), (lift_bind_Ok _ _ _ _ H1),
    (lift_bind_Ok _ _ _ _ H2), (lift_bind_Ok _ _ _ _ H3).
  rewrite (st_bind_Ok _ _ _ _ _ (eq_refl : assert_ true d = Ok (tt, d))).
  rewrite (lift_bind_Ok _ _ _ _ H4).
  rewrite (st_bind_Ok _ _ _ _ _ (eq_refl : assert_ true d = Ok (tt, d))).
  destruct (write_sector_law d FreeMapSector (encode_hdr mh) Hd ltac:(done)) as (d1 & W1 & Hd1 & S1);
    [apply encode_len, Hmh|apply encode_bytes|].
  rewrite (st_bind_Ok _ _ _ _ _ (W1 : hdr_WriteBack mh FreeMapSector d = _)).
  destruct (write_sector_law d1 DirectorySector (encode_hdr dh) Hd1 ltac:(done))
    as (d2 & W2 & Hd2 & S2); [apply encode_len, Hdh|apply encode_bytes|].
  rewrite (st_bind_Ok _ _ _ _ _ (W2 : hdr_WriteBack dh DirectorySector d1 = _)).
  assert (decode_hdr (sector d2 FreeMapSector) = Ok mh) as Dm.
  { rewrite S2, decide_False, S1, decide_True by done. apply FileHdr.decode_encode, Hmh. }
  assert (decode_hdr (sector d2 DirectorySector) = Ok dh) as Dd.
  { rewrite S2, decide_True by done. apply FileHdr.decode_encode, Hdh. }
  destruct (new_OpenFile_at d2 FreeMapSector mh Hd2 ltac:(done) Dm) as (d3 & O3 & Hd3 & S3).
  rewrite (st_bind_Ok _ _ _ _ _ O3).
  rewrite <-S3 in Dm, Dd by done.
  destruct (new_OpenFile_at d3 DirectorySector dh Hd3 ltac:(done) Dd) as (d4 & O4 & Hd4 & S4).
  rewrite (st_bind_Ok _ _ _ _ _ O4).
  rewrite <-S4 in Dm, Dd by done.
  set (mf := mkOpenFile mh FreeMapSector None 0). set (df := mkOpenFile dh DirectorySector None 0).
  destruct (map_WriteBack_spec d4 mf m) as (d5 & W5 & Hd5 & C5 & S5); try done.
  rewrite (st_bind_Ok _ _ _ _ _ W5).
  destruct (dir_WriteBack_spec junk d5 df (mkDirectory NumDirEntries t)) as (d6 & W6 & Hd6 & T6 & S6);
    try done; [apply Hjunk|cbn [hdr df tableSize]; by rewrite Hdn|].
  rewrite (st_bind_Ok _ _ _ _ _ W6).
  exists d6, mf, df, m, t. split; [done|]. intros l.
  pose proof Hnd as Hnd'. simpl in Hnd'. apply NoDup_cons in Hnd' as [N0 Hnd'].
  apply NoDup_cons in Hnd' as [N1 Hnd']. apply NoDup_app in Hnd' as (_ & Hdis & _).
  split.
  - split; try done; simpl.
    + rewrite S6, S5; [done|done|set_solver|done|set_solver].
    + rewrite S6, S5; [done|done|set_solver|done|set_solver].
    + rewrite (content_ext d5 d6); [exact C5|done|]. intros s Hs. apply S6; [by apply (hdr_sector_range mh)|].
      by apply Hdis.
    + intros k. rewrite lookup_empty. simpl. apply eq_None_not_Some.
      rewrite lookup_dir_keys, Hkeys. by intros ?%elem_of_nil.
    + intros s Hs. rewrite Hbits, bool_decide_eq_true by done. unfold owned. split; [by left|].
      intros [?|(k & x & Hk & _)]; [done|]. by rewrite lookup_empty in Hk.
  - by apply (layout_free m mh dh).
Qed.

(** ** The constructor *)

(** A directory with fewer than ten names has a free entry. *)
Lemma directory_room d fs m t fm :
  fs_inv d fs m t fm -> Z.of_nat (size fm) < NumDirEntries ->
  ~ Forall (fun e => inUse e = true) t.
Proof.
  intros [] Hsize Hfull. destruct fi_dir0 as [Hl _ Hk]. cbn [table tableSize] in Hl, Hk.
  assert (length (keys t) = length t) as Hlen
    by (unfold keys; rewrite length_fmap, filter_all by done; done).
  assert (keys t ⊆ elements (dom fm)) as Hsub.
  { intros k Hin%lookup_dir_keys. rewrite fi_lookup0, fmap_is_Some in Hin.
    apply elem_of_elements. by apply elem_of_dom. }
  pose proof (submseteq_length _ _ (NoDup_submseteq _ _ Hk Hsub)) as Hle.
  change (length (elements (dom fm))) with (size (dom fm)) in Hle. rewrite size_dom in Hle.
  unfold zlen in Hl. lia.
Qed.

(** Reading the two headers again. *)
Lemma open_disk_spec d fs m t fm :
  fs_inv d fs m t fm ->
  exists d' mf df, open_disk d = Ok ((mf, df), d') /\ same_sectors d d' /\
    hdr mf = hdr (freeMapFile fs) /\ hdr df = hdr (directoryFile fs) /\
    forall l, fs_inv d' (mkFileSystem mf df l) m t fm.
Proof.
  intros Hinv. pose proof Hinv as []. unfold open_disk.
  destruct (new_OpenFile_at d FreeMapSector _ fi_store0 ltac:(done) fi_mh_sector0)
    as (d1 & O1 & Hd1 & S1).
  rewrite (st_bind_Ok _ _ _ _ _ O1).
  rewrite <-S1 in fi_dh_sector0 by done.
  destruct (new_OpenFile_at d1 DirectorySector _ Hd1 ltac:(done) fi_dh_sector0)
    as (d2 & O2 & Hd2 & S2).
  rewrite (st_bind_Ok _ _ _ _ _ O2). eexists d2, _, _. split; [done|].
  assert (same_sectors d d2) as Hs by (by eapply same_sectors_trans).
  split_and!; [done|done|done|]. intros l.
  destruct (fs_inv_same d d2 fs m t fm Hinv Hd2 Hs). by split.
Qed.

(** Room for [n] more small files. *)
Definition room (m : BitMap) (fm : fmap_t) (n : Z) : Prop :=
  Z.of_nat (size fm) + n <= NumDirEntries /\ 2 * n <= zlen (clear_items m).

(** Creating a file of at most one sector: it is there afterwards, and the
    others are as before. *)
Lemma ensure_file d fs m t fm s sz n :
  fs_inv d fs m t fm -> is_name s -> 0 < sz <= SectorSize -> 0 <= n ->
  (is_Some (fm !! key_of s) \/ room m fm (1 + n)) ->
  exists b d' m' t' fm', create fs (c_str s) sz d = Ok (b, d') /\ fs_inv d' fs m' t' fm' /\
    is_Some (fm' !! key_of s) /\ fm ⊆ fm' /\
    (forall k, k <> key_of s -> fm' !! k = fm !! k) /\
    (forall k x, fm !! k = Some x -> content d' x.2 = content d x.2) /\
    (is_Some (fm !! key_of s) -> fm' = fm) /\ (room m fm (1 + n) -> room m' fm' n).
Proof using All.
  intros Hinv Hs Hsz Hn Hroom.
  assert (divRoundUp sz SectorSize = 1) as H1.
  { pose proof (divRoundUp_spec sz SectorSize ltac:(lia) eq_refl). unfold SectorSize in *. lia. }
  pose proof (Create_spec d fs m t fm s sz Hinv Hs) as HC. rewrite H1 in HC.
  unfold MaxFileSize, NumDirect, SectorSize in *. specialize (HC ltac:(lia)).
  destruct (decide (can_create m t fm (key_of s) sz)) as [Hc|Hc].
  - destruct HC as (d' & m' & t' & sec & h & HC & Hinv' & _ & Hcont & Hfree).
    destruct Hc as (Hnone & _ & _).
    exists true, d', m', t', (<[key_of s := (sec, h)]> fm). split_and!; try done.
    + by rewrite lookup_insert_eq.
    + by apply insert_subseteq.
    + intros k Hk. by apply lookup_insert_ne.
    + rewrite Hnone. by intros [? ?].
    + intros [Ha Hb]. split; [rewrite map_size_insert, Hnone|]; lia.
  - destruct HC as (d' & HC & Hinv' & Hss). exists false, d', m, t, fm.
    assert (is_Some (fm !! key_of s)) as Hin.
    { destruct Hroom as [?|[Ha Hb]]; [done|]. apply not_eq_None_Some. intros Hnone. apply Hc.
      split_and!; [done|eapply directory_room; [done|lia]|]. unfold SectorSize. rewrite H1. lia. }
    split_and!; try done.
    + intros k [sec h] Hk. simpl. apply content_same; [|done].
      destruct (fi_file _ _ _ _ _ Hinv _ _ _ Hk) as (_ & _ & Hh & _). done.
    + intros [Ha Hb]. split; lia.
Qed.

(** What the constructor does once the two system files are open. *)
Lemma new_FileSystem_spec d0 d (format : bool) mf df m t fm :
  (if format then format_disk junk junk_words junk_entries junk_hdr else open_disk) d0 =
    Ok ((mf, df), d) ->
  (forall l, fs_inv d (mkFileSystem mf df l) m t fm) ->
  ((is_Some (fm !! stdin_name) /\ is_Some (fm !! stdout_name)) \/ room m fm 2) ->
  exists d' fs' m' t' fm', new_FileSystem junk junk_words junk_entries junk_hdr format d0 = Ok (fs', d') /\
    fs_inv d' fs' m' t' fm' /\ fm ⊆ fm' /\
    dom fm' = dom fm ∪ {[ stdin_name; stdout_name ]} /\
    (forall k x, fm !! k = Some x -> content d' x.2 = content d x.2) /\
    exists f0 f1, openFileList fs' = [Some f0; Some f1] ++ replicate 8 None /\
      fm' !! stdin_name = Some (fileID f0, hdr f0) /\ GetType f0 = Ok 2 /\
      fm' !! stdout_name = Some (fileID f1, hdr f1) /\ GetType f1 = Ok 3.
Proof using All.
  intros Hopen Hinv Hroom. unfold new_FileSystem. rewrite (st_bind_Ok _ _ _ _ _ Hopen).
  set (fs := mkFileSystem mf df (replicate 10 None)). specialize (Hinv (replicate 10 None)).
  fold fs in Hinv.
  assert (is_name stdin_name /\ is_name stdout_name) as [N0 N1].
  { unfold is_name, stdin_name, stdout_name. split; repeat constructor; lia. }
  destruct (ensure_file d fs m t fm stdin_name 2 1 Hinv N0)
    as (b1 & d1 & m1 & t1 & fm1 & C1 & I1 & P1 & Sub1 & Oth1 & Con1 & Eq1 & R1);
    [done|done|destruct Hroom as [[? ?]|?]; [by left|by right]|].
  rewrite (st_bind_Ok _ _ _ _ _ C1).
  destruct (ensure_file d1 fs m1 t1 fm1 stdout_name 3 0 I1 N1)
    as (b2 & d2 & m2 & t2 & fm2 & C2 & I2 & P2 & Sub2 & Oth2 & Con2 & Eq2 & R2); [done|done| |].
  { destruct Hroom as [[? ?]|?]; [left; by rewrite Eq1|right; by apply R1]. }
  rewrite (st_bind_Ok _ _ _ _ _ C2).
  destruct (Open_spec d2 fs m2 t2 fm2 stdin_name I2 N0) as (d3 & I3 & S3 & _ & O3).
  rewrite (st_bind_Ok _ _ _ _ _ (O3 2)).
  destruct (Open_spec d3 fs m2 t2 fm2 stdout_name I3 N1) as (d4 & I4 & S4 & _ & O4).
  rewrite (st_bind_Ok _ _ _ _ _ (O4 3)).
  change (key_of stdin_name) with stdin_name in *. change (key_of stdout_name) with stdout_name in *.
  assert (stdin_name <> stdout_name) as Hne by (unfold stdin_name, stdout_name; congruence).
  rewrite (Oth2 stdin_name Hne).
  destruct P1 as [[s0 h0] P1], P2 as [[s1 h1] P2]. rewrite P1, P2.
  eexists d4, _, m2, t2, fm2. split; [reflexivity|]. split_and!.
  - by destruct I4.
  - by transitivity fm1.
  - apply set_eq. intros k. rewrite elem_of_union, !elem_of_dom, elem_of_union, !elem_of_singleton.
    destruct (decide (k = stdout_name)) as [->|Hk1]; [rewrite P2; naive_solver|].
    rewrite Oth2 by done. destruct (decide (k = stdin_name)) as [->|Hk0]; [rewrite P1; naive_solver|].
    rewrite Oth1 by done. naive_solver.
  - intros k [sec h] Hk. pose proof (lookup_weaken _ _ _ _ Hk Sub1) as Hk1.
    pose proof (lookup_weaken _ _ _ _ Hk1 Sub2) as Hk2. simpl.
    rewrite (content_same d2 d4); [|by apply (fi_file _ _ _ _ _ I2 _ _ _ Hk2)|
      by eapply same_sectors_trans].
    pose proof (Con2 k _ Hk1) as E2. pose proof (Con1 k _ Hk) as E1. simpl in E1, E2.
    by rewrite E2, E1.
  - exists (mkOpenFile h0 s0 (Some 2) 0), (mkOpenFile h1 s1 (Some 3) 0).
    split_and!; try done. by rewrite (Oth2 stdin_name Hne).
Qed.
End specs.

(** ** The table of open files *)

Lemma find_free_block_spec (l : list (option OpenFile)) n : forall i,
  0 <= i -> i + Z.of_nat n <= zlen l ->
  exists r, find_free_block n i l = Ok r /\
    ((r = -1 /\ forall j, i <= j < i + Z.of_nat n -> zget l j <> Some None) \/
     (i <= r < i + Z.of_nat n /\ zget l r = Some None /\
      forall j, i <= j < r -> zget l j <> Some None)).
Proof.
  induction n as [|n IH]; intros i Hi Hn; simpl.
  - exists (-1). split; [done|]. left. split; [done|]. intros. lia.
  - destruct (rd_total l i) as (o & Ho & Hg); [lia|]. rewrite Ho. simpl. destruct o as [f|].
    + destruct (IH (i + 1)) as (r & Hr & Hc); [lia|lia|]. exists r. split; [done|].
      assert (zget l i <> Some None) as Hi' by congruence.
      destruct Hc as [[-> Hc]|(Hr' & Hz & Hc)]; [left|right].
      * split; [done|]. intros j Hj. destruct (decide (j = i)) as [->|]; [done|]. apply Hc. lia.
      * split; [lia|]. split; [done|]. intros j Hj.
        destruct (decide (j = i)) as [->|]; [done|]. apply Hc. lia.
    + exists i. split; [done|]. right. split; [lia|]. split; [done|]. intros. lia.
Qed.

(** ** Properties *)

(** C2. [Create] on a sound file system, for any name and any size up to 126
    sectors.  If the name (its first nine characters) is new, the directory
    has a free entry and the disk a sector for the header and enough for the
    data, it returns TRUE, the disk then holds a sound file system with
    exactly that file more, of the size asked for, the contents of all other
    files are as before, and the free sectors decrease by the header's and
    the data's.  Otherwise it returns FALSE and no sector has changed. *)
Theorem create_file {D} `{SectorStoreLaws D} (junk : Z -> Z) (junk_words : list Z)
    (junk_entries : list DirectoryEntry) (junk_hdr : FileHeader)
    (d : D) (fs : FileSystem) (m : BitMap) (t : list DirectoryEntry) (fm : fmap_t)
    (s : list Z) (size : Z) :
  junk_ok junk junk_words junk_entries junk_hdr ->
  fs_inv d fs m t fm -> is_name s -> 0 <= size <= MaxFileSize ->
  if decide (can_create m t fm (key_of s) size) then
    exists d' m' t' sec h,
      Create junk junk_words junk_entries junk_hdr fs (c_str s) size d = Ok (true, d') /\
      fs_inv d' fs m' t' (<[key_of s := (sec, h)]> fm) /\ numBytes h = size /\
      (forall k x, fm !! k = Some x -> content d' x.2 = content d x.2) /\
      zlen (clear_items m') = zlen (clear_items m) - (divRoundUp size SectorSize + 1)
  else exists d',
      Create junk junk_words junk_entries junk_hdr fs (c_str s) size d = Ok (false, d') /\
      fs_inv d' fs m t fm /\ same_sectors d d'.
Proof. intros Hj. by apply Create_spec. Qed.

(** C15. [Remove] on a sound file system: for a name that is there it returns
    TRUE, the disk then holds a sound file system without that file, exactly
    its header sector and data sectors have become free, and no other file
    changed; for any other name it returns FALSE and no sector has changed. *)
Theorem remove_file {D} `{SectorStoreLaws D} (junk : Z -> Z) (junk_words : list Z)
    (junk_entries : list DirectoryEntry) (junk_hdr : FileHeader)
    (d : D) (fs : FileSystem) (m : BitMap) (t : list DirectoryEntry) (fm : fmap_t) (s : list Z) :
  junk_ok junk junk_words junk_entries junk_hdr ->
  fs_inv d fs m t fm -> is_name s ->
  match fm !! key_of s with
  | None => exists d', Remove junk junk_words junk_entries fs (c_str s) d = Ok (false, d') /\
      fs_inv d' fs m t fm /\ same_sectors d d'
  | Some (sec, h) => exists d' m' t',
      Remove junk junk_words junk_entries fs (c_str s) d = Ok (true, d') /\
      fs_inv d' fs m' t' (delete (key_of s) fm) /\
      (forall x, bit m' x = negb (bool_decide (x ∈ file_sectors (sec, h))) && bit m x) /\
      forall k x, fm !! k = Some x -> content d' x.2 = content d x.2
  end.
Proof. intros Hj. by eapply Remove_spec. Qed.

(** C17. [Open] returns NULL exactly when the name is not in the file system;
    otherwise the file it returns can be written: [WriteAt] then stores the
    bytes that fit in the file at that position, leaves every other file's
    content and the file system's structure as they are, and returns how many
    bytes it wrote. *)
Theorem open_then_write {D} `{SectorStoreLaws D} (junk : Z -> Z) (junk_words : list Z)
    (junk_entries : list DirectoryEntry) (junk_hdr : FileHeader)
    (d : D) (fs : FileSystem) (m : BitMap) (t : list DirectoryEntry) (fm : fmap_t)
    (s from : list Z) (n pos : Z) :
  junk_ok junk junk_words junk_entries junk_hdr ->
  fs_inv d fs m t fm -> is_name s ->
  0 <= pos -> pos + n < two31 -> n <= zlen from -> Forall is_byte from ->
  exists d', fs_inv d' fs m t fm /\ same_sectors d d' /\
    match fm !! key_of s with
    | None => Open junk junk_entries fs (c_str s) d = Ok (None, d')
    | Some (sec, h) =>
        let f := mkOpenFile h sec None 0 in
        let r := Z.max 0 (Z.min n (numBytes h - pos)) in
        Open junk junk_entries fs (c_str s) d = Ok (Some f, d') /\
        exists d'', WriteAt junk f from n pos d' = Ok (r, d'') /\ fs_inv d'' fs m t fm /\
          content d'' h = splice pos (slice 0 r from) (content d h) /\
          forall k x, k <> key_of s -> fm !! k = Some x -> content d'' x.2 = content d x.2
    end.
Proof.
  intros Hj Hinv Hs Hpos Hn Hlen Hb.
  destruct (Open_spec junk junk_words junk_entries junk_hdr Hj d fs m t fm s Hinv Hs)
    as (d' & Hinv' & Hss & Ho & _).
  exists d'. split; [done|]. split; [done|].
  assert (forall k x, fm !! k = Some x -> content d' x.2 = content d x.2) as Hc.
  { intros k [sec h] Hk. apply content_same; [|done].
    by apply (fi_file _ _ _ _ _ Hinv _ _ _ Hk). }
  destruct (fm !! key_of s) as [[sec h]|] eqn:Ek; [|done]. split; [done|].
  destruct (fs_WriteAt_spec junk junk_words junk_entries junk_hdr Hj d' fs m t fm (key_of s) sec
    (mkOpenFile h sec None 0) from n pos) as (d'' & Hw & Hi & Hcw & Hoth); try done.
  { pose proof (zlen_nonneg from). lia. }
  exists d''. split_and!; try done.
  - pose proof (Hc _ _ Ek) as E. simpl in Hcw, E. by rewrite Hcw, E.
  - intros k x Hne Hx. by rewrite (Hoth k x Hne Hx), (Hc k x Hx).
Qed.

(** C16. Booting the file system.  Formatting any disk gives a sound file
    system that holds exactly the files stdin and stdout, both open in slots
    0 and 1 with types 2 and 3.  Booting without formatting a disk that
    holds a sound file system (with the two files, or room for them) gives
    the same files with the same contents. *)
Theorem boot_file_system {D} `{SectorStoreLaws D} (junk : Z -> Z) (junk_words : list Z)
    (junk_entries : list DirectoryEntry) (junk_hdr : FileHeader) (d : D) (format : bool)
    (fs : FileSystem) (m : BitMap) (t : list DirectoryEntry) (fm : fmap_t) :
  junk_ok junk junk_words junk_entries junk_hdr -> store_ok d ->
  (if format then fm = ∅
   else fs_inv d fs m t fm /\
     ((is_Some (fm !! stdin_name) /\ is_Some (fm !! stdout_name)) \/ room m fm 2)) ->
  exists d' fs' m' t' fm',
    new_FileSystem junk junk_words junk_entries junk_hdr format d = Ok (fs', d') /\
    fs_inv d' fs' m' t' fm' /\ fm ⊆ fm' /\ dom fm' = dom fm ∪ {[ stdin_name; stdout_name ]} /\
    (forall k x, fm !! k = Some x -> content d' x.2 = content d x.2) /\
    exists f0 f1, openFileList fs' = [Some f0; Some f1] ++ replicate 8 None /\
      fm' !! stdin_name = Some (fileID f0, hdr f0) /\ GetType f0 = Ok 2 /\
      fm' !! stdout_name = Some (fileID f1, hdr f1) /\ GetType f1 = Ok 3.
Proof.
  intros Hj Hd Hpre. destruct format.
  - subst fm. destruct (format_disk_spec junk junk_words junk_entries junk_hdr Hj d Hd)
      as (d0 & mf & df & m0 & t0 & Hf & Hall).
    destruct (new_FileSystem_spec junk junk_words junk_entries junk_hdr Hj d d0 true mf df m0 t0 ∅ Hf)
      as (d' & fs' & m' & t' & fm' & Hn & Hi & Hsub & Hdom & _ & Hfiles).
    + intros l. apply Hall.
    + right. destruct (Hall []) as [_ Hfree]. split; [done|lia].
    + exists d', fs', m', t', fm'. split_and!; done.
  - destruct Hpre as [Hinv Hroom].
    destruct (open_disk_spec d fs m t fm Hinv) as (d0 & mf & df & Ho & Hss & _ & _ & Hall).
    destruct (new_FileSystem_spec junk junk_words junk_entries junk_hdr Hj d d0 false mf df m t fm Ho Hall
      Hroom) as (d' & fs' & m' & t' & fm' & Hn & Hi & Hsub & Hdom & Hcon & Hfiles).
    exists d', fs', m', t', fm'. split_and!; try done.
    intros k [sec h] Hk. rewrite (Hcon k _ Hk). apply content_same; [|done].
    by apply (fi_file _ _ _ _ _ Hinv _ _ _ Hk).
Qed.

(** A memory that holds zeroes everywhere. *)
Definition zero_entry : DirectoryEntry :=
  mkDirectoryEntry false [0; 0; 0] 0 (replicate 10 0) [0; 0].
Definition zero_hdr : FileHeader := mkFileHeader 0 0 (replicate 126 0).
Lemma zero_junk_ok : junk_ok (fun _ => 0) (replicate 32 0) (replicate 10 zero_entry) zero_hdr.
Proof.
  split; try done.
  - apply Forall_replicate. unfold_int. lia.
  - apply Forall_replicate. split; try done.
    repeat (constructor; [unfold_int; lia|]). constructor.
  - split; [reflexivity|]. unfold zero_hdr. cbn [numBytes numSectors dataSectors].
    do 2 (constructor; [unfold_int; lia|]). apply Forall_replicate. unfold_int. lia.
Qed.
(** The name "f". *)
Definition sample_name : list Z := [102].
Lemma sample_name_ok : is_name sample_name.
Proof. unfold is_name, sample_name. repeat constructor; lia. Qed.
(** A formatted disk. *)
Lemma formatted_blank :
  exists (d : gmap Z (list Z)) fs m t, fs_inv d fs m t ∅ /\ zlen (clear_items m) = 1020.
Proof.
  destruct (format_disk_spec _ _ _ _ zero_junk_ok blank blank_ok) as (d & mf & df & m & t & _ & Hall).
  exists d, (mkFileSystem mf df []), m, t. apply Hall.
Qed.

Lemma create_file_witness :
  exists (d d' : gmap Z (list Z)) fs sec h m' t',
    Create (fun _ => 0) (replicate 32 0) (replicate 10 zero_entry) zero_hdr fs
      (c_str sample_name) 700 d = Ok (true, d') /\
    fs_inv d' fs m' t' {[ sample_name := (sec, h) ]} /\ zlen (clear_items m') = 1017.
Proof.
  destruct formatted_blank as (d & fs & m & t & Hinv & Hfree).
  pose proof (create_file _ _ _ _ d fs m t ∅ sample_name 700 zero_junk_ok Hinv sample_name_ok
    ltac:(unfold MaxFileSize, NumDirect, SectorSize; lia)) as HC.
  rewrite decide_True in HC.
  - destruct HC as (d' & m' & t' & sec & h & HC & Hi & _ & _ & Hf).
    exists d, d', fs, sec, h, m', t'. split; [exact HC|]. split; [exact Hi|]. rewrite Hf, Hfree.
    reflexivity.
  - split; [done|]. split; [by eapply directory_room|]. rewrite Hfree. done.
Defined.

(** A disk with one file, of 700 bytes. *)
Lemma one_file_disk :
  exists (d : gmap Z (list Z)) fs m t sec h,
    fs_inv d fs m t {[ sample_name := (sec, h) ]} /\ numBytes h = 700.
Proof.
  destruct formatted_blank as (d & fs & m & t & Hinv & Hfree).
  pose proof (Create_spec _ _ _ _ zero_junk_ok d fs m t ∅ sample_name 700 Hinv sample_name_ok
    ltac:(unfold MaxFileSize, NumDirect, SectorSize; lia)) as HC.
  rewrite decide_True in HC.
  - destruct HC as (d' & m' & t' & sec & h & _ & Hi & Hn & _). by exists d', fs, m', t', sec, h.
  - split; [done|]. split; [by eapply directory_room|]. rewrite Hfree. done.
Qed.

Lemma remove_file_witness :
  exists (d d' : gmap Z (list Z)) fs m' t',
    Remove (fun _ => 0) (replicate 32 0) (replicate 10 zero_entry) fs (c_str sample_name) d =
      Ok (true, d') /\ fs_inv d' fs m' t' ∅.
Proof.
  destruct one_file_disk as (d & fs & m & t & sec & h & Hinv & _).
  pose proof (remove_file _ _ _ _ d fs m t _ sample_name zero_junk_ok Hinv sample_name_ok) as HR.
  change (key_of sample_name) with sample_name in HR. rewrite lookup_singleton_eq in HR.
  destruct HR as (d' & m' & t' & HR & Hi & _). rewrite delete_singleton_eq in Hi.
  exists d, d', fs, m', t'. split; [exact HR|exact Hi].
Defined.

Lemma open_then_write_witness :
  exists (d d' d'' : gmap Z (list Z)) fs f,
    Open (fun _ => 0) (replicate 10 zero_entry) fs (c_str sample_name) d = Ok (Some f, d') /\
    WriteAt (fun _ => 0) f [1; 2] 2 699 d' = Ok (1, d'').
Proof.
  destruct one_file_disk as (d & fs & m & t & sec & h & Hinv & Hn).
  destruct (open_then_write _ _ _ _ d fs m t _ sample_name [1; 2] 2 699 zero_junk_ok Hinv sample_name_ok)
    as (d' & _ & _ & HO); try done.
  - repeat constructor; unfold_int; lia.
  - change (key_of sample_name) with sample_name in HO. rewrite lookup_singleton_eq, Hn in HO.
    destruct HO as (HO & d'' & HW & _). eexists d, d', d'', fs, _. split; [exact HO|exact HW].
Defined.

Lemma boot_file_system_witness :
  exists (d' : gmap Z (list Z)) fs' m' t' fm',
    new_FileSystem (fun _ => 0) (replicate 32 0) (replicate 10 zero_entry) zero_hdr true blank =
      Ok (fs', d') /\ fs_inv d' fs' m' t' fm' /\ dom fm' = {[ stdin_name; stdout_name ]}.
Proof.
  destruct (boot_file_system _ _ _ _ blank true (mkFileSystem sample_file sample_file [])
    (mkBitMap 0 0 []) [] ∅ zero_junk_ok blank_ok eq_refl)
    as (d' & fs' & m' & t' & fm' & HN & Hi & _ & Hdom & _).
  exists d', fs', m', t', fm'. split; [exact HN|]. split; [exact Hi|].
  rewrite Hdom, dom_empty_L. apply (left_id_L ∅ (∪)).
Defined.
