(* ===== verification/Machine.v ===== *)
(** * machine/machine.cc, machine/translate.cc: registers, memory and address
    translation of the simulated MIPS machine

    The machine is a record of the registers, the memory (bytes), and a page
    table or a TLB.  It is one half of the [world] of the simulation (the
    other half, of type [K], belongs to the kernel); the kernel's
    [ExceptionHandler] is an argument of the section.  Translation checks
    alignment, presence, protection and range; the theorems say exactly when
    it succeeds, that a physical address is always inside the memory, and
    that what is written to a virtual address is read back there. *)

From S2P Require Import Prelude Interrupt Disk.
From stdpp Require Import list.
#[local] Open Scope Z_scope.

Definition PageSize : Z := SectorSize.
Definition NumPhysPages : Z := 128.
Definition MemorySize : Z := NumPhysPages * PageSize.
Definition TLBSize : Z := 4.

Inductive ExceptionType :=
| NoException
| SyscallException
| PageFaultException
| ReadOnlyException
| BusErrorException
| AddressErrorException
| OverflowException
| IllegalInstrException
| NumExceptionTypes.
#[export] Instance ExceptionType_eq_dec : EqDecision ExceptionType.
Proof. solve_decision. Defined.

Definition StackReg : Z := 29.
Definition RetAddrReg : Z := 31.
Definition NumGPRegs : Z := 32.
Definition HiReg : Z := 32.
Definition LoReg : Z := 33.
Definition PCReg : Z := 34.
Definition NextPCReg : Z := 35.
Definition PrevPCReg : Z := 36.
Definition LoadReg : Z := 37.
Definition LoadValueReg : Z := 38.
Definition BadVAddrReg : Z := 39.
Definition NumTotalRegs : Z := 40.

Record TranslationEntry := mkTranslationEntry {
  virtualPage : Z;
  physicalPage : Z;
  valid : bool;
  readOnly : bool;
  use : bool;
  dirty : bool
}.

(** [pageTable] and [tlb] are pointers: [None] is NULL. *)
Record Machine := mkMachine {
  registers : list Z;
  mainMemory : list Z;
  tlb : option (list TranslationEntry);
  pageTable : option (list TranslationEntry);
  pageTableSize : Z;
  singleStep : bool;
  runUntilTime : Z
}.

(** The machine and the rest of the system. *)
Record cpu (K : Type) := mkCpu { mach : Machine; os : K }.
Arguments mkCpu {K}.
Arguments mach {K}.
Arguments os {K}.

Definition set_registers (m : Machine) v : Machine :=
  mkMachine v (mainMemory m) (tlb m) (pageTable m) (pageTableSize m) (singleStep m) (runUntilTime m).
Definition set_mainMemory (m : Machine) v : Machine :=
  mkMachine (registers m) v (tlb m) (pageTable m) (pageTableSize m) (singleStep m) (runUntilTime m).
Definition set_tlb (m : Machine) v : Machine :=
  mkMachine (registers m) (mainMemory m) v (pageTable m) (pageTableSize m) (singleStep m) (runUntilTime m).
Definition set_pageTable (m : Machine) v : Machine :=
  mkMachine (registers m) (mainMemory m) (tlb m) v (pageTableSize m) (singleStep m) (runUntilTime m).

(** The constructor; [use_tlb] is the build option USE_TLB, [entries] what
    [new TranslationEntry[TLBSize]] holds, [size0] and [until0] the two fields
    the constructor does not set. *)
Definition new_Machine (use_tlb : bool) (entries : list TranslationEntry) (size0 until0 : Z)
    (debug : bool) : res Machine :=
  let r := replicate (Z.to_nat NumTotalRegs) 0 in
  let m := replicate (Z.to_nat MemorySize) 0 in
  t ← (if use_tlb then
         t ← for_range 0 TLBSize (fun i t =>
           e ← rd t i;
           wr t i (mkTranslationEntry (virtualPage e) (physicalPage e) false (readOnly e) (use e) (dirty e)))
           entries;
         Ok (Some t)
       else Ok None);
  Ok (mkMachine r m t None size0 debug until0).

(** ** Registers *)

Definition ReadRegister (m : Machine) (num : Z) : res Z :=
  ASSERT ((0 <=? num) && (num <? NumTotalRegs)); rd (registers m) num.
Definition WriteRegister (m : Machine) (num value : Z) : res Machine :=
  ASSERT ((0 <=? num) && (num <? NumTotalRegs));
  r ← wr (registers m) num value; Ok (set_registers m r).

(** machine/mipssim.cc *)
Definition DelayedLoad (m : Machine) (nextReg nextValue : Z) : res Machine :=
  l ← rd (registers m) LoadReg;
  v ← rd (registers m) LoadValueReg;
  r ← wr (registers m) l v;
  r ← wr r LoadReg nextReg;
  r ← wr r LoadValueReg nextValue;
  r ← wr r 0 0;
  Ok (set_registers m r).

(** ** Translation *)

(** The loop over the TLB: the index of the first valid entry for [vpn]. *)
Fixpoint tlb_loop (n : nat) (i : Z) (t : list TranslationEntry) (vpn : Z) : res (option Z) :=
  match n with
  | O => Ok None
  | S n' =>
      e ← rd t i;
      if valid e && (to_uint (virtualPage e) =? vpn) then Ok (Some i)
      else tlb_loop n' (i + 1) t vpn
  end.

(** The entry that maps [vpn]: its place in the table, or an exception. *)
Definition find_entry (m : Machine) (vpn : Z) : res (ExceptionType + Z) :=
  match tlb m with
  | None =>
      if pageTableSize m <=? vpn then Ok (inl AddressErrorException)
      else
        t ← match pageTable m with Some t => Ok t | None => UB end;
        e ← rd t vpn;
        if negb (valid e) then Ok (inl PageFaultException) else Ok (inr vpn)
  | Some t =>
      o ← tlb_loop (Z.to_nat TLBSize) 0 t vpn;
      match o with
      | None => Ok (inl PageFaultException)
      | Some i => Ok (inr i)
      end
  end.

(** [entry]: a place in the TLB or in the page table. *)
Definition the_table (m : Machine) : res (list TranslationEntry) :=
  match tlb m with
  | Some t => Ok t
  | None => match pageTable m with Some t => Ok t | None => UB end
  end.
Definition set_table (m : Machine) (t : list TranslationEntry) : Machine :=
  match tlb m with
  | Some _ => set_tlb m (Some t)
  | None => set_pageTable m (Some t)
  end.

(** [Translate]: the exception, or [inr physAddr]. *)
Definition Translate (m : Machine) (virtAddr size : Z) (writing : bool)
  : res ((ExceptionType + Z) * Machine) :=
  if ((size =? 4) && negb (Z.land virtAddr 3 =? 0)) ||
     ((size =? 2) && negb (Z.land virtAddr 1 =? 0))
  then Ok (inl AddressErrorException, m)
  else
    ASSERT (bool_decide (tlb m = None) || bool_decide (pageTable m = None));
    ASSERT (negb (bool_decide (tlb m = None)) || negb (bool_decide (pageTable m = None)));
    let vpn := to_uint virtAddr / PageSize in
    let offset := to_uint virtAddr mod PageSize in
    f ← find_entry m vpn;
    match f with
    | inl e => Ok (inl e, m)
    | inr i =>
        t ← the_table m;
        e ← rd t i;
        if readOnly e && writing then Ok (inl ReadOnlyException, m)
        else
          let pageFrame := to_uint (physicalPage e) in
          if NumPhysPages <=? pageFrame then Ok (inl BusErrorException, m)
          else
            t ← wr t i (mkTranslationEntry (virtualPage e) (physicalPage e) (valid e) (readOnly e)
                          true (dirty e || writing));
            let physAddr := pageFrame * PageSize + offset in
            ASSERT ((0 <=? physAddr) && (physAddr + size <=? MemorySize));
            Ok (inr physAddr, set_table m t)
    end.

(** The value at [&mainMemory[a]] as a signed [char], an [unsigned short] or an
    [unsigned int]. *)
Definition load (mem : list Z) (a size : Z) : res Z :=
  bs ← bytes_from mem a size;
  if size =? 1 then Ok (to_char (le_value bs))
  else if size =? 2 then Ok (le_value bs)
  else if size =? 4 then Ok (to_int (le_value bs))
  else AssertFail.
Definition store (mem : list Z) (a size value : Z) : res (list Z) :=
  if size =? 1 then bytes_to [Z.land value 255] mem a
  else if size =? 2 then bytes_to (le16 (Z.land value 65535)) mem a
  else if size =? 4 then bytes_to (le32 (to_uint value)) mem a
  else AssertFail.

Section ops.
Context {K : Type}.
(** userprog/exception.cc *)
Context (ExceptionHandler : ExceptionType -> st (sim (cpu K)) unit).

Definition get_m : st (sim (cpu K)) Machine := fun s => Ok (mach (world s), s).
Definition put_m (m : Machine) : st (sim (cpu K)) unit :=
  fun s => Ok (tt, set_world s (mkCpu m (os (world s)))).
Definition reg (r : Z) : st (sim (cpu K)) Z := m ← get_m; lift (rd (registers m) r).
Definition wreg (r v : Z) : st (sim (cpu K)) unit :=
  m ← get_m; l ← lift (wr (registers m) r v); put_m (set_registers m l).

Definition RaiseException (which : ExceptionType) (badVAddr : Z) : st (sim (cpu K)) unit :=
  wreg BadVAddrReg badVAddr;;
  m ← get_m; m ← lift (DelayedLoad m 0 0); put_m m;;
  setStatus SystemMode;;
  ExceptionHandler which;;
  setStatus UserMode.

(** [Some v]: TRUE, with [v] in [*value]; [None]: FALSE. *)
Definition ReadMem (addr size : Z) : st (sim (cpu K)) (option Z) :=
  m ← get_m;
  '(x, m) ← lift (Translate m addr size false);
  put_m m;;
  match x with
  | inl e => RaiseException e addr;; mret None
  | inr physicalAddress => v ← lift (load (mainMemory m) physicalAddress size); mret (Some v)
  end.

Definition WriteMem (addr size value : Z) : st (sim (cpu K)) bool :=
  m ← get_m;
  '(x, m) ← lift (Translate m addr size true);
  put_m m;;
  match x with
  | inl e => RaiseException e addr;; mret false
  | inr physicalAddress =>
      mem ← lift (store (mainMemory m) physicalAddress size value);
      put_m (set_mainMemory m mem);; mret true
  end.
End ops.

(** ** The reference translation *)

(** The entry of a page: in a page table the entry at its index, in a TLB
    the first valid one that names it. *)
Definition lookup_page (m : Machine) (vpn : Z) : ExceptionType + TranslationEntry :=
  match tlb m, pageTable m with
  | Some t, _ =>
      match list_find (fun e => valid e = true /\ to_uint (virtualPage e) = vpn) t with
      | Some (_, e) => inr e
      | None => inl PageFaultException
      end
  | None, Some t =>
      match zget t vpn with
      | None => inl AddressErrorException
      | Some e => if valid e then inr e else inl PageFaultException
      end
  | None, None => inl NoException
  end.

Definition aligned (addr size : Z) : Prop := addr mod size = 0.
#[export] Instance aligned_dec addr size : Decision (aligned addr size).
Proof. unfold aligned. apply _. Defined.

Definition phys (m : Machine) (addr size : Z) (writing : bool) : ExceptionType + Z :=
  if decide (~ aligned addr size) then inl AddressErrorException
  else
    match lookup_page m (to_uint addr / PageSize) with
    | inl e => inl e
    | inr e =>
        if readOnly e && writing then inl ReadOnlyException
        else if NumPhysPages <=? to_uint (physicalPage e) then inl BusErrorException
        else inr (to_uint (physicalPage e) * PageSize + to_uint addr mod PageSize)
    end.

(** ** Well-formed machines *)

Definition size_ok (size : Z) : Prop := size = 1 \/ size = 2 \/ size = 4.

Record regs_ok (r : list Z) : Prop := {
  ro_len : zlen r = NumTotalRegs;
  ro_ints : Forall is_int r;
  ro_load : exists l, zget r LoadReg = Some l /\ 0 <= l < NumGPRegs
}.

(** There is a TLB or a page table, not both. *)
Definition tables_ok (m : Machine) : Prop :=
  match tlb m, pageTable m with
  | Some t, None => zlen t = TLBSize
  | None, Some t => zlen t = pageTableSize m
  | _, _ => False
  end.

Record machine_ok (m : Machine) : Prop := {
  mo_regs : regs_ok (registers m);
  mo_zero : zget (registers m) 0 = Some 0;
  mo_mem_len : zlen (mainMemory m) = MemorySize;
  mo_mem : Forall is_byte (mainMemory m);
  mo_tables : tables_ok m
}.

(** Two machines whose tables differ in use and dirty bits only. *)
Definition same_mapping (e e' : TranslationEntry) : Prop :=
  virtualPage e = virtualPage e' /\ physicalPage e = physicalPage e' /\
  valid e = valid e' /\ readOnly e = readOnly e'.
Definition same_tables (m m' : Machine) : Prop :=
  match tlb m, tlb m' with
  | Some t, Some t' => Forall2 same_mapping t t'
  | None, None => True
  | _, _ => False
  end /\
  match pageTable m, pageTable m' with
  | Some t, Some t' => Forall2 same_mapping t t'
  | None, None => True
  | _, _ => False
  end /\ pageTableSize m = pageTableSize m'.

#[export] Instance same_mapping_equiv : Equivalence same_mapping.
Proof.
  unfold same_mapping. split; red.
  - done.
  - intros ? ? (? & ? & ? & ?). by split_and!.
  - intros ? ? ? (? & ? & ? & ?) (? & ? & ? & ?). split_and!; congruence.
Qed.
Lemma same_tables_refl m : same_tables m m.
Proof.
  assert (forall t, Forall2 same_mapping t t) as Hr by (induction t; constructor; done).
  split_and!; [destruct (tlb m)|destruct (pageTable m)|]; done.
Qed.

Lemma Forall2_zget {A} (R : A -> A -> Prop) l l' i :
  Forall2 R l l' ->
  match zget l i, zget l' i with
  | Some x, Some y => R x y
  | None, None => True
  | _, _ => False
  end.
Proof.
  intros HF. unfold zget. case_decide; [|done].
  destruct (l !! Z.to_nat i) eqn:E1, (l' !! Z.to_nat i) eqn:E2; try done.
  - by eapply Forall2_lookup_lr.
  - destruct (Forall2_lookup_l _ _ _ _ _ HF E1) as (? & ? & _). congruence.
  - destruct (Forall2_lookup_r _ _ _ _ _ HF E2) as (? & ? & _). congruence.
Qed.

Lemma phys_same m m' addr size w : same_tables m m' -> phys m addr size w = phys m' addr size w.
Proof.
  intros (Ht & Hp & _). unfold phys.
  assert (match lookup_page m (to_uint addr / PageSize), lookup_page m' (to_uint addr / PageSize) with
          | inl e, inl e' => e = e'
          | inr e, inr e' => same_mapping e e'
          | _, _ => False
          end) as Hl.
  { unfold lookup_page. generalize (to_uint addr / PageSize). intros vpn.
    destruct (tlb m) as [t|], (tlb m') as [t'|]; try contradiction.
    - clear Hp. induction Ht as [|e e' t t' He Ht IH]; [done|]. simpl.
      pose proof He as (H1 & H2 & H3 & H4). rewrite H1, H3.
      case_decide; [done|].
      by destruct (list_find _ t) as [[]|], (list_find _ t') as [[]|].
    - destruct (pageTable m) as [p|], (pageTable m') as [p'|]; try done.
      pose proof (Forall2_zget _ _ _ vpn Hp) as Hz.
      destruct (zget p vpn) as [e|], (zget p' vpn) as [e'|]; try done.
      pose proof Hz as (_ & _ & H3 & _). rewrite H3. by destruct (valid e'). }
  destruct (lookup_page m _) as [e|e], (lookup_page m' _) as [e'|e']; try done; [by subst|].
  destruct Hl as (H1 & H2 & H3 & H4). by rewrite H2, H4.
Qed.

(** ** The code against the reference *)

Lemma land_aligned addr :
  (Z.land addr 3 =? 0) = bool_decide (aligned addr 4) /\
  (Z.land addr 1 =? 0) = bool_decide (aligned addr 2).
Proof.
  unfold aligned. change 3 with (Z.ones 2). change 1 with (Z.ones 1).
  rewrite !Z.land_ones by lia. change (2 ^ 2) with 4. change (2 ^ 1) with 2.
  split; symmetry; [destruct (Z.eqb_spec (addr mod 4) 0)|destruct (Z.eqb_spec (addr mod 2) 0)];
    (by apply bool_decide_eq_true) || (by apply bool_decide_eq_false).
Qed.

Lemma alignment_test addr size :
  size_ok size ->
  (((size =? 4) && negb (Z.land addr 3 =? 0)) || ((size =? 2) && negb (Z.land addr 1 =? 0))) =
    bool_decide (~ aligned addr size).
Proof.
  intros Hs. destruct (land_aligned addr) as [-> ->].
  destruct Hs as [-> | [-> | ->]]; simpl.
  - symmetry. apply bool_decide_eq_false. unfold aligned. rewrite Z.mod_1_r. naive_solver.
  - by rewrite bool_decide_not.
  - by rewrite orb_false_r, bool_decide_not.
Qed.

Lemma tlb_loop_spec vpn : forall t2 t1,
  tlb_loop (length t2) (zlen t1) (t1 ++ t2) vpn =
    Ok (match list_find (fun e => valid e = true /\ to_uint (virtualPage e) = vpn) t2 with
        | Some (j, _) => Some (zlen t1 + Z.of_nat j)
        | None => None
        end).
Proof.
  induction t2 as [|e t2 IH]; intros t1; simpl; [done|].
  assert (rd (t1 ++ e :: t2) (zlen t1) = Ok e) as ->.
  { apply rd_Ok. rewrite zget_app, decide_False by lia. by rewrite Z.sub_diag. }
  simpl. case_decide as Hd.
  - destruct Hd as [-> ->]. rewrite Z.eqb_refl. simpl. do 2 f_equal. lia.
  - assert (valid e && (to_uint (virtualPage e) =? vpn) = false) as ->.
    { apply andb_false_iff. destruct (valid e); [right|by left]. apply Z.eqb_neq. naive_solver. }
    specialize (IH (t1 ++ [e])). rewrite <-app_assoc in IH. simpl in IH.
    replace (zlen t1 + 1) with (zlen (t1 ++ [e])) by (rewrite zlen_app; done).
    rewrite IH. destruct (list_find _ t2) as [[j x]|]; simpl; [|done].
    rewrite zlen_app. simpl. do 2 f_equal. unfold zlen. simpl. lia.
Qed.

(** What [find_entry] finds is the entry of the reference translation. *)
Lemma find_entry_spec m vpn :
  tables_ok m -> 0 <= vpn ->
  match lookup_page m vpn with
  | inl e => find_entry m vpn = Ok (inl e)
  | inr e => exists t i, find_entry m vpn = Ok (inr i) /\ the_table m = Ok t /\ zget t i = Some e
  end.
Proof.
  unfold tables_ok, lookup_page, find_entry, the_table. intros Ht Hv.
  destruct (tlb m) as [t|] eqn:Et.
  - destruct (pageTable m); [done|]. pose proof (tlb_loop_spec vpn t []) as Hl.
    simpl in Hl. replace (Z.to_nat TLBSize) with (length t) by (unfold zlen in Ht; lia).
    change (zlen []) with 0 in Hl. rewrite Hl. simpl.
    destruct (list_find _ t) as [[j e]|] eqn:Ef; [|done].
    exists t, (Z.of_nat j). split_and!; [done|done|].
    apply list_find_Some in Ef as [Hj _]. by rewrite zget_nat.
  - destruct (pageTable m) as [t|]; [|done]. rewrite <-Ht.
    destruct (zget t vpn) as [e|] eqn:Eg.
    + pose proof (zget_Some_range _ _ _ Eg) as Hr. rewrite (proj2 (Z.leb_gt _ _)) by lia.
      simpl. rewrite (proj2 (rd_Ok _ _ _) Eg). simpl. destruct (valid e); simpl; [|done].
      by exists t, vpn.
    + rewrite (proj2 (Z.leb_le _ _)); [done|]. destruct (Z.le_gt_cases (zlen t) vpn); [done|].
      destruct (zget_is_Some t vpn) as [? ?]; [lia|]. congruence.
Qed.

Lemma offset_fits addr size :
  size_ok size -> aligned addr size -> to_uint addr mod PageSize + size <= PageSize.
Proof.
  unfold size_ok, aligned, PageSize, SectorSize, to_uint, two32. intros [-> | [-> | ->]] Ha; lia_mod.
Qed.

Lemma phys_bounds m addr size w pa :
  size_ok size -> phys m addr size w = inr pa -> 0 <= pa /\ pa + size <= MemorySize.
Proof.
  intros Hs. unfold phys. case_decide as Ha; [done|].
  destruct (lookup_page _ _) as [|e]; [done|]. destruct (_ && _); [done|].
  destruct (Z.leb_spec NumPhysPages (to_uint (physicalPage e))); [done|]. intros [= <-].
  assert (aligned addr size) as Hal by (destruct (decide (aligned addr size)); tauto).
  pose proof (offset_fits addr size Hs Hal). pose proof (to_uint_range (physicalPage e)).
  unfold MemorySize, NumPhysPages, PageSize, SectorSize, is_uint in *.
  pose proof (Z.mod_pos_bound (to_uint addr) 512). lia.
Qed.

(** Nothing but use and dirty bits changed. *)
Record touched (m m' : Machine) : Prop := {
  td_regs : registers m' = registers m;
  td_mem : mainMemory m' = mainMemory m;
  td_tables : same_tables m m';
  td_ok : tables_ok m -> tables_ok m'
}.
Lemma touched_refl m : touched m m.
Proof. split; try done. apply same_tables_refl. Qed.

Lemma touched_trans m1 m2 m3 : touched m1 m2 -> touched m2 m3 -> touched m1 m3.
Proof.
  intros [R1 M1 T1 O1] [R2 M2 T2 O2]. split; [congruence|congruence| |auto].
  destruct T1 as (A1 & B1 & C1), T2 as (A2 & B2 & C2).
  assert (forall t1 t2 t3, Forall2 same_mapping t1 t2 -> Forall2 same_mapping t2 t3 ->
    Forall2 same_mapping t1 t3) as Htr.
  { intros t1 t2 t3 H12. revert t3. induction H12 as [|x y t1 t2 Hxy H12 IH]; intros t3 H23.
    - by inversion H23.
    - inversion H23; subst. constructor; [by etrans|by apply IH]. }
  split; [|split; [|congruence]].
  - destruct (tlb m1), (tlb m2), (tlb m3); try done. by eapply Htr.
  - destruct (pageTable m1), (pageTable m2), (pageTable m3); try done. by eapply Htr.
Qed.

Lemma Forall2_zset {A} (R : A -> A -> Prop) `{!Reflexive R} l i x y :
  zget l i = Some x -> R x y -> Forall2 R l (zset l i y).
Proof.
  intros Hg HR. unfold zget, zset in *. case_decide; [|done].
  apply Forall2_same_length_lookup. split; [by rewrite length_insert|].
  intros j a b Ha Hb. destruct (decide (j = Z.to_nat i)) as [->|].
  - rewrite list_lookup_insert_eq in Hb by (by eapply lookup_lt_Some). by simplify_eq.
  - rewrite list_lookup_insert_ne in Hb by done. by simplify_eq.
Qed.

Lemma touch_entry m t i e b :
  tables_ok m -> the_table m = Ok t -> zget t i = Some e ->
  touched m (set_table m (zset t i (mkTranslationEntry (virtualPage e) (physicalPage e) (valid e)
    (readOnly e) true b))).
Proof.
  intros Hok Ht Hi. set (e' := mkTranslationEntry _ _ _ _ _ _).
  assert (Forall2 same_mapping t (zset t i e')) as HF by (by apply Forall2_zset with e).
  pose proof (same_tables_refl m) as (R1 & R2 & R3).
  unfold the_table, set_table, tables_ok in *.
  destruct m as [r mm [tl|] [pt|] sz ss ru]; simpl in *; try done; injection Ht as ->.
  - split; try done. unfold tables_ok. simpl. by rewrite zlen_zset.
  - split; try done. unfold tables_ok. simpl. by rewrite zlen_zset.
Qed.

Lemma Translate_spec m addr size w :
  tables_ok m -> size_ok size ->
  exists m', Translate m addr size w = Ok (phys m addr size w, m') /\ touched m m'.
Proof.
  intros Hok Hs. pose proof (phys_bounds m addr size w) as Hb.
  unfold Translate. rewrite (alignment_test addr size Hs). unfold phys in *.
  destruct (decide (~ aligned addr size)) as [Ha|Ha].
  { rewrite bool_decide_true by done. exists m. split; [done|apply touched_refl]. }
  rewrite bool_decide_false by done.
  assert ((bool_decide (tlb m = None) || bool_decide (pageTable m = None)) = true /\
    (negb (bool_decide (tlb m = None)) || negb (bool_decide (pageTable m = None))) = true) as [-> ->].
  { unfold tables_ok in Hok. destruct (tlb m), (pageTable m); done. }
  assert (0 <= to_uint addr / PageSize) as Hv.
  { apply Z.div_pos; [apply to_uint_range|done]. }
  pose proof (find_entry_spec m _ Hok Hv) as Hf. cbv zeta.
  destruct (lookup_page m _) as [e|e].
  { rewrite Hf. simpl. exists m. split; [done|apply touched_refl]. }
  destruct Hf as (t & i & -> & Ht & Hi). cbn [mbind res_bind]. rewrite Ht. cbn [mbind res_bind].
  rewrite (proj2 (rd_Ok _ _ _) Hi). cbn [mbind res_bind].
  destruct (readOnly e && w); [exists m; split; [done|apply touched_refl]|].
  destruct (NumPhysPages <=? to_uint (physicalPage e)); [exists m; split; [done|apply touched_refl]|].
  rewrite wr_Ok by (by eapply zget_Some_range). cbn [mbind res_bind].
  destruct (Hb _ Hs eq_refl) as [H0 H1].
  rewrite (proj2 (Z.leb_le _ _) H0), (proj2 (Z.leb_le _ _) H1). simpl.
  eexists. split; [done|]. by apply touch_entry.
Qed.

(** ** Loads and stores *)

Lemma load_ok mem a size :
  size_ok size -> 0 <= a -> a + size <= zlen mem -> Forall is_byte mem ->
  exists v, load mem a size = Ok v /\ is_int v.
Proof.
  intros Hs H0 H1 Hm. unfold load. rewrite bytes_from_ok by done.
  pose proof (zlen_slice a size mem H0) as Hl.
  pose proof (Forall_slice _ a size _ Hm) as Hb. remember (slice a size mem) as bs eqn:E. clear E.
  unfold zlen in *.
  destruct Hs as [-> | [-> | ->]]; simpl.
  - eexists. split; [done|]. pose proof (to_char_range (le_value bs)). unfold_int. lia.
  - eexists. split; [done|]. destruct bs as [|b0 [|b1 [|]]]; simpl in *; try lia.
    apply Forall_cons in Hb as [B0 Hb]. apply Forall_cons in Hb as [B1 _]. unfold_int. lia.
  - eexists. split; [done|]. apply to_int_range.
Qed.

(** The bytes a store writes. *)
Definition image (size value : Z) : list Z :=
  if size =? 1 then [Z.land value 255]
  else if size =? 2 then le16 (Z.land value 65535) else le32 (to_uint value).
(** What a load of that size finds after a store of [value]. *)
Definition truncated (size value : Z) : Z :=
  if size =? 1 then to_char value
  else if size =? 2 then value mod 65536 else to_int value.

Lemma image_ok size value :
  size_ok size -> zlen (image size value) = size /\ Forall is_byte (image size value).
Proof.
  assert (forall z, is_byte (z mod 256)) as Hm by (intros z; unfold is_byte; lia_mod).
  assert (is_byte (Z.land value 255)).
  { change 255 with (Z.ones 8). rewrite Z.land_ones by lia. apply Hm. }
  intros [-> | [-> | ->]]; (split; [done|]); cbn; repeat (constructor; [done|]); constructor.
Qed.
Lemma store_spec mem a size value :
  size_ok size -> 0 <= a -> a + size <= zlen mem ->
  store mem a size value = Ok (splice a (image size value) mem).
Proof.
  intros Hs H0 H1. destruct (image_ok size value Hs) as [Hl _]. unfold store, image in *.
  destruct Hs as [-> | [-> | ->]]; cbn -[bytes_to splice le16 le32] in *; apply bytes_to_ok; lia.
Qed.
Lemma image_value size value :
  size_ok size ->
  (if size =? 1 then to_char (le_value (image size value))
   else if size =? 2 then le_value (image size value)
   else to_int (le_value (image size value))) = truncated size value.
Proof.
  intros [-> | [-> | ->]]; unfold image, truncated; cbn [Z.eqb Pos.eqb].
  - change 255 with (Z.ones 8). rewrite Z.land_ones by lia. cbn [le_value]. unfold to_char.
    change (2 ^ 8) with 256. rewrite Z.mul_0_r, Z.add_0_r. by rewrite Zplus_mod_idemp_l.
  - change 65535 with (Z.ones 16). rewrite Z.land_ones by lia. unfold le16. cbn [le_value].
    change (2 ^ 16) with 65536. lia_mod.
  - by rewrite le32_value, !to_int_to_uint.
Qed.

Lemma slice_splice {A} (l new : list A) off :
  0 <= off -> off + zlen new <= zlen l -> slice off (zlen new) (splice off new l) = new.
Proof.
  intros H0 H1. pose proof (zlen_nonneg new).
  apply zget_ext_range; [rewrite zlen_slice, zlen_splice by lia; lia|].
  intros i Hi. rewrite zlen_slice, zlen_splice in Hi by lia.
  rewrite zget_slice, zget_splice by lia. rewrite !decide_True by lia. f_equal. lia.
Qed.
Lemma slice_splice_disjoint {A} (l new : list A) off a n :
  0 <= off -> off + zlen new <= zlen l -> 0 <= a -> a + n <= off \/ off + zlen new <= a ->
  slice a n (splice off new l) = slice a n l.
Proof.
  intros H0 H1 Ha Hd. apply zget_ext. intros i. rewrite !zget_slice by lia.
  case_decide; [|done]. rewrite zget_splice by lia. rewrite decide_False by lia. done.
Qed.

Lemma load_store mem a size value :
  size_ok size -> 0 <= a -> a + size <= zlen mem ->
  load (splice a (image size value) mem) a size = Ok (truncated size value).
Proof.
  intros Hs H0 H1. destruct (image_ok size value Hs) as [Hl _]. unfold load.
  rewrite bytes_from_ok by (rewrite ?zlen_splice; lia).
  pose proof (slice_splice mem (image size value) a H0 ltac:(lia)) as Hsl. rewrite Hl in Hsl.
  rewrite Hsl. cbn [mbind res_bind]. rewrite <-(image_value size value Hs).
  by destruct Hs as [-> | [-> | ->]].
Qed.

(** ** Registers *)

(** The register file after [DelayedLoad]: the pending load is done, the
    next one recorded, and register 0 is zero. *)
Definition delayed (r : list Z) (nextReg nextValue : Z) : list Z :=
  match zget r LoadReg, zget r LoadValueReg with
  | Some l, Some v => zset (zset (zset (zset r l v) LoadReg nextReg) LoadValueReg nextValue) 0 0
  | _, _ => r
  end.

Lemma regs_get r i : regs_ok r -> 0 <= i < NumTotalRegs -> exists v, zget r i = Some v /\ is_int v.
Proof.
  intros [Hl Hi _] Hr. destruct (zget_is_Some r i) as [v Hv]; [lia|].
  exists v. split; [done|]. by eapply Forall_zget.
Qed.
Lemma regs_set r i v :
  regs_ok r -> is_int v -> i <> LoadReg \/ 0 <= v < NumGPRegs -> regs_ok (zset r i v).
Proof.
  intros [Hl Hi (l & Hld & Hlr)] Hv Hc. split.
  - by rewrite zlen_zset.
  - by apply Forall_zset.
  - rewrite zget_zset. case_decide as Hd; [|by exists l].
    destruct Hd as [-> _]. exists v. split; [done|]. by destruct Hc.
Qed.

Lemma delayed_ok r nextReg nextValue :
  regs_ok r -> 0 <= nextReg < NumGPRegs -> is_int nextValue ->
  regs_ok (delayed r nextReg nextValue) /\ zget (delayed r nextReg nextValue) 0 = Some 0.
Proof.
  intros Hr Hn Hv. unfold delayed. pose proof Hr as [Hl _ (l & Hld & Hlr)].
  destruct (regs_get r LoadValueReg Hr ltac:(done)) as (v & Hlv & Hiv). rewrite Hld, Hlv.
  assert (is_int nextReg) as Hni by (unfold NumGPRegs in Hn; unfold_int; lia).
  split.
  - apply regs_set; [|unfold_int; lia|by left].
    apply regs_set; [|done|by left]. apply regs_set; [|done|by right].
    apply regs_set; [done|done|]. left. unfold LoadReg, NumGPRegs in *. lia.
  - rewrite zget_zset_eq; [done|]. rewrite !zlen_zset, Hl. done.
Qed.

Lemma DelayedLoad_spec m nextReg nextValue :
  regs_ok (registers m) ->
  DelayedLoad m nextReg nextValue = Ok (set_registers m (delayed (registers m) nextReg nextValue)).
Proof.
  intros Hr. pose proof Hr as [Hl _ (l & Hld & Hlr)].
  destruct (regs_get _ LoadValueReg Hr ltac:(done)) as (v & Hlv & _).
  unfold DelayedLoad, delayed. unfold rd. rewrite Hld, Hlv. cbn [mbind res_bind].
  rewrite wr_Ok by (rewrite Hl; unfold NumTotalRegs, NumGPRegs in *; lia). cbn [mbind res_bind].
  rewrite wr_Ok by (by rewrite !zlen_zset, Hl). cbn [mbind res_bind].
  rewrite wr_Ok by (by rewrite !zlen_zset, Hl). cbn [mbind res_bind].
  rewrite wr_Ok by (by rewrite !zlen_zset, Hl). done.
Qed.

(** A register other than the three special ones, after the delayed load. *)
Lemma zget_delayed r nextReg nextValue i l v :
  zlen r = NumTotalRegs -> 0 < i < LoadReg \/ i = BadVAddrReg ->
  zget r LoadReg = Some l -> zget r LoadValueReg = Some v ->
  zget (delayed r nextReg nextValue) i = if decide (i = l) then Some v else zget r i.
Proof.
  intros Hl Hi Hld Hlv. unfold delayed. rewrite Hld, Hlv.
  unfold LoadReg, LoadValueReg, BadVAddrReg in *. rewrite !zget_zset_ne by lia.
  rewrite zget_zset. destruct (decide (i = l)) as [->|]; [|rewrite decide_False by naive_solver; done].
  rewrite decide_True; [done|]. rewrite Hl. unfold NumTotalRegs. lia.
Qed.

(** ** Memory accesses *)

Section access.
Context {K : Type}.
Context (ExceptionHandler : ExceptionType -> st (sim (cpu K)) unit).
Implicit Types (s : sim (cpu K)) (m : Machine).

Definition with_mach s m : sim (cpu K) := set_world s (mkCpu m (os (world s))).

Lemma ReadMem_hit s addr size pa :
  machine_ok (mach (world s)) -> size_ok size ->
  phys (mach (world s)) addr size false = inr pa ->
  exists m' v, ReadMem ExceptionHandler addr size s = Ok (Some v, with_mach s m') /\
    touched (mach (world s)) m' /\ load (mainMemory (mach (world s))) pa size = Ok v /\ is_int v.
Proof.
  intros [] Hs Hp. destruct (Translate_spec _ addr size false mo_tables0 Hs) as (m' & Ht & Htd).
  rewrite Hp in Ht. destruct (phys_bounds _ _ _ _ _ Hs Hp) as [H0 H1].
  destruct (load_ok (mainMemory (mach (world s))) pa size) as (v & Hv & Hvi); try done.
  { by rewrite mo_mem_len0. }
  exists m', v. split; [|done]. unfold ReadMem, get_m, mbind, st_bind.
  unfold lift at 1. rewrite Ht. cbn [mbind res_bind]. unfold put_m. rewrite (td_mem _ _ Htd).
  unfold lift. by rewrite Hv.
Qed.

Lemma ReadMem_trap s addr size e :
  machine_ok (mach (world s)) -> size_ok size ->
  phys (mach (world s)) addr size false = inl e ->
  exists m', touched (mach (world s)) m' /\
    ReadMem ExceptionHandler addr size s =
      (RaiseException ExceptionHandler e addr;; mret None) (with_mach s m').
Proof.
  intros [] Hs Hp. destruct (Translate_spec _ addr size false mo_tables0 Hs) as (m' & Ht & Htd).
  rewrite Hp in Ht. exists m'. split; [done|]. unfold ReadMem, get_m.
  rewrite (st_bind_Ok _ _ s (mach (world s)) s) by done.
  by rewrite (lift_bind_Ok _ _ _ _ Ht).
Qed.

Lemma WriteMem_hit s addr size value pa :
  machine_ok (mach (world s)) -> size_ok size ->
  phys (mach (world s)) addr size true = inr pa ->
  exists m', touched (mach (world s)) m' /\
    WriteMem ExceptionHandler addr size value s = Ok (true, with_mach s
      (set_mainMemory m' (splice pa (image size value) (mainMemory (mach (world s)))))).
Proof.
  intros [] Hs Hp. destruct (Translate_spec _ addr size true mo_tables0 Hs) as (m' & Ht & Htd).
  rewrite Hp in Ht. destruct (phys_bounds _ _ _ _ _ Hs Hp) as [H0 H1].
  exists m'. split; [done|]. unfold WriteMem, get_m.
  rewrite (st_bind_Ok _ _ s (mach (world s)) s) by done.
  rewrite (lift_bind_Ok _ _ _ _ Ht). unfold put_m at 1, mbind, st_bind.
  unfold lift. rewrite (td_mem _ _ Htd), store_spec by (done || by rewrite mo_mem_len0). done.
Qed.

Lemma WriteMem_trap s addr size value e :
  machine_ok (mach (world s)) -> size_ok size ->
  phys (mach (world s)) addr size true = inl e ->
  exists m', touched (mach (world s)) m' /\
    WriteMem ExceptionHandler addr size value s =
      (RaiseException ExceptionHandler e addr;; mret false) (with_mach s m').
Proof.
  intros [] Hs Hp. destruct (Translate_spec _ addr size true mo_tables0 Hs) as (m' & Ht & Htd).
  rewrite Hp in Ht. exists m'. split; [done|]. unfold WriteMem, get_m.
  rewrite (st_bind_Ok _ _ s (mach (world s)) s) by done.
  by rewrite (lift_bind_Ok _ _ _ _ Ht).
Qed.

Lemma touched_machine_ok m m' : touched m m' -> machine_ok m -> machine_ok m'.
Proof. intros [Hr Hm Ht Hok] []. split; rewrite ?Hr, ?Hm; try done. by apply Hok. Qed.
Lemma machine_ok_memory m mem :
  machine_ok m -> zlen mem = MemorySize -> Forall is_byte mem -> machine_ok (set_mainMemory m mem).
Proof. intros [] Hl Hb. by split. Qed.

(** [RaiseException]: the handler runs in kernel mode with the address in
    [BadVAddrReg] and no load pending; afterwards the machine is in user
    mode. *)
Lemma RaiseException_spec s e addr :
  regs_ok (registers (mach (world s))) -> is_int addr ->
  let m := set_registers (mach (world s))
    (delayed (zset (registers (mach (world s))) BadVAddrReg addr) 0 0) in
  RaiseException ExceptionHandler e addr s =
    (ExceptionHandler e;; setStatus UserMode) (set_status (with_mach s m) SystemMode) /\
  regs_ok (registers m) /\ zget (registers m) 0 = Some 0.
Proof.
  intros Hr Ha m. pose proof Hr as [Hl _ _].
  assert (regs_ok (zset (registers (mach (world s))) BadVAddrReg addr)) as Hr'
    by (apply regs_set; [done|done|by left]).
  split; [|apply delayed_ok; [done|done|unfold_int; lia]].
  unfold RaiseException, wreg, get_m, put_m. unfold mbind, st_bind. unfold lift.
  rewrite wr_Ok by (by rewrite Hl). cbn. rewrite DelayedLoad_spec by exact Hr'.
  reflexivity.
Qed.
End access.

(** ** The constructor gives a well-formed machine once it has a page table *)

Lemma zeros_ok (P : Z -> Prop) n :
  0 <= n -> P 0 -> zlen (replicate (Z.to_nat n) 0) = n /\ Forall P (replicate (Z.to_nat n) 0).
Proof.
  intros Hn H0. split; [unfold zlen; rewrite length_replicate; lia|by apply Forall_replicate].
Qed.
Lemma zero_regs_ok :
  regs_ok (replicate (Z.to_nat NumTotalRegs) 0) /\
  zget (replicate (Z.to_nat NumTotalRegs) 0) 0 = Some 0.
Proof.
  destruct (zeros_ok is_int NumTotalRegs ltac:(done)) as [Hl Hf]; [unfold_int; lia|].
  split; [|done]. split; [done|done|]. by exists 0.
Qed.

Lemma new_Machine_spec entries size0 until0 debug t :
  exists m, new_Machine false entries size0 until0 debug = Ok m /\ tlb m = None /\ pageTable m = None /\
    machine_ok (mkMachine (registers m) (mainMemory m) (tlb m) (Some t) (zlen t) debug until0).
Proof.
  eexists. split; [reflexivity|]. split; [done|]. split; [done|].
  destruct zero_regs_ok. destruct (zeros_ok is_byte MemorySize ltac:(done)) as [Hl Hf];
    [unfold_int; lia|].
  by split.
Qed.

(** ** Properties *)

(** C6. Address translation.  On a machine with a TLB or a page table (not
    both), [Translate] of an access of 1, 2 or 4 bytes always returns, and
    its outcome is the reference translation: an address error when the
    address is not aligned or beyond the page table, a page fault when the
    page has no valid entry, a read-only fault when the access writes to a
    protected page, a bus error when the frame does not exist, and otherwise
    the byte of the frame at the page offset.  A physical address is always
    inside the memory, whatever the tables hold; registers, memory and the
    mapping stay as they are (only use and dirty bits are set). *)
Theorem translate_refines (m : Machine) (addr size : Z) (writing : bool) :
  tables_ok m -> size_ok size ->
  exists m', Translate m addr size writing = Ok (phys m addr size writing, m') /\
    registers m' = registers m /\ mainMemory m' = mainMemory m /\
    (forall a n w, phys m' a n w = phys m a n w) /\ tables_ok m' /\
    forall pa, phys m addr size writing = inr pa -> 0 <= pa /\ pa + size <= MemorySize.
Proof.
  intros Hok Hs. destruct (Translate_spec m addr size writing Hok Hs) as (m' & Ht & []).
  exists m'. split_and!; [done|done|done| |by apply td_ok0|].
  - intros. symmetry. by apply phys_same.
  - intros pa. by apply phys_bounds.
Qed.

(** Two pages, the second one protected, mapped to frames 7 and 3. *)
Definition sample_pages : list TranslationEntry :=
  [mkTranslationEntry 0 7 true false false false; mkTranslationEntry 1 3 true true false false].
Definition sample_machine : Machine :=
  mkMachine (replicate (Z.to_nat NumTotalRegs) 0) (replicate (Z.to_nat MemorySize) 0) None
    (Some sample_pages) 2 false 0.
Lemma sample_machine_ok : machine_ok sample_machine.
Proof.
  destruct zero_regs_ok. destruct (zeros_ok is_byte MemorySize ltac:(done)) as [Hl Hf];
    [unfold_int; lia|]. unfold sample_machine.
  split; cbn [registers mainMemory]; try assumption. reflexivity.
Qed.

Lemma translate_refines_witness :
  exists m', Translate sample_machine 4 4 true = Ok (inr 3588, m') /\
    phys m' 516 4 true = inl ReadOnlyException /\ phys m' 1024 1 false = inl AddressErrorException.
Proof.
  destruct (translate_refines sample_machine 4 4 true) as (m' & Ht & _ & _ & Hp & _).
  - exact (mo_tables _ sample_machine_ok).
  - right. right. reflexivity.
  - exists m'. split; [exact Ht|]. rewrite !Hp. split; reflexivity.
Defined.

(** Memory of a user program.  When a store to a virtual address is
    allowed, [WriteMem] returns TRUE; a load of that address and size then
    gives the value that was stored, cut to the size (bytes come back with
    their sign, two-byte words without), every load whose physical bytes do
    not overlap gives what it gave before the store, and the machine is still
    well formed.  None of it enters the kernel. *)
Theorem memory_roundtrip {K} (ExceptionHandler : ExceptionType -> st (sim (cpu K)) unit)
    (s : sim (cpu K)) (addr size value pa : Z) :
  machine_ok (mach (world s)) -> size_ok size ->
  phys (mach (world s)) addr size true = inr pa ->
  exists m', WriteMem ExceptionHandler addr size value s = Ok (true, with_mach s m') /\
    machine_ok m' /\ registers m' = registers (mach (world s)) /\
    (exists m'', ReadMem ExceptionHandler addr size (with_mach s m') =
       Ok (Some (truncated size value), with_mach s m'')) /\
    forall addr2 size2 pa2, size_ok size2 ->
      phys (mach (world s)) addr2 size2 false = inr pa2 ->
      pa2 + size2 <= pa \/ pa + size <= pa2 ->
      exists v m1 m2,
        ReadMem ExceptionHandler addr2 size2 s = Ok (Some v, with_mach s m1) /\
        ReadMem ExceptionHandler addr2 size2 (with_mach s m') = Ok (Some v, with_mach s m2).
Proof.
  intros Hok Hs Hp. destruct (WriteMem_hit ExceptionHandler s addr size value pa Hok Hs Hp)
    as (m1 & Htd & Hw).
  destruct (phys_bounds _ _ _ _ _ Hs Hp) as [H0 H1]. destruct (image_ok size value Hs) as [Hli Hbi].
  pose proof Hok as []. set (mem' := splice pa (image size value) (mainMemory (mach (world s)))) in *.
  set (m' := set_mainMemory m1 mem') in *. exists m'.
  assert (zlen mem' = MemorySize) as Hl' by (unfold mem'; rewrite zlen_splice; lia).
  assert (machine_ok m') as Hok'.
  { apply machine_ok_memory; [by eapply touched_machine_ok|done|by apply Forall_splice]. }
  assert (forall a n w, phys m' a n w = phys (mach (world s)) a n w) as Hph.
  { intros. symmetry. apply phys_same. by destruct Htd as [_ _ Ht _]. }
  split; [done|]. split; [done|]. split; [apply Htd|]. split.
  - assert (phys m' addr size false = inr pa) as Hp'.
    { rewrite Hph. unfold phys in Hp |- *. case_decide; [done|].
      destruct (lookup_page _ _); [done|]. rewrite andb_false_r. by destruct (readOnly _ && true). }
    destruct (ReadMem_hit ExceptionHandler (with_mach s m') addr size pa Hok' Hs Hp')
      as (m2 & v & Hr & _ & Hv & _).
    exists m2. rewrite Hr. simpl in Hv. unfold mem' in Hv. rewrite load_store in Hv by (done || lia).
    by injection Hv as <-.
  - intros a2 n2 pa2 Hs2 Hp2 Hd.
    destruct (ReadMem_hit ExceptionHandler s a2 n2 pa2 Hok Hs2 Hp2) as (m2 & v & Hr & _ & Hv & _).
    destruct (ReadMem_hit ExceptionHandler (with_mach s m') a2 n2 pa2 Hok' Hs2)
      as (m3 & v' & Hr' & _ & Hv' & _); [by rewrite <-Hp2; apply Hph|].
    exists v, m2, m3. split; [done|]. rewrite Hr'. simpl in Hv'.
    destruct (phys_bounds _ _ _ _ _ Hs2 Hp2) as [H2 H3].
    assert (v = v') as ->; [|done]. unfold load in Hv, Hv'.
    rewrite bytes_from_ok in Hv, Hv' by lia. unfold mem' in Hv'.
    rewrite slice_splice_disjoint in Hv' by lia. congruence.
Qed.

Definition sample_sim : sim (cpu unit) :=
  mkSim new_Interrupt new_Statistics (mkCpu sample_machine tt).
Lemma memory_roundtrip_witness :
  exists m' m'', WriteMem (fun _ => no_op) 4 1 200 sample_sim = Ok (true, with_mach sample_sim m') /\
    ReadMem (fun _ => no_op) 4 1 (with_mach sample_sim m') = Ok (Some (-56), with_mach sample_sim m'').
Proof.
  destruct (memory_roundtrip (fun _ => no_op) sample_sim 4 1 200 3588) as (m' & Hw & _ & _ & [m'' Hr] & _).
  - exact sample_machine_ok.
  - left. reflexivity.
  - reflexivity.
  - exists m', m''. split; [exact Hw|exact Hr].
Defined.
