(* ===== verification/MipsSim.v ===== *)
(** * machine/mipssim.cc, machine/mipssim.h: the MIPS R2/3000 simulator

    [Decode] with its two tables, one definition per case of the switch in
    [OneInstruction], the multiplication routine and the loop of [Run].  A
    case ends in [break] (with the next program counter and the load it
    leaves pending) or in [return].  Registers are signed 32-bit integers;
    sums and left shifts that leave the range wrap around, as the simulator
    relies on, and the one quotient that does not fit (the least integer by
    -1, which traps the host) is undefined. *)

From S2P Require Import Prelude Interrupt Machine.
From stdpp Require Import list.
#[local] Open Scope Z_scope.

Definition OP_ADD : Z := 1.
Definition OP_ADDI : Z := 2.
Definition OP_ADDIU : Z := 3.
Definition OP_ADDU : Z := 4.
Definition OP_AND : Z := 5.
Definition OP_ANDI : Z := 6.
Definition OP_BEQ : Z := 7.
Definition OP_BGEZ : Z := 8.
Definition OP_BGEZAL : Z := 9.
Definition OP_BGTZ : Z := 10.
Definition OP_BLEZ : Z := 11.
Definition OP_BLTZ : Z := 12.
Definition OP_BLTZAL : Z := 13.
Definition OP_BNE : Z := 14.
Definition OP_DIV : Z := 16.
Definition OP_DIVU : Z := 17.
Definition OP_J : Z := 18.
Definition OP_JAL : Z := 19.
Definition OP_JALR : Z := 20.
Definition OP_JR : Z := 21.
Definition OP_LB : Z := 22.
Definition OP_LBU : Z := 23.
Definition OP_LH : Z := 24.
Definition OP_LHU : Z := 25.
Definition OP_LUI : Z := 26.
Definition OP_LW : Z := 27.
Definition OP_LWL : Z := 28.
Definition OP_LWR : Z := 29.
Definition OP_MFHI : Z := 31.
Definition OP_MFLO : Z := 32.
Definition OP_MTHI : Z := 34.
Definition OP_MTLO : Z := 35.
Definition OP_MULT : Z := 36.
Definition OP_MULTU : Z := 37.
Definition OP_NOR : Z := 38.
Definition OP_OR : Z := 39.
Definition OP_ORI : Z := 40.
Definition OP_SB : Z := 42.
Definition OP_SH : Z := 43.
Definition OP_SLL : Z := 44.
Definition OP_SLLV : Z := 45.
Definition OP_SLT : Z := 46.
Definition OP_SLTI : Z := 47.
Definition OP_SLTIU : Z := 48.
Definition OP_SLTU : Z := 49.
Definition OP_SRA : Z := 50.
Definition OP_SRAV : Z := 51.
Definition OP_SRL : Z := 52.
Definition OP_SRLV : Z := 53.
Definition OP_SUB : Z := 54.
Definition OP_SUBU : Z := 55.
Definition OP_SW : Z := 56.
Definition OP_SWL : Z := 57.
Definition OP_SWR : Z := 58.
Definition OP_XOR : Z := 59.
Definition OP_XORI : Z := 60.
Definition OP_SYSCALL : Z := 61.
Definition OP_UNIMP : Z := 62.
Definition OP_RES : Z := 63.
Definition SPECIAL : Z := 100.
Definition BCOND : Z := 101.

Inductive Format := IFMT | JFMT | RFMT.

Definition SIGN_BIT : Z := 2147483648.
Definition R31 : Z := 31.
(** The macro [IndexToAddr]: a shift by two. *)
Definition IndexToAddr (x : Z) : Z := to_int (Z.shiftl x 2).

Definition opTable : list (Z * Format) :=
  [(SPECIAL, RFMT); (BCOND, IFMT); (OP_J, JFMT); (OP_JAL, JFMT);
   (OP_BEQ, IFMT); (OP_BNE, IFMT); (OP_BLEZ, IFMT); (OP_BGTZ, IFMT);
   (OP_ADDI, IFMT); (OP_ADDIU, IFMT); (OP_SLTI, IFMT); (OP_SLTIU, IFMT);
   (OP_ANDI, IFMT); (OP_ORI, IFMT); (OP_XORI, IFMT); (OP_LUI, IFMT);
   (OP_UNIMP, IFMT); (OP_UNIMP, IFMT); (OP_UNIMP, IFMT); (OP_UNIMP, IFMT);
   (OP_RES, IFMT); (OP_RES, IFMT); (OP_RES, IFMT); (OP_RES, IFMT);
   (OP_RES, IFMT); (OP_RES, IFMT); (OP_RES, IFMT); (OP_RES, IFMT);
   (OP_RES, IFMT); (OP_RES, IFMT); (OP_RES, IFMT); (OP_RES, IFMT);
   (OP_LB, IFMT); (OP_LH, IFMT); (OP_LWL, IFMT); (OP_LW, IFMT);
   (OP_LBU, IFMT); (OP_LHU, IFMT); (OP_LWR, IFMT); (OP_RES, IFMT);
   (OP_SB, IFMT); (OP_SH, IFMT); (OP_SWL, IFMT); (OP_SW, IFMT);
   (OP_RES, IFMT); (OP_RES, IFMT); (OP_SWR, IFMT); (OP_RES, IFMT);
   (OP_UNIMP, IFMT); (OP_UNIMP, IFMT); (OP_UNIMP, IFMT); (OP_UNIMP, IFMT);
   (OP_RES, IFMT); (OP_RES, IFMT); (OP_RES, IFMT); (OP_RES, IFMT);
   (OP_UNIMP, IFMT); (OP_UNIMP, IFMT); (OP_UNIMP, IFMT); (OP_UNIMP, IFMT);
   (OP_RES, IFMT); (OP_RES, IFMT); (OP_RES, IFMT); (OP_RES, IFMT)].

Definition specialTable : list Z :=
  [OP_SLL; OP_RES; OP_SRL; OP_SRA; OP_SLLV; OP_RES; OP_SRLV; OP_SRAV;
   OP_JR; OP_JALR; OP_RES; OP_RES; OP_SYSCALL; OP_UNIMP; OP_RES; OP_RES;
   OP_MFHI; OP_MTHI; OP_MFLO; OP_MTLO; OP_RES; OP_RES; OP_RES; OP_RES;
   OP_MULT; OP_MULTU; OP_DIV; OP_DIVU; OP_RES; OP_RES; OP_RES; OP_RES;
   OP_ADD; OP_ADDU; OP_SUB; OP_SUBU; OP_AND; OP_OR; OP_XOR; OP_NOR;
   OP_RES; OP_RES; OP_SLT; OP_SLTU; OP_RES; OP_RES; OP_RES; OP_RES;
   OP_RES; OP_RES; OP_RES; OP_RES; OP_RES; OP_RES; OP_RES; OP_RES;
   OP_RES; OP_RES; OP_RES; OP_RES; OP_RES; OP_RES; OP_RES; OP_RES].

Record Instruction := mkInstruction {
  opCode : Z;
  rs : Z;
  rt : Z;
  rd_ : Z;
  extra : Z
}.

(** The opcode of the BCOND group. *)
Definition decode_bcond (value : Z) : Z :=
  let i := Z.land value 2031616 in
  if i =? 0 then OP_BLTZ
  else if i =? 65536 then OP_BGEZ
  else if i =? 1048576 then OP_BLTZAL
  else if i =? 1114112 then OP_BGEZAL
  else OP_UNIMP.

Definition Decode (value : Z) : res Instruction :=
  let rs := Z.land (Z.shiftr value 21) 31 in
  let rt := Z.land (Z.shiftr value 16) 31 in
  let rd := Z.land (Z.shiftr value 11) 31 in
  '(op, fmt) ← Prelude.rd opTable (Z.land (Z.shiftr value 26) 63);
  let extra :=
    match fmt with
    | IFMT =>
        let e := Z.land value 65535 in
        if negb (Z.land e 32768 =? 0) then to_int (Z.lor e 4294901760) else e
    | RFMT => Z.land (Z.shiftr value 6) 31
    | JFMT => Z.land value 67108863
    end in
  if op =? SPECIAL then
    op ← Prelude.rd specialTable (Z.land value 63);
    Ok (mkInstruction op rs rt rd extra)
  else if op =? BCOND then Ok (mkInstruction (decode_bcond value) rs rt rd extra)
  else Ok (mkInstruction op rs rt rd extra).

(** ** Multiplication *)

(** The loop of [Mult], [n] rounds: [(hi, lo)]. *)
Fixpoint mult_loop (n : nat) (a bHi bLo hi lo : Z) : Z * Z :=
  match n with
  | O => (hi, lo)
  | S n' =>
      let odd := negb (Z.land a 1 =? 0) in
      let lo' := if odd then to_uint (lo + bLo) else lo in
      let hi' := if odd then to_uint (to_uint (hi + (if lo' <? bLo then 1 else 0)) + bHi) else hi in
      if odd && (Z.land a 4294967294 =? 0) then (hi', lo')
      else
        let bHi' := to_uint (Z.shiftl bHi 1) in
        let bHi' := if negb (Z.land bLo 2147483648 =? 0) then Z.lor bHi' 1 else bHi' in
        mult_loop n' (Z.shiftr a 1) bHi' (to_uint (Z.shiftl bLo 1)) hi' lo'
  end.

(** The values left in [*hiPtr] and [*loPtr]. *)
Definition Mult (a b : Z) (signedArith : bool) : Z * Z :=
  if (a =? 0) || (b =? 0) then (0, 0)
  else
    let negative := signedArith && xorb (a <? 0) (b <? 0) in
    let a := if signedArith && (a <? 0) then to_int (- a) else a in
    let b := if signedArith && (b <? 0) then to_int (- b) else b in
    let '(hi, lo) := mult_loop 32 a 0 (to_uint b) 0 0 in
    let '(hi, lo) :=
      if negative then
        let hi := to_uint (Z.lnot hi) in
        let lo := to_uint (to_uint (Z.lnot lo) + 1) in
        (if lo =? 0 then to_uint (hi + 1) else hi, lo)
      else (hi, lo) in
    (to_int hi, to_int lo).

(** ** The cases of [OneInstruction] *)

Section cases.
Context {K : Type}.
Context (ExceptionHandler : ExceptionType -> st (sim (cpu K)) unit).

(** A case of the switch: [Some (pcAfter, nextLoadReg, nextLoadValue)] at
    [break], [None] at [return]. *)
Abbreviation case := (st (sim (cpu K)) (option (Z * Z * Z))).
Abbreviation ReadMem := (ReadMem ExceptionHandler).
Abbreviation WriteMem := (WriteMem ExceptionHandler).
Definition break_ (pcAfter : Z) : case := mret (Some (pcAfter, 0, 0)).
Definition break_load (pcAfter nextLoadReg nextLoadValue : Z) : case :=
  mret (Some (pcAfter, nextLoadReg, nextLoadValue)).
Definition raise (which : ExceptionType) (badVAddr : Z) : case :=
  RaiseException ExceptionHandler which badVAddr;; mret None.
(** The sign bit of a word is set. *)
Definition sign_bit (x : Z) : bool := negb (Z.land x SIGN_BIT =? 0).

Definition op_ADD (i : Instruction) (pcAfter : Z) : case :=
  a ← reg (rs i); b ← reg (rt i);
  let sum := to_int (a + b) in
  if negb (sign_bit (Z.lxor a b)) && sign_bit (Z.lxor a sum) then raise OverflowException 0
  else wreg (rd_ i) sum;; break_ pcAfter.

Definition op_ADDI (i : Instruction) (pcAfter : Z) : case :=
  a ← reg (rs i);
  let sum := to_int (a + extra i) in
  if negb (sign_bit (Z.lxor a (extra i))) && sign_bit (Z.lxor (extra i) sum)
  then raise OverflowException 0
  else wreg (rt i) sum;; break_ pcAfter.

Definition op_ADDIU (i : Instruction) (pcAfter : Z) : case :=
  a ← reg (rs i); wreg (rt i) (to_int (a + extra i));; break_ pcAfter.
Definition op_ADDU (i : Instruction) (pcAfter : Z) : case :=
  a ← reg (rs i); b ← reg (rt i); wreg (rd_ i) (to_int (a + b));; break_ pcAfter.
Definition op_AND (i : Instruction) (pcAfter : Z) : case :=
  a ← reg (rs i); b ← reg (rt i); wreg (rd_ i) (Z.land a b);; break_ pcAfter.
Definition op_ANDI (i : Instruction) (pcAfter : Z) : case :=
  a ← reg (rs i); wreg (rt i) (Z.land a (Z.land (extra i) 65535));; break_ pcAfter.

(** [pcAfter = registers[NextPCReg] + IndexToAddr(instr->extra)] *)
Definition branch (i : Instruction) (taken : bool) (pcAfter : Z) : case :=
  if taken then n ← reg NextPCReg; break_ (to_int (n + IndexToAddr (extra i)))
  else break_ pcAfter.
(** [registers[r] = registers[NextPCReg] + 4] *)
Definition link (r : Z) : st (sim (cpu K)) unit :=
  n ← reg NextPCReg; wreg r (to_int (n + 4)).

Definition op_BEQ (i : Instruction) (pcAfter : Z) : case :=
  a ← reg (rs i); b ← reg (rt i); branch i (a =? b) pcAfter.
Definition op_BGEZ (i : Instruction) (pcAfter : Z) : case :=
  a ← reg (rs i); branch i (negb (sign_bit a)) pcAfter.
Definition op_BGEZAL (i : Instruction) (pcAfter : Z) : case :=
  link R31;; op_BGEZ i pcAfter.
Definition op_BGTZ (i : Instruction) (pcAfter : Z) : case :=
  a ← reg (rs i); branch i (0 <? a) pcAfter.
Definition op_BLEZ (i : Instruction) (pcAfter : Z) : case :=
  a ← reg (rs i); branch i (a <=? 0) pcAfter.
Definition op_BLTZ (i : Instruction) (pcAfter : Z) : case :=
  a ← reg (rs i); branch i (sign_bit a) pcAfter.
Definition op_BLTZAL (i : Instruction) (pcAfter : Z) : case :=
  link R31;; op_BLTZ i pcAfter.
Definition op_BNE (i : Instruction) (pcAfter : Z) : case :=
  a ← reg (rs i); b ← reg (rt i); branch i (negb (a =? b)) pcAfter.

(** The quotient the host cannot represent. *)
Definition div_traps (a b : Z) : bool := (a =? - two31) && (b =? -1).
Definition op_DIV (i : Instruction) (pcAfter : Z) : case :=
  b ← reg (rt i);
  if b =? 0 then wreg LoReg 0;; wreg HiReg 0;; break_ pcAfter
  else
    a ← reg (rs i);
    if div_traps a b then lift UB
    else
      wreg LoReg (Z.quot a b);;
      a ← reg (rs i); b ← reg (rt i);
      wreg HiReg (Z.rem a b);; break_ pcAfter.
Definition op_DIVU (i : Instruction) (pcAfter : Z) : case :=
  a ← reg (rs i); b ← reg (rt i);
  let rs := to_uint a in let rt := to_uint b in
  if rt =? 0 then wreg LoReg 0;; wreg HiReg 0;; break_ pcAfter
  else wreg LoReg (to_int (rs / rt));; wreg HiReg (to_int (rs mod rt));; break_ pcAfter.

Definition op_J (i : Instruction) (pcAfter : Z) : case :=
  break_ (to_int (Z.lor (Z.land pcAfter 4026531840) (to_uint (IndexToAddr (extra i))))).
Definition op_JAL (i : Instruction) (pcAfter : Z) : case := link R31;; op_J i pcAfter.
Definition op_JR (i : Instruction) (pcAfter : Z) : case := a ← reg (rs i); break_ a.
Definition op_JALR (i : Instruction) (pcAfter : Z) : case := link (rd_ i);; op_JR i pcAfter.

(** [registers[instr->rs] + instr->extra] *)
Definition address (i : Instruction) : st (sim (cpu K)) Z :=
  a ← reg (rs i); mret (to_int (a + extra i)).

Definition op_LB_LBU (i : Instruction) (pcAfter : Z) : case :=
  tmp ← address i;
  o ← ReadMem tmp 1;
  match o with
  | None => mret None
  | Some value =>
      let value :=
        if negb (Z.land value 128 =? 0) && (opCode i =? OP_LB)
        then to_int (Z.lor value 4294967040) else Z.land value 255 in
      break_load pcAfter (rt i) value
  end.

Definition op_LH_LHU (i : Instruction) (pcAfter : Z) : case :=
  tmp ← address i;
  if negb (Z.land tmp 1 =? 0) then raise AddressErrorException tmp
  else
    o ← ReadMem tmp 2;
    match o with
    | None => mret None
    | Some value =>
        let value :=
          if negb (Z.land value 32768 =? 0) && (opCode i =? OP_LH)
          then to_int (Z.lor value 4294901760) else Z.land value 65535 in
        break_load pcAfter (rt i) value
    end.

Definition op_LUI (i : Instruction) (pcAfter : Z) : case :=
  wreg (rt i) (to_int (Z.shiftl (extra i) 16));; break_ pcAfter.

Definition op_LW (i : Instruction) (pcAfter : Z) : case :=
  tmp ← address i;
  if negb (Z.land tmp 3 =? 0) then raise AddressErrorException tmp
  else
    o ← ReadMem tmp 4;
    match o with
    | None => mret None
    | Some value => break_load pcAfter (rt i) value
    end.

(** The value of the register with a load to it that is still pending. *)
Definition pending_value (i : Instruction) : st (sim (cpu K)) Z :=
  l ← reg LoadReg; if l =? rt i then reg LoadValueReg else reg (rt i).

Definition op_LWL (i : Instruction) (pcAfter : Z) : case :=
  tmp ← address i;
  assert_ (Z.land tmp 3 =? 0);;
  o ← ReadMem tmp 4;
  match o with
  | None => mret None
  | Some value =>
      v ← pending_value i;
      let v :=
        match Z.land tmp 3 with
        | 0 => value
        | 1 => Z.lor (Z.land v 255) (to_int (Z.shiftl value 8))
        | 2 => Z.lor (Z.land v 65535) (to_int (Z.shiftl value 16))
        | 3 => Z.lor (Z.land v 16777215) (to_int (Z.shiftl value 24))
        | _ => v
        end in
      break_load pcAfter (rt i) v
  end.

Definition op_LWR (i : Instruction) (pcAfter : Z) : case :=
  tmp ← address i;
  assert_ (Z.land tmp 3 =? 0);;
  o ← ReadMem tmp 4;
  match o with
  | None => mret None
  | Some value =>
      v ← pending_value i;
      let v :=
        match Z.land tmp 3 with
        | 0 => to_int (Z.lor (Z.land v 4294967040) (Z.land (Z.shiftr value 24) 255))
        | 1 => to_int (Z.lor (Z.land v 4294901760) (Z.land (Z.shiftr value 16) 65535))
        | 2 => to_int (Z.lor (Z.land v 4278190080) (Z.land (Z.shiftr value 8) 16777215))
        | 3 => value
        | _ => v
        end in
      break_load pcAfter (rt i) v
  end.

Definition op_MFHI (i : Instruction) (pcAfter : Z) : case :=
  a ← reg HiReg; wreg (rd_ i) a;; break_ pcAfter.
Definition op_MFLO (i : Instruction) (pcAfter : Z) : case :=
  a ← reg LoReg; wreg (rd_ i) a;; break_ pcAfter.
Definition op_MTHI (i : Instruction) (pcAfter : Z) : case :=
  a ← reg (rs i); wreg HiReg a;; break_ pcAfter.
Definition op_MTLO (i : Instruction) (pcAfter : Z) : case :=
  a ← reg (rs i); wreg LoReg a;; break_ pcAfter.

Definition op_MULT (i : Instruction) (pcAfter : Z) : case :=
  a ← reg (rs i); b ← reg (rt i);
  let '(hi, lo) := Mult a b true in wreg HiReg hi;; wreg LoReg lo;; break_ pcAfter.
Definition op_MULTU (i : Instruction) (pcAfter : Z) : case :=
  a ← reg (rs i); b ← reg (rt i);
  let '(hi, lo) := Mult a b false in wreg HiReg hi;; wreg LoReg lo;; break_ pcAfter.

Definition op_NOR (i : Instruction) (pcAfter : Z) : case :=
  a ← reg (rs i); b ← reg (rt i); wreg (rd_ i) (Z.lnot (Z.lor a b));; break_ pcAfter.
(** Both operands are [rs]. *)
Definition op_OR (i : Instruction) (pcAfter : Z) : case :=
  a ← reg (rs i); b ← reg (rs i); wreg (rd_ i) (Z.lor a b);; break_ pcAfter.
Definition op_ORI (i : Instruction) (pcAfter : Z) : case :=
  a ← reg (rs i); wreg (rt i) (Z.lor a (Z.land (extra i) 65535));; break_ pcAfter.

(** SB, SH and SW *)
Definition store_case (i : Instruction) (size pcAfter : Z) : case :=
  tmp ← address i; v ← reg (rt i);
  b ← WriteMem tmp size v;
  if (b : bool) then break_ pcAfter else mret None.
Definition op_SB (i : Instruction) (pcAfter : Z) : case := store_case i 1 pcAfter.
Definition op_SH (i : Instruction) (pcAfter : Z) : case := store_case i 2 pcAfter.
Definition op_SW (i : Instruction) (pcAfter : Z) : case := store_case i 4 pcAfter.

Definition op_SLL (i : Instruction) (pcAfter : Z) : case :=
  b ← reg (rt i); wreg (rd_ i) (to_int (Z.shiftl b (extra i)));; break_ pcAfter.
Definition op_SLLV (i : Instruction) (pcAfter : Z) : case :=
  b ← reg (rt i); a ← reg (rs i);
  wreg (rd_ i) (to_int (Z.shiftl b (Z.land a 31)));; break_ pcAfter.
Definition op_SLT (i : Instruction) (pcAfter : Z) : case :=
  a ← reg (rs i); b ← reg (rt i); wreg (rd_ i) (if a <? b then 1 else 0);; break_ pcAfter.
Definition op_SLTI (i : Instruction) (pcAfter : Z) : case :=
  a ← reg (rs i); wreg (rt i) (if a <? extra i then 1 else 0);; break_ pcAfter.
Definition op_SLTIU (i : Instruction) (pcAfter : Z) : case :=
  a ← reg (rs i);
  wreg (rt i) (if to_uint a <? to_uint (extra i) then 1 else 0);; break_ pcAfter.
Definition op_SLTU (i : Instruction) (pcAfter : Z) : case :=
  a ← reg (rs i); b ← reg (rt i);
  wreg (rd_ i) (if to_uint a <? to_uint b then 1 else 0);; break_ pcAfter.
Definition op_SRA (i : Instruction) (pcAfter : Z) : case :=
  b ← reg (rt i); wreg (rd_ i) (Z.shiftr b (extra i));; break_ pcAfter.
Definition op_SRAV (i : Instruction) (pcAfter : Z) : case :=
  b ← reg (rt i); a ← reg (rs i); wreg (rd_ i) (Z.shiftr b (Z.land a 31));; break_ pcAfter.
(** [tmp] is a signed [int]: its shift copies the sign. *)
Definition op_SRL (i : Instruction) (pcAfter : Z) : case :=
  tmp ← reg (rt i); let tmp := Z.shiftr tmp (extra i) in wreg (rd_ i) tmp;; break_ pcAfter.
Definition op_SRLV (i : Instruction) (pcAfter : Z) : case :=
  tmp ← reg (rt i); a ← reg (rs i);
  let tmp := Z.shiftr tmp (Z.land a 31) in wreg (rd_ i) tmp;; break_ pcAfter.

Definition op_SUB (i : Instruction) (pcAfter : Z) : case :=
  a ← reg (rs i); b ← reg (rt i);
  let diff := to_int (a - b) in
  if sign_bit (Z.lxor a b) && sign_bit (Z.lxor a diff) then raise OverflowException 0
  else wreg (rd_ i) diff;; break_ pcAfter.
Definition op_SUBU (i : Instruction) (pcAfter : Z) : case :=
  a ← reg (rs i); b ← reg (rt i); wreg (rd_ i) (to_int (a - b));; break_ pcAfter.

Definition op_SWL (i : Instruction) (pcAfter : Z) : case :=
  tmp ← address i;
  assert_ (Z.land tmp 3 =? 0);;
  o ← ReadMem (Z.land tmp (Z.lnot 3)) 4;
  match o with
  | None => mret None
  | Some value =>
      v ← reg (rt i);
      let value :=
        match Z.land tmp 3 with
        | 0 => v
        | 1 => to_int (Z.lor (Z.land value 4278190080) (Z.land (Z.shiftr v 8) 16777215))
        | 2 => to_int (Z.lor (Z.land value 4294901760) (Z.land (Z.shiftr v 16) 65535))
        | 3 => to_int (Z.lor (Z.land value 4294967040) (Z.land (Z.shiftr v 24) 255))
        | _ => value
        end in
      b ← WriteMem (Z.land tmp (Z.lnot 3)) 4 value;
      if (b : bool) then break_ pcAfter else mret None
  end.

Definition op_SWR (i : Instruction) (pcAfter : Z) : case :=
  tmp ← address i;
  assert_ (Z.land tmp 3 =? 0);;
  o ← ReadMem (Z.land tmp (Z.lnot 3)) 4;
  match o with
  | None => mret None
  | Some value =>
      v ← reg (rt i);
      let value :=
        match Z.land tmp 3 with
        | 0 => Z.lor (Z.land value 16777215) (to_int (Z.shiftl v 24))
        | 1 => Z.lor (Z.land value 65535) (to_int (Z.shiftl v 16))
        | 2 => Z.lor (Z.land value 255) (to_int (Z.shiftl v 8))
        | 3 => v
        | _ => value
        end in
      b ← WriteMem (Z.land tmp (Z.lnot 3)) 4 value;
      if (b : bool) then break_ pcAfter else mret None
  end.

Definition op_SYSCALL (i : Instruction) (pcAfter : Z) : case := raise SyscallException 0.
Definition op_XOR (i : Instruction) (pcAfter : Z) : case :=
  a ← reg (rs i); b ← reg (rt i); wreg (rd_ i) (Z.lxor a b);; break_ pcAfter.
Definition op_XORI (i : Instruction) (pcAfter : Z) : case :=
  a ← reg (rs i); wreg (rt i) (Z.lxor a (Z.land (extra i) 65535));; break_ pcAfter.
Definition op_RES_UNIMP (i : Instruction) (pcAfter : Z) : case := raise IllegalInstrException 0.

(** ** The switch and what follows it *)

Definition switch_table : list (Z * (Instruction -> Z -> case)) :=
  [(OP_ADD, op_ADD); (OP_ADDI, op_ADDI); (OP_ADDIU, op_ADDIU); (OP_ADDU, op_ADDU);
   (OP_AND, op_AND); (OP_ANDI, op_ANDI); (OP_BEQ, op_BEQ); (OP_BGEZ, op_BGEZ);
   (OP_BGEZAL, op_BGEZAL); (OP_BGTZ, op_BGTZ); (OP_BLEZ, op_BLEZ); (OP_BLTZ, op_BLTZ);
   (OP_BLTZAL, op_BLTZAL); (OP_BNE, op_BNE); (OP_DIV, op_DIV); (OP_DIVU, op_DIVU);
   (OP_J, op_J); (OP_JAL, op_JAL); (OP_JALR, op_JALR); (OP_JR, op_JR);
   (OP_LB, op_LB_LBU); (OP_LBU, op_LB_LBU); (OP_LH, op_LH_LHU); (OP_LHU, op_LH_LHU);
   (OP_LUI, op_LUI); (OP_LW, op_LW); (OP_LWL, op_LWL); (OP_LWR, op_LWR);
   (OP_MFHI, op_MFHI); (OP_MFLO, op_MFLO); (OP_MTHI, op_MTHI); (OP_MTLO, op_MTLO);
   (OP_MULT, op_MULT); (OP_MULTU, op_MULTU); (OP_NOR, op_NOR); (OP_OR, op_OR);
   (OP_ORI, op_ORI); (OP_SB, op_SB); (OP_SH, op_SH); (OP_SLL, op_SLL); (OP_SLLV, op_SLLV);
   (OP_SLT, op_SLT); (OP_SLTI, op_SLTI); (OP_SLTIU, op_SLTIU); (OP_SLTU, op_SLTU);
   (OP_SRA, op_SRA); (OP_SRAV, op_SRAV); (OP_SRL, op_SRL); (OP_SRLV, op_SRLV);
   (OP_SUB, op_SUB); (OP_SUBU, op_SUBU); (OP_SW, op_SW); (OP_SWL, op_SWL); (OP_SWR, op_SWR);
   (OP_SYSCALL, op_SYSCALL); (OP_XOR, op_XOR); (OP_XORI, op_XORI);
   (OP_RES, op_RES_UNIMP); (OP_UNIMP, op_RES_UNIMP)].
Fixpoint switch (l : list (Z * (Instruction -> Z -> case))) (i : Instruction) (pcAfter : Z) : case :=
  match l with
  | [] => lift AssertFail
  | (op, c) :: l => if opCode i =? op then c i pcAfter else switch l i pcAfter
  end.
Definition execute : Instruction -> Z -> case := switch switch_table.

(** What happens behind the switch. *)
Definition finish_instruction (pcAfter nextLoadReg nextLoadValue : Z) : st (sim (cpu K)) unit :=
  m ← get_m; m ← lift (DelayedLoad m nextLoadReg nextLoadValue); put_m m;;
  pc ← reg PCReg; wreg PrevPCReg pc;;
  n ← reg NextPCReg; wreg PCReg n;;
  wreg NextPCReg pcAfter.

Definition OneInstruction : st (sim (cpu K)) unit :=
  pc ← reg PCReg;
  o ← ReadMem pc 4;
  match o with
  | None => mret tt
  | Some raw =>
      i ← lift (Decode (to_uint raw));
      n ← reg NextPCReg;
      r ← execute i (to_int (n + 4));
      match r with
      | None => mret tt
      | Some (pcAfter, nextLoadReg, nextLoadValue) =>
          finish_instruction pcAfter nextLoadReg nextLoadValue
      end
  end.

(** ** [Machine::Run]: [n] rounds of its endless loop *)

Context (OneTick : st (sim (cpu K)) unit).
Context (Debugger : st (sim (cpu K)) unit).
Fixpoint run_loop (n : nat) : st (sim (cpu K)) unit :=
  match n with
  | O => mret tt
  | S n' =>
      OneInstruction;;
      OneTick;;
      (fun s =>
         let m := mach (world s) in
         if singleStep m && (runUntilTime m <=? totalTicks (stats s)) then Debugger s
         else Ok (tt, s));;
      run_loop n'
  end.
Definition Run (n : nat) : st (sim (cpu K)) unit := setStatus UserMode;; run_loop n.
End cases.

(** ** Multiplication *)

Definition is_word (x : Z) : Prop := 0 <= x < two32.
(** The 64-bit value of a pair of words. *)
Definition pair64 (hi lo : Z) : Z := hi * two32 + lo.
Definition two64 : Z := 18446744073709551616.

(** [lo += bLo] with its carry into [hi], then [hi += bHi]. *)
Lemma add64 hi lo bHi bLo :
  is_word hi -> is_word lo -> is_word bHi -> is_word bLo ->
  let lo' := to_uint (lo + bLo) in
  let hi' := to_uint (to_uint (hi + (if lo' <? bLo then 1 else 0)) + bHi) in
  is_word hi' /\ is_word lo' /\ pair64 hi' lo' = (pair64 hi lo + pair64 bHi bLo) mod two64.
Proof.
  intros H1 H2 H3 H4 lo' hi'. split; [apply to_uint_range|]. split; [apply to_uint_range|].
  assert ((if lo' <? bLo then 1 else 0) = (lo + bLo) / two32) as Hc.
  { unfold lo', is_word, to_uint, two32 in *.
    destruct (Z.ltb_spec ((lo + bLo) mod 4294967296) bLo); lia_mod. }
  unfold hi'. rewrite Hc. unfold lo', pair64, to_uint, is_word, two32, two64 in *. lia_mod.
Qed.

(** The shift of the pair [bHi], [bLo]. *)
Lemma shift64 bHi bLo :
  is_word bHi -> is_word bLo ->
  let h := to_uint (Z.shiftl bHi 1) in
  let bHi' := if negb (Z.land bLo 2147483648 =? 0) then Z.lor h 1 else h in
  let bLo' := to_uint (Z.shiftl bLo 1) in
  is_word bHi' /\ is_word bLo' /\ pair64 bHi' bLo' = (2 * pair64 bHi bLo) mod two64.
Proof.
  intros H1 H2 h bHi' bLo'. change 2147483648 with (2 ^ 31) in bHi'.
  unfold bHi'. rewrite land_bit by lia.
  assert (Z.lor h 1 = h + 1) as ->.
  { rewrite <-Z.add_nocarry_lor; [done|]. change 1 with (Z.ones 1). rewrite Z.land_ones by lia.
    unfold h, to_uint, two32. rewrite Z.shiftl_mul_pow2 by lia. change (2 ^ 1) with 2. lia_mod. }
  unfold bLo', h, to_uint, is_word, pair64, two32, two64 in *.
  rewrite !Z.shiftl_mul_pow2 by lia. change (2 ^ 1) with 2. change (2 ^ 31) with 2147483648.
  destruct (Z.eqb_spec (bLo / 2147483648 mod 2 * 2147483648) 0); simpl; split_and!; lia_mod.
Qed.

Lemma last_bit a : is_int a -> Z.land a 4294967294 = 0 -> a = 0 \/ a = 1.
Proof.
  intros Ha. change 4294967294 with (Z.shiftl (Z.ones 31) 1). rewrite land_shiftl by lia.
  rewrite Z.land_ones, Z.shiftl_mul_pow2, Z.shiftr_div_pow2 by lia.
  change (2 ^ 31) with 2147483648. change (2 ^ 1) with 2. unfold_int. lia_mod.
Qed.

Lemma mult_loop_spec n : forall a bHi bLo hi lo,
  is_int a -> is_word bHi -> is_word bLo -> is_word hi -> is_word lo ->
  let '(h, l) := mult_loop n a bHi bLo hi lo in
  is_word h /\ is_word l /\
  pair64 h l = (pair64 hi lo + pair64 bHi bLo * (a mod 2 ^ Z.of_nat n)) mod two64.
Proof.
  induction n as [|n IH]; intros a bHi bLo hi lo Ha Hb1 Hb2 Hh Hl.
  - simpl. split_and!; [done|done|]. rewrite Z.mod_1_r, Z.mul_0_r, Z.add_0_r.
    rewrite Z.mod_small; [done|]. unfold pair64, is_word, two32, two64 in *. lia.
  - cbn [mult_loop]. cbv zeta.
    assert (a mod 2 ^ Z.of_nat (S n) = a mod 2 + 2 * (a / 2 mod 2 ^ Z.of_nat n)) as Hmod.
    { rewrite Nat2Z.inj_succ, Z.pow_succ_r by lia. rewrite Z.rem_mul_r by lia. done. }
    assert (Z.land a 1 = a mod 2) as Hodd
      by (change 1 with (Z.ones 1); by rewrite Z.land_ones by lia).
    destruct (add64 hi lo bHi bLo Hh Hl Hb1 Hb2) as (A1 & A2 & A3).
    destruct (shift64 bHi bLo Hb1 Hb2) as (S1 & S2 & S3).
    assert (Z.shiftr a 1 = a / 2) as Hsh by (by rewrite Z.shiftr_div_pow2 by lia).
    rewrite Hodd, Hsh.
    assert (is_int (a / 2)) as Ha' by (rewrite <-Hsh; apply is_int_shiftr_n; [done|lia]).
    set (B := pair64 bHi bLo) in *. set (R := pair64 hi lo) in *.
    destruct (Z.eqb_spec (a mod 2) 0) as [E|E]; cbn [negb andb].
    + specialize (IH (a / 2) _ _ hi lo Ha' S1 S2 Hh Hl).
      destruct (mult_loop n _ _ _ _ _) as [h l]. destruct IH as (I1 & I2 & I3).
      split_and!; [done|done|]. rewrite I3, S3, Hmod, E. fold R.
      rewrite <-Z.add_mod_idemp_r, Z.mul_mod_idemp_l, Z.add_mod_idemp_r by done. f_equal. lia.
    + assert (a mod 2 = 1) as E1 by lia_mod.
      destruct (Z.eqb_spec (Z.land a 4294967294) 0) as [E2|E2].
      * split_and!; [done|done|]. rewrite A3. destruct (last_bit a Ha E2) as [-> | ->]; [done|].
        rewrite Hmod. rewrite Z.div_small by lia. rewrite Zmod_0_l. f_equal. simpl. lia.
      * specialize (IH (a / 2) _ _ _ _ Ha' S1 S2 A1 A2).
        destruct (mult_loop n _ _ _ _ _) as [h l]. destruct IH as (I1 & I2 & I3).
        split_and!; [done|done|]. rewrite I3, S3, A3, Hmod, E1.
        rewrite Z.add_mod_idemp_l by done.
        rewrite <-Z.add_mod_idemp_r, Z.mul_mod_idemp_l, Z.add_mod_idemp_r by done. f_equal. lia.
Qed.

Lemma negate64 hi lo :
  is_word hi -> is_word lo ->
  let h := to_uint (Z.lnot hi) in
  let l := to_uint (to_uint (Z.lnot lo) + 1) in
  let h' := if l =? 0 then to_uint (h + 1) else h in
  is_word h' /\ is_word l /\ pair64 h' l = (- pair64 hi lo) mod two64.
Proof.
  intros H1 H2 h l h'. unfold h', h, l, Z.lnot, to_uint, is_word, pair64, two32, two64 in *.
  destruct (Z.eqb_spec (((Z.pred (- lo)) mod 4294967296 + 1) mod 4294967296) 0); split_and!; lia_mod.
Qed.

(** The two values of a register. *)
Definition as_arith (signedArith : bool) (x : Z) : Z := if signedArith then x else to_uint x.

Lemma read64 (sgn : bool) h l v :
  is_word h -> is_word l -> pair64 h l = v mod two64 ->
  (if sgn then - 2 ^ 63 <= v < 2 ^ 63 else 0 <= v < two64) ->
  as_arith sgn (to_int h) * two32 + to_uint (to_int l) = v.
Proof.
  intros W1 W2 E R. rewrite to_uint_to_int.
  unfold as_arith, pair64, is_word, to_uint, to_int, two31, two32, two64 in *.
  destruct sgn; [change (2 ^ 63) with 9223372036854775808 in R|]; lia_mod.
Qed.

Lemma Mult_spec a b (sg : bool) :
  is_int a -> is_int b ->
  let '(hi, lo) := Mult a b sg in
  is_int hi /\ is_int lo /\
  as_arith sg hi * two32 + to_uint lo = as_arith sg a * as_arith sg b.
Proof.
  intros Ha Hb. unfold Mult.
  destruct (Z.eqb_spec a 0) as [->|Na]; [|destruct (Z.eqb_spec b 0) as [->|Nb]]; cbn [orb].
  { split_and!; [done|done|]. by destruct sg. }
  { split_and!; [done|done|]. destruct sg; cbn; by rewrite Z.mul_0_r. }
  set (a' := if sg && (a <? 0) then to_int (- a) else a).
  set (b' := if sg && (b <? 0) then to_int (- b) else b).
  assert (is_int a') as Ha' by (unfold a'; destruct (sg && (a <? 0)); [apply to_int_range|done]).
  assert (is_int b') as Hb' by (unfold b'; destruct (sg && (b <? 0)); [apply to_int_range|done]).
  assert (is_word 0) as H0 by (unfold is_word, two32; lia).
  pose proof (mult_loop_spec 32 a' 0 (to_uint b') 0 0 Ha' H0 (to_uint_range _) H0 H0) as HM.
  destruct (mult_loop 32 _ _ _ _ _) as [h l]. destruct HM as (M1 & M2 & M3).
  change (2 ^ Z.of_nat 32) with two32 in M3. fold (to_uint a') in M3.
  change (pair64 0 0) with 0 in M3. rewrite Z.add_0_l in M3.
  change (pair64 0 (to_uint b')) with (to_uint b') in M3.
  destruct sg; cbn [andb] in *.
  - assert (to_uint a' = Z.abs a /\ to_uint b' = Z.abs b) as [Ea Eb].
    { unfold a', b', to_uint, to_int, is_int, two31, two32 in *.
      destruct (Z.ltb_spec a 0), (Z.ltb_spec b 0); split; lia_mod. }
    rewrite Ea, Eb in M3.
    assert (- 2 ^ 63 <= a * b < 2 ^ 63) as Hr.
    { change (2 ^ 63) with (two31 * two32). unfold is_int, two31, two32 in *. nia. }
    destruct (xorb (a <? 0) (b <? 0)) eqn:Ex.
    + destruct (negate64 h l M1 M2) as (N1 & N2 & N3).
      split_and!; [apply to_int_range|apply to_int_range|].
      apply (read64 true); [done|done| |done]. rewrite N3, M3.
      rewrite <-(Z.sub_0_l (_ mod two64)), Zminus_mod_idemp_r. f_equal.
      destruct (Z.ltb_spec a 0), (Z.ltb_spec b 0); try done;
        destruct (Z.abs_spec a) as [[? ->]|[? ->]], (Z.abs_spec b) as [[? ->]|[? ->]];
        try (exfalso; lia); unfold as_arith; ring.
    + split_and!; [apply to_int_range|apply to_int_range|].
      apply (read64 true); [done|done| |done]. rewrite M3. f_equal.
      destruct (Z.ltb_spec a 0), (Z.ltb_spec b 0); try done;
        destruct (Z.abs_spec a) as [[? ->]|[? ->]], (Z.abs_spec b) as [[? ->]|[? ->]];
        try (exfalso; lia); unfold as_arith; ring.
  - split_and!; [apply to_int_range|apply to_int_range|].
    apply (read64 false); [done|done| |].
    + rewrite M3. unfold a', b'. f_equal. simpl. lia.
    + pose proof (to_uint_range a). pose proof (to_uint_range b).
      unfold as_arith, is_uint, two32, two64 in *. nia.
Qed.

(** ** Signs and overflow *)

Lemma sign_bit_neg x : is_int x -> sign_bit x = (x <? 0).
Proof.
  intros Hx. unfold sign_bit, SIGN_BIT. change 2147483648 with (2 ^ 31). rewrite land_bit by lia.
  change (2 ^ 31) with 2147483648. unfold_int.
  destruct (Z.eqb_spec (x / 2147483648 mod 2 * 2147483648) 0), (Z.ltb_spec x 0); try done; lia_mod.
Qed.
Lemma sign_lxor a b : (Z.lxor a b <? 0) = xorb (a <? 0) (b <? 0).
Proof.
  pose proof (Z.lxor_nonneg a b).
  destruct (Z.ltb_spec (Z.lxor a b) 0), (Z.ltb_spec a 0), (Z.ltb_spec b 0); try done; lia.
Qed.

(** The tests of ADD and SUB: the operands' signs agree (differ) and the
    result's sign is another. *)
Lemma add_overflow a b :
  is_int a -> is_int b ->
  (negb (sign_bit (Z.lxor a b)) && sign_bit (Z.lxor a (to_int (a + b)))) =
    negb (bool_decide (is_int (a + b))).
Proof.
  intros Ha Hb. pose proof (to_int_range (a + b)) as Hs.
  rewrite !sign_bit_neg, !sign_lxor by auto with nachos.
  destruct (bool_decide_reflect (is_int (a + b))) as [Hi|Hi].
  - rewrite to_int_id by done. zcases.
  - unfold to_int, is_int, two31, two32 in *. zcases; lia_mod.
Qed.
Lemma sub_overflow a b :
  is_int a -> is_int b ->
  (sign_bit (Z.lxor a b) && sign_bit (Z.lxor a (to_int (a - b)))) =
    negb (bool_decide (is_int (a - b))).
Proof.
  intros Ha Hb. pose proof (to_int_range (a - b)) as Hs.
  rewrite !sign_bit_neg, !sign_lxor by auto with nachos.
  destruct (bool_decide_reflect (is_int (a - b))) as [Hi|Hi].
  - rewrite to_int_id by done. zcases.
  - unfold to_int, is_int, two31, two32 in *. zcases; lia_mod.
Qed.

(** ** Decoding *)

Definition known_op (op : Z) : bool :=
  existsb (fun x => x =? op) (List.map fst (@switch_table unit (fun _ => no_op))).

Definition is_shift (op : Z) : bool := (op =? OP_SLL) || (op =? OP_SRA) || (op =? OP_SRL).

Record instr_ok (i : Instruction) : Prop := {
  io_op : known_op (opCode i) = true;
  io_rs : 0 <= rs i < 32;
  io_rt : 0 <= rt i < 32;
  io_rd : 0 <= rd_ i < 32;
  io_extra : is_int (extra i);
  io_shift : is_shift (opCode i) = true -> 0 <= extra i < 32
}.

Lemma Decode_ok value : exists i, Decode value = Ok i /\ instr_ok i.
Proof.
  assert (forall x, 0 <= Z.land x 31 < 32) as H31 by (intros x; apply (land_mask_bound x 5); lia).
  assert (forall x, 0 <= Z.land x 63 < 64) as H63 by (intros x; apply (land_mask_bound x 6); lia).
  unfold Decode. set (e := Z.land (Z.shiftr value 26) 63).
  destruct (rd_total opTable e (H63 _)) as ([op fmt] & Ho & Hg). rewrite Ho. cbn [mbind res_bind].
  set (ex := match fmt with IFMT => _ | JFMT => _ | RFMT => _ end).
  assert (is_int ex) as Hex.
  { unfold ex. pose proof (land_mask_bound value 16 ltac:(lia)) as H16.
    pose proof (land_mask_bound value 26 ltac:(lia)) as H26. pose proof (H31 (Z.shiftr value 6)).
    change (Z.ones 16) with 65535 in H16. change (Z.ones 26) with 67108863 in H26.
    change (2 ^ 16) with 65536 in H16. change (2 ^ 26) with 67108864 in H26.
    destruct fmt; [destruct (negb _); [apply to_int_range|]| |]; unfold_int; lia. }
  assert (Forall (fun x => x.1 = SPECIAL /\ x.2 = RFMT \/ x.1 = BCOND \/
    known_op x.1 = true /\ is_shift x.1 = false) opTable) as Hall.
  { unfold opTable. repeat (constructor; [simpl; auto|]). constructor. }
  pose proof (Forall_zget _ _ _ _ Hall Hg) as Hop. simpl in Hop.
  destruct (Z.eqb_spec op SPECIAL) as [->|N1]; [|destruct (Z.eqb_spec op BCOND) as [->|N2]].
  - destruct (rd_total specialTable (Z.land value 63) (H63 _)) as (op' & Ho' & Hg').
    rewrite Ho'. cbn [mbind res_bind]. eexists. split; [done|]. split; simpl; auto.
    + refine (Forall_zget (fun x => known_op x = true) _ _ _ _ Hg').
      unfold specialTable. repeat (constructor; [reflexivity|]). constructor.
    + intros _. destruct Hop as [[_ ->]|[?|[? _]]]; [apply H31|done|done].
  - assert (known_op (decode_bcond value) = true /\ is_shift (decode_bcond value) = false) as [Hk Hs].
    { unfold decode_bcond. generalize (Z.land value 2031616). intros z.
      destruct (z =? 0), (z =? 65536), (z =? 1048576), (z =? 1114112); split; reflexivity. }
    eexists. split; [done|]. split; simpl; auto. rewrite Hs. done.
  - destruct Hop as [[? _]|[?|[Hk Hs]]]; [done|done|].
    eexists. split; [done|]. split; simpl; auto. rewrite Hs. done.
Qed.

(** ** The simulator does not go wrong *)

(** A machine in the middle of an instruction: register 0 may hold a result
    that is about to be discarded. *)
Record mid_ok (m : Machine) : Prop := {
  md_regs : regs_ok (registers m);
  md_mem_len : zlen (mainMemory m) = MemorySize;
  md_mem : Forall is_byte (mainMemory m);
  md_tables : tables_ok m
}.
Lemma machine_mid m : machine_ok m -> mid_ok m.
Proof. intros []. by split. Qed.

(** The instructions on which the simulator stops: the unaligned cases of
    LWL, LWR, SWL and SWR ([ASSERT]), and the quotient that traps. *)
Definition stops (m : Machine) (i : Instruction) : bool :=
  let a := default 0 (zget (registers m) (rs i)) in
  let b := default 0 (zget (registers m) (rt i)) in
  (existsb (fun op => opCode i =? op) [OP_LWL; OP_LWR; OP_SWL; OP_SWR] &&
     negb (Z.land (to_int (a + extra i)) 3 =? 0)) ||
  ((opCode i =? OP_DIV) && negb (b =? 0) && div_traps a b).

Lemma div_int a b :
  is_int a -> is_int b -> b <> 0 -> div_traps a b = false ->
  is_int (Z.quot a b) /\ is_int (Z.rem a b).
Proof.
  intros Ha Hb Nb Ht. unfold div_traps in Ht.
  assert (~ (a = - two31 /\ b = -1)) as Hn.
  { intros [-> ->]. by rewrite !Z.eqb_refl in Ht. }
  clear Ht. pose proof (Z.quot_rem' a b) as Hq. pose proof (Z.rem_bound_abs a b Nb) as Hr.
  unfold is_int, two31 in *. split.
  - destruct (decide (b = 1 \/ b = -1)) as [[-> | ->]|Hb1].
    + rewrite Z.quot_1_r. lia.
    + pose proof (Z.quot_opp_r a 1 ltac:(lia)) as Ho. rewrite Z.quot_1_r in Ho.
      change (- (1)) with (-1) in Ho. lia.
    + pose proof (Z.quot_abs a b Nb). assert (Z.abs (Z.quot a b) <= Z.abs a / 2); [|lia_mod].
      rewrite <-Z.quot_abs, Z.quot_div_nonneg by lia. apply Z.div_le_compat_l; lia.
  - lia.
Qed.

Section safety.
Context {K : Type}.
Context (ExceptionHandler : ExceptionType -> st (sim (cpu K)) unit).
Implicit Types (s : sim (cpu K)) (i : Instruction).

Definition P_ok s : Prop := machine_ok (mach (world s)).
Definition P_mid s : Prop := mid_ok (mach (world s)).
(** After a case of the switch. *)
Definition case_post (o : option (Z * Z * Z)) s : Prop :=
  match o with
  | None => P_ok s
  | Some (pcAfter, nextLoadReg, nextLoadValue) =>
      P_mid s /\ is_int pcAfter /\ 0 <= nextLoadReg < NumGPRegs /\ is_int nextLoadValue
  end.

Lemma ok_mid s : P_ok s -> P_mid s.
Proof. apply machine_mid. Qed.

Lemma reg_at s r v : zget (registers (mach (world s))) r = Some v -> reg r s = Ok (v, s).
Proof. intros Hv. unfold reg, get_m, mbind, st_bind. unfold lift. by rewrite (proj2 (rd_Ok _ _ _) Hv). Qed.

(** The kernel's own state has an invariant [J]; the instructions leave it to the
    handler, whose failures are the only ones. *)
Context (J : K -> Prop).
Definition handler_fails (f : failure) : Prop :=
  exists e s, (P_ok s /\ J (os (world s))) /\ failure_of (ExceptionHandler e s) = Some f.
Definition safe {A} (P : sim (cpu K) -> Prop) (c : st (sim (cpu K)) A) (Q : A -> sim (cpu K) -> Prop) : Prop :=
  safe_but handler_fails (fun s => P s /\ J (os (world s))) c (fun a s => Q a s /\ J (os (world s))).
Lemma safe_ret {A} (P : sim (cpu K) -> Prop) (a : A) Q : (forall s, P s -> Q a s) -> safe P (mret a) Q.
Proof. intros H. apply safe_but_ret. intros s [? ?]. auto. Qed.
Lemma safe_bind {A B} P (c : st (sim (cpu K)) A) (f : A -> st (sim (cpu K)) B) R Q :
  safe P c R -> (forall a, safe (R a) (f a) Q) -> safe P (c ≫= f) Q.
Proof. intros Hc Hf. eapply safe_but_bind; [exact Hc|exact Hf]. Qed.
Lemma safe_conseq {A} (P P' : sim (cpu K) -> Prop) (c : st (sim (cpu K)) A) (Q Q' : A -> sim (cpu K) -> Prop) :
  safe P c Q -> (forall s, P' s -> P s) -> (forall a s, Q a s -> Q' a s) -> safe P' c Q'.
Proof. intros H HP HQ. eapply safe_but_conseq; [exact H|intros s [? ?]; auto|intros a s [? ?]; auto]. Qed.
Lemma safe_pure {A} (X : Prop) P (c : st (sim (cpu K)) A) Q : (X -> safe P c Q) -> safe (fun s => P s /\ X) c Q.
Proof. intros H s [[Hs HX] HJ]. by apply H. Qed.
Lemma safe_if {A} (b : bool) P (c1 c2 : st (sim (cpu K)) A) Q :
  (b = true -> safe P c1 Q) -> (b = false -> safe P c2 Q) -> safe P (if b then c1 else c2) Q.
Proof. destruct b; auto. Qed.

Lemma safe_reg (P : sim (cpu K) -> Prop) r :
  (forall s, P s -> P_mid s) -> 0 <= r < NumTotalRegs ->
  safe P (reg r) (fun v s => P s /\ is_int v).
Proof.
  intros HP Hr s [Hs HJ]. destruct (regs_get _ r (md_regs _ (HP s Hs)) Hr) as (v & Hv & Hi).
  by rewrite (reg_at _ _ _ Hv).
Qed.
Lemma safe_wreg r v :
  0 <= r < NumTotalRegs -> r <> LoadReg -> is_int v ->
  safe P_mid (wreg r v) (fun _ => P_mid).
Proof.
  intros Hr Hl Hv s [[Hrg Hml Hmb Ht] HJ]. unfold wreg, get_m, mbind, st_bind. unfold lift.
  rewrite wr_Ok by (by rewrite (ro_len _ Hrg)). cbn.
  split; [|done]. split; try done. cbn. apply regs_set; auto.
Qed.

Section with_handler.
(** When the kernel's handler returns, the machine is well formed and the
    kernel's invariant holds. *)
Context (Hhandler : forall e s s', P_ok s -> J (os (world s)) -> ExceptionHandler e s = Ok (tt, s') ->
  P_ok s' /\ J (os (world s'))).
Lemma safe_handler e : safe P_ok (ExceptionHandler e) (fun _ => P_ok).
Proof using Hhandler.
  intros s [Hs HJ]. destruct (ExceptionHandler e s) as [[[] s']| | | |] eqn:E; [by eapply Hhandler|..];
    exists e, s; by rewrite E.
Qed.

Lemma safe_raise e a : is_int a -> safe P_ok (RaiseException ExceptionHandler e a) (fun _ => P_ok).
Proof using Hhandler.
  intros Ha s [Hs HJ]. pose proof Hs as [Hr _ Hl Hm Ht].
  destruct (RaiseException_spec ExceptionHandler s e a Hr Ha) as (-> & Hr' & Hz').
  set (m := set_registers _ _) in *.
  assert (P_ok (set_status (with_mach s m) SystemMode)) as Hok by (by split).
  pose proof (safe_handler e _ (conj Hok HJ)) as H. unfold mbind, st_bind.
  destruct (ExceptionHandler e _) as [[[] s']| | | |]; try done.
Qed.

Lemma safe_ReadMem a n :
  is_int a -> size_ok n ->
  safe P_ok (ReadMem ExceptionHandler a n)
    (fun o s => P_ok s /\ match o with Some v => is_int v | None => True end).
Proof using Hhandler.
  intros Ha Hn s [Hs HJ]. destruct (phys (mach (world s)) a n false) as [e|pa] eqn:Ep.
  - destruct (ReadMem_trap ExceptionHandler s a n e Hs Hn Ep) as (m' & Htd & ->).
    assert (P_ok (with_mach s m')) as Hok by (by eapply touched_machine_ok).
    pose proof (safe_raise e a Ha _ (conj Hok HJ)) as H. unfold mbind, st_bind.
    destruct (RaiseException _ _ _ _) as [[[] s']| | | |]; try done. by destruct H.
  - destruct (ReadMem_hit ExceptionHandler s a n pa Hs Hn Ep) as (m' & v & -> & Htd & _ & Hv).
    split; [|done]. split; [by eapply touched_machine_ok|done].
Qed.

Lemma safe_WriteMem a n v :
  is_int a -> size_ok n ->
  safe P_ok (WriteMem ExceptionHandler a n v) (fun _ => P_ok).
Proof using Hhandler.
  intros Ha Hn s [Hs HJ]. destruct (phys (mach (world s)) a n true) as [e|pa] eqn:Ep.
  - destruct (WriteMem_trap ExceptionHandler s a n v e Hs Hn Ep) as (m' & Htd & ->).
    assert (P_ok (with_mach s m')) as Hok by (by eapply touched_machine_ok).
    pose proof (safe_raise e a Ha _ (conj Hok HJ)) as H. unfold mbind, st_bind.
    destruct (RaiseException _ _ _ _) as [[[] s']| | | |]; done.
  - destruct (WriteMem_hit ExceptionHandler s a n v pa Hs Hn Ep) as (m' & Htd & ->).
    destruct (phys_bounds _ _ _ _ _ Hn Ep) as [H0 H1]. destruct (image_ok n v Hn) as [Hl Hb].
    pose proof Hs as [_ _ Hml Hmb _]. split; [|done].
    apply machine_ok_memory; [by eapply touched_machine_ok|rewrite zlen_splice; lia|].
    by apply Forall_splice.
Qed.

Lemma safe_break pcAfter : is_int pcAfter -> safe P_mid (break_ pcAfter) case_post.
Proof.
  intros Hp. apply safe_ret. intros s Hs. split; [done|]. split; [done|].
  split; [done|unfold_int; lia].
Qed.
Lemma safe_case_raise e a : is_int a -> safe P_ok (raise ExceptionHandler e a) case_post.
Proof using Hhandler.
  intros Ha. eapply safe_bind; [by apply safe_raise|]. intros []. by apply safe_ret.
Qed.

(** Value goals of the cases. *)
Ltac int_tac :=
  repeat first
    [ assumption | apply to_int_range
    | apply is_int_land | apply is_int_lor | apply is_int_lxor | apply is_int_lnot
    | apply is_int_shiftr_n; [|first [lia | apply (land_mask_bound _ 5); lia]]
    | match goal with |- is_int (if ?b then _ else _) => destruct b end
    | (unfold is_int, two31; lia) ].
(** One step of a case. *)
Ltac step :=
  lazymatch goal with
  | |- safe _ (reg _ ≫= _) _ =>
      eapply safe_bind;
        [apply safe_reg; [solve [auto using ok_mid | intros ? [? ?]; auto using ok_mid] |
          unfold NumTotalRegs, LoReg, HiReg, NextPCReg, R31, LoadReg, LoadValueReg, PCReg in *; lia]
        | intros ?; apply safe_pure; intros ?]
  | |- safe P_ok (wreg _ _ ≫= _) _ =>
      apply (safe_conseq P_mid P_ok _ case_post case_post); [|apply ok_mid|done]; step
  | |- safe P_mid (wreg _ _ ≫= _) _ =>
      eapply safe_bind;
        [apply safe_wreg; [unfold NumTotalRegs, LoReg, HiReg, R31 in *; lia |
          unfold LoadReg, LoReg, HiReg, R31 in *; lia | int_tac]
        | intros []; cbv beta]
  | |- safe P_ok (break_ _) _ =>
      apply (safe_conseq P_mid P_ok _ case_post case_post); [|apply ok_mid|done]; step
  | |- safe P_mid (break_ _) _ => apply safe_break; int_tac
  | |- safe P_ok (raise _ _ _) _ => apply safe_case_raise; int_tac
  | |- safe _ (if _ then _ else _) _ => apply safe_if; intros ?
  | |- safe _ (link _ ≫= _) _ => unfold link
  | |- safe _ ((_ ≫= _) ≫= _) _ => fail
  end.

Lemma safe_link (r : Z) :
  0 <= r < 32 -> safe P_ok (link (K:=K) r) (fun _ => P_mid).
Proof.
  intros Hr. unfold link.
  eapply safe_bind; [apply safe_reg; [apply ok_mid|done]|]. intros n. apply safe_pure. intros Hn.
  apply (safe_conseq P_mid P_ok _ (fun _ => P_mid) _); [|apply ok_mid|done].
  apply safe_wreg; [unfold NumTotalRegs; lia|unfold LoadReg; lia|apply to_int_range].
Qed.
Lemma safe_address i : instr_ok i -> safe P_ok (address (K:=K) i) (fun v s => P_ok s /\ is_int v).
Proof.
  intros []. unfold address. step. apply safe_ret. intros s Hs. split; [done|int_tac].
Qed.
Lemma safe_branch i b pcAfter :
  instr_ok i -> is_int pcAfter -> safe P_mid (branch (K:=K) i b pcAfter) case_post.
Proof. intros Hi Hp. unfold branch. step; [step|]; step. Qed.
Lemma mid_of_ok {A} (c : st (sim (cpu K)) A) Q : safe P_mid c Q -> safe P_ok c Q.
Proof. intros H. eapply safe_conseq; [done|apply ok_mid|done]. Qed.

(** A case that is safe from every well-formed state. *)
Definition case_ok (c : Instruction -> Z -> st (sim (cpu K)) (option (Z * Z * Z))) : Prop :=
  forall i pcAfter, instr_ok i -> is_int pcAfter -> safe P_ok (c i pcAfter) case_post.
Abbreviation H := ExceptionHandler.
Ltac each := repeat first [apply Forall_cons_2 | apply Forall_nil_2].
Ltac steps := let i := fresh "i" in let p := fresh "pc" in intros i p [] ?; repeat step.

Lemma arith_ok :
  Forall case_ok [op_ADD H; op_ADDI H; op_ADDIU; op_ADDU; op_AND; op_ANDI; op_SUB H; op_SUBU].
Proof using Hhandler.
  each; unfold case_ok, op_ADD, op_ADDI, op_ADDIU, op_ADDU, op_AND, op_ANDI, op_SUB,
    op_SUBU; cbv zeta; steps.
Qed.
Lemma logic_ok :
  Forall case_ok [op_LUI; op_MFHI; op_MFLO; op_MTHI; op_MTLO; op_NOR; op_OR; op_ORI; op_XOR; op_XORI].
Proof using Hhandler.
  each; unfold case_ok, op_LUI, op_MFHI, op_MFLO, op_MTHI, op_MTLO, op_NOR, op_OR,
    op_ORI, op_XOR, op_XORI; steps.
Qed.
Lemma compare_ok : Forall case_ok [op_SLT; op_SLTI; op_SLTIU; op_SLTU].
Proof using Hhandler.
  each; unfold case_ok, op_SLT, op_SLTI, op_SLTIU, op_SLTU; steps.
Qed.

Lemma trap_ok : Forall case_ok [op_SYSCALL H; op_RES_UNIMP H].
Proof using Hhandler. each; unfold case_ok, op_SYSCALL, op_RES_UNIMP; steps. Qed.
Lemma mult_ok : Forall case_ok [op_MULT; op_MULTU; op_DIVU].
Proof using Hhandler.
  each; unfold case_ok, op_MULT, op_MULTU, op_DIVU; cbv zeta; intros i pc [] ?; step; step.
  - pose proof (Mult_spec a a0 true) as HM. destruct (Mult a a0 true) as [hi lo].
    destruct HM as (? & ? & _); [done|done|]. repeat step.
  - pose proof (Mult_spec a a0 false) as HM. destruct (Mult a a0 false) as [hi lo].
    destruct HM as (? & ? & _); [done|done|]. repeat step.
  - repeat step.
Qed.
(** From the middle of an instruction too (behind a link). *)
Definition case_ok_mid (c : Instruction -> Z -> st (sim (cpu K)) (option (Z * Z * Z))) : Prop :=
  forall i pcAfter, instr_ok i -> is_int pcAfter -> safe P_mid (c i pcAfter) case_post.
Lemma branch_ok :
  Forall case_ok_mid [op_BEQ; op_BGEZ; op_BGTZ; op_BLEZ; op_BLTZ; op_BNE; op_J; op_JR].
Proof.
  each; unfold case_ok_mid, op_BEQ, op_BGEZ, op_BGTZ, op_BLEZ, op_BLTZ, op_BNE, op_J, op_JR;
    intros i pc Hi Hp; pose proof Hi as []; repeat step; by apply safe_branch.
Qed.
Lemma link_then c r i pcAfter :
  case_ok_mid c -> instr_ok i -> is_int pcAfter -> 0 <= r < 32 ->
  safe P_ok (link r;; c i pcAfter) case_post.
Proof. intros Hc Hi Hp Hr. eapply safe_bind; [by apply safe_link|]. intros []. by apply Hc. Qed.

Lemma shift_ok i pcAfter :
  instr_ok i -> is_int pcAfter -> is_shift (opCode i) = true ->
  Forall (fun c => safe P_ok (c i pcAfter) case_post) [op_SLL; op_SRA; op_SRL].
Proof.
  intros [] Hp Hs. specialize (io_shift0 Hs). each; unfold op_SLL, op_SRA, op_SRL; cbv zeta; repeat step.
Qed.
Lemma shiftv_ok : Forall case_ok [op_SLLV; op_SRAV; op_SRLV].
Proof. each; unfold case_ok, op_SLLV, op_SRAV, op_SRLV; cbv zeta; steps. Qed.

(** Loads and stores. *)
Lemma safe_break_load i pcAfter v :
  instr_ok i -> is_int pcAfter -> is_int v -> safe P_ok (break_load (K:=K) pcAfter (rt i) v) case_post.
Proof.
  intros [] Hp Hv. apply safe_ret. intros s Hs. split; [by apply ok_mid|].
  split; [done|]. split; [|done]. unfold NumGPRegs. lia.
Qed.
Ltac mem_step :=
  lazymatch goal with
  | |- safe _ (address _ ≫= _) _ =>
      eapply safe_bind; [by apply safe_address|intros ?; apply safe_pure; intros ?]
  | |- safe _ (ReadMem _ _ _ ≫= _) _ =>
      eapply safe_bind;
        [apply safe_ReadMem; [int_tac | unfold size_ok; lia]|intros [?|]; apply safe_pure; intros ?]
  | |- safe _ (WriteMem _ _ _ _ ≫= _) _ =>
      eapply safe_bind; [apply safe_WriteMem; [int_tac | unfold size_ok; lia]|intros [|]; cbv beta iota]
  | |- safe _ (break_load _ _ _) _ => apply safe_break_load; [done|done|int_tac]
  | |- safe _ (mret None) _ => by apply safe_ret
  | |- _ => step
  end.
Lemma load_ok_cases : Forall case_ok [op_LB_LBU H; op_LH_LHU H; op_LW H].
Proof using Hhandler.
  each; unfold case_ok, op_LB_LBU, op_LH_LHU, op_LW; intros i pc Hi Hp; repeat mem_step.
Qed.
Lemma store_ok_cases : Forall case_ok [op_SB H; op_SH H; op_SW H].
Proof using Hhandler.
  each; unfold case_ok, op_SB, op_SH, op_SW, store_case; intros i pc Hi Hp; pose proof Hi as [];
    repeat mem_step.
Qed.

(** *** The cases that can stop the simulator *)

Definition reg_of (m : Machine) (r : Z) : Z := default 0 (zget (registers m) r).
Lemma reg_value s r :
  P_mid s -> 0 <= r < NumTotalRegs ->
  reg r s = Ok (reg_of (mach (world s)) r, s) /\ is_int (reg_of (mach (world s)) r).
Proof.
  intros Hs Hr. destruct (regs_get _ r (md_regs _ Hs) Hr) as (v & Hv & Hi).
  unfold reg_of. rewrite Hv. split; [by apply reg_at|done].
Qed.
Lemma address_value s i :
  P_ok s -> instr_ok i ->
  address i s = Ok (to_int (reg_of (mach (world s)) (rs i) + extra i), s).
Proof.
  intros Hs []. destruct (reg_value s (rs i) (ok_mid _ Hs)) as [Hr _]; [unfold NumTotalRegs; lia|].
  unfold address. by rewrite (st_bind_Ok _ _ _ _ _ Hr).
Qed.

(** The shape of LWL, LWR, SWL and SWR. *)
Lemma assert_aligned_safe i (f : Z -> unit -> st (sim (cpu K)) (option (Z * Z * Z))) s :
  P_ok s -> instr_ok i ->
  let tmp := to_int (reg_of (mach (world s)) (rs i) + extra i) in
  let c := address i ≫= fun tmp => assert_ (Z.land tmp 3 =? 0) ≫= f tmp in
  ((Z.land tmp 3 =? 0) = false -> c s = AssertFail) /\
  ((Z.land tmp 3 =? 0) = true -> c s = f tmp tt s).
Proof.
  intros Hs Hi tmp c. unfold c. rewrite (st_bind_Ok _ _ _ _ _ (address_value s i Hs Hi)). fold tmp.
  unfold assert_, mbind, st_bind. by destruct (Z.land tmp 3 =? 0).
Qed.

(** Safe from the states in which the instruction does not stop. *)
Definition P_go i s : Prop := P_ok s /\ stops (mach (world s)) i = false.

Lemma stops_unaligned s i :
  existsb (fun op => opCode i =? op) [OP_LWL; OP_LWR; OP_SWL; OP_SWR] = true ->
  stops (mach (world s)) i = negb (Z.land (to_int (reg_of (mach (world s)) (rs i) + extra i)) 3 =? 0).
Proof.
  intros He. unfold stops, reg_of. rewrite He.
  assert ((opCode i =? OP_DIV) = false) as ->; [|by rewrite orb_false_r].
  simpl in He. unfold OP_LWL, OP_LWR, OP_SWL, OP_SWR, OP_DIV in *. zcases.
Qed.

Lemma unaligned_safe i (c : Z -> unit -> st (sim (cpu K)) (option (Z * Z * Z))) :
  instr_ok i -> existsb (fun op => opCode i =? op) [OP_LWL; OP_LWR; OP_SWL; OP_SWR] = true ->
  (forall tmp, is_int tmp -> safe P_ok (c tmp tt) case_post) ->
  safe (P_go i) (address i ≫= fun tmp => assert_ (Z.land tmp 3 =? 0) ≫= c tmp) case_post.
Proof.
  intros Hi He Hc s [[Hs Hst] HJ]. rewrite stops_unaligned in Hst by done.
  apply negb_false_iff in Hst. destruct (assert_aligned_safe i c s Hs Hi) as [_ ->]; [|done].
  apply Hc; [apply to_int_range|done].
Qed.

Lemma safe_pending_value i : instr_ok i -> safe P_ok (pending_value (K:=K) i) (fun v s => P_ok s /\ is_int v).
Proof.
  intros []. unfold pending_value. step.
  destruct (_ =? _); (apply safe_reg; [apply ok_mid|]); unfold NumTotalRegs, LoadValueReg; lia.
Qed.
Lemma lw_cases i pcAfter :
  instr_ok i -> is_int pcAfter ->
  existsb (fun op => opCode i =? op) [OP_LWL; OP_LWR; OP_SWL; OP_SWR] = true ->
  Forall (fun c => safe (P_go i) (c i pcAfter) case_post) [op_LWL H; op_LWR H; op_SWL H; op_SWR H].
Proof using Hhandler.
  intros Hi Hp He.
  assert (forall z (a b c d e : Z), is_int a -> is_int b -> is_int c -> is_int d -> is_int e ->
    is_int (match z with 0 => a | 1 => b | 2 => c | 3 => d | _ => e end)) as Hm.
  { intros z a b c d e ? ? ? ? ?. destruct z as [|[[]|[]|]|]; done. }
  each; apply unaligned_safe; try done; intros tmp Ht; mem_step; try mem_step.
  1,2: (eapply safe_bind; [by apply safe_pending_value|]; intros v; apply safe_pure; intros Hv;
    apply safe_break_load; [done|done|apply Hm; int_tac]).
  all: pose proof Hi as []; step; eapply safe_bind;
    [apply safe_WriteMem; [int_tac|unfold size_ok; lia]|intros [|]; cbv beta iota; by repeat mem_step].
Qed.

Lemma wreg_value s r v :
  P_mid s -> 0 <= r < NumTotalRegs -> r <> LoadReg -> is_int v ->
  exists s', wreg r v s = Ok (tt, s') /\ P_mid s' /\ os (world s') = os (world s) /\
    forall r', r' <> r -> reg_of (mach (world s')) r' = reg_of (mach (world s)) r'.
Proof.
  intros [Hrg Hml Hmb Ht] Hr Hl Hv. unfold wreg, get_m, mbind, st_bind. unfold lift.
  rewrite wr_Ok by (by rewrite (ro_len _ Hrg)). cbn. eexists. split; [done|].
  split; [split; try done; cbn; apply regs_set; auto|]. split; [done|]. intros r' Hne. unfold reg_of. cbn. by rewrite zget_zset_ne.
Qed.

Lemma div_safe i pcAfter :
  instr_ok i -> is_int pcAfter -> opCode i = OP_DIV -> safe (P_go i) (op_DIV i pcAfter) case_post.
Proof.
  intros Hi Hp Ho s [[Hs Hst] HJ]. pose proof Hi as []. pose proof (ok_mid _ Hs) as Hm.
  destruct (reg_value s (rt i) Hm) as [Hb Hbi]; [unfold NumTotalRegs; lia|].
  destruct (reg_value s (rs i) Hm) as [Ha Hai]; [unfold NumTotalRegs; lia|].
  unfold op_DIV. rewrite (st_bind_Ok _ _ _ _ _ Hb).
  destruct (Z.eqb_spec (reg_of (mach (world s)) (rt i)) 0) as [E|E].
  - assert (safe P_ok (wreg (K:=K) LoReg 0;; wreg HiReg 0;; break_ pcAfter) case_post) as Hz
      by (repeat step). exact (Hz s (conj Hs HJ)).
  - rewrite (st_bind_Ok _ _ _ _ _ Ha).
    assert (div_traps (reg_of (mach (world s)) (rs i)) (reg_of (mach (world s)) (rt i)) = false) as Ht.
    { unfold stops in Hst. rewrite Ho in Hst. apply orb_false_iff in Hst as [_ Hst].
      fold (reg_of (mach (world s)) (rs i)) (reg_of (mach (world s)) (rt i)) in Hst.
      rewrite (proj2 (Z.eqb_neq _ _) E) in Hst. done. }
    rewrite Ht. destruct (div_int _ _ Hai Hbi E Ht) as [Hq Hr].
    destruct (wreg_value s LoReg _ Hm ltac:(done) ltac:(done) Hq) as (s1 & Hw & Hm1 & Hk1 & Hr1).
    rewrite (st_bind_Ok _ _ _ _ _ Hw).
    destruct (reg_value s1 (rs i) Hm1) as [Ha1 _]; [unfold NumTotalRegs; lia|].
    destruct (reg_value s1 (rt i) Hm1) as [Hb1 _]; [unfold NumTotalRegs; lia|].
    rewrite (st_bind_Ok _ _ _ _ _ Ha1), (st_bind_Ok _ _ _ _ _ Hb1).
    rewrite !Hr1 by (unfold LoReg; lia).
    assert (safe P_mid (wreg (K:=K) HiReg (Z.rem (reg_of (mach (world s)) (rs i))
      (reg_of (mach (world s)) (rt i)));; break_ pcAfter) case_post) as Hz by (repeat step).
    apply (Hz s1). split; [done|]. by rewrite Hk1.
Qed.

(** *** All of them *)

Lemma go_of_ok {A} i (c : st (sim (cpu K)) A) Q : safe P_ok c Q -> safe (P_go i) c Q.
Proof. intros Hc. eapply safe_conseq; [done|by intros s [? _]|done]. Qed.

Lemma switch_safe i pcAfter (Q : option (Z * Z * Z) -> sim (cpu K) -> Prop) P l :
  Forall (fun x => opCode i = x.1 -> safe P (x.2 i pcAfter) Q) l ->
  existsb (fun x => x =? opCode i) (List.map fst l) = true ->
  safe P (switch l i pcAfter) Q.
Proof.
  induction 1 as [|[op c] l Hc Hl IH]; simpl; [done|]. intros He.
  destruct (Z.eqb_spec (opCode i) op) as [E|E]; [by apply Hc|].
  apply IH. by rewrite (proj2 (Z.eqb_neq _ _)) in He by done.
Qed.

Ltac pick L := first
  [ exact (proj1 (proj1 (Forall_cons _ _ _) L))
  | pick (proj2 (proj1 (Forall_cons _ _ _) L)) ].
Lemma execute_safe i pcAfter :
  instr_ok i -> is_int pcAfter -> safe (P_go i) (execute H i pcAfter) case_post.
Proof using Hhandler.
  intros Hi Hp. apply switch_safe; [|apply Hi]. unfold switch_table.
  assert (forall c, case_ok c -> safe (P_go i) (c i pcAfter) case_post) as Hgo.
  { intros c Hc. by apply go_of_ok, Hc. }
  assert (forall c, case_ok_mid c -> safe (P_go i) (c i pcAfter) case_post) as Hgm.
  { intros c Hc. by apply go_of_ok, mid_of_ok, Hc. }
  repeat apply Forall_cons_2; try apply Forall_nil_2; cbn [fst snd]; intros Eop;
    first
      [ apply Hgo; first [pick arith_ok | pick logic_ok | pick compare_ok | pick trap_ok | pick mult_ok
          | pick shiftv_ok | pick load_ok_cases | pick store_ok_cases]
      | apply Hgm; pick branch_ok
      | by apply div_safe
      | assert (existsb (fun op => opCode i =? op) [OP_LWL; OP_LWR; OP_SWL; OP_SWR] = true) as He
          by (rewrite Eop; reflexivity); pick (lw_cases i pcAfter Hi Hp He)
      | assert (is_shift (opCode i) = true) as He by (rewrite Eop; reflexivity); apply go_of_ok;
          pick (shift_ok i pcAfter Hi Hp He)
      | apply go_of_ok, link_then; [pick branch_ok|done|done|destruct Hi; unfold R31; lia] ].
Qed.

Lemma safe_wreg_ok r v :
  0 < r < NumTotalRegs -> r <> LoadReg -> is_int v -> safe P_ok (wreg (K:=K) r v) (fun _ => P_ok).
Proof.
  intros Hr Hl Hv s [[Hrg Hz Hml Hmb Ht] HJ]. unfold wreg, get_m, mbind, st_bind. unfold lift.
  rewrite wr_Ok by (rewrite (ro_len _ Hrg); lia). cbn.
  split; [|done]. split; try done; cbn; [apply regs_set; auto|]. rewrite zget_zset_ne by lia. done.
Qed.

Lemma finish_safe pcAfter nextLoadReg nextLoadValue :
  is_int pcAfter -> 0 <= nextLoadReg < NumGPRegs -> is_int nextLoadValue ->
  safe P_mid (finish_instruction (K:=K) pcAfter nextLoadReg nextLoadValue) (fun _ => P_ok).
Proof.
  intros Hp Hr Hv s [[Hrg Hml Hmb Ht] HJ]. unfold finish_instruction.
  rewrite (st_bind_Ok _ _ s (mach (world s)) s) by done.
  rewrite (lift_bind_Ok _ _ _ _ (DelayedLoad_spec _ nextLoadReg nextLoadValue Hrg)).
  destruct (delayed_ok _ nextLoadReg nextLoadValue Hrg Hr Hv) as [Hrg' Hz'].
  set (m' := set_registers _ _). rewrite (st_bind_Ok _ _ s tt (with_mach s m')) by done.
  assert (P_ok (with_mach s m')) as Hok by (by split).
  assert (safe P_ok (pc ← reg (K:=K) PCReg; wreg PrevPCReg pc;; n ← reg NextPCReg; wreg PCReg n;;
    wreg NextPCReg pcAfter) (fun _ => P_ok)) as Hf; [|exact (Hf _ (conj Hok HJ))].
  step. eapply safe_bind; [by apply safe_wreg_ok|]. intros []. cbv beta.
  step. eapply safe_bind; [by apply safe_wreg_ok|]. intros []. by apply safe_wreg_ok.
Qed.

(** The instruction the program counter points to, if it can be fetched. *)
Definition fetch (m : Machine) : option Instruction :=
  match phys m (reg_of m PCReg) 4 false with
  | inr pa =>
      match load (mainMemory m) pa 4 with
      | Ok raw => match Decode (to_uint raw) with Ok i => Some i | _ => None end
      | _ => None
      end
  | inl _ => None
  end.

(** [OneInstruction] up to the switch. *)
Lemma OneInstruction_fetch s :
  P_ok s ->
  match fetch (mach (world s)) with
  | Some i => instr_ok i /\ exists m', touched (mach (world s)) m' /\
      OneInstruction H s =
        (r ← execute H i (to_int (reg_of m' NextPCReg + 4));
         match r with
         | None => mret tt
         | Some (pcAfter, nextLoadReg, nextLoadValue) =>
             finish_instruction pcAfter nextLoadReg nextLoadValue
         end) (with_mach s m')
  | None => exists e m', phys (mach (world s)) (reg_of (mach (world s)) PCReg) 4 false = inl e /\
      touched (mach (world s)) m' /\
      OneInstruction H s = RaiseException H e (reg_of (mach (world s)) PCReg) (with_mach s m')
  end.
Proof.
  intros Hs. pose proof (ok_mid _ Hs) as Hm. destruct (reg_value s PCReg Hm ltac:(done)) as [Hpc Hpi].
  unfold OneInstruction. rewrite (st_bind_Ok _ _ _ _ _ Hpc). unfold fetch.
  destruct (phys (mach (world s)) _ 4 false) as [e|pa] eqn:Ep.
  - destruct (ReadMem_trap H s _ 4 e Hs ltac:(unfold size_ok; lia) Ep) as (m' & Htd & Hr).
    exists e, m'. split_and!; [done|done|]. unfold mbind at 1, st_bind at 1. rewrite Hr.
    unfold mbind at 1, st_bind at 1. by destruct (RaiseException H e _ _) as [[[] ?]| | | |].
  - destruct (ReadMem_hit H s _ 4 pa Hs ltac:(unfold size_ok; lia) Ep) as (m' & v & Hr & Htd & -> & Hv).
    destruct (Decode_ok (to_uint v)) as (i & Hd & Hi). rewrite Hd. split; [done|].
    exists m'. split; [done|]. rewrite (st_bind_Ok _ _ _ _ _ Hr), (lift_bind_Ok _ _ _ _ Hd).
    assert (P_mid (with_mach s m')) as Hm' by (apply ok_mid; by eapply touched_machine_ok).
    destruct (reg_value _ NextPCReg Hm' ltac:(done)) as [Hn _].
    by rewrite (st_bind_Ok _ _ _ _ _ Hn).
Qed.

Lemma stops_touched m m' i : touched m m' -> stops m' i = stops m i.
Proof. intros Htd. unfold stops. by rewrite (td_regs _ _ Htd). Qed.

Lemma OneInstruction_safe s :
  P_ok s -> J (os (world s)) -> (forall i, fetch (mach (world s)) = Some i -> stops (mach (world s)) i = false) ->
  match OneInstruction H s with
  | Ok (_, s') => P_ok s' /\ J (os (world s'))
  | Halted => handler_fails F_Halted
  | AssertFail => handler_fails F_Assert
  | UB => handler_fails F_UB
  | NoFuel => handler_fails F_NoFuel
  end.
Proof using Hhandler.
  intros Hs HJ Hst. pose proof (OneInstruction_fetch s Hs) as Hf.
  destruct (fetch (mach (world s))) as [i|].
  - destruct Hf as (Hi & m' & Htd & ->).
    assert (P_go i (with_mach s m')) as Hgo.
    { split; [by eapply touched_machine_ok|]. cbn. rewrite (stops_touched _ _ _ Htd). by apply Hst. }
    refine (safe_bind (P_go i) _ _ case_post (fun _ => P_ok) _ _ _ (conj Hgo HJ)).
    + by apply execute_safe; [|apply to_int_range].
    + intros [[[pc lr] lv]|]; [|by apply safe_ret].
      intros s' ((Hm & H1 & H2 & H3) & HJ'). by apply finish_safe.
  - destruct Hf as (e & m' & Ep & Htd & ->).
    apply safe_raise; [|split; [by eapply touched_machine_ok|done]].
    by destruct (reg_value s PCReg (ok_mid _ Hs)).
Qed.
End with_handler.

Lemma switch_hit i pcAfter l1 op c l2 :
  opCode i = op -> Forall (fun x => x.1 <> op) l1 ->
  switch (K:=K) (l1 ++ (op, c) :: l2) i pcAfter = c i pcAfter.
Proof.
  intros Ho. induction 1 as [|[op' c'] l1 Hx Hl IH]; simpl.
  - by rewrite Ho, Z.eqb_refl.
  - rewrite Ho, (proj2 (Z.eqb_neq _ _)) by (simpl in Hx; congruence). done.
Qed.

Lemma execute_stops s i pcAfter :
  P_ok s -> instr_ok i -> stops (mach (world s)) i = true ->
  execute ExceptionHandler i pcAfter s = AssertFail \/ execute ExceptionHandler i pcAfter s = UB.
Proof.
  intros Hs Hi Hst. pose proof Hi as []. pose proof (ok_mid _ Hs) as Hm.
  assert (opCode i = OP_DIV \/ opCode i = OP_LWL \/ opCode i = OP_LWR \/ opCode i = OP_SWL \/
    opCode i = OP_SWR) as Hop.
  { unfold stops in Hst. simpl in Hst.
    destruct (Z.eqb_spec (opCode i) OP_DIV), (Z.eqb_spec (opCode i) OP_LWL),
      (Z.eqb_spec (opCode i) OP_LWR), (Z.eqb_spec (opCode i) OP_SWL),
      (Z.eqb_spec (opCode i) OP_SWR); try done; tauto. }
  unfold execute, switch_table. destruct Hop as [Eop|Hop].
  - right. unfold stops in Hst. rewrite Eop in Hst. cbn in Hst.
    apply andb_true_iff in Hst as [Hb Ht]. simpl. rewrite Eop. cbn -[op_DIV].
    destruct (reg_value s (rt i) Hm) as [Hrb _]; [unfold NumTotalRegs; lia|].
    destruct (reg_value s (rs i) Hm) as [Hra _]; [unfold NumTotalRegs; lia|].
    unfold op_DIV. rewrite (st_bind_Ok _ _ _ _ _ Hrb). unfold reg_of. apply negb_true_iff in Hb.
    rewrite Hb. rewrite (st_bind_Ok _ _ _ _ _ Hra). unfold reg_of. by rewrite Ht.
  - left. rewrite stops_unaligned in Hst
      by (simpl; rewrite !orb_true_iff, !Z.eqb_eq; tauto). apply negb_true_iff in Hst.
    destruct Hop as [Eop|[Eop|[Eop|Eop]]]; simpl; rewrite Eop;
      cbn -[op_LWL op_LWR op_SWL op_SWR]; by apply (proj1 (assert_aligned_safe i _ s Hs Hi)).
Qed.
End safety.

(** ** A machine with one instruction, on which the theorems are tried *)

(** The instruction [raw] at virtual address 0, and the registers [r]. *)
Definition code_machine (raw : Z) (r : list Z) : Machine :=
  set_registers (set_mainMemory sample_machine (splice 3584 (image 4 raw) (mainMemory sample_machine))) r.
Definition code_sim (raw : Z) (r : list Z) : sim (cpu unit) :=
  mkSim new_Interrupt new_Statistics (mkCpu (code_machine raw r) tt).

Lemma code_machine_ok raw r :
  regs_ok r -> zget r 0 = Some 0 -> machine_ok (code_machine raw r).
Proof.
  intros Hr Hz. pose proof sample_machine_ok as [_ _ Hml Hmb Ht].
  destruct (image_ok 4 raw ltac:(unfold size_ok; lia)) as [Hli Hbi].
  assert (zlen (splice 3584 (image 4 raw) (mainMemory sample_machine)) = MemorySize) as Hl.
  { rewrite zlen_splice; [done|lia|]. rewrite Hml, Hli. done. }
  assert (Forall is_byte (splice 3584 (image 4 raw) (mainMemory sample_machine))) as Hb
    by (by apply Forall_splice).
  split; assumption.
Qed.
Lemma code_fetch raw r i :
  zget r PCReg = Some 0 -> Decode (to_uint (to_int raw)) = Ok i ->
  fetch (code_machine raw r) = Some i.
Proof.
  intros Hpc Hd.
  assert (reg_of (code_machine raw r) PCReg = 0) as Hreg
    by (unfold reg_of; change (registers (code_machine raw r)) with r; by rewrite Hpc).
  unfold fetch. rewrite Hreg.
  change (phys _ 0 4 false) with (inr 3584 : ExceptionType + Z). cbv beta iota.
  change (mainMemory (code_machine raw r)) with (splice 3584 (image 4 raw) (mainMemory sample_machine)).
  rewrite load_store; [|unfold size_ok; lia|lia|].
  - change (truncated 4 raw) with (to_int raw). by rewrite Hd.
  - pose proof sample_machine_ok as [_ _ Hml _ _]. rewrite Hml. done.
Qed.

Lemma code_sim_ok raw r : regs_ok r -> zget r 0 = Some 0 -> machine_ok (mach (world (code_sim raw r))).
Proof. apply code_machine_ok. Qed.
Lemma code_sim_fetch raw r i :
  zget r PCReg = Some 0 -> Decode (to_uint (to_int raw)) = Ok i ->
  fetch (mach (world (code_sim raw r))) = Some i.
Proof. apply code_fetch. Qed.

(** Registers 1 and 2 hold [a] and [b]; all others are zero. *)
Definition two_regs (a b : Z) : list Z := zset (zset (replicate (Z.to_nat NumTotalRegs) 0) 1 a) 2 b.
Lemma two_regs_ok a b : is_int a -> is_int b -> regs_ok (two_regs a b) /\ zget (two_regs a b) 0 = Some 0.
Proof.
  intros Ha Hb. destruct zero_regs_ok as [H0 _]. split; [|reflexivity].
  unfold two_regs. apply regs_set; [apply regs_set; [done|done|by left]|done|by left].
Qed.

(** ** Whose failure it is

    [contained H] is the handler [H], except that every way not to return counts
    as halting.  Run with it, the simulator can fail an [ASSERT] or be undefined
    only by its own doing. *)
Section containment.
Context {K : Type}.
Context (H : ExceptionType -> st (sim (cpu K)) unit).
Definition contained (e : ExceptionType) : st (sim (cpu K)) unit := fun s =>
  match H e s with Ok r => Ok r | _ => Halted end.
(** The first computation does what the second does, or halts. *)
Definition agrees {A} (c c' : st (sim (cpu K)) A) : Prop := forall s, c s = c' s \/ c s = Halted.
Lemma agrees_refl {A} (c : st (sim (cpu K)) A) : agrees c c.
Proof. intros s. by left. Qed.
Lemma agrees_bind {A B} (c c' : st (sim (cpu K)) A) (f f' : A -> st (sim (cpu K)) B) :
  agrees c c' -> (forall a, agrees (f a) (f' a)) -> agrees (c ≫= f) (c' ≫= f').
Proof.
  intros Hc Hf s. unfold mbind, st_bind. destruct (Hc s) as [->| ->]; [|by right].
  destruct (c' s) as [[a s']| | | |]; try by left. apply Hf.
Qed.
Lemma agrees_handler e : agrees (contained e) (H e).
Proof. intros s. unfold contained. destruct (H e s); auto. Qed.
Ltac agree :=
  repeat first [apply agrees_refl | apply agrees_handler | apply agrees_bind; [|intros ?]
    | match goal with
      | |- agrees (match ?x with _ => _ end) _ => destruct x
      | |- agrees ((fun _ => _) _) _ => cbv beta
      end].
Lemma agrees_raise_exception e a : agrees (RaiseException contained e a) (RaiseException H e a).
Proof. unfold RaiseException. agree. Qed.
Lemma agrees_raise e a : agrees (raise contained e a) (raise H e a).
Proof. unfold raise. apply agrees_bind; [apply agrees_raise_exception|intros _; agree]. Qed.
Lemma agrees_ReadMem a n : agrees (ReadMem contained a n) (ReadMem H a n).
Proof.
  unfold ReadMem. apply agrees_bind; [agree|]. intros m. apply agrees_bind; [agree|]. intros [x m'].
  apply agrees_bind; [agree|]. intros _. destruct x; [|agree]. apply agrees_bind; [apply agrees_raise_exception|intros _; agree].
Qed.
Lemma agrees_WriteMem a n v : agrees (WriteMem contained a n v) (WriteMem H a n v).
Proof.
  unfold WriteMem. apply agrees_bind; [agree|]. intros m. apply agrees_bind; [agree|]. intros [x m'].
  apply agrees_bind; [agree|]. intros _. destruct x; [|agree]. apply agrees_bind; [apply agrees_raise_exception|intros _; agree].
Qed.
Ltac agree_case :=
  repeat first [apply agrees_refl | apply agrees_raise | apply agrees_ReadMem | apply agrees_WriteMem
    | apply agrees_bind; [|intros ?]
    | match goal with |- agrees (match ?x with _ => _ end) _ => destruct x end].
Lemma agrees_execute i pc : agrees (execute contained i pc) (execute H i pc).
Proof.
  unfold execute, switch_table. cbn [switch].
  repeat (match goal with |- agrees (if ?b then _ else _) _ => destruct b end; [
    first [apply agrees_refl
      | unfold op_ADD, op_ADDI, op_SUB, op_LB_LBU, op_LH_LHU, op_LW, op_LWL, op_LWR, op_SB, op_SH, op_SW, op_SWL, op_SWR, store_case,
          op_SYSCALL, op_RES_UNIMP; cbv zeta; agree_case]|]).
  apply agrees_refl.
Qed.
Lemma agrees_OneInstruction : agrees (OneInstruction contained) (OneInstruction H).
Proof.
  unfold OneInstruction. apply agrees_bind; [apply agrees_refl|]. intros pc. apply agrees_bind; [apply agrees_ReadMem|]. intros [raw|]; [|apply agrees_refl].
  apply agrees_bind; [apply agrees_refl|]. intros i. apply agrees_bind; [apply agrees_refl|]. intros n.
  apply agrees_bind; [apply agrees_execute|]. intros [[[] ?]|]; apply agrees_refl.
Qed.
End containment.

(** ** Properties *)

(** MULT and MULTU.  For any two words, the pair of words [Mult] leaves in
    HI and LO is the exact 64-bit product of the operands, as signed or as
    unsigned numbers. *)
Theorem mult_is_product (a b : Z) (signedArith : bool) :
  is_int a -> is_int b ->
  let '(hi, lo) := Mult a b signedArith in
  is_int hi /\ is_int lo /\
  as_arith signedArith hi * two32 + to_uint lo =
    as_arith signedArith a * as_arith signedArith b.
Proof. apply Mult_spec. Qed.

Lemma mult_is_product_witness :
  let '(hi, lo) := Mult (-2147483648) (-1) true in
  hi * 4294967296 + to_uint lo = 2147483648.
Proof.
  pose proof (mult_is_product (-2147483648) (-1) true) as HM.
  destruct (Mult (-2147483648) (-1) true) as [hi lo].
  destruct HM as (_ & _ & HM).
  - unfold_int. lia.
  - unfold_int. lia.
  - exact HM.
Defined.

(** C3. No user program goes past the machine.  On a well-formed machine (TLB
    or page table of any content, any memory, any registers) one instruction,
    of any bit pattern, either returns with the machine well formed again
    (register 0 still zero, every register a word, all memory accesses inside
    the memory), or it raised an exception and the kernel's handler, called in a
    well-formed state, did not return.  The simulator itself never fails, also
    not behind a handler that has returned: with a handler for which not to
    return counts as halting ([contained]), every outcome is a return, and then
    that of the handler itself, or a halt.  The exceptions are exactly the
    instructions on which the simulator itself stops: LWL, LWR, SWL and SWR of
    an unaligned address fail an [ASSERT], and the division of the least
    integer by -1 is undefined on the host.  Of the handler it is assumed only
    that the machine is well formed, and the kernel's own invariant [J] holds,
    when it returns from a state where they did; the handler of the whole
    kernel is such a handler, as the witness shows. *)
Theorem instruction_contained {K} (ExceptionHandler : ExceptionType -> st (sim (cpu K)) unit) (J : K -> Prop)
    (s : sim (cpu K)) :
  (forall e s s', machine_ok (mach (world s)) -> J (os (world s)) -> ExceptionHandler e s = Ok (tt, s') ->
     machine_ok (mach (world s')) /\ J (os (world s'))) ->
  machine_ok (mach (world s)) -> J (os (world s)) ->
  if match fetch (mach (world s)) with
     | Some i => stops (mach (world s)) i
     | None => false
     end
  then OneInstruction ExceptionHandler s = AssertFail \/ OneInstruction ExceptionHandler s = UB
  else
    match OneInstruction (contained ExceptionHandler) s with
    | Ok (_, s') => OneInstruction ExceptionHandler s = Ok (tt, s') /\ machine_ok (mach (world s')) /\ J (os (world s'))
    | Halted => exists e s1, machine_ok (mach (world s1)) /\ J (os (world s1)) /\
        failure_of (ExceptionHandler e s1) <> None
    | _ => False
    end.
Proof.
  intros Hh Hs HJ. pose proof (OneInstruction_fetch ExceptionHandler s Hs) as Hf.
  assert (forall e s s', machine_ok (mach (world s)) -> J (os (world s)) -> contained ExceptionHandler e s = Ok (tt, s') ->
     machine_ok (mach (world s')) /\ J (os (world s'))) as Hh'.
  { intros e s1 s2 H1 H2 E. apply (Hh e s1); try done. unfold contained in E. destruct (ExceptionHandler e s1); try done. }
  assert ((forall i, fetch (mach (world s)) = Some i -> stops (mach (world s)) i = false) ->
    match OneInstruction (contained ExceptionHandler) s with
    | Ok (_, s') => OneInstruction ExceptionHandler s = Ok (tt, s') /\ machine_ok (mach (world s')) /\ J (os (world s'))
    | Halted => exists e s1, machine_ok (mach (world s1)) /\ J (os (world s1)) /\
        failure_of (ExceptionHandler e s1) <> None
    | _ => False
    end) as Hgo.
  { intros Hst. pose proof (OneInstruction_safe (contained ExceptionHandler) J Hh' s Hs HJ Hst) as Hsafe.
    pose proof (agrees_OneInstruction ExceptionHandler s) as Ha.
    destruct (OneInstruction (contained ExceptionHandler) s) as [[[] s']| | | |];
      [destruct Ha as [<-|]; [by split|done]|..]; destruct Hsafe as (e & s1 & [H1 H2] & H3); unfold contained in H3;
      destruct (ExceptionHandler e s1) eqn:E; try done; exists e, s1; by rewrite E. }
  destruct (fetch (mach (world s))) as [i|] eqn:Ef; [|by apply Hgo].
  destruct (stops (mach (world s)) i) eqn:Est; [|apply Hgo; by intros ? [= <-]].
  destruct Hf as (Hi & m' & Htd & ->).
  assert (P_ok (with_mach s m')) as Hok by (by eapply touched_machine_ok).
  destruct (execute_stops ExceptionHandler (with_mach s m') i
    (to_int (reg_of m' NextPCReg + 4)) Hok Hi) as [E|E].
  - cbn [with_mach world set_world mach]. by rewrite (stops_touched _ _ _ Htd).
  - left. unfold mbind at 1, st_bind at 1. by rewrite E.
  - right. unfold mbind at 1, st_bind at 1. by rewrite E.
Qed.
