(* ===== verification/MipsIsa.v ===== *)
(** * machine/mipssim.cc: what the instructions compute

    The register file behind each kind of instruction, against the MIPS
    definition of the operation: the value an arithmetic instruction leaves,
    when ADD and SUB trap, delayed branches and delayed loads, and the three
    opcodes that compute something else. *)

From S2P Require Import Prelude Interrupt Machine MipsSim.
From stdpp Require Import list.
#[local] Open Scope Z_scope.

(** The MIPS definition of the instructions that write one register and
    cannot trap: the value from the operands [a] (rs), [b] (rt) and the
    immediate or shift amount [e].  OR, SRL and SRLV are not among them. *)
Definition isa_rd : list (Z * (Z -> Z -> Z -> Z)) :=
  [(OP_ADDU, fun a b _ => to_int (a + b)); (OP_SUBU, fun a b _ => to_int (a - b));
   (OP_AND, fun a b _ => Z.land a b); (OP_NOR, fun a b _ => -1 - Z.lor a b);
   (OP_XOR, fun a b _ => Z.lxor a b);
   (OP_SLT, fun a b _ => Z.b2z (a <? b)); (OP_SLTU, fun a b _ => Z.b2z (to_uint a <? to_uint b));
   (OP_SLL, fun _ b e => to_int (b * 2 ^ e)); (OP_SLLV, fun a b _ => to_int (b * 2 ^ (a mod 32)));
   (OP_SRA, fun _ b e => b / 2 ^ e); (OP_SRAV, fun a b _ => b / 2 ^ (a mod 32))].
Definition isa_rt : list (Z * (Z -> Z -> Z)) :=
  [(OP_ADDIU, fun a e => to_int (a + e)); (OP_ANDI, fun a e => Z.land a (e mod 65536));
   (OP_ORI, fun a e => Z.lor a (e mod 65536)); (OP_XORI, fun a e => Z.lxor a (e mod 65536));
   (OP_SLTI, fun a e => Z.b2z (a <? e)); (OP_SLTIU, fun a e => Z.b2z (to_uint a <? to_uint e));
   (OP_LUI, fun _ e => to_int (e * 65536))].

Section functional.
Context {K : Type}.
Context (ExceptionHandler : ExceptionType -> st (sim (cpu K)) unit).
Abbreviation H := ExceptionHandler.
Implicit Types (s : sim (cpu K)) (i : Instruction) (m : Machine).

(** The registers behind an instruction: the load that was pending is done,
    the new one is recorded, the program counters have moved. *)
Definition advance (r : list Z) (nextLoadReg nextLoadValue pcAfter : Z) : list Z :=
  let d := delayed r nextLoadReg nextLoadValue in
  zset (zset (zset d PrevPCReg (default 0 (zget r PCReg))) PCReg (default 0 (zget r NextPCReg)))
    NextPCReg pcAfter.

Lemma wreg_at s r v :
  P_mid s -> 0 <= r < NumTotalRegs ->
  wreg r v s = Ok (tt, with_mach s (set_registers (mach (world s))
    (zset (registers (mach (world s))) r v))).
Proof.
  intros [Hrg _ _ _] Hr. unfold wreg, get_m, mbind, st_bind. unfold lift.
  by rewrite wr_Ok by (by rewrite (ro_len _ Hrg)).
Qed.

Lemma delayed_pc r nextReg nextValue k :
  regs_ok r -> k = PCReg \/ k = NextPCReg ->
  zget (delayed r nextReg nextValue) k = zget r k.
Proof.
  intros Hr Hk. pose proof Hr as [Hl _ (l & Hld & Hlr)].
  destruct (regs_get r LoadValueReg Hr ltac:(done)) as (v & Hlv & _).
  rewrite (zget_delayed r nextReg nextValue k l v Hl); [|destruct Hk as [-> | ->]; left; done|done|done].
  rewrite decide_False; [done|]. unfold NumGPRegs, PCReg, NextPCReg in *. lia.
Qed.

Lemma finish_value s pcAfter lr lv :
  P_mid s -> is_int pcAfter -> 0 <= lr < NumGPRegs -> is_int lv ->
  finish_instruction pcAfter lr lv s = Ok (tt, with_mach s (set_registers (mach (world s))
    (advance (registers (mach (world s))) lr lv pcAfter))).
Proof.
  intros Hs Hp Hr Hv. pose proof Hs as [Hrg Hml Hmb Ht]. unfold finish_instruction.
  rewrite (st_bind_Ok _ _ s (mach (world s)) s) by done.
  rewrite (lift_bind_Ok _ _ _ _ (DelayedLoad_spec _ lr lv Hrg)).
  destruct (delayed_ok _ lr lv Hrg Hr Hv) as [Hrg' Hz'].
  set (m' := set_registers _ _). rewrite (st_bind_Ok _ _ s tt (with_mach s m')) by done.
  assert (P_mid (with_mach s m')) as Hm' by (by split).
  destruct (regs_get _ PCReg Hrg ltac:(done)) as (pc & Hpc & Hpi).
  destruct (regs_get _ NextPCReg Hrg ltac:(done)) as (n & Hn & Hni).
  assert (zget (registers m') PCReg = Some pc) as Hpc' by (cbn; rewrite delayed_pc; auto).
  assert (zget (registers m') NextPCReg = Some n) as Hn' by (cbn; rewrite delayed_pc; auto).
  rewrite (st_bind_Ok _ _ _ _ _ (reg_at (with_mach s m') _ _ Hpc')).
  rewrite (st_bind_Ok _ _ _ _ _ (wreg_at (with_mach s m') PrevPCReg pc Hm' ltac:(done))).
  cbn [with_mach world set_world mach os].
  set (m1 := set_registers m' _).
  assert (P_mid (with_mach s m1)) as Hm1.
  { split; try done. cbn. apply regs_set; [done|done|by left]. }
  change (set_world _ _) with (with_mach s m1).
  assert (zget (registers m1) NextPCReg = Some n) as Hn1 by (cbn; rewrite zget_zset_ne; done).
  rewrite (st_bind_Ok _ _ _ _ _ (reg_at (with_mach s m1) _ _ Hn1)).
  rewrite (st_bind_Ok _ _ _ _ _ (wreg_at (with_mach s m1) PCReg n Hm1 ltac:(done))).
  cbn [with_mach world set_world mach os].
  set (m2 := set_registers m1 _).
  assert (P_mid (with_mach s m2)) as Hm2.
  { split; try done. cbn. apply regs_set; [apply regs_set; [done|done|by left]|done|by left]. }
  etrans; [exact (wreg_at (with_mach s m2) NextPCReg pcAfter Hm2 ltac:(done))|].
  unfold advance. by rewrite Hpc, Hn.
Qed.

(** One register is written and execution goes on. *)
Definition writes_reg i pcAfter s (r v : Z) : Prop :=
  execute H i pcAfter s = Ok (Some (pcAfter, 0, 0), with_mach s (set_registers (mach (world s))
    (zset (registers (mach (world s))) r v))).

Lemma shamt_range x : 0 <= Z.land x 31 < 32.
Proof. apply (land_mask_bound x 5). lia. Qed.
Lemma land_imm a e : Z.land a (Z.land e 65535) = Z.land a (e mod 65536).
Proof. change 65535 with (Z.ones 16). by rewrite (Z.land_ones e) by lia. Qed.
Lemma land_shamt a : Z.land a 31 = a mod 32.
Proof. change 31 with (Z.ones 5). by rewrite Z.land_ones by lia. Qed.

Ltac alu_case :=
  match goal with Eop : _ = opCode ?i |- _ =>
    unfold writes_reg, execute, switch_table; simpl; rewrite <-Eop;
    cbn -[op_ADDU op_SUBU op_AND op_NOR op_XOR op_SLT op_SLTU op_SLL op_SLLV op_SRA op_SRAV
      op_ADDIU op_ANDI op_ORI op_XORI op_SLTI op_SLTIU op_LUI op_OR op_SRL op_SRLV set_registers]
  end.

Lemma alu_rd_execute i pcAfter s f :
  P_ok s -> instr_ok i -> In (opCode i, f) isa_rd ->
  writes_reg i pcAfter s (rd_ i)
    (f (reg_of (mach (world s)) (rs i)) (reg_of (mach (world s)) (rt i)) (extra i)).
Proof.
  intros Hs Hi Hin. pose proof Hi as []. pose proof (ok_mid _ Hs) as Hm.
  destruct (reg_value s (rs i) Hm) as [Ha _]; [unfold NumTotalRegs; lia|].
  destruct (reg_value s (rt i) Hm) as [Hb _]; [unfold NumTotalRegs; lia|].
  pose proof (fun v => wreg_at s (rd_ i) v Hm ltac:(unfold NumTotalRegs; lia)) as Hw.
  simpl in Hin. destruct_or! Hin; try done; injection Hin as Eop <-; alu_case.
  all: unfold op_ADDU, op_SUBU, op_AND, op_NOR, op_XOR, op_SLT, op_SLTU, op_SLL, op_SLLV, op_SRA, op_SRAV.
  all: repeat first [rewrite (st_bind_Ok _ _ _ _ _ Ha) | rewrite (st_bind_Ok _ _ _ _ _ Hb)
    | rewrite (st_bind_Ok _ _ _ _ _ (Hw _)) ]; unfold break_.
  all: apply (f_equal (fun v => Ok (Some (pcAfter, 0, 0), with_mach s (set_registers (mach (world s))
    (zset (registers (mach (world s))) (rd_ i) v))))).
  all: rewrite ?land_shamt; pose proof (Z.mod_pos_bound (reg_of (mach (world s)) (rs i)) 32 eq_refl).
  all: try specialize (io_shift ltac:(rewrite <-Eop; reflexivity)).
  all: rewrite ?Z.shiftl_mul_pow2, ?Z.shiftr_div_pow2 by lia; try done.
  all: first [unfold Z.lnot; lia | by destruct (_ <? _)].
Qed.

Lemma alu_rt_execute i pcAfter s f :
  P_ok s -> instr_ok i -> In (opCode i, f) isa_rt ->
  writes_reg i pcAfter s (rt i) (f (reg_of (mach (world s)) (rs i)) (extra i)).
Proof.
  intros Hs Hi Hin. pose proof Hi as []. pose proof (ok_mid _ Hs) as Hm.
  destruct (reg_value s (rs i) Hm) as [Ha _]; [unfold NumTotalRegs; lia|].
  pose proof (fun v => wreg_at s (rt i) v Hm ltac:(unfold NumTotalRegs; lia)) as Hw.
  simpl in Hin. destruct_or! Hin; try done; injection Hin as Eop <-; alu_case.
  all: unfold op_ADDIU, op_ANDI, op_ORI, op_XORI, op_SLTI, op_SLTIU, op_LUI.
  all: repeat first [rewrite (st_bind_Ok _ _ _ _ _ Ha) | rewrite (st_bind_Ok _ _ _ _ _ (Hw _)) ];
    unfold break_.
  all: apply (f_equal (fun v => Ok (Some (pcAfter, 0, 0), with_mach s (set_registers (mach (world s))
    (zset (registers (mach (world s))) (rt i) v))))).
  all: change 65535 with (Z.ones 16); rewrite ?Z.land_ones, ?Z.shiftl_mul_pow2 by lia; try done.
  all: by destruct (_ <? _).
Qed.

(** The register [k] when [v] is written to [d] and the pending load, if it
    is to [k], is done behind it. *)
Definition after_write m (d v k : Z) : Z :=
  if k =? 0 then 0
  else if k =? reg_of m LoadReg then reg_of m LoadValueReg
  else if k =? d then v else reg_of m k.

(** The general registers and program counters behind an instruction. *)
Record completed m m' (d v nextLoadReg nextLoadValue pcAfter : Z) : Prop := {
  cp_regs : forall k, 0 <= k < NumGPRegs -> reg_of m' k = after_write m d v k;
  cp_hilo : forall k, k = HiReg \/ k = LoReg -> reg_of m' k = if k =? d then v else reg_of m k;
  cp_prev : reg_of m' PrevPCReg = reg_of m PCReg;
  cp_pc : reg_of m' PCReg = reg_of m NextPCReg;
  cp_next : reg_of m' NextPCReg = pcAfter;
  cp_load : reg_of m' LoadReg = nextLoadReg;
  cp_value : reg_of m' LoadValueReg = nextLoadValue;
  cp_map : forall a n w, phys m' a n w = phys m a n w;
  cp_ok : machine_ok m'
}.

Ltac eqb_cases :=
  repeat match goal with |- context [?x =? ?y] => destruct (Z.eqb_spec x y) end; done || lia.

Lemma default_zset (r : list Z) k d v :
  0 <= d < zlen r ->
  default 0 (zget (zset r d v) k) = if k =? d then v else default 0 (zget r k).
Proof.
  intros Hd. rewrite zget_zset. destruct (Z.eqb_spec k d) as [->|Hne].
  - by rewrite decide_True by lia.
  - rewrite decide_False by naive_solver. done.
Qed.

Lemma advance_completed m m1 d v lr lv pcAfter :
  machine_ok m -> touched m m1 -> 0 <= d < PCReg -> is_int v ->
  is_int pcAfter -> 0 <= lr < NumGPRegs -> is_int lv ->
  let m' := set_registers m1 (advance (zset (registers m1) d v) lr lv pcAfter) in
  completed m m' d v lr lv pcAfter.
Proof.
  intros Hok Htd Hd Hv Hp Hlr Hlv m'. pose proof (td_regs _ _ Htd) as Er.
  pose proof (touched_machine_ok _ _ Htd Hok) as Hok1.
  unfold m'. rewrite Er. set (r := registers m). pose proof Hok as [Hr Hz Hml Hmb Ht].
  fold r in Hr, Hz. pose proof Hr as [Hl Hints (l & Hld & Hlrange)].
  destruct (regs_get r LoadValueReg Hr ltac:(done)) as (w & Hlw & Hwi).
  destruct (regs_get r PCReg Hr ltac:(done)) as (pc & Hpc & Hpci).
  destruct (regs_get r NextPCReg Hr ltac:(done)) as (n & Hn & Hni).
  unfold PCReg, NextPCReg, LoadReg, LoadValueReg, PrevPCReg, NumGPRegs, HiReg, LoReg,
    NumTotalRegs in *.
  set (r1 := zset r d v).
  assert (regs_ok r1) as Hr1 by (apply regs_set; [done|done|left; unfold LoadReg; lia]).
  assert (zlen r1 = 40) as Hl1 by (unfold r1; by rewrite zlen_zset).
  assert (forall k, k <> d -> zget r1 k = zget r k) as Hg by (intros; by apply zget_zset_ne).
  assert (zget r1 d = Some v) as Hgd by (apply zget_zset_eq; lia).
  assert (advance r1 lr lv pcAfter = zset (zset (zset (delayed r1 lr lv) 36 pc) 34 n) 35 pcAfter) as Ea.
  { unfold advance, PCReg, NextPCReg, PrevPCReg. rewrite !Hg, Hpc, Hn by lia. done. }
  assert (delayed r1 lr lv = zset (zset (zset (zset r1 l w) 37 lr) 38 lv) 0 0) as Ed.
  { unfold delayed, LoadReg, LoadValueReg. rewrite !Hg, Hld, Hlw by lia. done. }
  assert (forall k, default 0 (zget (advance r1 lr lv pcAfter) k) =
    if k =? 35 then pcAfter else if k =? 34 then n else if k =? 36 then pc
    else if k =? 0 then 0 else if k =? 38 then lv else if k =? 37 then lr
    else if k =? l then w else if k =? d then v else default 0 (zget r k)) as Hall.
  { intros k. rewrite Ea, Ed, !default_zset by (rewrite ?zlen_zset, ?Hl1; lia). unfold r1.
    rewrite default_zset by (rewrite Hl; lia). done. }
  destruct (delayed_ok r1 lr lv Hr1) as [Hdr Hdz]; [done|done|].
  split; unfold reg_of; cbn [registers set_registers].
  - intros k Hk. unfold NumGPRegs in Hk. rewrite Hall. unfold after_write, reg_of, LoadReg, LoadValueReg. fold r.
    rewrite Hld, Hlw. cbn [default from_option id]. eqb_cases.
  - intros k Hk. unfold HiReg, LoReg in Hk. rewrite Hall. fold r. eqb_cases.
  - rewrite Hall. unfold PCReg. fold r. by rewrite Hpc.
  - rewrite Hall. unfold NextPCReg. fold r. by rewrite Hn.
  - by rewrite Hall.
  - by rewrite Hall.
  - by rewrite Hall.
  - intros. symmetry. apply phys_same. by destruct Htd as [_ _ Hst _].
  - destruct Hok1 as [_ _ Hml1 Hmb1 Ht1]. split; cbn; try done.
    + rewrite Ea. repeat apply regs_set; try done; by left.
    + rewrite Ea, !zget_zset_ne by done. done.
Qed.

(** From the case of the switch to the whole instruction. *)
Lemma one_case s i d v lr lv (pc' : Machine -> Z) :
  P_ok s -> fetch (mach (world s)) = Some i -> 0 <= d < PCReg -> is_int v ->
  (forall m1, touched (mach (world s)) m1 ->
     0 <= lr < NumGPRegs /\ is_int lv /\ is_int (pc' m1) /\
     exists m2, touched m1 m2 /\
     execute H i (to_int (reg_of m1 NextPCReg + 4)) (with_mach s m1) =
       Ok (Some (pc' m1, lr, lv), with_mach s (set_registers m2 (zset (registers m2) d v)))) ->
  exists m1 m', touched (mach (world s)) m1 /\ OneInstruction H s = Ok (tt, with_mach s m') /\
    completed (mach (world s)) m' d v lr lv (pc' m1) /\
    mainMemory m' = mainMemory (mach (world s)).
Proof.
  intros Hs Hf Hd Hv Hex. pose proof (OneInstruction_fetch H s Hs) as Ho. rewrite Hf in Ho.
  destruct Ho as (Hi & m1 & Htd & Ho).
  destruct (Hex m1 Htd) as (Hlr & Hlv & Hpc & m2 & Htd2 & He).
  pose proof (touched_trans _ _ _ Htd Htd2) as Htd12.
  pose proof (touched_machine_ok _ _ Htd12 Hs) as Hok2.
  rewrite (st_bind_Ok _ _ _ _ _ He) in Ho. set (m3 := set_registers m2 _) in Ho.
  assert (P_mid (with_mach s m3)) as Hm3.
  { destruct Hok2. split; try done. cbn. apply regs_set; [done|done|].
    left. unfold PCReg, LoadReg in *. lia. }
  rewrite (finish_value (with_mach s m3)) in Ho by done.
  exists m1. eexists. split; [done|]. split; [exact Ho|]. split; [|apply Htd12].
  by apply (advance_completed (mach (world s)) m2).
Qed.

Lemma one_writes s i d v :
  P_ok s -> fetch (mach (world s)) = Some i -> 0 <= d < NumGPRegs -> is_int v ->
  (forall pc s', P_ok s' -> registers (mach (world s')) = registers (mach (world s)) ->
     instr_ok i -> writes_reg i pc s' d v) ->
  exists m', OneInstruction H s = Ok (tt, with_mach s m') /\
    completed (mach (world s)) m' d v 0 0 (to_int (reg_of (mach (world s)) NextPCReg + 4)) /\
    mainMemory m' = mainMemory (mach (world s)).
Proof.
  intros Hs Hf Hd Hv Hw. pose proof (OneInstruction_fetch H s Hs) as Ho. rewrite Hf in Ho.
  destruct Ho as (Hi & _).
  destruct (one_case s i d v 0 0 (fun m1 => to_int (reg_of m1 NextPCReg + 4)) Hs Hf)
    as (m1 & m' & Htd & Ho & Hc & Hm); [unfold NumGPRegs, PCReg in *; lia|done| |].
  - intros m1 Htd. split; [done|]. split; [unfold_int; lia|]. split; [apply to_int_range|].
    exists m1. split; [apply touched_refl|].
    apply Hw; [by eapply touched_machine_ok|by apply (td_regs _ _ Htd)|done].
  - exists m'. split; [done|]. split; [|done]. revert Hc. unfold reg_of. by rewrite (td_regs _ _ Htd).
Qed.

(** *** ADD, ADDI and SUB *)

(** The exact result and the register it goes to. *)
Definition isa_trapping (i : Instruction) (a b : Z) : option (Z * Z) :=
  if opCode i =? OP_ADD then Some (rd_ i, a + b)
  else if opCode i =? OP_ADDI then Some (rt i, a + extra i)
  else if opCode i =? OP_SUB then Some (rd_ i, a - b)
  else None.

Lemma trapping_execute i pcAfter s d z :
  P_ok s -> instr_ok i ->
  isa_trapping i (reg_of (mach (world s)) (rs i)) (reg_of (mach (world s)) (rt i)) = Some (d, z) ->
  if decide (is_int z) then writes_reg i pcAfter s d z
  else execute H i pcAfter s = raise H OverflowException 0 s.
Proof.
  intros Hs Hi. pose proof Hi as []. pose proof (ok_mid _ Hs) as Hm.
  destruct (reg_value s (rs i) Hm) as [Ha Hai]; [unfold NumTotalRegs; lia|].
  destruct (reg_value s (rt i) Hm) as [Hb Hbi]; [unfold NumTotalRegs; lia|].
  unfold isa_trapping.
  destruct (Z.eqb_spec (opCode i) OP_ADD) as [Eop|_];
    [|destruct (Z.eqb_spec (opCode i) OP_ADDI) as [Eop|_];
      [|destruct (Z.eqb_spec (opCode i) OP_SUB) as [Eop|_]; [|done]]];
    intros [= <- <-]; unfold writes_reg, execute, switch_table; simpl; rewrite Eop;
    cbn -[op_ADD op_ADDI op_SUB set_registers]; unfold op_ADD, op_ADDI, op_SUB;
    rewrite (st_bind_Ok _ _ _ _ _ Ha), ?(st_bind_Ok _ _ _ _ _ Hb); cbv zeta.
  - rewrite add_overflow by done. case_decide as Hd.
    + rewrite bool_decide_true by done. cbn [negb]. rewrite to_int_id by done.
      by rewrite (st_bind_Ok _ _ _ _ _ (wreg_at s (rd_ i) _ Hm ltac:(unfold NumTotalRegs; lia))).
    + by rewrite bool_decide_false by done.
  - rewrite (Z.add_comm _ (extra i)), (Z.lxor_comm _ (extra i)).
    rewrite add_overflow by done. case_decide as Hd.
    + rewrite bool_decide_true by done. cbn [negb]. rewrite to_int_id by done.
      by rewrite (st_bind_Ok _ _ _ _ _ (wreg_at s (rt i) _ Hm ltac:(unfold NumTotalRegs; lia))).
    + by rewrite bool_decide_false by done.
  - rewrite sub_overflow by done. case_decide as Hd.
    + rewrite bool_decide_true by done. cbn [negb]. rewrite to_int_id by done.
      by rewrite (st_bind_Ok _ _ _ _ _ (wreg_at s (rd_ i) _ Hm ltac:(unfold NumTotalRegs; lia))).
    + by rewrite bool_decide_false by done.
Qed.

(** *** Branches *)

Definition isa_branch : list (Z * (Z -> Z -> bool)) :=
  [(OP_BEQ, fun a b => a =? b); (OP_BNE, fun a b => negb (a =? b));
   (OP_BGEZ, fun a _ => 0 <=? a); (OP_BLTZ, fun a _ => a <? 0);
   (OP_BGTZ, fun a _ => 0 <? a); (OP_BLEZ, fun a _ => a <=? 0)].

Lemma IndexToAddr_mul e : IndexToAddr e = to_int (e * 4).
Proof. unfold IndexToAddr. by rewrite Z.shiftl_mul_pow2 by lia. Qed.

Lemma branch_execute i pcAfter s f :
  P_ok s -> instr_ok i -> In (opCode i, f) isa_branch ->
  execute H i pcAfter s =
    Ok (Some (if f (reg_of (mach (world s)) (rs i)) (reg_of (mach (world s)) (rt i))
              then to_int (reg_of (mach (world s)) NextPCReg + to_int (extra i * 4)) else pcAfter, 0, 0), s).
Proof.
  intros Hs Hi Hin. pose proof Hi as []. pose proof (ok_mid _ Hs) as Hm.
  destruct (reg_value s (rs i) Hm) as [Ha Hai]; [unfold NumTotalRegs; lia|].
  destruct (reg_value s (rt i) Hm) as [Hb _]; [unfold NumTotalRegs; lia|].
  destruct (reg_value s NextPCReg Hm ltac:(done)) as [Hn _].
  pose proof (sign_bit_neg _ Hai) as Hsg.
  assert (forall b : bool, branch i b pcAfter s =
    Ok (Some (if b then to_int (reg_of (mach (world s)) NextPCReg + to_int (extra i * 4))
              else pcAfter, 0, 0), s)) as Hbr.
  { intros []; unfold branch; [|done]. rewrite (st_bind_Ok _ _ _ _ _ Hn), IndexToAddr_mul. done. }
  simpl in Hin. destruct_or! Hin; try done; injection Hin as Eop <-;
    unfold execute, switch_table; simpl; rewrite <-Eop;
    cbn -[op_BEQ op_BNE op_BGEZ op_BLTZ op_BGTZ op_BLEZ];
    unfold op_BEQ, op_BNE, op_BGEZ, op_BLTZ, op_BGTZ, op_BLEZ;
    rewrite (st_bind_Ok _ _ _ _ _ Ha), ?(st_bind_Ok _ _ _ _ _ Hb), Hbr, ?Hsg; try done.
  by rewrite Z.leb_antisym.
Qed.

(** *** Loads *)

Lemma lw_execute i pcAfter s pa :
  P_ok s -> instr_ok i -> opCode i = OP_LW ->
  phys (mach (world s)) (to_int (reg_of (mach (world s)) (rs i) + extra i)) 4 false = inr pa ->
  exists m2 v, touched (mach (world s)) m2 /\ load (mainMemory (mach (world s))) pa 4 = Ok v /\ is_int v /\
    execute H i pcAfter s = Ok (Some (pcAfter, rt i, v), with_mach s m2).
Proof.
  intros Hs Hi Eop Hp. unfold execute, switch_table. simpl. rewrite Eop. cbn -[op_LW]. unfold op_LW.
  rewrite (st_bind_Ok _ _ _ _ _ (address_value s i Hs Hi)).
  set (tmp := to_int _) in *.
  assert ((Z.land tmp 3 =? 0) = true) as ->.
  { destruct (land_aligned tmp) as [-> _]. apply bool_decide_eq_true. unfold phys in Hp.
    case_decide as Ha; [done|]. destruct (decide (aligned tmp 4)); tauto. }
  cbn [negb]. destruct (ReadMem_hit H s tmp 4 pa Hs ltac:(unfold size_ok; lia) Hp)
    as (m2 & v & Hr & Htd & Hl & Hv).
  exists m2, v. split_and!; [done|done|done|]. by rewrite (st_bind_Ok _ _ _ _ _ Hr).
Qed.

(** *** OR, SRL and SRLV *)

Lemma odd_execute i pcAfter s :
  P_ok s -> instr_ok i ->
  (opCode i = OP_OR -> writes_reg i pcAfter s (rd_ i) (reg_of (mach (world s)) (rs i))) /\
  (opCode i = OP_SRL ->
     writes_reg i pcAfter s (rd_ i) (reg_of (mach (world s)) (rt i) / 2 ^ extra i)) /\
  (opCode i = OP_SRLV ->
     writes_reg i pcAfter s (rd_ i)
       (reg_of (mach (world s)) (rt i) / 2 ^ (reg_of (mach (world s)) (rs i) mod 32))).
Proof.
  intros Hs Hi. pose proof Hi as []. pose proof (ok_mid _ Hs) as Hm.
  destruct (reg_value s (rs i) Hm) as [Ha _]; [unfold NumTotalRegs; lia|].
  destruct (reg_value s (rt i) Hm) as [Hb _]; [unfold NumTotalRegs; lia|].
  pose proof (fun v => wreg_at s (rd_ i) v Hm ltac:(unfold NumTotalRegs; lia)) as Hw.
  split_and!; intros Eop; symmetry in Eop; alu_case.
  - unfold op_OR. rewrite !(st_bind_Ok _ _ _ _ _ Ha), (st_bind_Ok _ _ _ _ _ (Hw _)).
    by rewrite Z.lor_diag.
  - unfold op_SRL. rewrite (st_bind_Ok _ _ _ _ _ Hb), (st_bind_Ok _ _ _ _ _ (Hw _)).
    rewrite Z.shiftr_div_pow2; [done|]. apply (MipsSim.io_shift _ Hi). by rewrite <-Eop.
  - unfold op_SRLV. rewrite (st_bind_Ok _ _ _ _ _ Hb), (st_bind_Ok _ _ _ _ _ Ha),
      (st_bind_Ok _ _ _ _ _ (Hw _)).
    rewrite land_shamt, Z.shiftr_div_pow2; [done|]. apply Z.mod_pos_bound. lia.
Qed.
End functional.

(** The operation yields a word. *)
Lemma isa_rd_int i m f :
  machine_ok m -> instr_ok i -> In (opCode i, f) isa_rd ->
  is_int (f (reg_of m (rs i)) (reg_of m (rt i)) (extra i)).
Proof.
  intros Hm Hi Hin. pose proof Hi as [].
  assert (forall r, 0 <= r < 32 -> is_int (reg_of m r)) as Hr.
  { intros r Hr. destruct (regs_get _ r (mo_regs _ Hm)) as (v & Hv & Hvi);
      [unfold NumTotalRegs; lia|]. unfold reg_of. by rewrite Hv. }
  pose proof (Hr _ io_rs) as Ha. pose proof (Hr _ io_rt) as Hb.
  pose proof (Z.mod_pos_bound (reg_of m (rs i)) 32 eq_refl).
  assert (forall b : bool, is_int (Z.b2z b)) as Hbool by (intros []; unfold_int; simpl; lia).
  assert (forall x n, is_int x -> 0 <= n -> is_int (x / 2 ^ n)) as Hsh.
  { intros x n Hx Hn. rewrite <-Z.shiftr_div_pow2 by done. by apply is_int_shiftr_n. }
  simpl in Hin. destruct_or! Hin; try done; injection Hin as Eop <-;
    try apply to_int_range; try apply Hbool; try (apply Hsh; [done|lia]); auto with nachos.
  - pose proof (is_int_lor _ _ Ha Hb) as Hl. apply is_int_lnot in Hl. unfold Z.lnot in Hl.
    replace (-1 - Z.lor (reg_of m (rs i)) (reg_of m (rt i)))
      with (Z.pred (- Z.lor (reg_of m (rs i)) (reg_of m (rt i)))) by lia. done.
  - apply Hsh; [done|]. apply (MipsSim.io_shift _ Hi). by rewrite <-Eop.
Qed.
Lemma isa_rt_int i m f :
  machine_ok m -> instr_ok i -> In (opCode i, f) isa_rt -> is_int (f (reg_of m (rs i)) (extra i)).
Proof.
  intros Hm Hi Hin. pose proof Hi as [].
  assert (is_int (reg_of m (rs i))) as Ha.
  { destruct (regs_get _ (rs i) (mo_regs _ Hm)) as (v & Hv & Hvi);
      [unfold NumTotalRegs; lia|]. unfold reg_of. by rewrite Hv. }
  assert (forall b : bool, is_int (Z.b2z b)) as Hbool by (intros []; unfold_int; simpl; lia).
  assert (is_int (extra i mod 65536)) as He by (unfold_int; lia_mod).
  simpl in Hin. destruct_or! Hin; try done; injection Hin as Eop <-;
    try apply to_int_range; try apply Hbool; auto with nachos.
Qed.

Lemma fetch_ok {K} (s : sim (cpu K)) i :
  machine_ok (mach (world s)) -> fetch (mach (world s)) = Some i -> instr_ok i.
Proof.
  intros Hs Hf. pose proof (OneInstruction_fetch (fun _ => no_op) s Hs) as Ho. rewrite Hf in Ho.
  by destruct Ho.
Qed.

(** One instruction of the two classes. *)
Lemma alu_completes {K} (ExceptionHandler : ExceptionType -> st (sim (cpu K)) unit)
    (s : sim (cpu K)) (i : Instruction) (d v : Z) :
  let m := mach (world s) in
  machine_ok m -> fetch m = Some i ->
  (exists f, In (opCode i, f) isa_rd /\ d = rd_ i /\ v = f (reg_of m (rs i)) (reg_of m (rt i)) (extra i)) \/
  (exists f, In (opCode i, f) isa_rt /\ d = rt i /\ v = f (reg_of m (rs i)) (extra i)) ->
  exists m', OneInstruction ExceptionHandler s = Ok (tt, with_mach s m') /\
    completed m m' d v 0 0 (to_int (reg_of m NextPCReg + 4)) /\ mainMemory m' = mainMemory m.
Proof.
  intros m Hm Hf Hop. pose proof (fetch_ok s i Hm Hf) as Hi. pose proof Hi as [].
  assert (forall s' r, registers (mach (world s')) = registers m ->
    reg_of (mach (@world (cpu K) s')) r = reg_of m r) as Hreg.
  { intros s' r E. unfold reg_of. by rewrite E. }
  destruct Hop as [(f & Hin & -> & ->)|(f & Hin & -> & ->)].
  - apply (one_writes ExceptionHandler s i); [done|done|unfold NumGPRegs; lia| |].
    + by apply (isa_rd_int i m f).
    + intros pc s' Hs' Er _. pose proof (alu_rd_execute ExceptionHandler i pc s' f Hs' Hi Hin) as He.
      by rewrite !(Hreg s') in He.
  - apply (one_writes ExceptionHandler s i); [done|done|unfold NumGPRegs; lia| |].
    + by apply (isa_rt_int i m f).
    + intros pc s' Hs' Er _. pose proof (alu_rt_execute ExceptionHandler i pc s' f Hs' Hi Hin) as He.
      by rewrite !(Hreg s') in He.
Qed.

(** ** Properties *)

(** C18. The instructions that compute a register and cannot trap (ADDU, SUBU,
    AND, NOR, XOR, SLT, SLTU, SLL, SLLV, SRA, SRAV, ADDIU, ANDI, ORI, XORI,
    SLTI, SLTIU, LUI) do what the MIPS manual says: when such an instruction
    is at the program counter, [OneInstruction] returns, the destination
    register holds the value of the operation on the old registers, a load
    that was pending is completed, every other register, the memory and the
    mapping are as before, register 0 is zero, and the program counters
    advance by one instruction. *)
Theorem alu_instructions {K} (ExceptionHandler : ExceptionType -> st (sim (cpu K)) unit)
    (s : sim (cpu K)) (i : Instruction) (d v : Z) :
  let m := mach (world s) in
  machine_ok m -> fetch m = Some i ->
  (exists f, In (opCode i, f) isa_rd /\ d = rd_ i /\ v = f (reg_of m (rs i)) (reg_of m (rt i)) (extra i)) \/
  (exists f, In (opCode i, f) isa_rt /\ d = rt i /\ v = f (reg_of m (rs i)) (extra i)) ->
  exists m', OneInstruction ExceptionHandler s = Ok (tt, with_mach s m') /\
    completed m m' d v 0 0 (to_int (reg_of m NextPCReg + 4)) /\ mainMemory m' = mainMemory m.
Proof. apply alu_completes. Qed.

(** SUBU r3,r1,r2 *)
Lemma alu_instructions_witness :
  exists m', OneInstruction (fun _ => no_op) (code_sim 2234403 (two_regs 5 7)) =
      Ok (tt, with_mach (code_sim 2234403 (two_regs 5 7)) m') /\
    reg_of m' 3 = -2 /\ reg_of m' 1 = 5 /\ reg_of m' NextPCReg = 4.
Proof.
  destruct (two_regs_ok 5 7) as [Hr Hz]; [unfold_int; lia|unfold_int; lia|].
  destruct (alu_instructions (fun _ => no_op) (code_sim 2234403 (two_regs 5 7))
    (mkInstruction OP_SUBU 1 2 3 0) 3 (-2)) as (m' & Ho & Hc & _).
  - exact (code_sim_ok 2234403 (two_regs 5 7) Hr Hz).
  - exact (code_sim_fetch 2234403 (two_regs 5 7) (mkInstruction OP_SUBU 1 2 3 0) eq_refl eq_refl).
  - left. eexists. split; [right; left; reflexivity|]. split; reflexivity.
  - exists m'. split; [exact Ho|]. rewrite !(cp_regs _ _ _ _ _ _ _ Hc) by (unfold NumGPRegs; lia).
    rewrite (cp_next _ _ _ _ _ _ _ Hc). split; [reflexivity|]. split; reflexivity.
Defined.

(** C37. ADD, ADDI and SUB trap exactly on overflow.  If the exact sum or
    difference is a 32-bit number it is stored like that of any arithmetic
    instruction; otherwise the instruction has no effect but the trap: the
    kernel is entered with [OverflowException] from a state whose registers
    (the program counters included) and memory are those before the
    instruction. *)
Theorem overflow_traps {K} (ExceptionHandler : ExceptionType -> st (sim (cpu K)) unit)
    (s : sim (cpu K)) (i : Instruction) (d z : Z) :
  let m := mach (world s) in
  machine_ok m -> fetch m = Some i ->
  isa_trapping i (reg_of m (rs i)) (reg_of m (rt i)) = Some (d, z) ->
  if decide (is_int z) then
    exists m', OneInstruction ExceptionHandler s = Ok (tt, with_mach s m') /\
      completed m m' d z 0 0 (to_int (reg_of m NextPCReg + 4)) /\ mainMemory m' = mainMemory m
  else
    exists m', touched m m' /\
      OneInstruction ExceptionHandler s =
        RaiseException ExceptionHandler OverflowException 0 (with_mach s m').
Proof.
  intros m Hm Hf Hop. pose proof (fetch_ok s i Hm Hf) as Hi. pose proof Hi as [].
  assert (forall s' r, registers (mach (world s')) = registers m ->
    reg_of (mach (@world (cpu K) s')) r = reg_of m r) as Hreg.
  { intros s' r E. unfold reg_of. by rewrite E. }
  assert (0 <= d < NumGPRegs) as Hd.
  { unfold isa_trapping, NumGPRegs in *.
    repeat (destruct (_ =? _); [by injection Hop as <- _|]). done. }
  assert (forall pc s', P_ok s' -> registers (mach (world s')) = registers m ->
    if decide (is_int z) then writes_reg ExceptionHandler i pc s' d z
    else execute ExceptionHandler i pc s' = raise ExceptionHandler OverflowException 0 s') as He.
  { intros pc s' Hs' Er. apply trapping_execute; [done|done|]. by rewrite !(Hreg s'). }
  destruct (decide (is_int z)) as [Hz|Hz].
  - apply (one_writes ExceptionHandler s i); [done|done|done|done|].
    intros pc s' Hs' Er _. by apply He.
  - pose proof (OneInstruction_fetch ExceptionHandler s Hm) as Ho. fold m in Ho. rewrite Hf in Ho.
    destruct Ho as (_ & m1 & Htd & ->). exists m1. split; [done|].
    unfold mbind at 1, st_bind at 1. rewrite He; [|by eapply touched_machine_ok|by destruct Htd].
    unfold raise, mbind, st_bind.
    by destruct (RaiseException ExceptionHandler OverflowException 0 _) as [[[] ?]| | | |].
Qed.

(** ADD r3,r1,r2: 2147483647 + 1 traps. *)
Lemma overflow_traps_witness :
  exists m', OneInstruction (fun _ => no_op) (code_sim 2234400 (two_regs 2147483647 1)) =
    RaiseException (fun _ => no_op) OverflowException 0
      (with_mach (code_sim 2234400 (two_regs 2147483647 1)) m').
Proof.
  destruct (two_regs_ok 2147483647 1) as [Hr Hz]; [unfold_int; lia|unfold_int; lia|].
  pose proof (overflow_traps (fun _ => no_op) (code_sim 2234400 (two_regs 2147483647 1))
    (mkInstruction OP_ADD 1 2 3 0) 3 2147483648 (code_sim_ok _ _ Hr Hz)
    (code_sim_fetch 2234400 (two_regs 2147483647 1) (mkInstruction OP_ADD 1 2 3 0) eq_refl eq_refl)
    eq_refl) as HO.
  rewrite decide_False in HO by (unfold_int; lia).
  destruct HO as (m' & _ & HO). exists m'. exact HO.
Defined.

(** Branch and load delay slots.  A conditional branch (BEQ, BNE, BGEZ,
    BLTZ, BGTZ, BLEZ) changes no register: the instruction behind it is
    executed next, and after that one the target (relative to the delay slot)
    when the condition holds, the instruction behind the delay slot when it
    does not.  A word load (LW) from an address that translates leaves its
    register unchanged for one more instruction: the value read is recorded as
    the pending load, to be completed by the next instruction. *)
Theorem delay_slots {K} (ExceptionHandler : ExceptionType -> st (sim (cpu K)) unit)
    (s : sim (cpu K)) (i : Instruction) :
  let m := mach (world s) in
  machine_ok m -> fetch m = Some i ->
  (forall f, In (opCode i, f) isa_branch ->
     exists m', OneInstruction ExceptionHandler s = Ok (tt, with_mach s m') /\
       completed m m' 0 0 0 0
         (if f (reg_of m (rs i)) (reg_of m (rt i))
          then to_int (reg_of m NextPCReg + to_int (extra i * 4))
          else to_int (reg_of m NextPCReg + 4)) /\ mainMemory m' = mainMemory m) /\
  (opCode i = OP_LW -> forall pa,
     phys m (to_int (reg_of m (rs i) + extra i)) 4 false = inr pa ->
     exists m' v, OneInstruction ExceptionHandler s = Ok (tt, with_mach s m') /\
       load (mainMemory m) pa 4 = Ok v /\
       completed m m' 0 0 (rt i) v (to_int (reg_of m NextPCReg + 4)) /\
       mainMemory m' = mainMemory m).
Proof.
  intros m Hm Hf. pose proof (fetch_ok s i Hm Hf) as Hi. pose proof Hi as [].
  assert (is_int 0) as H0 by (unfold_int; lia).
  assert (forall m1, touched m m1 -> zset (registers m1) 0 0 = registers m1) as Hz.
  { intros m1 Htd. apply zset_id. rewrite (td_regs _ _ Htd). apply Hm. }
  assert (forall m1 r, touched m m1 -> reg_of m1 r = reg_of m r) as Hreg.
  { intros m1 r Htd. unfold reg_of. by rewrite (td_regs _ _ Htd). }
  assert (forall m1 : Machine, set_registers m1 (registers m1) = m1) as Hset by (by intros []).
  split.
  - intros f Hin.
    destruct (one_case ExceptionHandler s i 0 0 0 0
      (fun m1 => if f (reg_of m (rs i)) (reg_of m (rt i))
       then to_int (reg_of m NextPCReg + to_int (extra i * 4))
       else to_int (reg_of m NextPCReg + 4)) Hm Hf)
      as (m1 & m' & Htd & Ho & Hc & Hmem); [done|done| |].
    + intros m1 Htd. split; [done|]. split; [done|].
      split; [destruct (f _ _); apply to_int_range|]. exists m1. split; [apply touched_refl|].
      rewrite (branch_execute ExceptionHandler i _ (with_mach s m1) f);
        [|by eapply touched_machine_ok|done|done].
      cbn [with_mach world set_world mach]. rewrite !(Hreg m1) by done. rewrite Hz, Hset by done. done.
    + by exists m'.
  - intros Eop pa Hp.
    destruct (load_ok (mainMemory m) pa 4) as (v & Hv & Hvi).
    { unfold size_ok. lia. }
    { by eapply phys_bounds in Hp as [? _]; [|unfold size_ok; lia]. }
    { rewrite (mo_mem_len _ Hm). by eapply phys_bounds in Hp as [_ ?]; [|unfold size_ok; lia]. }
    { apply Hm. }
    destruct (one_case ExceptionHandler s i 0 0 (rt i) v
      (fun m1 => to_int (reg_of m NextPCReg + 4)) Hm Hf)
      as (m1 & m' & Htd & Ho & Hc & Hmem); [done|done| |].
    + intros m1 Htd. split; [done|]. split; [done|]. split; [apply to_int_range|].
      assert (P_ok (with_mach s m1)) as Hok1 by (by eapply touched_machine_ok).
      destruct (lw_execute ExceptionHandler i (to_int (reg_of m1 NextPCReg + 4)) (with_mach s m1) pa
        Hok1 Hi Eop) as (m2 & v' & Htd2 & Hv' & _ & He).
      { cbn [with_mach world set_world mach]. rewrite (Hreg m1) by done.
        rewrite <-Hp. symmetry. apply phys_same. by destruct Htd as [_ _ Hst _]. }
      cbn [with_mach world set_world mach] in Htd2, Hv'. rewrite (td_mem _ _ Htd) in Hv'. fold m in Hv'.
      rewrite Hv in Hv'. injection Hv' as <-. exists m2. split; [done|].
      rewrite He, (Hz m2), Hset by (by eapply touched_trans). by rewrite (Hreg m1).
    + exists m', v. done.
Qed.

(** BEQ r1,r2,3 taken, from address 0. *)
Lemma delay_slots_witness :
  exists m', OneInstruction (fun _ => no_op) (code_sim 270663683 (two_regs 7 7)) =
      Ok (tt, with_mach (code_sim 270663683 (two_regs 7 7)) m') /\
    reg_of m' NextPCReg = 12 /\ reg_of m' 1 = 7.
Proof.
  destruct (two_regs_ok 7 7) as [Hr Hz]; [unfold_int; lia|unfold_int; lia|].
  destruct (delay_slots (fun _ => no_op) (code_sim 270663683 (two_regs 7 7))
    (mkInstruction OP_BEQ 1 2 0 3)) as [HB _].
  - exact (code_sim_ok 270663683 (two_regs 7 7) Hr Hz).
  - exact (code_sim_fetch 270663683 (two_regs 7 7) (mkInstruction OP_BEQ 1 2 0 3) eq_refl eq_refl).
  - destruct (HB (fun a b => a =? b)) as (m' & Ho & Hc & _); [left; reflexivity|].
    exists m'. split; [exact Ho|]. rewrite (cp_next _ _ _ _ _ _ _ Hc).
    rewrite (cp_regs _ _ _ _ _ _ _ Hc) by (unfold NumGPRegs; lia). split; reflexivity.
Defined.

(** Three opcodes do not do what the manual says.  OR stores its first
    operand: the second is not read.  SRL and SRLV shift in copies of the sign
    bit, so that for a negative register and a shift of at least one the
    result is negative, where the logical shift it stands for is not. *)
Theorem or_srl_wrong {K} (ExceptionHandler : ExceptionType -> st (sim (cpu K)) unit)
    (s : sim (cpu K)) (i : Instruction) :
  let m := mach (world s) in
  machine_ok m -> fetch m = Some i ->
  (opCode i = OP_OR ->
     exists m', OneInstruction ExceptionHandler s = Ok (tt, with_mach s m') /\
       completed m m' (rd_ i) (reg_of m (rs i)) 0 0 (to_int (reg_of m NextPCReg + 4))) /\
  (opCode i = OP_SRL -> reg_of m (rt i) < 0 -> 0 < extra i ->
     exists m' v, OneInstruction ExceptionHandler s = Ok (tt, with_mach s m') /\
       completed m m' (rd_ i) v 0 0 (to_int (reg_of m NextPCReg + 4)) /\
       v < 0 <= to_uint (reg_of m (rt i)) / 2 ^ extra i).
Proof.
  intros m Hm Hf. pose proof (fetch_ok s i Hm Hf) as Hi. pose proof Hi as [].
  assert (forall s' r, registers (mach (world s')) = registers m ->
    reg_of (mach (@world (cpu K) s')) r = reg_of m r) as Hreg.
  { intros s' r E. unfold reg_of. by rewrite E. }
  assert (forall r, 0 <= r < 32 -> is_int (reg_of m r)) as Hint.
  { intros r Hr. by destruct (reg_value s r (ok_mid _ Hm)); [unfold NumTotalRegs; lia|]. }
  split.
  - intros Eop. destruct (one_writes ExceptionHandler s i (rd_ i) (reg_of m (rs i)) Hm Hf)
      as (m' & Ho & Hc & _); [unfold NumGPRegs; lia|by apply Hint| |by exists m'].
    intros pc s' Hs' Er _. rewrite <-(Hreg s') by done. by apply odd_execute.
  - intros Eop Hneg Hsh.
    assert (is_int (reg_of m (rt i) / 2 ^ extra i)) as Hv.
    { rewrite <-Z.shiftr_div_pow2 by lia. apply is_int_shiftr_n; [by apply Hint|lia]. }
    destruct (one_writes ExceptionHandler s i (rd_ i) (reg_of m (rt i) / 2 ^ extra i) Hm Hf)
      as (m' & Ho & Hc & _); [unfold NumGPRegs; lia|done| |].
    + intros pc s' Hs' Er _. rewrite <-(Hreg s') by done. by apply odd_execute.
    + exists m', (reg_of m (rt i) / 2 ^ extra i). split; [done|]. split; [done|]. split.
      * apply Z.div_lt_upper_bound; lia.
      * apply Z.div_pos; [apply to_uint_range|lia].
Qed.

(** OR r3,r1,r2 with 1 and 2 gives 1. *)
Lemma or_srl_wrong_witness :
  exists m', OneInstruction (fun _ => no_op) (code_sim 2234405 (two_regs 1 2)) =
      Ok (tt, with_mach (code_sim 2234405 (two_regs 1 2)) m') /\ reg_of m' 3 = 1.
Proof.
  destruct (two_regs_ok 1 2) as [Hr Hz]; [unfold_int; lia|unfold_int; lia|].
  destruct (or_srl_wrong (fun _ => no_op) (code_sim 2234405 (two_regs 1 2))
    (mkInstruction OP_OR 1 2 3 0)) as [HO _].
  - exact (code_sim_ok 2234405 (two_regs 1 2) Hr Hz).
  - exact (code_sim_fetch 2234405 (two_regs 1 2) (mkInstruction OP_OR 1 2 3 0) eq_refl eq_refl).
  - destruct (HO eq_refl) as (m' & Ho & Hc). exists m'. split; [exact Ho|].
    rewrite (cp_regs _ _ _ _ _ _ _ Hc) by (unfold NumGPRegs; lia). reflexivity.
Defined.
