(* ===== verification/AddrSpace.v ===== *)
(** * userprog/addrspace.cc: address spaces of user programs

    The constructor that loads a NOFF executable: header, allocation of
    physical pages from the shared bit map, clearing them, and copying the
    code and the initialised data page by page; then the initial registers and
    the page table of the machine.  The executable is an open UNIX file (the
    stub OpenFile of filesys/openfile.h): a byte sequence.  The theorems say
    what the new process sees at every virtual address, and that no page of
    another process is touched. *)

From S2P Require Import Prelude BitMap Interrupt Disk Machine.
From stdpp Require Import list sets.
#[local] Open Scope Z_scope.

Definition UserStackSize : Z := 1024.
Definition NOFFMAGIC : Z := 12246957.

(** bin/noff.h *)
Record Segment := mkSegment { virtualAddr : Z; inFileAddr : Z; size : Z }.
Record NoffHeader := mkNoffHeader {
  noffMagic : Z;
  code : Segment;
  initData : Segment;
  uninitData : Segment
}.
Definition decode_noff (bs : list Z) : res NoffHeader :=
  match ints_of_bytes bs with
  | [m; a1; a2; a3; b1; b2; b3; c1; c2; c3] =>
      Ok (mkNoffHeader m (mkSegment a1 a2 a3) (mkSegment b1 b2 b3) (mkSegment c1 c2 c3))
  | _ => UB
  end.

(** machine/translate.cc on a little-endian host *)
Definition WordToHost (w : Z) : Z := w.
Definition swap_segment (s : Segment) : Segment :=
  mkSegment (WordToHost (virtualAddr s)) (WordToHost (inFileAddr s)) (WordToHost (size s)).
Definition SwapHeader (h : NoffHeader) : NoffHeader :=
  mkNoffHeader (WordToHost (noffMagic h)) (swap_segment (code h)) (swap_segment (initData h))
    (swap_segment (uninitData h)).

(** [OpenFile::ReadAt] on a UNIX file: [Lseek] asserts that the offset is
    not negative, [ReadPartial] returns what is there. *)
Definition file_ReadAt (file : list Z) (n position : Z) : res (list Z) :=
  ASSERT (0 <=? position);
  if n <? 0 then UB else Ok (slice position n file).

(** The members of an [AddrSpace]; [None] is a member that was never set. *)
Record AddrSpace := mkAddrSpace {
  pageTable : option (list TranslationEntry);
  numPages : option Z
}.

(** What the constructor works on: [machine->mainMemory] and
    [gPhysPageBitMap]. *)
Record phys_mem := mkPhys { memory : list Z; pages : BitMap }.

Definition alloc_page : st phys_mem Z := fun s =>
  '(p, b) ← Find (pages s); Ok (p, mkPhys (memory s) b).
(** Bytes written at [&mainMemory[at]]. *)
Definition poke (bs : list Z) (at_ : Z) : st phys_mem unit := fun s =>
  m ← bytes_to bs (memory s) at_; Ok (tt, mkPhys m (pages s)).
(** [executable->ReadAt(&mainMemory[dst], n, position)] *)
Definition read_into (exe : list Z) (dst n position : Z) : st phys_mem unit :=
  bs ← lift (file_ReadAt exe n position); poke bs dst.

Definition read_header (exe : list Z) : res NoffHeader :=
  bs ← file_ReadAt exe 40 0;
  h ← decode_noff bs;
  let h := if negb (noffMagic h =? NOFFMAGIC) && (WordToHost (noffMagic h) =? NOFFMAGIC)
           then SwapHeader h else h in
  ASSERT (noffMagic h =? NOFFMAGIC);
  Ok h.

Definition space_pages (h : NoffHeader) : Z :=
  divRoundUp (to_uint (size (code h) + size (initData h) + size (uninitData h) + UserStackSize)) PageSize.

(** ** The constructor from a file name *)

(** The loop that builds the page table; [None] when no page is left. *)
Fixpoint map_pages (n : nat) (i : Z) (t : list TranslationEntry)
  : st phys_mem (option (list TranslationEntry)) :=
  match n with
  | O => mret (Some t)
  | S n' =>
      p ← alloc_page;
      if p =? -1 then mret None
      else
        poke (replicate (Z.to_nat PageSize) 0) (p * PageSize);;
        map_pages n' (i + 1) (t ++ [mkTranslationEntry i p true false false false])
  end.

(** The sizes the code computes: pages of code, bytes on the last of them,
    pages of data behind it, bytes of data on the last code page, bytes on the
    last data page ([None] when it is not set). *)
Definition layout (h : NoffHeader) : Z * Z * Z * Z * option Z :=
  let numCodePage := to_uint (divRoundUp (size (code h)) PageSize) in
  let lastCodePageSize := to_int (size (code h) - (numCodePage - 1) * PageSize) in
  let tempDataSize := to_int (size (initData h) - (PageSize - lastCodePageSize)) in
  if tempDataSize <? 0 then (numCodePage, lastCodePageSize, 0, size (initData h), None)
  else
    let numDataPage := to_uint (divRoundUp tempDataSize PageSize) in
    (numCodePage, lastCodePageSize, numDataPage, PageSize - lastCodePageSize,
     Some (to_int (tempDataSize - (numDataPage - 1) * PageSize))).

(** [pageTable[i].physicalPage * PageSize] *)
Definition frame_addr (t : list TranslationEntry) (i : Z) : res Z :=
  e ← rd t i; Ok (physicalPage e * PageSize).

Definition copy_code (exe : list Z) (h : NoffHeader) (t : list TranslationEntry)
    (numCodePage lastCodePageSize : Z) : st phys_mem unit :=
  for_st 0 numCodePage (fun i _ =>
    a ← lift (frame_addr t i);
    read_into exe (virtualAddr (code h) + a)
      (if i <? numCodePage - 1 then PageSize else lastCodePageSize)
      (to_int (inFileAddr (code h) + i * PageSize))) tt.

Definition copy_data (exe : list Z) (h : NoffHeader) (t : list TranslationEntry)
    (numCodePage numDataPage firstDataPageSize : Z) (lastDataPageSize : option Z) : st phys_mem unit :=
  for_st 0 numDataPage (fun j _ =>
    a ← lift (frame_addr t (numCodePage + j));
    n ← lift (if j <? numDataPage - 1 then Ok PageSize
              else match lastDataPageSize with Some l => Ok l | None => UB end);
    read_into exe (virtualAddr (code h) + a) n
      (to_int (inFileAddr (initData h) + j * PageSize + firstDataPageSize))) tt.

Definition copy_first_data (exe : list Z) (h : NoffHeader) (t : list TranslationEntry)
    (numCodePage lastCodePageSize firstDataPageSize : Z) : st phys_mem unit :=
  if (lastCodePageSize <? PageSize) && (0 <? firstDataPageSize) then
    a ← lift (frame_addr t (numCodePage - 1));
    read_into exe (virtualAddr (code h) + (a + lastCodePageSize)) firstDataPageSize
      (inFileAddr (initData h))
  else mret tt.

(** [exe] is what [fileSystem->Open(filename)] gives; [None] is NULL.
    [addrLock] is a lock whose operations do nothing (threads/synch.cc). *)
Definition new_AddrSpace (exe : option (list Z)) : st phys_mem AddrSpace :=
  match exe with
  | None => mret (mkAddrSpace None None)
  | Some exe =>
      h ← lift (read_header exe);
      let n := space_pages h in
      c ← (fun s => c ← NumClear (pages s); Ok (c, s));
      if to_uint c <? n then mret (mkAddrSpace None (Some 0))
      else
        o ← map_pages (Z.to_nat n) 0 [];
        match o with
        | None => mret (mkAddrSpace None (Some 0))
        | Some t =>
            let '(numCodePage, lastCodePageSize, numDataPage, firstDataPageSize, lastDataPageSize) :=
              layout h in
            copy_code exe h t numCodePage lastCodePageSize;;
            copy_first_data exe h t numCodePage lastCodePageSize firstDataPageSize;;
            copy_data exe h t numCodePage numDataPage firstDataPageSize lastDataPageSize;;
            mret (mkAddrSpace (Some t) (Some n))
        end
  end.

(** ** The older constructor, from an open file *)

Fixpoint map_pages_only (n : nat) (i : Z) (t : list TranslationEntry)
  : st phys_mem (option (list TranslationEntry)) :=
  match n with
  | O => mret (Some t)
  | S n' =>
      p ← alloc_page;
      if p =? -1 then mret None
      else map_pages_only n' (i + 1) (t ++ [mkTranslationEntry i p true false false false])
  end.

(** It clears and loads the memory from address 0, whatever the pages are. *)
Definition new_AddrSpace_file (exe : list Z) : st phys_mem AddrSpace :=
  h ← lift (read_header exe);
  let n := space_pages h in
  assert_ (n <=? NumPhysPages);;
  o ← map_pages_only (Z.to_nat n) 0 [];
  match o with
  | None => mret (mkAddrSpace None (Some 0))
  | Some t =>
      poke (replicate (Z.to_nat (n * PageSize)) 0) 0;;
      (if 0 <? size (code h)
       then read_into exe (virtualAddr (code h)) (size (code h)) (inFileAddr (code h)) else mret tt);;
      (if 0 <? size (initData h)
       then read_into exe (virtualAddr (initData h)) (size (initData h)) (inFileAddr (initData h))
       else mret tt);;
      mret (mkAddrSpace (Some t) (Some n))
  end.

(** ** Starting the program *)

Definition InitRegisters (a : AddrSpace) (m : Machine) : res Machine :=
  m ← for_range 0 NumTotalRegs (fun i m => WriteRegister m i 0) m;
  m ← WriteRegister m PCReg 0;
  m ← WriteRegister m NextPCReg 4;
  n ← match numPages a with Some n => Ok n | None => UB end;
  WriteRegister m StackReg (to_int (n * PageSize - 16)).

Definition SaveState (a : AddrSpace) : unit := tt.
Definition RestoreState (a : AddrSpace) (m : Machine) : res Machine :=
  match pageTable a, numPages a with
  | Some t, Some n =>
      Ok (mkMachine (registers m) (mainMemory m) (tlb m) (Some t) n (singleStep m) (runUntilTime m))
  | _, _ => UB
  end.

(** ** Frames and virtual memory *)

(** The page table whose pages [i], [i+1], ... are the frames [fs]. *)
Fixpoint table_of (i : Z) (fs : list Z) : list TranslationEntry :=
  match fs with
  | [] => []
  | f :: fs => mkTranslationEntry i f true false false false :: table_of (i + 1) fs
  end.
(** The byte at virtual address [va]. *)
Definition vbyte (mem : list Z) (fs : list Z) (va : Z) : option Z :=
  f ← zget fs (va / PageSize); zget mem (f * PageSize + va mod PageSize).
(** The bytes of the frames [fs]. *)
Definition in_frames (fs : list Z) (a : Z) : Prop := a / PageSize ∈ fs.

Record phys_ok (s : phys_mem) : Prop := {
  po_wf : wf (pages s);
  po_bits : numBits (pages s) = NumPhysPages;
  po_len : zlen (memory s) = MemorySize;
  po_bytes : Forall is_byte (memory s)
}.
Record frames_ok (fs : list Z) : Prop := {
  fo_nodup : NoDup fs;
  fo_range : Forall (fun f => 0 <= f < NumPhysPages) fs
}.

Lemma table_of_app i fs f : table_of i (fs ++ [f]) =
  table_of i fs ++ [mkTranslationEntry (i + zlen fs) f true false false false].
Proof.
  revert i. induction fs as [|g fs IH]; intros i; simpl.
  - by rewrite Z.add_0_r.
  - rewrite IH, zlen_cons. do 4 f_equal. lia.
Qed.
Lemma zlen_table_of i fs : zlen (table_of i fs) = zlen fs.
Proof. revert i. induction fs as [|f fs IH]; intros i; simpl; [done|]. by rewrite !zlen_cons, IH. Qed.
Lemma zget_table_of fs : forall i k f, zget fs k = Some f ->
  zget (table_of i fs) k = Some (mkTranslationEntry (i + k) f true false false false).
Proof.
  induction fs as [|g fs IH]; intros i k f Hk.
  - apply zget_Some_range in Hk. unfold zlen in Hk. simpl in Hk. lia.
  - pose proof (zget_Some_range _ _ _ Hk). destruct (decide (k = 0)) as [->|].
    + injection Hk as ->. simpl. change (zget _ 0) with (Some (mkTranslationEntry i f true false false false)).
      by rewrite Z.add_0_r.
    + rewrite zget_cons_S in Hk by lia. cbn [table_of]. rewrite zget_cons_S by lia.
      rewrite (IH (i + 1) (k - 1) f Hk). do 2 f_equal. lia.
Qed.
Lemma frame_addr_ok fs k f : zget fs k = Some f -> frame_addr (table_of 0 fs) k = Ok (f * PageSize).
Proof.
  intros Hk. unfold frame_addr. rewrite (proj2 (rd_Ok _ _ _) (zget_table_of fs 0 k f Hk)). done.
Qed.

Lemma page_of f o : 0 <= o < PageSize -> (f * PageSize + o) / PageSize = f.
Proof. unfold PageSize, SectorSize. intros. lia_mod. Qed.
Lemma frame_in_memory f o : 0 <= f < NumPhysPages -> 0 <= o < PageSize -> 0 <= f * PageSize + o < MemorySize.
Proof. unfold MemorySize, NumPhysPages, PageSize, SectorSize. lia. Qed.

(** Writing bytes inside one frame. *)
Lemma poke_ok s bs f o :
  phys_ok s -> 0 <= f < NumPhysPages -> 0 <= o -> o + zlen bs <= PageSize -> Forall is_byte bs ->
  exists s', poke bs (f * PageSize + o) s = Ok (tt, s') /\ phys_ok s' /\ pages s' = pages s /\
    memory s' = splice (f * PageSize + o) bs (memory s).
Proof.
  intros [Hwf Hb Hl Hm] Hf Ho Hlen Hbs. unfold poke.
  assert (f * PageSize + o + zlen bs <= zlen (memory s)) as Hle.
  { rewrite Hl. unfold MemorySize, NumPhysPages, PageSize, SectorSize in *. lia. }
  rewrite bytes_to_ok; [|unfold PageSize, SectorSize in *; lia|done].
  eexists. split; [done|]. split; [|done].
  split; try done; simpl.
  - rewrite zlen_splice; [done|unfold PageSize, SectorSize in *; lia|done].
  - by apply Forall_splice.
Qed.

(** ... seen from the virtual addresses of a process that has the frame. *)
Lemma vbyte_splice mem fs p f o bs va :
  frames_ok fs -> zget fs p = Some f -> 0 <= o -> o + zlen bs <= PageSize -> zlen mem = MemorySize ->
  0 <= va < zlen fs * PageSize ->
  vbyte (splice (f * PageSize + o) bs mem) fs va =
    if decide (p * PageSize + o <= va < p * PageSize + o + zlen bs)
    then zget bs (va - (p * PageSize + o)) else vbyte mem fs va.
Proof.
  intros [Hnd Hr] Hp Ho Hlen Hm Hva.
  assert (0 <= f < NumPhysPages) as Hf by exact (Forall_zget _ _ _ _ Hr Hp).
  assert (0 <= va / PageSize < zlen fs) as Hq by (unfold PageSize, SectorSize in *; lia_mod).
  assert (0 <= va mod PageSize < PageSize) as Hmod by (apply Z.mod_pos_bound; done).
  pose proof (Z.div_mod va PageSize ltac:(done)) as Hdm. pose proof (zlen_nonneg bs) as Hb0.
  unfold vbyte. destruct (zget_is_Some fs (va / PageSize) Hq) as [g Hg]. rewrite Hg. cbn [mbind option_bind].
  assert (0 <= f * PageSize + o) as H0 by (unfold PageSize, SectorSize in *; lia).
  assert (f * PageSize + o + zlen bs <= zlen mem) as H1.
  { rewrite Hm. unfold MemorySize, NumPhysPages, PageSize, SectorSize in *. lia. }
  rewrite zget_splice by done.
  destruct (decide (va / PageSize = p)) as [Ep|Ep].
  - assert (g = f) as -> by congruence.
    destruct (decide (f * PageSize + o <= f * PageSize + va mod PageSize < f * PageSize + o + zlen bs)),
      (decide (p * PageSize + o <= va < p * PageSize + o + zlen bs)); try done; try (exfalso; nia).
    f_equal. nia.
  - assert (g <> f) as Hgf.
    { intros ->. apply Ep. by apply (NoDup_zget fs _ _ f). }
    rewrite !decide_False; [done| |]; unfold PageSize, SectorSize in *; nia.
Qed.

(** The bytes outside the frames [fs] are the same. *)
Definition same_outside (fs : list Z) (m m' : list Z) : Prop :=
  forall a, ~ in_frames fs a -> zget m' a = zget m a.
Lemma same_outside_refl fs m : same_outside fs m m.
Proof. done. Qed.
Lemma same_outside_trans fs m1 m2 m3 :
  same_outside fs m1 m2 -> same_outside fs m2 m3 -> same_outside fs m1 m3.
Proof. intros H1 H2 a Ha. by rewrite H2, H1. Qed.
Lemma same_outside_mono fs fs' m m' :
  (forall f, f ∈ fs -> f ∈ fs') -> same_outside fs m m' -> same_outside fs' m m'.
Proof. intros Hs H a Ha. apply H. unfold in_frames in *. eauto. Qed.
Lemma same_outside_splice fs f o bs m :
  f ∈ fs -> 0 <= f < NumPhysPages -> 0 <= o -> o + zlen bs <= PageSize -> zlen m = MemorySize ->
  same_outside fs m (splice (f * PageSize + o) bs m).
Proof.
  intros Hf Hr Ho Hlen Hm a Ha.
  rewrite zget_splice; [|unfold PageSize, SectorSize in *; lia|].
  2:{ rewrite Hm. unfold MemorySize, NumPhysPages, PageSize, SectorSize in *. lia. }
  rewrite decide_False; [done|]. intros [H1 H2]. apply Ha. unfold in_frames.
  replace (a / PageSize) with f; [done|].
  replace a with (f * PageSize + (a - f * PageSize)) by lia. rewrite page_of; lia.
Qed.

Lemma zero_page : zlen (replicate (Z.to_nat PageSize) 0) = PageSize.
Proof. unfold zlen. rewrite length_replicate. by apply Z2Nat.id. Qed.
Lemma zget_zeros n i : 0 <= i < n -> zget (replicate (Z.to_nat n) 0) i = Some 0.
Proof. intros. unfold zget. rewrite decide_True by lia. apply lookup_replicate. lia. Qed.

(** The allocation loop with enough clear pages. *)
Lemma map_pages_spec n : forall i t s,
  phys_ok s -> (n <= length (clear_items (pages s)))%nat ->
  exists fs s', map_pages n i t s = Ok (Some (t ++ table_of i fs), s') /\ phys_ok s' /\
    length fs = n /\ clear_items (pages s) ≡ₚ fs ++ clear_items (pages s') /\
    (forall j, bit (pages s') j = bool_decide (j ∈ fs) || bit (pages s) j) /\
    same_outside fs (memory s) (memory s') /\
    (forall f o, f ∈ fs -> 0 <= o < PageSize -> zget (memory s') (f * PageSize + o) = Some 0).
Proof.
  induction n as [|n IH]; intros i t s Hs Hle.
  - exists [], s. rewrite app_nil_r. split_and!; try done.
    intros f o Hf. by apply elem_of_nil in Hf.
  - cbn [map_pages]. pose proof (po_wf _ Hs) as Hwf.
    destruct (Find_cases _ Hwf) as [[Hall _]|(k & b1 & Hfind & Hwf1 & Hn1 & Hk & Hbk & _ & Hbits)].
    { apply clear_items_nil in Hall. rewrite Hall in Hle. simpl in Hle. lia. }
    rewrite (st_bind_Ok alloc_page _ s k (mkPhys (memory s) b1)) by (unfold alloc_page; by rewrite Hfind).
    rewrite (proj2 (Z.eqb_neq k (-1))) by lia.
    assert (phys_ok (mkPhys (memory s) b1)) as Hs1.
    { split; simpl; try apply Hs; [done|]. rewrite Hn1. apply Hs. }
    rewrite (po_bits _ Hs) in Hk.
    destruct (poke_ok _ (replicate (Z.to_nat PageSize) 0) k 0 Hs1 Hk) as (s2 & Hp & Hs2 & Hpg & Hmem);
      [done|by rewrite zero_page|apply Forall_replicate; done|].
    rewrite Z.add_0_r in Hp, Hmem. rewrite (st_bind_Ok _ _ _ _ _ Hp). cbn [memory pages] in Hpg, Hmem.
    pose proof (clear_items_mark (pages s) b1 k Hn1 Hbits ltac:(rewrite (po_bits _ Hs); done) Hbk) as Hperm.
    destruct (IH (i + 1) (t ++ [mkTranslationEntry i k true false false false]) s2 Hs2)
      as (fs & s' & Hm & Hs' & Hlen & Hperm2 & Hb2 & Hso & Hz).
    { rewrite Hpg. rewrite Hperm in Hle. simpl in Hle. lia. }
    exists (k :: fs), s'. rewrite Hm, Hpg in *. split_and!.
    + by rewrite <-app_assoc.
    + done.
    + simpl. lia.
    + by rewrite Hperm, Hperm2.
    + intros j. rewrite Hb2, Hbits. destruct (Z.eqb_spec j k) as [->|].
      * rewrite (bool_decide_true (k ∈ k :: fs)) by set_solver. by rewrite orb_true_r.
      * f_equal. apply bool_decide_ext. set_solver.
    + eapply same_outside_trans; [|eapply same_outside_mono; [|exact Hso]; set_solver].
      rewrite Hmem. rewrite <-(Z.add_0_r (k * PageSize)). apply same_outside_splice;
        [set_solver|done|done|by rewrite zero_page|apply Hs].
    + intros f o Hf Ho. destruct (decide (f ∈ fs)) as [|Hni]; [by apply Hz|].
      assert (f = k) as -> by set_solver. rewrite Hso by (unfold in_frames; by rewrite page_of).
      rewrite Hmem, zget_splice; rewrite ?zero_page; [|unfold PageSize, SectorSize in *; lia|].
      * rewrite decide_True by lia. apply zget_zeros. lia.
      * rewrite (po_len _ Hs). unfold MemorySize, NumPhysPages, PageSize, SectorSize in *. lia.
Qed.

(** ** What a new process sees *)

(** The byte that the constructor from a file name lays out at virtual address
    [va]: code, then initialised data right behind it, then zeros.  It does not
    look at [initData.virtualAddr]. *)
Definition image (exe : list Z) (h : NoffHeader) (va : Z) : option Z :=
  if va <? size (code h) then zget exe (inFileAddr (code h) + va)
  else if va <? size (code h) + size (initData h)
       then zget exe (inFileAddr (initData h) + (va - size (code h)))
       else Some 0.

(** The byte that the header puts at virtual address [va]: the initialised data
    at [initData.virtualAddr], the code from 0, zeros elsewhere. *)
Definition file_image (exe : list Z) (h : NoffHeader) (va : Z) : option Z :=
  let d := initData h in
  if (virtualAddr d <=? va) && (va <? virtualAddr d + size d) then zget exe (inFileAddr d + (va - virtualAddr d))
  else if va <? size (code h) then zget exe (inFileAddr (code h) + va)
  else Some 0.
(** The header puts the initialised data directly behind the code (or there is
    none), which the constructor from a file name takes for granted. *)
Definition data_behind_code (h : NoffHeader) : Prop :=
  size (initData h) = 0 \/ virtualAddr (initData h) = size (code h).
Lemma image_placed exe h va :
  data_behind_code h -> 0 <= size (initData h) -> image exe h va = file_image exe h va.
Proof.
  unfold data_behind_code, image, file_image. intros Hd H0.
  destruct (Z.ltb_spec va (size (code h))), (Z.leb_spec (virtualAddr (initData h)) va),
    (Z.ltb_spec va (virtualAddr (initData h) + size (initData h))),
    (Z.ltb_spec va (size (code h) + size (initData h))); simpl; try done; try lia.
  destruct Hd as [Hd | ->]; [lia|done].
Qed.

(** A well-formed executable: its header is readable, code starts at virtual
    address 0, the segments lie inside the file, and no size leaves an [int]. *)
Record exe_ok (exe : list Z) (h : NoffHeader) : Prop := {
  ex_header : read_header exe = Ok h;
  ex_bytes : Forall is_byte exe;
  ex_code0 : virtualAddr (code h) = 0;
  ex_sizes : 0 <= size (code h) /\ 0 <= size (initData h) /\ 0 <= size (uninitData h);
  ex_code : 0 <= inFileAddr (code h) /\ inFileAddr (code h) + size (code h) <= zlen exe;
  ex_data : 0 <= inFileAddr (initData h) /\ inFileAddr (initData h) + size (initData h) <= zlen exe;
  ex_int : size (code h) + size (initData h) + size (uninitData h) + UserStackSize < two31;
  ex_len : zlen exe < two31
}.

Section loading.
Context (exe : list Z) (h : NoffHeader) (fs : list Z) (m0 : list Z) (b0 : BitMap).
Hypothesis Hexe : exe_ok exe h.
Hypothesis Hfs : frames_ok fs.
Hypothesis Hsize : size (code h) + size (initData h) <= zlen fs * PageSize.

(** The bytes below [upto] are loaded, the ones behind it are zero. *)
Record loaded (upto : Z) (s : phys_mem) : Prop := {
  ld_phys : phys_ok s;
  ld_pages : pages s = b0;
  ld_outside : same_outside fs m0 (memory s);
  ld_bytes va : 0 <= va < zlen fs * PageSize ->
    vbyte (memory s) fs va = if va <? upto then image exe h va else Some 0
}.

Lemma read_chunk d s p f o n pos :
  loaded d s -> zget fs p = Some f -> p * PageSize + o = d -> 0 <= o -> 0 <= n -> o + n <= PageSize ->
  0 <= pos -> pos + n <= zlen exe ->
  (forall k, 0 <= k < n -> image exe h (d + k) = zget exe (pos + k)) ->
  exists s', read_into exe (f * PageSize + o) n pos s = Ok (tt, s') /\ loaded (d + n) s'.
Proof.
  intros [Hp Hpg Ho Hb] Hf Hd Ho0 Hn Hon Hpos Hle Hk.
  assert (0 <= f < NumPhysPages) as Hfr by exact (Forall_zget _ _ _ _ (fo_range _ Hfs) Hf).
  assert (zlen (slice pos n exe) = n) as Hlen by (rewrite zlen_slice; lia).
  unfold read_into. rewrite (lift_bind_Ok _ _ _ (slice pos n exe)).
  2:{ unfold file_ReadAt. rewrite (proj2 (Z.leb_le _ _)), (proj2 (Z.ltb_ge _ _)) by lia. done. }
  destruct (poke_ok s (slice pos n exe) f o Hp Hfr Ho0) as (s' & -> & Hp' & Hpg' & Hm');
    [lia|apply Forall_slice, Hexe|].
  exists s'. split; [done|]. split; [done|congruence| |].
  - eapply same_outside_trans; [exact Ho|]. rewrite Hm'. apply same_outside_splice; try done; try lia.
    + apply elem_of_zget. eauto.
    + apply Hp.
  - intros va Hva. rewrite Hm', (vbyte_splice _ _ p) by (try done; try lia; apply Hp).
    rewrite Hlen, Hd. destruct (decide (d <= va < d + n)).
    + rewrite (proj2 (Z.ltb_lt _ _)) by lia. rewrite zget_slice, decide_True by lia.
      rewrite <-Hk by lia. f_equal. lia.
    + rewrite Hb by done. destruct (Z.ltb_spec va d), (Z.ltb_spec va (d + n)); try done; lia.
Qed.

Let cs := size (code h).
Let ds := size (initData h).
Let ncp := divRoundUp cs PageSize.

Lemma ncp_spec : (ncp - 1) * PageSize < cs <= ncp * PageSize.
Proof. apply divRoundUp_spec; [apply Hexe|done]. Qed.
Lemma ncp_range : 0 <= ncp < two31 /\ 0 <= cs < two31 /\ 0 <= ds < two31.
Proof.
  pose proof (ex_sizes _ _ Hexe). pose proof (ex_int _ _ Hexe). pose proof ncp_spec.
  unfold cs, ds, PageSize, SectorSize, UserStackSize in *. lia.
Qed.

Lemma copy_code_ok s :
  loaded 0 s ->
  exists s', copy_code exe h (table_of 0 fs) ncp (cs - (ncp - 1) * PageSize) s = Ok (tt, s') /\ loaded cs s'.
Proof.
  intros Hl. pose proof ncp_spec as Hn. pose proof ncp_range as Hr. pose proof (ex_code _ _ Hexe) as Hc.
  pose proof (ex_sizes _ _ Hexe) as Hsz. pose proof (ex_len _ _ Hexe) as Hlen. fold cs in Hc. fold cs ds in Hsz.
  unfold copy_code. edestruct (for_st_inv (fun i (_ : unit) s => loaded (Z.min (i * PageSize) cs) s))
    as ([] & s' & -> & Hl'); [| | |exists s'; split; [done|]].
  - lia.
  - replace (Z.min (0 * PageSize) cs) with 0 by lia. done.
  - intros i [] s1 Hi Hl1. destruct (zget_is_Some fs i) as [f Hf].
    { unfold PageSize, SectorSize in *. fold cs ds in Hsize. lia. }
    rewrite (lift_bind_Ok _ _ _ _ (frame_addr_ok fs i f Hf)), (ex_code0 _ _ Hexe), Z.add_0_l.
    set (n := if i <? ncp - 1 then PageSize else cs - (ncp - 1) * PageSize).
    assert (n = Z.min PageSize (cs - i * PageSize)) as Hn'.
    { unfold n. unfold PageSize, SectorSize in *. destruct (Z.ltb_spec i (ncp - 1)); lia. }
    clearbody n. unfold PageSize, SectorSize in Hn, Hn', Hl1 |- *.
    rewrite to_int_id by (unfold_int; lia). rewrite <-(Z.add_0_r (f * 512)).
    destruct (read_chunk (Z.min (i * 512) cs) s1 i f 0 n (inFileAddr (code h) + i * 512))
      as (s2 & Hr2 & Hl2); try done; unfold PageSize, SectorSize; try lia.
    { intros k Hk. unfold image. fold cs. rewrite (proj2 (Z.ltb_lt _ _)) by lia. f_equal. lia. }
    exists tt, s2. split; [exact Hr2|]. by replace (Z.min ((i + 1) * 512) cs) with (Z.min (i * 512) cs + n) by lia.
  - by replace (Z.min (ncp * PageSize) cs) with cs in Hl' by lia.
Qed.

(** The bytes of data that share the last page of code. *)
Let last := cs - (ncp - 1) * PageSize.
Let fst_data := Z.min ds (PageSize - last).
Let ndp := divRoundUp (ds - fst_data) PageSize.

Lemma image_data k :
  0 <= k < ds -> image exe h (cs + k) = zget exe (inFileAddr (initData h) + k).
Proof.
  intros Hk. unfold image. fold cs ds. rewrite (proj2 (Z.ltb_ge _ _)), (proj2 (Z.ltb_lt _ _)) by lia.
  f_equal. lia.
Qed.

Lemma last_range : 0 < last <= PageSize /\ 0 <= fst_data <= ds.
Proof. pose proof ncp_spec. pose proof ncp_range. unfold fst_data, last. lia. Qed.

Lemma layout_eq : exists l, layout h = (ncp, last, ndp, fst_data, l) /\
  (0 < ndp -> l = Some (ds - fst_data - (ndp - 1) * PageSize) /\ fst_data = PageSize - last).
Proof.
  pose proof ncp_range as Hr. pose proof last_range as Hlr. pose proof ncp_spec as Hn. unfold layout. fold cs ds.
  rewrite (to_uint_id (divRoundUp cs PageSize)) by (fold ncp; unfold_int; lia). fold ncp.
  rewrite (to_int_id (cs - (ncp - 1) * PageSize)) by (unfold PageSize, SectorSize in *; unfold_int; lia). fold last.
  rewrite (to_int_id (ds - (PageSize - last))) by (unfold PageSize, SectorSize in *; unfold_int; lia).
  destruct (Z.ltb_spec (ds - (PageSize - last)) 0) as [Hlt|Hge].
  - assert (fst_data = ds) as Hf by (unfold fst_data; lia).
    assert (ndp = 0) as H0 by (unfold ndp; rewrite Hf, Z.sub_diag; done).
    exists None. rewrite H0, Hf. split; [done|lia].
  - assert (fst_data = PageSize - last) as Hf by (unfold fst_data; lia).
    pose proof (divRoundUp_spec (ds - fst_data) PageSize ltac:(lia) ltac:(done)) as Hd. fold ndp in Hd.
    assert (0 <= ndp < two31) as Hnr by (unfold PageSize, SectorSize in *; lia).
    rewrite <-Hf, (to_uint_id (divRoundUp _ _)) by (fold ndp; unfold_int; lia). fold ndp.
    rewrite to_int_id by (unfold PageSize, SectorSize in *; unfold_int; lia). eauto.
Qed.

Lemma copy_first_data_ok s :
  loaded cs s ->
  exists s', copy_first_data exe h (table_of 0 fs) ncp last fst_data s = Ok (tt, s') /\
    loaded (cs + fst_data) s'.
Proof.
  intros Hl. pose proof last_range as Hlr. pose proof ncp_spec as Hn. pose proof ncp_range as Hr.
  pose proof (ex_data _ _ Hexe) as Hd. fold ds in Hd. unfold copy_first_data.
  destruct (Z.ltb_spec last PageSize) as [Hlt|Hge]; simpl.
  2:{ exists s. replace (cs + fst_data) with cs by (unfold fst_data; lia). done. }
  destruct (Z.ltb_spec 0 fst_data) as [Hlt0|Hge0].
  2:{ exists s. replace (cs + fst_data) with cs by lia. done. }
  assert (0 < ncp) as Hpos by (unfold last, PageSize, SectorSize in *; lia).
  destruct (zget_is_Some fs (ncp - 1)) as [f Hf].
  { fold cs ds in Hsize. unfold PageSize, SectorSize in *. lia. }
  rewrite (lift_bind_Ok _ _ _ _ (frame_addr_ok fs _ f Hf)), (ex_code0 _ _ Hexe), Z.add_0_l.
  eapply read_chunk; try done; try (unfold fst_data, last in *; lia).
  intros k Hk. apply image_data. lia.
Qed.

Lemma copy_data_ok l s :
  (0 < ndp -> l = Some (ds - fst_data - (ndp - 1) * PageSize) /\ fst_data = PageSize - last) ->
  loaded (cs + fst_data) s ->
  exists s', copy_data exe h (table_of 0 fs) ncp ndp fst_data l s = Ok (tt, s') /\ loaded (cs + ds) s'.
Proof.
  intros Hlast Hl. pose proof last_range as Hlr. pose proof ncp_range as Hr. pose proof ncp_spec as Hn.
  pose proof (ex_data _ _ Hexe) as Hd. pose proof (ex_len _ _ Hexe) as Hlen. fold ds in Hd.
  pose proof (divRoundUp_spec (ds - fst_data) PageSize ltac:(lia) ltac:(done)) as Hnd. fold ndp in Hnd.
  assert (0 <= ndp) as Hnn by (unfold PageSize, SectorSize in *; lia).
  unfold copy_data. edestruct (for_st_inv (fun j (_ : unit) s =>
      loaded (cs + Z.min (fst_data + j * PageSize) ds) s)) as ([] & s' & -> & Hl');
    [| | |exists s'; split; [done|]].
  - lia.
  - by replace (cs + Z.min (fst_data + 0 * PageSize) ds) with (cs + fst_data) by lia.
  - intros j [] s1 Hj Hl1. destruct (Hlast ltac:(lia)) as [-> Hfst].
    destruct (zget_is_Some fs (ncp + j)) as [f Hf].
    { unfold last, PageSize, SectorSize in *. fold cs ds in Hsize. lia. }
    rewrite (lift_bind_Ok _ _ _ _ (frame_addr_ok fs _ f Hf)), (ex_code0 _ _ Hexe), Z.add_0_l.
    rewrite (lift_bind_Ok _ _ _ (Z.min PageSize (ds - fst_data - j * PageSize))).
    2:{ unfold PageSize, SectorSize in *. destruct (Z.ltb_spec j (ndp - 1)); f_equal; lia. }
    rewrite to_int_id by (unfold PageSize, SectorSize in *; unfold_int; lia).
    rewrite <-(Z.add_0_r (f * PageSize)).
    destruct (read_chunk (cs + Z.min (fst_data + j * PageSize) ds) s1 (ncp + j) f 0
      (Z.min PageSize (ds - fst_data - j * PageSize)) (inFileAddr (initData h) + j * PageSize + fst_data))
      as (s2 & Hr2 & Hl2); try done; try (unfold last, PageSize, SectorSize in *; lia).
    { intros k Hk. rewrite <-Z.add_assoc, image_data by (unfold PageSize, SectorSize in *; lia).
      f_equal. unfold PageSize, SectorSize in *. lia. }
    exists tt, s2. split; [exact Hr2|].
    match type of Hl2 with loaded ?a _ => replace (cs + Z.min _ ds) with a end; [done|].
    unfold PageSize, SectorSize in *. lia.
  - by replace (cs + Z.min (fst_data + ndp * PageSize) ds) with (cs + ds) in Hl' by lia.
Qed.

(** The three copies together, as the constructor runs them. *)
Lemma copies_ok s :
  loaded 0 s ->
  exists s', (let '(numCodePage, lastCodePageSize, numDataPage, firstDataPageSize, lastDataPageSize) := layout h in
      copy_code exe h (table_of 0 fs) numCodePage lastCodePageSize;;
      copy_first_data exe h (table_of 0 fs) numCodePage lastCodePageSize firstDataPageSize;;
      copy_data exe h (table_of 0 fs) numCodePage numDataPage firstDataPageSize lastDataPageSize;;
      mret (mkAddrSpace (Some (table_of 0 fs)) (Some (zlen fs)))) s =
    Ok (mkAddrSpace (Some (table_of 0 fs)) (Some (zlen fs)), s') /\ loaded (cs + ds) s'.
Proof.
  intros Hl. destruct layout_eq as (l & -> & Hlast).
  destruct (copy_code_ok s Hl) as (s1 & H1 & Hl1). fold last in H1. rewrite (st_bind_Ok _ _ _ _ _ H1).
  destruct (copy_first_data_ok s1 Hl1) as (s2 & H2 & Hl2). rewrite (st_bind_Ok _ _ _ _ _ H2).
  destruct (copy_data_ok l s2 Hlast Hl2) as (s3 & H3 & Hl3). rewrite (st_bind_Ok _ _ _ _ _ H3).
  by exists s3.
Qed.
End loading.

Lemma space_pages_spec exe h :
  exe_ok exe h -> 0 < space_pages h /\
    size (code h) + size (initData h) + size (uninitData h) + UserStackSize <= space_pages h * PageSize.
Proof.
  intros Hx. pose proof (ex_sizes _ _ Hx). pose proof (ex_int _ _ Hx). unfold space_pages.
  rewrite to_uint_id by (unfold_int; unfold UserStackSize in *; lia).
  pose proof (divRoundUp_spec (size (code h) + size (initData h) + size (uninitData h) + UserStackSize)
    PageSize ltac:(unfold UserStackSize; lia) ltac:(done)).
  unfold UserStackSize, PageSize, SectorSize in *. lia.
Qed.

Lemma clear_count_ok s : phys_ok s ->
  (fun s => c ← NumClear (pages s); Ok (c, s)) s = Ok (zlen (clear_items (pages s)), s) /\
  to_uint (zlen (clear_items (pages s))) = zlen (clear_items (pages s)) /\
  frames_ok (clear_items (pages s)).
Proof.
  intros Hs. cbv beta. rewrite (NumClear_spec _ (po_wf _ Hs)). split; [done|].
  pose proof (po_bits _ Hs) as Hb. split.
  - apply to_uint_id. unfold clear_items. rewrite Hb. pose proof (length_filter
      (fun i => bit (pages s) i = false) (seqZ 0 NumPhysPages)) as Hle. rewrite length_seqZ in Hle.
    unfold zlen, NumPhysPages in *. unfold_int. lia.
  - split; [apply NoDup_clear_items|]. apply Forall_forall. intros f [Hf _]%elem_of_clear_items. by rewrite <-Hb.
Qed.

Lemma load_program_spec exe h s :
  phys_ok s -> exe_ok exe h -> space_pages h <= zlen (clear_items (pages s)) ->
  exists fs s',
    new_AddrSpace (Some exe) s = Ok (mkAddrSpace (Some (table_of 0 fs)) (Some (space_pages h)), s') /\
    phys_ok s' /\ zlen fs = space_pages h /\ frames_ok fs /\
    (forall f, f ∈ fs -> bit (pages s) f = false) /\
    (forall j, bit (pages s') j = bool_decide (j ∈ fs) || bit (pages s) j) /\
    same_outside fs (memory s) (memory s') /\
    (forall va, 0 <= va < zlen fs * PageSize -> vbyte (memory s') fs va = image exe h va).
Proof.
  intros Hs Hx Hle. destruct (space_pages_spec _ _ Hx) as [Hpos Hfit].
  destruct (clear_count_ok s Hs) as (Hc & Hcu & [Hcd Hcr]). pose proof (ex_sizes _ _ Hx) as Hsz.
  unfold new_AddrSpace. rewrite (lift_bind_Ok _ _ _ h (ex_header _ _ Hx)), (st_bind_Ok _ _ _ _ _ Hc), Hcu.
  rewrite (proj2 (Z.ltb_ge _ _)) by lia.
  destruct (map_pages_spec (Z.to_nat (space_pages h)) 0 [] s Hs) as
    (fs & s1 & Hm & Hs1 & Hlen & Hperm & Hbits & Hout & Hzero).
  { unfold zlen in Hle. lia. }
  rewrite (st_bind_Ok _ _ _ _ _ Hm). cbn [app].
  assert (zlen fs = space_pages h) as Hzl by (unfold zlen; lia).
  assert (frames_ok fs) as Hfs.
  { rewrite Hperm in Hcd, Hcr. apply NoDup_app in Hcd as [? _]. apply Forall_app in Hcr as [? _]. by split. }
  assert (size (code h) + size (initData h) <= zlen fs * PageSize) as Hsize.
  { rewrite Hzl. unfold UserStackSize in Hfit. lia. }
  destruct (copies_ok exe h fs (memory s) (pages s1) Hx Hfs Hsize s1) as (s' & Hcp & Hl).
  { split; [done|done|done|]. intros va Hva. rewrite (proj2 (Z.ltb_ge _ _)) by lia. unfold vbyte.
    destruct (zget_is_Some fs (va / PageSize)) as [f Hf]; [unfold PageSize, SectorSize in *; lia_mod|].
    rewrite Hf. simpl. apply Hzero; [apply elem_of_zget; eauto|]. by apply Z.mod_pos_bound. }
  rewrite <-Hzl. exists fs, s'. split; [exact Hcp|]. split_and!; try done.
  - apply Hl.
  - intros f Hf. assert (f ∈ clear_items (pages s)) as Hin by (rewrite Hperm; set_solver).
    apply elem_of_clear_items in Hin as [_ ?]. done.
  - intros j. rewrite (ld_pages _ _ _ _ _ _ _ Hl). apply Hbits.
  - apply Hl.
  - intros va Hva. rewrite (ld_bytes _ _ _ _ _ _ _ Hl) by done. destruct (Z.ltb_spec va (size (code h) + size (initData h))).
    + done.
    + unfold image. rewrite !(proj2 (Z.ltb_ge _ _)) by lia. done.
Qed.

(** C5. Loading a program (the [AddrSpace] constructor from a file name): from a well-formed
    NOFF executable whose header has the code at virtual address 0 and the
    initialised data directly behind it, and which fits in the free physical
    pages, the constructor builds a page table of valid entries whose frames
    are distinct and were all free; exactly those frames become marked in the
    page bit map; the new process sees at every virtual address below its size
    what the header puts there (the code, the initialised data at its
    [virtualAddr], zeros for uninitialised data and stack); and no byte
    outside its frames changes, so no other process is disturbed.  Without the
    condition on the header the data is not where the header says
    ([data_misplaced]). *)
Theorem load_program (exe : list Z) (h : NoffHeader) (s : phys_mem) :
  phys_ok s -> exe_ok exe h -> data_behind_code h -> space_pages h <= zlen (clear_items (pages s)) ->
  exists fs s',
    new_AddrSpace (Some exe) s = Ok (mkAddrSpace (Some (table_of 0 fs)) (Some (space_pages h)), s') /\
    phys_ok s' /\ zlen fs = space_pages h /\ frames_ok fs /\
    (forall f, f ∈ fs -> bit (pages s) f = false) /\
    (forall j, bit (pages s') j = bool_decide (j ∈ fs) || bit (pages s) j) /\
    same_outside fs (memory s) (memory s') /\
    (forall va, 0 <= va < zlen fs * PageSize -> vbyte (memory s') fs va = file_image exe h va).
Proof.
  intros Hs Hx Hd Hle.
  destruct (load_program_spec exe h s Hs Hx Hle) as (fs & s' & Hn & Hp & Hl & Hf & Hfree & Hb & Ho & Hv).
  exists fs, s'. split_and!; try done. intros va Hva. rewrite Hv by done.
  apply image_placed; [done|apply (ex_sizes _ _ Hx)].
Qed.

(** A small executable: three words of code, one byte of data. *)
Definition tiny_header : NoffHeader :=
  mkNoffHeader NOFFMAGIC (mkSegment 0 40 12) (mkSegment 12 52 1) (mkSegment 13 0 3).
Definition tiny_exe : list Z :=
  bytes_of_ints [NOFFMAGIC; 0; 40; 12; 12; 52; 1; 13; 0; 3] ++ [1;2;3;4;5;6;7;8;9;10;11;12] ++ [77].
Lemma tiny_exe_ok : exe_ok tiny_exe tiny_header.
Proof.
  split; try (by vm_compute); try (split; by vm_compute).
  - unfold tiny_exe. apply Forall_app. split; [apply bytes_of_ints_bytes|].
    repeat constructor; by vm_compute.
Qed.
(** Memory with pages 0 to 2 in use. *)
Definition used_map : BitMap := mkBitMap 128 4 [7; 0; 0; 0].
Definition used_mem : phys_mem := mkPhys (replicate (Z.to_nat MemorySize) 9) used_map.
Lemma used_mem_ok : phys_ok used_mem.
Proof.
  split; [split; try done| done| |].
  - repeat constructor; by vm_compute.
  - unfold used_mem. cbn [memory]. unfold zlen. rewrite length_replicate. by apply Z2Nat.id.
  - apply Forall_replicate. done.
Qed.

Lemma load_program_witness :
  space_pages tiny_header = 3 /\
  exists fs s', new_AddrSpace (Some tiny_exe) used_mem =
      Ok (mkAddrSpace (Some (table_of 0 fs)) (Some 3), s') /\
    vbyte (memory s') fs 4 = Some 5 /\ vbyte (memory s') fs 12 = Some 77 /\
    vbyte (memory s') fs 1535 = Some 0 /\ 1 ∉ fs.
Proof.
  split; [reflexivity|].
  destruct (load_program tiny_exe tiny_header used_mem used_mem_ok tiny_exe_ok (or_intror eq_refl) ltac:(by vm_compute))
    as (fs & s' & Hn & _ & Hl & _ & Hfree & _ & _ & Hv).
  exists fs, s'. assert (zlen fs = 3) as Hl3 by (rewrite Hl; reflexivity).
  split; [exact Hn|]. rewrite !Hv by (rewrite Hl3; unfold PageSize, SectorSize; lia).
  split_and!; try reflexivity. intros H1. by specialize (Hfree 1 H1).
Defined.

(** An executable whose header puts its byte of data at address 64: the
    constructor puts it at 12, behind the code, and leaves 0 at 64. *)
Definition gap_header : NoffHeader :=
  mkNoffHeader NOFFMAGIC (mkSegment 0 40 12) (mkSegment 64 52 1) (mkSegment 65 0 3).
Definition gap_exe : list Z :=
  bytes_of_ints [NOFFMAGIC; 0; 40; 12; 64; 52; 1; 65; 0; 3] ++ [1;2;3;4;5;6;7;8;9;10;11;12] ++ [77].
Lemma gap_exe_ok : exe_ok gap_exe gap_header.
Proof.
  split; try (by vm_compute); try (split; by vm_compute).
  unfold gap_exe. apply Forall_app. split; [apply bytes_of_ints_bytes|]. repeat constructor; by vm_compute.
Qed.
Lemma data_misplaced :
  exists fs s', new_AddrSpace (Some gap_exe) used_mem = Ok (mkAddrSpace (Some (table_of 0 fs)) (Some 3), s') /\
    file_image gap_exe gap_header 64 = Some 77 /\ vbyte (memory s') fs 64 = Some 0 /\ vbyte (memory s') fs 12 = Some 77.
Proof.
  destruct (load_program_spec gap_exe gap_header used_mem used_mem_ok gap_exe_ok ltac:(by vm_compute))
    as (fs & s' & Hn & _ & Hl & _ & _ & _ & _ & Hv).
  exists fs, s'. assert (zlen fs = 3) as Hl3 by (rewrite Hl; reflexivity).
  split; [exact Hn|]. rewrite !Hv by (rewrite Hl3; unfold PageSize, SectorSize; lia). split_and!; reflexivity.
Qed.

(** Refused loads: when the file cannot be opened the constructor leaves
    both members unset and everything else as it was; when there are fewer
    free pages than the program needs it reports an address space of no pages
    and takes no page; a header without the magic number stops in ASSERT. *)
Theorem load_refused (s : phys_mem) :
  phys_ok s ->
  new_AddrSpace None s = Ok (mkAddrSpace None None, s) /\
  (forall exe h, exe_ok exe h -> zlen (clear_items (pages s)) < space_pages h ->
     new_AddrSpace (Some exe) s = Ok (mkAddrSpace None (Some 0), s)) /\
  (forall exe h, file_ReadAt exe 40 0 ≫= decode_noff = Ok h -> noffMagic h <> NOFFMAGIC ->
     new_AddrSpace (Some exe) s = AssertFail).
Proof.
  intros Hs. destruct (clear_count_ok s Hs) as (Hc & Hcu & _). split_and!; [done| |].
  - intros exe h Hx Hlt. unfold new_AddrSpace.
    rewrite (lift_bind_Ok _ _ _ h (ex_header _ _ Hx)), (st_bind_Ok _ _ _ _ _ Hc), Hcu.
    by rewrite (proj2 (Z.ltb_lt _ _)).
  - intros exe h Hd Hm. unfold new_AddrSpace, lift, read_header, mbind, st_bind in *.
    destruct (file_ReadAt exe 40 0) as [bs| | | |]; simpl in *; try done. rewrite Hd. simpl.
    unfold WordToHost. rewrite (proj2 (Z.eqb_neq _ _) Hm). simpl. by rewrite (proj2 (Z.eqb_neq _ _) Hm).
Qed.
(** No page is free. *)
Definition full_mem : phys_mem :=
  mkPhys (replicate (Z.to_nat MemorySize) 0) (mkBitMap 128 4 (replicate 4 4294967295)).
Lemma full_mem_ok : phys_ok full_mem.
Proof.
  split; [split; try done| done| |].
  - repeat constructor; by vm_compute.
  - unfold full_mem. cbn [memory]. unfold zlen. rewrite length_replicate. by apply Z2Nat.id.
  - apply Forall_replicate. done.
Qed.
Lemma load_refused_witness :
  new_AddrSpace (Some tiny_exe) full_mem = Ok (mkAddrSpace None (Some 0), full_mem) /\
  new_AddrSpace (Some (replicate 40 1)) full_mem = AssertFail.
Proof.
  destruct (load_refused full_mem full_mem_ok) as (_ & Hf & Hm). split.
  - apply (Hf tiny_exe tiny_header tiny_exe_ok). by vm_compute.
  - apply (Hm _ (mkNoffHeader 16843009 (mkSegment 16843009 16843009 16843009)
      (mkSegment 16843009 16843009 16843009) (mkSegment 16843009 16843009 16843009)));
      [reflexivity|done].
Defined.

(** ** The first instruction *)

Lemma set_regs_loop m r :
  zlen (registers m) = NumTotalRegs -> r = replicate (Z.to_nat NumTotalRegs) 0 ->
  for_range 0 NumTotalRegs (fun i m => WriteRegister m i 0) m = Ok (set_registers m r).
Proof.
  intros Hl ->. edestruct (for_range_inv (fun i m' => exists q, m' = set_registers m q /\
    zlen q = NumTotalRegs /\ forall j, 0 <= j < i -> zget q j = Some 0)) as (m' & -> & q & -> & Hq & Hz);
    [| | |f_equal; f_equal].
  - done.
  - exists (registers m). split_and!; [by destruct m|done|lia].
  - intros i m' Hi (q & -> & Hq & Hz). unfold WriteRegister. rewrite (proj2 (Z.leb_le _ _)), (proj2 (Z.ltb_lt _ _)) by lia.
    cbn [andb registers set_registers]. rewrite wr_Ok by lia. eexists. split; [done|].
    exists (zset q i 0). split_and!; [done|by rewrite zlen_zset|].
    intros j Hj. rewrite zget_zset. case_decide; [done|]. apply Hz. lia.
  - apply zget_ext_range.
    + rewrite Hq. unfold zlen. by rewrite length_replicate.
    + intros j Hj. rewrite Hz by lia. symmetry. apply zget_zeros. lia.
Qed.

(** The registers of a program about to start. *)
Definition start_regs (n : Z) : list Z :=
  zset (zset (replicate (Z.to_nat NumTotalRegs) 0) NextPCReg 4) StackReg (n * PageSize - 16).

Lemma InitRegisters_spec a m n :
  zlen (registers m) = NumTotalRegs -> numPages a = Some n -> 0 < n <= NumPhysPages ->
  InitRegisters a m = Ok (set_registers m (start_regs n)).
Proof.
  intros Hl Hn Hr. unfold InitRegisters. rewrite (set_regs_loop m _ Hl eq_refl), Hn.
  assert (to_int (n * PageSize - 16) = n * PageSize - 16) as Hi.
  { apply to_int_id. unfold NumPhysPages, PageSize, SectorSize in *. unfold_int. lia. }
  transitivity (WriteRegister (set_registers m
    (zset (replicate (Z.to_nat NumTotalRegs) 0) NextPCReg 4)) StackReg (to_int (n * PageSize - 16))).
  - reflexivity.
  - rewrite Hi. reflexivity.
Qed.

Lemma phys_byte m va w :
  0 <= va < two32 -> phys m va 1 w =
    match lookup_page m (va / PageSize) with
    | inl e => inl e
    | inr e =>
        if readOnly e && w then inl ReadOnlyException
        else if NumPhysPages <=? to_uint (physicalPage e) then inl BusErrorException
        else inr (to_uint (physicalPage e) * PageSize + va mod PageSize)
    end.
Proof.
  intros Hva. unfold phys. rewrite (to_uint_id va) by done. rewrite decide_False; [done|].
  intros Hn. apply Hn. apply Z.mod_1_r.
Qed.

(** A process that has just been loaded, on the machine. *)
Lemma start_program_spec fs n m :
  machine_ok m -> tlb m = None -> frames_ok fs -> zlen fs = n -> 0 < n ->
  let a := mkAddrSpace (Some (table_of 0 fs)) (Some n) in
  exists m', InitRegisters a m ≫= RestoreState a = Ok m' /\ machine_ok m' /\
    mainMemory m' = mainMemory m /\ registers m' = start_regs n /\
    (forall va w, 0 <= va < n * PageSize -> exists f, zget fs (va / PageSize) = Some f /\
       phys m' va 1 w = inr (f * PageSize + va mod PageSize)) /\
    (forall va w, n * PageSize <= va < two31 -> phys m' va 1 w = inl AddressErrorException).
Proof.
  intros [Hr Hz Hml Hmb Ht] Htlb [Hnd Hrange] Hn Hpos a.
  assert (n <= NumPhysPages) as Hle.
  { assert (NoDup (seqZ 0 NumPhysPages)) by apply NoDup_seqZ.
    assert (length fs <= length (seqZ 0 NumPhysPages))%nat as Hc.
    { apply submseteq_length, NoDup_submseteq; [done|]. intros f Hf. apply elem_of_seqZ.
      rewrite Forall_forall in Hrange. specialize (Hrange f Hf). lia. }
    rewrite length_seqZ in Hc. unfold zlen in Hn. lia. }
  rewrite (InitRegisters_spec a m n) by (try done; apply Hr). eexists. split; [reflexivity|].
  split_and!; try done.
  - split; try done.
    + apply regs_set; [apply regs_set; [apply zero_regs_ok|by vm_compute|by left]| |by left].
      unfold NumPhysPages, PageSize, SectorSize in *. unfold_int. lia.
    + unfold tables_ok. cbn. rewrite Htlb, zlen_table_of. done.
  - intros va w Hva. destruct (zget_is_Some fs (va / PageSize)) as [f Hf].
    { unfold PageSize, SectorSize in *. lia_mod. }
    exists f. split; [done|]. pose proof (Forall_zget _ _ _ _ Hrange Hf) as Hfr. cbn beta in Hfr.
    rewrite phys_byte by (unfold NumPhysPages, PageSize, SectorSize in *; unfold_int; lia).
    unfold lookup_page. cbn [tlb Machine.pageTable set_registers]. rewrite Htlb, (zget_table_of fs 0 _ _ Hf).
    cbn [valid readOnly physicalPage andb].
    rewrite (to_uint_id f), (proj2 (Z.leb_gt _ _)) by (unfold NumPhysPages in *; unfold_int; lia). done.
  - intros va w Hva. rewrite phys_byte by (unfold PageSize, SectorSize in *; unfold_int; lia).
    unfold lookup_page. cbn [tlb Machine.pageTable set_registers]. rewrite Htlb, zget_None; [done|].
    rewrite zlen_table_of. unfold PageSize, SectorSize in *. lia_mod.
Qed.

(** Starting a program: loading an executable and then running
    [InitRegisters] and [RestoreState] leaves a well-formed machine with
    every register zero except the next program counter (4) and the stack
    pointer (16 below the end of the address space); each virtual byte of the
    process translates, for reading and writing, to a physical byte that holds
    the program image, and each address past the last page traps. *)
Theorem start_program (exe : list Z) (h : NoffHeader) (m : Machine) (b : BitMap) :
  machine_ok m -> tlb m = None -> phys_ok (mkPhys (mainMemory m) b) -> exe_ok exe h ->
  space_pages h <= zlen (clear_items b) ->
  exists a s' m',
    new_AddrSpace (Some exe) (mkPhys (mainMemory m) b) = Ok (a, s') /\
    InitRegisters a (set_mainMemory m (memory s')) ≫= RestoreState a = Ok m' /\
    machine_ok m' /\ registers m' = start_regs (space_pages h) /\
    (forall va w, 0 <= va < space_pages h * PageSize -> exists pa,
       phys m' va 1 w = inr pa /\ zget (mainMemory m') pa = image exe h va) /\
    (forall va w, space_pages h * PageSize <= va < two31 ->
       phys m' va 1 w = inl AddressErrorException).
Proof.
  intros Hm Htlb Hp Hx Hle.
  destruct (load_program_spec exe h _ Hp Hx Hle) as (fs & s' & Hn & Hp' & Hl & Hfs & _ & _ & _ & Hv).
  destruct (space_pages_spec exe h Hx) as [Hpos _].
  destruct (start_program_spec fs (space_pages h) (set_mainMemory m (memory s')))
    as (m' & Hi & Hm' & Hmem & Hr & Hin & Hout); try done.
  { apply machine_ok_memory; [done|apply Hp'|apply Hp']. }
  eexists _, s', m'. split; [exact Hn|]. split_and!; try done.
  intros va w Hva. destruct (Hin va w Hva) as (f & Hf & Hph). eexists. split; [exact Hph|].
  rewrite <-Hv by (rewrite Hl; done). unfold vbyte. rewrite Hf, Hmem. done.
Qed.
Lemma start_program_witness :
  exists a s' m', new_AddrSpace (Some tiny_exe) (mkPhys (mainMemory sample_machine) used_map) = Ok (a, s') /\
    InitRegisters a (set_mainMemory sample_machine (memory s')) ≫= RestoreState a = Ok m' /\
    zget (registers m') StackReg = Some 1520 /\
    exists pa, phys m' 12 1 false = inr pa /\ zget (mainMemory m') pa = Some 77.
Proof.
  destruct (start_program tiny_exe tiny_header sample_machine used_map)
    as (a & s' & m' & Hn & Hi & _ & Hr & Hv & _).
  - exact sample_machine_ok.
  - reflexivity.
  - destruct sample_machine_ok, used_mem_ok. by split.
  - exact tiny_exe_ok.
  - by vm_compute.
  - exists a, s', m'. split; [exact Hn|]. split; [exact Hi|]. rewrite Hr. split; [reflexivity|].
    apply (Hv 12 false). split; by vm_compute.
Defined.
