(* ===== verification/ProcTable.v ===== *)
(** * userprog/pcb.cc, userprog/table.cc (PTable): processes

    The process table: which process numbers are in use, the PCB of each, and
    the protocol by which a parent waits for a child ([ExecUpdate],
    [JoinUpdate], [ExitUpdate]).  The kernel calls these routines for the
    running thread; a thread leaves the CPU only where it waits in
    [Semaphore::P] (the timer, which could preempt it elsewhere, is started
    with the option -rs only; [exec_unlock_race] shows what happens then).  So
    a routine runs up to its first [P] that finds 0, where the thread is
    parked at one of the [point]s, and [resume] runs the rest of it.

    PCBs are objects with addresses (the table holds pointers, and [Remove]
    leaves a dangling one behind); the three semaphores of a PCB are private
    to it and are its own values.  The routines of Semaphore are the ones of
    Threads: [P] of 0 waits, [V] adds one. *)

From S2P Require Import Prelude BitMap.
From stdpp Require Import gmap list sets.
#[local] Open Scope Z_scope.

Definition MAXPROCESS : Z := 10.

Record PCB := mkPCB {
  joinsem : Z;
  exitsem : Z;
  mutex : Z;
  exitcode : Z;
  thread : option Z;
  pid : Z;
  numwait : Z;
  parentID : Z;
  JoinStatus : Z
}.

(** Where a thread is: in its program, at the start of [MyStartProcess],
    waiting in one of the four semaphores (with the locals it still needs), or
    in a semaphore that was deleted under it.  A thread whose [Exit] has come
    back is in its program again, as in the code. *)
Inductive point :=
| InProgram
| Starting (pID : Z)
| InBmsem (filename : list Z)
| InMutex (this ID : Z) (filename : list Z)
| InJoin (this pID : Z)
| InExit (this pID ec : Z)
| Lost.
#[export] Instance point_eq_dec : EqDecision point.
Proof. solve_decision. Defined.

(** A thread; [result] is what its last process call returned. *)
Record proc := mkProc { name : list Z; processID : Z; at_ : point; result : Z }.

Record sys := mkSys {
  bm : BitMap;
  pcb : list (option Z);
  psize : Z;
  bmsem : Z;
  pcbs : gmap Z PCB;
  procs : gmap Z proc
}.
Definition set_bm s v := mkSys v (pcb s) (psize s) (bmsem s) (pcbs s) (procs s).
Definition set_pcb s v := mkSys (bm s) v (psize s) (bmsem s) (pcbs s) (procs s).
Definition set_bmsem s v := mkSys (bm s) (pcb s) (psize s) v (pcbs s) (procs s).
Definition set_pcbs s v := mkSys (bm s) (pcb s) (psize s) (bmsem s) v (procs s).
Definition set_procs s v := mkSys (bm s) (pcb s) (psize s) (bmsem s) (pcbs s) v.

(** ** PCB *)

Definition new_PCB (id currentProcessID : Z) : PCB :=
  mkPCB 0 0 1 0 None id 0 (if id =? 0 then 0 else currentProcessID) (-1).
Definition GetID (p : PCB) : Z := pid p.
Definition GetNumWait (p : PCB) : Z := numwait p.
Definition GetExitCode (p : PCB) : Z := exitcode p.
Definition SetExitCode (p : PCB) (ec : Z) : PCB :=
  mkPCB (joinsem p) (exitsem p) (mutex p) ec (thread p) (pid p) (numwait p) (parentID p) (JoinStatus p).
Definition set_numwait (p : PCB) (n : Z) : PCB :=
  mkPCB (joinsem p) (exitsem p) (mutex p) (exitcode p) (thread p) (pid p) n (parentID p) (JoinStatus p).
Definition IncNumWait (p : PCB) : PCB := set_numwait p (to_int (numwait p + 1)).
Definition DecNumWait (p : PCB) : PCB :=
  if negb (numwait p =? 0) then set_numwait p (to_int (numwait p - 1)) else p.
Definition set_JoinStatus (p : PCB) (v : Z) : PCB :=
  mkPCB (joinsem p) (exitsem p) (mutex p) (exitcode p) (thread p) (pid p) (numwait p) (parentID p) v.
Definition set_thread (p : PCB) (v : option Z) : PCB :=
  mkPCB (joinsem p) (exitsem p) (mutex p) (exitcode p) v (pid p) (numwait p) (parentID p) (JoinStatus p).
Definition set_joinsem (p : PCB) (v : Z) : PCB :=
  mkPCB v (exitsem p) (mutex p) (exitcode p) (thread p) (pid p) (numwait p) (parentID p) (JoinStatus p).
Definition set_exitsem (p : PCB) (v : Z) : PCB :=
  mkPCB (joinsem p) v (mutex p) (exitcode p) (thread p) (pid p) (numwait p) (parentID p) (JoinStatus p).
Definition set_mutex (p : PCB) (v : Z) : PCB :=
  mkPCB (joinsem p) (exitsem p) v (exitcode p) (thread p) (pid p) (numwait p) (parentID p) (JoinStatus p).

(** [*a] for the PCB at [a]; [pcb[i]] dereferenced. *)
Definition pcb_at (a : Z) : st sys PCB := fun s =>
  match pcbs s !! a with Some p => Ok (p, s) | None => UB end.
Definition put_pcb (a : Z) (p : PCB) : st sys unit := fun s => Ok (tt, set_pcbs s (<[a := p]> (pcbs s))).
Definition pcb_ptr (i : Z) : st sys Z := fun s =>
  o ← rd (pcb s) i; match o with Some a => Ok (a, s) | None => UB end.
Definition get {A} (f : sys -> A) : st sys A := fun s => Ok (f s, s).
Definition proc_at (t : Z) : st sys proc := fun s =>
  match procs s !! t with Some th => Ok (th, s) | None => UB end.
Definition put_proc (t : Z) (th : proc) : st sys unit := fun s =>
  Ok (tt, set_procs s (<[t := th]> (procs s))).

(** The thread waits at [pt]; the call returns [v] to the thread. *)
Definition park (t : Z) (pt : point) : st sys unit :=
  th ← proc_at t; put_proc t (mkProc (name th) (processID th) pt (result th)).
Definition returns (t : Z) (v : Z) : st sys unit :=
  th ← proc_at t; put_proc t (mkProc (name th) (processID th) InProgram v).

(** [this->joinsem->P()] and the like, followed by the rest [k] of the call. *)
Definition P_joinsem (t this : Z) (pt : point) (k : st sys unit) : st sys unit :=
  p ← pcb_at this;
  if joinsem p =? 0 then park t pt else put_pcb this (set_joinsem p (joinsem p - 1));; k.
Definition P_exitsem (t this : Z) (pt : point) (k : st sys unit) : st sys unit :=
  p ← pcb_at this;
  if exitsem p =? 0 then park t pt else put_pcb this (set_exitsem p (exitsem p - 1));; k.
Definition P_mutex (t this : Z) (pt : point) (k : st sys unit) : st sys unit :=
  p ← pcb_at this;
  if mutex p =? 0 then park t pt else put_pcb this (set_mutex p (mutex p - 1));; k.
Definition P_bmsem (t : Z) (pt : point) (k : st sys unit) : st sys unit :=
  v ← get bmsem;
  if v =? 0 then park t pt else (fun s => Ok (tt, set_bmsem s (v - 1)));; k.
Definition V_bmsem : st sys unit := fun s => Ok (tt, set_bmsem s (bmsem s + 1)).
Definition V_mutex (this : Z) : st sys unit :=
  p ← pcb_at this; put_pcb this (set_mutex p (mutex p + 1)).

Definition JoinWait (t this : Z) (pt : point) (k : st sys unit) : st sys unit :=
  p ← pcb_at this;
  put_pcb this (IncNumWait (set_JoinStatus p (parentID p)));;
  P_joinsem t this pt k.
Definition JoinRelease (this : Z) : st sys unit :=
  p ← pcb_at this;
  put_pcb this (DecNumWait p);;
  p ← pcb_at this;
  put_pcb this (set_joinsem p (joinsem p + 1)).
Definition ExitWait (t this : Z) (pt : point) (k : st sys unit) : st sys unit := P_exitsem t this pt k.
Definition ExitRelease (this : Z) : st sys unit :=
  p ← pcb_at this; put_pcb this (set_exitsem p (exitsem p + 1)).

(** [thread->getName()] *)
Definition GetNameThread (this : Z) : st sys (list Z) :=
  p ← pcb_at this;
  match thread p with
  | Some c => th ← proc_at c; mret (name th)
  | None => lift UB
  end.

(** [delete] of the PCB at [this]: its semaphores go with it, and a thread
    that waits in one of them waits for ever. *)
Definition waits_in (this : Z) (pt : point) : bool :=
  match pt with
  | InMutex a _ _ | InJoin a _ | InExit a _ _ => a =? this
  | _ => false
  end.
Definition lose (this : Z) (th : proc) : proc :=
  if waits_in this (at_ th) then mkProc (name th) (processID th) Lost (result th) else th.
Definition delete_PCB (this : Z) : st sys unit := fun s =>
  match pcbs s !! this with
  | Some _ => Ok (tt, set_procs (set_pcbs s (delete this (pcbs s))) (lose this <$> procs s))
  | None => UB
  end.

(** ** PTable *)

(** [size] PCB pointers; the object for process 0 is at address [a0]. *)
Definition new_PTable (junk : list Z) (size a0 : Z) (procs0 : gmap Z proc) : res sys :=
  b ← new_BitMap junk size;
  b' ← Mark b 0;
  Ok (mkSys b' (<[0%nat := Some a0]> (replicate (Z.to_nat MAXPROCESS) None)) size 1
        {[ a0 := new_PCB 0 0 ]} procs0).

Definition GetFreeSlot : st sys Z := fun s =>
  '(i, b) ← FindFreeSlot (bm s); Ok (i, set_bm s b).
Definition IsExist (pID : Z) : st sys bool := fun s =>
  if (pID <? 0) || (9 <? pID) then Ok (false, s) else b ← Test (bm s) pID; Ok (b, s).
Definition GetName (pID : Z) : st sys (list Z) :=
  b ← (fun s => if (0 <=? pID) && (pID <? 10) then b ← Test (bm s) pID; Ok (b, s) else Ok (false, s));
  if (b : bool) then a ← pcb_ptr pID; GetNameThread a else lift UB.
Definition Remove (pID : Z) : st sys unit :=
  if (pID <? 0) || (9 <? pID) then mret tt
  else
    b ← (fun s => b ← Test (bm s) pID; Ok (b, s));
    if (b : bool) then
      (fun s => b ← Clear (bm s) pID; Ok (tt, set_bm s b));;
      o ← (fun s => o ← rd (pcb s) pID; Ok (o, s));
      match o with Some a => delete_PCB a | None => mret tt end
    else mret tt.

(** [MyStartProcess] up to the loading of the program, which is AddrSpace's
    and starts with the name of the thread. *)
Definition MyStartProcess (t pID : Z) : st sys (list Z) :=
  filename ← GetName pID; park t InProgram;; mret filename.

Section table.
(** The files that [fileSystem->Open] finds. *)
Context (opens : list Z -> bool).

(** [new Thread(filename)], [SetProcessID] and [Fork]; [nt] names the thread. *)
Definition exec_fork (this ID nt : Z) (filename : list Z) : st sys unit :=
  p ← pcb_at this;
  put_pcb this (set_thread p (Some nt));;
  put_proc nt (mkProc filename ID (Starting ID) 0).
(** The rest of [PCB::Exec] and of [ExecUpdate]. *)
Definition exec_unlock (t this ID : Z) : st sys unit :=
  V_mutex this;; V_bmsem;; returns t ID.
Definition exec_locked (t this ID nt : Z) (filename : list Z) : st sys unit :=
  exec_fork this ID nt filename;; exec_unlock t this ID.
Definition PCB_Exec (t this ID nt : Z) (filename : list Z) : st sys unit :=
  P_mutex t this (InMutex this ID filename) (exec_locked t this ID nt filename).

(** [a] and [nt] are the addresses that [new PCB] and [new Thread] return. *)
Definition exec_checked (t a nt : Z) (filename : list Z) : st sys unit :=
  th ← proc_at t;
  if negb (opens filename) then V_bmsem;; returns t (-1)
  else if bool_decide (filename = name th) then V_bmsem;; returns t (-1)
  else
    ID ← GetFreeSlot;
    if ID =? -1 then V_bmsem;; returns t (-1)
    else
      put_pcb a (new_PCB ID (processID th));;
      (fun s => l ← wr (pcb s) ID (Some a); Ok (tt, set_pcb s l));;
      (fun s => b ← Mark (bm s) ID; Ok (tt, set_bm s b));;
      this ← pcb_ptr ID;
      PCB_Exec t this ID nt filename.
Definition ExecUpdate (t a nt : Z) (filename : list Z) : st sys unit :=
  P_bmsem t (InBmsem filename) (exec_checked t a nt filename).

Definition exit_removed (t pID ec : Z) : st sys unit := Remove pID;; returns t ec.
Definition ExitUpdate (t ec : Z) : st sys unit :=
  th ← proc_at t;
  let pID := processID th in
  e ← IsExist pID;
  if negb e then returns t (-1)
  else if pID =? 0 then lift Halted
  else
    this ← pcb_ptr pID;
    p ← pcb_at this;
    put_pcb this (SetExitCode p ec);;
    p ← pcb_at this;
    if negb (JoinStatus p =? -1) then
      JoinRelease this;;
      this ← pcb_ptr pID;
      ExitWait t this (InExit this pID ec) (exit_removed t pID ec)
    else exit_removed t pID ec.

Definition join_woken (t pID : Z) : st sys unit :=
  this ← pcb_ptr pID;
  p ← pcb_at this;
  let ec := GetExitCode p in
  if negb (ec =? 0) then returns t (-1)
  else
    this ← pcb_ptr pID;
    ExitRelease this;;
    returns t 0.
Definition JoinUpdate (t pID : Z) : st sys unit :=
  if (pID <=? 0) || (9 <? pID) then returns t (-1)
  else
    o ← (fun s => o ← rd (pcb s) pID; Ok (o, s));
    match o with
    | None => returns t (-1)
    | Some this =>
        th ← proc_at t;
        p ← pcb_at this;
        if negb (processID th =? parentID p) then returns t (-1)
        else JoinWait t this (InJoin this pID) (join_woken t pID)
    end.

(** A parked thread goes on: it takes the unit it waited for, if there is one. *)
Definition resume (t a nt : Z) (pt : point) : st sys unit :=
  match pt with
  | InBmsem f => P_bmsem t pt (exec_checked t a nt f)
  | InMutex this ID f => P_mutex t this pt (exec_locked t this ID nt f)
  | InJoin this pID => P_joinsem t this pt (join_woken t pID)
  | InExit this pID ec => P_exitsem t this pt (exit_removed t pID ec)
  | _ => lift UB
  end.

(** The cases SC_Join and SC_Exit of the exception handler, as far as the
    process table is concerned. *)
Definition sc_join (t pID : Z) : st sys unit :=
  if (pID <? 0) || (9 <? pID) then returns t (-1)
  else
    e ← IsExist pID;
    if negb e then returns t (-1) else JoinUpdate t pID.
End table.

(** ** Process calls as steps

    What the threads do to the table, in any order.  [Exit] comes back to the
    program, which may go on with any call; what it must not do is call [Exit]
    again when its number has been given to another process in the meantime
    ([own_number]; [late_exit_unsafe] shows what happens then). *)
Inductive op :=
| OpExec (t a nt : Z) (filename : list Z)
| OpStart (t pID : Z)
| OpJoin (t pID : Z)
| OpExit (t ec : Z)
| OpResume (t a nt : Z).

Definition waiting (pt : point) : bool :=
  match pt with InBmsem _ | InMutex _ _ _ | InJoin _ _ | InExit _ _ _ => true | _ => false end.
Definition used (s : sys) (i : Z) : Prop := 1 <= i < MAXPROCESS /\ bit (bm s) i = true.
(** If the thread's process number is in use, it is in use for this thread. *)
Definition own_number (s : sys) (t : Z) (th : proc) : Prop :=
  forall a p, used s (processID th) -> zget (pcb s) (processID th) = Some (Some a) ->
    pcbs s !! a = Some p -> thread p = Some t.

Definition run_op (opens : list Z -> bool) (o : op) : st sys unit :=
  match o with
  | OpExec t a nt f => ExecUpdate opens t a nt f
  | OpStart t i => MyStartProcess t i;; mret tt
  | OpJoin t i => sc_join t i
  | OpExit t ec => ExitUpdate t ec
  | OpResume t a nt => th ← proc_at t; resume opens t a nt (at_ th)
  end.
(** When a step can happen: the thread is there; new objects are new. *)
Definition enabled (o : op) (s : sys) : Prop :=
  match o with
  | OpExec t a nt _ =>
      (exists th, procs s !! t = Some th /\ at_ th = InProgram) /\ pcbs s !! a = None /\ procs s !! nt = None
  | OpStart t i => exists th, procs s !! t = Some th /\ at_ th = Starting i
  | OpJoin t _ => exists th, procs s !! t = Some th /\ at_ th = InProgram
  | OpExit t _ => exists th, procs s !! t = Some th /\ at_ th = InProgram /\ own_number s t th
  | OpResume t a nt =>
      (exists th, procs s !! t = Some th /\ waiting (at_ th) = true) /\
      pcbs s !! a = None /\ procs s !! nt = None
  end.

Section steps.
Context (opens : list Z -> bool).
Inductive reachable (s0 : sys) : sys -> Prop :=
| reach_refl : reachable s0 s0
| reach_step s o s' :
    reachable s0 s -> enabled o s -> run_op opens o s = Ok (tt, s') -> reachable s0 s'.
End steps.

(** ** The invariant *)

(** The units in the semaphores of a PCB while its process waits in [ExitWait]
    after [Exit(ec)]: the parent has not been woken, the parent saw a nonzero
    code and went away, or the parent let the child go. *)
Definition handshake (js es ec : Z) : Prop :=
  (js = 1 /\ es = 0) \/ (js = 0 /\ es = 0 /\ ec <> 0) \/ (js = 0 /\ es = 1 /\ ec = 0).
Definition phase (a i : Z) (p : PCB) (th : proc) : Prop :=
  match at_ th with
  | InExit this j ec =>
      this = a /\ j = i /\ exitcode p = ec /\ JoinStatus p <> -1 /\ handshake (joinsem p) (exitsem p) ec
  | _ => joinsem p = 0 /\ exitsem p = 0
  end.
Record slot (s : sys) (i a : Z) (p : PCB) (c : Z) (th : proc) : Prop := {
  sl_ptr : zget (pcb s) i = Some (Some a);
  sl_pcb : pcbs s !! a = Some p;
  sl_pid : pid p = i;
  sl_parent : 0 <= parentID p;
  sl_mutex : mutex p = 1;
  sl_thread : thread p = Some c;
  sl_proc : procs s !! c = Some th;
  sl_id : processID th = i;
  sl_phase : phase a i p th
}.
(** What a parked thread relies on. *)
Definition place_ok (s : sys) (t : Z) (th : proc) : Prop :=
  match at_ th with
  | InBmsem _ | InMutex _ _ _ => False
  | InJoin this j => used s j /\ zget (pcb s) j = Some (Some this) /\
      exists p, pcbs s !! this = Some p /\ JoinStatus p <> -1
  | _ => True
  end.
(** A thread that starts or leaves is the thread of its process. *)
Definition owns (s : sys) (t : Z) (th : proc) : Prop :=
  used s (processID th) /\ exists a p, slot s (processID th) a p t th.
Definition number_of (pt : point) : option Z :=
  match pt with Starting j | InExit _ j _ => Some j | _ => None end.
Definition thr_ok (s : sys) (t : Z) (th : proc) : Prop :=
  0 <= processID th /\ place_ok s t th /\
  (forall j, number_of (at_ th) = Some j -> processID th = j /\ owns s t th).

Record Inv (s : sys) : Prop := {
  i_wf : wf (bm s);
  i_bits : numBits (bm s) = MAXPROCESS;
  i_len : zlen (pcb s) = MAXPROCESS;
  i_bmsem : bmsem s = 1;
  i_zero : bit (bm s) 0 = true;
  i_slot : forall i, used s i -> exists a p c th, slot s i a p c th;
  i_thr : forall t th, procs s !! t = Some th -> thr_ok s t th
}.

(** Two used slots with one PCB are one slot, and a number has one slot. *)
Lemma slot_inj s i j a p q c d th th' :
  slot s i a p c th -> slot s j a q d th' -> i = j /\ p = q /\ c = d /\ th = th'.
Proof. intros [] []. simplify_eq. done. Qed.
Lemma slot_fun s i a b p q c d th th' :
  slot s i a p c th -> slot s i b q d th' -> a = b /\ p = q /\ c = d /\ th = th'.
Proof. intros H1 H2. pose proof H1 as []. pose proof H2 as []. simplify_eq. done. Qed.
(** The caller of [Exit], whose number is its own or free. *)
Lemma own_number_owns s t th :
  Inv s -> procs s !! t = Some th -> own_number s t th -> used s (processID th) -> owns s t th.
Proof.
  intros Hi Ht Hown Hu. split; [done|]. destruct (i_slot _ Hi _ Hu) as (a & p & c & thc & Hs).
  pose proof (Hown a p Hu (sl_ptr _ _ _ _ _ _ Hs) (sl_pcb _ _ _ _ _ _ Hs)) as Hc.
  assert (c = t) as -> by (pose proof (sl_thread _ _ _ _ _ _ Hs); congruence).
  assert (thc = th) as -> by (pose proof (sl_proc _ _ _ _ _ _ Hs); congruence). eauto.
Qed.

(** Steps that create or remove nothing: the PCBs change from [pcbs s] to
    [ps'] and thread [t] from [th] to [th']. *)
Definition same_pcb (q q' : PCB) : Prop :=
  pid q' = pid q /\ parentID q' = parentID q /\ mutex q' = mutex q /\ thread q' = thread q /\
  (JoinStatus q <> -1 -> JoinStatus q' <> -1).
Lemma same_pcb_refl q : same_pcb q q.
Proof. done. Qed.

Lemma inv_update s (ps' : gmap Z PCB) t th th' :
  Inv s -> procs s !! t = Some th -> processID th' = processID th ->
  (forall j, number_of (at_ th') = Some j -> processID th = j /\ owns s t th) ->
  (forall b q, pcbs s !! b = Some q -> exists q', ps' !! b = Some q' /\ same_pcb q q') ->
  (forall i b q c thc q', slot s i b q c thc -> ps' !! b = Some q' ->
     phase b i q' (if decide (c = t) then th' else thc)) ->
  place_ok (set_procs (set_pcbs s ps') (<[t := th']> (procs s))) t th' ->
  Inv (set_procs (set_pcbs s ps') (<[t := th']> (procs s))).
Proof.
  intros [Hwf Hb Hl Hs Hz Hsl Hth] Ht Hid Hnum Hps Hph Hpl.
  set (s' := set_procs (set_pcbs s ps') (<[t := th']> (procs s))).
  assert (forall i a p c thc, slot s i a p c thc ->
            exists p', slot s' i a p' c (if decide (c = t) then th' else thc)) as Hmove.
  { intros i a p c thc Hslot. pose proof Hslot as [H1 H2 H3 H4 H5 H6 H7 H8 H9].
    destruct (Hps a p H2) as (p' & Hp' & Hpid & Hpar & Hmu & Htr & _).
    exists p'. split; simpl; try congruence.
    - destruct (decide (c = t)) as [->|]; [by rewrite lookup_insert_eq|by rewrite lookup_insert_ne].
    - destruct (decide (c = t)) as [->|]; [|done]. congruence.
    - by eapply Hph. }
  split; try done.
  - intros i Hi. destruct (Hsl i Hi) as (a & p & c & thc & Hslot).
    destruct (Hmove _ _ _ _ _ Hslot) as [p' Hp']. eauto.
  - intros t0 th0 Ht0. simpl in Ht0. destruct (decide (t0 = t)) as [->|Hne].
    + rewrite lookup_insert_eq in Ht0. injection Ht0 as <-.
      destruct (Hth t th Ht) as (Hpos & _ & _). split; [by rewrite Hid|]. split; [done|].
      intros j Hj. destruct (Hnum j Hj) as (Hj' & Hu & a & p & Hslot). unfold owns. rewrite Hid.
      split; [done|]. split; [exact Hu|]. destruct (Hmove _ _ _ _ _ Hslot) as [p' Hp']. exists a, p'.
      by rewrite decide_True in Hp'.
    + rewrite lookup_insert_ne in Ht0 by done. destruct (Hth t0 th0 Ht0) as (Hpos & Hpl0 & Hown).
      split_and!; [done| |].
      * unfold place_ok in *. destruct (at_ th0); try done. destruct Hpl0 as (Hu & Hz0 & p & Hp & HJ).
        split_and!; [done|done|]. destruct (Hps _ _ Hp) as (p' & Hp' & _ & _ & _ & _ & HJ'). eauto.
      * intros j Hj. destruct (Hown j Hj) as (Hj' & Hu & a & p & Hslot). split; [done|]. split; [exact Hu|].
        destruct (Hmove _ _ _ _ _ Hslot) as [p' Hp']. exists a, p'. by rewrite decide_False in Hp'.
Qed.

Lemma set_pcbs_id s : set_pcbs s (pcbs s) = s.
Proof. by destruct s. Qed.

(** Only a thread changes. *)
Lemma inv_thread s t th th' :
  Inv s -> procs s !! t = Some th -> processID th' = processID th ->
  (forall j, number_of (at_ th') = Some j -> processID th = j /\ owns s t th) ->
  (forall a p, slot s (processID th) a p t th -> phase a (processID th) p th') ->
  place_ok (set_procs s (<[t := th']> (procs s))) t th' ->
  Inv (set_procs s (<[t := th']> (procs s))).
Proof.
  intros Hi Ht Hid Hnum Hph Hpl. rewrite <-(set_pcbs_id s) at 1. apply inv_update with th; try done.
  - intros b q Hq. exists q. split; [done|apply same_pcb_refl].
  - intros i b q c thc q' Hs Hq'. pose proof (sl_pcb _ _ _ _ _ _ Hs) as Hq.
    assert (q' = q) as -> by congruence. destruct (decide (c = t)) as [->|]; [|apply Hs].
    pose proof (sl_proc _ _ _ _ _ _ Hs). simplify_eq. pose proof (sl_id _ _ _ _ _ _ Hs) as <-. by apply Hph.
Qed.

Lemma proc_at_ok s t th : procs s !! t = Some th -> proc_at t s = Ok (th, s).
Proof. intros H. unfold proc_at. by rewrite H. Qed.
Lemma pcb_at_ok s a p : pcbs s !! a = Some p -> pcb_at a s = Ok (p, s).
Proof. intros H. unfold pcb_at. by rewrite H. Qed.
Lemma pcb_ptr_ok s i a : zget (pcb s) i = Some (Some a) -> pcb_ptr i s = Ok (a, s).
Proof. intros H. unfold pcb_ptr. by rewrite (proj2 (rd_Ok _ _ _) H). Qed.
Lemma pcb_at_put s a p (m : gmap Z PCB) :
  pcb_at a (set_pcbs s (<[a := p]> m)) = Ok (p, set_pcbs s (<[a := p]> m)).
Proof. apply pcb_at_ok. simpl. by rewrite lookup_insert_eq. Qed.
Definition moved (s : sys) (t : Z) (th : proc) (pt : point) (v : Z) : sys :=
  set_procs s (<[t := mkProc (name th) (processID th) pt v]> (procs s)).
Lemma returns_ok s t th v : procs s !! t = Some th -> returns t v s = Ok (tt, moved s t th InProgram v).
Proof. intros H. unfold returns. by rewrite (st_bind_Ok _ _ _ _ _ (proc_at_ok _ _ _ H)). Qed.
Lemma park_ok s t th pt : procs s !! t = Some th -> park t pt s = Ok (tt, moved s t th pt (result th)).
Proof. intros H. unfold park. by rewrite (st_bind_Ok _ _ _ _ _ (proc_at_ok _ _ _ H)). Qed.

(** A thread that is in its program, starting or waiting to join, and the one
    it becomes. *)
Lemma inv_returns s t th v :
  Inv s -> procs s !! t = Some th -> at_ th = InProgram \/ (exists i, at_ th = Starting i) ->
  Inv (moved s t th InProgram v).
Proof.
  intros Hi Ht Hat. apply inv_thread with th; try done.
  intros a p Hs. pose proof (sl_phase _ _ _ _ _ _ Hs) as Hph. unfold phase in *. simpl.
  destruct Hat as [Hat|[i Hat]]; by rewrite Hat in Hph.
Qed.

Lemma IsExist_ok s i : Inv s ->
  IsExist i s = Ok (bool_decide (0 <= i < MAXPROCESS /\ bit (bm s) i = true), s).
Proof.
  intros Hi. unfold IsExist. pose proof (i_bits _ Hi) as Hn. unfold MAXPROCESS in *.
  destruct (Z.ltb_spec i 0), (Z.ltb_spec 9 i); simpl; try (rewrite bool_decide_false; [done|lia]).
  rewrite (Test_spec _ _ (i_wf _ Hi)) by lia. simpl. do 2 f_equal.
  destruct (bit (bm s) i); [rewrite bool_decide_true; [done|lia]|by rewrite bool_decide_false by (by intros [_ ?])].
Qed.

(** ** Join *)

(** Changing the one PCB [a] and one thread. *)
Lemma inv_slot_update s i a p c thc p' t th th' :
  Inv s -> slot s i a p c thc -> same_pcb p p' -> procs s !! t = Some th ->
  processID th' = processID th ->
  (forall j, number_of (at_ th') = Some j -> processID th = j /\ owns s t th) ->
  phase a i p' (if decide (c = t) then th' else thc) ->
  (c <> t -> forall b q j, slot s j b q t th -> phase b j q th') ->
  place_ok (set_procs (set_pcbs s (<[a := p']> (pcbs s))) (<[t := th']> (procs s))) t th' ->
  Inv (set_procs (set_pcbs s (<[a := p']> (pcbs s))) (<[t := th']> (procs s))).
Proof.
  intros Hi Hs Hsame Ht Hid Hnum Hph Hoth Hpl. apply inv_update with th; try done.
  - intros b q Hq. destruct (decide (b = a)) as [->|].
    + rewrite lookup_insert_eq. pose proof (sl_pcb _ _ _ _ _ _ Hs). simplify_eq. eauto.
    + rewrite lookup_insert_ne by done. exists q. split; [done|apply same_pcb_refl].
  - intros j b q d thd q' Hd Hq'. destruct (decide (b = a)) as [->|Hba].
    + rewrite lookup_insert_eq in Hq'. injection Hq' as <-.
      destruct (slot_inj _ _ _ _ _ _ _ _ _ _ Hs Hd) as (-> & -> & -> & ->). done.
    + rewrite lookup_insert_ne in Hq' by done. pose proof (sl_pcb _ _ _ _ _ _ Hd). simplify_eq.
      destruct (decide (d = t)) as [->|]; [|apply Hd].
      pose proof (sl_proc _ _ _ _ _ _ Hd). simplify_eq. apply (Hoth ltac:(intros ->; apply Hba;
        pose proof (sl_proc _ _ _ _ _ _ Hs); simplify_eq; pose proof (sl_id _ _ _ _ _ _ Hs);
        pose proof (sl_id _ _ _ _ _ _ Hd); simplify_eq;
        by destruct (slot_fun _ _ _ _ _ _ _ _ _ _ Hs Hd))). done.
Qed.

(** The phase of a thread that does not wait in [ExitWait] does not depend on
    where it is. *)
Definition plain (pt : point) : bool :=
  match pt with InExit _ _ _ => false | _ => true end.
Lemma phase_plain a i p th : plain (at_ th) = true -> phase a i p th <-> joinsem p = 0 /\ exitsem p = 0.
Proof. unfold phase. destruct (at_ th); done. Qed.
Lemma slot_plain s j b q t th th' :
  slot s j b q t th -> plain (at_ th) = true -> plain (at_ th') = true -> phase b j q th'.
Proof. intros Hs H1 H2. apply phase_plain; [done|]. eapply phase_plain; [exact H1|]. apply Hs. Qed.

Definition can_join (th : proc) (a i : Z) : Prop := at_ th = InProgram \/ at_ th = InJoin a i.
Lemma can_join_plain th a i : can_join th a i -> plain (at_ th) = true.
Proof. by intros [-> | ->]. Qed.

(** The unit of [joinsem] means that the child is in [ExitWait]. *)
Lemma signalled s i a p c thc :
  slot s i a p c thc -> joinsem p = 1 ->
  exists ec, at_ thc = InExit a i ec /\ exitcode p = ec /\ exitsem p = 0.
Proof.
  intros Hs Hj. pose proof (sl_phase _ _ _ _ _ _ Hs) as Hph. unfold phase in Hph.
  destruct (at_ thc); try (exfalso; lia); try done. destruct Hph as (-> & -> & Hec & _ & Hh).
  eexists. split; [done|]. split; [done|]. unfold handshake in Hh. lia.
Qed.

Lemma join_woken_ok s t th i a p c thc p1 :
  Inv s -> slot s i a p c thc -> procs s !! t = Some th -> can_join th a i ->
  joinsem p = 1 -> same_pcb p p1 -> JoinStatus p1 <> -1 ->
  joinsem p1 = 0 -> exitsem p1 = exitsem p -> exitcode p1 = exitcode p ->
  exists s' p', join_woken t i (set_pcbs s (<[a := p1]> (pcbs s))) = Ok (tt, s') /\ Inv s' /\
    s' = moved (set_pcbs s (<[a := p']> (pcbs s))) t th InProgram (if exitcode p =? 0 then 0 else -1) /\
    exitcode p' = exitcode p /\ joinsem p' = 0 /\ exitsem p' = (if exitcode p =? 0 then 1 else 0) /\ c <> t.
Proof.
  intros Hi Hs Ht Hcan Hj Hsame HJ Hj1 He1 Hc1.
  destruct (signalled _ _ _ _ _ _ Hs Hj) as (ec & Hat & Hec & Hes). pose proof (can_join_plain _ _ _ Hcan) as Hpl.
  assert (c <> t) as Hct.
  { intros ->. pose proof (sl_proc _ _ _ _ _ _ Hs). simplify_eq. rewrite Hat in Hpl. done. }
  set (s1 := set_pcbs s (<[a := p1]> (pcbs s))).
  assert (pcb_ptr i s1 = Ok (a, s1)) as Hptr by (apply pcb_ptr_ok, Hs).
  assert (pcb_at a s1 = Ok (p1, s1)) as Hat1 by apply pcb_at_put.
  unfold join_woken. rewrite (st_bind_Ok _ _ _ _ _ Hptr), (st_bind_Ok _ _ _ _ _ Hat1).
  unfold GetExitCode. rewrite Hc1.
  assert (forall p', same_pcb p p' -> exitcode p' = exitcode p -> JoinStatus p' <> -1 -> joinsem p' = 0 ->
    exitsem p' = (if exitcode p =? 0 then 1 else 0) ->
    forall v, Inv (moved (set_pcbs s (<[a := p']> (pcbs s))) t th InProgram v)) as Hinv.
  { intros p' Hsame' Hc' HJ' Hj' He' v. apply (inv_slot_update s i a p c thc p' t th); try done.
    - rewrite decide_False by done. unfold phase. rewrite Hat. split_and!; try done; [congruence|].
      rewrite Hj', He'. unfold handshake. destruct (Z.eqb_spec (exitcode p) 0); lia.
    - intros _ b q j Hq. by eapply slot_plain. }
  destruct (Z.eqb_spec (exitcode p) 0) as [E0|E0]; cbn [negb].
  - rewrite (st_bind_Ok _ _ _ _ _ Hptr). unfold ExitRelease.
    rewrite (st_bind_Ok _ _ _ tt (set_pcbs s (<[a := set_exitsem p1 (exitsem p1 + 1)]> (pcbs s)))).
    2:{ rewrite (st_bind_Ok _ _ _ _ _ Hat1). unfold put_pcb, s1. simpl. by rewrite insert_insert_eq. }
    rewrite (returns_ok _ _ th) by done. eexists _, (set_exitsem p1 (exitsem p1 + 1)).
    split; [done|]. split_and!; try done; simpl; [|lia].
    apply Hinv; try done; simpl; lia.
  - rewrite (returns_ok _ _ th) by done. eexists _, p1. split; [done|].
    split_and!; try done; [apply Hinv; try done|]; lia.
Qed.

(** The phase only looks at these members. *)
Lemma phase_ext a i p p' th :
  phase a i p th -> joinsem p' = joinsem p -> exitsem p' = exitsem p -> exitcode p' = exitcode p ->
  (JoinStatus p <> -1 -> JoinStatus p' <> -1) -> phase a i p' th.
Proof. unfold phase. intros Hp E1 E2 E3 HJ. rewrite E1, E2. destruct (at_ th); try done. rewrite E3. naive_solver. Qed.
Lemma slot_joinsem s i a p c thc : slot s i a p c thc -> joinsem p = 0 \/ joinsem p = 1.
Proof.
  intros Hs. pose proof (sl_phase _ _ _ _ _ _ Hs) as Hph. unfold phase, handshake in Hph.
  destruct (at_ thc); lia.
Qed.

Definition joined (p : PCB) : PCB := IncNumWait (set_JoinStatus p (parentID p)).

Lemma JoinUpdate_ok s t th i a p c thc :
  Inv s -> used s i -> slot s i a p c thc -> procs s !! t = Some th -> at_ th = InProgram ->
  exists s', JoinUpdate t i s = Ok (tt, s') /\ Inv s' /\
    (s' = moved s t th InProgram (-1) \/ exists p' pt v,
       s' = moved (set_pcbs s (<[a := p']> (pcbs s))) t th pt v /\ joinsem p' = 0) /\
    (processID th = parentID p -> joinsem p = 0 ->
       s' = moved (set_pcbs s (<[a := joined p]> (pcbs s))) t th (InJoin a i) (result th)) /\
    (processID th <> parentID p -> s' = moved s t th InProgram (-1)) /\
    (processID th = parentID p -> joinsem p = 1 -> exists p',
       s' = moved (set_pcbs s (<[a := p']> (pcbs s))) t th InProgram (if exitcode p =? 0 then 0 else -1) /\
       exitcode p' = exitcode p /\ joinsem p' = 0 /\ exitsem p' = (if exitcode p =? 0 then 1 else 0) /\ exitsem p = 0).
Proof.
  intros Hi [Hr Hbit] Hs Ht Hat. unfold JoinUpdate, MAXPROCESS in *.
  rewrite (proj2 (Z.leb_gt _ _)), (proj2 (Z.ltb_ge _ _)) by lia. cbn [orb].
  rewrite (st_bind_Ok _ _ _ (Some a) s).
  2:{ by rewrite (proj2 (rd_Ok _ _ _) (sl_ptr _ _ _ _ _ _ Hs)). }
  rewrite (st_bind_Ok _ _ _ _ _ (proc_at_ok _ _ _ Ht)).
  rewrite (st_bind_Ok _ _ _ _ _ (pcb_at_ok _ _ _ (sl_pcb _ _ _ _ _ _ Hs))).
  destruct (Z.eqb_spec (processID th) (parentID p)) as [E|E]; cbn [negb].
  2:{ rewrite (returns_ok _ _ _ _ Ht). eexists. split; [done|]. split; [|split; [by left|]; split; [done|]; by split].
      by apply inv_returns; [| |left]. }
  unfold JoinWait, P_joinsem. rewrite (st_bind_Ok _ _ _ _ _ (pcb_at_ok _ _ _ (sl_pcb _ _ _ _ _ _ Hs))).
  rewrite (st_bind_Ok _ _ _ tt (set_pcbs s (<[a := joined p]> (pcbs s)))) by done.
  rewrite (st_bind_Ok _ _ _ (joined p) (set_pcbs s (<[a := joined p]> (pcbs s)))).
  2:{ apply pcb_at_put. }
  pose proof (sl_parent _ _ _ _ _ _ Hs) as Hpar.
  change (joinsem (joined p)) with (joinsem p).
  destruct (slot_joinsem _ _ _ _ _ _ Hs) as [Hj|Hj]; rewrite Hj; cbn [Z.eqb].
  - rewrite (park_ok _ _ th) by done. eexists. split; [done|].
    split; [|split; [right; by eexists (joined p), _, _|]; split; [done|]; split; [done|]; intros _ Hx; congruence].
    apply (inv_slot_update s i a p c thc (joined p) t th); try done.
    + split_and!; try done. simpl. lia.
    + destruct (decide (c = t)) as [->|].
      * pose proof (sl_proc _ _ _ _ _ _ Hs). simplify_eq. apply (slot_plain _ _ _ _ _ _
          (mkProc (name th) (processID th) (InJoin a (pid p)) (result th)) Hs); [by rewrite Hat|done].
      * eapply phase_ext; [apply Hs|done|done|done|]. simpl. lia.
    + intros _ b q j Hq. eapply slot_plain; [done|by rewrite Hat|done].
    + split; [by split|]. split; [apply Hs|]. simpl. exists (joined p). rewrite lookup_insert_eq.
      split; [done|]. simpl. lia.
  - rewrite (st_bind_Ok _ _ _ tt (set_pcbs s (<[a := set_joinsem (joined p) 0]> (pcbs s)))).
    2:{ unfold put_pcb. simpl. by rewrite insert_insert_eq. }
    destruct (join_woken_ok s t th i a p c thc (set_joinsem (joined p) 0)) as (s' & p' & -> & Hi' & Heq & Hec' & Hj' & He' & _);
      try done; [by left|split_and!; try done; simpl; lia|simpl; lia|].
    eexists. split; [done|]. split; [done|]. split; [right; by eexists p', _, _|]. split; [lia|]. split; [done|].
    intros _ _. exists p'. destruct (signalled _ _ _ _ _ _ Hs Hj) as (ec & _ & _ & He0). by split_and!.
Qed.

Lemma sc_join_ok s t th i :
  Inv s -> procs s !! t = Some th -> at_ th = InProgram ->
  exists s', sc_join t i s = Ok (tt, s') /\ Inv s' /\ (~ used s i -> s' = moved s t th InProgram (-1)) /\
    (s' = moved s t th InProgram (-1) \/ exists a p c thc p' pt v, slot s i a p c thc /\
       s' = moved (set_pcbs s (<[a := p']> (pcbs s))) t th pt v /\ joinsem p' = 0).
Proof.
  intros Hi Ht Hat. unfold sc_join.
  assert (Inv (moved s t th InProgram (-1))) as Hm by (by apply inv_returns; [| |left]).
  destruct (Z.ltb_spec i 0), (Z.ltb_spec 9 i); cbn [orb];
    try (rewrite (returns_ok _ _ _ _ Ht); eexists; by auto).
  rewrite (st_bind_Ok _ _ _ _ _ (IsExist_ok s i Hi)).
  destruct (bool_decide_reflect (0 <= i < MAXPROCESS /\ bit (bm s) i = true)) as [[Hr Hb]|Hn]; cbn [negb];
    try (rewrite (returns_ok _ _ _ _ Ht); eexists; by auto).
  destruct (decide (i = 0)) as [->|Hi0].
  - unfold JoinUpdate. simpl. rewrite (returns_ok _ _ _ _ Ht). eexists. by auto.
  - assert (used s i) as Hu by (split; [lia|done]). destruct (i_slot _ Hi i Hu) as (a & p & c & thc & Hs).
    destruct (JoinUpdate_ok _ _ _ _ _ _ _ _ Hi Hu Hs Ht Hat) as (s' & Hj & Hi' & Hsh & _).
    exists s'. split_and!; try done. destruct Hsh as [?|(p' & pt & v & Heq & Hj0)]; [by left|right].
    by exists a, p, c, thc, p', pt, v.
Qed.

(** ** Exit *)

Lemma Remove_ok s i a p :
  wf (bm s) -> numBits (bm s) = MAXPROCESS -> 0 <= i < MAXPROCESS -> bit (bm s) i = true ->
  zget (pcb s) i = Some (Some a) -> pcbs s !! a = Some p ->
  exists b', wf b' /\ numBits b' = MAXPROCESS /\ (forall j, bit b' j = negb (j =? i) && bit (bm s) j) /\
    Remove i s = Ok (tt, set_procs (set_pcbs (set_bm s b') (delete a (pcbs s))) (lose a <$> procs s)).
Proof.
  intros Hwf Hn Hr Hb Hp Ha. unfold MAXPROCESS in *.
  destruct (Clear_spec (bm s) i Hwf) as (b' & Hc & Hwf' & Hn' & Hbits); [lia|].
  exists b'. split; [done|]. split; [congruence|]. split; [exact Hbits|].
  unfold Remove. rewrite (proj2 (Z.ltb_ge _ _)), (proj2 (Z.ltb_ge _ _)) by lia. cbn [orb].
  rewrite (st_bind_Ok _ _ _ true s) by (rewrite (Test_spec _ _ Hwf) by lia; by rewrite Hb).
  rewrite (st_bind_Ok _ _ _ tt (set_bm s b')) by (by rewrite Hc).
  rewrite (st_bind_Ok _ _ _ (Some a) (set_bm s b')) by (simpl; by rewrite (proj2 (rd_Ok _ _ _) Hp)).
  unfold delete_PCB. simpl. by rewrite Ha.
Qed.

Lemma lose_id a th : processID (lose a th) = processID th /\ name (lose a th) = name th.
Proof. unfold lose. by destruct (waits_in a (at_ th)). Qed.
(** The state after process [i], whose thread is [t], has been removed. *)
Definition removed (s : sys) (b' : BitMap) (t a : Z) (th : proc) (v : Z) : sys :=
  mkSys b' (pcb s) (psize s) (bmsem s) (delete a (pcbs s))
    (<[t := mkProc (name th) (processID th) InProgram v]> (lose a <$> procs s)).

Section removing.
Context (s : sys) (b' : BitMap) (i a : Z) (p : PCB) (t : Z) (th : proc) (v : Z).
Hypothesis Hi : Inv s.
Hypothesis Hs : slot s i a p t th.
Hypothesis Hu : used s i.
Hypothesis Hbits : forall j, bit b' j = negb (j =? i) && bit (bm s) j.
Let s' := removed s b' t a th v.

Lemma removed_used j : used s' j <-> used s j /\ j <> i.
Proof.
  unfold used, s'. simpl. rewrite Hbits, andb_true_iff, negb_true_iff, Z.eqb_neq. tauto.
Qed.
Lemma removed_slot j b q c thc : slot s j b q c thc -> j <> i -> slot s' j b q c (lose a thc).
Proof.
  intros Hc Hj. pose proof Hc as [H1 H2 H3 H4 H5 H6 H7 H8 H9].
  assert (b <> a) as Hba by (intros ->; by destruct (slot_inj _ _ _ _ _ _ _ _ _ _ Hs Hc)).
  assert (c <> t) as Hct.
  { intros ->. pose proof (sl_proc _ _ _ _ _ _ Hs). pose proof (sl_id _ _ _ _ _ _ Hs). congruence. }
  split; try done; simpl.
  - by rewrite lookup_delete_ne.
  - rewrite lookup_insert_ne, lookup_fmap, H7 by done. done.
  - by rewrite (proj1 (lose_id a thc)).
  - unfold lose. unfold phase in *. destruct (at_ thc) as [| | | |this j'|this j' ec|] eqn:E; simpl; rewrite ?E; try done.
    + by destruct (_ =? a); simpl; rewrite ?E.
    + by destruct (_ =? a); simpl; rewrite ?E.
    + destruct H9 as (-> & H9). rewrite (proj2 (Z.eqb_neq b a)) by done. by rewrite E.
Qed.
Lemma inv_removed : wf b' -> numBits b' = MAXPROCESS -> Inv s'.
Proof.
  intros Hwf Hn. split; simpl; try done; try apply Hi.
  - rewrite Hbits, (i_zero _ Hi). destruct Hu as [Hr _]. by rewrite (proj2 (Z.eqb_neq 0 i)) by lia.
  - intros j [Hj Hji]%removed_used. destruct (i_slot _ Hi j Hj) as (b & q & c & thc & Hc).
    exists b, q, c, (lose a thc). by apply removed_slot.
  - intros t0 th0 Ht0. destruct (decide (t0 = t)) as [->|Hne].
    { rewrite lookup_insert_eq in Ht0. injection Ht0 as <-. pose proof (i_thr _ Hi t th (sl_proc _ _ _ _ _ _ Hs)) as [? _].
      by split. }
    rewrite lookup_insert_ne, lookup_fmap in Ht0 by done.
    destruct (procs s !! t0) as [th1|] eqn:E; [|done]. injection Ht0 as <-.
    destruct (i_thr _ Hi _ _ E) as (Hpos & Hpl & Hown). destruct (lose_id a th1) as [Hid _].
    split; [by rewrite Hid|]. split.
    + unfold place_ok, lose in *. destruct (at_ th1) as [| | | |this j|this j ec|] eqn:Ea; simpl; rewrite ?Ea; try done.
      * destruct (Z.eqb_spec this a) as [|Hta]; simpl; rewrite ?Ea; [done|]. destruct Hpl as (Huj & Hz & q & Hq & HJ).
        split_and!; [|done|exists q; by rewrite lookup_delete_ne].
        apply removed_used. split; [done|]. intros ->. pose proof (sl_ptr _ _ _ _ _ _ Hs). congruence.
      * destruct (Z.eqb_spec this a); simpl; by rewrite ?Ea.
    + unfold owns. rewrite Hid. intros j Hj.
      assert (number_of (at_ th1) = Some j) as Hj1.
      { unfold lose in Hj. by destruct (waits_in a (at_ th1)). }
      destruct (Hown j Hj1) as (Hj' & Huj & b & q & Hq).
      assert (processID th1 <> i) as Hji.
      { intros Heq. rewrite Heq in Hq. by destruct (slot_fun _ _ _ _ _ _ _ _ _ _ Hs Hq) as (_ & _ & ? & _). }
      split; [done|]. split; [by apply removed_used|]. exists b, q. by apply removed_slot.
Qed.
End removing.

Lemma DecNumWait_same p : same_pcb p (DecNumWait p) /\ joinsem (DecNumWait p) = joinsem p /\
  exitsem (DecNumWait p) = exitsem p /\ exitcode (DecNumWait p) = exitcode p /\
  JoinStatus (DecNumWait p) = JoinStatus p.
Proof. unfold DecNumWait. destruct (negb _); done. Qed.

(** The end of [ExitUpdate], where only the PCB of the process may have
    changed since a state with the invariant. *)
Lemma exit_removed_ok s i a p t th p' v :
  Inv s -> slot s i a p t th -> used s i ->
  exists b', exit_removed t i v (set_pcbs s (<[a := p']> (pcbs s))) =
    Ok (tt, removed s b' t a th v) /\ Inv (removed s b' t a th v) /\
    (forall j, bit b' j = negb (j =? i) && bit (bm s) j).
Proof.
  intros Hi Hs Hu. set (s1 := set_pcbs s (<[a := p']> (pcbs s))). pose proof Hu as [Hr Hb].
  destruct (Remove_ok s1 i a p') as (b' & Hwf & Hn & Hbits & Hrem);
    [apply Hi|apply Hi|unfold MAXPROCESS in *; lia|done|apply Hs|by apply lookup_insert_eq|].
  exists b'. split_and!; [|by eapply inv_removed|done].
  assert ((lose a <$> procs s) !! t = Some (lose a th)) as Hl.
  { rewrite lookup_fmap. by rewrite (sl_proc _ _ _ _ _ _ Hs). }
  unfold exit_removed. rewrite (st_bind_Ok _ _ _ _ _ Hrem), (returns_ok _ _ (lose a th)) by done.
  unfold moved, removed, s1. simpl. rewrite delete_insert_eq. by destruct (lose_id a th) as [-> ->].
Qed.

Definition exiting (p : PCB) (ec : Z) : PCB :=
  set_joinsem (DecNumWait (SetExitCode p ec)) (joinsem (DecNumWait (SetExitCode p ec)) + 1).

Lemma ExitUpdate_eq s t th ec a p :
  Inv s -> procs s !! t = Some th -> processID th <> 0 -> used s (processID th) ->
  slot s (processID th) a p t th ->
  ExitUpdate t ec s =
    (if negb (JoinStatus p =? -1) then
       JoinRelease a;; this ← pcb_ptr (processID th);
       ExitWait t this (InExit this (processID th) ec) (exit_removed t (processID th) ec)
     else exit_removed t (processID th) ec) (set_pcbs s (<[a := SetExitCode p ec]> (pcbs s))).
Proof.
  intros Hi Ht H0 [Hr Hb] Hs. unfold ExitUpdate.
  rewrite (st_bind_Ok _ _ _ _ _ (proc_at_ok _ _ _ Ht)), (st_bind_Ok _ _ _ _ _ (IsExist_ok s _ Hi)).
  rewrite bool_decide_true by (split; [lia|done]). cbn [negb].
  rewrite (proj2 (Z.eqb_neq _ _) H0), (st_bind_Ok _ _ _ _ _ (pcb_ptr_ok _ _ _ (sl_ptr _ _ _ _ _ _ Hs))).
  rewrite (st_bind_Ok _ _ _ _ _ (pcb_at_ok _ _ _ (sl_pcb _ _ _ _ _ _ Hs))).
  rewrite (st_bind_Ok (put_pcb a (SetExitCode p ec)) _ s tt
    (set_pcbs s (<[a := SetExitCode p ec]> (pcbs s)))) by done.
  rewrite (st_bind_Ok _ _ _ (SetExitCode p ec) (set_pcbs s (<[a := SetExitCode p ec]> (pcbs s)))); [done|].
  apply pcb_at_put.
Qed.

Lemma exit_waits s t th ec a p :
  Inv s -> procs s !! t = Some th -> at_ th = InProgram -> processID th <> 0 -> used s (processID th) ->
  slot s (processID th) a p t th -> JoinStatus p <> -1 ->
  let s' := moved (set_pcbs s (<[a := exiting p ec]> (pcbs s))) t th
              (InExit a (processID th) ec) (result th) in
  ExitUpdate t ec s = Ok (tt, s') /\ Inv s'.
Proof.
  intros Hi Ht Hat H0 Hu Hs HJ s'. destruct (DecNumWait_same (SetExitCode p ec)) as ((Hd1 & Hd2 & Hd3 & Hd4 & _) & Hd5 & Hd6 & Hd7 & Hd8).
  pose proof (proj1 (phase_plain a (processID th) p th ltac:(by rewrite Hat)) (sl_phase _ _ _ _ _ _ Hs)) as [Hj He].
  split.
  - rewrite (ExitUpdate_eq s t th ec a p) by done. rewrite (proj2 (Z.eqb_neq _ _) HJ). cbn [negb].
    set (s1 := set_pcbs s _). set (s2 := set_pcbs s (<[a := exiting p ec]> (pcbs s))).
    assert (JoinRelease a s1 = Ok (tt, s2)) as Hrel.
    { unfold JoinRelease. rewrite (st_bind_Ok _ _ _ (SetExitCode p ec) s1) by apply pcb_at_put.
      unfold mbind, st_bind, put_pcb, pcb_at. simpl. rewrite !lookup_insert_eq. rewrite insert_insert_eq. unfold s2, set_pcbs. simpl. by rewrite insert_insert_eq. }
    rewrite (st_bind_Ok _ _ _ _ _ Hrel), (st_bind_Ok _ _ _ a s2) by (apply pcb_ptr_ok, Hs).
    unfold ExitWait, P_exitsem. rewrite (st_bind_Ok _ _ _ (exiting p ec) s2) by apply pcb_at_put.
    replace (exitsem (exiting p ec)) with 0 by (unfold exiting; simpl; rewrite Hd6; simpl; lia). simpl.
    by rewrite (park_ok _ _ th).
  - apply (inv_slot_update s (processID th) a p t th (exiting p ec) t th); try done.
    + split_and!; simpl in *; congruence.
    + intros j [= <-]. split; [done|]. split; [done|]. eauto.
    + rewrite decide_True by done. unfold phase. simpl. rewrite Hd5, Hd6, Hd7, Hd8. simpl.
      split_and!; try done. unfold handshake. lia.
Qed.

Lemma exit_leaves s t th ec a p :
  Inv s -> procs s !! t = Some th -> processID th <> 0 -> used s (processID th) ->
  slot s (processID th) a p t th -> JoinStatus p = -1 ->
  exists b', ExitUpdate t ec s = Ok (tt, removed s b' t a th ec) /\
    Inv (removed s b' t a th ec) /\ (forall j, bit b' j = negb (j =? processID th) && bit (bm s) j).
Proof.
  intros Hi Ht H0 Hu Hs HJ.
  destruct (exit_removed_ok s (processID th) a p t th (SetExitCode p ec) ec Hi Hs Hu) as (b' & Hr & Hb').
  exists b'. split; [|done]. pose proof (ExitUpdate_eq s t th ec a p Hi Ht H0 Hu Hs) as Heq.
  rewrite HJ in Heq. by rewrite Heq.
Qed.

(** The number has been given up by an earlier [Exit] and nobody has it. *)
Lemma exit_again s t th ec :
  Inv s -> procs s !! t = Some th -> processID th <> 0 -> ~ used s (processID th) ->
  ExitUpdate t ec s = Ok (tt, moved s t th InProgram (-1)).
Proof.
  intros Hi Ht H0 Hu. unfold ExitUpdate. rewrite (st_bind_Ok _ _ _ _ _ (proc_at_ok _ _ _ Ht)).
  rewrite (st_bind_Ok _ _ _ _ _ (IsExist_ok s _ Hi)), bool_decide_false; [by apply returns_ok|].
  intros [Hr Hb]. apply Hu. split; [unfold MAXPROCESS in *; lia|done].
Qed.
Lemma exit_main s t th ec :
  Inv s -> procs s !! t = Some th -> processID th = 0 -> ExitUpdate t ec s = Halted.
Proof.
  intros Hi Ht H0. unfold ExitUpdate. rewrite (st_bind_Ok _ _ _ _ _ (proc_at_ok _ _ _ Ht)), H0.
  rewrite (st_bind_Ok _ _ _ _ _ (IsExist_ok s 0 Hi)). by rewrite bool_decide_true by (split; [done|apply Hi]).
Qed.

(** ** Resuming *)

Lemma moved_id s t th : procs s !! t = Some th -> moved s t th (at_ th) (result th) = s.
Proof.
  intros Ht. unfold moved. destruct th. simpl in *. rewrite insert_id by done. by destruct s.
Qed.

Lemma join_resume_ok opens s t th a nt this i :
  Inv s -> procs s !! t = Some th -> at_ th = InJoin this i ->
  exists p c thc, used s i /\ slot s i this p c thc /\
    (joinsem p = 0 -> resume opens t a nt (at_ th) s = Ok (tt, s)) /\
    (joinsem p = 1 -> exists s' p', resume opens t a nt (at_ th) s = Ok (tt, s') /\ Inv s' /\
       s' = moved (set_pcbs s (<[this := p']> (pcbs s))) t th InProgram (if exitcode p =? 0 then 0 else -1) /\
       exitcode p' = exitcode p /\ joinsem p' = 0 /\ exitsem p' = (if exitcode p =? 0 then 1 else 0) /\ c <> t).
Proof.
  intros Hi Ht Hat. destruct (i_thr _ Hi _ _ Ht) as (_ & Hpl & _). unfold place_ok in Hpl. rewrite Hat in Hpl.
  destruct Hpl as (Hu & Hz & q & Hq & HJ). destruct (i_slot _ Hi i Hu) as (b & p & c & thc & Hs).
  pose proof (sl_ptr _ _ _ _ _ _ Hs) as Hz'. assert (b = this) as -> by congruence.
  pose proof (sl_pcb _ _ _ _ _ _ Hs) as Hp. assert (q = p) as -> by congruence.
  exists p, c, thc. split; [done|]. split; [done|]. rewrite Hat. cbn [resume]. unfold P_joinsem.
  rewrite (st_bind_Ok _ _ _ _ _ (pcb_at_ok _ _ _ Hp)). split; intros Hj; rewrite Hj; cbn [Z.eqb].
  - rewrite (park_ok _ _ _ _ Ht), <-Hat. by rewrite moved_id.
  - rewrite (st_bind_Ok _ _ _ tt (set_pcbs s (<[this := set_joinsem p 0]> (pcbs s)))) by done.
    apply (join_woken_ok s t th i this p c thc); try done. by right.
Qed.

Lemma exit_resume_ok opens s t th a nt this i ec :
  Inv s -> procs s !! t = Some th -> at_ th = InExit this i ec ->
  exists p, used s i /\ slot s i this p t th /\
    (exitsem p = 0 -> resume opens t a nt (at_ th) s = Ok (tt, s)) /\
    (exitsem p <> 0 -> exists b', resume opens t a nt (at_ th) s =
       Ok (tt, removed s b' t this th ec) /\ Inv (removed s b' t this th ec) /\
       (forall j, bit b' j = negb (j =? i) && bit (bm s) j)).
Proof.
  intros Hi Ht Hat. destruct (i_thr _ Hi _ _ Ht) as (_ & _ & Hown).
  destruct (Hown i ltac:(by rewrite Hat)) as (Hid & Hu & b & p & Hs).
  rewrite Hid in *. pose proof (sl_phase _ _ _ _ _ _ Hs) as Hph. unfold phase in Hph. rewrite Hat in Hph.
  destruct Hph as (<- & _). pose proof (sl_pcb _ _ _ _ _ _ Hs) as Hp.
  exists p. split; [done|]. split; [done|]. rewrite Hat. cbn [resume]. unfold P_exitsem.
  split; intros He.
  - rewrite (st_bind_Ok _ _ _ _ _ (pcb_at_ok _ _ _ Hp)), He. cbn [Z.eqb].
    rewrite (park_ok _ _ _ _ Ht), <-Hat. by rewrite moved_id.
  - destruct (exit_removed_ok s i this p t th (set_exitsem p (exitsem p - 1)) ec Hi Hs Hu) as (b' & Hr & Hb').
    exists b'. split; [|done]. rewrite <-Hr.
    by rewrite (st_bind_Ok _ _ _ _ _ (pcb_at_ok _ _ _ Hp)), (proj2 (Z.eqb_neq _ _) He).
Qed.

Lemma start_ok s t th i :
  Inv s -> procs s !! t = Some th -> at_ th = Starting i ->
  MyStartProcess t i s = Ok (name th, moved s t th InProgram (result th)) /\
  Inv (moved s t th InProgram (result th)).
Proof.
  intros Hi Ht Hat. destruct (i_thr _ Hi _ _ Ht) as (_ & _ & Hown).
  destruct (Hown i ltac:(by rewrite Hat)) as (Hid & [Hr Hb] & b & p & Hs).
  rewrite Hid in *. split; [|apply inv_returns; eauto].
  assert (GetName i s = Ok (name th, s)) as Hg.
  { unfold GetName. rewrite (st_bind_Ok _ _ _ true s).
    2:{ unfold MAXPROCESS in *. rewrite (proj2 (Z.leb_le _ _)), (proj2 (Z.ltb_lt _ _)) by lia. cbn [andb].
        rewrite (Test_spec _ _ (i_wf _ Hi)) by (rewrite (i_bits _ Hi); unfold MAXPROCESS; lia). by rewrite Hb. }
    rewrite (st_bind_Ok _ _ _ _ _ (pcb_ptr_ok _ _ _ (sl_ptr _ _ _ _ _ _ Hs))). unfold GetNameThread.
    rewrite (st_bind_Ok _ _ _ _ _ (pcb_at_ok _ _ _ (sl_pcb _ _ _ _ _ _ Hs))), (sl_thread _ _ _ _ _ _ Hs).
    by rewrite (st_bind_Ok _ _ _ _ _ (proc_at_ok _ _ _ Ht)). }
  unfold MyStartProcess. rewrite (st_bind_Ok _ _ _ _ _ Hg).
  by rewrite (st_bind_Ok _ _ _ _ _ (park_ok _ _ _ _ Ht)).
Qed.

(** ** Exec *)

(** The state after process [ID] has been created for [filename]. *)
Definition created (s : sys) (b' : BitMap) (t a nt : Z) (th : proc) (ID : Z) (f : list Z) : sys :=
  mkSys b' (zset (pcb s) ID (Some a)) (psize s) 1
    (<[a := set_thread (new_PCB ID (processID th)) (Some nt)]> (pcbs s))
    (<[t := mkProc (name th) (processID th) InProgram ID]> (<[nt := mkProc f ID (Starting ID) 0]> (procs s))).

Section creating.
Context (s : sys) (b' : BitMap) (t a nt : Z) (th : proc) (ID : Z) (f : list Z).
Hypothesis Hi : Inv s.
Hypothesis Ht : procs s !! t = Some th.
Hypothesis Hat : at_ th = InProgram.
Hypothesis Ha : pcbs s !! a = None.
Hypothesis Hnt : procs s !! nt = None.
Hypothesis HID : 1 <= ID < MAXPROCESS.
Hypothesis Hfree : bit (bm s) ID = false.
Hypothesis Hbits : forall j, bit b' j = (j =? ID) || bit (bm s) j.
Let s' := created s b' t a nt th ID f.

Lemma created_ne : t <> nt.
Proof. intros ->. congruence. Qed.
Lemma created_used j : used s' j <-> used s j \/ j = ID.
Proof.
  unfold used, s'. simpl. rewrite Hbits, orb_true_iff, Z.eqb_eq. naive_solver lia.
Qed.
(** A thread that was there, as it is now. *)
Definition after_exec (c : Z) (thc : proc) : proc :=
  if decide (c = t) then mkProc (name th) (processID th) InProgram ID else thc.
Lemma created_proc c thc : procs s !! c = Some thc -> procs s' !! c = Some (after_exec c thc).
Proof.
  intros Hc. simpl. unfold after_exec. destruct (decide (c = t)) as [->|].
  - by rewrite lookup_insert_eq.
  - rewrite !lookup_insert_ne; [done|congruence|done].
Qed.
Lemma created_slot j b q c thc : slot s j b q c thc -> used s j -> slot s' j b q c (after_exec c thc).
Proof.
  intros Hc Hu. pose proof Hc as [H1 H2 H3 H4 H5 H6 H7 H8 H9].
  assert (j <> ID) as Hj by (intros ->; destruct Hu; congruence). split; try done.
  - simpl. by rewrite zget_zset_ne.
  - simpl. rewrite lookup_insert_ne; [done|congruence].
  - by apply created_proc.
  - unfold after_exec. destruct (decide (c = t)) as [->|]; [simpl; congruence|done].
  - unfold after_exec. destruct (decide (c = t)) as [->|]; [|done]. simplify_eq.
    by eapply (slot_plain _ _ _ _ _ _ _ Hc); [rewrite Hat|].
Qed.
Lemma created_new_slot : slot s' ID a (set_thread (new_PCB ID (processID th)) (Some nt)) nt
    (mkProc f ID (Starting ID) 0).
Proof.
  destruct (i_thr _ Hi _ _ Ht) as (Hpos & _). pose proof created_ne.
  split; try done; simpl.
  - apply zget_zset_eq. rewrite (i_len _ Hi). lia.
  - by rewrite lookup_insert_eq.
  - rewrite (proj2 (Z.eqb_neq ID 0)) by lia. done.
  - rewrite lookup_insert_ne by done. by rewrite lookup_insert_eq.
Qed.
Lemma inv_created : wf b' -> numBits b' = MAXPROCESS -> Inv s'.
Proof.
  intros Hwf Hn. split; try done; simpl.
  - rewrite zlen_zset. apply Hi.
  - rewrite Hbits, (i_zero _ Hi). by rewrite orb_true_r.
  - intros j [Hj| ->]%created_used.
    + destruct (i_slot _ Hi j Hj) as (b & q & c & thc & Hc). exists b, q, c, (after_exec c thc). by apply created_slot.
    + eauto using created_new_slot.
  - intros t0 th0 Ht0. destruct (decide (t0 = nt)) as [->|Hne].
    { pose proof created_ne. rewrite lookup_insert_ne, lookup_insert_eq in Ht0 by done. injection Ht0 as <-.
      split; [simpl; lia|]. split; [done|]. intros j [= <-]. split; [done|]. unfold owns. simpl.
      split; [by apply created_used; right|]. eauto using created_new_slot. }
    assert (exists th1, procs s !! t0 = Some th1 /\ th0 = after_exec t0 th1) as (th1 & E & ->).
    { unfold after_exec. destruct (decide (t0 = t)) as [->|].
      - rewrite lookup_insert_eq in Ht0. injection Ht0 as <-. eauto.
      - rewrite !lookup_insert_ne in Ht0 by done. eauto. }
    destruct (i_thr _ Hi _ _ E) as (Hpos & Hpl & Hown).
    assert (processID (after_exec t0 th1) = processID th1 /\
      (forall j, number_of (at_ (after_exec t0 th1)) = Some j -> number_of (at_ th1) = Some j)) as [Hid Hlv].
    { unfold after_exec. destruct (decide (t0 = t)) as [->|]; [|done]. by simplify_eq. }
    split; [by rewrite Hid|]. split.
    + unfold after_exec. destruct (decide (t0 = t)); [done|]. unfold place_ok in *.
      destruct (at_ th1) as [| | | |this j| |]; try done. destruct Hpl as (Hu & Hz & q & Hq & HJ).
      assert (j <> ID) by (intros ->; destruct Hu; congruence). split_and!; [apply created_used; by left| |].
      * simpl. by rewrite zget_zset_ne.
      * exists q. simpl. rewrite lookup_insert_ne; [done|congruence].
    + unfold owns. rewrite Hid. intros j Hj. destruct (Hown j (Hlv j Hj)) as (Hj' & Hu & b & q & Hq).
      split; [done|]. split; [apply created_used; by left|]. exists b, q. by apply created_slot.
Qed.
End creating.

Lemma exec_refused_eq s t th v :
  Inv s -> procs s !! t = Some th ->
  (V_bmsem;; returns t v) (set_bmsem s (bmsem s - 1)) = Ok (tt, moved s t th InProgram v).
Proof.
  intros Hi Ht. rewrite (st_bind_Ok _ _ _ tt s).
  - by apply returns_ok.
  - unfold V_bmsem. simpl. replace (bmsem s - 1 + 1) with (bmsem s) by lia. by destruct s.
Qed.

Lemma ExecUpdate_ok opens s t a nt th f :
  Inv s -> procs s !! t = Some th -> at_ th = InProgram -> pcbs s !! a = None -> procs s !! nt = None ->
  (opens f = false \/ f = name th \/ (forall i, used s i <-> 1 <= i < MAXPROCESS) ->
     ExecUpdate opens t a nt f s = Ok (tt, moved s t th InProgram (-1))) /\
  (opens f = true -> f <> name th -> (exists i, 1 <= i < MAXPROCESS /\ ~ used s i) ->
     exists ID b', ExecUpdate opens t a nt f s = Ok (tt, created s b' t a nt th ID f) /\
       1 <= ID < MAXPROCESS /\ bit (bm s) ID = false /\ (forall j, 1 <= j < ID -> used s j) /\
       (forall j, bit b' j = (j =? ID) || bit (bm s) j) /\ Inv (created s b' t a nt th ID f)).
Proof.
  intros Hi Ht Hat Ha Hnt. unfold ExecUpdate, P_bmsem. pose proof (i_bmsem _ Hi) as Hv.
  rewrite (st_bind_Ok (get bmsem) _ s _ s eq_refl), Hv. cbn [Z.eqb].
  set (s1 := set_bmsem s (1 - 1)).
  rewrite (st_bind_Ok _ _ _ tt s1) by done. unfold exec_checked.
  rewrite (st_bind_Ok _ _ _ _ _ (proc_at_ok s1 t th Ht)).
  assert (forall v, (V_bmsem;; returns t v) s1 = Ok (tt, moved s t th InProgram v)) as Href.
  { intros v. pose proof (exec_refused_eq s t th v Hi Ht) as He. by rewrite Hv in He. }
  destruct (opens f) eqn:Eo; cbn [negb]; [|split; [intros _; apply Href|done]].
  destruct (bool_decide_reflect (f = name th)) as [Ef|Ef]; [split; [intros _; apply Href|done]|].
  destruct (Find_cases _ (i_wf _ Hi)) as [[Hall Hf]|(k & b1 & Hf & Hwf1 & Hn1 & Hk & Hbk & Hlt & Hb1)].
  - rewrite (st_bind_Ok _ _ _ (-1) s1).
    2:{ unfold GetFreeSlot. simpl. rewrite FindFreeSlot_Find, Hf. by destruct s. }
    cbn [Z.eqb]. split; [intros _; apply Href|]. intros _ _ (i & Hr & Hn). exfalso. apply Hn.
    split; [done|]. apply Hall. rewrite (i_bits _ Hi). lia.
  - assert (k <> 0) as Hk0 by (intros ->; rewrite (i_zero _ Hi) in Hbk; done).
    rewrite (i_bits _ Hi) in Hk. rewrite (st_bind_Ok _ _ _ k (set_bm s1 b1)).
    2:{ unfold GetFreeSlot. simpl. by rewrite FindFreeSlot_Find, Hf. }
    rewrite (proj2 (Z.eqb_neq k (-1))) by lia. split.
    { intros [?|[?|Hu]]; [done|done|]. destruct (proj2 (Hu k)) as [_ ?]; [lia|congruence]. }
    intros _ _ _. destruct (Mark_spec b1 k Hwf1) as (b2 & Hm & Hwf2 & Hn2 & Hb2); [rewrite Hn1, (i_bits _ Hi); lia|].
    set (p0 := new_PCB k (processID th)). set (s2 := set_pcbs (set_bm s1 b1) (<[a := p0]> (pcbs s))).
    rewrite (st_bind_Ok _ _ _ tt s2) by done.
    rewrite (st_bind_Ok _ _ _ tt (set_pcb s2 (zset (pcb s) k (Some a)))).
    2:{ simpl. rewrite wr_Ok; [done|]. rewrite (i_len _ Hi). lia. }
    set (s3 := set_bm (set_pcb s2 (zset (pcb s) k (Some a))) b2).
    rewrite (st_bind_Ok _ _ _ tt s3) by (simpl; by rewrite Hm).
    rewrite (st_bind_Ok _ _ _ a s3).
    2:{ apply pcb_ptr_ok. simpl. apply zget_zset_eq. rewrite (i_len _ Hi). lia. }
    exists k, b2. split_and!; try done; try lia.
    + unfold PCB_Exec, P_mutex. rewrite (st_bind_Ok _ _ _ p0 s3) by (apply pcb_at_ok; simpl; by rewrite lookup_insert_eq).
      cbn [mutex p0 new_PCB Z.eqb]. unfold exec_locked, exec_fork, exec_unlock, V_mutex, V_bmsem, returns.
      unfold mbind, st_bind, put_pcb, put_proc, pcb_at, proc_at. simpl. rewrite !lookup_insert_eq. simpl.
      rewrite !lookup_insert_eq. simpl. rewrite lookup_insert_ne, Ht by congruence. simpl.
      unfold created. by rewrite !insert_insert_eq.
    + intros j Hj. split; [lia|]. apply Hlt. lia.
    + intros j. rewrite Hb2, Hb1. by destruct (j =? k).
    + apply inv_created; try done; [lia| |rewrite Hn2, Hn1; apply Hi].
      intros j. rewrite Hb2, Hb1. by destruct (j =? k).
Qed.

Lemma table_full s : Inv s -> clear_items (bm s) = [] -> forall i, used s i <-> 1 <= i < MAXPROCESS.
Proof.
  intros Hi Hc i. split; [by intros []|]. intros Hr. split; [done|].
  apply (proj1 (clear_items_nil (bm s)) Hc). rewrite (i_bits _ Hi). lia.
Qed.
Lemma table_not_full s : Inv s -> clear_items (bm s) <> [] -> exists i, 1 <= i < MAXPROCESS /\ ~ used s i.
Proof.
  intros Hi Hc. destruct (clear_items (bm s)) as [|i l] eqn:El; [done|]. exists i.
  assert (i ∈ clear_items (bm s)) as [Hr Hb]%elem_of_clear_items by (rewrite El; set_solver).
  rewrite (i_bits _ Hi) in Hr. pose proof (i_zero _ Hi).
  split; [destruct (decide (i = 0)) as [->|]; [congruence|lia]|]. intros [_ ?]. congruence.
Qed.

(** Every step that can happen returns, or halts the machine because the main
    process exits, and keeps the invariant. *)
Lemma run_op_safe opens o :
  safe (fun s => Inv s /\ enabled o s) (run_op opens o) (fun _ => Inv).
Proof.
  intros s [Hi He]. destruct o as [t a nt f|t i|t i|t ec|t a nt]; cbn [enabled run_op] in *.
  - destruct He as ((th & Ht & Hat) & Ha & Hnt).
    destruct (ExecUpdate_ok opens s t a nt th f Hi Ht Hat Ha Hnt) as [Hno Hyes].
    assert (Inv (moved s t th InProgram (-1))) by (by apply inv_returns; [| |left]).
    destruct (opens f) eqn:Eo; [|by rewrite Hno by auto].
    destruct (decide (f = name th)) as [Ef|Ef]; [by rewrite Hno by auto|].
    destruct (decide (clear_items (bm s) = [])) as [Hc|Hc].
    + rewrite Hno; [done|]. right. right. by apply table_full.
    + by destruct Hyes as (ID & b' & -> & _ & _ & _ & _ & Hinv); [done|done|apply table_not_full|].
  - destruct He as (th & Ht & Hat). destruct (start_ok s t th i Hi Ht Hat) as [Heq Hinv].
    by rewrite (st_bind_Ok _ _ _ _ _ Heq).
  - destruct He as (th & Ht & Hat). by destruct (sc_join_ok s t th i Hi Ht Hat) as (s' & -> & ? & _).
  - destruct He as (th & Ht & Hat & Hown). destruct (decide (processID th = 0)) as [H0|H0].
    { by rewrite (exit_main s t th ec Hi Ht H0). }
    destruct (decide (used s (processID th))) as [Hu|Hu].
    2:{ rewrite (exit_again s t th ec Hi Ht H0 Hu). by apply inv_returns; [| |left]. }
    destruct (own_number_owns s t th Hi Ht Hown Hu) as (_ & a & p & Hs).
    destruct (decide (JoinStatus p = -1)) as [HJ|HJ].
    + by destruct (exit_leaves s t th ec a p Hi Ht H0 Hu Hs HJ) as (b' & -> & ? & _).
    + by destruct (exit_waits s t th ec a p Hi Ht Hat H0 Hu Hs HJ) as [-> ?].
  - destruct He as ((th & Ht & Hw) & Ha & Hnt). rewrite (st_bind_Ok _ _ _ _ _ (proc_at_ok _ _ _ Ht)).
    destruct (i_thr _ Hi _ _ Ht) as (_ & Hpl & _). unfold place_ok in Hpl.
    destruct (at_ th) as [| | | |this i|this i ec|] eqn:Hat; try done.
    + destruct (join_resume_ok opens s t th a nt this i Hi Ht Hat) as (p & c & thc & Hu & Hs & H0 & H1).
      rewrite Hat in *. destruct (slot_joinsem _ _ _ _ _ _ Hs) as [Hj|Hj]; [by rewrite (H0 Hj)|].
      by destruct (H1 Hj) as (s' & p' & -> & Hinv & _).
    + destruct (exit_resume_ok opens s t th a nt this i ec Hi Ht Hat) as (p & Hu & Hs & H0 & H1).
      rewrite Hat in *. destruct (decide (exitsem p = 0)) as [E|E]; [by rewrite (H0 E)|].
      by destruct (H1 E) as (b' & -> & Hinv & _).
Qed.

Lemma steps_inv opens s0 s : Inv s0 -> reachable opens s0 s -> Inv s.
Proof.
  intros H0. induction 1 as [|s o s' _ IH He Hr]; [done|].
  pose proof (run_op_safe opens o s (conj IH He)) as Hs. by rewrite Hr in Hs.
Qed.

(** ** A child that exits with a nonzero code *)

(** Child [c] of slot [i] waits in [ExitWait] after [Exit(ec)], [ec] is not
    zero, and the unit of [joinsem] has been taken. *)
Definition stuck (s : sys) (i c ec : Z) : Prop :=
  ec <> 0 /\ used s i /\ exists this p th,
    slot s i this p c th /\ at_ th = InExit this i ec /\ joinsem p = 0.

(** Other PCBs and other threads do not matter to a slot. *)
Lemma slot_frame s i b q c thc a p' t th pt v :
  slot s i b q c thc -> a <> b -> t <> c -> slot (moved (set_pcbs s (<[a := p']> (pcbs s))) t th pt v) i b q c thc.
Proof.
  intros [] Ha Ht. split; try done; simpl; by rewrite lookup_insert_ne.
Qed.
Lemma slot_frame_thread s i b q c thc t th pt v :
  slot s i b q c thc -> t <> c -> slot (moved s t th pt v) i b q c thc.
Proof. intros [] Ht. split; try done; simpl; by rewrite lookup_insert_ne. Qed.

(** A call that changes at most one PCB, and that only in a way that leaves
    its [joinsem] empty, and one thread other than [c]. *)
Lemma stuck_moved s i c ec t th pt v :
  stuck s i c ec -> t <> c -> stuck (moved s t th pt v) i c ec.
Proof.
  intros (Hec & Hu & this & p & thc & Hs & Hat & Hj) Ht. split; [done|]. split; [exact Hu|].
  exists this, p, thc. split; [by apply slot_frame_thread|done].
Qed.
Lemma stuck_updated s i c ec j a p d thd p' t th pt v :
  stuck s i c ec -> t <> c -> slot s j a p d thd -> joinsem p' = 0 ->
  Inv (moved (set_pcbs s (<[a := p']> (pcbs s))) t th pt v) ->
  stuck (moved (set_pcbs s (<[a := p']> (pcbs s))) t th pt v) i c ec.
Proof.
  intros (Hec & Hu & this & q & thc & Hs & Hat & Hj) Ht Hd Hj' Hinv. split; [done|]. split; [exact Hu|].
  destruct (decide (a = this)) as [->|Ha].
  - destruct (i_slot _ Hinv i Hu) as (b & q' & c' & thc' & Hs').
    pose proof (sl_ptr _ _ _ _ _ _ Hs) as Hp. pose proof (sl_ptr _ _ _ _ _ _ Hs') as Hp'. simpl in Hp'.
    assert (b = this) as -> by congruence. pose proof (sl_pcb _ _ _ _ _ _ Hs') as Hq'. simpl in Hq'.
    rewrite lookup_insert_eq in Hq'. injection Hq' as <-.
    assert (procs (moved (set_pcbs s (<[this := p']> (pcbs s))) t th pt v) !! c = Some thc) as Hc.
    { simpl. rewrite lookup_insert_ne by done. apply Hs. }
    destruct (i_thr _ Hinv c thc Hc) as (_ & _ & Hown).
    destruct (Hown i ltac:(by rewrite Hat)) as (_ & _ & b & r & Hr). rewrite (sl_id _ _ _ _ _ _ Hs) in Hr.
    destruct (slot_fun _ _ _ _ _ _ _ _ _ _ Hs' Hr) as (-> & -> & -> & ->). by exists b, r, thc.
  - exists this, q, thc. split; [by apply slot_frame|done].
Qed.
Lemma stuck_removed s i c ec b' t a j p th v :
  stuck s i c ec -> slot s j a p t th -> t <> c -> (forall k, bit b' k = negb (k =? j) && bit (bm s) k) ->
  stuck (removed s b' t a th v) i c ec.
Proof.
  intros (Hec & Hu & this & q & thc & Hs & Hat & Hj) Ht Htc Hb.
  assert (i <> j) as Hij by (intros ->; by destruct (slot_fun _ _ _ _ _ _ _ _ _ _ Hs Ht) as (_ & _ & ? & _)).
  assert (this <> a) as Ha by (intros ->; by destruct (slot_inj _ _ _ _ _ _ _ _ _ _ Hs Ht) as (_ & _ & ? & _)).
  split; [done|]. split; [by eapply removed_used|]. exists this, q, (lose a thc).
  split; [by eapply removed_slot|]. unfold lose. rewrite Hat. simpl.
  rewrite (proj2 (Z.eqb_neq this a)) by done. done.
Qed.

Lemma stuck_in_program s i c ec t th : stuck s i c ec -> procs s !! t = Some th -> at_ th = InProgram -> t <> c.
Proof.
  intros (_ & _ & this & p & thc & Hs & Hat & _) Ht Hin ->. pose proof (sl_proc _ _ _ _ _ _ Hs). congruence.
Qed.

Lemma stuck_exec opens s i c ec t a nt f th s' :
  Inv s -> stuck s i c ec -> procs s !! t = Some th -> at_ th = InProgram ->
  pcbs s !! a = None -> procs s !! nt = None ->
  ExecUpdate opens t a nt f s = Ok (tt, s') -> stuck s' i c ec.
Proof.
  intros Hi Hst Ht Hat Ha Hnt Hr. pose proof (stuck_in_program _ _ _ _ _ _ Hst Ht Hat) as Htc.
  destruct (ExecUpdate_ok opens s t a nt th f Hi Ht Hat Ha Hnt) as [Hno Hyes].
  destruct (decide (opens f = false \/ f = name th \/ clear_items (bm s) = [])) as [Hd|Hd].
  - rewrite Hno in Hr; [injection Hr as <-; by apply stuck_moved|].
    destruct Hd as [?|[?|Hc]]; [by left|by right; left|]. right. right. by apply table_full.
  - destruct Hyes as (ID & b' & Hx & HID & Hfree & _ & Hb & _).
    { destruct (opens f); tauto. }
    { tauto. }
    { apply table_not_full; tauto. }
    rewrite Hx in Hr. injection Hr as <-. destruct Hst as (Hec & Hu & this & p & thc & Hs & Hatc & Hj).
    split; [done|]. split; [apply (created_used _ _ _ _ _ _ _ _ HID Hb); by left|].
    exists this, p, (after_exec t th ID c thc).
    split; [by eapply created_slot|]. unfold after_exec. by rewrite decide_False by done.
Qed.

Lemma stuck_exit s i c ec t th ec' s' :
  Inv s -> stuck s i c ec -> procs s !! t = Some th -> at_ th = InProgram -> own_number s t th ->
  ExitUpdate t ec' s = Ok (tt, s') -> stuck s' i c ec.
Proof.
  intros Hi Hst Ht Hat Hown Hr. pose proof (stuck_in_program _ _ _ _ _ _ Hst Ht Hat) as Htc.
  destruct (decide (processID th = 0)) as [H0|H0].
  { by rewrite (exit_main s t th ec' Hi Ht H0) in Hr. }
  destruct (decide (used s (processID th))) as [Hu|Hu].
  2:{ rewrite (exit_again s t th ec' Hi Ht H0 Hu) in Hr. injection Hr as <-. by apply stuck_moved. }
  destruct (own_number_owns s t th Hi Ht Hown Hu) as (_ & a & p & Hs). destruct (decide (JoinStatus p = -1)) as [HJ|HJ].
  - destruct (exit_leaves s t th ec' a p Hi Ht H0 Hu Hs HJ) as (b' & Hx & _ & Hb). rewrite Hx in Hr.
    injection Hr as <-. by eapply stuck_removed.
  - destruct (exit_waits s t th ec' a p Hi Ht Hat H0 Hu Hs HJ) as [Hx _]. rewrite Hx in Hr. injection Hr as <-.
    destruct Hst as (Hec & Hui & this & q & thc & Hsc & Hatc & Hj). split; [done|]. split; [done|].
    exists this, q, thc. split; [|done]. apply slot_frame; [done| |done].
    intros ->. by destruct (slot_inj _ _ _ _ _ _ _ _ _ _ Hs Hsc) as (_ & _ & ? & _).
Qed.

Lemma stuck_exit_resume opens s i c ec t th a nt this j ec' s' :
  Inv s -> stuck s i c ec -> procs s !! t = Some th -> at_ th = InExit this j ec' ->
  resume opens t a nt (at_ th) s = Ok (tt, s') -> stuck s' i c ec.
Proof.
  intros Hi Hst Ht Hat Hr.
  destruct (exit_resume_ok opens s t th a nt this j ec' Hi Ht Hat) as (p & Hu & Hs & H0 & H1).
  destruct (decide (exitsem p = 0)) as [E|E].
  - rewrite (H0 E) in Hr. by injection Hr as <-.
  - destruct (H1 E) as (b' & Hx & _ & Hb). rewrite Hx in Hr. injection Hr as <-. eapply stuck_removed; try done.
    intros ->. destruct Hst as (Hec & Hui & b & q & thc & Hsc & Hatc & Hj).
    pose proof (sl_phase _ _ _ _ _ _ Hsc) as Hph. unfold phase in Hph. rewrite Hatc in Hph.
    assert (i = j) as ->.
    { pose proof (sl_proc _ _ _ _ _ _ Hsc). pose proof (sl_id _ _ _ _ _ _ Hsc).
      pose proof (sl_id _ _ _ _ _ _ Hs). congruence. }
    destruct (slot_fun _ _ _ _ _ _ _ _ _ _ Hs Hsc) as (-> & -> & _). destruct Hph as (_ & _ & _ & _ & Hh).
    unfold handshake in Hh. lia.
Qed.

Lemma stuck_step opens s i c ec o s' :
  Inv s -> stuck s i c ec -> enabled o s -> run_op opens o s = Ok (tt, s') -> stuck s' i c ec.
Proof.
  intros Hi Hst He Hr. destruct o as [t a nt f|t j|t j|t ec'|t a nt]; cbn [enabled run_op] in *.
  - destruct He as ((th & Ht & Hat) & Ha & Hnt). by eapply stuck_exec.
  - destruct He as (th & Ht & Hat). destruct (start_ok s t th j Hi Ht Hat) as [Heq _].
    rewrite (st_bind_Ok _ _ _ _ _ Heq) in Hr. injection Hr as <-. apply stuck_moved; [done|].
    intros ->. destruct Hst as (_ & _ & this & p & thc & Hs & Hatc & _). pose proof (sl_proc _ _ _ _ _ _ Hs). congruence.
  - destruct He as (th & Ht & Hat). pose proof (stuck_in_program _ _ _ _ _ _ Hst Ht Hat) as Htc.
    destruct (sc_join_ok s t th j Hi Ht Hat) as (s1 & Hx & Hinv & _ & Hsh). rewrite Hx in Hr. injection Hr as <-.
    destruct Hsh as [->|(a & p & d & thd & p' & pt & v & Hd & -> & Hj)]; [by apply stuck_moved|].
    by eapply stuck_updated.
  - destruct He as (th & Ht & Hat & Hown). by eapply stuck_exit.
  - destruct He as ((th & Ht & Hw) & Ha & Hnt). rewrite (st_bind_Ok _ _ _ _ _ (proc_at_ok _ _ _ Ht)) in Hr.
    destruct (i_thr _ Hi _ _ Ht) as (_ & Hpl & _). unfold place_ok in Hpl.
    destruct (at_ th) as [| | | |this j|this j ec'|] eqn:Hat; try done.
    2:{ rewrite <-Hat in Hr. by eapply stuck_exit_resume. }
    assert (t <> c) as Htc.
    { intros ->. destruct Hst as (_ & _ & b & p & thc & Hs & Hatc & _). pose proof (sl_proc _ _ _ _ _ _ Hs). congruence. }
    destruct (join_resume_ok opens s t th a nt this j Hi Ht Hat) as (p & d & thd & Hu & Hs & H0 & H1).
    rewrite Hat in *. destruct (slot_joinsem _ _ _ _ _ _ Hs) as [Hj|Hj].
    + rewrite (H0 Hj) in Hr. by injection Hr as <-.
    + destruct (H1 Hj) as (s1 & p' & Hx & Hinv & -> & _ & Hj' & _). rewrite Hx in Hr.
      injection Hr as <-. by eapply stuck_updated.
Qed.

(** ** The table at boot *)

(** "main" *)
Definition main_name : list Z := [109; 97; 105; 110].
Definition boot_procs (main : Z) : gmap Z proc := {[ main := mkProc main_name 0 InProgram 0 ]}.
(** [s0] is what the constructor leaves, whatever the fresh memory held. *)
Definition booted (s0 : sys) : Prop :=
  exists junk a0 main, zlen junk = divRoundUp MAXPROCESS BitsInWord /\ Forall is_uint junk /\
    new_PTable junk MAXPROCESS a0 (boot_procs main) = Ok s0.

Lemma boot_ok junk a0 main :
  zlen junk = divRoundUp MAXPROCESS BitsInWord -> Forall is_uint junk ->
  exists s0, new_PTable junk MAXPROCESS a0 (boot_procs main) = Ok s0 /\ Inv s0 /\ (forall i, ~ used s0 i) /\
    procs s0 = boot_procs main /\ pcbs s0 = {[ a0 := new_PCB 0 0 ]}.
Proof.
  intros Hl Hu. unfold new_PTable.
  destruct (new_BitMap_spec junk MAXPROCESS) as (b & -> & Hwf & Hn & Hc); [done|done|done|]. simpl.
  destruct (Mark_spec b 0 Hwf) as (b' & -> & Hwf' & Hn' & Hb'); [rewrite Hn; done|]. simpl.
  assert (forall i, 1 <= i < MAXPROCESS -> bit b' i = false) as Hfree.
  { intros i Hi. rewrite Hb', Hc by lia. by rewrite (proj2 (Z.eqb_neq i 0)) by lia. }
  eexists. split; [done|]. split_and!; try done.
  - split; simpl.
    + done.
    + congruence.
    + by vm_compute.
    + done.
    + rewrite Hb'. done.
    + intros i [Hr Hb]. simpl in Hb. by rewrite Hfree in Hb.
    + intros t th. unfold boot_procs. intros [<- <-]%lookup_singleton_Some. done.
  - intros i [Hr Hb]. simpl in Hb. by rewrite Hfree in Hb.
Qed.
Lemma booted_inv opens s0 s : booted s0 -> reachable opens s0 s -> Inv s.
Proof.
  intros (junk & a0 & main & Hl & Hu & Hb) Hr. destruct (boot_ok junk a0 main Hl Hu) as (s1 & Hb1 & Hi & _).
  assert (s1 = s0) as -> by congruence. by eapply steps_inv.
Qed.

(** ** Properties *)

(** C4. The process table in every order of process calls.  Starting from the
    table the constructor builds, whatever the processes call (Exec, Join,
    Exit, also after their own Exit has come back) and in whatever order
    parked threads go on, as long as no process calls Exit again when its
    number has been given to another process ([own_number]): every used slot
    points to an allocated PCB with that process number, whose thread exists
    and belongs to it; a thread that is about to start or waits in its Exit is
    the thread of its slot, which is in use; and no call dereferences a null
    or freed PCB or fails an ASSERT: it returns, or halts the machine because
    process 0 exits. *)
Theorem process_calls_safe (opens : list Z -> bool) (s0 s : sys) :
  booted s0 -> reachable opens s0 s ->
  (forall i, used s i -> exists a p c th, zget (pcb s) i = Some (Some a) /\ pcbs s !! a = Some p /\
     pid p = i /\ thread p = Some c /\ procs s !! c = Some th /\ processID th = i) /\
  (forall t th i, procs s !! t = Some th -> (at_ th = Starting i \/ exists this ec, at_ th = InExit this i ec) ->
     processID th = i /\ used s i /\
     exists a p, zget (pcb s) i = Some (Some a) /\ pcbs s !! a = Some p /\ thread p = Some t) /\
  (forall o, enabled o s -> (exists s', run_op opens o s = Ok (tt, s')) \/ run_op opens o s = Halted).
Proof.
  intros Hb Hr. pose proof (booted_inv _ _ _ Hb Hr) as Hi. split_and!.
  - intros i Hu. destruct (i_slot _ Hi i Hu) as (a & p & c & th & Hs). exists a, p, c, th. by destruct Hs.
  - intros t th i Ht Hat. destruct (i_thr _ Hi _ _ Ht) as (_ & _ & Hown).
    destruct (Hown i) as (<- & Hu & a & p & Hs); [destruct Hat as [-> | (? & ? & ->)]; done|].
    split; [done|]. split; [done|]. exists a, p. by destruct Hs.
  - intros o He. pose proof (run_op_safe opens o s (conj Hi He)) as Hs.
    destruct (run_op opens o s) as [[[] s']| | | |]; eauto; done.
Qed.

(** Two programs; process 0 executes one, which starts. *)
Definition any_file (f : list Z) : bool := true.
Definition boot_table : sys :=
  mkSys (mkBitMap 10 1 [1]) (<[0%nat := Some 100]> (replicate 10 None)) 10 1
    {[ 100 := new_PCB 0 0 ]} (boot_procs 1).
Lemma boot_table_ok : booted boot_table.
Proof. exists [1023], 100, 1. split; [done|]. split; [repeat constructor; by vm_compute|]. by vm_compute. Qed.
(** After main has executed the program "a" and its thread has started. *)
Definition one_child : sys :=
  mkSys (mkBitMap 10 1 [3]) (<[1%nat := Some 101]> (<[0%nat := Some 100]> (replicate 10 None))) 10 1
    (<[101 := set_thread (new_PCB 1 0) (Some 2)]> {[ 100 := new_PCB 0 0 ]})
    (<[2 := mkProc [97] 1 InProgram 0]> (<[1 := mkProc main_name 0 InProgram 1]> ∅)).
Lemma one_child_reachable : reachable any_file boot_table one_child.
Proof.
  eapply reach_step with (o := OpStart 2 1); [eapply reach_step with (o := OpExec 1 101 2 [97]);
    [apply reach_refl| | ]| | ]; try by vm_compute.
  - split; [|done]. by eexists.
  - by eexists.
Qed.
Lemma process_calls_safe_witness :
  booted boot_table /\ reachable any_file boot_table one_child /\
  ((exists s', run_op any_file (OpJoin 1 1) one_child = Ok (tt, s')) \/
   run_op any_file (OpJoin 1 1) one_child = Halted).
Proof.
  split; [exact boot_table_ok|]. split; [exact one_child_reachable|].
  apply (process_calls_safe any_file boot_table one_child boot_table_ok one_child_reachable). by eexists.
Defined.

(** C38. Waiting for a child.  While the child is in its program the parent's
    [Join] keeps waiting; when the child calls [Exit(ec)] it parks in
    [ExitWait] and the parent's [Join] returns, with 0 if [ec] is 0 and -1
    otherwise; with [ec] 0 the child then goes on: its slot becomes free and
    its Exit returns its code.  The child is the thread of the PCB that the
    parent waits for. *)
Theorem join_handshake (opens : list Z -> bool) (s0 s : sys) (t c a nt this i ec : Z) (th thc : proc) (p : PCB) :
  booted s0 -> reachable opens s0 s ->
  procs s !! t = Some th -> at_ th = InJoin this i ->
  pcbs s !! this = Some p -> thread p = Some c ->
  procs s !! c = Some thc -> at_ thc = InProgram ->
  run_op opens (OpResume t a nt) s = Ok (tt, s) /\
  exists s1 s2, run_op opens (OpExit c ec) s = Ok (tt, s1) /\
    run_op opens (OpResume t a nt) s1 = Ok (tt, s2) /\
    procs s2 !! t = Some (mkProc (name th) (processID th) InProgram (if ec =? 0 then 0 else -1)) /\
    (ec = 0 -> exists s3, run_op opens (OpResume c a nt) s2 = Ok (tt, s3) /\ bit (bm s3) i = false /\
       procs s3 !! c = Some (mkProc (name thc) i InProgram 0)) /\
    (ec <> 0 -> stuck s2 i c ec).
Proof.
  intros Hb Hr Ht Hat Hp0 Hthr Hc Hatc. pose proof (booted_inv _ _ _ Hb Hr) as Hi.
  destruct (join_resume_ok opens s t th a nt this i Hi Ht Hat) as (p0 & c' & thc' & Hu & Hs & H0 & _).
  assert (p0 = p) as -> by (pose proof (sl_pcb _ _ _ _ _ _ Hs); congruence).
  assert (c' = c) as -> by (pose proof (sl_thread _ _ _ _ _ _ Hs); congruence).
  assert (thc' = thc) as -> by (pose proof (sl_proc _ _ _ _ _ _ Hs); congruence).
  pose proof (sl_id _ _ _ _ _ _ Hs) as Hid. assert (i <> 0) as Hi0 by (destruct Hu; lia).
  assert (c <> t) as Hct by (intros ->; congruence).
  assert (JoinStatus p <> -1) as HJ.
  { destruct (i_thr _ Hi _ _ Ht) as (_ & Hpl & _). unfold place_ok in Hpl. rewrite Hat in Hpl.
    destruct Hpl as (_ & _ & q & Hq & HJ). pose proof (sl_pcb _ _ _ _ _ _ Hs). congruence. }
  pose proof (proj1 (phase_plain this i p thc ltac:(by rewrite Hatc)) (sl_phase _ _ _ _ _ _ Hs)) as [Hj He].
  cbn [run_op]. rewrite (st_bind_Ok _ _ _ _ _ (proc_at_ok _ _ _ Ht)), (H0 Hj).
  split; [done|]. rewrite <-Hid in Hs, Hu.
  destruct (exit_waits s c thc ec this p Hi Hc Hatc ltac:(by rewrite Hid) Hu Hs HJ) as [Hx Hi1]. rewrite Hid in *.
  eexists. set (s1 := moved _ c thc _ _) in *. destruct (DecNumWait_same (SetExitCode p ec)) as (_ & Hd5 & _ & Hd7 & _).
  assert (procs s1 !! t = Some th) as Ht1 by (simpl; by rewrite lookup_insert_ne).
  destruct (join_resume_ok opens s1 t th a nt this i Hi1 Ht1 Hat) as (p1 & c1 & thc1 & Hu1 & Hs1 & _ & H1).
  assert (p1 = exiting p ec) as ->.
  { pose proof (sl_pcb _ _ _ _ _ _ Hs1) as Hp1. simpl in Hp1. rewrite lookup_insert_eq in Hp1. congruence. }
  assert (c1 = c) as ->.
  { pose proof (sl_thread _ _ _ _ _ _ Hs1) as E1. pose proof (sl_thread _ _ _ _ _ _ Hs) as E2.
    destruct (DecNumWait_same (SetExitCode p ec)) as ((_ & _ & _ & E3 & _) & _). simpl in E1, E3. congruence. }
  pose proof (sl_proc _ _ _ _ _ _ Hs1) as Hc1. simpl in Hc1. rewrite lookup_insert_eq in Hc1. injection Hc1 as <-.
  destruct H1 as (s2 & p2 & Hr2 & Hi2 & Hs2 & Hec2 & Hj2 & He2 & _).
  { unfold exiting. simpl. rewrite Hd5. simpl. lia. }
  simpl in Hec2, He2, Hs2. rewrite Hd7 in Hec2, He2, Hs2. simpl in Hec2, He2, Hs2.
  exists s2. split; [exact Hx|]. rewrite (st_bind_Ok _ _ _ _ _ (proc_at_ok _ _ _ Ht1)), Hr2.
  split; [done|]. split; [by rewrite Hs2; simpl; rewrite lookup_insert_eq|].
  assert (procs s2 !! c = Some (mkProc (name thc) (processID thc) (InExit this i ec) (result thc))) as Hc2.
  { rewrite Hs2. simpl. rewrite lookup_insert_ne by done. by rewrite lookup_insert_eq. }
  destruct (exit_resume_ok opens s2 c _ a nt this i ec Hi2 Hc2 eq_refl) as (p3 & Hu2 & Hs3 & _ & H3).
  assert (p3 = p2) as ->.
  { pose proof (sl_pcb _ _ _ _ _ _ Hs3) as Hp3. rewrite Hs2 in Hp3. simpl in Hp3. rewrite lookup_insert_eq in Hp3. congruence. }
  split.
  - intros ->. destruct H3 as (b' & Hr3 & Hi3 & Hb3); [rewrite He2; done|].
    eexists. rewrite (st_bind_Ok _ _ _ _ _ (proc_at_ok _ _ _ Hc2)). split; [exact Hr3|].
    simpl. rewrite Hb3, Z.eqb_refl, lookup_insert_eq. by rewrite Hid.
  - intros Hne. split; [done|]. split; [done|]. exists this, p2. eexists. split; [exact Hs3|done].
Qed.

(** Main waits for its child. *)
Definition joining : sys :=
  set_procs (set_pcbs one_child (<[101 := joined (set_thread (new_PCB 1 0) (Some 2))]> (pcbs one_child)))
    (<[1 := mkProc main_name 0 (InJoin 101 1) 1]> (procs one_child)).
Lemma joining_reachable : reachable any_file boot_table joining.
Proof.
  eapply reach_step with (o := OpJoin 1 1); [apply one_child_reachable|by eexists|by vm_compute].
Qed.
Lemma join_handshake_witness :
  exists s1 s2, run_op any_file (OpExit 2 0) joining = Ok (tt, s1) /\
    run_op any_file (OpResume 1 102 3) s1 = Ok (tt, s2) /\
    procs s2 !! 1 = Some (mkProc main_name 0 InProgram 0).
Proof.
  destruct (join_handshake any_file boot_table joining 1 2 102 3 101 1 0
    (mkProc main_name 0 (InJoin 101 1) 1) (mkProc [97] 1 InProgram 0)
    (joined (set_thread (new_PCB 1 0) (Some 2))) boot_table_ok joining_reachable
    eq_refl eq_refl eq_refl eq_refl eq_refl eq_refl) as (_ & s1 & s2 & H1 & H2 & H3 & _).
  by exists s1, s2.
Defined.

(** A child that exits with a nonzero code is never removed: once its
    parent's [Join] has returned -1, no sequence of process calls lets the
    child past [ExitWait]; its thread stays blocked and its slot stays used for
    ever, because [JoinUpdate] returns before [ExitRelease]. *)
Theorem failed_child_never_removed (opens : list Z -> bool) (s0 s s' : sys) (i c ec : Z) :
  booted s0 -> reachable opens s0 s -> stuck s i c ec -> reachable opens s s' ->
  bit (bm s') i = true /\
  exists this th, procs s' !! c = Some th /\ at_ th = InExit this i ec /\
    forall a nt, run_op opens (OpResume c a nt) s' = Ok (tt, s').
Proof.
  intros Hb Hr Hst Hr'.
  assert (Inv s' /\ stuck s' i c ec) as [Hi Hst'].
  { pose proof (booted_inv _ _ _ Hb Hr) as Hi0. clear Hr Hb. induction Hr' as [|s1 o s2 _ [Hi1 Hst1] He Hx]; [done|].
    split; [|by eapply stuck_step]. pose proof (run_op_safe opens o s1 (conj Hi1 He)) as Hs. by rewrite Hx in Hs. }
  destruct Hst' as (Hec & Hu & this & p & th & Hs & Hat & Hj). split; [apply Hu|].
  exists this, th. split; [apply Hs|]. split; [done|]. intros a nt.
  destruct (exit_resume_ok opens s' c th a nt this i ec Hi (sl_proc _ _ _ _ _ _ Hs) Hat) as (q & _ & Hsq & H0 & _).
  destruct (slot_fun _ _ _ _ _ _ _ _ _ _ Hs Hsq) as (_ & <- & _).
  pose proof (sl_phase _ _ _ _ _ _ Hs) as Hph. unfold phase in Hph. rewrite Hat in Hph.
  destruct Hph as (_ & _ & _ & _ & Hh). cbn [run_op].
  rewrite (st_bind_Ok _ _ _ _ _ (proc_at_ok _ _ _ (sl_proc _ _ _ _ _ _ Hs))).
  apply H0. unfold handshake in Hh. lia.
Qed.

(** The child of [joining] has called [Exit(7)] and main has returned. *)
Definition child_left : sys :=
  set_procs (set_pcbs joining
      (<[101 := set_joinsem (exiting (joined (set_thread (new_PCB 1 0) (Some 2))) 7) 0]> (pcbs joining)))
    (<[1 := mkProc main_name 0 InProgram (-1)]> (<[2 := mkProc [97] 1 (InExit 101 1 7) 0]> (procs joining))).
Lemma child_left_reachable : reachable any_file boot_table child_left.
Proof.
  eapply reach_step with (o := OpResume 1 102 3); [eapply reach_step with (o := OpExit 2 7);
    [apply joining_reachable|eexists; split_and!; [done|done|]|vm_compute; reflexivity]| |by vm_compute].
  { intros a p _ [= <-] [= <-]. done. }
  split; [by eexists|by vm_compute].
Qed.
Lemma child_left_stuck : stuck child_left 1 2 7.
Proof.
  split; [done|]. split; [split; [unfold MAXPROCESS; lia|reflexivity]|].
  exists 101, (set_joinsem (exiting (joined (set_thread (new_PCB 1 0) (Some 2))) 7) 0),
    (mkProc [97] 1 (InExit 101 1 7) 0).
  split; [|by split]. split; try reflexivity; try done. split_and!; try done. right. left. done.
Qed.
Lemma failed_child_never_removed_witness :
  reachable any_file boot_table child_left /\ stuck child_left 1 2 7 /\
  run_op any_file (OpResume 2 102 3) child_left = Ok (tt, child_left).
Proof.
  split; [exact child_left_reachable|]. split; [exact child_left_stuck|].
  destruct (failed_child_never_removed any_file boot_table child_left child_left 1 2 7 boot_table_ok
    child_left_reachable child_left_stuck (reach_refl _ _)) as (_ & this & th & _ & _ & H). apply H.
Defined.

(** Exec.  A file that cannot be opened, the program of the caller itself,
    and a full table give -1 and change nothing else; otherwise the lowest free
    process number is returned, its bit and no other is set, and the table
    has for it a new PCB whose parent is the caller's process and a new
    thread named after the file that will start the process. *)
Theorem exec_creates (opens : list Z -> bool) (s0 s : sys) (t a nt : Z) (th : proc) (f : list Z) :
  booted s0 -> reachable opens s0 s ->
  procs s !! t = Some th -> at_ th = InProgram -> pcbs s !! a = None -> procs s !! nt = None ->
  (opens f = false \/ f = name th \/ (forall i, used s i <-> 1 <= i < MAXPROCESS) ->
     ExecUpdate opens t a nt f s = Ok (tt, moved s t th InProgram (-1))) /\
  (opens f = true -> f <> name th -> (exists i, 1 <= i < MAXPROCESS /\ ~ used s i) ->
     exists ID s', ExecUpdate opens t a nt f s = Ok (tt, s') /\ 1 <= ID < MAXPROCESS /\
       ~ used s ID /\ (forall j, 1 <= j < ID -> used s j) /\
       (forall j, bit (bm s') j = (j =? ID) || bit (bm s) j) /\
       zget (pcb s') ID = Some (Some a) /\
       pcbs s' !! a = Some (mkPCB 0 0 1 0 (Some nt) ID 0 (processID th) (-1)) /\
       procs s' !! nt = Some (mkProc f ID (Starting ID) 0) /\
       procs s' !! t = Some (mkProc (name th) (processID th) InProgram ID)).
Proof.
  intros Hb Hr Ht Hat Ha Hnt. pose proof (booted_inv _ _ _ Hb Hr) as Hi.
  destruct (ExecUpdate_ok opens s t a nt th f Hi Ht Hat Ha Hnt) as [Hno Hyes]. split; [done|].
  intros Ho Hf Hx. destruct (Hyes Ho Hf Hx) as (ID & b' & Heq & HID & Hfree & Hlow & Hbits & _).
  exists ID, (created s b' t a nt th ID f). split_and!; try done; try lia; simpl.
  - intros [_ ?]. congruence.
  - apply zget_zset_eq. rewrite (i_len _ Hi). lia.
  - rewrite lookup_insert_eq. unfold new_PCB, set_thread. simpl. by rewrite (proj2 (Z.eqb_neq ID 0)) by lia.
  - rewrite lookup_insert_ne by congruence. by rewrite lookup_insert_eq.
  - by rewrite lookup_insert_eq.
Qed.
Lemma exec_creates_witness :
  exists ID s', ExecUpdate any_file 1 102 3 [98] one_child = Ok (tt, s') /\ 1 <= ID < MAXPROCESS /\
    zget (pcb s') ID = Some (Some 102) /\ ~ used one_child ID.
Proof.
  destruct (exec_creates any_file boot_table one_child 1 102 3 (mkProc main_name 0 InProgram 1) [98]
    boot_table_ok one_child_reachable eq_refl eq_refl eq_refl eq_refl) as [_ H].
  destruct H as (ID & s' & H1 & H2 & H3 & _ & _ & H4 & _); [reflexivity|done| |by exists ID, s'].
  exists 5. split; [unfold MAXPROCESS; lia|]. intros [_ Hb]. by vm_compute in Hb.
Defined.

(** With preemption (the timer of option -rs) the rest of [PCB::Exec] can run
    after the new process has exited: [mutex->V()] then touches a freed PCB. *)
Lemma exec_unlock_race :
  exists s1 s2 s3, mbind (fun _ => exec_fork 101 1 2 [97]) (P_mutex 1 101 InProgram (mret tt))
      (set_bmsem (set_pcbs (set_pcb (set_bm boot_table (mkBitMap 10 1 [3]))
         (zset (pcb boot_table) 1 (Some 101))) (<[101 := new_PCB 1 0]> (pcbs boot_table))) 0) = Ok (tt, s1) /\
    MyStartProcess 2 1 s1 = Ok ([97], s2) /\ ExitUpdate 2 0 s2 = Ok (tt, s3) /\
    exec_unlock 1 101 1 s3 = UB.
Proof. do 3 eexists. split; [reflexivity|]. split; [reflexivity|]. split; [vm_compute; reflexivity|vm_compute; reflexivity]. Qed.

(** [Exit] after [Exit].  The child of [one_child] exits, its number goes to
    the next process, whose thread has not started yet, and the child, which is
    back in its program, calls [Exit] again: it removes the PCB of the other
    process, which then starts without a name. *)
Definition after_op (o : op) (s : sys) : sys :=
  match run_op any_file o s with Ok (_, s') => s' | _ => s end.
Definition number_reused : sys := after_op (OpExec 1 102 3 [98]) (after_op (OpExit 2 0) one_child).
Lemma late_exit_unsafe :
  is_Ok (run_op any_file (OpExit 2 0) one_child) = true /\
  is_Ok (run_op any_file (OpExec 1 102 3 [98]) (after_op (OpExit 2 0) one_child)) = true /\
  procs number_reused !! 3 = Some (mkProc [98] 1 (Starting 1) 0) /\
  procs number_reused !! 2 = Some (mkProc [97] 1 InProgram 0) /\
  is_Ok (run_op any_file (OpExit 2 0) number_reused) = true /\
  run_op any_file (OpStart 3 1) (after_op (OpExit 2 0) number_reused) = UB.
Proof. split_and!; vm_compute; reflexivity. Qed.
