(* ===== verification/SemTable.v ===== *)
(** * userprog/table.cc (STable): named semaphores of user programs

    The table maps names to semaphores of the kernel of Threads: [Create]
    makes one, [Wait] and [Signal] find one by its name and call [P] and [V].
    The table is the [ext] part of the kernel state. *)

From S2P Require Import Prelude BitMap Interrupt Threads.
From stdpp Require Import gmap list sets.
#[local] Open Scope Z_scope.

Definition MAX_SEMAPHORES : Z := 10.

(** A semaphore object: its name and its identity in the kernel. *)
Record STable := mkSTable {
  bm : BitMap;
  semTab : list (option (list Z * Z))
}.

Definition new_STable (junk : list Z) : res STable :=
  b ← new_BitMap junk MAX_SEMAPHORES;
  Ok (mkSTable b (replicate (Z.to_nat MAX_SEMAPHORES) None)).

Definition GetFreeSlot (T : STable) : res (Z * STable) :=
  '(i, b) ← FindFreeSlot (bm T); Ok (i, mkSTable b (semTab T)).

(** [strcmp(semTab[i]->getName(), name) == 0] *)
Definition named (T : STable) (i : Z) (name : list Z) : res bool :=
  o ← rd (semTab T) i;
  match o with Some (n, _) => Ok (bool_decide (n = name)) | None => UB end.

(** The search of [Create]: is the name in use? *)
Fixpoint create_loop (n : nat) (i : Z) (T : STable) (name : list Z) : res bool :=
  match n with
  | O => Ok false
  | S n' =>
      b ← Test (bm T) i;
      e ← (if (b : bool) then named T i name else Ok false);
      if (e : bool) then Ok true else create_loop n' (i + 1) T name
  end.
(** The search of [Wait] and [Signal]. *)
Fixpoint search_loop (n : nat) (i : Z) (T : STable) (name : list Z) : res Z :=
  match n with
  | O => Ok (-1)
  | S n' =>
      o ← rd (semTab T) i;
      match o with
      | Some (nm, _) => if bool_decide (nm = name) then Ok i else search_loop n' (i + 1) T name
      | None => search_loop n' (i + 1) T name
      end
  end.

Implicit Types (k : kernel STable).

(** [s] is the new object. *)
Definition Create k (name : list Z) (init : Z) (s : Z) : res (Z * kernel STable) :=
  e ← create_loop (Z.to_nat MAX_SEMAPHORES) 0 (ext k) name;
  if (e : bool) then Ok (-1, k)
  else
    '(ID, T) ← GetFreeSlot (ext k);
    if ID =? -1 then Ok (-1, set_ext k T)
    else
      tab ← wr (semTab T) ID (Some (name, s));
      b ← Mark (bm T) ID;
      Ok (ID, set_ext (set_semaphores k (<[s := new_Semaphore init]> (semaphores k))) (mkSTable b tab)).

Definition Wait k (t : Z) (name : list Z) : res (Z * kernel STable) :=
  ID ← search_loop (Z.to_nat MAX_SEMAPHORES) 0 (ext k) name;
  if ID =? -1 then Ok (-1, k)
  else
    o ← rd (semTab (ext k)) ID;
    match o with
    | Some (_, s) => k' ← P k t s; Ok (0, k')
    | None => UB
    end.

Definition Signal k (name : list Z) : res (Z * kernel STable) :=
  ID ← search_loop (Z.to_nat MAX_SEMAPHORES) 0 (ext k) name;
  if ID =? -1 then Ok (-1, k)
  else
    o ← rd (semTab (ext k)) ID;
    match o with
    | Some (_, s) => k' ← V k s; Ok (0, k')
    | None => UB
    end.

(** ** The table as a finite map from names to semaphores *)

(** The semaphore that a name stands for. *)
Definition sem_named (T : STable) (name : list Z) : option Z :=
  o ← list_find (fun o => fst <$> o = Some name) (semTab T); snd <$> o.2.

Record table_ok (T : STable) : Prop := {
  to_wf : wf (bm T);
  to_bits : numBits (bm T) = MAX_SEMAPHORES;
  to_len : zlen (semTab T) = MAX_SEMAPHORES;
  to_used i o : zget (semTab T) i = Some o -> bit (bm T) i = bool_decide (is_Some o);
  to_names i j n s s' : zget (semTab T) i = Some (Some (n, s)) -> zget (semTab T) j = Some (Some (n, s')) -> i = j
}.

Lemma sem_named_Some T name s :
  table_ok T -> sem_named T name = Some s <-> exists i, zget (semTab T) i = Some (Some (name, s)).
Proof.
  intros HT. unfold sem_named. split.
  - destruct (list_find _ _) as [[i o]|] eqn:E; [|done]. simpl. intros Hs.
    apply list_find_Some in E as (Hi & Hn & _). destruct o as [[n s']|]; [|done]. simpl in *. simplify_eq.
    exists (Z.of_nat i). by rewrite zget_nat.
  - intros [i Hi]. pose proof (zget_Some_range _ _ _ Hi) as Hr.
    assert (list_find (fun o => fst <$> o = Some name) (semTab T) = Some (Z.to_nat i, Some (name, s))) as ->; [|done].
    apply list_find_Some. rewrite <-zget_nat, Z2Nat.id by lia. split_and!; [done|done|].
    intros j [[n s']|] Hj Hlt; [|done]. simpl. intros [= ->].
    rewrite <-zget_nat in Hj. pose proof (to_names _ HT _ _ _ _ _ Hi Hj). lia.
Qed.
Lemma sem_named_None T name :
  table_ok T -> sem_named T name = None -> forall i s, zget (semTab T) i <> Some (Some (name, s)).
Proof. intros HT Hn i s Hi. assert (sem_named T name = Some s) by (apply sem_named_Some; eauto). congruence. Qed.

Lemma create_loop_spec T name n : forall i,
  table_ok T -> 0 <= i -> i + Z.of_nat n = MAX_SEMAPHORES ->
  (forall j s, 0 <= j < i -> zget (semTab T) j <> Some (Some (name, s))) ->
  create_loop n i T name = Ok (bool_decide (is_Some (sem_named T name))).
Proof.
  induction n as [|n IH]; intros i HT Hi Hn Hlow; simpl.
  - f_equal. symmetry. apply bool_decide_eq_false. intros [s Hs]. apply sem_named_Some in Hs as [j Hj]; [|done].
    pose proof (zget_Some_range _ _ _ Hj) as Hr. rewrite (to_len _ HT) in Hr. apply (Hlow j s); [lia|done].
  - destruct (zget_is_Some (semTab T) i) as [o Ho]; [rewrite (to_len _ HT); lia|].
    rewrite (Test_spec _ _ (to_wf _ HT)) by (rewrite (to_bits _ HT); lia). simpl.
    rewrite (to_used _ HT i o Ho). destruct o as [[nm s]|].
    + rewrite bool_decide_true by done. simpl. unfold named. rewrite (proj2 (rd_Ok _ _ _) Ho). simpl.
      destruct (bool_decide_reflect (nm = name)) as [->|Hne].
      * f_equal. symmetry. apply bool_decide_eq_true. exists s. apply sem_named_Some; eauto.
      * apply IH; [done|lia|lia|]. intros j s' Hj. destruct (decide (j = i)) as [->|]; [congruence|apply Hlow; lia].
    + rewrite bool_decide_false by (by intros []). simpl. apply IH; [done|lia|lia|].
      intros j s' Hj. destruct (decide (j = i)) as [->|]; [congruence|apply Hlow; lia].
Qed.

Lemma search_loop_spec T name n : forall i,
  table_ok T -> 0 <= i -> i + Z.of_nat n = MAX_SEMAPHORES ->
  (forall j s, 0 <= j < i -> zget (semTab T) j <> Some (Some (name, s))) ->
  match sem_named T name with
  | None => search_loop n i T name = Ok (-1)
  | Some s => exists j, search_loop n i T name = Ok j /\ 0 <= j /\ zget (semTab T) j = Some (Some (name, s))
  end.
Proof.
  induction n as [|n IH]; intros i HT Hi Hn Hlow; simpl.
  - destruct (sem_named T name) as [s|] eqn:E; [|done]. apply sem_named_Some in E as [j Hj]; [|done].
    pose proof (zget_Some_range _ _ _ Hj) as Hr. rewrite (to_len _ HT) in Hr. exfalso. apply (Hlow j s); [lia|done].
  - destruct (zget_is_Some (semTab T) i) as [o Ho]; [rewrite (to_len _ HT); lia|].
    rewrite (proj2 (rd_Ok _ _ _) Ho). simpl. destruct o as [[nm s]|].
    + destruct (bool_decide_reflect (nm = name)) as [->|Hne].
      * assert (sem_named T name = Some s) as -> by (apply sem_named_Some; eauto). eauto.
      * apply IH; [done|lia|lia|]. intros j s' Hj. destruct (decide (j = i)) as [->|]; [congruence|apply Hlow; lia].
    + apply IH; [done|lia|lia|]. intros j s' Hj. destruct (decide (j = i)) as [->|]; [congruence|apply Hlow; lia].
Qed.

(** What the table says a name stands for, after [name] has been given [s]. *)
Lemma Create_new k name init s :
  table_ok (ext k) -> sem_named (ext k) name = None -> clear_items (bm (ext k)) <> [] ->
  exists ID k', Create k name init s = Ok (ID, k') /\ 0 <= ID < MAX_SEMAPHORES /\ table_ok (ext k') /\
    semaphores k' = <[s := new_Semaphore init]> (semaphores k) /\
    threads k' = threads k /\ readyList k' = readyList k /\ currentThread k' = currentThread k /\
    forall n, sem_named (ext k') n = if decide (n = name) then Some s else sem_named (ext k) n.
Proof.
  intros HT Hnone Hfree. unfold Create. pose proof (sem_named_None _ _ HT Hnone) as Hno.
  rewrite (create_loop_spec _ name) by (try done; intros; by apply Hno).
  rewrite Hnone, bool_decide_false by (by intros []). simpl.
  destruct (Find_cases _ (to_wf _ HT)) as [[Hall _]|(i & b1 & Hf & Hwf1 & Hn1 & Hi & Hbi & _ & Hb1)].
  { by apply clear_items_nil in Hall. }
  rewrite (to_bits _ HT) in Hi. unfold GetFreeSlot. rewrite FindFreeSlot_Find, Hf. simpl.
  rewrite (proj2 (Z.eqb_neq i (-1))) by lia. rewrite wr_Ok by (rewrite (to_len _ HT); lia). simpl.
  destruct (Mark_spec b1 i Hwf1) as (b2 & Hm & Hwf2 & Hn2 & Hb2); [rewrite Hn1, (to_bits _ HT); lia|].
  rewrite Hm. simpl. eexists i, _. split; [done|]. split; [done|]. simpl.
  set (T' := mkSTable b2 (zset (semTab (ext k)) i (Some (name, s)))).
  assert (table_ok T') as HT'.
  { split; simpl; [done|rewrite Hn2, Hn1; apply HT|rewrite zlen_zset; apply HT| |].
    - intros j o. rewrite zget_zset, Hb2, Hb1. case_decide as Hd.
      + intros [= <-]. destruct Hd as [-> _]. by rewrite Z.eqb_refl.
      + intros Ho. rewrite (to_used _ HT j o Ho). destruct (Z.eqb_spec j i) as [->|]; [|done].
        exfalso. apply Hd. by rewrite (to_len _ HT).
    - intros j1 j2 n s1 s2. rewrite !zget_zset. repeat case_decide; intros H1 H2; simplify_eq; try lia.
      + by apply Hno in H2.
      + by apply Hno in H1.
      + by apply (to_names _ HT _ _ _ _ _ H1 H2). }
  split_and!; try done. intros n. apply option_eq. intros x. rewrite (sem_named_Some T' n x HT'). simpl.
  split.
  - intros [j Hj]. rewrite zget_zset in Hj. case_decide as Hd.
    + simplify_eq. by rewrite decide_True.
    + destruct (decide (n = name)) as [->|]; [by apply Hno in Hj|]. apply sem_named_Some; eauto.
  - destruct (decide (n = name)) as [->|]; intros Hx.
    + simplify_eq. exists i. apply zget_zset_eq. by rewrite (to_len _ HT).
    + apply sem_named_Some in Hx as [j Hj]; [|done]. exists j. rewrite zget_zset_ne; [done|].
      intros ->. pose proof (to_used _ HT j _ Hj) as Hb. rewrite bool_decide_true in Hb by done. congruence.
Qed.

Lemma Create_refused k name init s :
  table_ok (ext k) -> is_Some (sem_named (ext k) name) \/ clear_items (bm (ext k)) = [] ->
  Create k name init s = Ok (-1, k).
Proof.
  intros HT H. unfold Create. rewrite (create_loop_spec _ name) by (try done; lia). simpl.
  destruct (bool_decide_reflect (is_Some (sem_named (ext k) name))) as [|Hno]; [done|].
  destruct H as [|Hc]; [done|]. destruct (Find_cases _ (to_wf _ HT)) as [[_ Hf]|(i & b & _ & _ & _ & Hi & Hbi & _)].
  - unfold GetFreeSlot. rewrite FindFreeSlot_Find, Hf. simpl. by destruct k, ext.
  - pose proof (proj1 (clear_items_nil _) Hc i Hi). congruence.
Qed.

Lemma Wait_eq k t name :
  table_ok (ext k) -> Wait k t name =
    match sem_named (ext k) name with Some s => k' ← P k t s; Ok (0, k') | None => Ok (-1, k) end.
Proof.
  intros HT. unfold Wait. pose proof (search_loop_spec (ext k) name (Z.to_nat MAX_SEMAPHORES) 0 HT ltac:(done) eq_refl) as H.
  specialize (H ltac:(lia)). destruct (sem_named (ext k) name) as [s|].
  - destruct H as (j & -> & Hj & Hz). simpl. rewrite (proj2 (Z.eqb_neq j (-1))) by lia.
    by rewrite (proj2 (rd_Ok _ _ _) Hz).
  - by rewrite H.
Qed.
Lemma Signal_eq k name :
  table_ok (ext k) -> Signal k name =
    match sem_named (ext k) name with Some s => k' ← V k s; Ok (0, k') | None => Ok (-1, k) end.
Proof.
  intros HT. unfold Signal. pose proof (search_loop_spec (ext k) name (Z.to_nat MAX_SEMAPHORES) 0 HT ltac:(done) eq_refl) as H.
  specialize (H ltac:(lia)). destruct (sem_named (ext k) name) as [s|].
  - destruct H as (j & -> & Hj & Hz). simpl. rewrite (proj2 (Z.eqb_neq j (-1))) by lia.
    by rewrite (proj2 (rd_Ok _ _ _) Hz).
  - by rewrite H.
Qed.

Lemma new_STable_ok junk :
  zlen junk = divRoundUp MAX_SEMAPHORES BitsInWord -> Forall is_uint junk ->
  exists T, new_STable junk = Ok T /\ table_ok T /\ (forall n, sem_named T n = None) /\
    clear_items (bm T) = seqZ 0 MAX_SEMAPHORES.
Proof.
  intros Hl Hu. unfold new_STable.
  destruct (new_BitMap_spec junk MAX_SEMAPHORES) as (b & -> & Hwf & Hn & Hc); [done|done|done|]. simpl.
  assert (forall i o, zget (replicate 10 (None : option (list Z * Z))) i = Some o -> o = None /\ 0 <= i < 10) as Hrep.
  { intros i o. unfold zget. case_decide; [|done]. intros [-> Hlt]%lookup_replicate. split; [done|lia]. }
  eexists. split; [done|]. split_and!.
  - split; simpl; try done.
    + intros i o [-> Hi]%Hrep. by apply Hc.
    + intros i j n s s' [? _]%Hrep. done.
  - intros n. done.
  - simpl. unfold clear_items. rewrite Hn. apply filter_all. apply Forall_forall. intros i Hi%elem_of_seqZ. apply Hc. lia.
Qed.

(** ** Properties *)

(** C10. The semaphore table is a map from names to semaphores.  [Create] of a
    new name in a table with room makes a semaphore with the given value and
    binds the name to it, leaving every other name and semaphore alone;
    [Create] of a name in use or in a full table returns -1 and changes
    nothing.  [Wait] and [Signal] are exactly [P] and [V] of the semaphore the
    name is bound to, and return -1 and change nothing for an unknown name. *)
Theorem named_semaphores (k : kernel STable) (name : list Z) (init s t : Z) :
  table_ok (ext k) ->
  (sem_named (ext k) name = None -> clear_items (bm (ext k)) <> [] ->
     exists ID k', Create k name init s = Ok (ID, k') /\ 0 <= ID < MAX_SEMAPHORES /\ table_ok (ext k') /\
       semaphores k' = <[s := new_Semaphore init]> (semaphores k) /\ threads k' = threads k /\
       readyList k' = readyList k /\ currentThread k' = currentThread k /\
       forall n, sem_named (ext k') n = if decide (n = name) then Some s else sem_named (ext k) n) /\
  (is_Some (sem_named (ext k) name) \/ clear_items (bm (ext k)) = [] ->
     Create k name init s = Ok (-1, k)) /\
  Wait k t name = match sem_named (ext k) name with
                  | Some s => k' ← P k t s; Ok (0, k')
                  | None => Ok (-1, k)
                  end /\
  Signal k name = match sem_named (ext k) name with
                  | Some s => k' ← V k s; Ok (0, k')
                  | None => Ok (-1, k)
                  end.
Proof.
  intros HT. split_and!; [by apply Create_new|by apply Create_refused|by apply Wait_eq|by apply Signal_eq].
Qed.
(** One thread, and a table with the semaphore "s" at slot 3. *)
Definition sample_table : STable :=
  mkSTable (mkBitMap 10 1 [8]) (<[3%nat := Some ([115], 7)]> (replicate 10 None)).
Lemma sample_table_ok : table_ok sample_table.
Proof.
  assert (forall i o, zget (semTab sample_table) i = Some o ->
            (i = 3 /\ o = Some ([115], 7)) \/ (0 <= i < 10 /\ i <> 3 /\ o = None)) as Hz.
  { intros i o. unfold sample_table, zget. cbn [semTab]. case_decide; [|done].
    destruct (decide (i = 3)) as [->|]; [intros [= <-]; by left|].
    rewrite list_lookup_insert_ne by lia. intros [-> Hlt]%lookup_replicate. right. split_and!; [lia|lia|done|done]. }
  split; try done.
  - split; try done. repeat constructor; by vm_compute.
  - intros i o [[-> ->]|(Hi & H3 & ->)]%Hz; [reflexivity|].
    assert (i = 0 \/ i = 1 \/ i = 2 \/ i = 4 \/ i = 5 \/ i = 6 \/ i = 7 \/ i = 8 \/ i = 9) as Hc by lia.
    repeat destruct Hc as [->|Hc]; try reflexivity. by rewrite Hc.
  - intros i j n s s' [[-> _]|(_ & _ & ?)]%Hz [[-> _]|(_ & _ & ?)]%Hz; done.
Qed.
Definition sample_kernel : kernel STable :=
  mkKernel {[ 1 := mkThread RUNNING 0 None Normal ]} 1 None [] {[ 7 := mkSemaphore 1 [] ]} false sample_table.
Lemma named_semaphores_witness :
  (exists ID k', Create sample_kernel [116] 2 8 = Ok (ID, k') /\ sem_named (ext k') [116] = Some 8 /\
     sem_named (ext k') [115] = Some 7) /\
  Create sample_kernel [115] 2 8 = Ok (-1, sample_kernel) /\
  Wait sample_kernel 1 [116] = Ok (-1, sample_kernel) /\
  Signal sample_kernel [115] = k' ← V sample_kernel 7; Ok (0, k').
Proof.
  split_and!.
  - destruct (named_semaphores sample_kernel [116] 2 8 1 sample_table_ok) as (H & _).
    destruct H as (ID & k' & Hc & _ & _ & _ & _ & _ & _ & Hn); [reflexivity|by vm_compute|].
    exists ID, k'. split; [done|]. rewrite !Hn. by split.
  - apply (named_semaphores sample_kernel [115] 2 8 1 sample_table_ok). left. by eexists.
  - destruct (named_semaphores sample_kernel [116] 2 8 1 sample_table_ok) as (_ & _ & Hw & _). exact Hw.
  - destruct (named_semaphores sample_kernel [115] 2 8 1 sample_table_ok) as (_ & _ & _ & Hs). exact Hs.
Defined.

(** A semaphore created with a negative value never makes anybody wait: [P]
    only waits while the value is 0. *)
Lemma negative_never_waits (k : kernel STable) (t s v : Z) (q : list Z) (th : Thread) :
  semaphores k !! s = Some (mkSemaphore v q) -> v < 0 -> threads k !! t = Some th ->
  exists k', P k t s = Ok k' /\ switching k' = switching k /\
    semaphores k' !! s = Some (mkSemaphore (v - 1) q).
Proof.
  intros Hs Hv Ht. unfold P, sem_at. rewrite Hs. simpl. rewrite (proj2 (Z.eqb_neq v 0)) by lia.
  unfold set_where, thread_at. simpl. rewrite Ht. simpl. eexists. split; [done|]. split; [done|].
  simpl. by rewrite lookup_insert_eq.
Qed.
