(* ===== verification/SynchCons.v ===== *)
(** * machine/console.cc, threads/synchcons.cc: the console

    The console device takes characters from the keyboard one at a time and
    puts characters on the display one at a time, each with an interrupt; the
    synchronous console turns this into whole reads and writes.  The state is
    the device with what has been typed and printed, and the four semaphores.
    Characters are signed [char]s.  A thread that waits in [P] of a semaphore
    lets the device deliver its interrupt: [CheckCharAvail] when there is a
    character to be read, [WriteDone] after a [PutChar].  A thread that waits
    for a character that is never typed waits for ever ([NoFuel]). *)

From S2P Require Import Prelude.
From stdpp Require Import list.
#[local] Open Scope Z_scope.

(** [EOF], [LF] and ^A as [char]s. *)
Definition EOF : Z := -1.
Definition LF : Z := 10.
Definition CtrlA : Z := 1.

Record Console := mkConsole {
  keyboard : list Z;        (* typed, not yet taken by the device *)
  display : list Z;         (* what has been written *)
  putBusy : bool;
  incoming : Z
}.
Record SynchConsole := mkSynchConsole {
  cons : Console;
  synchReadAvail : Z;
  synchWriteAvail : Z;
  RLineBlock : Z;
  WLineBlock : Z;
  numConsoleCharsRead : Z;
  numConsoleCharsWritten : Z
}.

Definition new_Console (typed : list Z) : Console := mkConsole typed [] false EOF.
Definition new_SynchConsole (typed : list Z) : SynchConsole :=
  mkSynchConsole (new_Console typed) 0 0 1 1 0 0.

(** ** The device *)

(** Called by the poll that is scheduled every [ConsoleTime] ticks;
    [PollFile] is true when a character has been typed. *)
Definition CheckCharAvail (s : SynchConsole) : SynchConsole :=
  let d := cons s in
  if negb (incoming d =? EOF) then s
  else
    match keyboard d with
    | [] => s
    | c :: r =>
        mkSynchConsole (mkConsole r (display d) (putBusy d) c) (synchReadAvail s + 1) (synchWriteAvail s)
          (RLineBlock s) (WLineBlock s) (numConsoleCharsRead s + 1) (numConsoleCharsWritten s)
    end.
Definition WriteDone (s : SynchConsole) : SynchConsole :=
  let d := cons s in
  mkSynchConsole (mkConsole (keyboard d) (display d) false (incoming d)) (synchReadAvail s)
    (synchWriteAvail s + 1) (RLineBlock s) (WLineBlock s) (numConsoleCharsRead s) (numConsoleCharsWritten s + 1).

Definition set_cons (s : SynchConsole) (d : Console) : SynchConsole :=
  mkSynchConsole d (synchReadAvail s) (synchWriteAvail s) (RLineBlock s) (WLineBlock s)
    (numConsoleCharsRead s) (numConsoleCharsWritten s).
Definition GetChar : st SynchConsole Z := fun s =>
  let d := cons s in
  Ok (incoming d, set_cons s (mkConsole (keyboard d) (display d) (putBusy d) EOF)).
Definition PutChar (ch : Z) : st SynchConsole unit := fun s =>
  let d := cons s in
  ASSERT (negb (putBusy d));
  Ok (tt, set_cons s (mkConsole (keyboard d) (display d ++ [ch]) true (incoming d))).

(** ** Semaphores *)

Definition set_read (s : SynchConsole) (v : Z) : SynchConsole :=
  mkSynchConsole (cons s) v (synchWriteAvail s) (RLineBlock s) (WLineBlock s)
    (numConsoleCharsRead s) (numConsoleCharsWritten s).
Definition set_write (s : SynchConsole) (v : Z) : SynchConsole :=
  mkSynchConsole (cons s) (synchReadAvail s) v (RLineBlock s) (WLineBlock s)
    (numConsoleCharsRead s) (numConsoleCharsWritten s).
Definition set_rline (s : SynchConsole) (v : Z) : SynchConsole :=
  mkSynchConsole (cons s) (synchReadAvail s) (synchWriteAvail s) v (WLineBlock s)
    (numConsoleCharsRead s) (numConsoleCharsWritten s).
Definition set_wline (s : SynchConsole) (v : Z) : SynchConsole :=
  mkSynchConsole (cons s) (synchReadAvail s) (synchWriteAvail s) (RLineBlock s) v
    (numConsoleCharsRead s) (numConsoleCharsWritten s).

(** [synchReadAvail->P()]: with no unit, the poll brings one if it can. *)
Definition P_read : st SynchConsole unit := fun s =>
  let s := if synchReadAvail s =? 0 then CheckCharAvail s else s in
  if synchReadAvail s =? 0 then NoFuel else Ok (tt, set_read s (synchReadAvail s - 1)).
(** [synchWriteAvail->P()]: the display is done when it was busy. *)
Definition P_write : st SynchConsole unit := fun s =>
  let s := if (synchWriteAvail s =? 0) && putBusy (cons s) then WriteDone s else s in
  if synchWriteAvail s =? 0 then NoFuel else Ok (tt, set_write s (synchWriteAvail s - 1)).
Definition P_rline : st SynchConsole unit := fun s =>
  if RLineBlock s =? 0 then NoFuel else Ok (tt, set_rline s (RLineBlock s - 1)).
Definition P_wline : st SynchConsole unit := fun s =>
  if WLineBlock s =? 0 then NoFuel else Ok (tt, set_wline s (WLineBlock s - 1)).
Definition V_rline : st SynchConsole unit := fun s => Ok (tt, set_rline s (RLineBlock s + 1)).
Definition V_wline : st SynchConsole unit := fun s => Ok (tt, set_wline s (WLineBlock s + 1)).

(** ** SynchConsole *)

Definition Write (from : list Z) (numBytes : Z) : st SynchConsole Z :=
  P_wline;;
  for_st 0 numBytes (fun loop _ => c ← lift (rd from loop); PutChar c;; P_write) tt;;
  V_wline;;
  mret numBytes.

(** [do { P(); ch = GetChar(); } while (ch == EOF);] *)
Fixpoint next_char (fuel : nat) : st SynchConsole Z :=
  match fuel with
  | O => lift NoFuel
  | S n => P_read;; ch ← GetChar; if ch =? EOF then next_char n else mret ch
  end.
(** The loop over the line: the characters stored, [loop] and [ch]. *)
Fixpoint read_loop (fuel : nat) (numBytes loop : Z) (into : list Z) (ch : option Z)
  : st SynchConsole (list Z * Z * option Z) :=
  if loop <? numBytes then
    match fuel with
    | O => lift NoFuel
    | S n =>
        c ← next_char fuel;
        if (c =? LF) || (c =? CtrlA) then mret (into, loop, Some c)
        else into' ← lift (wr into loop c); read_loop n numBytes (loop + 1) into' (Some c)
    end
  else mret (into, loop, ch).

(** [into] is the caller's buffer; a test of [ch] that was never set is
    undefined. *)
Definition Read (into : list Z) (numBytes : Z) : st SynchConsole (Z * list Z) := fun s =>
  into ← for_range 0 numBytes (fun loop l => wr l loop 0) into;
  let fuel := S (Z.to_nat (synchReadAvail s) + length (keyboard (cons s))) in
  (P_rline;;
   '(into, loop, ch) ← read_loop fuel numBytes 0 into None;
   V_rline;;
   match ch with
   | None => lift UB
   | Some c => mret (if c =? CtrlA then -1 else loop, into)
   end) s.

(** ** The characters that a reader will get *)

Definition chars (s : SynchConsole) : list Z :=
  (if incoming (cons s) =? EOF then [] else [incoming (cons s)]) ++
  filter (fun c => c <> EOF) (keyboard (cons s)).
(** Rounds that the reader can still make. *)
Definition rounds (s : SynchConsole) : nat := Z.to_nat (synchReadAvail s) + length (keyboard (cons s)).

(** A buffered character has its unit; the display is free, nobody is in the
    middle of a line. *)
Record sc_ok (s : SynchConsole) : Prop := {
  so_avail : 0 <= synchReadAvail s;
  so_unit : incoming (cons s) <> EOF -> 1 <= synchReadAvail s;
  so_write : synchWriteAvail s = 0;
  so_busy : putBusy (cons s) = false
}.
(** What reading leaves alone. *)
Definition same_out (s s' : SynchConsole) : Prop :=
  display (cons s') = display (cons s) /\ RLineBlock s' = RLineBlock s /\ WLineBlock s' = WLineBlock s.

Lemma same_out_trans s1 s2 s3 : same_out s1 s2 -> same_out s2 s3 -> same_out s1 s3.
Proof. intros (? & ? & ?) (? & ? & ?). split_and!; congruence. Qed.

(** A poll that comes at any time changes nothing of this. *)
Lemma poll_ok s : sc_ok s -> sc_ok (CheckCharAvail s) /\ chars (CheckCharAvail s) = chars s /\
  same_out s (CheckCharAvail s).
Proof.
  intros [H1 H2 H3 H4]. unfold CheckCharAvail. destruct (Z.eqb_spec (incoming (cons s)) EOF) as [E|E]; simpl.
  2:{ by split. }
  destruct (keyboard (cons s)) as [|c r] eqn:Ek; [by split|]. split; [split; simpl; try done; lia|].
  split; [|done]. unfold chars. simpl. rewrite E, Ek. simpl. destruct (Z.eqb_spec c EOF) as [->|Hc].
  - rewrite filter_cons_False by (intros H; by apply H). done.
  - by rewrite filter_cons_True.
Qed.

(** One character out of the device. *)
Definition one_char : st SynchConsole Z := P_read;; GetChar.
Lemma one_char_ok s :
  sc_ok s -> chars s <> [] ->
  exists c s', one_char s = Ok (c, s') /\ sc_ok s' /\ same_out s s' /\ (rounds s' < rounds s)%nat /\
    chars s = (if c =? EOF then [] else [c]) ++ chars s'.
Proof.
  intros Hs Hne.
  set (s1 := if synchReadAvail s =? 0 then CheckCharAvail s else s).
  assert (sc_ok s1 /\ chars s1 = chars s /\ same_out s s1 /\ 1 <= synchReadAvail s1 /\ rounds s1 = rounds s)
    as (Hs1 & Hc1 & Ho1 & Ha1 & Hr1).
  { unfold s1. destruct (Z.eqb_spec (synchReadAvail s) 0) as [E|E].
    2:{ pose proof (so_avail _ Hs). split_and!; try done. lia. }
    destruct (poll_ok s Hs) as (H1 & H2 & H3).
    assert (1 <= synchReadAvail (CheckCharAvail s) /\ rounds (CheckCharAvail s) = rounds s) as [H4 H5];
      [|by split_and!].
    unfold CheckCharAvail, rounds in *. pose proof (so_unit _ Hs) as Hu.
    destruct (Z.eqb_spec (incoming (cons s)) EOF) as [Ei|Ei]; [|specialize (Hu Ei); lia]. simpl.
    destruct (keyboard (cons s)) as [|c r] eqn:Ek.
    { unfold chars in Hne. by rewrite Ei, Ek in Hne. }
    simpl. rewrite E. split; simpl; lia. }
  assert (P_read s = Ok (tt, set_read s1 (synchReadAvail s1 - 1))) as HP.
  { unfold P_read. cbv zeta. fold s1. by rewrite (proj2 (Z.eqb_neq (synchReadAvail s1) 0)) by lia. }
  unfold one_char. rewrite (st_bind_Ok _ _ _ _ _ HP). unfold GetChar.
  eexists _, _. split; [done|]. simpl. destruct Hs1 as [H1 H2 H3 H4], Ho1 as (D1 & D2 & D3).
  split; [split; simpl; try done; lia|]. split; [done|]. split; [unfold rounds in *; simpl; lia|].
  rewrite <-Hc1. unfold chars. simpl. done.
Qed.

Lemma next_char_ok fuel : forall s,
  sc_ok s -> chars s <> [] -> (rounds s < fuel)%nat ->
  exists c s', next_char fuel s = Ok (c, s') /\ sc_ok s' /\ same_out s s' /\
    (rounds s' < rounds s)%nat /\ chars s = c :: chars s'.
Proof.
  induction fuel as [|n IH]; intros s Hs Hne Hf; [lia|].
  destruct (one_char_ok s Hs Hne) as (c & s1 & H1 & Hs1 & Ho1 & Hr1 & Hc1).
  assert (next_char (S n) s = (if c =? EOF then next_char n else mret c) s1) as ->.
  { cbn [next_char]. unfold one_char, mbind, st_bind in *. destruct (P_read s) as [[[] s2]| | | |]; try done.
    by rewrite H1. }
  destruct (Z.eqb_spec c EOF) as [->|Hc].
  - simpl in Hc1. rewrite Hc1 in Hne. destruct (IH s1 Hs1 Hne) as (c & s2 & H2 & Hs2 & Ho2 & Hr2 & Hc2); [lia|].
    exists c, s2. split_and!; try done; [by eapply same_out_trans|lia|congruence].
  - exists c, s1. done.
Qed.

(** The line that a read of at most [n] characters gets out of [cs]: the
    characters, the last one looked at, and what is left. *)
Fixpoint take_line (n : nat) (last : Z) (cs : list Z) : option (list Z * Z * list Z) :=
  match n with
  | O => Some ([], last, cs)
  | S n' =>
      match cs with
      | [] => None
      | c :: r =>
          if (c =? LF) || (c =? CtrlA) then Some ([], c, r)
          else '(l, e, r') ← take_line n' c r; Some (c :: l, e, r')
      end
  end.

Lemma splice_cons {A} (l : list A) i x xs :
  0 <= i < zlen l -> i + 1 + zlen xs <= zlen l -> splice i (x :: xs) l = splice (i + 1) xs (zset l i x).
Proof.
  intros Hi Hl. pose proof (zlen_nonneg xs). assert (zlen (x :: xs) = 1 + zlen xs) as Hx by apply zlen_cons.
  apply zget_ext_range.
  - rewrite !zlen_splice; rewrite ?zlen_zset; try lia.
  - intros j Hj. rewrite !zget_splice by (rewrite ?zlen_zset; lia). rewrite Hx, zget_zset.
    repeat case_decide; try lia; try done.
    + rewrite zget_cons_S by lia. f_equal. lia.
    + replace (j - i) with 0 by lia. done.
Qed.

Lemma read_loop_ok fuel : forall s numBytes loop into ch e l e' r,
  sc_ok s -> (rounds s < fuel)%nat -> 0 <= loop <= numBytes -> numBytes <= zlen into ->
  (loop < numBytes \/ ch = Some e) ->
  take_line (Z.to_nat (numBytes - loop)) e (chars s) = Some (l, e', r) ->
  exists s', read_loop fuel numBytes loop into ch s = Ok (splice loop l into, loop + zlen l, Some e', s') /\
    sc_ok s' /\ same_out s s' /\ chars s' = r /\ zlen l <= numBytes - loop.
Proof.
  induction fuel as [|n IH]; intros s nb loop into ch e l e' r Hs Hf Hl Hb Hch Ht; [lia|].
  cbn [read_loop]. destruct (Z.ltb_spec loop nb) as [Hlt|Hge].
  2:{ replace (Z.to_nat (nb - loop)) with O in Ht by lia. simpl in Ht. injection Ht as <- <- <-.
      destruct Hch as [?| ->]; [lia|]. exists s.
      assert (splice loop [] into = into) as ->.
      { unfold splice. simpl. rewrite Nat.add_0_r. apply take_drop. }
      split_and!; try done; [by rewrite zlen_nil, Z.add_0_r|rewrite zlen_nil; lia]. }
  replace (Z.to_nat (nb - loop)) with (S (Z.to_nat (nb - (loop + 1)))) in Ht by lia. cbn [take_line] in Ht.
  destruct (chars s) as [|c0 cs] eqn:Ec; [done|].
  destruct (next_char_ok (S n) s Hs) as (c & s1 & H1 & Hs1 & Ho1 & Hr1 & Hc1); [by rewrite Ec|lia|].
  rewrite Ec in Hc1. injection Hc1 as <- Hcs. rewrite (st_bind_Ok _ _ _ _ _ H1).
  destruct ((c0 =? LF) || (c0 =? CtrlA)).
  - injection Ht as <- <- <-. exists s1. assert (splice loop [] into = into) as ->.
    { unfold splice. simpl. rewrite Nat.add_0_r. apply take_drop. }
    split_and!; try done; [by rewrite zlen_nil, Z.add_0_r|rewrite zlen_nil; lia].
  - destruct (take_line _ c0 cs) as [[[l1 e1] r1]|] eqn:Et; [|done]. simpl in Ht. injection Ht as <- <- <-.
    rewrite (lift_bind_Ok _ _ _ (zset into loop c0)) by (apply wr_Ok; lia).
    destruct (IH s1 nb (loop + 1) (zset into loop c0) (Some c0) c0 l1 e1 r1) as (s2 & H2 & Hs2 & Ho2 & Hr2 & Hz2);
      [done|lia|lia|by rewrite zlen_zset|by right|by rewrite <-Hcs|].
    exists s2. rewrite H2, splice_cons by lia. rewrite zlen_cons. split; [by replace (loop + (1 + zlen l1)) with (loop + 1 + zlen l1) by lia|].
    split_and!; try done; [by eapply same_out_trans|lia].
Qed.

(** *** Waiting *)

(** Whatever there is to read, and however long the reader tries. *)
Lemma one_char_cases s :
  sc_ok s -> one_char s = NoFuel \/
  exists c s', one_char s = Ok (c, s') /\ sc_ok s' /\ chars s = (if c =? EOF then [] else [c]) ++ chars s'.
Proof.
  intros Hs. set (s1 := if synchReadAvail s =? 0 then CheckCharAvail s else s).
  assert (sc_ok s1 /\ chars s1 = chars s) as [Hs1 Hc1].
  { unfold s1. destruct (synchReadAvail s =? 0); [|done]. by destruct (poll_ok s Hs) as (? & ? & _). }
  unfold one_char, mbind, st_bind, P_read. cbv zeta. fold s1.
  destruct (Z.eqb_spec (synchReadAvail s1) 0) as [E|E]; [by left|right].
  unfold GetChar. eexists _, _. split; [done|]. destruct Hs1 as [H1 H2 H3 H4].
  split; [split; simpl; try done; lia|]. rewrite <-Hc1. done.
Qed.
Lemma next_char_cases fuel : forall s,
  sc_ok s -> next_char fuel s = NoFuel \/
  exists c s', next_char fuel s = Ok (c, s') /\ sc_ok s' /\ chars s = c :: chars s'.
Proof.
  induction fuel as [|n IH]; intros s Hs; [by left|].
  assert (next_char (S n) s = (c ← one_char; if c =? EOF then next_char n else mret c) s) as ->.
  { cbn [next_char]. unfold one_char, mbind, st_bind. by destruct (P_read s) as [[[] ?]| | | |]. }
  destruct (one_char_cases s Hs) as [H1|(c & s1 & H1 & Hs1 & Hc1)].
  { left. unfold mbind, st_bind. by rewrite H1. }
  rewrite (st_bind_Ok _ _ _ _ _ H1). destruct (Z.eqb_spec c EOF) as [->|Hc].
  - simpl in Hc1. rewrite Hc1. by apply IH.
  - right. by exists c, s1.
Qed.
(** Without a whole line no number of rounds ends the loop. *)
Lemma read_loop_waits fuel : forall s numBytes loop into ch e,
  sc_ok s -> 0 <= loop <= numBytes -> numBytes <= zlen into ->
  take_line (Z.to_nat (numBytes - loop)) e (chars s) = None ->
  read_loop fuel numBytes loop into ch s = NoFuel.
Proof.
  induction fuel as [|n IH]; intros s nb loop into ch e Hs Hl Hb Ht.
  all: assert (loop < nb) as Hlt by (destruct (Z.eq_dec loop nb) as [->|]; [by rewrite Z.sub_diag in Ht|lia]).
  all: cbn [read_loop]; rewrite (proj2 (Z.ltb_lt _ _) Hlt).
  { done. }
  replace (Z.to_nat (nb - loop)) with (S (Z.to_nat (nb - (loop + 1)))) in Ht by lia. cbn [take_line] in Ht.
  destruct (next_char_cases (S n) s Hs) as [H1|(c & s1 & H1 & Hs1 & Hc1)].
  { unfold mbind, st_bind. by rewrite H1. }
  rewrite (st_bind_Ok _ _ _ _ _ H1). rewrite Hc1 in Ht. destruct ((c =? LF) || (c =? CtrlA)); [done|].
  rewrite (lift_bind_Ok _ _ _ (zset into loop c)) by (apply wr_Ok; lia).
  apply (IH s1 nb (loop + 1) _ _ c); [done|lia|by rewrite zlen_zset|].
  by destruct (take_line _ c (chars s1)) as [[[]]|].
Qed.

(** Clearing the caller's buffer. *)
Lemma clear_loop_ok (into : list Z) n :
  0 <= n <= zlen into -> for_range 0 n (fun loop l => wr l loop 0) into =
    Ok (splice 0 (replicate (Z.to_nat n) 0) into).
Proof.
  intros Hn. edestruct (for_range_inv (fun i l => zlen l = zlen into /\
    forall j, zget l j = if decide (0 <= j < i) then Some 0 else zget into j)) as (l & -> & Hl & Hz); [| | |f_equal].
  - lia.
  - split; [done|]. intros j. by rewrite decide_False by lia.
  - intros i l Hi [Hl Hz]. rewrite wr_Ok by lia. eexists. split; [done|]. rewrite zlen_zset. split; [done|].
    intros j. rewrite zget_zset, Hz. repeat case_decide; try lia; done.
  - assert (zlen (replicate (Z.to_nat n) 0) = n) as Hr by (unfold zlen; rewrite length_replicate; lia).
    apply zget_ext_range; [by rewrite zlen_splice by lia|]. intros j Hj. rewrite Hz, zget_splice by lia.
    repeat case_decide; try lia; try done. unfold zget. rewrite decide_True by lia. symmetry.
    apply lookup_replicate. lia.
Qed.

Lemma cons_Read_ok s into n l e r :
  sc_ok s -> RLineBlock s = 1 -> 0 < n <= zlen into ->
  take_line (Z.to_nat n) 0 (chars s) = Some (l, e, r) ->
  exists s', Read into n s = Ok (if e =? CtrlA then -1 else zlen l,
      splice 0 l (splice 0 (replicate (Z.to_nat n) 0) into), s') /\
    sc_ok s' /\ same_out s s' /\ chars s' = r.
Proof.
  intros Hs HR Hn Ht. unfold Read. rewrite clear_loop_ok by lia. cbn [mbind res_bind].
  set (into' := splice 0 _ into). assert (zlen into' = zlen into) as Hi'.
  { unfold into'. rewrite zlen_splice; [done|done|]. unfold zlen at 1. rewrite length_replicate. lia. }
  rewrite (st_bind_Ok P_rline _ s tt (set_rline s 0)) by (unfold P_rline; by rewrite HR).
  destruct (read_loop_ok (S (Z.to_nat (synchReadAvail s) + length (keyboard (cons s)))) (set_rline s 0) n 0 into'
    None 0 l e r) as (s1 & H1 & [H2 H3 H4 H5] & (D1 & D2 & D3) & Hc & Hl); [by destruct Hs|unfold rounds; simpl; lia|lia|lia|
    left; lia|by rewrite Z.sub_0_r|].
  rewrite (st_bind_Ok _ _ _ _ _ H1), (st_bind_Ok V_rline _ s1 tt (set_rline s1 (RLineBlock s1 + 1))) by done.
  eexists. split; [done|]. split; [by split|]. simpl in D1, D2, D3.
  split; [split_and!; simpl; [congruence|lia|congruence]|done].
Qed.

Lemma cons_Write_ok s from n :
  sc_ok s -> WLineBlock s = 1 -> 0 <= n <= zlen from ->
  exists s', Write from n s = Ok (n, s') /\ sc_ok s' /\ chars s' = chars s /\
    display (cons s') = display (cons s) ++ slice 0 n from /\
    RLineBlock s' = RLineBlock s /\ WLineBlock s' = WLineBlock s.
Proof.
  intros Hs HW Hn. unfold Write.
  rewrite (st_bind_Ok P_wline _ s tt (set_wline s 0)) by (unfold P_wline; by rewrite HW).
  edestruct (for_st_inv (fun i (_ : unit) s' => sc_ok s' /\ chars s' = chars s /\
     display (cons s') = display (cons s) ++ slice 0 i from /\ RLineBlock s' = RLineBlock s /\ WLineBlock s' = 0))
    as ([] & s1 & H1 & (Hs1 & Hc1 & Hd1 & HR1 & HW1)); [| | |rewrite (st_bind_Ok _ _ _ _ _ H1)].
  - lia.
  - split_and!; try done; [by destruct Hs|]. simpl. unfold slice. simpl. by rewrite app_nil_r.
  - intros i [] s1 Hi ([H1 H2 H3 H4] & Hc & Hd & HR & HW1). destruct (rd_total from i) as (c & Hc1 & Hc2); [lia|].
    rewrite (lift_bind_Ok _ _ _ _ Hc1). unfold PutChar, P_write, mbind, st_bind. rewrite H4. cbn [negb].
    simpl. rewrite H3. simpl. rewrite H3. simpl. eexists tt, _. split; [done|].
    split; [by split|]. split; [done|]. split; [|done]. simpl. rewrite Hd, <-app_assoc. f_equal. unfold slice. simpl.
    replace (Z.to_nat (i + 1)) with (S (Z.to_nat i)) by lia. symmetry. apply take_S_r.
    unfold zget in Hc2. by rewrite decide_True in Hc2 by lia.
  - rewrite (st_bind_Ok V_wline _ s1 tt (set_wline s1 1)) by (unfold V_wline; by rewrite HW1).
    eexists. split; [done|]. split_and!; try done. by destruct Hs1.
Qed.

(** ** Properties *)

(** C39. Reading the console.  [Read] of [n > 0] characters looks at what has
    been typed (bytes 0xFF aside, which the device cannot tell from an empty
    buffer).  If that holds a line end, a ^A or [n] characters, [Read] returns
    after finitely many waits, with the characters before the line end (at most
    [n]) in the cleared buffer and their number, or -1 after ^A; it takes these
    characters and the line end (or ^A) that stopped it from the input and
    writes nothing.  If not, it waits: it does not return, however many rounds
    its loop makes.  A poll of the device before the call changes neither. *)
Theorem console_read_returns (s : SynchConsole) (into : list Z) (n : Z) :
  sc_ok s -> RLineBlock s = 1 -> 0 < n <= zlen into ->
  match take_line (Z.to_nat n) 0 (chars s) with
  | Some (l, e, r) =>
      exists s', Read into n s = Ok (if e =? CtrlA then -1 else zlen l,
          splice 0 l (splice 0 (replicate (Z.to_nat n) 0) into), s') /\
        sc_ok s' /\ same_out s s' /\ chars s' = r
  | None =>
      Read into n s = NoFuel /\
      forall fuel buffer, zlen buffer = zlen into -> read_loop fuel n 0 buffer None (set_rline s 0) = NoFuel
  end /\
  sc_ok (CheckCharAvail s) /\ chars (CheckCharAvail s) = chars s.
Proof.
  intros Hs HR Hn. split; [|by destruct (poll_ok s Hs) as (? & ? & _)].
  destruct (take_line _ 0 (chars s)) as [[[l e] r]|] eqn:Ht; [by apply cons_Read_ok|].
  assert (forall fuel buffer, zlen buffer = zlen into -> read_loop fuel n 0 buffer None (set_rline s 0) = NoFuel) as Hw.
  { intros fuel buffer Hl. apply (read_loop_waits fuel _ n 0 _ None 0); [by destruct Hs|lia|lia|by rewrite Z.sub_0_r]. }
  split; [|done]. unfold Read. rewrite clear_loop_ok by lia. cbn [mbind res_bind].
  rewrite (st_bind_Ok P_rline _ s tt (set_rline s 0)) by (unfold P_rline; by rewrite HR).
  unfold mbind, st_bind. rewrite Hw; [done|]. rewrite zlen_splice; [done|done|]. unfold zlen at 1. rewrite length_replicate. lia.
Qed.
(** "hi" and a line end are typed behind a byte 0xFF. *)
Definition typed_hi : SynchConsole := new_SynchConsole [EOF; 104; 105; LF; 33].
Lemma new_SynchConsole_ok typed : sc_ok (new_SynchConsole typed).
Proof. by split. Qed.
Lemma console_read_returns_witness :
  (exists s', Read (replicate 4 7) 4 typed_hi = Ok (2, [104; 105; 0; 0], s') /\ chars s' = [33]) /\
  Read (replicate 4 7) 4 (new_SynchConsole [104; 105]) = NoFuel.
Proof.
  split.
  - destruct (console_read_returns typed_hi (replicate 4 7) 4) as [(s' & H & _ & _ & Hc) _];
      [apply new_SynchConsole_ok|reflexivity|by vm_compute|].
    exists s'. split; [exact H|exact Hc].
  - destruct (console_read_returns (new_SynchConsole [104; 105]) (replicate 4 7) 4) as [[H _] _];
      [apply new_SynchConsole_ok|reflexivity|by vm_compute|exact H].
Defined.

(** Writing to the console: [Write] of [n] characters returns [n]; each
    character is put on the display when the one before is done (so the ASSERT
    in [PutChar] never fails), in order and nothing else, and the input is not
    touched. *)
Theorem console_write_returns (s : SynchConsole) (from : list Z) (n : Z) :
  sc_ok s -> WLineBlock s = 1 -> 0 <= n <= zlen from ->
  exists s', Write from n s = Ok (n, s') /\ sc_ok s' /\ chars s' = chars s /\
    display (cons s') = display (cons s) ++ slice 0 n from /\
    RLineBlock s' = RLineBlock s /\ WLineBlock s' = WLineBlock s.
Proof. apply cons_Write_ok. Qed.
Lemma console_write_returns_witness :
  exists s', Write [72; 105; 10] 2 typed_hi = Ok (2, s') /\ display (cons s') = [72; 105].
Proof.
  destruct (console_write_returns typed_hi [72; 105; 10] 2) as (s' & H & _ & _ & Hd & _).
  - apply new_SynchConsole_ok.
  - reflexivity.
  - by vm_compute.
  - exists s'. split; [exact H|exact Hd].
Defined.
