(* ===== verification/StubFS.v ===== *)
(** * filesys/filesys.h and filesys/openfile.h with FILESYS_STUB, and the file
    calls of machine/sysdep.cc

    The user-program kernel keeps its files in the UNIX file system of the
    host.  The host is a directory of names, files with their bytes, and the
    table of file descriptors of this process (lowest free number first, at
    most [open_max]); [permits] says which names the host lets the kernel
    open.  On it are the routines of sysdep.cc, which stop in ASSERT when the
    host refuses, the [OpenFile] objects with their offsets, and the
    [FileSystem] with its list of ten open files. *)

From S2P Require Import Prelude.
From stdpp Require Import gmap list sets.
#[local] Open Scope Z_scope.

(** An open file description: the file, the offset, may it be written? *)
Record descr := mkDescr { inode : Z; offset : Z; writable : bool }.
Record unix := mkUnix {
  dirents : gmap (list Z) Z;
  inodes : gmap Z (list Z);
  fds : gmap Z descr
}.
Definition set_dirents u v := mkUnix v (inodes u) (fds u).
Definition set_inodes u v := mkUnix (dirents u) v (fds u).
Definition set_fds u v := mkUnix (dirents u) (inodes u) v.

Section host.
Context (permits : list Z -> bool) (open_max : nat).

(** ** System calls of the host *)

Definition free_fd (u : unix) : option Z :=
  head (filter (fun i => fds u !! i = None) (seqZ 3 (Z.of_nat open_max - 3))).
Definition new_fd (u : unix) (ino : Z) (w : bool) : Z * unix :=
  match free_fd u with
  | None => (-1, u)
  | Some fd => (fd, set_fds u (<[fd := mkDescr ino 0 w]> (fds u)))
  end.
(** [open] of an existing file. *)
Definition open_existing (u : unix) (name : list Z) (w : bool) : Z * unix :=
  match dirents u !! name with
  | Some ino => if permits name then new_fd u ino w else (-1, u)
  | None => (-1, u)
  end.
(** [open] with O_CREAT and O_TRUNC. *)
Definition open_create (u : unix) (name : list Z) : Z * unix :=
  if negb (permits name) then (-1, u)
  else
    match free_fd u with
    | None => (-1, u)
    | Some _ =>
        let ino := match dirents u !! name with Some i => i | None => fresh (dom (inodes u)) end in
        new_fd (set_inodes (set_dirents u (<[name := ino]> (dirents u))) (<[ino := []]> (inodes u))) ino true
    end.

Definition fd_at (u : unix) (fd : Z) : option (descr * list Z) :=
  d ← fds u !! fd; c ← inodes u !! inode d; Some (d, c).
Definition set_offset (u : unix) (fd : Z) (d : descr) (o : Z) : unix :=
  set_fds u (<[fd := mkDescr (inode d) o (writable d)]> (fds u)).
(** The bytes read, or [None] for -1. *)
Definition host_read (u : unix) (fd n : Z) : option (list Z) * unix :=
  match fd_at u fd with
  | Some (d, c) =>
      if n <? 0 then (None, u)
      else let bs := slice (offset d) n c in (Some bs, set_offset u fd d (offset d + zlen bs))
  | None => (None, u)
  end.
(** [write]: bytes behind the end of the file read as 0. *)
Definition overwrite (c : list Z) (o : Z) (bs : list Z) : list Z :=
  take (Z.to_nat o) (c ++ replicate (Z.to_nat (o - zlen c)) 0) ++ bs ++ drop (Z.to_nat o + length bs) c.
Definition host_write (u : unix) (fd : Z) (bs : list Z) : Z * unix :=
  match fd_at u fd with
  | Some (d, c) =>
      if writable d then
        (zlen bs, set_offset (set_inodes u (<[inode d := overwrite c (offset d) bs]> (inodes u)))
                    fd d (offset d + zlen bs))
      else (-1, u)
  | None => (-1, u)
  end.
(** [lseek] with SEEK_SET (0), SEEK_CUR (1) and SEEK_END (2). *)
Definition host_lseek (u : unix) (fd o whence : Z) : Z * unix :=
  match fd_at u fd with
  | Some (d, c) =>
      let p := (if whence =? 0 then 0 else if whence =? 1 then offset d else zlen c) + o in
      if p <? 0 then (-1, u) else (p, set_offset u fd d p)
  | None => (-1, u)
  end.
Definition host_close (u : unix) (fd : Z) : Z * unix :=
  match fds u !! fd with
  | Some _ => (0, set_fds u (delete fd (fds u)))
  | None => (-1, u)
  end.
Definition host_unlink (u : unix) (name : list Z) : Z * unix :=
  match dirents u !! name with
  | Some _ => (0, set_dirents u (delete name (dirents u)))
  | None => (-1, u)
  end.

(** ** machine/sysdep.cc *)

Definition OpenForWrite (name : list Z) : st unix Z := fun u =>
  let '(fd, u) := open_create u name in ASSERT (0 <=? fd); Ok (fd, u).
Definition OpenForRead (name : list Z) : st unix Z := fun u => Ok (open_existing u name false).
Definition OpenForReadWrite (name : list Z) (crashOnError : bool) : st unix Z := fun u =>
  let '(fd, u) := open_existing u name true in ASSERT (negb crashOnError || (0 <=? fd)); Ok (fd, u).
Definition ReadPartial (fd nBytes : Z) : st unix (option (list Z)) := fun u => Ok (host_read u fd nBytes).
Definition WriteFile (fd : Z) (bs : list Z) : st unix unit := fun u =>
  let '(retVal, u) := host_write u fd bs in ASSERT (retVal =? zlen bs); Ok (tt, u).
Definition Lseek (fd o whence : Z) : st unix unit := fun u =>
  let '(retVal, u) := host_lseek u fd o whence in ASSERT (0 <=? retVal); Ok (tt, u).
Definition Tell (fd : Z) : st unix Z := fun u => Ok (host_lseek u fd 0 1).
Definition sys_Close (fd : Z) : st unix unit := fun u =>
  let '(retVal, u) := host_close u fd in ASSERT (0 <=? retVal); Ok (tt, u).
Definition Unlink (name : list Z) : st unix bool := fun u =>
  let '(r, u) := host_unlink u name in Ok (negb (r =? 0), u).

(** ** OpenFile *)

(** [type] is not set by the constructor without it. *)
Record OpenFile := mkOpenFile { file : Z; type : option Z; currentOffset : Z }.
Definition new_OpenFile (f : Z) : OpenFile := mkOpenFile f None 0.
Definition new_OpenFile_t (f t : Z) : OpenFile := mkOpenFile f (Some t) 0.
Definition delete_OpenFile (f : OpenFile) : st unix unit := sys_Close (file f).
(** The bytes read and the count that is returned. *)
Definition ReadAt (f : OpenFile) (numBytes position : Z) : st unix (list Z * Z) :=
  Lseek (file f) position 0;;
  r ← ReadPartial (file f) numBytes;
  mret (match r with Some bs => (bs, zlen bs) | None => ([], -1) end).
Definition WriteAt (f : OpenFile) (from : list Z) (numBytes position : Z) : st unix Z :=
  Lseek (file f) position 0;;
  bs ← lift (if numBytes <? 0 then UB else bytes_from from 0 numBytes);
  WriteFile (file f) bs;;
  mret numBytes.
Definition Read (f : OpenFile) (numBytes : Z) : st unix (list Z * Z * OpenFile) :=
  '(bs, n) ← ReadAt f numBytes (currentOffset f);
  mret (bs, n, mkOpenFile (file f) (type f) (currentOffset f + n)).
Definition Write (f : OpenFile) (from : list Z) (numBytes : Z) : st unix (Z * OpenFile) :=
  n ← WriteAt f from numBytes (currentOffset f);
  mret (n, mkOpenFile (file f) (type f) (currentOffset f + n)).
Definition Length (f : OpenFile) : st unix Z := Lseek (file f) 0 2;; Tell (file f).
Definition GetID (f : OpenFile) : Z := file f.
Definition GetType (f : OpenFile) : res Z := match type f with Some t => Ok t | None => UB end.
Definition GetCurSeekPos (f : OpenFile) : Z := currentOffset f.

(** ** FileSystem *)

Record FileSystem := mkFileSystem { ux : unix; openFileList : list (option OpenFile) }.
Definition on_unix {A} (c : st unix A) : st FileSystem A := fun s =>
  '(a, u) ← c (ux s); Ok (a, mkFileSystem u (openFileList s)).
Definition set_list (l : list (option OpenFile)) : st FileSystem unit := fun s =>
  Ok (tt, mkFileSystem (ux s) l).
Definition list_at (i : Z) : st FileSystem (option OpenFile) := fun s =>
  o ← rd (openFileList s) i; Ok (o, s).
Definition list_put (i : Z) (o : option OpenFile) : st FileSystem unit := fun s =>
  l ← wr (openFileList s) i o; Ok (tt, mkFileSystem (ux s) l).

Definition Close (id : Z) : st FileSystem bool :=
  o ← list_at id;
  match o with
  | None => mret false
  | Some f => on_unix (delete_OpenFile f);; list_put id None;; mret true
  end.
(** [~FileSystem()]: place 0 is not closed. *)
Definition delete_FileSystem : st FileSystem unit :=
  for_st 1 10 (fun i _ => Close i;; mret tt) tt;; set_list [].
(** [Close] in the body is the member function, so its argument, a file
    descriptor of the host, is taken for a place in the list. *)
Definition Create (name : list Z) (initialSize : Z) : st FileSystem bool :=
  fileDescriptor ← on_unix (OpenForWrite name);
  if fileDescriptor =? -1 then mret false
  else Close fileDescriptor;; mret true.
Definition Open (name : list Z) : st FileSystem (option OpenFile) :=
  fileDescriptor ← on_unix (OpenForReadWrite name false);
  if fileDescriptor =? -1 then mret None else mret (Some (new_OpenFile fileDescriptor)).
(** [junk] is the value of [fileDescriptor], which types 2 and 3 leave unset. *)
Definition Open_t (junk : Z) (name : list Z) (type : Z) : st FileSystem (option OpenFile) :=
  fileDescriptor ← (if type =? 0 then on_unix (OpenForReadWrite name false)
                    else if type =? 1 then on_unix (OpenForRead name)
                    else mret junk);
  if fileDescriptor =? -1 then mret None else mret (Some (new_OpenFile_t fileDescriptor type)).

Fixpoint find_free_block (n : nat) (i : Z) (l : list (option OpenFile)) : res Z :=
  match n with
  | O => Ok (-1)
  | S n' => o ← rd l i; match o with None => Ok i | Some _ => find_free_block n' (i + 1) l end
  end.
Definition FindFreeBlock : st FileSystem Z := fun s =>
  i ← find_free_block 8 2 (openFileList s); Ok (i, s).
Definition Remove (name : list Z) : st FileSystem bool :=
  b ← on_unix (Unlink name); mret (negb b).

Definition new_FileSystem (u : unix) (junk2 junk3 : Z) (stdin stdout : list Z) : res FileSystem :=
  '(_, s) ← (Create stdin 0;;
             Create stdout 0;;
             f0 ← Open_t junk2 stdin 2;
             list_put 0 f0;;
             f1 ← Open_t junk3 stdout 3;
             list_put 1 f1) (mkFileSystem u (replicate 10 None));
  Ok s.
End host.

(** ** What reading and writing do *)

(** The offset aside, the host is the same. *)
Definition same_files (u u' : unix) : Prop :=
  dirents u' = dirents u /\ inodes u' = inodes u /\
  forall fd, (fun d => (inode d, writable d)) <$> fds u' !! fd = (fun d => (inode d, writable d)) <$> fds u !! fd.
Lemma same_files_offset u fd d o : fds u !! fd = Some d -> same_files u (set_offset u fd d o).
Proof.
  intros Hd. split; [done|]. split; [done|]. intros fd'. simpl. destruct (decide (fd' = fd)) as [->|].
  - by rewrite lookup_insert_eq, Hd.
  - by rewrite lookup_insert_ne.
Qed.
Lemma fd_at_Some u fd d c : fd_at u fd = Some (d, c) <-> fds u !! fd = Some d /\ inodes u !! inode d = Some c.
Proof.
  unfold fd_at. destruct (fds u !! fd) as [d'|]; simpl; [|naive_solver].
  destruct (inodes u !! inode d') eqn:E; simpl; naive_solver.
Qed.
Lemma fd_at_offset u fd d c o : fd_at u fd = Some (d, c) ->
  fd_at (set_offset u fd d o) fd = Some (mkDescr (inode d) o (writable d), c).
Proof. intros [H1 H2]%fd_at_Some. apply fd_at_Some. simpl. by rewrite lookup_insert_eq. Qed.

Lemma Lseek_ok u fd d c o : fd_at u fd = Some (d, c) -> 0 <= o -> Lseek fd o 0 u = Ok (tt, set_offset u fd d o).
Proof.
  intros Hf Ho. unfold Lseek, host_lseek. rewrite Hf. cbn [Z.eqb].
  rewrite Z.add_0_l, (proj2 (Z.ltb_ge o 0)), (proj2 (Z.leb_le 0 o)) by lia. done.
Qed.
Lemma set_offset_twice u fd d o o' :
  set_offset (set_offset u fd d o) fd (mkDescr (inode d) o (writable d)) o' = set_offset u fd d o'.
Proof. unfold set_offset, set_fds. simpl. by rewrite insert_insert_eq. Qed.

Lemma stub_Read_ok u f n d c :
  fd_at u (file f) = Some (d, c) -> 0 <= currentOffset f -> 0 <= n ->
  let bs := slice (currentOffset f) n c in
  exists u', Read f n u = Ok (bs, zlen bs, mkOpenFile (file f) (type f) (currentOffset f + zlen bs), u') /\
    same_files u u'.
Proof.
  intros Hf Ho Hn bs. unfold Read, ReadAt.
  assert (forall k, ((Lseek (file f) (currentOffset f) 0;; k) : st unix (list Z * Z)) u =
    k (set_offset u (file f) d (currentOffset f))) as Hk.
  { intros k. by rewrite (st_bind_Ok _ _ _ _ _ (Lseek_ok _ _ _ _ _ Hf Ho)). }
  unfold mbind at 1, st_bind at 1. rewrite Hk. unfold ReadPartial, host_read, mbind, st_bind.
  rewrite (fd_at_offset _ _ _ _ _ Hf). cbn [offset inode writable].
  rewrite (proj2 (Z.ltb_ge n 0)) by lia. rewrite set_offset_twice. eexists. split; [reflexivity|].
  apply same_files_offset. by apply fd_at_Some in Hf as [? _].
Qed.

Lemma stub_Write_ok u f from n d c :
  fd_at u (file f) = Some (d, c) -> writable d = true -> 0 <= currentOffset f -> 0 <= n <= zlen from ->
  exists u', Write f from n u = Ok (n, mkOpenFile (file f) (type f) (currentOffset f + n), u') /\
    dirents u' = dirents u /\
    inodes u' = <[inode d := overwrite c (currentOffset f) (slice 0 n from)]> (inodes u) /\
    forall fd, (fun d => (inode d, writable d)) <$> fds u' !! fd = (fun d => (inode d, writable d)) <$> fds u !! fd.
Proof.
  intros Hf Hw Ho Hn. unfold Write, WriteAt.
  assert (forall k, ((Lseek (file f) (currentOffset f) 0;; k) : st unix Z) u =
    k (set_offset u (file f) d (currentOffset f))) as Hk.
  { intros k. by rewrite (st_bind_Ok _ _ _ _ _ (Lseek_ok _ _ _ _ _ Hf Ho)). }
  unfold mbind at 1, st_bind at 1. rewrite Hk. clear Hk.
  assert (zlen (slice 0 n from) = n) as Hl by (rewrite zlen_slice; lia).
  rewrite (proj2 (Z.ltb_ge n 0)) by lia. rewrite (lift_bind_Ok _ _ _ (slice 0 n from)) by (apply bytes_from_ok; lia).
  unfold WriteFile, host_write, mbind, st_bind. rewrite (fd_at_offset _ _ _ _ _ Hf). cbn [offset inode writable].
  rewrite Hw, Z.eqb_refl. eexists. split; [reflexivity|]. split; [done|]. split; [done|].
  intros fd. simpl. apply fd_at_Some in Hf as [Hd _]. destruct (decide (fd = file f)) as [->|].
  - rewrite lookup_insert_eq, Hd. simpl. by rewrite Hw.
  - by rewrite !lookup_insert_ne.
Qed.

Lemma take_S_zget {A} (l : list A) i x : zget l i = Some x -> take (Z.to_nat (i + 1)) l = take (Z.to_nat i) l ++ [x].
Proof.
  intros Hx. pose proof (zget_Some_range _ _ _ Hx). replace (Z.to_nat (i + 1)) with (S (Z.to_nat i)) by lia.
  apply take_S_r. unfold zget in Hx. by rewrite decide_True in Hx by lia.
Qed.
(** Writing inside the file, at its end, and reading it back. *)
Lemma overwrite_inside c o bs : 0 <= o -> o + zlen bs <= zlen c -> overwrite c o bs = splice o bs c.
Proof.
  intros Ho Hl. pose proof (zlen_nonneg bs). unfold overwrite, splice.
  replace (Z.to_nat (o - zlen c)) with O by lia. by rewrite app_nil_r.
Qed.
Lemma overwrite_append c bs : overwrite c (zlen c) bs = c ++ bs.
Proof.
  unfold overwrite, zlen. rewrite Z.sub_diag, Nat2Z.id, app_nil_r, take_ge by lia.
  by rewrite drop_ge, app_nil_r by lia.
Qed.
Lemma slice_overwrite c o bs : 0 <= o -> slice o (zlen bs) (overwrite c o bs) = bs.
Proof.
  intros Ho. unfold slice, overwrite, zlen.
  assert (length (take (Z.to_nat o) (c ++ replicate (Z.to_nat (o - Z.of_nat (length c))) 0)) = Z.to_nat o) as Hl.
  { rewrite length_take, length_app, length_replicate. lia. }
  rewrite drop_app_length' by done. rewrite Nat2Z.id. by apply take_app_length'.
Qed.

Section creating.
Context (permits : list Z -> bool) (open_max : nat).

Lemma free_fd_spec u fd : free_fd open_max u = Some fd -> 3 <= fd /\ fds u !! fd = None.
Proof.
  unfold free_fd. intros Hh. apply head_Some_elem_of in Hh. apply list_elem_of_filter in Hh as [Hn Hin].
  apply elem_of_seqZ in Hin. split; [lia|done].
Qed.

Lemma OpenForWrite_ok u name fd :
  permits name = true -> free_fd open_max u = Some fd ->
  exists ino u', OpenForWrite permits open_max name u = Ok (fd, u') /\
    fds u' = <[fd := mkDescr ino 0 true]> (fds u) /\ dirents u' !! name = Some ino /\ inodes u' !! ino = Some [].
Proof.
  intros Hp Hf. unfold OpenForWrite, open_create. rewrite Hp, Hf. cbn [negb].
  set (ino := match dirents u !! name with Some i => i | None => _ end).
  unfold new_fd. set (u1 := set_inodes _ _). assert (free_fd open_max u1 = Some fd) as -> by exact Hf.
  destruct (free_fd_spec _ _ Hf) as [H3 _]. rewrite (proj2 (Z.leb_le 0 fd)) by lia.
  exists ino. eexists. split; [done|]. split; [done|]. simpl. by rewrite !lookup_insert_eq.
Qed.

(** Creating a file through the stub file system.  The host descriptor of
    the new file is never closed; its number is used as a place in the list of
    open files instead: if a user program has a file open there, that file is
    closed behind its back; beyond the ten places the list is read out of its
    bounds; and when the host refuses the name the kernel stops in ASSERT. *)
Theorem create_closes_other_file (s : FileSystem) (name : list Z) (size fd : Z) :
  zlen (openFileList s) = 10 ->
  (permits name = false -> Create permits open_max name size s = AssertFail) /\
  (permits name = true -> free_fd open_max (ux s) = Some fd ->
     (10 <= fd -> Create permits open_max name size s = UB) /\
     (zget (openFileList s) fd = Some None ->
        exists s', Create permits open_max name size s = Ok (true, s') /\
          openFileList s' = openFileList s /\ fds (ux s) !! fd = None /\ is_Some (fds (ux s') !! fd)) /\
     (forall f, zget (openFileList s) fd = Some (Some f) -> is_Some (fds (ux s) !! file f) ->
        exists s', Create permits open_max name size s = Ok (true, s') /\
          zget (openFileList s') fd = Some None /\ fds (ux s') !! file f = None)).
Proof.
  intros Hl. split.
  - intros Hp. unfold Create, on_unix, OpenForWrite, open_create, mbind, st_bind. by rewrite Hp.
  - intros Hp Hf. destruct (free_fd_spec _ _ Hf) as [H3 Hnone].
    destruct (OpenForWrite_ok (ux s) name fd Hp Hf) as (ino & u' & Ho & Hfds & _ & _).
    set (s1 := mkFileSystem u' (openFileList s)).
    assert (Create permits open_max name size s = (Close fd;; mret true) s1) as Heq.
    { unfold Create. rewrite (st_bind_Ok _ _ _ fd s1) by (unfold on_unix; by rewrite Ho).
      by rewrite (proj2 (Z.eqb_neq fd (-1))) by lia. }
    rewrite Heq. clear Heq. split_and!.
    + intros H10. assert (rd (openFileList s) fd = UB) as Hrd by (unfold rd; by rewrite zget_None by lia).
      unfold Close, mbind, st_bind, list_at. simpl. by rewrite Hrd.
    + intros Hz. exists s1. split; [|split; [reflexivity|split; [done|]]].
      * unfold Close, mbind, st_bind, list_at. simpl. by rewrite (proj2 (rd_Ok _ _ _) Hz).
      * simpl. rewrite Hfds, lookup_insert_eq. by eexists.
    + intros f Hz [d Hd]. pose proof (zget_Some_range _ _ _ Hz) as Hr.
      assert (file f <> fd) as Hne by (intros E; rewrite E in Hd; congruence).
      eexists. split; [|split].
      * unfold Close, mbind, st_bind, list_at. simpl. rewrite (proj2 (rd_Ok _ _ _) Hz). simpl.
        unfold on_unix, delete_OpenFile, sys_Close, host_close. simpl. rewrite Hfds, lookup_insert_ne, Hd by done.
        simpl. unfold list_put. simpl. rewrite wr_Ok by lia. reflexivity.
      * simpl. by apply zget_zset_eq.
      * simpl. by rewrite lookup_delete_eq.
Qed.
End creating.

(** ** Shutting down *)

Lemma Close_empty s i : zget (openFileList s) i = Some None -> Close i s = Ok (false, s).
Proof. intros Hz. unfold Close, mbind, st_bind, list_at. by rewrite (proj2 (rd_Ok _ _ _) Hz). Qed.
Lemma Close_open s i o : zget (openFileList s) i = Some (Some o) -> is_Some (fds (ux s) !! file o) ->
  Close i s = Ok (true, mkFileSystem (set_fds (ux s) (delete (file o) (fds (ux s)))) (zset (openFileList s) i None)).
Proof.
  intros Hz [d Hd]. pose proof (zget_Some_range _ _ _ Hz). unfold Close, mbind, st_bind, list_at. rewrite (proj2 (rd_Ok _ _ _) Hz).
  cbn [mbind res_bind]. unfold on_unix, delete_OpenFile, sys_Close, host_close. rewrite Hd. cbn. unfold list_put. cbn. by rewrite wr_Ok.
Qed.
(** The descriptor [fd] belongs to one of the files [1 <= j < i]. *)
Definition listed (l : list (option OpenFile)) (i fd : Z) : Prop := exists j o, 1 <= j < i /\ zget l j = Some (Some o) /\ file o = fd.
(** When every open file has a descriptor of its own, the destructor closes exactly
    the descriptors of the files 1 to 9: the one of stdin stays open. *)
Lemma delete_FileSystem_ok s :
  zlen (openFileList s) = 10 ->
  (forall i o, zget (openFileList s) i = Some (Some o) -> is_Some (fds (ux s) !! file o)) ->
  (forall i j o p, zget (openFileList s) i = Some (Some o) -> zget (openFileList s) j = Some (Some p) -> file o = file p -> i = j) ->
  exists s', delete_FileSystem s = Ok (tt, s') /\
    forall fd, (listed (openFileList s) 10 fd -> fds (ux s') !! fd = None) /\
      (~ listed (openFileList s) 10 fd -> fds (ux s') !! fd = fds (ux s) !! fd).
Proof.
  intros Hl Ho Hd. unfold delete_FileSystem.
  destruct (for_st_inv (fun i (_ : unit) t => (forall j, i <= j -> zget (openFileList t) j = zget (openFileList s) j) /\
      forall fd, (listed (openFileList s) i fd -> fds (ux t) !! fd = None) /\ (~ listed (openFileList s) i fd -> fds (ux t) !! fd = fds (ux s) !! fd))
    (fun i _ => Close i;; mret tt) 1 10 tt s) as ([] & t & E & _ & Ht); [lia| | |].
  - split; [done|]. intros fd. split; [|done]. intros (j & o & Hj & _). lia.
  - intros i [] t Hi [Hsame Hfd]. pose proof (Hsame i ltac:(lia)) as Hz.
    destruct (zget_is_Some (openFileList s) i ltac:(lia)) as [[o|] Hs]; rewrite Hs in Hz.
    + assert (~ listed (openFileList s) i (file o)) as Hnew.
      { intros (j & p & Hj & Hp & Hf). assert (j = i) by (by apply (Hd j i p o)). lia. }
      destruct (Ho i o Hs) as [d Hdd]. rewrite <-(proj2 (Hfd _) Hnew) in Hdd.
      exists tt, (mkFileSystem (set_fds (ux t) (delete (file o) (fds (ux t)))) (zset (openFileList t) i None)). split.
      { unfold mbind, st_bind. by rewrite (Close_open t i o Hz (ex_intro _ d Hdd)). }
      split; [intros j Hj; cbn; rewrite zget_zset_ne by lia; apply Hsame; lia|]. intros fd. cbn.
      destruct (decide (fd = file o)) as [->|Hne].
      { rewrite lookup_delete_eq. split; [done|]. intros Hn. exfalso. apply Hn. exists i, o. split; [lia|done]. }
      rewrite lookup_delete_ne by done. split.
      * intros (j & p & Hj & Hp & Hf). apply Hfd. exists j, p. split; [|done]. destruct (decide (j = i)); [subst; simplify_eq|lia].
      * intros Hn. apply Hfd. intros (j & p & Hj & Hp & Hf). apply Hn. exists j, p. split; [lia|done].
    + exists tt, t. split; [unfold mbind, st_bind; by rewrite (Close_empty t i Hz)|]. split; [intros j Hj; apply Hsame; lia|].
      intros fd. split.
      * intros (j & p & Hj & Hp & Hf). apply Hfd. exists j, p. split; [|done]. destruct (decide (j = i)); [subst; simplify_eq|lia].
      * intros Hn. apply Hfd. intros (j & p & Hj & Hp & Hf). apply Hn. exists j, p. split; [lia|done].
  - rewrite (st_bind_Ok _ _ _ _ _ E). eexists. split; [reflexivity|]. exact Ht.
Qed.

(** Descriptor 3 of the host is free, the program has a file open as number 3. *)
Definition busy_fs : FileSystem :=
  mkFileSystem (mkUnix {[ [97] := 1 ]} {[ 1 := [1; 2] ]} {[ 4 := mkDescr 1 0 true ]})
    (<[3%nat := Some (mkOpenFile 4 (Some 0) 0)]> (replicate 10 None)).
Lemma create_closes_other_file_witness :
  exists s', Create (fun _ => true) 64 [98] 0 busy_fs = Ok (true, s') /\
    zget (openFileList s') 3 = Some None /\ fds (ux s') !! 4 = None.
Proof.
  destruct (create_closes_other_file (fun _ => true) 64 busy_fs [98] 0 3) as [_ H]; [reflexivity|].
  destruct H as (_ & _ & H); [reflexivity|reflexivity|].
  apply (H (mkOpenFile 4 (Some 0) 0)); [reflexivity|]. by eexists.
Defined.
