(* ===== verification/Syscalls.v ===== *)
(** * userprog/exception.cc: system calls

    The exception handler of the kernel: the copies between user memory and
    the kernel, and one definition per system call.  The state is the machine
    of Machine with, behind it, the stub file system, the synchronous console
    and the rest [X] of the kernel.  Calls that can switch to another thread
    (processes, semaphores, Yield) are an interface, [ProcessCalls].  Strings
    and buffers of the kernel hold signed [char]s; the files hold bytes.
    Messages printed with printf go to the host and are left out. *)

From S2P Require Import Prelude Interrupt Machine SynchCons StubFS.
From stdpp Require Import gmap list.
#[local] Open Scope Z_scope.

Definition MaxFileLength : Z := 32.
Definition MaxString : Z := 256.

Record kern (X : Type) := mkKern { fsys : FileSystem; console : SynchConsole; rest : X }.
Arguments mkKern {X}.
Arguments fsys {X}.
Arguments console {X}.
Arguments rest {X}.

(** The calls that other threads can run in the middle of: [processTab],
    [semaphoreTable] and [currentThread].  They return to the caller with its
    own registers. *)
Class ProcessCalls (X : Type) := {
  ExecUpdate : list Z -> st (sim (cpu (kern X))) Z;
  IsExist : Z -> st (sim (cpu (kern X))) bool;
  JoinUpdate : Z -> st (sim (cpu (kern X))) Z;
  ExitUpdate : Z -> st (sim (cpu (kern X))) Z;
  sem_Create : list Z -> Z -> st (sim (cpu (kern X))) Z;
  sem_Wait : list Z -> st (sim (cpu (kern X))) Z;
  sem_Signal : list Z -> st (sim (cpu (kern X))) Z;
  thread_Yield : st (sim (cpu (kern X))) unit;
  thread_Sleep : st (sim (cpu (kern X))) unit
}.

(** The characters of a C string. *)
Fixpoint cstr (buf : list Z) : list Z :=
  match buf with
  | [] => []
  | c :: r => if c =? 0 then [] else c :: cstr r
  end.

Section syscalls.
Context {X : Type} `{!ProcessCalls X}.
Context (permits : list Z -> bool) (open_max : nat).
#[local] Abbreviation S := (sim (cpu (kern X))).

Definition rreg (num : Z) : st S Z := m ← get_m; lift (ReadRegister m num).
Definition setreg (num value : Z) : st S unit := m ← get_m; m ← lift (WriteRegister m num value); put_m m.

Definition on_fs {A} (c : st FileSystem A) : st S A := fun s =>
  let k := os (world s) in
  '(a, f) ← c (fsys k);
  Ok (a, set_world s (mkCpu (mach (world s)) (mkKern f (console k) (rest k)))).
Definition on_cons {A} (c : st SynchConsole A) : st S A := fun s =>
  let k := os (world s) in
  '(a, d) ← c (console k);
  Ok (a, set_world s (mkCpu (mach (world s)) (mkKern (fsys k) d (rest k)))).

(** [ExceptionHandler] for everything but a system call: all of it halts. *)
Definition fault_handler (which : ExceptionType) : st S unit :=
  match which with
  | NoException => mret tt
  | SyscallException => lift UB
  | _ => Halt
  end.

(** ** Copies between user memory and the kernel *)

(** [oneChar] keeps its value when [ReadMem] fails. *)
Fixpoint u2s_loop (n : nat) (i virtAddr : Z) (oneChar : option Z) (kernelBuf : list Z) : st S (list Z) :=
  match n with
  | O => mret kernelBuf
  | Datatypes.S n' =>
      o ← ReadMem fault_handler (to_int (virtAddr + i)) 1;
      let oneChar := match o with Some v => Some v | None => oneChar end in
      c ← lift (match oneChar with Some c => Ok c | None => UB end);
      kernelBuf ← lift (wr kernelBuf i (to_char c));
      if c =? 0 then mret kernelBuf else u2s_loop n' (i + 1) virtAddr (Some c) kernelBuf
  end.
Definition User2System (virtAddr limit : Z) : st S (list Z) :=
  u2s_loop (Z.to_nat limit) 0 virtAddr None (replicate (Z.to_nat (limit + 1)) 0).

Fixpoint s2u_loop (n : nat) (i virtAddr : Z) (buffer : list Z) : st S Z :=
  match n with
  | O => mret i
  | Datatypes.S n' =>
      oneChar ← lift (rd buffer i);
      WriteMem fault_handler (to_int (virtAddr + i)) 1 oneChar;;
      if oneChar =? 0 then mret (i + 1) else s2u_loop n' (i + 1) virtAddr buffer
  end.
Definition System2User (virtAddr len : Z) (buffer : list Z) : st S Z :=
  if len <? 0 then mret (-1)
  else if len =? 0 then mret len
  else s2u_loop (Z.to_nat len) 0 virtAddr buffer.

Definition IncPCReg : st S unit :=
  curPC ← rreg PCReg;
  setreg PrevPCReg curPC;;
  curPC ← rreg NextPCReg;
  setreg PCReg curPC;;
  setreg NextPCReg (to_int (curPC + 4)).

(** ** Files *)

Definition SC_Create : st S unit :=
  virtAddr ← rreg 4;
  filename ← User2System virtAddr (MaxFileLength + 1);
  b ← on_fs (Create permits open_max (cstr filename) 0);
  if negb b then setreg 2 (-1) else setreg 2 0.

Definition SC_Open : st S unit :=
  virtAddr ← rreg 4;
  type ← rreg 5;
  if negb (type =? 0) && negb (type =? 1) then setreg 2 (-1)
  else
    filename ← User2System virtAddr (MaxFileLength + 1);
    freeBlock ← on_fs FindFreeBlock;
    if freeBlock =? -1 then setreg 2 (-1)
    else
      if (type =? 0) || (type =? 1) then
        o ← on_fs (Open_t permits open_max 0 (cstr filename) type);
        match o with
        | None => setreg 2 (-1)
        | Some f => on_fs (list_put freeBlock (Some f));; setreg 2 freeBlock
        end
      else if type =? 2 then setreg 2 0
      else if type =? 3 then setreg 2 1
      else setreg 2 (-1).

Definition SC_Close : st S unit :=
  fid ← rreg 4;
  if (fid <? 2) || (9 <? fid) then setreg 2 (-1)
  else
    o ← on_fs (list_at fid);
    match o with
    | None => setreg 2 (-1)
    | Some _ =>
        b ← on_fs (Close fid);
        if negb b then setreg 2 (-1)
        else on_fs (list_put fid None);; setreg 2 0
    end.

(** [file->Read(buffer, size)] for the file of number [fID]: the characters
    read; [buffer[len]] of a failed read ([len] is -1) is outside the buffer. *)
Definition file_Read (fID : Z) (f : OpenFile) (size : Z) : st S (list Z) :=
  '(bs, n, f') ← on_fs (on_unix (StubFS.Read f size));
  on_fs (list_put fID (Some f'));;
  if n <? 0 then lift UB else mret (to_char <$> bs).
Definition file_Write (fID : Z) (f : OpenFile) (from : list Z) (size : Z) : st S Z :=
  '(n, f') ← on_fs (on_unix (StubFS.Write f ((fun c => c mod 256) <$> from) size));
  on_fs (list_put fID (Some f'));;
  mret n.

(** The scan of [SC_Read]: [len], the buffer, and [isEOF]. *)
Fixpoint eof_scan (n : nat) (i len : Z) (buffer : list Z) : res (Z * list Z * bool) :=
  match n with
  | O => Ok (len, buffer, false)
  | Datatypes.S n' =>
      c ← rd buffer i;
      if c =? 0 then Ok (i + 1, buffer, false)
      else if c =? EOF then buffer ← wr buffer i 0; Ok (i + 1, buffer, true)
      else eof_scan n' (i + 1) len buffer
  end.
(** The console branch reads its own uninitialised [size]. *)
Definition SC_Read : st S unit :=
  addr ← rreg 4;
  size ← rreg 5;
  fID ← rreg 6;
  if fID =? 0 then lift UB
  else if (fID <? 2) || (9 <? fID) then setreg 2 (-1)
  else
    o ← on_fs (list_at fID);
    match o with
    | None => setreg 2 (-1)
    | Some f =>
        if to_int (size + 1) <? 0 then lift UB
        else
          cs ← file_Read fID f size;
          '(len, buffer, isEOF) ← lift (eof_scan (length cs) 0 (zlen cs) (cs ++ [0]));
          System2User addr (len + 1) buffer;;
          if (isEOF : bool) then setreg 2 (-2) else setreg 2 len
    end.

(** [while (buffer[index] != 0 && index < MaxString) count += Write(buffer + index++, 1);] *)
Fixpoint print_loop (n : nat) (index count : Z) (buffer : list Z) : st S Z :=
  c ← lift (rd buffer index);
  if (c =? 0) || (MaxString <=? index) then mret count
  else
    match n with
    | O => mret count
    | Datatypes.S n' =>
        w ← on_cons (SynchCons.Write [c] 1);
        print_loop n' (index + 1) (count + w) buffer
    end.
Definition print_user_string (virtAddr : Z) : st S unit :=
  buffer ← User2System virtAddr MaxString;
  count ← print_loop (Z.to_nat MaxString) 0 0 buffer;
  setreg 2 count.

(** The file of a write, if it may be written. *)
Definition writable_file (fID : Z) : st S (option OpenFile) :=
  if (fID <? 2) || (9 <? fID) then mret None
  else
    o ← on_fs (list_at fID);
    match o with
    | None => mret None
    | Some f => t ← lift (GetType f); if t =? 1 then mret None else mret (Some f)
    end.

Definition SC_Write : st S unit :=
  virtAddr ← rreg 4;
  size ← rreg 5;
  fID ← rreg 6;
  if fID =? 1 then print_user_string virtAddr
  else
    o ← writable_file fID;
    match o with
    | None => setreg 2 (-1)
    | Some f =>
        buffer ← User2System virtAddr MaxString;
        len ← file_Write fID f buffer size;
        if negb (len =? to_int (size - 1)) then setreg 2 (-2) else setreg 2 len
    end.

(** [while (temp > 0) { len++; temp /= 10; }]; an [int] has at most ten
    decimal digits. *)
Fixpoint count_digits (fuel : nat) (temp len : Z) : res Z :=
  if 0 <? temp then
    match fuel with
    | O => NoFuel
    | Datatypes.S n => count_digits n (Z.quot temp 10) (len + 1)
    end
  else Ok len.
(** [buffer[len - i - 1] = (char)(v % 10 + 48); v = v / 10;] for all [i]. *)
Fixpoint put_digits (n : nat) (i len v : Z) (buffer : list Z) : res (list Z) :=
  match n with
  | O => Ok buffer
  | Datatypes.S n' =>
      buffer ← wr buffer (len - i - 1) (to_char (Z.rem v 10 + 48));
      put_digits n' (i + 1) len (Z.quot v 10) buffer
  end.
(** [junk] is what [new char[len + 1]] holds. *)
Definition SC_WriteInt2File (junk : Z -> list Z) : st S unit :=
  virtAddr ← rreg 4;
  fID ← rreg 5;
  if fID =? 1 then print_user_string virtAddr
  else
    o ← writable_file fID;
    match o with
    | None => setreg 2 (-1)
    | Some f =>
        len ← lift (if virtAddr =? 0 then Ok 1 else count_digits 11 virtAddr 0);
        buffer ← lift (put_digits (Z.to_nat len) 0 len virtAddr (junk (len + 1)));
        size ← file_Write fID f buffer len;
        if negb (len =? size) then setreg 2 (-2) else setreg 2 size
    end.

(** ** Numbers and characters on the console *)

(** The loop of [SC_ReadInt]; the sign may only stand first, a first digit
    makes the eleventh character be ignored. *)
Fixpoint readint_loop (n : nat) (i numOfChars number multiplier : Z) (buffer : list Z) : res (Z * Z) :=
  match n with
  | O => Ok (number, multiplier)
  | Datatypes.S n' =>
      if i <? numOfChars then
        c ← rd buffer i;
        if (i =? 0) && (c =? 45) then readint_loop n' (i + 1) numOfChars number (-1) buffer
        else if (i =? 0) && (c =? 43) then readint_loop n' (i + 1) numOfChars number multiplier buffer
        else
          let numOfChars := if (i =? 0) && (numOfChars =? 11) then 10 else numOfChars in
          if (c <? 48) || (57 <? c) then Ok (0, multiplier)
          else readint_loop n' (i + 1) numOfChars (to_int (to_int (number * 10) + (c - 48))) multiplier buffer
      else Ok (number, multiplier)
  end.
Definition SC_ReadInt (junk : list Z) : st S unit :=
  '(numOfChars, buffer) ← on_cons (SynchCons.Read junk 11);
  if 0 <? numOfChars then
    '(number, multiplier) ← lift (readint_loop 12 0 numOfChars 0 1 buffer);
    setreg 2 (to_int (number * multiplier))
  else setreg 2 0.

(** The loop of [SC_PrintInt]: [buffer] and [printPos]. *)
Fixpoint printint_loop (n : nat) (i number printPos : Z) (buffer : list Z) : res (list Z * Z) :=
  match n with
  | O => Ok (buffer, printPos)
  | Datatypes.S n' =>
      if number =? 0 then buffer ← wr buffer (11 - i) 48; Ok (buffer, printPos)
      else
        buffer ← wr buffer (11 - i) (to_char (Z.rem number 10 + 48));
        printint_loop n' (i + 1) (Z.quot number 10) (11 - i) buffer
  end.
Definition SC_PrintInt (junk : list Z) : st S unit :=
  number ← rreg 4;
  let isNeg := number <? 0 in
  let number := if isNeg then to_int (- number) else number in
  '(buffer, printPos) ← lift (printint_loop 12 0 number 11 junk);
  '(buffer, printPos) ← lift (if isNeg then b ← wr buffer printPos 45; Ok (b, printPos - 1)
                              else Ok (buffer, printPos));
  from ← lift (if (0 <=? printPos) && (printPos <=? 12) then Ok (drop (Z.to_nat printPos) buffer) else UB);
  on_cons (SynchCons.Write from (12 - printPos));;
  mret tt.

Definition SC_ReadChar (junk : list Z) : st S unit :=
  '(size, buffer) ← on_cons (SynchCons.Read junk MaxString);
  if size =? 0 then setreg 2 0
  else if 1 <? size then setreg 2 0
  else c ← lift (rd buffer 0); setreg 2 c.
Definition SC_PrintChar : st S unit :=
  c ← rreg 4; on_cons (SynchCons.Write [to_char c] 1);; mret tt.

Definition SC_ReadString (junk : Z -> list Z) : st S unit :=
  addr ← rreg 4;
  len ← rreg 5;
  if to_int (len + 1) <? 0 then lift UB
  else
    '(size, buffer) ← on_cons (SynchCons.Read (junk (len + 1)) len);
    buffer ← lift (wr buffer size 0);
    System2User addr (size + 1) buffer;;
    setreg 2 size.
Definition SC_PrintString : st S unit := addr ← rreg 4; print_user_string addr.

(** ** Processes, semaphores, threads *)

Definition SC_Exec : st S unit :=
  addr ← rreg 4;
  name ← User2System addr MaxString;
  v ← ExecUpdate (cstr name);
  setreg 2 v.
Definition SC_CreateSemaphore : st S unit :=
  nameAddr ← rreg 4;
  semval ← rreg 5;
  name ← User2System nameAddr MaxString;
  v ← sem_Create (cstr name) semval;
  if negb (v =? -1) then setreg 2 0 else setreg 2 (-1).
Definition SC_Up : st S unit :=
  addr ← rreg 4;
  name ← User2System addr MaxString;
  v ← sem_Signal (cstr name);
  if negb (v =? -1) then setreg 2 0 else setreg 2 (-1).
Definition SC_Down : st S unit :=
  addr ← rreg 4;
  name ← User2System addr MaxString;
  v ← sem_Wait (cstr name);
  if negb (v =? -1) then setreg 2 0 else setreg 2 (-1).
Definition SC_Join : st S unit :=
  pid ← rreg 4;
  if (pid <? 0) || (9 <? pid) then setreg 2 (-1)
  else
    e ← IsExist pid;
    if negb e then setreg 2 (-1) else v ← JoinUpdate pid; setreg 2 v.
Definition SC_Exit : st S unit :=
  exitCode ← rreg 4; v ← ExitUpdate exitCode; setreg 2 v.
Definition SC_Yield : st S unit := thread_Yield.
(** [Thread::Sleep] asserts that interrupts are off. *)
Definition SC_Sleep : st S unit := fun s =>
  ASSERT (bool_decide (level (interrupt s) = IntOff)); thread_Sleep s.

(** ** The handler *)

(** The calls on floating-point numbers (13, 14, 19, 20, 21), Fork (9) and
    ReadFileFormat (26) are [others]. *)
Context (others : Z -> st S unit) (junk : Z -> list Z).
Definition syscall (type : Z) : st S unit :=
  match type with
  | 0 => Halt
  | 1 => SC_Exit
  | 2 => SC_Exec
  | 3 => SC_Join
  | 4 => SC_Create
  | 5 => SC_Open
  | 6 => SC_Read
  | 7 => SC_Write
  | 8 => SC_Close
  | 10 => SC_Yield
  | 11 => SC_ReadInt (junk 12)
  | 12 => SC_PrintInt (junk 12)
  | 15 => SC_ReadChar (junk MaxString)
  | 16 => SC_PrintChar
  | 17 => SC_ReadString junk
  | 18 => SC_PrintString
  | 22 => SC_Up
  | 23 => SC_Down
  | 24 => SC_Sleep
  | 25 => SC_CreateSemaphore
  | 27 => SC_WriteInt2File junk
  | 9 | 13 | 14 | 19 | 20 | 21 | 26 => others type
  | _ => Halt
  end.

Definition ExceptionHandler (which : ExceptionType) : st S unit :=
  type ← rreg 2;
  match which with
  | SyscallException => syscall type;; IncPCReg
  | e => fault_handler e
  end.
End syscalls.

(** ** User memory byte by byte *)

Section memory.
Context {X : Type} `{!ProcessCalls X}.
#[local] Abbreviation S := (sim (cpu (kern X))).
Implicit Types (s : S) (m : Machine).

(** The [char] that a program sees at a virtual address. *)
Definition uchar m (va : Z) : option Z :=
  match phys m va 1 false with
  | inr pa => to_char <$> zget (mainMemory m) pa
  | inl _ => None
  end.
(** The string at [virtAddr + i], cut at [n] characters; [None] when it runs
    into an address that is not mapped. *)
Fixpoint user_string m (virtAddr i : Z) (n : nat) : option (list Z) :=
  match n with
  | O => Some []
  | Datatypes.S n' =>
      match uchar m (to_int (virtAddr + i)) with
      | None => None
      | Some c => if c =? 0 then Some [] else cons c <$> user_string m virtAddr (i + 1) n'
      end
  end.

Lemma size1 : size_ok 1.
Proof. by left. Qed.
Lemma load1 mem pa b : 0 <= pa -> zget mem pa = Some b -> load mem pa 1 = Ok (to_char b).
Proof.
  intros H0 Hb. pose proof (zget_Some_range _ _ _ Hb). unfold load. rewrite bytes_from_ok by lia. simpl.
  assert (slice pa 1 mem = [b]) as ->.
  { apply zget_ext_range.
    - rewrite zlen_slice by lia. change (zlen [b]) with 1. lia.
    - intros i Hi. rewrite zlen_slice in Hi by lia. replace i with 0 by lia. rewrite zget_slice by lia.
      rewrite decide_True by lia. by rewrite Z.add_0_r. }
  cbn [le_value]. do 2 f_equal. lia.
Qed.

(** The faults of [Translate] end in [Halt]. *)
Lemma phys_fault m a w e : machine_ok m -> phys m a 1 w = inl e ->
  e <> NoException /\ e <> SyscallException.
Proof.
  intros [_ _ _ _ Ht]. unfold phys. case_decide; [by intros [= <-]|].
  unfold lookup_page, tables_ok in *. destruct (tlb m) as [t|], (pageTable m) as [t'|]; try done.
  - destruct (list_find _ t) as [[i x]|]; [|by intros [= <-]].
    destruct (readOnly x && w); [by intros [= <-]|]. destruct (_ <=? _); [by intros [= <-]|done].
  - destruct (zget t' _) as [x|]; [|by intros [= <-]]. destruct (valid x); [|by intros [= <-]].
    destruct (readOnly x && w); [by intros [= <-]|]. destruct (_ <=? _); [by intros [= <-]|done].
Qed.
Lemma fault_halts {A} s e addr (a : A) :
  regs_ok (registers (mach (world s))) -> is_int addr -> e <> NoException -> e <> SyscallException ->
  (RaiseException (fault_handler : ExceptionType -> st S unit) e addr;; mret a) s = Halted.
Proof.
  intros Hr Ha H1 H2. unfold mbind at 1, st_bind at 1.
  rewrite (proj1 (RaiseException_spec fault_handler s e addr Hr Ha)). by destruct e.
Qed.

Lemma read_char_hit s a c :
  machine_ok (mach (world s)) -> uchar (mach (world s)) a = Some c ->
  exists m', ReadMem fault_handler a 1 s = Ok (Some c, with_mach s m') /\ touched (mach (world s)) m'.
Proof.
  intros Hm Hu. unfold uchar in Hu. destruct (phys _ a 1 false) as [e|pa] eqn:Hp; [done|].
  destruct (ReadMem_hit fault_handler s a 1 pa Hm size1 Hp) as (m' & v & Hr & Ht & Hv & _).
  destruct (phys_bounds _ _ _ _ _ size1 Hp) as [H0 _].
  destruct (zget (mainMemory (mach (world s))) pa) as [b|] eqn:Hb; [|done]. simpl in Hu. injection Hu as <-.
  rewrite (load1 _ _ _ H0 Hb) in Hv. injection Hv as <-. eauto.
Qed.
Lemma read_char_fault s a :
  machine_ok (mach (world s)) -> is_int a -> uchar (mach (world s)) a = None ->
  ReadMem (fault_handler : ExceptionType -> st S unit) a 1 s = Halted.
Proof.
  intros Hm Ha Hu. unfold uchar in Hu. destruct (phys _ a 1 false) as [e|pa] eqn:Hp.
  - destruct (ReadMem_trap fault_handler s a 1 e Hm size1 Hp) as (m' & Ht & ->).
    destruct (phys_fault _ _ _ _ Hm Hp). apply fault_halts; try done.
    pose proof (touched_machine_ok _ _ Ht Hm) as Hm'. apply Hm'.
  - exfalso. destruct (phys_bounds _ _ _ _ _ size1 Hp) as [H0 H1].
    destruct (zget_is_Some (mainMemory (mach (world s))) pa) as [b Hb]; [rewrite (mo_mem_len _ Hm); lia|].
    by rewrite Hb in Hu.
Qed.
Lemma uchar_touched m m' a : touched m m' -> uchar m' a = uchar m a.
Proof. intros [Hr Hmem Ht _]. unfold uchar. by rewrite (phys_same m m' _ _ _ Ht), Hmem. Qed.
Lemma user_string_touched m m' va n : touched m m' -> forall i, user_string m' va i n = user_string m va i n.
Proof.
  intros Ht. induction n as [|n IH]; intros i; [done|]. simpl. rewrite (uchar_touched _ _ _ Ht).
  destruct (uchar m (to_int (va + i))) as [c|]; [|done]. by rewrite IH.
Qed.
Lemma uchar_range m a c : uchar m a = Some c -> -128 <= c < 128.
Proof.
  unfold uchar. destruct (phys _ _ _ _); [done|]. destruct (zget _ _); [|done]. intros [= <-]. apply to_char_range.
Qed.
Lemma to_char_id c : -128 <= c < 128 -> to_char c = c.
Proof. intros. unfold to_char. lia_mod. Qed.

(** The loop of [User2System], on a buffer that is zero from [i] on. *)
Lemma u2s_ok va n : forall i oc buf s,
  machine_ok (mach (world s)) -> 0 <= i -> i + Z.of_nat n < zlen buf ->
  (forall j, i <= j < zlen buf -> zget buf j = Some 0) ->
  match user_string (mach (world s)) va i n with
  | Some l => zlen l <= Z.of_nat n /\ exists m',
      u2s_loop n i va oc buf s = Ok (splice i l buf, with_mach s m') /\ touched (mach (world s)) m'
  | None => u2s_loop n i va oc buf s = Halted
  end.
Proof.
  assert (forall buf i, splice i [] buf = (buf : list Z)) as Hnil.
  { intros buf i. unfold splice. simpl. rewrite Nat.add_0_r. apply take_drop. }
  induction n as [|n IH]; intros i oc buf s Hm Hi Hl Hz; cbn [user_string u2s_loop].
  - rewrite Hnil. split; [done|]. exists (mach (world s)). split; [by destruct s as [? ? []]|apply touched_refl].
  - destruct (uchar (mach (world s)) (to_int (va + i))) as [c|] eqn:Hu.
    2:{ unfold mbind, st_bind. by rewrite (read_char_fault s _ Hm (to_int_range _) Hu). }
    destruct (read_char_hit s _ c Hm Hu) as (m1 & Hr & Ht1). rewrite (st_bind_Ok _ _ _ _ _ Hr).
    rewrite (lift_bind_Ok _ _ _ c) by done.
    rewrite (lift_bind_Ok _ _ _ (zset buf i c)).
    2:{ rewrite (to_char_id c) by (by eapply uchar_range). apply wr_Ok. lia. }
    destruct (Z.eqb_spec c 0) as [->|Hc].
    + rewrite Hnil. split; [rewrite zlen_nil; lia|]. exists m1. split; [|done].
      rewrite zset_id by (apply Hz; lia). done.
    + pose proof (touched_machine_ok _ _ Ht1 Hm) as Hm1.
      specialize (IH (i + 1) (Some c) (zset buf i c) (with_mach s m1) Hm1). simpl in IH.
      rewrite (user_string_touched _ _ va n Ht1) in IH. rewrite zlen_zset in IH.
      assert (forall j, i + 1 <= j < zlen buf -> zget (zset buf i c) j = Some 0) as Hz'.
      { intros j Hj. rewrite zget_zset_ne by lia. apply Hz. lia. }
      specialize (IH ltac:(lia) ltac:(lia) Hz').
      destruct (user_string (mach (world s)) va (i + 1) n) as [l|]; simpl; [|exact IH].
      destruct IH as (Hll & m2 & H2 & Ht2). rewrite zlen_cons. split; [lia|]. exists m2.
      rewrite H2, splice_cons by lia. split; [done|]. by eapply touched_trans.
Qed.

Lemma cstr_app l r : Forall (fun c => c <> 0) l -> cstr (l ++ 0 :: r) = l.
Proof.
  induction 1 as [|c l Hc Hl IH]; simpl; [done|]. rewrite (proj2 (Z.eqb_neq c 0)) by done. by rewrite IH.
Qed.
Lemma user_string_nonzero m va n : forall i l, user_string m va i n = Some l ->
  Forall (fun c => c <> 0 /\ -128 <= c < 128) l.
Proof.
  induction n as [|n IH]; intros i l; simpl; [by intros [= <-]|].
  destruct (uchar m (to_int (va + i))) as [c|] eqn:Hu; [|done]. destruct (Z.eqb_spec c 0); [by intros [= <-]|].
  destruct (user_string m va (i + 1) n) as [l'|] eqn:E; [|done]. simpl. intros [= <-].
  constructor; [split; [done|by eapply uchar_range]|by eapply IH].
Qed.

Lemma User2System_ok va limit s :
  machine_ok (mach (world s)) -> 0 <= limit ->
  match user_string (mach (world s)) va 0 (Z.to_nat limit) with
  | Some l => zlen l <= limit /\ cstr (l ++ replicate (Z.to_nat (limit + 1 - zlen l)) 0) = l /\ exists m',
      User2System va limit s = Ok (l ++ replicate (Z.to_nat (limit + 1 - zlen l)) 0, with_mach s m') /\
      touched (mach (world s)) m'
  | None => User2System va limit s = Halted
  end.
Proof.
  intros Hm Hl. unfold User2System. set (buf := replicate (Z.to_nat (limit + 1)) 0).
  assert (zlen buf = limit + 1) as Hb by (unfold buf, zlen; rewrite length_replicate; lia).
  pose proof (u2s_ok va (Z.to_nat limit) 0 None buf s Hm ltac:(lia) ltac:(lia)) as H.
  assert (forall j, 0 <= j < zlen buf -> zget buf j = Some 0) as Hz.
  { intros j Hj. unfold buf, zget. rewrite decide_True by lia. apply lookup_replicate. lia. }
  specialize (H Hz). destruct (user_string _ va 0 _) as [l|] eqn:E; [|done].
  destruct H as (Hll & m' & Hr & Ht).
  assert (splice 0 l buf = l ++ replicate (Z.to_nat (limit + 1 - zlen l)) 0) as Hs.
  { unfold splice, buf. simpl. f_equal. rewrite drop_replicate. f_equal. unfold zlen in *. lia. }
  split; [lia|]. split.
  - replace (Z.to_nat (limit + 1 - zlen l)) with (Datatypes.S (Z.to_nat (limit - zlen l))) by lia.
    apply cstr_app. eapply Forall_impl; [by eapply user_string_nonzero|]. by intros c [? _].
  - exists m'. by rewrite <-Hs.
Qed.

(** ** Writing user memory *)

(** A machine that differs in memory (and in use and dirty bits) only. *)
Record stored (m m' : Machine) : Prop := {
  sd_ok : machine_ok m';
  sd_regs : registers m' = registers m;
  sd_phys : forall a sz w, phys m' a sz w = phys m a sz w
}.
Lemma write_char s a pa c :
  machine_ok (mach (world s)) -> phys (mach (world s)) a 1 true = inr pa ->
  exists m', WriteMem fault_handler a 1 c s = Ok (true, with_mach s m') /\ stored (mach (world s)) m' /\
    zget (mainMemory m') pa = Some (c mod 256) /\
    forall p, p <> pa -> zget (mainMemory m') p = zget (mainMemory (mach (world s))) p.
Proof.
  intros Hm Hp. destruct (WriteMem_hit fault_handler s a 1 c pa Hm size1 Hp) as (m1 & Ht & Hw).
  destruct (phys_bounds _ _ _ _ _ size1 Hp) as [H0 H1]. destruct (image_ok 1 c size1) as [Hli Hbi].
  assert (image 1 c = [c mod 256]) as Him.
  { unfold image. simpl. change 255 with (Z.ones 8). by rewrite Z.land_ones by lia. }
  eexists. split; [exact Hw|]. split; [split|]; simpl.
  - apply machine_ok_memory; [by eapply touched_machine_ok| |].
    + rewrite zlen_splice; rewrite ?(mo_mem_len _ Hm); lia.
    + apply Forall_splice; [apply Hm|done].
  - apply Ht.
  - intros x sz w. symmetry. apply phys_same. by destruct Ht as [_ _ Hst _].
  - rewrite Him in *. change (zlen [c mod 256]) with 1 in *.
    assert (forall p, zget (splice pa [c mod 256] (mainMemory (mach (world s)))) p =
      if decide (pa <= p < pa + 1) then zget [c mod 256] (p - pa) else zget (mainMemory (mach (world s))) p) as Hg.
    { intros p. rewrite zget_splice; [done|lia|]. rewrite (mo_mem_len _ Hm). change (zlen [c mod 256]) with 1. lia. }
    split.
    + rewrite Hg, decide_True by lia. by rewrite Z.sub_diag.
    + intros p Hne. rewrite Hg, decide_False by lia. done.
Qed.
Lemma stored_trans m1 m2 m3 : stored m1 m2 -> stored m2 m3 -> stored m1 m3.
Proof. intros [] [H1 H2 H3]. split; [done|congruence|]. intros. by rewrite H3. Qed.

(** The loop of [System2User] over [n] characters of which only the last may
    be 0, to addresses that are mapped apart from each other. *)
Lemma s2u_ok va buffer (pa : Z -> Z) n : forall i s,
  machine_ok (mach (world s)) -> 0 <= i -> (0 < n)%nat -> i + Z.of_nat n <= zlen buffer ->
  (forall j, i <= j < i + Z.of_nat n -> phys (mach (world s)) (to_int (va + j)) 1 true = inr (pa j)) ->
  (forall j k, i <= j < i + Z.of_nat n -> i <= k < i + Z.of_nat n -> pa j = pa k -> j = k) ->
  (forall j, i <= j < i + Z.of_nat n - 1 -> zget buffer j <> Some 0) ->
  exists m', s2u_loop n i va buffer s = Ok (i + Z.of_nat n, with_mach s m') /\ stored (mach (world s)) m' /\
    (forall j, i <= j < i + Z.of_nat n -> zget (mainMemory m') (pa j) = (fun c => c mod 256) <$> zget buffer j) /\
    (forall p, (forall j, i <= j < i + Z.of_nat n -> p <> pa j) ->
       zget (mainMemory m') p = zget (mainMemory (mach (world s))) p).
Proof.
  induction n as [|n IH]; intros i s Hm Hi Hn Hl Hp Hinj Hz; [lia|]. cbn [s2u_loop].
  destruct (rd_total buffer i) as (c & Hc & Hcz); [lia|]. rewrite (lift_bind_Ok _ _ _ _ Hc).
  destruct (write_char s (to_int (va + i)) (pa i) c Hm) as (m1 & Hw & Hs1 & Hb1 & Ho1); [apply Hp; lia|].
  rewrite (st_bind_Ok _ _ _ _ _ Hw). destruct n as [|n].
  - exists m1. split; [by destruct (c =? 0)|]. split; [done|]. split.
    + intros j Hj. assert (j = i) as -> by lia. by rewrite Hcz.
    + intros p Hpn. apply Ho1. apply Hpn. lia.
  - rewrite (proj2 (Z.eqb_neq c 0)) by (intros ->; apply (Hz i); [lia|done]).
    destruct (IH (i + 1) (with_mach s m1)) as (m2 & H2 & Hs2 & Hb2 & Ho2); try lia.
    + apply Hs1.
    + intros j Hj. simpl. rewrite (sd_phys _ _ Hs1). apply Hp. lia.
    + intros j k Hj Hk. apply Hinj; lia.
    + intros j Hj. apply Hz. lia.
    + exists m2. rewrite H2. split; [by replace (i + 1 + Z.of_nat (Datatypes.S n)) with
        (i + Z.of_nat (Datatypes.S (Datatypes.S n))) by lia|]. split; [by eapply stored_trans|]. split.
      * intros j Hj. destruct (decide (j = i)) as [->|]; [|apply Hb2; lia].
        rewrite Ho2; [by rewrite Hcz|]. intros k Hk He. assert (i = k) by (apply Hinj; try lia; done). lia.
      * intros p Hpn. rewrite Ho2 by (intros j Hj; apply Hpn; lia). simpl. apply Ho1. apply Hpn. lia.
Qed.

(** A page that may be written may be read. *)
Lemma phys_read_write m a pa : phys m a 1 true = inr pa -> phys m a 1 false = inr pa.
Proof.
  unfold phys. case_decide; [done|]. destruct (lookup_page _ _); [done|].
  rewrite andb_false_r. by destruct (readOnly _ && true).
Qed.
Lemma user_string_at m va l n : forall i,
  zlen l < Z.of_nat n -> Forall (fun c => c <> 0) l ->
  (forall j, 0 <= j < zlen l -> uchar m (to_int (va + (i + j))) = zget l j) ->
  uchar m (to_int (va + (i + zlen l))) = Some 0 ->
  user_string m va i n = Some l.
Proof.
  revert l. induction n as [|n IH]; intros l i Hl Hf Hu H0; [pose proof (zlen_nonneg l); lia|].
  cbn [user_string]. destruct l as [|c l].
  - rewrite zlen_nil, Z.add_0_r in H0. by rewrite H0.
  - rewrite zlen_cons in *. pose proof (Hu 0 ltac:(pose proof (zlen_nonneg l); lia)) as Hc. rewrite Z.add_0_r in Hc.
    change (zget (c :: l) 0) with (Some c) in Hc. rewrite Hc. inversion Hf as [|? ? Hc0 Hf']; subst.
    rewrite (proj2 (Z.eqb_neq c 0)) by done. rewrite (IH l (i + 1)); [done|lia|done| |].
    + intros j Hj. specialize (Hu (j + 1) ltac:(lia)). rewrite zget_cons_S in Hu by lia.
      replace (i + 1 + j) with (i + (j + 1)) by lia. rewrite Hu. f_equal. lia.
    + by replace (i + 1 + zlen l) with (i + (1 + zlen l)) by lia.
Qed.
End memory.

(** ** Properties of the copies *)

(** Reading a string of the user program: [User2System] returns, in a
    buffer of [limit + 1] characters that is 0 behind them, exactly the
    characters that the program has at the address, up to the first 0 and at
    most [limit] of them, so that the buffer is a C string; when the string
    runs into an address that is not mapped the machine halts.  Registers,
    memory and the rest of the system do not change. *)
Theorem copy_in_string {X} `{!ProcessCalls X} (s : sim (cpu (kern X))) (virtAddr limit : Z) :
  machine_ok (mach (world s)) -> 0 <= limit ->
  match user_string (mach (world s)) virtAddr 0 (Z.to_nat limit) with
  | Some l => exists buf m', User2System virtAddr limit s = Ok (buf, with_mach s m') /\
      touched (mach (world s)) m' /\ zlen buf = limit + 1 /\ cstr buf = l /\
      buf = l ++ replicate (Z.to_nat (limit + 1 - zlen l)) 0
  | None => User2System virtAddr limit s = Halted
  end.
Proof.
  intros Hm Hl. pose proof (User2System_ok virtAddr limit s Hm Hl) as H.
  destruct (user_string _ virtAddr 0 _) as [l|]; [|done]. destruct H as (Hll & Hc & m' & Hr & Ht).
  eexists _, m'. split; [exact Hr|]. split; [done|]. split; [|done].
  rewrite zlen_app. unfold zlen at 2. rewrite length_replicate. lia.
Qed.

(** A string copied out comes back: [System2User] of a string with its
    terminator to mapped writable addresses returns its size, changes exactly
    those bytes of memory, and [User2System] then reads the same string. *)
Theorem copy_out_copy_in {X} `{!ProcessCalls X} (s : sim (cpu (kern X))) (virtAddr limit : Z)
    (l : list Z) (pa : Z -> Z) :
  machine_ok (mach (world s)) -> zlen l < limit ->
  Forall (fun c => c <> 0 /\ -128 <= c < 128) l ->
  (forall j, 0 <= j <= zlen l -> phys (mach (world s)) (to_int (virtAddr + j)) 1 true = inr (pa j)) ->
  (forall j k, 0 <= j <= zlen l -> 0 <= k <= zlen l -> pa j = pa k -> j = k) ->
  exists m1 m2 buf,
    System2User virtAddr (zlen l + 1) (l ++ [0]) s = Ok (zlen l + 1, with_mach s m1) /\
    stored (mach (world s)) m1 /\
    (forall p, (forall j, 0 <= j <= zlen l -> p <> pa j) ->
       zget (mainMemory m1) p = zget (mainMemory (mach (world s))) p) /\
    User2System virtAddr limit (with_mach s m1) = Ok (buf, with_mach s m2) /\ cstr buf = l.
Proof.
  intros Hm Hl Hf Hp Hinj. pose proof (zlen_nonneg l) as H0.
  assert (zlen (l ++ [0]) = zlen l + 1) as Hla by (rewrite zlen_app; done).
  destruct (s2u_ok virtAddr (l ++ [0]) pa (Z.to_nat (zlen l + 1)) 0 s Hm) as (m1 & Hr & Hs & Hb & Ho); try lia.
  { intros j Hj. apply Hp. lia. }
  { intros j k Hj Hk. apply Hinj; lia. }
  { intros j Hj He. rewrite zget_app, decide_True in He by lia.
    pose proof (Forall_zget _ _ _ _ Hf He) as [? _]. done. }
  assert (forall j c, 0 <= j <= zlen l -> zget (l ++ [0]) j = Some c -> -128 <= c < 128 ->
            uchar m1 (to_int (virtAddr + j)) = Some c) as Hu.
  { intros j c Hj Hc Hr'. unfold uchar. rewrite (sd_phys _ _ Hs), (phys_read_write _ _ _ (Hp j Hj)).
    rewrite Hb by lia. rewrite Hc. simpl. f_equal. unfold to_char. lia_mod. }
  assert (user_string m1 virtAddr 0 (Z.to_nat limit) = Some l) as Hus.
  { apply user_string_at; [lia|eapply Forall_impl; [exact Hf|]; by intros ? []| |].
    - intros j Hj. rewrite Z.add_0_l. destruct (zget_is_Some l j Hj) as [c Hc]. rewrite Hc.
      apply Hu; [lia|by rewrite zget_app, decide_True by lia|]. by pose proof (Forall_zget _ _ _ _ Hf Hc) as [_ ?].
    - rewrite Z.add_0_l. apply Hu; [lia| |lia]. rewrite zget_app, decide_False by lia. by rewrite Z.sub_diag. }
  pose proof (User2System_ok virtAddr limit (with_mach s m1) (sd_ok _ _ Hs) ltac:(lia)) as HU. simpl in HU.
  rewrite Hus in HU. destruct HU as (_ & Hbuf & m2 & HU & _). eexists m1, m2, _.
  split; [|split; [done|split; [|split; [exact HU|done]]]].
  - unfold System2User. rewrite (proj2 (Z.ltb_ge _ _)), (proj2 (Z.eqb_neq _ _)) by lia. rewrite Hr.
    do 2 f_equal. lia.
  - intros p Hpn. apply Ho. intros j Hj. apply Hpn. lia.
Qed.

(** A kernel without processes, for the examples. *)
#[export] Instance no_processes : ProcessCalls unit := {
  ExecUpdate _ := mret (-1);
  IsExist _ := mret false;
  JoinUpdate _ := mret (-1);
  ExitUpdate _ := lift Halted;
  sem_Create _ _ := mret (-1);
  sem_Wait _ := mret (-1);
  sem_Signal _ := mret (-1);
  thread_Yield := mret tt;
  thread_Sleep := mret tt
}.
Definition sample_kern : kern unit := mkKern busy_fs (new_SynchConsole [49; 50; 10]) tt.
Definition sample_state : sim (cpu (kern unit)) :=
  mkSim new_Interrupt new_Statistics (mkCpu sample_machine sample_kern).

Lemma copy_in_string_witness :
  (exists buf m', User2System 4 33 sample_state = Ok (buf, with_mach sample_state m') /\ cstr buf = []) /\
  User2System 2000 33 sample_state = Halted.
Proof.
  split.
  - pose proof (copy_in_string sample_state 4 33 sample_machine_ok ltac:(done)) as H.
    assert (user_string (mach (world sample_state)) 4 0 (Z.to_nat 33) = Some []) as Hu.
    { change (Z.to_nat 33) with 33%nat. cbn [user_string].
      assert (uchar (mach (world sample_state)) (to_int (4 + 0)) = Some 0) as ->; [|done].
      unfold uchar. assert (phys (mach (world sample_state)) (to_int (4 + 0)) 1 false = inr 3588) as -> by reflexivity.
      cbn [mach world sample_state mainMemory sample_machine]. unfold zget. rewrite decide_True by lia.
      rewrite lookup_replicate_2; [done|]. apply (Z2Nat.inj_lt 3588 MemorySize); vm_compute; congruence. }
    rewrite Hu in H. destruct H as (buf & m' & H1 & _ & _ & H2 & _). exists buf, m'. split; [exact H1|exact H2].
  - exact (copy_in_string sample_state 2000 33 sample_machine_ok ltac:(done)).
Defined.
Lemma copy_out_copy_in_witness :
  exists m1 m2 buf, System2User 4 3 [104; -61; 0] sample_state = Ok (3, with_mach sample_state m1) /\
    User2System 4 33 (with_mach sample_state m1) = Ok (buf, with_mach sample_state m2) /\ cstr buf = [104; -61].
Proof.
  destruct (copy_out_copy_in sample_state 4 33 [104; -61] (fun j => 3588 + j)) as (m1 & m2 & buf & H1 & _ & _ & H2 & H3).
  - exact sample_machine_ok.
  - by vm_compute.
  - repeat constructor; by vm_compute.
  - intros j Hj. assert (j = 0 \/ j = 1 \/ j = 2) as [->|[->| ->]] by (unfold zlen in Hj; simpl in Hj; lia); reflexivity.
  - intros. lia.
  - exists m1, m2, buf. split; [exact H1|]. split; [exact H2|exact H3].
Defined.

(** ** Decimal numbers *)

(** The value of a sequence of digit characters, and the digits of a number
    below [10^k]. *)
Definition dec_step (v c : Z) : Z := v * 10 + (c - 48).
Definition dec_value (ds : list Z) : Z := foldl dec_step 0 ds.
Fixpoint dec_digits (k : nat) (n : Z) : list Z :=
  match k with
  | O => []
  | S k' => if n =? 0 then [] else dec_digits k' (n / 10) ++ [48 + n mod 10]
  end.
(** [ds] is how the number [n >= 0] is written: digits, no leading zero. *)
Definition decimal (ds : list Z) (n : Z) : Prop :=
  ds <> [] /\ Forall (fun c => 48 <= c <= 57) ds /\ dec_value ds = n /\ (head ds = Some 48 -> ds = [48]).

Lemma dec_digits_range k : forall n, 0 <= n -> Forall (fun c => 48 <= c <= 57) (dec_digits k n).
Proof.
  induction k as [|k IH]; intros n Hn; simpl; [done|]. destruct (n =? 0); [done|].
  apply Forall_app. split; [apply IH; lia_mod|]. repeat constructor; lia_mod.
Qed.
Lemma dec_digits_value k : forall n, 0 <= n < 10 ^ Z.of_nat k -> dec_value (dec_digits k n) = n.
Proof.
  induction k as [|k IH]; intros n Hn; simpl.
  - simpl in Hn. change (dec_value []) with 0. lia.
  - destruct (Z.eqb_spec n 0) as [->|]; [done|]. unfold dec_value. rewrite foldl_app. fold (dec_value (dec_digits k (n / 10))).
    rewrite IH; [unfold dec_step; simpl; lia_mod|].
    rewrite Nat2Z.inj_succ, Z.pow_succ_r in Hn by lia. lia_mod.
Qed.
Lemma dec_digits_head k : forall n, 0 <= n < 10 ^ Z.of_nat k -> head (dec_digits k n) <> Some 48.
Proof.
  induction k as [|k IH]; intros n Hn; simpl; [done|]. destruct (Z.eqb_spec n 0) as [->|Hne]; [done|].
  rewrite Nat2Z.inj_succ, Z.pow_succ_r in Hn by lia. assert (0 <= n / 10 < 10 ^ Z.of_nat k) as Hq by lia_mod.
  specialize (IH (n / 10) Hq). pose proof (dec_digits_value k (n / 10) Hq) as Hv.
  destruct (dec_digits k (n / 10)) as [|c l]; simpl in *; [|done].
  change (dec_value []) with 0 in Hv. intros [= He]. lia_mod.
Qed.
Lemma zlen_dec_digits k : forall n, 0 <= n -> zlen (dec_digits k n) <= Z.of_nat k.
Proof.
  induction k as [|k IH]; intros n Hn; simpl; [done|]. destruct (n =? 0); [rewrite zlen_nil; lia|].
  rewrite zlen_app, zlen_cons, zlen_nil. specialize (IH (n / 10) ltac:(lia_mod)). lia.
Qed.
Lemma dec_digits_decimal k n : 0 < n < 10 ^ Z.of_nat k -> decimal (dec_digits k n) n.
Proof.
  intros Hn. pose proof (dec_digits_value k n ltac:(lia)) as Hv. split_and!.
  - intros E. rewrite E in Hv. change (dec_value []) with 0 in Hv. lia.
  - apply dec_digits_range. lia.
  - done.
  - intros Hh. exfalso. apply (dec_digits_head k n); [lia|done].
Qed.

(** The loop of [SC_PrintInt] puts the digits right in front of what is
    already in the buffer. *)
Lemma drop_zset {A} (l : list A) i x : 0 <= i < zlen l ->
  drop (Z.to_nat i) (zset l i x) = x :: drop (Z.to_nat (i + 1)) l.
Proof.
  intros Hi. unfold zset, zlen in *. rewrite decide_True by lia.
  replace (Z.to_nat (i + 1)) with (S (Z.to_nat i)) by lia. rewrite drop_insert_ge by lia.
  destruct (drop (Z.to_nat i) l) as [|y r] eqn:E.
  { apply (f_equal length) in E. rewrite length_drop in E. simpl in E. lia. }
  rewrite Nat.sub_diag. simpl. f_equal. rewrite <-Nat.add_1_r, <-drop_drop, E. done.
Qed.
Lemma printint_loop_ok n : forall i number pp buf k,
  0 <= i -> i + Z.of_nat n = 12 -> 0 <= number < 10 ^ Z.of_nat k -> (k < n)%nat -> zlen buf = 12 ->
  let dd := dec_digits k number in
  exists buf', printint_loop n i number pp buf =
      Ok (buf', if number =? 0 then pp else 12 - i - zlen dd) /\ zlen buf' = 12 /\
    drop (Z.to_nat (12 - i - zlen dd)) buf' = dd ++ drop (Z.to_nat (12 - i)) buf.
Proof.
  induction n as [|n IH]; intros i number pp buf k Hi Hn Hk Hkn Hb dd; [lia|]. cbn [printint_loop].
  destruct (Z.eqb_spec number 0) as [->|Hne].
  - rewrite wr_Ok by lia. simpl. eexists. split; [done|]. rewrite zlen_zset. split; [done|].
    assert (dd = []) as -> by (unfold dd; by destruct k). rewrite zlen_nil, Z.sub_0_r. simpl.
    unfold zset. rewrite decide_True by lia. apply drop_insert_lt. lia.
  - destruct k as [|k]; [simpl in Hk; lia|]. rewrite Nat2Z.inj_succ, Z.pow_succ_r in Hk by lia.
    rewrite wr_Ok by lia. cbn [mbind res_bind]. rewrite Z.rem_mod_nonneg, Z.quot_div_nonneg by lia.
    destruct (IH (i + 1) (number / 10) (11 - i) (zset buf (11 - i) (to_char (number mod 10 + 48))) k)
      as (buf' & Hr & Hl & Hd); [lia|lia|lia_mod|lia|by rewrite zlen_zset|].
    exists buf'. rewrite Hr. unfold dd. cbn [dec_digits]. rewrite (proj2 (Z.eqb_neq number 0)) by done.
    assert (zlen (dec_digits k (number / 10) ++ [48 + number mod 10]) = zlen (dec_digits k (number / 10)) + 1)
      as Hz by (by rewrite zlen_app).
    rewrite Hz. split; [|split; [done|]].
    + do 2 f_equal. destruct (Z.eqb_spec (number / 10) 0) as [->|]; [|lia]. destruct k; simpl; rewrite zlen_nil; lia.
    + replace (12 - i - (zlen (dec_digits k (number / 10)) + 1)) with
        (12 - (i + 1) - zlen (dec_digits k (number / 10))) by lia. rewrite Hd, <-app_assoc. f_equal. simpl.
      replace (12 - (i + 1)) with (11 - i) by lia. rewrite drop_zset by lia.
      replace (11 - i + 1) with (12 - i) by lia. f_equal. unfold to_char. lia_mod.
Qed.

(** The loop of [SC_ReadInt] over digits. *)
Lemma dec_step_mono ds : forall v, 0 <= v -> Forall (fun c => 48 <= c <= 57) ds -> v <= foldl dec_step v ds.
Proof.
  induction ds as [|c ds IH]; intros v Hv Hf; simpl; [lia|]. inversion Hf as [|? ? Hc Hf']; subst.
  specialize (IH (dec_step v c) ltac:(unfold dec_step; lia) Hf'). unfold dec_step at 1 in IH. lia.
Qed.
Lemma readint_digits n : forall i numOfChars number mult buffer ds,
  Forall (fun c => 48 <= c <= 57) ds -> numOfChars = i + zlen ds -> zlen ds < Z.of_nat n ->
  (i = 0 -> numOfChars <= 10) -> 0 <= i -> 0 <= number -> foldl dec_step number ds < two31 ->
  (forall j, 0 <= j < zlen ds -> zget buffer (i + j) = zget ds j) ->
  readint_loop n i numOfChars number mult buffer = Ok (foldl dec_step number ds, mult).
Proof.
  induction n as [|n IH]; intros i nc number mult buffer ds Hf Hnc Hn H10 Hi Hnum Hv Hb;
    [pose proof (zlen_nonneg ds); lia|]. cbn [readint_loop].
  destruct ds as [|c ds].
  - rewrite zlen_nil in Hnc. rewrite (proj2 (Z.ltb_ge i nc)) by lia. done.
  - rewrite zlen_cons in *. pose proof (zlen_nonneg ds). rewrite (proj2 (Z.ltb_lt i nc)) by lia.
    pose proof (Hb 0 ltac:(lia)) as Hc. rewrite Z.add_0_r in Hc. change (zget (c :: ds) 0) with (Some c) in Hc.
    rewrite (proj2 (rd_Ok _ _ _) Hc). cbn [mbind res_bind]. inversion Hf as [|? ? Hcr Hf']; subst.
    rewrite (proj2 (Z.eqb_neq c 45)), (proj2 (Z.eqb_neq c 43)) by lia. rewrite !andb_false_r.
    rewrite (proj2 (Z.ltb_ge c 48)), (proj2 (Z.ltb_ge 57 c)) by lia. cbn [orb].
    assert ((if (i =? 0) && (i + (1 + zlen ds) =? 11) then 10 else i + (1 + zlen ds)) = i + (1 + zlen ds)) as ->.
    { destruct (Z.eqb_spec i 0) as [->|]; [|done]. specialize (H10 eq_refl).
      by rewrite (proj2 (Z.eqb_neq (0 + (1 + zlen ds)) 11)) by lia. }
    simpl in Hv. pose proof (dec_step_mono ds (dec_step number c) ltac:(unfold dec_step; lia) Hf') as Hm.
    unfold dec_step in Hm at 1. rewrite (to_int_id (number * 10)) by (unfold_int; lia).
    rewrite (to_int_id (number * 10 + (c - 48))) by (unfold_int; lia). fold (dec_step number c).
    rewrite (IH (i + 1) _ _ _ _ ds); [done|done|lia|lia|lia|lia|unfold dec_step; lia|done|].
    intros j Hj. specialize (Hb (j + 1) ltac:(lia)). rewrite zget_cons_S in Hb by lia.
    replace (i + 1 + j) with (i + (j + 1)) by lia. rewrite Hb. f_equal. lia.
Qed.
Lemma readint_sign n nc buffer c :
  0 < nc -> zget buffer 0 = Some c -> c = 45 \/ c = 43 ->
  readint_loop (S n) 0 nc 0 1 buffer = readint_loop n 1 nc 0 (if c =? 45 then -1 else 1) buffer.
Proof.
  intros Hn Hb Hc. cbn [readint_loop]. rewrite (proj2 (Z.ltb_lt 0 _)) by done.
  rewrite (proj2 (rd_Ok _ _ _) Hb). cbn [mbind res_bind]. by destruct Hc as [-> | ->].
Qed.

(** ** The numbers calls *)

Section numbers.
Context {X : Type} `{!ProcessCalls X}.
#[local] Abbreviation S := (sim (cpu (kern X))).
Implicit Types (s : S).

Definition with_console s (d : SynchConsole) : S :=
  set_world s (mkCpu (mach (world s)) (mkKern (fsys (os (world s))) d (rest (os (world s))))).
(** [r2] and the program registers after a call. *)
Definition with_reg s (num v : Z) : S :=
  with_mach s (set_registers (mach (world s)) (zset (registers (mach (world s))) num v)).

Lemma rreg_ok s num v :
  0 <= num < NumTotalRegs -> zget (registers (mach (world s))) num = Some v -> rreg num s = Ok (v, s).
Proof.
  intros Hn Hv. unfold rreg, get_m, mbind, st_bind, lift, ReadRegister.
  rewrite (proj2 (Z.leb_le _ _)), (proj2 (Z.ltb_lt _ _)) by lia. cbn [andb]. by rewrite (proj2 (rd_Ok _ _ _) Hv).
Qed.
Lemma setreg_ok s num v :
  machine_ok (mach (world s)) -> 0 <= num < NumTotalRegs -> setreg num v s = Ok (tt, with_reg s num v).
Proof.
  intros Hm Hn. unfold setreg, get_m, mbind, st_bind, lift, WriteRegister.
  rewrite (proj2 (Z.leb_le _ _)), (proj2 (Z.ltb_lt _ _)) by lia. cbn [andb].
  rewrite wr_Ok by (rewrite (ro_len _ (mo_regs _ Hm)); lia). reflexivity.
Qed.
Lemma on_cons_ok {A} s (c : st SynchConsole A) a d :
  c (console (os (world s))) = Ok (a, d) -> on_cons c s = Ok (a, with_console s d).
Proof. intros H. unfold on_cons. by rewrite H. Qed.

Lemma print_int_ok s junk n :
  zget (registers (mach (world s))) 4 = Some n -> 0 <= n < two31 -> zlen junk = 12 ->
  sc_ok (console (os (world s))) -> WLineBlock (console (os (world s))) = 1 ->
  exists d ds, SC_PrintInt junk s = Ok (tt, with_console s d) /\ decimal ds n /\ zlen ds <= 10 /\
    display (SynchCons.cons d) = display (SynchCons.cons (console (os (world s)))) ++ ds /\ sc_ok d /\
    chars d = chars (console (os (world s))).
Proof.
  intros Hr Hn Hj Hc Hw. unfold SC_PrintInt. rewrite (st_bind_Ok _ _ _ _ _ (rreg_ok s 4 n ltac:(done) Hr)).
  cbv zeta. rewrite (proj2 (Z.ltb_ge n 0)) by lia.
  assert (n < 10 ^ Z.of_nat 10) as H10 by (unfold two31 in Hn; change (10 ^ Z.of_nat 10) with 10000000000; lia).
  destruct (printint_loop_ok 12 0 n 11 junk 10 ltac:(lia) ltac:(lia) ltac:(lia) ltac:(lia) Hj) as (buf & Hl & Hb & Hd).
  pose proof (zlen_dec_digits 10 n ltac:(lia)) as Hzl. pose proof (zlen_nonneg (dec_digits 10 n)).
  rewrite (lift_bind_Ok _ _ _ _ Hl). rewrite (lift_bind_Ok _ _ _ _ eq_refl).
  set (pos := if n =? 0 then 11 else 12 - 0 - zlen (dec_digits 10 n)).
  assert (exists ds, drop (Z.to_nat pos) buf = ds /\ decimal ds n /\ zlen ds = 12 - pos /\ zlen ds <= 10 /\ 0 <= pos)
    as (ds & Hds & Hdec & Hzd & Hz10 & Hp0).
  { unfold pos. destruct (Z.eqb_spec n 0) as [->|Hne].
    - cbn [printint_loop Z.eqb] in Hl. rewrite wr_Ok in Hl by lia. cbn [mbind res_bind] in Hl. injection Hl as <-.
      exists [48]. rewrite (drop_zset junk 11) by lia. rewrite drop_ge by (unfold zlen in Hj; lia).
      unfold decimal. split_and!; try done. apply Forall_cons; split; [lia|by apply Forall_nil].
    - exists (dec_digits 10 n). rewrite Hd, drop_ge, app_nil_r by (unfold zlen in Hj; lia).
      split_and!; try done; try lia. apply dec_digits_decimal. lia. }
  rewrite (proj2 (Z.leb_le 0 pos)), (proj2 (Z.leb_le pos 12)) by (pose proof (zlen_nonneg ds); lia). cbn [andb].
  rewrite (lift_bind_Ok _ _ _ _ eq_refl), Hds, <-Hzd.
  destruct (cons_Write_ok _ ds (zlen ds) Hc Hw) as (d & Hwr & Hok & Hch & Hdisp & _); [pose proof (zlen_nonneg ds); lia|].
  rewrite (st_bind_Ok _ _ _ _ _ (on_cons_ok s _ _ _ Hwr)). exists d, ds. rewrite slice_all in Hdisp.
  by split_and!.
Qed.

Lemma take_line_ok ds r : forall n e,
  Forall (fun c => c <> LF /\ c <> CtrlA) ds -> (length ds < n)%nat ->
  take_line n e (ds ++ LF :: r) = Some (ds, LF, r).
Proof.
  induction ds as [|c ds IH]; intros n e Hf Hn; (destruct n as [|n]; [simpl in Hn; lia|]); simpl; [done|].
  inversion Hf as [|? ? [H1 H2] Hf']; subst. rewrite (proj2 (Z.eqb_neq _ _) H1), (proj2 (Z.eqb_neq _ _) H2). simpl.
  rewrite IH; [done|done|simpl in Hn; lia].
Qed.

(** [sign] is nothing, "-" or "+". *)
Lemma read_int_ok s junk sign ds r :
  machine_ok (mach (world s)) -> sc_ok (console (os (world s))) -> RLineBlock (console (os (world s))) = 1 ->
  zlen junk = 12 -> sign = [] \/ sign = [45] \/ sign = [43] ->
  Forall (fun c => 48 <= c <= 57) ds -> 1 <= zlen ds -> zlen sign + zlen ds <= 10 -> dec_value ds < two31 ->
  chars (console (os (world s))) = sign ++ ds ++ LF :: r ->
  exists d, SC_ReadInt junk s =
      Ok (tt, with_reg (with_console s d) 2 (if decide (sign = [45]) then - dec_value ds else dec_value ds)) /\
    sc_ok d /\ chars d = r.
Proof.
  intros Hm Hc HR Hj Hsg Hf H1 H10 Hv Hch. unfold SC_ReadInt.
  assert (0 <= dec_value ds) as Hv0 by (by apply dec_step_mono).
  assert (Forall (fun c => c <> LF /\ c <> CtrlA) (sign ++ ds)) as Hfl.
  { apply Forall_app. split.
    - destruct Hsg as [->|[->| ->]]; repeat constructor; done.
    - eapply Forall_impl; [exact Hf|]. unfold LF, CtrlA. intros c Hcr. simpl in Hcr. lia. }
  destruct (cons_Read_ok (console (os (world s))) junk 11 (sign ++ ds) LF r Hc HR) as (d & Hrd & Hok & _ & Hcd);
    [lia| |].
  { rewrite Hch, app_assoc. apply take_line_ok; [done|]. unfold zlen in *. rewrite length_app. lia. }
  change (LF =? CtrlA) with false in Hrd. rewrite (st_bind_Ok _ _ _ _ _ (on_cons_ok s _ _ _ Hrd)).
  set (buf := splice 0 (sign ++ ds) _).
  assert (zlen (splice 0 (replicate (Z.to_nat 11) 0) junk) = 12) as Hl0 by (rewrite zlen_splice; rewrite ?Hj; done).
  assert (forall j, 0 <= j < zlen (sign ++ ds) -> zget buf j = zget (sign ++ ds) j) as Hb.
  { intros j Hjr. unfold buf. rewrite zget_splice; [|done|rewrite Hl0, zlen_app; lia].
    rewrite decide_True by lia. f_equal. lia. }
  rewrite zlen_app in *. pose proof (zlen_nonneg sign). rewrite (proj2 (Z.ltb_lt _ _)) by lia.
  assert (readint_loop 12 0 (zlen sign + zlen ds) 0 1 buf =
            Ok (dec_value ds, if decide (sign = [45]) then -1 else 1)) as Hloop.
  { assert (forall c mu, c = 45 /\ mu = -1 \/ c = 43 /\ mu = 1 -> sign = [c] ->
      readint_loop 12 0 (zlen sign + zlen ds) 0 1 buf = Ok (dec_value ds, mu)) as signed.
    { intros c mu Hc' ->. change (zlen [c]) with 1 in *. rewrite (readint_sign 11 _ buf c); [|lia|by rewrite Hb by lia|].
      2:{ by destruct Hc' as [[-> _]|[-> _]]; [left|right]. }
      replace (if c =? 45 then -1 else 1) with mu by (by destruct Hc' as [[-> ->]|[-> ->]]).
      apply (readint_digits 11 1 _ 0 mu buf ds); try done; try lia.
      intros j Hjr. rewrite Hb by lia. change ([c] ++ ds) with (c :: ds). rewrite zget_cons_S by lia. f_equal. lia. }
    destruct Hsg as [->|[->| ->]].
    - rewrite (readint_digits 12 0 _ 0 1 buf ds); try done; change (zlen ([] : list Z)) with 0 in *; lia.
    - apply (signed 45 (-1)); [by left|done].
    - apply (signed 43 1); [by right|done]. }
  rewrite (lift_bind_Ok _ _ _ _ Hloop). rewrite setreg_ok by done. exists d. split; [|done].
  assert (forall v, is_int v -> to_int v = v) as Hi by (intros; by apply to_int_id).
  destruct (decide (sign = [45])); rewrite Hi by (unfold_int; lia); do 3 f_equal; lia.
Qed.
End numbers.

(** Numbers on the console.  [SC_PrintInt] of a number from 0 to
    [2^31 - 1] shows its decimal form, without leading zeros, and changes
    nothing but the console.  When a user types such digits and a line end,
    with "-" or "+" in front or neither and at most ten characters in all,
    [SC_ReadInt] puts the number, or its negation behind "-", in register 2
    and takes exactly that line from the input. *)
Theorem numbers_on_the_console {X} `{!ProcessCalls X} (s t : sim (cpu (kern X)))
    (junk1 junk2 sign r : list Z) (n : Z) :
  zget (registers (mach (world s))) 4 = Some n -> 0 <= n < two31 -> zlen junk1 = 12 -> zlen junk2 = 12 ->
  sc_ok (console (os (world s))) -> WLineBlock (console (os (world s))) = 1 ->
  machine_ok (mach (world t)) -> sc_ok (console (os (world t))) -> RLineBlock (console (os (world t))) = 1 ->
  sign = [] \/ sign = [45] \/ sign = [43] ->
  exists d ds, SC_PrintInt junk1 s = Ok (tt, with_console s d) /\ decimal ds n /\ zlen ds <= 10 /\
    display (SynchCons.cons d) = display (SynchCons.cons (console (os (world s)))) ++ ds /\
    (zlen sign + zlen ds <= 10 -> chars (console (os (world t))) = sign ++ ds ++ LF :: r ->
     exists e, SC_ReadInt junk2 t =
         Ok (tt, with_reg (with_console t e) 2 (if decide (sign = [45]) then - n else n)) /\ chars e = r).
Proof.
  intros Hr Hn Hj1 Hj2 Hc Hw Hm Hct HR Hsg.
  destruct (print_int_ok s junk1 n Hr Hn Hj1 Hc Hw) as (d & ds & Hp & Hdec & Hl & Hd & _ & _).
  exists d, ds. split; [done|]. split; [done|]. split; [done|]. split; [done|]. intros H10 Hch.
  destruct Hdec as (Hne & Hf & Hv & _).
  destruct (read_int_ok t junk2 sign ds r Hm Hct HR Hj2 Hsg Hf) as (e & He & _ & Hce); try done.
  - destruct ds; [done|]. rewrite zlen_cons. pose proof (zlen_nonneg ds). lia.
  - rewrite Hv. lia.
  - rewrite Hv in He. by exists e.
Qed.
(** Register 4 holds 12; "-12" has been typed at the other console. *)
Definition print_state : sim (cpu (kern unit)) :=
  mkSim new_Interrupt new_Statistics
    (mkCpu (set_registers sample_machine (zset (registers sample_machine) 4 12)) sample_kern).
Definition typed_state : sim (cpu (kern unit)) :=
  mkSim new_Interrupt new_Statistics
    (mkCpu sample_machine (mkKern busy_fs (new_SynchConsole [45; 49; 50; 10]) tt)).
Lemma numbers_on_the_console_witness :
  exists d e, SC_PrintInt (replicate 12 0) print_state = Ok (tt, with_console print_state d) /\
    display (SynchCons.cons d) = [49; 50] /\
    SC_ReadInt (replicate 12 0) typed_state = Ok (tt, with_reg (with_console typed_state e) 2 (-12)).
Proof.
  destruct (numbers_on_the_console print_state typed_state (replicate 12 0) (replicate 12 0) [45] [] 12)
    as (d & ds & Hp & Hdec & Hl & Hd & Hr).
  - vm_compute. reflexivity.
  - split; [vm_compute; congruence|vm_compute; reflexivity].
  - reflexivity.
  - reflexivity.
  - apply new_SynchConsole_ok.
  - reflexivity.
  - exact sample_machine_ok.
  - apply new_SynchConsole_ok.
  - reflexivity.
  - right; left; reflexivity.
  - assert (d = match SC_PrintInt (replicate 12 0) print_state with
      Ok (_, t) => console (os (world t)) | _ => new_SynchConsole [] end) as Hdd by (rewrite Hp; reflexivity).
    vm_compute in Hdd. assert (ds = [49; 50]) as -> by (rewrite Hdd in Hd; symmetry; exact Hd).
    destruct (Hr ltac:(vm_compute; congruence) eq_refl) as (e & He & _). exists d, e. split; [exact Hp|]. split; [exact Hd|exact He].
Defined.

(** The sign of a negative number is written over its first digit, and what is
    shown starts one place earlier, at the 0 that ends the loop: -5 is shown
    as "0-". *)
Lemma print_negative :
  match SC_PrintInt (replicate 12 0)
      (mkSim new_Interrupt new_Statistics
         (mkCpu (set_registers sample_machine (zset (registers sample_machine) 4 (-5))) sample_kern)) with
  | Ok (_, t) => display (SynchCons.cons (console (os (world t)))) = [48; 45]
  | _ => False
  end.
Proof. vm_compute. reflexivity. Qed.

(** ** The file calls *)

Section files.
Context {X : Type} `{!ProcessCalls X}.
Context (permits : list Z -> bool) (open_max : nat).
#[local] Abbreviation S := (sim (cpu (kern X))).
Implicit Types (s : S).

Definition with_fs s (f : FileSystem) : S :=
  set_world s (mkCpu (mach (world s)) (mkKern f (console (os (world s))) (rest (os (world s))))).
Definition fs_of s : FileSystem := fsys (os (world s)).
Definition reg s (num : Z) : option Z := zget (registers (mach (world s))) num.
Definition bytes_of (l : list Z) : list Z := (fun c => c mod 256) <$> l.

Lemma zlen_bytes_of l : zlen (bytes_of l) = zlen l.
Proof. unfold zlen, bytes_of. by rewrite length_fmap. Qed.
Lemma on_fs_ok {A} s (c : st FileSystem A) a f :
  c (fs_of s) = Ok (a, f) -> on_fs c s = Ok (a, with_fs s f).
Proof. unfold on_fs, fs_of. by intros ->. Qed.
Lemma with_fs_id s : with_fs s (fs_of s) = s.
Proof. by destruct s as [? ? [? []]]. Qed.
Lemma list_at_ok (f : FileSystem) i o : zget (openFileList f) i = Some o -> list_at i f = Ok (o, f).
Proof. intros H. unfold list_at. by rewrite (proj2 (rd_Ok _ _ _) H). Qed.
Lemma list_put_ok (f : FileSystem) i o : 0 <= i < zlen (openFileList f) ->
  list_put i o f = Ok (tt, mkFileSystem (ux f) (zset (openFileList f) i o)).
Proof. intros H. unfold list_put. by rewrite wr_Ok. Qed.
(** [list_at] of the file system behind the machine changes nothing. *)
Lemma on_list_at s i o : zget (openFileList (fs_of s)) i = Some o -> on_fs (list_at i) s = Ok (o, s).
Proof. intros H. rewrite (on_fs_ok s _ _ _ (list_at_ok _ _ _ H)). by rewrite with_fs_id. Qed.

(** When a write is refused. *)
Definition not_writable s (fID : Z) : Prop :=
  fID < 2 \/ 9 < fID \/ zget (openFileList (fs_of s)) fID = Some None \/
  exists o, zget (openFileList (fs_of s)) fID = Some (Some o) /\ type o = Some 1.
Lemma bad_file_id (fID : Z) : fID < 2 \/ 9 < fID <-> (fID <? 2) || (9 <? fID) = true.
Proof. rewrite orb_true_iff, !Z.ltb_lt. done. Qed.
Lemma good_file_id (fID : Z) : 2 <= fID <= 9 -> (fID <? 2) || (9 <? fID) = false.
Proof. intros. apply orb_false_iff. rewrite !Z.ltb_ge. lia. Qed.
Lemma writable_file_refused s fID : not_writable s fID -> writable_file fID s = Ok (None, s).
Proof.
  intros Hn. unfold writable_file. destruct ((fID <? 2) || (9 <? fID)) eqn:Eb; [done|].
  destruct Hn as [H|[H|[H|(o & H & Ho)]]]; try (rewrite (proj1 (bad_file_id fID)) in Eb by lia; done).
  - by rewrite (st_bind_Ok _ _ _ _ _ (on_list_at _ _ _ H)).
  - rewrite (st_bind_Ok _ _ _ _ _ (on_list_at _ _ _ H)). unfold GetType. rewrite Ho.
    by rewrite (lift_bind_Ok _ _ _ _ eq_refl).
Qed.
Lemma writable_file_ok s fID o : 2 <= fID <= 9 -> zget (openFileList (fs_of s)) fID = Some (Some o) ->
  type o = Some 0 -> writable_file fID s = Ok (Some o, s).
Proof.
  intros Hf H Ho. unfold writable_file. rewrite (good_file_id fID Hf).
  rewrite (st_bind_Ok _ _ _ _ _ (on_list_at _ _ _ H)). unfold GetType. rewrite Ho.
  by rewrite (lift_bind_Ok _ _ _ _ eq_refl).
Qed.

(** Reading and writing through a slot of the list. *)
Lemma file_Write_ok s fID o from n d c :
  zget (openFileList (fs_of s)) fID = Some (Some o) -> fd_at (ux (fs_of s)) (file o) = Some (d, c) ->
  writable d = true -> 0 <= currentOffset o -> 0 <= n <= zlen from ->
  exists f', file_Write fID o from n s = Ok (n, with_fs s f') /\
    openFileList f' = zset (openFileList (fs_of s)) fID (Some (mkOpenFile (file o) (type o) (currentOffset o + n))) /\
    dirents (ux f') = dirents (ux (fs_of s)) /\
    inodes (ux f') = <[inode d := overwrite c (currentOffset o) (bytes_of (slice 0 n from))]> (inodes (ux (fs_of s))).
Proof.
  intros Hl Hfd Hw Ho Hn. unfold file_Write. fold (bytes_of from).
  pose proof (zlen_bytes_of from) as Hlb.
  destruct (stub_Write_ok (ux (fs_of s)) o (bytes_of from) n d c Hfd Hw Ho ltac:(lia)) as (u' & Hr & Hd & Hi & _).
  set (f1 := mkFileSystem u' (openFileList (fs_of s))). pose proof (zget_Some_range _ _ _ Hl) as Hrng.
  assert (on_unix (StubFS.Write o (bytes_of from) n) (fs_of s) =
    Ok (n, mkOpenFile (file o) (type o) (currentOffset o + n), f1)) as H1 by (unfold on_unix; by rewrite Hr).
  rewrite (st_bind_Ok _ _ _ _ _ (on_fs_ok s _ _ _ H1)).
  rewrite (st_bind_Ok _ _ _ _ _ (on_fs_ok (with_fs s f1) _ _ _ (list_put_ok f1 fID _ Hrng))).
  eexists. split; [reflexivity|]. split; [done|]. split; [done|]. simpl. rewrite Hi. unfold bytes_of.
  do 2 f_equal. unfold slice. by rewrite fmap_take, fmap_drop.
Qed.
Lemma file_Read_ok s fID o n d c :
  zget (openFileList (fs_of s)) fID = Some (Some o) -> fd_at (ux (fs_of s)) (file o) = Some (d, c) ->
  0 <= currentOffset o -> 0 <= n ->
  let bs := slice (currentOffset o) n c in
  exists f', file_Read fID o n s = Ok (to_char <$> bs, with_fs s f') /\
    openFileList f' =
      zset (openFileList (fs_of s)) fID (Some (mkOpenFile (file o) (type o) (currentOffset o + zlen bs))) /\
    same_files (ux (fs_of s)) (ux f').
Proof.
  intros Hl Hfd Ho Hn bs. unfold file_Read.
  destruct (stub_Read_ok (ux (fs_of s)) o n d c Hfd Ho Hn) as (u' & Hr & Hs).
  set (f1 := mkFileSystem u' (openFileList (fs_of s))). pose proof (zget_Some_range _ _ _ Hl) as Hrng.
  assert (on_unix (StubFS.Read o n) (fs_of s) =
    Ok (bs, zlen bs, mkOpenFile (file o) (type o) (currentOffset o + zlen bs), f1)) as H1
    by (unfold on_unix; by rewrite Hr).
  rewrite (st_bind_Ok _ _ _ _ _ (on_fs_ok s _ _ _ H1)).
  rewrite (st_bind_Ok _ _ _ _ _ (on_fs_ok (with_fs s f1) _ _ _ (list_put_ok f1 fID _ Hrng))).
  rewrite (proj2 (Z.ltb_ge _ _)) by apply zlen_nonneg. eexists. split; [reflexivity|]. done.
Qed.
End files.

(** C35. The Write call on files.  A write to a number outside 2 to 9, to an
    unused slot or to a file opened for reading puts -1 in register 2 and
    changes nothing else.  A write to an open file, of at most 257 characters,
    puts the characters of the program's string, with zeros behind it, in the
    file at its offset, moves the offset, and leaves every other file alone;
    but register 2 is always -2, since the count is compared to [size - 1]. *)
Theorem write_syscall {X} `{!ProcessCalls X} (s : sim (cpu (kern X))) (virtAddr size fID : Z) :
  machine_ok (mach (world s)) -> reg s 4 = Some virtAddr -> reg s 5 = Some size -> reg s 6 = Some fID -> fID <> 1 ->
  (not_writable s fID -> SC_Write s = Ok (tt, with_reg s 2 (-1))) /\
  (forall o d c l, 2 <= fID <= 9 -> zget (openFileList (fs_of s)) fID = Some (Some o) -> type o = Some 0 ->
     fd_at (ux (fs_of s)) (file o) = Some (d, c) -> writable d = true -> 0 <= currentOffset o ->
     user_string (mach (world s)) virtAddr 0 (Z.to_nat MaxString) = Some l -> 0 <= size <= 257 ->
     let text := bytes_of (slice 0 size (l ++ replicate (Z.to_nat (257 - zlen l)) 0)) in
     exists m' f', SC_Write s = Ok (tt, with_reg (with_fs (with_mach s m') f') 2 (-2)) /\
       touched (mach (world s)) m' /\ zlen text = size /\
       openFileList f' =
         zset (openFileList (fs_of s)) fID (Some (mkOpenFile (file o) (type o) (currentOffset o + size))) /\
       dirents (ux f') = dirents (ux (fs_of s)) /\
       inodes (ux f') = <[inode d := overwrite c (currentOffset o) text]> (inodes (ux (fs_of s)))).
Proof.
  intros Hm H4 H5 H6 H1.
  assert (SC_Write s = (o ← writable_file fID;
    match o with
    | None => setreg 2 (-1)
    | Some f =>
        buffer ← User2System virtAddr MaxString;
        len ← file_Write fID f buffer size;
        if negb (len =? to_int (size - 1)) then setreg 2 (-2) else setreg 2 len
    end) s) as ->.
  { unfold SC_Write. rewrite (st_bind_Ok _ _ _ _ _ (rreg_ok s 4 _ ltac:(done) H4)).
    rewrite (st_bind_Ok _ _ _ _ _ (rreg_ok s 5 _ ltac:(done) H5)).
    rewrite (st_bind_Ok _ _ _ _ _ (rreg_ok s 6 _ ltac:(done) H6)).
    by rewrite (proj2 (Z.eqb_neq fID 1)). }
  split.
  - intros Hn. rewrite (st_bind_Ok _ _ _ _ _ (writable_file_refused s fID Hn)). by apply setreg_ok.
  - intros o d c l Hf Hl Ht Hfd Hw Ho Hus Hsz text.
    rewrite (st_bind_Ok _ _ _ _ _ (writable_file_ok s fID o Hf Hl Ht)).
    pose proof (User2System_ok virtAddr MaxString s Hm ltac:(done)) as HU. rewrite Hus in HU.
    destruct HU as (Hll & _ & m' & HU & Htm). rewrite (st_bind_Ok _ _ _ _ _ HU).
    assert (zlen (l ++ replicate (Z.to_nat (MaxString + 1 - zlen l)) 0) = 257) as Hbl.
    { rewrite zlen_app. unfold zlen at 2. rewrite length_replicate. unfold MaxString in *. lia. }
    destruct (file_Write_ok (with_mach s m') fID o _ size d c Hl Hfd Hw Ho
      ltac:(rewrite Hbl; exact Hsz)) as (f' & Hr & Hlist & Hdir & Hino).
    rewrite (st_bind_Ok _ _ _ _ _ Hr). rewrite to_int_id by (unfold_int; lia).
    rewrite (proj2 (Z.eqb_neq size (size - 1))) by lia. cbn [negb]. exists m', f'.
    rewrite setreg_ok; [|by eapply touched_machine_ok|done]. split; [done|]. split; [done|].
    split; [|done]. unfold text. rewrite zlen_bytes_of, zlen_slice by lia.
    change (MaxString + 1) with 257 in Hbl. lia.
Qed.

(** ** Reading a file into user memory *)

Lemma s2u_early {X} `{!ProcessCalls X} va buffer k n : forall i (s : sim (cpu (kern X))),
  (0 < n)%nat -> zget buffer (i + Z.of_nat n - 1) = Some 0 ->
  s2u_loop (n + k) i va buffer s = s2u_loop n i va buffer s.
Proof.
  induction n as [|n IH]; intros i s Hn Hz; [lia|]. cbn [s2u_loop Nat.add]. unfold mbind, st_bind, lift.
  destruct (rd buffer i) as [c| | | |] eqn:Hc; try done. cbn [mbind res_bind].
  destruct (WriteMem fault_handler _ 1 c s) as [[? s1]| | | |]; try done.
  destruct (Z.eqb_spec c 0) as [->|Hne]; [done|]. destruct n as [|n].
  - apply rd_Ok in Hc. replace (i + Z.of_nat 1 - 1) with i in Hz by lia. congruence.
  - apply IH; [lia|]. replace (i + 1 + Z.of_nat (S n) - 1) with (i + Z.of_nat (S (S n)) - 1) by lia. done.
Qed.

(** What the Read call takes from the characters of a file: those before the
    first 0 or EOF (0xFF), and the value it returns. *)
Fixpoint text_part (cs : list Z) : list Z :=
  match cs with
  | [] => []
  | c :: r => if (c =? 0) || (c =? EOF) then [] else c :: text_part r
  end.
Definition read_result (cs : list Z) : Z :=
  match drop (length (text_part cs)) cs with
  | [] => zlen cs
  | c :: _ => if c =? 0 then zlen (text_part cs) + 1 else -2
  end.
Lemma text_part_ok cs : Forall (fun c => c <> 0 /\ c <> EOF) (text_part cs) /\
  exists r, cs = text_part cs ++ r /\ (forall c, head r = Some c -> c = 0 \/ c = EOF).
Proof.
  induction cs as [|c cs (Hf & r & Hr & Hh)]; simpl; [by split; [constructor|exists []]|].
  destruct (Z.eqb_spec c 0), (Z.eqb_spec c EOF); simpl;
    try (split; [by constructor|exists (c :: cs); split; [done|intros ? [= <-]; tauto]]).
  split; [by constructor|]. exists r. split; [by rewrite <-Hr|done].
Qed.
(** The scan: what is returned, and the text with a 0 behind it. *)
Lemma eof_scan_ok t r : forall pre len,
  Forall (fun c => c <> 0 /\ c <> EOF) t -> (forall c, head r = Some c -> c = 0 \/ c = EOF) ->
  eof_scan (length (t ++ r)) (zlen pre) len (pre ++ t ++ r ++ [0]) =
    match r with
    | [] => Ok (len, pre ++ t ++ [0], false)
    | c :: r' => Ok (zlen (pre ++ t) + 1, pre ++ t ++ 0 :: r' ++ [0], negb (c =? 0))
    end.
Proof.
  induction t as [|c t IH]; intros pre len Hf Hh; cbn [length app].
  - destruct r as [|c r]; [done|]. cbn [length eof_scan app].
    assert (zget (pre ++ c :: r ++ [0]) (zlen pre) = Some c) as Hg.
    { rewrite zget_app, decide_False by lia. by rewrite Z.sub_diag. }
    rewrite (proj2 (rd_Ok _ _ _) Hg). cbn [mbind res_bind]. rewrite app_nil_r.
    destruct (Hh c eq_refl) as [-> | ->]; [done|]. cbn [Z.eqb EOF negb].
    rewrite wr_Ok by (rewrite zlen_app, zlen_cons; pose proof (zlen_nonneg pre); pose proof (zlen_nonneg (r ++ [0])); lia).
    cbn [mbind res_bind]. do 3 f_equal. unfold zset. rewrite decide_True by apply zlen_nonneg.
    unfold zlen. rewrite Nat2Z.id. rewrite insert_app_r_alt by lia. by rewrite Nat.sub_diag.
  - cbn [eof_scan]. inversion Hf as [|? ? [H0 H1] Hf']; subst.
    assert (zget (pre ++ c :: t ++ r ++ [0]) (zlen pre) = Some c) as Hg.
    { rewrite zget_app, decide_False by lia. by rewrite Z.sub_diag. }
    rewrite (proj2 (rd_Ok _ _ _) Hg). cbn [mbind res_bind].
    rewrite (proj2 (Z.eqb_neq c 0)), (proj2 (Z.eqb_neq c EOF)) by done.
    specialize (IH (pre ++ [c]) len Hf' Hh). rewrite zlen_app in IH. change (zlen [c]) with 1 in IH.
    rewrite <-!app_assoc in IH. cbn [app] in IH. rewrite IH. destruct r; [done|]. by rewrite <-!app_assoc.
Qed.

(** A text and its 0 reach the program; what is behind the 0 does not. *)
Lemma s2u_text {X} `{!ProcessCalls X} va t rest k (pa : Z -> Z) (s : sim (cpu (kern X))) :
  machine_ok (mach (world s)) -> 0 <= k -> Forall (fun c => c <> 0) t ->
  (forall j, 0 <= j <= zlen t -> phys (mach (world s)) (to_int (va + j)) 1 true = inr (pa j)) ->
  (forall i j, 0 <= i <= zlen t -> 0 <= j <= zlen t -> pa i = pa j -> i = j) ->
  exists m', System2User va (zlen t + 1 + k) (t ++ 0 :: rest) s = Ok (zlen t + 1, with_mach s m') /\
    stored (mach (world s)) m' /\
    (forall j, 0 <= j <= zlen t -> zget (mainMemory m') (pa j) = zget (bytes_of t ++ [0]) j) /\
    (forall p, (forall j, 0 <= j <= zlen t -> p <> pa j) ->
       zget (mainMemory m') p = zget (mainMemory (mach (world s))) p).
Proof.
  intros Hm Hk Hf Hp Hinj. pose proof (zlen_nonneg t) as H0. pose proof (zlen_nonneg rest) as Hr0.
  set (n := Z.to_nat (zlen t + 1)). set (buf := t ++ 0 :: rest).
  assert (forall j, 0 <= j < zlen t -> zget buf j = zget t j) as Hb1.
  { intros j Hj. unfold buf. by rewrite zget_app, decide_True by lia. }
  assert (zget buf (zlen t) = Some 0) as Hb2.
  { unfold buf. rewrite zget_app, decide_False by lia. by rewrite Z.sub_diag. }
  destruct (s2u_ok va buf pa n 0 s Hm) as (m' & Hr & Hs & Hw & Ho); try lia.
  { unfold buf, n. rewrite zlen_app, zlen_cons. lia. }
  { intros j Hj. apply Hp. lia. }
  { intros i j Hi Hj. apply Hinj; lia. }
  { intros j Hj E. rewrite Hb1 in E by lia. by pose proof (Forall_zget _ _ _ _ Hf E). }
  exists m'. split; [|split; [done|split]].
  - unfold System2User. rewrite (proj2 (Z.ltb_ge _ _)), (proj2 (Z.eqb_neq _ _)) by lia.
    replace (Z.to_nat (zlen t + 1 + k)) with (n + Z.to_nat k)%nat by lia.
    rewrite s2u_early, Hr; [do 2 f_equal; lia|lia|]. by replace (0 + Z.of_nat n - 1) with (zlen t) by lia.
  - intros j Hj. rewrite Hw by lia. rewrite zget_app, zlen_bytes_of. case_decide as Hd.
    + rewrite Hb1 by lia. unfold bytes_of, zget. rewrite !decide_True by lia. by rewrite list_lookup_fmap.
    + assert (j = zlen t) as -> by lia. rewrite Hb2, Z.sub_diag. done.
  - intros p Hn. apply Ho. intros j Hj. apply Hn. lia.
Qed.

(** C7. The Read call on files.  A read from a number outside 2 to 9 or from
    an unused slot puts -1 in register 2 and changes nothing else.  A read of
    [size] bytes from an open file takes the bytes at its offset, as many as
    there are, and moves the offset behind them; the program finds at its
    address the text before the first 0 or 0xFF, and a 0 behind it, and no
    other byte of memory changes; register 2 is the number of bytes (so 0 at the
    end of the file), or the length of the text plus one when it ends at a 0
    byte of the file, or -2 when it ends at a byte 0xFF.  No file changes.
    (syscall.h promises the number of bytes read, and the comments in
    exception.cc take -2 for the end of the file; the code does neither.) *)
Theorem read_syscall {X} `{!ProcessCalls X} (s : sim (cpu (kern X))) (addr size fID : Z) :
  machine_ok (mach (world s)) -> reg s 4 = Some addr -> reg s 5 = Some size -> reg s 6 = Some fID -> fID <> 0 ->
  (fID < 2 \/ 9 < fID \/ zget (openFileList (fs_of s)) fID = Some None ->
     SC_Read s = Ok (tt, with_reg s 2 (-1))) /\
  (forall o d c pa, 2 <= fID <= 9 -> zget (openFileList (fs_of s)) fID = Some (Some o) ->
     fd_at (ux (fs_of s)) (file o) = Some (d, c) -> 0 <= currentOffset o -> 0 <= size < two31 - 1 ->
     let bs := slice (currentOffset o) size c in
     let text := text_part (to_char <$> bs) in
     (forall j, 0 <= j <= zlen text -> phys (mach (world s)) (to_int (addr + j)) 1 true = inr (pa j)) ->
     (forall i j, 0 <= i <= zlen text -> 0 <= j <= zlen text -> pa i = pa j -> i = j) ->
     exists m' f', SC_Read s = Ok (tt, with_reg (with_mach (with_fs s f') m') 2 (read_result (to_char <$> bs))) /\
       stored (mach (world s)) m' /\
       (forall j, 0 <= j <= zlen text -> zget (mainMemory m') (pa j) = zget (bytes_of text ++ [0]) j) /\
       (forall p, (forall j, 0 <= j <= zlen text -> p <> pa j) ->
          zget (mainMemory m') p = zget (mainMemory (mach (world s))) p) /\
       openFileList f' =
         zset (openFileList (fs_of s)) fID (Some (mkOpenFile (file o) (type o) (currentOffset o + zlen bs))) /\
       same_files (ux (fs_of s)) (ux f')).
Proof.
  intros Hm H4 H5 H6 H1. unfold SC_Read.
  rewrite (st_bind_Ok _ _ _ _ _ (rreg_ok s 4 _ ltac:(done) H4)).
  rewrite (st_bind_Ok _ _ _ _ _ (rreg_ok s 5 _ ltac:(done) H5)).
  rewrite (st_bind_Ok _ _ _ _ _ (rreg_ok s 6 _ ltac:(done) H6)).
  rewrite (proj2 (Z.eqb_neq fID 0)) by done. split.
  - intros Hn. destruct ((fID <? 2) || (9 <? fID)) eqn:Eb; [by apply setreg_ok|].
    destruct Hn as [Hn|[Hn|Hn]]; try (rewrite (proj1 (bad_file_id fID)) in Eb by lia; done).
    rewrite (st_bind_Ok _ _ _ _ _ (on_list_at _ _ _ Hn)). by apply setreg_ok.
  - intros o d c pa Hf Hl Hfd Ho Hsz. set (bs := slice (currentOffset o) size c).
    set (text := text_part (to_char <$> bs)). intros Hp Hinj. rewrite (good_file_id fID Hf).
    rewrite (st_bind_Ok _ _ _ _ _ (on_list_at _ _ _ Hl)).
    rewrite to_int_id by (unfold_int; lia). rewrite (proj2 (Z.ltb_ge _ _)) by lia.
    destruct (file_Read_ok s fID o size d c Hl Hfd Ho ltac:(lia)) as (f' & Hr & Hlist & Hsame).
    rewrite (st_bind_Ok _ _ _ _ _ Hr). fold bs.
    destruct (text_part_ok (to_char <$> bs)) as (Hft & r & Hcs & Hh). fold text in Hft, Hcs.
    pose proof (eof_scan_ok text r [] (zlen (to_char <$> bs)) Hft Hh) as Hscan.
    cbn [app] in Hscan. rewrite app_assoc, <-Hcs in Hscan. change (zlen ([] : list Z)) with 0 in Hscan.
    assert (Forall (fun c => c <> 0) text) as Hft0 by (eapply Forall_impl; [exact Hft|]; by intros ? []).
    assert (exists k rest ef rv, eof_scan (length (to_char <$> bs)) 0 (zlen (to_char <$> bs)) ((to_char <$> bs) ++ [0]) =
        Ok (zlen text + k, text ++ 0 :: rest, ef) /\ 0 <= k /\
        rv = read_result (to_char <$> bs) /\ (if ef : bool then -2 else zlen text + k) = rv) as (k & rest & ef & rv & Hsc & Hk & Hrv & Hef).
    { unfold read_result. fold text. rewrite Hcs, drop_app_length. rewrite Hcs in Hscan. destruct r as [|c' r].
      - exists 0, [], false, (zlen text). rewrite Hscan, app_nil_r, Z.add_0_r. by split_and!.
      - exists 1, (r ++ [0]), (negb (c' =? 0)), (if c' =? 0 then zlen text + 1 else -2). rewrite Hscan.
        split_and!; [done|lia|done|by destruct (c' =? 0)]. }
    rewrite (lift_bind_Ok _ _ _ _ Hsc).
    destruct (s2u_text addr text rest k pa (with_fs s f') Hm Hk Hft0 Hp Hinj) as (m' & Hs2u & Hst & Hw & Hother).
    replace (zlen text + k + 1) with (zlen text + 1 + k) by lia. rewrite (st_bind_Ok _ _ _ _ _ Hs2u).
    exists m', f'. split; [|done]. rewrite <-Hrv, <-Hef.
    destruct ef; (rewrite setreg_ok; [done|apply Hst|done]).
Qed.

(** A call with its arguments in registers 4, 5 and 6, for the examples. *)
Lemma machine_ok_reg m num v : machine_ok m -> 0 < num -> num <> LoadReg -> is_int v ->
  machine_ok (set_registers m (zset (registers m) num v)).
Proof.
  intros [[Hl Hi (l & Hg & Hr)] Hz Hml Hmb Ht] Hn Hne Hv. split; try done; cbn [registers set_registers].
  - split; [by rewrite zlen_zset|by apply Forall_zset|]. exists l. by rewrite zget_zset_ne.
  - by rewrite zget_zset_ne by lia.
Qed.
Definition call_state (f : FileSystem) (a b c : Z) : sim (cpu (kern unit)) :=
  let m := sample_machine in
  let m := set_registers m (zset (registers m) 4 a) in
  let m := set_registers m (zset (registers m) 5 b) in
  let m := set_registers m (zset (registers m) 6 c) in
  mkSim new_Interrupt new_Statistics (mkCpu m (mkKern f (new_SynchConsole []) tt)).
Lemma call_state_ok f a b c : is_int a -> is_int b -> is_int c -> machine_ok (mach (world (call_state f a b c))).
Proof.
  intros Ha Hb Hc. unfold call_state. cbn [mach world].
  apply machine_ok_reg; [|lia|done|exact Hc]. apply machine_ok_reg; [|lia|done|exact Hb].
  apply machine_ok_reg; [|lia|done|exact Ha]. exact sample_machine_ok.
Qed.
Lemma small_is_int v : (- 1000 <=? v) && (v <=? 1000) = true -> is_int v.
Proof. rewrite andb_true_iff, !Z.leb_le. unfold_int. lia. Qed.

(** Memory is all 0 there. *)
Lemma call_state_empty f a b c n :
  user_string (mach (world (call_state f a b c))) 4 0 (S n) = Some [].
Proof.
  cbn [user_string]. assert (uchar (mach (world (call_state f a b c))) (to_int (4 + 0)) = Some 0) as ->; [|done].
  unfold uchar. assert (phys (mach (world (call_state f a b c))) (to_int (4 + 0)) 1 false = inr 3588) as -> by reflexivity.
  cbn [mach world call_state mainMemory set_registers sample_machine]. unfold zget. rewrite decide_True by lia.
  rewrite lookup_replicate_2; [done|]. apply (Z2Nat.inj_lt 3588 MemorySize); vm_compute; congruence.
Qed.

Lemma write_syscall_witness :
  SC_Write (call_state busy_fs 4 2 12) = Ok (tt, with_reg (call_state busy_fs 4 2 12) 2 (-1)) /\
  exists m' f', SC_Write (call_state busy_fs 4 2 3) =
      Ok (tt, with_reg (with_fs (with_mach (call_state busy_fs 4 2 3) m') f') 2 (-2)) /\
    inodes (ux f') = <[1 := [0; 0]]> (inodes (ux busy_fs)).
Proof.
  split.
  - apply (write_syscall (call_state busy_fs 4 2 12) 4 2 12); [|reflexivity|reflexivity|reflexivity|lia|].
    + by apply call_state_ok; apply small_is_int.
    + right; left. lia.
  - destruct (write_syscall (call_state busy_fs 4 2 3) 4 2 3) as [_ H]; [|reflexivity|reflexivity|reflexivity|lia|].
    + by apply call_state_ok; apply small_is_int.
    + destruct (H (mkOpenFile 4 (Some 0) 0) (mkDescr 1 0 true) [1; 2] []) as (m' & f' & H1 & _ & _ & _ & _ & H2).
      * lia.
      * reflexivity.
      * reflexivity.
      * reflexivity.
      * reflexivity.
      * simpl. lia.
      * apply (call_state_empty busy_fs 4 2 3 255).
      * lia.
      * exists m', f'. split; [exact H1|exact H2].
Defined.
Lemma read_syscall_witness :
  exists m' f', SC_Read (call_state busy_fs 4 9 3) =
      Ok (tt, with_reg (with_mach (with_fs (call_state busy_fs 4 9 3) f') m') 2 2) /\
    zget (mainMemory m') 3588 = Some 1 /\ zget (mainMemory m') 3589 = Some 2 /\ zget (mainMemory m') 3590 = Some 0.
Proof.
  destruct (read_syscall (call_state busy_fs 4 9 3) 4 9 3) as [_ H]; [|reflexivity|reflexivity|reflexivity|lia|].
  - by apply call_state_ok; apply small_is_int.
  - destruct (H (mkOpenFile 4 (Some 0) 0) (mkDescr 1 0 true) [1; 2] (fun j => 3588 + j)) as (m' & f' & H1 & _ & H2 & _).
    + lia.
    + reflexivity.
    + reflexivity.
    + simpl. lia.
    + unfold two31. lia.
    + intros j Hj. assert (j = 0 \/ j = 1 \/ j = 2) as [->|[->| ->]]; [|reflexivity|reflexivity|reflexivity].
      change (0 <= j <= 2) in Hj. lia.
    + intros. lia.
    + exists m', f'. split; [exact H1|]. split; [apply (H2 0); vm_compute; split; congruence|].
      split; [apply (H2 1)|apply (H2 2)]; vm_compute; split; congruence.
Defined.

(** ** Opening and closing *)

(** [k] is the first free slot of the list from 2 on. *)
Definition first_free (l : list (option OpenFile)) (k : Z) : Prop :=
  2 <= k <= 9 /\ zget l k = Some None /\ forall j, 2 <= j < k -> exists o, zget l j = Some (Some o).
Lemma find_free_ok l k n : forall i,
  i <= k < i + Z.of_nat n -> zget l k = Some None -> (forall j, i <= j < k -> exists o, zget l j = Some (Some o)) ->
  find_free_block n i l = Ok k.
Proof.
  induction n as [|n IH]; intros i Hi Hk Hb; [lia|]. cbn [find_free_block].
  destruct (decide (i = k)) as [->|Hne].
  - by rewrite (proj2 (rd_Ok _ _ _) Hk).
  - destruct (Hb i ltac:(lia)) as [o Ho]. rewrite (proj2 (rd_Ok _ _ _) Ho). cbn [mbind res_bind].
    apply IH; [lia|done|]. intros j Hj. apply Hb. lia.
Qed.
Lemma find_free_none l n : forall i,
  (forall j, i <= j < i + Z.of_nat n -> exists o, zget l j = Some (Some o)) -> find_free_block n i l = Ok (-1).
Proof.
  induction n as [|n IH]; intros i Hb; [done|]. cbn [find_free_block].
  destruct (Hb i ltac:(lia)) as [o Ho]. rewrite (proj2 (rd_Ok _ _ _) Ho). cbn [mbind res_bind].
  apply IH. intros j Hj. apply Hb. lia.
Qed.
Lemma zset_zset {A} (l : list A) i x y : zset (zset l i x) i y = zset l i y.
Proof. unfold zset. case_decide; [|done]. by rewrite list_insert_insert_eq. Qed.

(** The host opens an existing file, or says why not with -1. *)
Definition host_refuses permits open_max (u : unix) (name : list Z) : Prop :=
  dirents u !! name = None \/ permits name = false \/ free_fd open_max u = None.
Lemma Open_t_ok permits open_max (f : FileSystem) name ty ino fd :
  ty = 0 \/ ty = 1 -> dirents (ux f) !! name = Some ino -> permits name = true ->
  free_fd open_max (ux f) = Some fd ->
  Open_t permits open_max 0 name ty f =
    Ok (Some (new_OpenFile_t fd ty),
        mkFileSystem (set_fds (ux f) (<[fd := mkDescr ino 0 (ty =? 0)]> (fds (ux f)))) (openFileList f)).
Proof.
  intros Ht Hd Hp Hf. destruct (free_fd_spec _ _ _ Hf) as [H3 _].
  assert ((fd =? -1) = false) as Hm1 by (apply Z.eqb_neq; lia).
  assert (forall w, open_existing permits open_max (ux f) name w =
    (fd, set_fds (ux f) (<[fd := mkDescr ino 0 w]> (fds (ux f))))) as Ho.
  { intros w. unfold open_existing, new_fd. by rewrite Hd, Hp, Hf. }
  destruct f as [u l]. simpl in Ho.
  destruct Ht as [-> | ->]; unfold Open_t, OpenForReadWrite, OpenForRead, on_unix, mbind, st_bind;
    cbn [Z.eqb Pos.eqb ux]; rewrite Ho; simpl; by rewrite Hm1.
Qed.
Lemma Open_t_refused permits open_max (f : FileSystem) name ty :
  ty = 0 \/ ty = 1 -> host_refuses permits open_max (ux f) name ->
  Open_t permits open_max 0 name ty f = Ok (None, f).
Proof.
  intros Ht Hr.
  assert (forall w, open_existing permits open_max (ux f) name w = (-1, ux f)) as Ho.
  { intros w. unfold open_existing, new_fd. destruct Hr as [-> |[-> | ->]]; [done|by destruct (_ !! _)|].
    destruct (dirents (ux f) !! name); [|done]. by destruct (permits name). }
  destruct f as [u l]. simpl in Ho.
  destruct Ht as [-> | ->]; unfold Open_t, OpenForReadWrite, OpenForRead, on_unix, mbind, st_bind; cbn [Z.eqb Pos.eqb ux];
    by rewrite Ho.
Qed.

Section opening.
Context {X : Type} `{!ProcessCalls X}.
Context (permits : list Z -> bool) (open_max : nat).
#[local] Abbreviation S := (sim (cpu (kern X))).
Implicit Types (s t : S).

(** What Open does once the name is read. *)
Definition open_in_slot (name : list Z) (ty : Z) : st S unit :=
  freeBlock ← on_fs FindFreeBlock;
  if freeBlock =? -1 then setreg 2 (-1)
  else
    o ← on_fs (Open_t permits open_max 0 name ty);
    match o with
    | None => setreg 2 (-1)
    | Some f => on_fs (list_put freeBlock (Some f));; setreg 2 freeBlock
    end.
Lemma SC_Open_name s virtAddr ty name :
  machine_ok (mach (world s)) -> reg s 4 = Some virtAddr -> reg s 5 = Some ty -> ty = 0 \/ ty = 1 ->
  user_string (mach (world s)) virtAddr 0 (Z.to_nat (MaxFileLength + 1)) = Some name ->
  exists m', touched (mach (world s)) m' /\
    SC_Open permits open_max s = open_in_slot name ty (with_mach s m').
Proof.
  intros Hm H4 H5 Ht Hus. unfold SC_Open. rewrite (st_bind_Ok _ _ _ _ _ (rreg_ok s 4 _ ltac:(done) H4)).
  rewrite (st_bind_Ok _ _ _ _ _ (rreg_ok s 5 _ ltac:(done) H5)).
  pose proof (User2System_ok virtAddr (MaxFileLength + 1) s Hm ltac:(done)) as HU. rewrite Hus in HU.
  destruct HU as (_ & Hc & m' & HU & Htm). exists m'. split; [done|].
  destruct Ht as [-> | ->]; cbn [Z.eqb Pos.eqb negb andb orb]; by rewrite (st_bind_Ok _ _ _ _ _ HU), Hc.
Qed.
Lemma on_find_free s r : find_free_block 8 2 (openFileList (fs_of s)) = Ok r -> on_fs FindFreeBlock s = Ok (r, s).
Proof.
  intros H. rewrite (on_fs_ok s _ r (fs_of s)); [by rewrite with_fs_id|]. unfold FindFreeBlock. by rewrite H.
Qed.
Lemma open_full s name ty :
  machine_ok (mach (world s)) ->
  (forall j, 2 <= j <= 9 -> exists o, zget (openFileList (fs_of s)) j = Some (Some o)) ->
  open_in_slot name ty s = Ok (tt, with_reg s 2 (-1)).
Proof.
  intros Hm Hall. unfold open_in_slot. rewrite (st_bind_Ok _ _ _ _ _ (on_find_free s (-1)
    ltac:(apply find_free_none; intros; apply Hall; lia))). by apply setreg_ok.
Qed.
Lemma open_slot s k : first_free (openFileList (fs_of s)) k -> on_fs FindFreeBlock s = Ok (k, s) /\ (k =? -1) = false.
Proof.
  intros (Hk & Hn & Hb). split; [|apply Z.eqb_neq; lia]. apply on_find_free. by apply find_free_ok; [lia| |].
Qed.
Lemma open_refused s name ty k :
  machine_ok (mach (world s)) -> ty = 0 \/ ty = 1 -> first_free (openFileList (fs_of s)) k ->
  host_refuses permits open_max (ux (fs_of s)) name ->
  open_in_slot name ty s = Ok (tt, with_reg s 2 (-1)).
Proof.
  intros Hm Ht [Hk Hk1]%open_slot Hr. unfold open_in_slot. rewrite (st_bind_Ok _ _ _ _ _ Hk), Hk1.
  rewrite (st_bind_Ok _ _ _ _ _ (on_fs_ok s _ _ _ (Open_t_refused _ _ _ _ _ Ht Hr))), with_fs_id. by apply setreg_ok.
Qed.
Definition opened (f : FileSystem) (k fd ino ty : Z) : FileSystem :=
  mkFileSystem (set_fds (ux f) (<[fd := mkDescr ino 0 (ty =? 0)]> (fds (ux f))))
    (zset (openFileList f) k (Some (new_OpenFile_t fd ty))).
Lemma open_ok s name ty k ino fd :
  machine_ok (mach (world s)) -> zlen (openFileList (fs_of s)) = 10 -> ty = 0 \/ ty = 1 ->
  first_free (openFileList (fs_of s)) k -> dirents (ux (fs_of s)) !! name = Some ino -> permits name = true ->
  free_fd open_max (ux (fs_of s)) = Some fd ->
  open_in_slot name ty s = Ok (tt, with_reg (with_fs s (opened (fs_of s) k fd ino ty)) 2 k).
Proof.
  intros Hm Hl Ht Hff Hd Hp Hf. pose proof (open_slot s k Hff) as [Hk Hk1]. destruct Hff as [Hr _].
  unfold open_in_slot. rewrite (st_bind_Ok _ _ _ _ _ Hk), Hk1.
  rewrite (st_bind_Ok _ _ _ _ _ (on_fs_ok s _ _ _ (Open_t_ok _ _ _ _ _ _ _ Ht Hd Hp Hf))).
  set (f1 := mkFileSystem _ _).
  rewrite (st_bind_Ok _ _ _ _ _ (on_fs_ok (with_fs s f1) _ _ _ (list_put_ok f1 k _ ltac:(simpl; lia)))).
  by apply setreg_ok.
Qed.

Lemma SC_Close_refused t fid :
  machine_ok (mach (world t)) -> reg t 4 = Some fid ->
  fid < 2 \/ 9 < fid \/ zget (openFileList (fs_of t)) fid = Some None ->
  SC_Close t = Ok (tt, with_reg t 2 (-1)).
Proof.
  intros Hm H4 Hn. unfold SC_Close. rewrite (st_bind_Ok _ _ _ _ _ (rreg_ok t 4 _ ltac:(done) H4)).
  destruct ((fid <? 2) || (9 <? fid)) eqn:Eb; [by apply setreg_ok|].
  destruct Hn as [Hn|[Hn|Hn]]; try (rewrite (proj1 (bad_file_id fid)) in Eb by lia; done).
  rewrite (st_bind_Ok _ _ _ _ _ (on_list_at _ _ _ Hn)). by apply setreg_ok.
Qed.
Lemma close_opened t f k fd ino ty :
  machine_ok (mach (world t)) -> reg t 4 = Some k -> 2 <= k <= 9 -> zlen (openFileList f) = 10 ->
  zget (openFileList f) k = Some None -> fds (ux f) !! fd = None -> fs_of t = opened f k fd ino ty ->
  SC_Close t = Ok (tt, with_reg (with_fs t f) 2 0).
Proof.
  intros Hm H4 Hk Hl Hn Hfd Hf. unfold SC_Close. rewrite (st_bind_Ok _ _ _ _ _ (rreg_ok t 4 _ ltac:(done) H4)).
  rewrite (good_file_id k Hk).
  assert (zget (openFileList (fs_of t)) k = Some (Some (new_OpenFile_t fd ty))) as Hz.
  { rewrite Hf. simpl. apply zget_zset_eq. lia. }
  rewrite (st_bind_Ok _ _ _ _ _ (on_list_at _ _ _ Hz)).
  assert (Close k (fs_of t) = Ok (true, f)) as Hcl.
  { rewrite (Close_open _ _ _ Hz); rewrite Hf; simpl; [|by rewrite lookup_insert_eq].
    rewrite delete_insert_id, zset_zset, zset_id by done. by destruct f as [[] ?]. }
  rewrite (st_bind_Ok _ _ _ _ _ (on_fs_ok t _ _ _ Hcl)). cbn [negb].
  rewrite (st_bind_Ok _ _ _ _ _ (on_fs_ok (with_fs t f) _ _ _ (list_put_ok f k None ltac:(simpl; lia)))).
  rewrite (zset_id _ _ _ Hn). destruct f as [u l]. by apply setreg_ok.
Qed.
End opening.

(** Opening and closing files.  Open with a type other than 0 (read and
    write) and 1 (read only), with the eight slots in use, or of a file the
    host does not open puts -1 in register 2 and leaves the file system alone.
    Otherwise it gives the first free slot, at offset 0 and with the type that
    was asked for; Close of that slot then gives 0 and the file system is what
    it was before Open.  Close of an unused slot or of a number outside 2 to 9
    gives -1 and changes nothing else. *)
Theorem open_close_syscall {X} `{!ProcessCalls X} permits open_max (s : sim (cpu (kern X)))
    (virtAddr ty k : Z) (name : list Z) :
  machine_ok (mach (world s)) -> zlen (openFileList (fs_of s)) = 10 ->
  reg s 4 = Some virtAddr -> reg s 5 = Some ty ->
  user_string (mach (world s)) virtAddr 0 (Z.to_nat (MaxFileLength + 1)) = Some name ->
  ((ty <> 0 /\ ty <> 1) \/ (forall j, 2 <= j <= 9 -> exists o, zget (openFileList (fs_of s)) j = Some (Some o)) \/
     (first_free (openFileList (fs_of s)) k /\ host_refuses permits open_max (ux (fs_of s)) name) ->
   exists m', touched (mach (world s)) m' /\
     SC_Open permits open_max s = Ok (tt, with_reg (with_mach s m') 2 (-1))) /\
  (forall ino fd, ty = 0 \/ ty = 1 -> first_free (openFileList (fs_of s)) k ->
     dirents (ux (fs_of s)) !! name = Some ino -> permits name = true -> free_fd open_max (ux (fs_of s)) = Some fd ->
     exists m' f', touched (mach (world s)) m' /\
       SC_Open permits open_max s = Ok (tt, with_reg (with_fs (with_mach s m') f') 2 k) /\
       zget (openFileList f') k = Some (Some (new_OpenFile_t fd ty)) /\
       fds (ux f') = <[fd := mkDescr ino 0 (ty =? 0)]> (fds (ux (fs_of s))) /\
       forall t : sim (cpu (kern X)), machine_ok (mach (world t)) -> fs_of t = f' -> reg t 4 = Some k ->
         SC_Close t = Ok (tt, with_reg (with_fs t (fs_of s)) 2 0)) /\
  (forall (t : sim (cpu (kern X))) fid, machine_ok (mach (world t)) -> reg t 4 = Some fid ->
     fid < 2 \/ 9 < fid \/ zget (openFileList (fs_of t)) fid = Some None ->
     SC_Close t = Ok (tt, with_reg t 2 (-1))).
Proof.
  intros Hm Hl H4 H5 Hus. split; [|split].
  - intros Hbad. destruct (decide (ty = 0 \/ ty = 1)) as [Ht|Ht].
    + destruct (SC_Open_name permits open_max s virtAddr ty name Hm H4 H5 Ht Hus) as (m' & Htm & ->).
      exists m'. split; [done|]. pose proof (touched_machine_ok _ _ Htm Hm).
      destruct Hbad as [[? ?]|[Hall|[Hff Hr]]]; [tauto|by apply open_full|by eapply open_refused].
    + exists (mach (world s)). split; [apply touched_refl|]. unfold SC_Open.
      rewrite (st_bind_Ok _ _ _ _ _ (rreg_ok s 4 _ ltac:(done) H4)).
      rewrite (st_bind_Ok _ _ _ _ _ (rreg_ok s 5 _ ltac:(done) H5)).
      rewrite (proj2 (Z.eqb_neq ty 0)), (proj2 (Z.eqb_neq ty 1)) by tauto. cbn [negb andb].
      rewrite setreg_ok by done. by destruct s as [? ? []].
  - intros ino fd Ht Hff Hd Hp Hfd.
    destruct (SC_Open_name permits open_max s virtAddr ty name Hm H4 H5 Ht Hus) as (m' & Htm & ->).
    exists m', (opened (fs_of s) k fd ino ty). split; [done|].
    split; [apply (open_ok permits open_max (with_mach s m') name); try done; by eapply touched_machine_ok|].
    destruct Hff as (Hk & Hn & _). split; [apply zget_zset_eq; lia|]. split; [done|].
    intros t Hmt Hft H4t. eapply close_opened; try done. by apply free_fd_spec in Hfd as [_ ?].
  - intros t fid Hmt H4t Hb. by eapply SC_Close_refused.
Qed.
(** A program with "a" at address 4; the host has that file. *)
Definition named_state (f : FileSystem) (a b c : Z) : sim (cpu (kern unit)) :=
  let s := call_state f a b c in
  with_mach s (set_mainMemory (mach (world s)) (zset (mainMemory sample_machine) 3588 97)).
Lemma named_state_ok f a b c : is_int a -> is_int b -> is_int c -> machine_ok (mach (world (named_state f a b c))).
Proof.
  intros Ha Hb Hc. pose proof (call_state_ok f a b c Ha Hb Hc). apply machine_ok_memory; [done| |].
  - rewrite zlen_zset. apply sample_machine_ok.
  - apply Forall_zset; [apply sample_machine_ok|]. unfold_int. lia.
Qed.
Lemma named_state_name f a b c n : user_string (mach (world (named_state f a b c))) 4 0 (S (S n)) = Some [97].
Proof.
  assert (zget (zset (mainMemory sample_machine) 3588 97) 3588 = Some 97) as H1.
  { apply zget_zset_eq. rewrite (mo_mem_len _ sample_machine_ok). split; [lia|reflexivity]. }
  assert (zget (zset (mainMemory sample_machine) 3588 97) 3589 = Some 0) as H2.
  { rewrite zget_zset_ne by lia. cbn [mainMemory sample_machine]. unfold zget. rewrite decide_True by lia.
    apply lookup_replicate_2. apply (Z2Nat.inj_lt 3589 MemorySize); vm_compute; congruence. }
  assert (forall i v, phys (mach (world (named_state f a b c))) (to_int (4 + i)) 1 false = inr (3588 + i) ->
    zget (zset (mainMemory sample_machine) 3588 97) (3588 + i) = Some v ->
    uchar (mach (world (named_state f a b c))) (to_int (4 + i)) = Some (to_char v)) as Hu.
  { intros i v Hp Hg. unfold uchar. rewrite Hp. cbn [mach world named_state with_mach set_world mainMemory set_mainMemory].
    by rewrite Hg. }
  cbn [user_string]. rewrite (Hu 0 97); [|reflexivity|exact H1]. change (to_char 97 =? 0) with false. cbn iota.
  rewrite (Hu (0 + 1) 0); [|reflexivity|exact H2]. reflexivity.
Qed.
Lemma open_close_syscall_witness :
  exists m' f', SC_Open (fun _ => true) 64 (named_state busy_fs 4 1 0) =
      Ok (tt, with_reg (with_fs (with_mach (named_state busy_fs 4 1 0) m') f') 2 2) /\
    SC_Close (call_state f' 2 0 0) = Ok (tt, with_reg (with_fs (call_state f' 2 0 0) busy_fs) 2 0).
Proof.
  destruct (open_close_syscall (fun _ => true) 64 (named_state busy_fs 4 1 0) 4 1 2 [97]) as (_ & H & _).
  - by apply named_state_ok; apply small_is_int.
  - reflexivity.
  - reflexivity.
  - reflexivity.
  - apply (named_state_name busy_fs 4 1 0 31).
  - destruct (H 1 3) as (m' & f' & _ & H1 & _ & _ & H2).
    + right. reflexivity.
    + split; [lia|]. split; [reflexivity|]. intros j Hj. lia.
    + reflexivity.
    + reflexivity.
    + reflexivity.
    + exists m', f'. split; [exact H1|]. apply (H2 (call_state f' 2 0 0)); [|reflexivity|reflexivity].
      by apply call_state_ok; apply small_is_int.
Defined.

(** ** The handler *)

(** The program counters move on. *)
Lemma IncPCReg_ok {X} `{!ProcessCalls X} (t : sim (cpu (kern X))) pc npc :
  machine_ok (mach (world t)) -> reg t PCReg = Some pc -> reg t NextPCReg = Some npc ->
  IncPCReg t = Ok (tt, with_reg (with_reg (with_reg t PrevPCReg pc) PCReg npc) NextPCReg (to_int (npc + 4))).
Proof.
  intros Hm Hpc Hn. unfold IncPCReg.
  rewrite (st_bind_Ok _ _ _ _ _ (rreg_ok t PCReg _ ltac:(done) Hpc)).
  rewrite (st_bind_Ok _ _ _ _ _ (setreg_ok t PrevPCReg pc Hm ltac:(done))).
  pose proof (ro_ints _ (mo_regs _ Hm)) as Hi. pose proof (Forall_zget _ _ _ _ Hi Hpc) as Hip.
  pose proof (Forall_zget _ _ _ _ Hi Hn) as Hin.
  set (t1 := with_reg t PrevPCReg pc).
  assert (machine_ok (mach (world t1))) as Hm1 by (by apply machine_ok_reg).
  assert (reg t1 NextPCReg = Some npc) as Hn1 by (unfold reg; simpl; by rewrite zget_zset_ne).
  rewrite (st_bind_Ok _ _ _ _ _ (rreg_ok t1 NextPCReg _ ltac:(done) Hn1)).
  rewrite (st_bind_Ok _ _ _ _ _ (setreg_ok t1 PCReg npc Hm1 ltac:(done))).
  apply setreg_ok; [by apply machine_ok_reg|done].
Qed.

(** C34. The exception handler.  [NoException] returns; every other exception
    that is not a system call stops the machine, and so do the Halt call and a
    call number that does not exist.  When a system call returns, in state
    [t], the program counters move on by one instruction, so that the program
    does not repeat the call, and nothing else of [t] changes.  The Sleep call
    fails an assertion whenever interrupts are on. *)
Theorem exception_handler {X} `{!ProcessCalls X} permits open_max others junk (s : sim (cpu (kern X)))
    (which : ExceptionType) (ty : Z) :
  reg s 2 = Some ty ->
  let handler := ExceptionHandler permits open_max others junk in
  handler NoException s = Ok (tt, s) /\
  (which <> NoException -> which <> SyscallException -> handler which s = Halted) /\
  (ty <= 0 \/ 27 < ty -> handler SyscallException s = Halted) /\
  (ty = 24 -> level (interrupt s) = IntOn -> handler SyscallException s = AssertFail) /\
  (forall t pc npc, syscall permits open_max others junk ty s = Ok (tt, t) -> machine_ok (mach (world t)) ->
     reg t PCReg = Some pc -> reg t NextPCReg = Some npc ->
     handler SyscallException s =
       Ok (tt, with_reg (with_reg (with_reg t PrevPCReg pc) PCReg npc) NextPCReg (to_int (npc + 4)))).
Proof.
  intros H2. unfold ExceptionHandler.
  assert (forall k : Z -> st (sim (cpu (kern X))) unit, (rreg 2 ≫= k) s = k ty s) as Hk.
  { intros k. by rewrite (st_bind_Ok _ _ _ _ _ (rreg_ok s 2 _ ltac:(done) H2)). }
  rewrite !Hk. split_and!.
  - done.
  - intros H0 H1. by destruct which.
  - intros Ht. assert (syscall permits open_max others junk ty s = Halted) as Hh; [|unfold mbind, st_bind; by rewrite Hh].
    destruct ty as [|p|p]; [done| |done]. destruct Ht as [Ht|Ht]; [lia|].
    do 5 (destruct p as [p|p|]; try done; try lia).
  - intros -> Hi. unfold mbind, st_bind. cbn [syscall]. unfold SC_Sleep. by rewrite Hi.
  - intros t pc npc Hs Hm Hpc Hn. rewrite (st_bind_Ok _ _ _ _ _ Hs). by apply IncPCReg_ok.
Qed.
(** PrintChar of "A" by a program at address 8. *)
Definition print_char_state : sim (cpu (kern unit)) :=
  let s := call_state busy_fs 65 0 0 in
  with_reg (with_reg (with_reg s 2 16) PCReg 8) NextPCReg 12.
Lemma exception_handler_witness :
  let handler := ExceptionHandler (fun _ => true) 64 (fun _ => Halt) (fun _ => []) in
  handler PageFaultException print_char_state = Halted /\
  exists t, handler SyscallException print_char_state =
      Ok (tt, with_reg (with_reg (with_reg t PrevPCReg 8) PCReg 12) NextPCReg 16) /\
    display (SynchCons.cons (console (os (world t)))) = [65].
Proof.
  destruct (exception_handler (fun _ => true) 64 (fun _ => Halt) (fun _ => []) print_char_state PageFaultException 16)
    as (_ & H1 & _ & _ & H2); [reflexivity|].
  destruct (cons_Write_ok (new_SynchConsole []) [65] 1 (new_SynchConsole_ok []) eq_refl) as (d & Hw & _ & _ & Hd & _);
    [by vm_compute|].
  split; [apply H1; discriminate|]. exists (with_console print_char_state d). split; [|exact Hd].
  apply (H2 (with_console print_char_state d) 8 12).
  - cbn [syscall]. unfold SC_PrintChar.
    rewrite (st_bind_Ok _ _ _ _ _ (rreg_ok print_char_state 4 65 ltac:(done) eq_refl)).
    by rewrite (st_bind_Ok _ _ _ _ _ (on_cons_ok print_char_state _ _ _ Hw)).
  - cbn [with_console print_char_state with_reg with_mach set_world mach world].
    do 3 (apply machine_ok_reg; [|reflexivity|discriminate|by apply small_is_int]).
    by apply call_state_ok; apply small_is_int.
  - reflexivity.
  - reflexivity.
Defined.
