(* ===== verification/Floats.v ===== *)
(** * Floating-point numbers of the host

    What the calls on floats of userprog/exception.cc use of C and its library:
    IEEE numbers, rounding to the nearest (ties to even), the conversion from
    double to float, [atof] and the format %f of [sprintf].  All of it is exact
    integer arithmetic, so that the calls can be evaluated. *)

From stdpp Require Import list.
From S2P Require Import Prelude Syscalls.
#[local] Open Scope Z_scope.

(** ** Numbers *)

(** [Ffin s m e] is the number [m * 2^e], negative when [s]. *)
Inductive float :=
| Fzero (s : bool)
| Finf (s : bool)
| Fnan (s : bool)
| Ffin (s : bool) (m e : Z).
#[export] Instance float_eq_dec : EqDecision float.
Proof. solve_decision. Defined.

(** [prec] binary digits, all numbers below [2^emax]. *)
Record format := mkFormat { prec : Z; emax : Z }.
Definition binary32 : format := mkFormat 24 128.
Definition binary64 : format := mkFormat 53 1024.
(** The least exponent, of the numbers next to 0. *)
Definition emin (f : format) : Z := 3 - emax f - prec f.

(** The numbers of a format: the leading digit is not 0, but for the least
    exponent. *)
Definition valid (f : format) (x : float) : Prop :=
  match x with
  | Ffin s m e => 0 < m < 2 ^ prec f /\ emin f <= e <= emax f - prec f /\ (e = emin f \/ 2 ^ (prec f - 1) <= m)
  | _ => True
  end.

(** ** Rounding *)

(** [a / b] to the nearest integer, ties to even. *)
Definition rdiv (a b : Z) : Z :=
  let q := a / b in
  match 2 * (a mod b) ?= b with
  | Lt => q
  | Gt => q + 1
  | Eq => if Z.even q then q else q + 1
  end.

(** [m * 2^e] as a fraction. *)
Definition pow_up (e : Z) : Z := 2 ^ Z.max e 0.
Definition ratio (m e : Z) : Z * Z := (m * pow_up e, pow_up (- e)).
(** The [k] with [2^k <= num / den < 2^(k+1)]. *)
Definition flog2 (num den : Z) : Z :=
  let k := Z.log2 num - Z.log2 den in
  if den * pow_up k <=? num * pow_up (- k) then k else k - 1.

(** The number of the format that is nearest to [num / den > 0]. *)
Definition round (f : format) (s : bool) (num den : Z) : float :=
  let e := Z.max (flog2 num den - prec f + 1) (emin f) in
  let q := rdiv (num * pow_up (- e)) (den * pow_up e) in
  if q =? 0 then Fzero s
  else
    let '(m, e) := if q =? 2 ^ prec f then (2 ^ (prec f - 1), e + 1) else (q, e) in
    if emax f - prec f <? e then Finf s else Ffin s m e.

(** [(float)x] of a double. *)
Definition float_of_double (x : float) : float :=
  match x with
  | Ffin s m e => let '(n, d) := ratio m e in round binary32 s n d
  | _ => x
  end.

(** ** Comparison *)

(** [*first > *second] and [*first == *second]; a NaN is in no relation. *)
Definition signed (s : bool) (m : Z) : Z := if s then - m else m.
Definition scaled (e0 : Z) (x : float) : Z :=
  match x with Ffin s m e => signed s m * 2 ^ (e - e0) | _ => 0 end.
Definition exponent (x : float) : Z := match x with Ffin _ _ e => e | _ => 0 end.
Definition fcompare (x y : float) : option comparison :=
  match x, y with
  | Fnan _, _ | _, Fnan _ => None
  | Finf s, Finf t => Some (signed s 1 ?= signed t 1)
  | Finf s, _ => Some (if s then Lt else Gt)
  | _, Finf t => Some (if t then Gt else Lt)
  | _, _ => let e0 := Z.min (exponent x) (exponent y) in Some (scaled e0 x ?= scaled e0 y)
  end.

(** ** atof *)

Definition isspace (c : Z) : bool := (c =? 32) || ((9 <=? c) && (c <=? 13)).
Fixpoint skip_space (l : list Z) : list Z :=
  match l with
  | c :: r => if isspace c then skip_space r else l
  | [] => []
  end.
Definition tolower (c : Z) : Z := if (65 <=? c) && (c <=? 90) then c + 32 else c.
Definition read_sign (l : list Z) : bool * list Z :=
  match l with
  | c :: r => if c =? 45 then (true, r) else if c =? 43 then (false, r) else (false, l)
  | [] => (false, l)
  end.
(** The value of a digit in base 10 or 16. *)
Definition digit_in (base c : Z) : option Z :=
  if (48 <=? c) && (c <=? 57) then Some (c - 48)
  else if (base =? 16) && (97 <=? tolower c) && (tolower c <=? 102) then Some (tolower c - 87)
  else None.
(** The digits at the front: the number so far, how many, and what follows. *)
Fixpoint read_digits (base v n : Z) (l : list Z) : Z * Z * list Z :=
  match l with
  | c :: r => match digit_in base c with Some d => read_digits base (v * base + d) (n + 1) r | None => (v, n, l) end
  | [] => (v, n, l)
  end.
(** Digits with a point: all digits as one number, how many stand after the
    point; [None] when there is no digit. *)
Definition read_mantissa (base : Z) (l : list Z) : option (Z * Z * list Z) :=
  let '(v, n, r) := read_digits base 0 0 l in
  let '(v, k, r) := match r with 46 :: r' => read_digits base v 0 r' | _ => (v, 0, r) end in
  if n + k =? 0 then None else Some (v, k, r).
(** The exponent after [marker], 0 when there is none. *)
Definition read_exponent (marker : Z) (l : list Z) : Z :=
  match l with
  | c :: r =>
      if tolower c =? marker then
        let '(s, r) := read_sign r in
        let '(v, n, _) := read_digits 10 0 0 r in
        signed s v
      else 0
  | [] => 0
  end.
(** [v * base^x] as a double. *)
Definition to_double (s : bool) (v base x : Z) : float :=
  if v =? 0 then Fzero s else round binary64 s (v * base ^ Z.max x 0) (base ^ Z.max (- x) 0).
Definition strtod_dec (s : bool) (l : list Z) : float :=
  match read_mantissa 10 l with
  | Some (v, k, r) => to_double s v 10 (read_exponent 101 r - k)
  | None => Fzero false
  end.
Definition strtod_hex (s : bool) (l : list Z) : float :=
  match read_mantissa 16 l with
  | Some (v, k, r) => to_double s v 2 (read_exponent 112 r - 4 * k)
  | None => Fzero s
  end.
Definition starts (word l : list Z) : bool := bool_decide (take (length word) (tolower <$> l) = word).
Definition atof (l : list Z) : float :=
  let '(s, l) := read_sign (skip_space l) in
  if starts [105; 110; 102] l then Finf s
  else if starts [110; 97; 110] l then Fnan s
  else if starts [48; 120] l then strtod_hex s (drop 2 l)
  else strtod_dec s l.

(** ** %f *)

Definition minus (s : bool) : list Z := if s then [45] else [].
Definition dec_text (n : Z) : list Z := if n =? 0 then [48] else dec_digits 50 n.
(** The [k] last digits. *)
Fixpoint low_digits (k : nat) (n : Z) : list Z :=
  match k with
  | O => []
  | S k' => low_digits k' (n / 10) ++ [48 + n mod 10]
  end.
Definition millionth : Z := 1000000.
(** The number of millionths in [m * 2^e]. *)
Definition millionths (m e : Z) : Z := let '(n, d) := ratio m e in rdiv (n * millionth) d.
Definition fmt_f (x : float) : list Z :=
  match x with
  | Fnan s => minus s ++ [110; 97; 110]
  | Finf s => minus s ++ [105; 110; 102]
  | Fzero s => minus s ++ dec_text 0 ++ [46] ++ low_digits 6 0
  | Ffin s m e =>
      let q := millionths m e in
      minus s ++ dec_text (q / millionth) ++ [46] ++ low_digits 6 (q mod millionth)
  end.

(** ** Powers of two *)

Lemma up_pos e : 0 < pow_up e.
Proof. unfold pow_up. apply Z.pow_pos_nonneg; lia. Qed.
(** [2^e] on the denominator [2^K]. *)
Lemma up_split e K : 0 <= K -> 0 <= e + K -> pow_up e * 2 ^ K = pow_up (- e) * 2 ^ (e + K).
Proof.
  intros HK He. unfold pow_up. destruct (Z.le_ge_cases 0 e).
  - rewrite (Z.max_l e 0), (Z.max_r (- e) 0) by lia. rewrite Z.pow_0_r, Z.mul_1_l. symmetry. apply Z.pow_add_r; lia.
  - rewrite (Z.max_r e 0), (Z.max_l (- e) 0) by lia. rewrite Z.pow_0_r, Z.mul_1_l, <-Z.pow_add_r by lia. f_equal. lia.
Qed.
Lemma le_up num den k K : 0 <= K -> 0 <= k + K ->
  den * pow_up k <= num * pow_up (- k) <-> den * 2 ^ (k + K) <= num * 2 ^ K.
Proof.
  intros HK Hk. pose proof (up_split k K HK Hk) as E. pose proof (up_pos (- k)). pose proof (up_pos k).
  assert (0 < 2 ^ K) by (apply Z.pow_pos_nonneg; lia).
  rewrite (Z.mul_le_mono_pos_r (den * pow_up k) (num * pow_up (- k)) (2 ^ K)) by done.
  rewrite (Z.mul_le_mono_pos_r (den * 2 ^ (k + K)) (num * 2 ^ K) (pow_up (- k))) by done.
  replace (den * pow_up k * 2 ^ K) with (den * (pow_up k * 2 ^ K)) by ring. rewrite E.
  replace (den * (pow_up (- k) * 2 ^ (k + K))) with (den * 2 ^ (k + K) * pow_up (- k)) by ring.
  by replace (num * pow_up (- k) * 2 ^ K) with (num * 2 ^ K * pow_up (- k)) by ring.
Qed.
Lemma le_up_mono num den j k : 0 < den -> j <= k -> den * pow_up k <= num * pow_up (- k) -> den * pow_up j <= num * pow_up (- j).
Proof.
  intros Hd Hjk. set (K := Z.max 0 (- j)). rewrite (le_up _ _ k K), (le_up _ _ j K) by lia.
  intros H. etransitivity; [|exact H]. apply Z.mul_le_mono_nonneg_l; [lia|]. apply Z.pow_le_mono_r; lia.
Qed.

Lemma flog2_spec num den : 0 < num -> 0 < den ->
  let k := flog2 num den in den * pow_up k <= num * pow_up (- k) /\ ~ den * pow_up (k + 1) <= num * pow_up (- (k + 1)).
Proof.
  intros Hn Hd. unfold flog2. set (k := Z.log2 num - Z.log2 den).
  pose proof (Z.log2_spec num Hn) as [Hn1 Hn2]. pose proof (Z.log2_spec den Hd) as [Hd1 Hd2].
  set (K := Z.max 1 (1 - k)). assert (0 < 2 ^ K) by (apply Z.pow_pos_nonneg; lia).
  pose proof (Z.log2_nonneg num). pose proof (Z.log2_nonneg den).
  assert (~ den * pow_up (k + 1) <= num * pow_up (- (k + 1))) as Hhi.
  { rewrite (le_up _ _ (k + 1) K) by lia. apply Z.lt_nge.
    apply Z.lt_le_trans with (2 ^ Z.succ (Z.log2 num) * 2 ^ K); [nia|].
    replace (2 ^ Z.succ (Z.log2 num) * 2 ^ K) with (2 ^ Z.log2 den * 2 ^ (k + 1 + K)).
    - apply Z.mul_le_mono_nonneg_r; [apply Z.pow_nonneg; lia|done].
    - rewrite <-!Z.pow_add_r by lia. f_equal. lia. }
  destruct (Z.leb_spec (den * pow_up k) (num * pow_up (- k))) as [Hle|Hgt]; [done|]. split.
  - rewrite (le_up _ _ (k - 1) K) by lia. apply Z.lt_le_incl.
    apply Z.lt_le_trans with (2 ^ Z.succ (Z.log2 den) * 2 ^ (k - 1 + K)).
    + apply Z.mul_lt_mono_pos_r; [apply Z.pow_pos_nonneg; lia|done].
    + rewrite <-Z.pow_add_r by lia. replace (Z.succ (Z.log2 den) + (k - 1 + K)) with (Z.log2 num + K) by lia.
      rewrite Z.pow_add_r by lia. apply Z.mul_le_mono_nonneg_r; lia.
  - replace (k - 1 + 1) with k by lia. lia.
Qed.
Lemma flog2_unique num den k : 0 < num -> 0 < den ->
  den * pow_up k <= num * pow_up (- k) -> ~ den * pow_up (k + 1) <= num * pow_up (- (k + 1)) -> flog2 num den = k.
Proof.
  intros Hn Hd H1 H2. destruct (flog2_spec num den Hn Hd) as [H3 H4].
  destruct (Z.lt_trichotomy (flog2 num den) k) as [Hlt|[He|Hgt]]; [|done|]; exfalso.
  - apply H4. eapply le_up_mono; [done| |exact H1]. lia.
  - apply H2. eapply le_up_mono; [done| |exact H3]. lia.
Qed.

(** ** Rounding *)

Lemma rdiv_near a b : 0 < b -> 2 * Z.abs (a - rdiv a b * b) <= b.
Proof.
  intros Hb. unfold rdiv. pose proof (Z.div_mod a b ltac:(lia)). pose proof (Z.mod_pos_bound a b Hb).
  destruct (Z.compare_spec (2 * (a mod b)) b); [destruct (Z.even (a / b))| |]; nia.
Qed.
(** No integer is nearer. *)
Lemma rdiv_nearest a b q : 0 < b -> Z.abs (a - rdiv a b * b) <= Z.abs (a - q * b).
Proof.
  intros Hb. pose proof (rdiv_near a b Hb). destruct (Z.eq_dec q (rdiv a b)) as [->|Hq]; [lia|]. 
  assert (b <= Z.abs ((rdiv a b - q) * b)) by (rewrite Z.abs_mul; nia).
  replace ((rdiv a b - q) * b) with ((a - q * b) - (a - rdiv a b * b)) in * by ring. lia.
Qed.
Lemma rdiv_exact m b : 0 < b -> rdiv (m * b) b = m.
Proof. intros Hb. unfold rdiv. rewrite Z.div_mul, Z.mod_mul by lia. destruct (Z.compare_spec (2 * 0) b); lia. Qed.
Lemma rdiv_mono a b q : 0 < b -> q * b <= a -> q <= rdiv a b.
Proof.
  intros Hb Hq. unfold rdiv. pose proof (Z.div_le_lower_bound a b q Hb ltac:(lia)).
  destruct (2 * (a mod b) ?= b); [destruct (Z.even (a / b))| |]; lia.
Qed.
Lemma rdiv_le a b q : 0 < b -> a <= q * b -> rdiv a b <= q.
Proof.
  intros Hb Hq. destruct (Z.le_gt_cases (rdiv a b) q) as [|Hgt]; [done|].
  pose proof (rdiv_nearest a b q Hb). pose proof (rdiv_near a b Hb). nia.
Qed.

(** [num / den] is the number [m * 2^e]. *)
Definition is_value (num den m e : Z) : Prop := num * pow_up (- e) = m * (den * pow_up e).
Lemma is_value_at num den m e K : is_value num den m e -> 0 <= K -> 0 <= e + K -> num * 2 ^ K = m * den * 2 ^ (e + K).
Proof.
  intros Hv HK He. pose proof (up_split e K HK He) as E. pose proof (up_pos (- e)). unfold is_value in Hv.
  apply (Z.mul_reg_r _ _ (pow_up (- e))); [lia|].
  replace (num * 2 ^ K * pow_up (- e)) with (num * pow_up (- e) * 2 ^ K) by ring. rewrite Hv.
  replace (m * (den * pow_up e) * 2 ^ K) with (m * den * (pow_up e * 2 ^ K)) by ring. rewrite E. ring.
Qed.
Lemma is_value_shift num den m e k : 0 <= k -> is_value num den m e -> is_value num den (m * 2 ^ k) (e - k).
Proof.
  intros Hk Hv. set (K := Z.max 0 (k - e)). pose proof (is_value_at _ _ _ _ K Hv ltac:(lia) ltac:(lia)) as H.
  pose proof (up_split (e - k) K ltac:(lia) ltac:(lia)) as E. unfold is_value.
  assert (0 < 2 ^ K) by (apply Z.pow_pos_nonneg; lia). apply (Z.mul_reg_r _ _ (2 ^ K)); [lia|].
  replace (m * 2 ^ k * (den * pow_up (e - k)) * 2 ^ K) with (m * 2 ^ k * den * (pow_up (e - k) * 2 ^ K)) by ring. rewrite E.
  replace (num * pow_up (- (e - k)) * 2 ^ K) with (num * 2 ^ K * pow_up (- (e - k))) by ring. rewrite H.
  replace (e + K) with (k + (e - k + K)) by lia. rewrite Z.pow_add_r by lia. ring.
Qed.
Lemma ratio_value m e : is_value (m * pow_up e) (pow_up (- e)) m e.
Proof. unfold is_value. ring. Qed.

Lemma flog2_value num den m e : 0 < num -> 0 < den -> 0 < m -> is_value num den m e -> flog2 num den = Z.log2 m + e.
Proof.
  intros Hn Hd Hm Hv. pose proof (Z.log2_spec m Hm) as [H1 H2]. pose proof (Z.log2_nonneg m).
  set (K := Z.max 0 (- e)). pose proof (is_value_at _ _ _ _ K Hv ltac:(lia) ltac:(lia)) as E.
  assert (0 < 2 ^ (e + K)) by (apply Z.pow_pos_nonneg; lia).
  apply flog2_unique; [done|done| |].
  - rewrite (le_up _ _ _ K) by lia. rewrite E, <-Z.add_assoc, Z.pow_add_r by lia. 
    assert (den * 2 ^ Z.log2 m <= m * den) by nia. nia.
  - rewrite (le_up _ _ _ K) by lia. rewrite E. replace (Z.log2 m + e + 1 + K) with (Z.succ (Z.log2 m) + (e + K)) by lia.
    rewrite Z.pow_add_r by lia. assert (m * den < den * 2 ^ Z.succ (Z.log2 m)) by nia. nia.
Qed.

(** A number of the format is rounded to itself. *)
Lemma round_exact f s num den m e : 1 <= prec f -> 0 < num -> 0 < den ->
  valid f (Ffin s m e) -> is_value num den m e -> round f s num den = Ffin s m e.
Proof.
  intros Hp Hn Hd (Hm & He & Hc) Hv. unfold round. rewrite (flog2_value num den m e) by (done || lia).
  replace (Z.max (Z.log2 m + e - prec f + 1) (emin f)) with e.
  2:{ assert (Z.log2 m < prec f) by (apply Z.log2_lt_pow2; lia). destruct Hc as [->|Hc]; [lia|].
      apply Z.log2_le_mono in Hc. rewrite Z.log2_pow2 in Hc by lia. lia. }
  rewrite Hv. pose proof (up_pos e). rewrite rdiv_exact by nia.
  rewrite (proj2 (Z.eqb_neq m 0)), (proj2 (Z.eqb_neq m _)) by lia. by rewrite (proj2 (Z.ltb_ge _ e)) by lia.
Qed.

(** A number of the format on the denominator [2^K]. *)
Definition magnitude (K : Z) (x : float) : Z := match x with Ffin _ m e => m * 2 ^ (e + K) | _ => 0 end.
Definition finite (x : float) : bool := match x with Ffin _ _ _ | Fzero _ => true | _ => false end.

Section nearest.
Context (f : format) (num den K : Z).
Context (Hp : 1 <= prec f) (Hn : 0 < num) (Hd : 0 < den) (HK : 0 <= K) (HK2 : 0 <= emin f + K).
#[local] Abbreviation e0 := (Z.max (flog2 num den - prec f + 1) (emin f)).
#[local] Abbreviation q0 := (rdiv (num * pow_up (- e0)) (den * pow_up e0)).

Lemma nearest_multiple z :
  Z.abs (num * 2 ^ K - den * (q0 * 2 ^ (e0 + K))) <= Z.abs (num * 2 ^ K - den * (z * 2 ^ (e0 + K))).
Proof using Hn Hd HK HK2.
  pose proof (up_split e0 K HK ltac:(lia)) as E. pose proof (up_pos (- e0)). pose proof (up_pos e0).
  assert (0 < 2 ^ K) by (apply Z.pow_pos_nonneg; lia).
  assert (forall z, pow_up (- e0) * (num * 2 ^ K - den * (z * 2 ^ (e0 + K))) = (num * pow_up (- e0) - z * (den * pow_up e0)) * 2 ^ K) as Hz.
  { intros y. replace ((num * pow_up (- e0) - y * (den * pow_up e0)) * 2 ^ K)
      with (num * pow_up (- e0) * 2 ^ K - y * den * (pow_up e0 * 2 ^ K)) by ring. rewrite E. ring. }
  apply (Z.mul_le_mono_pos_l _ _ (pow_up (- e0))); [lia|].
  pose proof (rdiv_nearest (num * pow_up (- e0)) (den * pow_up e0) z ltac:(nia)) as Hq. revert Hq.
  generalize q0. intros q Hq. pose proof (Hz q) as H2. pose proof (Hz z) as H3. nia.
Qed.
Lemma nearest_small y : e0 <> emin f -> 0 <= y < 2 ^ (prec f - 1) * 2 ^ (e0 + K) ->
  Z.abs (num * 2 ^ K - den * (2 ^ (prec f - 1) * 2 ^ (e0 + K))) <= Z.abs (num * 2 ^ K - den * y).
Proof using Hp Hn Hd HK HK2.
  intros He Hy. destruct (flog2_spec num den Hn Hd) as [Hlow _].
  rewrite (le_up _ _ _ K) in Hlow by lia. rewrite <-Z.pow_add_r in Hy |- * by lia.
  replace (prec f - 1 + (e0 + K)) with (flog2 num den + K) in * by lia. nia.
Qed.
(** The result of [round] is as near to [num / den] as any number of the format. *)
Lemma round_nearest s y : finite (round f s num den) = true -> valid f y -> finite y = true ->
  Z.abs (num * 2 ^ K - den * magnitude K (round f s num den)) <= Z.abs (num * 2 ^ K - den * magnitude K y).
Proof using Hp Hn Hd HK HK2.
  intros Hf Hv Hy.
  assert (magnitude K (round f s num den) = q0 * 2 ^ (e0 + K)) as ->.
  { revert Hf. unfold round. destruct (Z.eqb_spec q0 0) as [->|Hq]; [done|].
    destruct (Z.eqb_spec q0 (2 ^ prec f)) as [->|]; destruct (emax f - prec f <? _); try done; intros _; simpl.
    rewrite <-!Z.pow_add_r by lia. f_equal. lia. }
  destruct y as [t| | |t m e]; try done; [exact (nearest_multiple 0)|]. destruct Hv as (Hm & He & _). simpl.
  destruct (Z.le_gt_cases e0 e) as [Hle|Hgt].
  - replace (m * 2 ^ (e + K)) with (m * 2 ^ (e - e0) * 2 ^ (e0 + K)); [apply nearest_multiple|].
    rewrite <-Z.mul_assoc, <-Z.pow_add_r by lia. do 2 f_equal. lia.
  - etransitivity; [apply (nearest_multiple (2 ^ (prec f - 1)))|]. apply nearest_small; [lia|].
    rewrite <-Z.pow_add_r by lia. assert (0 < 2 ^ (e + K)) by (apply Z.pow_pos_nonneg; lia). split; [nia|].
    apply Z.lt_le_trans with (2 ^ prec f * 2 ^ (e + K)); [nia|]. rewrite <-Z.pow_add_r by lia. apply Z.pow_le_mono_r; lia.
Qed.
End nearest.

(** ** The text of a number *)

Definition is_digit (c : Z) : Prop := 48 <= c <= 57.
Lemma low_digits_range k : forall n, Forall is_digit (low_digits k n).
Proof.
  induction k as [|k IH]; intros n; simpl; [done|]. apply Forall_app. split; [apply IH|].
  repeat constructor; unfold is_digit; lia_mod.
Qed.
Lemma length_low_digits k : forall n, length (low_digits k n) = k.
Proof. induction k as [|k IH]; intros n; simpl; [done|]. rewrite length_app, IH. simpl. lia. Qed.
Lemma dec_step_shift l : forall v, foldl dec_step v l = v * 10 ^ Z.of_nat (length l) + foldl dec_step 0 l.
Proof.
  induction l as [|c l IH]; intros v; cbn [foldl length]; [rewrite Z.mul_1_r; lia|].
  rewrite IH, (IH (dec_step 0 c)), Nat2Z.inj_succ, Z.pow_succ_r by lia. unfold dec_step. ring.
Qed.
Lemma low_digits_value k : forall n, 0 <= n < 10 ^ Z.of_nat k -> dec_value (low_digits k n) = n.
Proof.
  induction k as [|k IH]; intros n Hn; simpl.
  - simpl in Hn. change (dec_value []) with 0. lia.
  - unfold dec_value. rewrite foldl_app. fold (dec_value (low_digits k (n / 10))).
    rewrite IH; [unfold dec_step; simpl; lia_mod|]. rewrite Nat2Z.inj_succ, Z.pow_succ_r in Hn by lia. lia_mod.
Qed.
Lemma dec_text_decimal n : 0 <= n < 10 ^ 50 -> decimal (dec_text n) n.
Proof.
  intros Hn. unfold dec_text. destruct (Z.eqb_spec n 0) as [->|].
  - split_and!; try done. repeat constructor; lia.
  - apply dec_digits_decimal. change (Z.of_nat 50) with 50. lia.
Qed.
Lemma short_digits j : forall k n, 0 <= n < 10 ^ Z.of_nat j -> zlen (dec_digits k n) <= Z.of_nat j.
Proof.
  induction j as [|j IH]; intros k n Hn.
  - replace n with 0 by (simpl in Hn; lia). destruct k; done.
  - destruct k as [|k]; [done|]. cbn [dec_digits]. destruct (n =? 0); [rewrite zlen_nil; lia|].
    rewrite zlen_app, zlen_cons, zlen_nil. rewrite Nat2Z.inj_succ, Z.pow_succ_r in Hn by lia.
    specialize (IH k (n / 10) ltac:(lia_mod)). lia.
Qed.

(** A float has less than [10^39 + 1] units. *)
Lemma millionths_range s m e : valid binary32 (Ffin s m e) -> 0 <= millionths m e / millionth < 10 ^ 39.
Proof.
  intros (Hm & He & _). unfold millionths, ratio. cbn [prec emax binary32 emin] in *.
  pose proof (up_pos (- e)) as Hd. pose proof (up_pos e).
  assert (0 <= rdiv (m * pow_up e * millionth) (pow_up (- e)) <= 2 ^ 128 * millionth) as Hr.
  { split; [apply rdiv_mono; [done|]; unfold millionth; nia|]. apply rdiv_le; [done|].
    assert (m * pow_up e <= 2 ^ 128 * pow_up (- e)); [|unfold millionth; nia].
    assert (pow_up e <= 2 ^ 104) by (unfold pow_up; apply Z.pow_le_mono_r; unfold emin in *; simpl in *; lia). nia. }
  split; [apply Z.div_pos; unfold millionth in *; lia|]. apply Z.div_lt_upper_bound; [done|]. 
  apply Z.le_lt_trans with (1 := proj2 Hr). reflexivity.
Qed.
Lemma minus_len s : zlen (minus s) <= 1.
Proof. by destruct s. Qed.
(** [sprintf] with %f stays inside the buffer of 256 characters. *)
Lemma fmt_f_len x : valid binary32 x -> 0 < zlen (fmt_f x) <= 47.
Proof.
  assert (forall n r, 0 <= n < 10 ^ 39 -> zlen r = 6 -> forall s, 0 < zlen (minus s ++ dec_text n ++ [46] ++ r) <= 47) as Hgen.
  { intros n r Hn Hr s. rewrite !zlen_app, Hr. change (zlen [46]) with 1. pose proof (minus_len s). pose proof (zlen_nonneg (minus s)).
    assert (zlen (dec_text n) <= 39); [|pose proof (zlen_nonneg (dec_text n)); lia].
    unfold dec_text. destruct (n =? 0); [done|]. apply (short_digits 39 50). exact Hn. }
  destruct x as [s|s|s|s m e]; intros Hv; cbn [fmt_f].
  - apply Hgen; [lia|]. unfold zlen. by rewrite length_low_digits.
  - rewrite zlen_app. by destruct s.
  - rewrite zlen_app. by destruct s.
  - apply Hgen; [by eapply millionths_range|]. unfold zlen. by rewrite length_low_digits.
Qed.
Lemma fmt_f_chars x : valid binary32 x -> Forall (fun c => 32 < c < 128) (fmt_f x).
Proof.
  intros Hv.
  assert (forall l, Forall is_digit l -> Forall (fun c => 32 < c < 128) l) as Hd.
  { intros l. apply Forall_impl. unfold is_digit. lia. }
  assert (forall n, 0 <= n -> Forall (fun c => 32 < c < 128) (dec_text n)) as Ht.
  { intros n Hn. unfold dec_text. destruct (n =? 0); [repeat constructor; lia|]. apply Hd, dec_digits_range, Hn. }
  assert (forall s, Forall (fun c => 32 < c < 128) (minus s)) as Hs by (intros []; repeat constructor; lia).
  assert (forall c, 32 < c < 128 -> Forall (fun c => 32 < c < 128) [c]) as H1 by (intros; by apply Forall_singleton).
  destruct x as [s|s|s|s m e]; cbn [fmt_f].
  - rewrite !Forall_app. split_and!; [apply Hs|apply Ht|apply H1|apply Hd, low_digits_range]; lia.
  - rewrite Forall_app. split; [apply Hs|]. repeat constructor; lia.
  - rewrite Forall_app. split; [apply Hs|]. repeat constructor; lia.
  - rewrite !Forall_app. split_and!; [apply Hs|apply Ht|apply H1; lia|apply Hd, low_digits_range]. eapply millionths_range, Hv.
Qed.

(** ** Reading a number back *)

Lemma digit_in_10 c : is_digit c -> digit_in 10 c = Some (c - 48).
Proof. intros []. unfold digit_in. by rewrite (proj2 (Z.leb_le 48 c)), (proj2 (Z.leb_le c 57)) by lia. Qed.
Lemma read_digits_app ds : forall v n r, Forall is_digit ds ->
  read_digits 10 v n (ds ++ r) = read_digits 10 (foldl dec_step v ds) (n + zlen ds) r.
Proof.
  induction ds as [|c ds IH]; intros v n r Hds; [by rewrite Z.add_0_r|]. apply list.Forall_cons in Hds as [Hc Hds].
  cbn [app read_digits]. rewrite digit_in_10, IH, zlen_cons by done. cbn [foldl]. f_equal. lia.
Qed.
(** Digits, a point, digits. *)
Lemma read_mantissa_text ip fp : ip <> [] -> Forall is_digit ip -> Forall is_digit fp ->
  read_mantissa 10 (ip ++ [46] ++ fp) = Some (dec_value ip * 10 ^ zlen fp + dec_value fp, zlen fp, []).
Proof.
  intros Hne Hi Hf. unfold read_mantissa. rewrite read_digits_app by done. cbn [app read_digits]. change (digit_in 10 46) with (@None Z).
  cbn iota. rewrite <-(app_nil_r fp) at 1. rewrite read_digits_app by done. cbn [read_digits]. rewrite !Z.add_0_l.
  assert (0 < zlen ip) by (destruct ip; [done|]; rewrite zlen_cons; pose proof (zlen_nonneg ip); lia). pose proof (zlen_nonneg fp).
  rewrite (proj2 (Z.eqb_neq _ 0)) by lia. rewrite dec_step_shift. done.
Qed.
(** A word with a letter does not start a text of digits and points. *)
Lemma starts_digits word l : Exists (fun c => 58 <= c) word -> Forall (fun c => 46 <= c <= 57) l -> starts word l = false.
Proof.
  intros Hw Hl. unfold starts. apply bool_decide_eq_false_2. intros E. rewrite <-E in Hw.
  assert (Forall (fun c => 46 <= c <= 57) (take (length word) (tolower <$> l))) as Hf.
  { apply Forall_take, Forall_fmap. eapply list.Forall_impl; [exact Hl|]. intros x Hx. cbn in Hx |- *. unfold tolower.
    rewrite (proj2 (Z.leb_gt 65 x)) by lia. done. }
  rewrite list.Forall_forall in Hf. apply list.Exists_exists in Hw as (c & Hc & H58). specialize (Hf c Hc). lia.
Qed.
Lemma atof_text s ip fp : ip <> [] -> Forall is_digit ip -> Forall is_digit fp ->
  atof (minus s ++ ip ++ [46] ++ fp) = to_double s (dec_value ip * 10 ^ zlen fp + dec_value fp) 10 (- zlen fp).
Proof.
  intros Hne Hi Hf. set (l := ip ++ [46] ++ fp).
  assert (Forall (fun c => 46 <= c <= 57) l) as Hl.
  { repeat (apply Forall_app; split); [| |]; try (eapply list.Forall_impl; [eassumption|]; unfold is_digit; lia). repeat constructor; lia. }
  unfold atof. assert (read_sign (skip_space (minus s ++ l)) = (s, l)) as ->.
  { destruct s; [done|]. unfold l in *. destruct ip as [|c ip]; [done|]. apply list.Forall_cons in Hi as [Hc _]. unfold is_digit in Hc.
    cbn [minus app skip_space]. unfold isspace. rewrite (proj2 (Z.eqb_neq c 32)), (proj2 (Z.leb_gt c 13)), andb_false_r by lia.
    cbn [orb]. unfold read_sign. by rewrite (proj2 (Z.eqb_neq c 45)), (proj2 (Z.eqb_neq c 43)) by lia. }
  rewrite !starts_digits; [|try done; repeat (constructor; lia)..].
  2:{ right. left. lia. }
  unfold strtod_dec, l. rewrite read_mantissa_text by done. done.
Qed.

(** The numbers that six digits after the point can write: the multiples of
    1/64. *)
Definition six_digits (x : float) : Prop :=
  match x with Ffin _ m e => (64 * (m * pow_up e)) mod pow_up (- e) = 0 | _ => True end.
(** A float is a double. *)
Lemma promote_valid s m e : valid binary32 (Ffin s m e) ->
  let k := 52 - Z.log2 m in 0 <= k /\ valid binary64 (Ffin s (m * 2 ^ k) (e - k)).
Proof.
  intros (Hm & He & _) k. unfold emin in He. simpl in Hm, He. pose proof (Z.log2_spec m ltac:(lia)) as [H1 H2].
  assert (Z.log2 m < 24) by (apply Z.log2_lt_pow2; lia). pose proof (Z.log2_nonneg m).
  assert (0 < 2 ^ k) by (apply Z.pow_pos_nonneg; lia). split; [lia|].
  assert (2 ^ 52 <= m * 2 ^ k).
  { replace 52 with (Z.log2 m + k) by lia. rewrite Z.pow_add_r by lia. nia. }
  assert (m * 2 ^ k < 2 ^ 53).
  { replace 53 with (Z.succ (Z.log2 m) + k) by lia. rewrite Z.pow_add_r by lia. nia. }
  split; [simpl prec; lia|]. unfold emin. simpl prec. simpl emax. split; [lia|]. right. done.
Qed.
Lemma millionths_exact m e : (64 * (m * pow_up e)) mod pow_up (- e) = 0 -> is_value (millionths m e) millionth m e.
Proof.
  pose proof (up_pos (- e)) as Hd. intros Hz. apply Z.mod_divide in Hz as [z Hz]; [|lia].
  unfold millionths, ratio. replace (m * pow_up e * millionth) with (z * 15625 * pow_up (- e)) by (unfold millionth; lia).
  rewrite rdiv_exact by done. unfold is_value, millionth. lia.
Qed.
Lemma atof_fmt_f x : valid binary32 x -> six_digits x -> float_of_double (atof (fmt_f x)) = x.
Proof.
  destruct x as [s|s|s|s m e]; intros Hv H6.
  - by destruct s.
  - by destruct s.
  - by destruct s.
  - cbn [fmt_f]. set (q := millionths m e). assert (0 < millionth) as Hmm by done.
    pose proof (millionths_range s m e Hv) as Hq. fold q in Hq.
    destruct (dec_text_decimal (q / millionth)) as (Hne & Hdig & Hval & _); [split; [lia|]; eapply Z.lt_trans; [apply Hq|done]|].
    rewrite atof_text; [|done|exact Hdig|apply low_digits_range].
    unfold zlen at 1 2. rewrite length_low_digits, Hval, low_digits_value by (apply Z.mod_pos_bound; done).
    change (10 ^ Z.of_nat 6) with millionth. replace (q / millionth * millionth + q mod millionth) with q
      by (pose proof (Z.div_mod q millionth ltac:(done)); lia).
    pose proof (millionths_exact m e H6) as Hv64. fold q in Hv64. destruct (promote_valid s m e Hv) as [Hk Hv'].
    destruct Hv as (Hm & He & Hc). pose proof (up_pos e). pose proof (up_pos (- e)).
    assert (0 < q) as Hq0. { unfold is_value in Hv64. assert (0 < m * (millionth * pow_up e)) by nia. nia. }
    unfold to_double. rewrite (proj2 (Z.eqb_neq q 0)) by lia. change (Z.max (- Z.of_nat 6) 0) with 0.
    change (10 ^ Z.max (- - Z.of_nat 6) 0) with millionth. rewrite Z.pow_0_r, Z.mul_1_r.
    rewrite (round_exact binary64 s q millionth _ _ ltac:(done) Hq0 Hmm Hv') by (by apply is_value_shift).
    cbn [float_of_double ratio]. set (k := 52 - Z.log2 m) in *. pose proof (up_pos (e - k)). pose proof (up_pos (- (e - k))).
    assert (0 < 2 ^ k) by (apply Z.pow_pos_nonneg; lia). apply round_exact; try done.
    + apply Z.mul_pos_pos; [apply Z.mul_pos_pos; lia|done].
    + pose proof (is_value_shift _ _ _ _ k Hk (ratio_value m e)) as Hs. unfold is_value in Hs |- *.
      (* both fractions are the number *) nia.
Qed.

(** ** The order of numbers *)

Definition is_nan (x : float) : bool := match x with Fnan _ => true | _ => false end.
(** The infinities below and above the numbers. *)
Definition rank (x : float) : Z := match x with Finf s => signed s 1 | _ => 0 end.
Lemma scaled_shift E e0 x : E <= e0 <= exponent x -> scaled E x = scaled e0 x * 2 ^ (e0 - E).
Proof.
  intros [H1 H2]. destruct x as [s|s|s|s m e]; try done. simpl in *. rewrite <-Z.mul_assoc, <-Z.pow_add_r by lia. do 2 f_equal. lia.
Qed.
Lemma mul_compare a b p : 0 < p -> (a * p ?= b * p) = (a ?= b).
Proof. intros Hp. destruct (Z.compare_spec a b), (Z.compare_spec (a * p) (b * p)); try done; nia. Qed.
(** On a common denominator [2^-E] the comparison is the one of integers. *)
Lemma fcompare_at E x y : is_nan x = false -> is_nan y = false -> E <= exponent x -> E <= exponent y ->
  fcompare x y = Some (match rank x ?= rank y with Eq => scaled E x ?= scaled E y | c => c end).
Proof.
  intros Hx Hy H1 H2. set (e0 := Z.min (exponent x) (exponent y)).
  assert ((scaled E x ?= scaled E y) = (scaled e0 x ?= scaled e0 y)) as Hs.
  { rewrite (scaled_shift E e0 x), (scaled_shift E e0 y) by lia. apply mul_compare, Z.pow_pos_nonneg; lia. }
  destruct x as [s|s|s|s m e], y as [t|t|t|t n d]; try done; try (by destruct s); try (by destruct t);
    try (by destruct s, t); cbn [rank]; rewrite Z.compare_refl, Hs; done.
Qed.

(** What [SC_CompareFloat] answers. *)
Definition compare_answer (x y : float) : Z :=
  match fcompare x y with Some Gt => 1 | Some Eq => 0 | _ => -1 end.
Lemma compare_answer_le E x y : is_nan x = false -> is_nan y = false -> E <= exponent x -> E <= exponent y ->
  compare_answer x y <= 0 <-> rank x < rank y \/ (rank x = rank y /\ scaled E x <= scaled E y).
Proof.
  intros Hx Hy H1 H2. unfold compare_answer. rewrite (fcompare_at E) by done.
  destruct (Z.compare_spec (rank x) (rank y)); [destruct (Z.compare_spec (scaled E x) (scaled E y))| |]; lia.
Qed.
Lemma compare_total x y : is_nan x = false -> is_nan y = false -> compare_answer x y <= 0 \/ compare_answer y x <= 0.
Proof.
  intros Hx Hy. set (E := Z.min (exponent x) (exponent y)). rewrite !(compare_answer_le E) by (done || lia). lia.
Qed.
Lemma compare_trans x y z : is_nan x = false -> is_nan y = false -> is_nan z = false ->
  compare_answer x y <= 0 -> compare_answer y z <= 0 -> compare_answer x z <= 0.
Proof.
  intros Hx Hy Hz. set (E := Z.min (exponent x) (Z.min (exponent y) (exponent z))).
  rewrite !(compare_answer_le E) by (done || lia). lia.
Qed.
(** The answer is 0 for the same number only (and for the two zeros). *)
Lemma compare_zero x y : valid binary32 x -> valid binary32 y -> compare_answer x y = 0 ->
  x = y \/ (exists s t, x = Fzero s /\ y = Fzero t).
Proof.
  intros Hx Hy H. assert (is_nan x = false /\ is_nan y = false) as [Hnx Hny].
  { split; [by destruct x|]. by destruct x, y. }
  set (E := Z.min (exponent x) (exponent y)). unfold compare_answer in H. rewrite (fcompare_at E) in H by (done || lia).
  destruct (Z.compare_spec (rank x) (rank y)) as [Hr| |]; try done.
  destruct (Z.compare_spec (scaled E x) (scaled E y)) as [Hs| |]; try done.
  destruct x as [s|s|s|s m e], y as [t|t|t|t n d]; try done.
  - right. eauto.
  - by destruct t.
  - exfalso. destruct Hy as (Hn & _). simpl in Hs. assert (0 < 2 ^ (d - E)) by (apply Z.pow_pos_nonneg; simpl in *; lia).
    unfold signed in Hs. destruct t; nia.
  - by destruct s.
  - left. by destruct s, t.
  - by destruct s.
  - exfalso. destruct Hx as (Hn & _). simpl in Hs. assert (0 < 2 ^ (e - E)) by (apply Z.pow_pos_nonneg; simpl in *; lia).
    unfold signed in Hs. destruct s; nia.
  - by destruct t.
  - left. destruct Hx as (Hm & He & Hc), Hy as (Hn & Hd & Hc'). simpl in Hs. subst E. cbn [exponent] in Hs.
    assert (m * 2 ^ (e - Z.min e d) = n * 2 ^ (d - Z.min e d) /\ s = t) as [Hmn ->].
    { assert (0 < 2 ^ (e - Z.min e d)) by (apply Z.pow_pos_nonneg; lia). assert (0 < 2 ^ (d - Z.min e d)) by (apply Z.pow_pos_nonneg; lia).
      unfold signed in Hs. destruct s, t; split; try done; nia. }
    clear Hs. simpl prec in *. 
    assert (e = d) as <-.
    { destruct (Z.lt_trichotomy e d) as [Hlt|[?|Hlt]]; [|done|]; exfalso.
      - rewrite Z.min_l, Z.sub_diag, Z.mul_1_r in Hmn by lia. assert (2 ^ 1 <= 2 ^ (d - e)) by (apply Z.pow_le_mono_r; lia).
        destruct Hc' as [->|Hc']; [lia|]. simpl in *. lia.
      - rewrite Z.min_r, Z.sub_diag, Z.mul_1_r in Hmn by lia. assert (2 ^ 1 <= 2 ^ (e - d)) by (apply Z.pow_le_mono_r; lia).
        destruct Hc as [->|Hc]; [lia|]. simpl in *. lia. }
    f_equal. rewrite Z.min_id, Z.sub_diag, !Z.mul_1_r in Hmn. done.
Qed.
