(* ===== verification/KernelInv.v ===== *)
(** * userprog/exception.cc: what the handler keeps

    Every system call, whatever the program puts in its registers and memory,
    leaves the machine well formed when it returns, and only puts words in
    registers.  The calls that switch threads and the calls that are not
    modelled enter by what they promise, [KeepsKernel]. *)

From S2P Require Import Prelude Interrupt Machine SynchCons StubFS Syscalls.
From stdpp Require Import gmap list.
#[local] Open Scope Z_scope.

Definition is_char (c : Z) : Prop := -128 <= c < 128.
(** The characters that are still to be read are [char]s. *)
Definition input_ok (d : SynchConsole) : Prop :=
  Forall is_char (keyboard (SynchCons.cons d)) /\ is_char (incoming (SynchCons.cons d)).
Definition kernel_ok {X} (s : sim (cpu (kern X))) : Prop :=
  machine_ok (mach (world s)) /\ input_ok (console (os (world s))).

(** [keeps Q c]: when [c] returns, the kernel is still well formed and the
    value is in [Q]. *)
Definition keeps {X A} (Q : A -> Prop) (c : st (sim (cpu (kern X))) A) : Prop :=
  forall s, kernel_ok s -> match c s with Ok (a, t) => kernel_ok t /\ Q a | _ => True end.

(** The promise of the calls behind the interface. *)
Class KeepsKernel (X : Type) `{!ProcessCalls X} : Prop := {
  kk_Exec name : keeps is_int (ExecUpdate name);
  kk_IsExist pid : keeps (fun _ => True) (IsExist pid);
  kk_Join pid : keeps is_int (JoinUpdate pid);
  kk_Exit ec : keeps is_int (ExitUpdate ec);
  kk_Create name v : keeps is_int (sem_Create name v);
  kk_Wait name : keeps is_int (sem_Wait name);
  kk_Signal name : keeps is_int (sem_Signal name);
  kk_Yield : keeps (fun _ => True) thread_Yield;
  kk_Sleep : keeps (fun _ => True) thread_Sleep
}.

Section rules.
Context {X : Type} `{!ProcessCalls X}.
#[local] Abbreviation S := (sim (cpu (kern X))).
Implicit Types (s : S).

Lemma keeps_ret {A} (Q : A -> Prop) a : Q a -> keeps Q (mret a : st S A).
Proof. intros H s Hs. by split. Qed.
Lemma keeps_bind {A B} (R : A -> Prop) (Q : B -> Prop) (c : st S A) (f : A -> st S B) :
  keeps R c -> (forall a, R a -> keeps Q (f a)) -> keeps Q (c ≫= f).
Proof.
  intros Hc Hf s Hs. specialize (Hc s Hs). unfold mbind, st_bind.
  destruct (c s) as [[a t]| | | |]; try done. destruct Hc as [Ht Ha]. by apply Hf.
Qed.
Lemma keeps_weaken {A} (R Q : A -> Prop) (c : st S A) : keeps R c -> (forall a, R a -> Q a) -> keeps Q c.
Proof. intros Hc HQ s Hs. specialize (Hc s Hs). destruct (c s) as [[]| | | |]; try done. naive_solver. Qed.
Lemma keeps_lift {A} (Q : A -> Prop) (r : res A) : (forall a, r = Ok a -> Q a) -> keeps Q (lift r : st S A).
Proof. intros H s Hs. unfold lift. destruct r; simpl; try done. split; [done|by apply H]. Qed.
Lemma keeps_Halt (Q : unit -> Prop) : keeps Q (Halt : st S unit).
Proof. done. Qed.
Lemma keeps_rreg num : keeps is_int (rreg num : st S Z).
Proof.
  intros s Hs. unfold rreg, get_m, mbind, st_bind, lift, ReadRegister.
  destruct ((0 <=? num) && (num <? NumTotalRegs)); [|done].
  destruct (rd (registers (mach (world s))) num) as [v| | | |] eqn:E; try done. simpl. split; [done|].
  apply rd_Ok in E. destruct Hs as [[[_ Hi _] _ _ _ _] _]. exact (Forall_zget _ _ _ _ Hi E).
Qed.
(** The registers that the handler sets: not 0 and not [LoadReg]. *)
Lemma keeps_setreg num v : 0 < num < NumTotalRegs -> num <> LoadReg -> is_int v ->
  keeps (fun _ => True) (setreg num v : st S unit).
Proof.
  intros Hn Hl Hv s [Hm Hi]. rewrite setreg_ok by (try done; lia). split; [|done].
  split; [by apply machine_ok_reg; [|lia| |]|done].
Qed.
Lemma keeps_on_fs {A} (Q : A -> Prop) (c : st FileSystem A) :
  (forall f a f', c f = Ok (a, f') -> Q a) -> keeps Q (on_fs c : st S A).
Proof.
  intros H s Hs. unfold on_fs. destruct (c (fsys (os (world s)))) as [[a f]| | | |] eqn:E; try done.
  split; [exact Hs|by eapply H].
Qed.
Lemma keeps_on_cons {A} (Q : A -> Prop) (c : st SynchConsole A) :
  (forall d a d', input_ok d -> c d = Ok (a, d') -> input_ok d' /\ Q a) -> keeps Q (on_cons c : st S A).
Proof.
  intros H s [Hm Hi]. unfold on_cons. destruct (c (console (os (world s)))) as [[a d]| | | |] eqn:E; try done.
  destruct (H _ _ _ Hi E). by split.
Qed.

(** ** Copies *)

Lemma keeps_ReadMem va : is_int va ->
  keeps (fun o => exists c, o = Some c /\ is_char c) (ReadMem fault_handler va 1 : st S (option Z)).
Proof.
  intros Hv s [Hm Hi]. destruct (uchar (mach (world s)) va) as [c|] eqn:Hu.
  - destruct (read_char_hit s va c Hm Hu) as (m' & -> & Ht). split; [split; [by eapply touched_machine_ok|done]|].
    exists c. split; [done|]. by eapply uchar_range.
  - by rewrite (read_char_fault s va Hm Hv Hu).
Qed.
Lemma keeps_WriteMem va c : is_int va ->
  keeps (fun _ => True) (WriteMem fault_handler va 1 c : st S bool).
Proof.
  intros Hv s [Hm Hi]. destruct (phys (mach (world s)) va 1 true) as [e|pa] eqn:Hp.
  - destruct (WriteMem_trap fault_handler s va 1 c e Hm size1 Hp) as (m' & Ht & ->).
    destruct (phys_fault _ _ _ _ Hm Hp). rewrite fault_halts; try done.
    pose proof (touched_machine_ok _ _ Ht Hm) as Hm'. apply Hm'.
  - destruct (write_char s va pa c Hm Hp) as (m' & -> & Hs & _). split; [|done]. split; [apply Hs|done].
Qed.
Lemma keeps_User2System va limit : keeps (fun _ => True) (User2System va limit : st S (list Z)).
Proof.
  unfold User2System. generalize (replicate (Z.to_nat (limit + 1)) 0) as buf. generalize 0 as i, (None : option Z) as oc.
  induction (Z.to_nat limit) as [|n IH]; intros i oc buf; cbn [u2s_loop]; [by apply keeps_ret|].
  eapply keeps_bind; [apply keeps_ReadMem, to_int_range|]. intros o (c & -> & Hc).
  eapply (keeps_bind (fun _ => True)); [by apply keeps_lift|]. intros c' _.
  eapply (keeps_bind (fun _ => True)); [by apply keeps_lift|]. intros b _.
  destruct (c' =? 0); [by apply keeps_ret|apply IH].
Qed.
Lemma keeps_System2User va len buffer : keeps (fun _ => True) (System2User va len buffer : st S Z).
Proof.
  unfold System2User. destruct (len <? 0); [by apply keeps_ret|]. destruct (len =? 0); [by apply keeps_ret|].
  generalize 0 as i. induction (Z.to_nat len) as [|n IH]; intros i; cbn [s2u_loop]; [by apply keeps_ret|].
  eapply (keeps_bind (fun _ => True)); [by apply keeps_lift|]. intros c _.
  eapply keeps_bind; [apply keeps_WriteMem, to_int_range|]. intros _ _.
  destruct (c =? 0); [by apply keeps_ret|apply IH].
Qed.
Lemma keeps_IncPCReg : keeps (fun _ => True) (IncPCReg : st S unit).
Proof.
  unfold IncPCReg. eapply keeps_bind; [apply keeps_rreg|]. intros pc Hpc.
  eapply keeps_bind; [by apply keeps_setreg|]. intros _ _.
  eapply keeps_bind; [apply keeps_rreg|]. intros npc Hn.
  eapply keeps_bind; [by apply keeps_setreg|]. intros _ _. apply keeps_setreg; try done. apply to_int_range.
Qed.

(** ** Files *)

Lemma keeps_list_put i o : keeps (fun _ => True) (on_fs (list_put i o) : st S unit).
Proof. by apply keeps_on_fs. Qed.
Lemma FindFreeBlock_range f a f' : FindFreeBlock f = Ok (a, f') -> is_int a.
Proof.
  unfold FindFreeBlock. assert (forall n i, 0 <= i -> i + Z.of_nat n <= 100 ->
    forall r, find_free_block n i (openFileList f) = Ok r -> -1 <= r <= 100) as H.
  { induction n as [|n IH]; intros i Hi Hn r; cbn [find_free_block]; [intros [= <-]; lia|].
    destruct (rd (openFileList f) i) as [[o|]| | | |]; cbn [mbind res_bind]; try done; [apply IH; lia|].
    intros [= <-]. lia. }
  destruct (find_free_block 8 2 (openFileList f)) as [r| | | |] eqn:E; cbn [mbind res_bind]; try done.
  intros [= <- <-]. apply H in E; [|lia|lia]. unfold_int. lia.
Qed.
Lemma keeps_FindFreeBlock : keeps is_int (on_fs FindFreeBlock : st S Z).
Proof. apply keeps_on_fs. exact FindFreeBlock_range. Qed.
Lemma keeps_file_Read fID f size : is_int size ->
  keeps (fun cs => zlen cs <= Z.max 0 size) (file_Read fID f size : st S (list Z)).
Proof.
  intros Hsz. unfold file_Read. eapply (keeps_bind (fun x => zlen x.1.1 <= Z.max 0 size)).
  - apply keeps_on_fs. intros fs [[bs n] f'] fs'. unfold on_unix, StubFS.Read, ReadAt, mbind, st_bind. simpl.
    destruct (Lseek _ _ _ _) as [[[] u]| | | |]; try done. unfold ReadPartial, host_read.
    destruct (fd_at u (file f)) as [[d c]|]; [|intros [= <- <- <- <-]; unfold zlen; simpl; lia].
    destruct (size <? 0); [intros [= <- <- <- <-]; unfold zlen; simpl; lia|]. intros [= <- <- <- <-]. simpl.
    unfold slice, zlen. rewrite length_take, length_drop. lia.
  - intros [[bs n] f'] Hz. simpl in Hz. eapply keeps_bind; [apply keeps_list_put|]. intros _ _.
    destruct (n <? 0); [by apply keeps_lift|]. apply keeps_ret. unfold zlen. rewrite length_fmap. exact Hz.
Qed.
Lemma keeps_file_Write fID f from size : is_int size ->
  keeps (fun n => n = size) (file_Write fID f from size : st S Z).
Proof.
  intros Hsz. unfold file_Write. eapply (keeps_bind (fun x => x.1 = size)).
  - apply keeps_on_fs. intros fs [n f'] fs'. unfold on_unix, StubFS.Write, WriteAt, lift, mbind, st_bind. simpl.
    destruct (Lseek _ _ _ _) as [[[] u]| | | |]; try done.
    destruct (if size <? 0 then UB else _) as [bs| | | |]; try done. simpl.
    destruct (WriteFile _ _ _) as [[[] u2]| | | |]; try done. by intros [= <- <- <-].
  - intros [n f'] Hn. simpl in Hn. eapply keeps_bind; [apply keeps_list_put|]. intros _ _. by apply keeps_ret.
Qed.
Lemma eof_scan_range n : forall i len buffer r, 0 <= i -> i + Z.of_nat n <= len ->
  eof_scan n i len buffer = Ok r -> 0 <= r.1.1 <= len.
Proof.
  induction n as [|n IH]; intros i len buffer r Hi Hn; cbn [eof_scan]; [intros [= <-]; simpl; lia|].
  destruct (rd buffer i) as [c| | | |]; cbn [mbind res_bind]; try done.
  destruct (c =? 0); [intros [= <-]; simpl; lia|]. destruct (c =? EOF).
  - destruct (wr buffer i 0); cbn [mbind res_bind]; try done. intros [= <-]. simpl. lia.
  - apply IH; lia.
Qed.
Lemma keeps_writable_file fID : keeps (fun _ => True) (writable_file fID : st S (option OpenFile)).
Proof.
  unfold writable_file. destruct (_ || _); [by apply keeps_ret|].
  eapply (keeps_bind (fun _ => True)); [by apply keeps_on_fs|]. intros [f|] _; [|by apply keeps_ret].
  eapply (keeps_bind (fun _ => True)); [by apply keeps_lift|]. intros t _. by destruct (t =? 1); apply keeps_ret.
Qed.

(** ** The console *)

(** Routines of the console that leave the input alone. *)
Definition quiet {A} (c : st SynchConsole A) : Prop :=
  forall d a d', input_ok d -> c d = Ok (a, d') -> input_ok d'.
Lemma quiet_bind {A B} (c : st SynchConsole A) (f : A -> st SynchConsole B) :
  quiet c -> (forall a, quiet (f a)) -> quiet (c ≫= f).
Proof.
  intros Hc Hf d a d' Hd. unfold mbind, st_bind. destruct (c d) as [[x e]| | | |] eqn:E; try done.
  intros H. eapply Hf; [|exact H]. by eapply Hc.
Qed.
Lemma quiet_for n : forall i (f : Z -> unit -> st SynchConsole unit) a,
  (forall j x, quiet (f j x)) -> quiet (for_st_n n i f a).
Proof.
  induction n as [|n IH]; intros i f a Hf; cbn [for_st_n]; [by intros d x d' Hd [= <- <-]|].
  apply quiet_bind; [apply Hf|]. intros. by apply IH.
Qed.
Lemma quiet_lift {A} (r : res A) : quiet (lift r).
Proof. intros d a d' Hd. unfold lift. destruct r; simpl; try done. by intros [= <- <-]. Qed.
Lemma Write_quiet from n d a d' : input_ok d -> SynchCons.Write from n d = Ok (a, d') -> input_ok d' /\ a = n.
Proof.
  intros Hd H. assert (quiet (SynchCons.Write from n)) as Hq.
  { unfold SynchCons.Write. repeat (apply quiet_bind; [|intros]).
    - intros e x e' He. unfold P_wline. destruct (_ =? 0); [done|]. by intros [= <- <-].
    - apply quiet_for. intros j x. apply quiet_bind; [apply quiet_lift|]. intros c. apply quiet_bind.
      + intros e y e' He. unfold PutChar. destruct (negb _); [|done]. by intros [= <- <-].
      + intros _ e y e' He. unfold P_write. destruct (_ && _); destruct (_ =? 0); try done; by intros [= <- <-].
    - by intros e x e' He [= <- <-].
    - by intros e x e' He [= <- <-]. }
  split; [by eapply Hq|]. unfold SynchCons.Write in H. unfold mbind, st_bind in H.
  destruct (P_wline d) as [[[] d1]| | | |]; try done.
  destruct (for_st _ _ _ _ _) as [[[] d2]| | | |]; try done. by injection H as <- <-.
Qed.
Lemma keeps_cons_Write from n : keeps (fun w => w = n) (on_cons (SynchCons.Write from n) : st S Z).
Proof. apply keeps_on_cons. intros d a d' Hd. by apply Write_quiet. Qed.

Lemma poll_input d : input_ok d -> input_ok (CheckCharAvail d).
Proof.
  intros [Hk Hi]. unfold CheckCharAvail. destruct (negb _); [done|].
  destruct (keyboard (SynchCons.cons d)) as [|c r] eqn:E; [split; [by rewrite E|done]|].
  apply Forall_cons in Hk as [Hc Hr]. by split.
Qed.
Lemma next_char_input fuel : forall d c d', input_ok d -> next_char fuel d = Ok (c, d') -> input_ok d' /\ is_char c.
Proof.
  induction fuel as [|n IH]; intros d c d' Hd; cbn [next_char]; [done|]. unfold P_read, mbind, st_bind.
  set (d1 := if synchReadAvail d =? 0 then CheckCharAvail d else d).
  assert (input_ok d1) as H1 by (unfold d1; destruct (_ =? 0); [by apply poll_input|done]).
  destruct (synchReadAvail d1 =? 0); [done|]. simpl.
  assert (input_ok (set_cons (set_read d1 (synchReadAvail d1 - 1))
    (mkConsole (keyboard (SynchCons.cons d1)) (display (SynchCons.cons d1)) (putBusy (SynchCons.cons d1)) EOF))) as H2.
  { split; [apply H1|]. unfold is_char. simpl. unfold EOF. lia. }
  destruct (incoming (SynchCons.cons d1) =? EOF); [by apply IH|]. intros [= <- <-]. split; [done|apply H1].
Qed.
Lemma read_loop_input fuel : forall numBytes loop into ch d into' loop' ch' d',
  input_ok d -> Forall is_char into -> loop <= numBytes ->
  read_loop fuel numBytes loop into ch d = Ok ((into', loop', ch'), d') ->
  input_ok d' /\ Forall is_char into' /\ loop <= loop' <= numBytes.
Proof.
  induction fuel as [|n IH]; intros nb loop into ch d into' loop' ch' d' Hd Hf Hl; cbn [read_loop].
  - destruct (loop <? nb); [done|]. intros [= <- <- <- <-]. done.
  - destruct (Z.ltb_spec loop nb); [|intros [= <- <- <- <-]; done]. unfold mbind at 1, st_bind at 1.
    destruct (next_char (Datatypes.S n) d) as [[c d1]| | | |] eqn:E; try done. apply next_char_input in E as [H1 Hc]; [|done].
    destruct ((c =? LF) || (c =? CtrlA)); [intros [= <- <- <- <-]; by split_and!|].
    unfold lift, mbind, st_bind. destruct (wr into loop c) as [into1| | | |] eqn:Ew; try done. simpl.
    apply wr_Ok_inv in Ew as [_ ->]. intros Hr. apply IH in Hr; [|done|by apply Forall_zset|lia].
    destruct Hr as (? & ? & ?). split_and!; try done; lia.
Qed.
Lemma clear_input n i l l' :
  for_range i n (fun loop l => wr l loop 0) l = Ok l' -> Forall is_char l -> Forall is_char l'.
Proof.
  unfold for_range. generalize (Z.to_nat (n - i)) as k. intros k. revert i l. induction k as [|k IH]; intros i l; cbn [for_n].
  - by intros [= <-].
  - destruct (wr l i 0) as [l1| | | |] eqn:E; cbn [mbind res_bind]; try done. intros H Hf. eapply IH; [exact H|].
    apply wr_Ok_inv in E as [_ ->]. apply Forall_zset; [done|]. unfold is_char. lia.
Qed.
Lemma cons_Read_input into n d r buf d' : input_ok d -> Forall is_char into -> 0 <= n ->
  SynchCons.Read into n d = Ok ((r, buf), d') -> input_ok d' /\ Forall is_char buf /\ -1 <= r <= n.
Proof.
  intros Hd Hf Hn. unfold SynchCons.Read.
  destruct (for_range 0 n _ into) as [into1| | | |] eqn:Ec; cbn [mbind res_bind]; try done.
  assert (Forall is_char into1) as Hf1 by (by eapply clear_input).
  unfold P_rline, mbind, st_bind. destruct (RLineBlock d =? 0); [done|].
  destruct (read_loop _ n 0 into1 None _) as [[[[into2 loop] ch] d2]| | | |] eqn:Er; try done.
  apply read_loop_input in Er; [|done|done|done]. destruct Er as (H2 & Hf2 & Hl).
  simpl. destruct ch as [c|]; [|done]. intros [= <- <- <-]. split; [done|]. split; [done|]. destruct (c =? CtrlA); lia.
Qed.
Lemma keeps_cons_Read into n : Forall is_char into -> is_int n ->
  keeps (fun x => Forall is_char x.2 /\ -1 <= x.1 <= Z.max 0 n) (on_cons (SynchCons.Read into n) : st S (Z * list Z)).
Proof.
  intros Hf Hn. apply keeps_on_cons. intros d [r buf] d' Hd H. destruct (decide (0 <= n)) as [H0|H0].
  - apply cons_Read_input in H; [|done|done|done]. destruct H as (? & ? & ?). split; [done|]. split; [done|]. simpl. lia.
  - exfalso. unfold SynchCons.Read in H. unfold for_range in H. replace (Z.to_nat (n - 0)) with O in H by lia.
    simpl in H. unfold P_rline, mbind, st_bind in H. destruct (RLineBlock d =? 0); [done|].
    cbn [read_loop] in H. rewrite (proj2 (Z.ltb_ge 0 n)) in H by lia. done.
Qed.
End rules.

Create HintDb kernel_keeps discriminated.
#[export] Hint Resolve keeps_rreg keeps_User2System keeps_System2User keeps_list_put keeps_writable_file keeps_FindFreeBlock
  keeps_file_Write keeps_file_Read keeps_IncPCReg
  keeps_cons_Write kk_Exec kk_IsExist kk_Join kk_Exit kk_Create kk_Wait kk_Signal kk_Yield : kernel_keeps.

(** One statement of a system call: a register, a test, a call that keeps the
    kernel, or a value that is not looked at. *)
Ltac kstep :=
  match goal with
  | |- keeps _ (setreg _ _) => apply keeps_setreg; [done|done|]
  | |- keeps _ (mret _) => apply keeps_ret
  | |- keeps _ (lift UB) => by apply keeps_lift
  | |- keeps _ Halt => apply keeps_Halt
  | |- keeps _ (if ?b then _ else _) => destruct b eqn:?
  | |- keeps _ (match ?o with Some _ => _ | None => _ end) => destruct o
  | |- keeps _ (let '(_, _) := ?p in _) => destruct p
  | |- keeps _ (mbind _ _) => eapply keeps_bind; [solve [eauto with kernel_keeps]|intros ? ?]
  | |- keeps _ (mbind _ (on_fs _)) => eapply (keeps_bind (fun _ => True)); [by apply keeps_on_fs|intros ? _]
  | |- keeps _ (mbind _ (lift _)) => eapply (keeps_bind (fun _ => True)); [by apply keeps_lift|intros ? _]
  | |- keeps _ _ => solve [eapply keeps_weaken; [eauto with kernel_keeps|done]]
  end.
Ltac ksteps := repeat kstep; try done; try (unfold_int; lia).

Section calls.
Context {X : Type} `{!ProcessCalls X, !KeepsKernel X}.
Context (permits : list Z -> bool) (open_max : nat).
#[local] Abbreviation S := (sim (cpu (kern X))).
#[local] Abbreviation ok c := (keeps (fun _ => True) (c : st S unit)).

Lemma keeps_SC_Create : ok (SC_Create permits open_max).
Proof. unfold SC_Create. ksteps. Qed.
Lemma keeps_SC_Open : ok (SC_Open permits open_max).
Proof. unfold SC_Open. ksteps. Qed.
Lemma keeps_SC_Close : ok SC_Close.
Proof. unfold SC_Close. ksteps. Qed.
Lemma keeps_SC_Read : ok SC_Read.
Proof.
  unfold SC_Read. do 3 kstep. kstep; [by apply keeps_lift|]. kstep; [ksteps|]. do 2 kstep; [|ksteps].
  kstep; [by apply keeps_lift|].
  eapply keeps_bind; [by apply keeps_file_Read|]. intros cs Hcs.
  eapply (keeps_bind (fun x => 0 <= x.1.1 <= zlen cs)).
  { apply keeps_lift. intros x E. eapply eof_scan_range; [| |exact E]; [lia|unfold zlen; lia]. }
  intros [[len buf] ef] Hlen. simpl in Hlen. ksteps.
Qed.
Lemma keeps_print_loop n : forall index count buffer, 0 <= count -> count + Z.of_nat n <= 1000 ->
  keeps is_int (print_loop n index count buffer : st S Z).
Proof.
  induction n as [|n IH]; intros index count buffer Hc Hn; cbn [print_loop];
    (eapply (keeps_bind (fun _ => True)); [by apply keeps_lift|]; intros c _); destruct (_ || _);
    try (apply keeps_ret; unfold_int; lia).
  eapply keeps_bind; [apply keeps_cons_Write|]. intros w ->. apply IH; lia.
Qed.
Lemma keeps_print_user_string va : ok (print_user_string va).
Proof.
  unfold print_user_string. kstep. eapply keeps_bind; [apply keeps_print_loop; [lia|done]|]. intros count Hc. ksteps.
Qed.
Lemma keeps_SC_Write : ok SC_Write.
Proof.
  unfold SC_Write. do 3 kstep. destruct (_ =? 1); [apply keeps_print_user_string|]. repeat kstep; ksteps; subst; done.
Qed.
Lemma count_digits_range n : forall temp len r, 0 <= len -> count_digits n temp len = Ok r -> 0 <= r <= len + Z.of_nat n.
Proof.
  induction n as [|n IH]; intros temp len r Hl; cbn [count_digits]; destruct (0 <? temp); try done;
    try (intros [= <-]; lia). intros H%IH; lia.
Qed.
Context (junk : Z -> list Z).
Hypothesis junk_chars : forall n, Forall is_char (junk n).
Lemma keeps_SC_WriteInt2File : ok (SC_WriteInt2File junk).
Proof.
  unfold SC_WriteInt2File. do 2 kstep. destruct (_ =? 1); [apply keeps_print_user_string|]. do 2 kstep; [|ksteps].
  eapply (keeps_bind (fun len => 0 <= len <= 11)).
  { apply keeps_lift. intros len E. destruct (_ =? 0); [injection E as <-; lia|].
    apply count_digits_range in E; lia. }
  intros len Hlen. kstep. eapply keeps_bind; [apply keeps_file_Write; unfold_int; lia|]. intros size ->. ksteps.
Qed.
Lemma keeps_SC_ReadInt : ok (SC_ReadInt (junk 12)).
Proof.
  unfold SC_ReadInt. eapply keeps_bind; [by apply keeps_cons_Read|]. intros [n buf] [Hf Hn]. simpl in Hn.
  repeat kstep; try (unfold_int; lia). apply to_int_range.
Qed.
Lemma keeps_SC_PrintInt : ok (SC_PrintInt (junk 12)).
Proof.
  unfold SC_PrintInt. kstep. cbv zeta. eapply (keeps_bind (fun _ => True)); [by apply keeps_lift|]. intros [b p] _.
  eapply (keeps_bind (fun _ => True)); [by apply keeps_lift|]. intros [b' p'] _. ksteps.
Qed.
Lemma keeps_SC_ReadChar : ok (SC_ReadChar (junk MaxString)).
Proof.
  unfold SC_ReadChar. eapply keeps_bind; [by apply keeps_cons_Read|]. intros [n buf] [Hf Hn]. simpl in Hf, Hn.
  kstep; [ksteps|]. kstep; [ksteps|]. eapply (keeps_bind is_char).
  - apply keeps_lift. intros c E%rd_Ok. exact (Forall_zget _ _ _ _ Hf E).
  - intros c Hc. unfold is_char in Hc. ksteps.
Qed.
Lemma keeps_SC_PrintChar : ok SC_PrintChar.
Proof. unfold SC_PrintChar. ksteps. Qed.
Lemma keeps_SC_ReadString : ok (SC_ReadString junk).
Proof.
  unfold SC_ReadString. do 3 kstep; [ksteps|]. eapply keeps_bind; [by apply keeps_cons_Read|]. intros [n buf] [Hf Hn].
  simpl in Hn. ksteps.
Qed.
Lemma keeps_SC_PrintString : ok SC_PrintString.
Proof. unfold SC_PrintString. kstep. apply keeps_print_user_string. Qed.
Lemma keeps_SC_Exec : ok SC_Exec.
Proof. unfold SC_Exec. ksteps. Qed.
Lemma keeps_SC_CreateSemaphore : ok SC_CreateSemaphore.
Proof. unfold SC_CreateSemaphore. ksteps. Qed.
Lemma keeps_SC_Up : ok SC_Up.
Proof. unfold SC_Up. ksteps. Qed.
Lemma keeps_SC_Down : ok SC_Down.
Proof. unfold SC_Down. ksteps. Qed.
Lemma keeps_SC_Join : ok SC_Join.
Proof. unfold SC_Join. ksteps. Qed.
Lemma keeps_SC_Exit : ok SC_Exit.
Proof. unfold SC_Exit. ksteps. Qed.
Lemma keeps_SC_Sleep : ok SC_Sleep.
Proof.
  intros s Hs. unfold SC_Sleep. destruct (bool_decide _); [|done]. by apply kk_Sleep.
Qed.

Lemma keeps_syscall (others : Z -> st S unit) : (forall ty, ok (others ty)) -> forall ty, ok (syscall permits open_max others junk ty).
Proof.
  intros Ho ty. destruct ty as [|p|p]; [apply keeps_Halt| |apply keeps_Halt].
  do 5 (try destruct p as [p|p|]); cbn [syscall];
    lazymatch goal with
    | |- keeps _ Halt => apply keeps_Halt
    | |- keeps _ (others _) => apply Ho
    | |- keeps _ SC_Yield => exact kk_Yield
    | |- keeps _ (SC_Create _ _) => exact keeps_SC_Create
    | |- keeps _ (SC_Open _ _) => exact keeps_SC_Open
    | |- keeps _ (SC_Close) => exact keeps_SC_Close
    | |- keeps _ (SC_Read) => exact keeps_SC_Read
    | |- keeps _ (SC_Write) => exact keeps_SC_Write
    | |- keeps _ (SC_WriteInt2File _) => exact keeps_SC_WriteInt2File
    | |- keeps _ (SC_ReadInt _) => exact keeps_SC_ReadInt
    | |- keeps _ (SC_PrintInt _) => exact keeps_SC_PrintInt
    | |- keeps _ (SC_ReadChar _) => exact keeps_SC_ReadChar
    | |- keeps _ (SC_PrintChar) => exact keeps_SC_PrintChar
    | |- keeps _ (SC_ReadString _) => exact keeps_SC_ReadString
    | |- keeps _ (SC_PrintString) => exact keeps_SC_PrintString
    | |- keeps _ (SC_Exec) => exact keeps_SC_Exec
    | |- keeps _ (SC_CreateSemaphore) => exact keeps_SC_CreateSemaphore
    | |- keeps _ (SC_Up) => exact keeps_SC_Up
    | |- keeps _ (SC_Down) => exact keeps_SC_Down
    | |- keeps _ (SC_Join) => exact keeps_SC_Join
    | |- keeps _ (SC_Exit) => exact keeps_SC_Exit
    | |- keeps _ (SC_Sleep) => exact keeps_SC_Sleep
    end.
Qed.
End calls.

(** The handler, for any routines behind the interface and any other calls that
    keep the kernel. *)
Lemma handler_keeps {X} `{!ProcessCalls X, !KeepsKernel X} permits open_max
    (others : Z -> st (sim (cpu (kern X))) unit) (junk : Z -> list Z) (which : ExceptionType) (s t : sim (cpu (kern X))) :
  (forall n, Forall is_char (junk n)) -> (forall ty, keeps (fun _ => True) (others ty)) -> kernel_ok s ->
  ExceptionHandler permits open_max others junk which s = Ok (tt, t) -> kernel_ok t.
Proof.
  intros Hj Ho Hs H.
  assert (keeps (fun _ => True) (ExceptionHandler permits open_max others junk which)) as Hk.
  { unfold ExceptionHandler. kstep.
    destruct which; try (unfold fault_handler; first [apply keeps_Halt|by apply keeps_ret]).
    eapply keeps_bind; [by apply keeps_syscall|]. intros _ _. apply keeps_IncPCReg. }
  specialize (Hk s Hs). rewrite H in Hk. apply Hk.
Qed.
#[export] Instance no_processes_keep : KeepsKernel unit.
Proof.
  split; intros; try done; apply keeps_ret; try done; apply small_is_int; reflexivity.
Qed.
