(* ===== verification/Post.v ===== *)
(** * machine/network.cc and network/post.cc: post offices on a network

    Several machines, each with a network device and a post office, joined by
    the datagram sockets of the host.  A socket holds the packets that have
    been sent to its machine; sending to a name that no machine has is refused
    by the host.  The routines are translated at the level of bytes; a step of
    the network is one uninterrupted stretch of one routine on one machine: a
    call of [Send] up to its wait, the end of that wait, the two interrupt
    handlers, the two halves of the postal worker's loop, and [Receive].
    [junk n] is what [new char[n]] holds; [lost] is the outcome of the test
    of [Random()] against [chanceToWork] for one packet.

    The locks and conditions of threads/synch.cc do nothing, except that
    [Condition::Wait] fails its assertion. *)

From S2P Require Import Prelude.
From stdpp Require Import gmap list.
#[local] Open Scope Z_scope.

Definition sizeof_PacketHeader : Z := 12.
Definition sizeof_MailHeader : Z := 12.
Definition MaxWireSize : Z := 64.
Definition MaxPacketSize : Z := MaxWireSize - sizeof_PacketHeader.
Definition MaxMailSize : Z := MaxPacketSize - sizeof_MailHeader.

Record PacketHeader := mkPkt { pkt_to : Z; pkt_from : Z; pkt_length : Z }.
Record MailHeader := mkMailHdr { mail_to : Z; mail_from : Z; mail_length : Z }.
Record Mail := mkMail { pktHdr : PacketHeader; mailHdr : MailHeader; data : list Z }.

Record Network := mkNetwork { ident : Z; sendBusy : bool; inHdr : PacketHeader; inbox : list Z }.
Record PostOffice := mkPostOffice {
  network : Network;
  netAddr : Z;
  boxes : list (list Mail);
  numBoxes : Z;
  messageAvailable : Z;
  messageSent : Z
}.
(** A machine: its post office, the pending [NetworkSendDone] interrupts, the
    threads that wait in [messageSent->P()], and the postal worker: has it
    passed [messageAvailable->P()], and its buffer. *)
Record node := mkNode {
  office : PostOffice;
  sendDones : Z;
  senders : Z;
  woken : bool;
  buffer : list Z
}.
Record world := mkWorld { nodes : gmap Z node; sockets : gmap Z (list (list Z)) }.
(** What the routines of one machine work on. *)
Record loc := mkLoc { me : node; wires : gmap Z (list (list Z)) }.

Definition set_network (p : PostOffice) (n : Network) : PostOffice :=
  mkPostOffice n (netAddr p) (boxes p) (numBoxes p) (messageAvailable p) (messageSent p).
Definition set_boxes (p : PostOffice) (b : list (list Mail)) : PostOffice :=
  mkPostOffice (network p) (netAddr p) b (numBoxes p) (messageAvailable p) (messageSent p).
Definition set_available (p : PostOffice) (v : Z) : PostOffice :=
  mkPostOffice (network p) (netAddr p) (boxes p) (numBoxes p) v (messageSent p).
Definition set_sent (p : PostOffice) (v : Z) : PostOffice :=
  mkPostOffice (network p) (netAddr p) (boxes p) (numBoxes p) (messageAvailable p) v.
Definition set_office (n : node) (p : PostOffice) : node :=
  mkNode p (sendDones n) (senders n) (woken n) (buffer n).

(** Headers as bytes. *)
Definition encode_pkt (h : PacketHeader) : list Z := bytes_of_ints [pkt_to h; pkt_from h; pkt_length h].
Definition encode_mail (h : MailHeader) : list Z := bytes_of_ints [mail_to h; mail_from h; mail_length h].
Definition decode_pkt (bs : list Z) : res PacketHeader :=
  w ← bytes_from bs 0 sizeof_PacketHeader;
  match ints_of_bytes w with [a; b; c] => Ok (mkPkt a b (to_uint c)) | _ => UB end.
Definition decode_mail (bs : list Z) : res MailHeader :=
  w ← bytes_from bs 0 sizeof_MailHeader;
  match ints_of_bytes w with [a; b; c] => Ok (mkMailHdr a b (to_uint c)) | _ => UB end.

Section post.
Context (junk : Z -> list Z).

(** ** Sockets of the host *)

Definition SendToSocket (packet : list Z) (to : Z) : st loc unit := fun s =>
  match wires s !! to with
  | None => AssertFail
  | Some q => Ok (tt, mkLoc (me s) (<[to := q ++ [packet]]> (wires s)))
  end.
(** [PollSocket] and [ReadFromSocket]. *)
Definition ReadFromSocket (addr : Z) : st loc (option (list Z)) := fun s =>
  match wires s !! addr with
  | Some (p :: q) =>
      ASSERT (zlen p =? MaxWireSize); Ok (Some p, mkLoc (me s) (<[addr := q]> (wires s)))
  | _ => Ok (None, s)
  end.

(** ** Network *)

Definition get_office : st loc PostOffice := fun s => Ok (office (me s), s).
Definition modify (f : node -> node) : st loc unit := fun s => Ok (tt, mkLoc (f (me s)) (wires s)).
Definition put_office (p : PostOffice) : st loc unit := modify (fun n => set_office n p).

Definition new_Network (addr : Z) (to from : Z) : Network :=
  mkNetwork addr false (mkPkt to from 0) (junk MaxPacketSize).

(** [interrupt->Schedule(NetworkSendDone, ...)] *)
Definition schedule_SendDone : st loc unit :=
  modify (fun n => mkNode (office n) (sendDones n + 1) (senders n) (woken n) (buffer n)).
Definition Network_Send (lost : bool) (hdr : PacketHeader) (from : list Z) : st loc unit :=
  p ← get_office;
  let net := network p in
  assert_ (negb (sendBusy net) && (0 <? pkt_length hdr) && (pkt_length hdr <=? MaxPacketSize)
           && (pkt_from hdr =? ident net));;
  schedule_SendDone;;
  if lost then mret tt
  else
    buf ← lift (bytes_to (encode_pkt hdr) (junk MaxWireSize) 0);
    d ← lift (bytes_from from 0 (pkt_length hdr));
    buf ← lift (bytes_to d buf sizeof_PacketHeader);
    SendToSocket buf (pkt_to hdr).

(** The header and the caller's buffer. *)
Definition Network_Receive (into : list Z) : st loc (PacketHeader * list Z) :=
  p ← get_office;
  let net := network p in
  let hdr := inHdr net in
  put_office (set_network p (mkNetwork (ident net) (sendBusy net)
                               (mkPkt (pkt_to hdr) (pkt_from hdr) 0) (inbox net)));;
  if negb (pkt_length hdr =? 0) then
    d ← lift (bytes_from (inbox net) 0 (pkt_length hdr));
    into ← lift (bytes_to d into 0);
    mret (hdr, into)
  else mret (hdr, into).

Definition IncomingPacket : st loc unit := p ← get_office; put_office (set_available p (messageAvailable p + 1)).
Definition PacketSent : st loc unit := p ← get_office; put_office (set_sent p (messageSent p + 1)).

Definition CheckPktAvail : st loc unit :=
  p ← get_office;
  let net := network p in
  if negb (pkt_length (inHdr net) =? 0) then mret tt
  else
    o ← ReadFromSocket (ident net);
    match o with
    | None => mret tt
    | Some packet =>
        hdr ← lift (decode_pkt packet);
        assert_ ((pkt_to hdr =? ident net) && (pkt_length hdr <=? MaxPacketSize));;
        d ← lift (bytes_from packet sizeof_PacketHeader (pkt_length hdr));
        inb ← lift (bytes_to d (inbox net) 0);
        put_office (set_network p (mkNetwork (ident net) (sendBusy net) hdr inb));;
        IncomingPacket
    end.
(** The interrupt handler of a packet that has gone out. *)
Definition SendDone : st loc unit :=
  p ← get_office;
  let net := network p in
  put_office (set_network p (mkNetwork (ident net) false (inHdr net) (inbox net)));;
  PacketSent.

(** ** Mail boxes *)

(** The list of a [SynchList] is the sequence of NList; the locks do nothing
    and [Condition::Wait], called on an empty list, asserts. *)
Definition SynchList_Append {A} (messages : list A) (item : A) : list A := messages ++ [item].
Definition SynchList_Remove {A} (messages : list A) : res (A * list A) :=
  match messages with
  | [] => AssertFail
  | item :: r => Ok (item, r)
  end.

Definition new_Mail (pktH : PacketHeader) (mailH : MailHeader) (msgData : list Z) : res Mail :=
  ASSERT (mail_length mailH <=? MaxMailSize);
  d ← bytes_from msgData 0 (mail_length mailH);
  d ← bytes_to d (junk MaxMailSize) 0;
  Ok (mkMail pktH mailH d).
Definition MailBox_Put (messages : list Mail) (pktH : PacketHeader) (mailH : MailHeader) (msgData : list Z)
  : res (list Mail) :=
  m ← new_Mail pktH mailH msgData; Ok (SynchList_Append messages m).
Definition MailBox_Get (messages : list Mail) : res (PacketHeader * MailHeader * list Z * list Mail) :=
  '(m, r) ← SynchList_Remove messages;
  d ← bytes_from (data m) 0 (mail_length (mailHdr m));
  Ok (pktHdr m, mailHdr m, d, r).

(** ** PostOffice *)

Definition new_PostOffice (addr : Z) (to from nBoxes : Z) : PostOffice :=
  mkPostOffice (new_Network addr to from) addr (replicate (Z.to_nat nBoxes) []) nBoxes 0 0.

(** [Send] up to [messageSent->P()]. *)
Definition Send (lost : bool) (pktH : PacketHeader) (mailH : MailHeader) (msg : list Z) : st loc unit :=
  p ← get_office;
  assert_ (mail_length mailH <=? MaxMailSize);;
  assert_ ((0 <=? mail_to mailH) && (mail_to mailH <? numBoxes p));;
  let pktH := mkPkt (pkt_to pktH) (netAddr p) (to_uint (mail_length mailH + sizeof_MailHeader)) in
  buf ← lift (bytes_to (encode_mail mailH) (junk MaxPacketSize) 0);
  d ← lift (bytes_from msg 0 (mail_length mailH));
  buf ← lift (bytes_to d buf sizeof_MailHeader);
  Network_Send lost pktH buf;;
  modify (fun n => mkNode (office n) (sendDones n) (senders n + 1) (woken n) (buffer n)).

(** One round of [PostalDelivery], behind its wait. *)
Definition PostalDelivery : st loc unit := fun s =>
  ('(pktH, buf) ← Network_Receive (buffer (me s));
   mailH ← lift (decode_mail buf);
   p ← get_office;
   assert_ ((0 <=? mail_to mailH) && (mail_to mailH <? numBoxes p));;
   assert_ (mail_length mailH <=? MaxMailSize);;
   box ← lift (rd (boxes p) (mail_to mailH));
   box ← lift (MailBox_Put box pktH mailH (drop (Z.to_nat sizeof_MailHeader) buf));
   bs ← lift (wr (boxes p) (mail_to mailH) box);
   put_office (set_boxes p bs);;
   modify (fun n => mkNode (office n) (sendDones n) (senders n) false buf)) s.

Definition Receive (box : Z) : st loc (PacketHeader * MailHeader * list Z) :=
  p ← get_office;
  assert_ ((0 <=? box) && (box <? numBoxes p));;
  b ← lift (rd (boxes p) box);
  '(pktH, mailH, d, b) ← lift (MailBox_Get b);
  bs ← lift (wr (boxes p) box b);
  put_office (set_boxes p bs);;
  assert_ (mail_length mailH <=? MaxMailSize);;
  mret (pktH, mailH, d).

(** ** Steps *)

Inductive action :=
| ASend (lost : bool) (pktH : PacketHeader) (mailH : MailHeader) (msg : list Z)
| ASent
| ASendDone
| APoll
| AWake
| ADeliver
| AReceive (box : Z).

(** A letter: the machines, the boxes, the text. *)
Record letter := mkLetter { l_to : Z; l_from : Z; l_box : Z; l_reply : Z; l_text : list Z }.
#[export] Instance letter_eq_dec : EqDecision letter.
Proof. solve_decision. Defined.
Inductive event :=
| ESent (l : letter)
| EDelivered (a : Z)
| EReceived (a box : Z) (l : letter)
| ENone.
Definition letter_of (a : Z) (pktH : PacketHeader) (mailH : MailHeader) (msg : list Z) : letter :=
  mkLetter (pkt_to pktH) a (mail_to mailH) (mail_from mailH) (slice 0 (mail_length mailH) msg).

(** [NoFuel] when the action is not possible now: the thread waits. *)
Definition perform (a : Z) (act : action) : st loc event := fun s =>
  let n := me s in
  match act with
  | ASend lost pktH mailH msg =>
      (Send lost pktH mailH msg;; mret (if lost then ENone else ESent (letter_of a pktH mailH msg))) s
  | ASent =>
      if (0 <? senders n) && (0 <? messageSent (office n)) then
        Ok (ENone, mkLoc (mkNode (set_sent (office n) (messageSent (office n) - 1)) (sendDones n)
                            (senders n - 1) (woken n) (buffer n)) (wires s))
      else NoFuel
  | ASendDone =>
      if 0 <? sendDones n then
        (SendDone;; mret ENone)
          (mkLoc (mkNode (office n) (sendDones n - 1) (senders n) (woken n) (buffer n)) (wires s))
      else NoFuel
  | APoll => (CheckPktAvail;; mret ENone) s
  | AWake =>
      if negb (woken n) && (0 <? messageAvailable (office n)) then
        Ok (ENone, mkLoc (mkNode (set_available (office n) (messageAvailable (office n) - 1)) (sendDones n)
                            (senders n) true (buffer n)) (wires s))
      else NoFuel
  | ADeliver => if woken n then (PostalDelivery;; mret (EDelivered a)) s else NoFuel
  | AReceive box =>
      ('(pktH, mailH, d) ← Receive box;
       mret (EReceived a box (mkLetter (pkt_to pktH) (pkt_from pktH) (mail_to mailH) (mail_from mailH) d))) s
  end.

(** Sending: what the caller passes, in the ranges of its C types. *)
Record typed (nb : Z) (pktH : PacketHeader) (mailH : MailHeader) : Prop := {
  ty_to : is_int (pkt_to pktH);
  ty_box : is_int (mail_to mailH);
  ty_from : is_int (mail_from mailH);
  ty_length : is_uint (mail_length mailH);
  ty_nb : is_int nb
}.
Definition typed_action (nb : Z) (act : action) : Prop :=
  match act with ASend _ pktH mailH _ => typed nb pktH mailH | _ => True end.
Inductive step (w : world) (e : event) : world -> Prop :=
| step_at a act n n' ws' :
    nodes w !! a = Some n ->
    typed_action (numBoxes (office n)) act ->
    perform a act (mkLoc n (sockets w)) = Ok (e, mkLoc n' ws') ->
    step w e (mkWorld (<[a := n']> (nodes w)) ws').
Inductive steps (w : world) : list event -> world -> Prop :=
| steps_nil : steps w [] w
| steps_snoc es e w1 w2 : steps w es w1 -> step w1 e w2 -> steps w (es ++ [e]) w2.

(** The machines [addrs] after the start of each. *)
Definition boot_node (nBoxes a : Z) : node :=
  mkNode (new_PostOffice a 0 0 nBoxes) 0 0 false (junk MaxPacketSize).
Definition boot (nBoxes : Z) (addrs : list Z) : world :=
  mkWorld (list_to_map ((fun a => (a, boot_node nBoxes a)) <$> addrs))
    (list_to_map ((fun a => (a, [])) <$> addrs)).
End post.

(** ** Letters as bytes *)

Definition pkt_of (l : letter) : PacketHeader := mkPkt (l_to l) (l_from l) (zlen (l_text l) + sizeof_MailHeader).
Definition mail_of (l : letter) : MailHeader := mkMailHdr (l_box l) (l_reply l) (zlen (l_text l)).
Definition payload (l : letter) : list Z := encode_mail (mail_of l) ++ l_text l.
(** A letter that can be sent between machines with [nb] boxes each. *)
Record legal (nb : Z) (l : letter) : Prop := {
  lg_to : is_int (l_to l);
  lg_from : is_int (l_from l);
  lg_box : 0 <= l_box l < nb;
  lg_nb : is_int nb;
  lg_reply : is_int (l_reply l);
  lg_text : zlen (l_text l) <= MaxMailSize
}.
Definition packet_rep (l : letter) (p : list Z) : Prop :=
  zlen p = MaxWireSize /\ exists r, p = encode_pkt (pkt_of l) ++ payload l ++ r.
Definition mail_rep (l : letter) (m : Mail) : Prop :=
  pktHdr m = pkt_of l /\ mailHdr m = mail_of l /\ zlen (l_text l) <= MaxMailSize /\ exists r, data m = l_text l ++ r.

Ltac sizes := unfold MaxMailSize, MaxPacketSize, MaxWireSize, sizeof_MailHeader, sizeof_PacketHeader in *.

Lemma encode_pkt_len h : zlen (encode_pkt h) = sizeof_PacketHeader.
Proof. unfold encode_pkt. by rewrite zlen_bytes_of_ints. Qed.
Lemma encode_mail_len h : zlen (encode_mail h) = sizeof_MailHeader.
Proof. unfold encode_mail. by rewrite zlen_bytes_of_ints. Qed.
Lemma payload_len l : zlen (payload l) = zlen (l_text l) + sizeof_MailHeader.
Proof. unfold payload. rewrite zlen_app, encode_mail_len. lia. Qed.
Lemma bytes_from_behind (h l r : list Z) : bytes_from (h ++ l ++ r) (zlen h) (zlen l) = Ok l.
Proof.
  rewrite bytes_from_ok, slice_behind; [done|apply zlen_nonneg|].
  rewrite !zlen_app. pose proof (zlen_nonneg r). lia.
Qed.
Lemma bytes_from_front (l r : list Z) : bytes_from (l ++ r) 0 (zlen l) = Ok l.
Proof. exact (bytes_from_behind [] l r). Qed.
Lemma bytes_to_behind (h d r : list Z) : zlen d <= zlen r ->
  bytes_to d (h ++ r) (zlen h) = Ok (h ++ d ++ drop (length d) r).
Proof. intros. rewrite bytes_to_ok, splice_behind; [done|apply zlen_nonneg|rewrite zlen_app; lia]. Qed.
Lemma bytes_to_front (d r : list Z) : zlen d <= zlen r -> bytes_to d r 0 = Ok (d ++ drop (length d) r).
Proof. exact (bytes_to_behind [] d r). Qed.

Lemma decode_encode_pkt h r : is_int (pkt_to h) -> is_int (pkt_from h) -> 0 <= pkt_length h < two31 ->
  decode_pkt (encode_pkt h ++ r) = Ok h.
Proof.
  intros Ht Hf Hl. unfold decode_pkt. rewrite <-(encode_pkt_len h) at 1. rewrite bytes_from_front. cbn [mbind res_bind].
  unfold encode_pkt. rewrite <-(app_nil_r (bytes_of_ints _)), ints_of_bytes_of_ints.
  - simpl. rewrite to_uint_id by (unfold_int; lia). by destruct h.
  - repeat constructor; try done; unfold_int; lia.
Qed.
Lemma decode_encode_mail h r : is_int (mail_to h) -> is_int (mail_from h) -> 0 <= mail_length h < two31 ->
  decode_mail (encode_mail h ++ r) = Ok h.
Proof.
  intros Ht Hf Hl. unfold decode_mail. rewrite <-(encode_mail_len h) at 1. rewrite bytes_from_front. cbn [mbind res_bind].
  unfold encode_mail. rewrite <-(app_nil_r (bytes_of_ints _)), ints_of_bytes_of_ints.
  - simpl. rewrite to_uint_id by (unfold_int; lia). by destruct h.
  - repeat constructor; try done; unfold_int; lia.
Qed.
Lemma decode_pkt_of nb l r : legal nb l -> decode_pkt (encode_pkt (pkt_of l) ++ r) = Ok (pkt_of l).
Proof.
  intros [? ? ? ? ? Ht]. pose proof (zlen_nonneg (l_text l)).
  apply decode_encode_pkt; try done. simpl. sizes. unfold two31. lia.
Qed.
Lemma decode_mail_of nb l r : legal nb l -> decode_mail (encode_mail (mail_of l) ++ r) = Ok (mail_of l).
Proof.
  intros [? ? ? Hnb ? Ht]. pose proof (zlen_nonneg (l_text l)).
  apply decode_encode_mail; try done; simpl; sizes; unfold_int; lia.
Qed.

(** ** A machine and the letters it holds

    [us] are the letters under way to machine [a]: the one in [inbox], when
    there is one, and those in its socket [q]; [bx k] are the letters in box
    [k].  Every waiting sender has its interrupt pending or its unit in
    [messageSent]; the worker is woken exactly when there is a packet. *)
Definition in_inbox (net : Network) (cur : list letter) : Prop :=
  (pkt_length (inHdr net) = 0 /\ cur = []) \/
  exists l r, cur = [l] /\ inHdr net = pkt_of l /\ inbox net = payload l ++ r.
Record node_rep (nb a : Z) (n : node) (q : list (list Z)) (us : list letter) (bx : Z -> list letter) : Prop := {
  nr_addr : netAddr (office n) = a /\ ident (network (office n)) = a;
  nr_boxes : numBoxes (office n) = nb /\ zlen (boxes (office n)) = nb;
  nr_idle : sendBusy (network (office n)) = false;
  nr_sizes : zlen (inbox (network (office n))) = MaxPacketSize /\ zlen (buffer n) = MaxPacketSize;
  nr_senders : 0 <= sendDones n /\ 0 <= messageSent (office n) /\ senders n = sendDones n + messageSent (office n);
  nr_worker : 0 <= messageAvailable (office n) /\
    messageAvailable (office n) + (if woken n then 1 else 0) =
      (if pkt_length (inHdr (network (office n))) =? 0 then 0 else 1);
  nr_under : exists cur rest, us = cur ++ rest /\ Forall2 packet_rep rest q /\ in_inbox (network (office n)) cur;
  nr_legal : Forall (fun l => legal nb l /\ l_to l = a) us;
  nr_box : forall k b, zget (boxes (office n)) k = Some b -> Forall2 mail_rep (bx k) b
}.

Ltac fields := cbn [office sendDones senders woken buffer network netAddr boxes numBoxes messageAvailable messageSent
  ident sendBusy inHdr inbox set_office set_network set_available set_sent set_boxes pkt_to pkt_from pkt_length
  pkt_of mail_to mail_from mail_length mail_of me wires modify put_office].

Section rep.
Context (junk : Z -> list Z).
Hypothesis junk_len : forall n, 0 <= n -> zlen (junk n) = n.

Lemma boot_rep nb a : 0 <= nb -> node_rep nb a (boot_node junk nb a) [] [] (fun _ => []).
Proof.
  intros Hn. split; simpl; try done.
  - split; [done|]. unfold zlen. rewrite length_replicate. lia.
  - split; by apply junk_len.
  - exists [], []. split; [done|]. split; [constructor|]. by left.
  - intros k b Hb. unfold zget in Hb. case_decide; [|done]. apply lookup_replicate in Hb as [-> _]. constructor.
Qed.

(** The poll for packets. *)
Lemma net_poll_ok nb a n q us bx ws :
  node_rep nb a n q us bx -> ws !! a = Some q ->
  exists n' q', CheckPktAvail (mkLoc n ws) = Ok (tt, mkLoc n' (<[a := q']> ws)) /\ node_rep nb a n' q' us bx /\
    (pkt_length (inHdr (network (office n'))) = 0 -> us = []) /\ woken n' = woken n.
Proof.
  intros [[Ha Hi] [Hb Hbl] Hbusy [Hsi Hsb] Hsd [Hav Hwk] (cur & rest & Hus & Hrest & Hcur) Hleg Hbox] Hq.
  unfold CheckPktAvail. rewrite (st_bind_Ok _ _ _ (office n) (mkLoc n ws)) by done. cbv zeta.
  destruct (Z.eqb_spec (pkt_length (inHdr (network (office n)))) 0) as [E|E]; cbn [negb].
  2:{ exists n, q. rewrite insert_id by done. split; [done|]. split; [|done].
      split; try done; [|by exists cur, rest]. split; [done|]. by rewrite (proj2 (Z.eqb_neq _ _) E). }
  assert (cur = []) as ->.
  { destruct Hcur as [[_ ?]|(l & r & -> & Hh & _)]; [done|]. exfalso. rewrite Hh in E. simpl in E.
    pose proof (zlen_nonneg (l_text l)). sizes. lia. }
  simpl in Hus. subst us. destruct q as [|p q].
  { exists n, []. rewrite (insert_id ws) by done. apply Forall2_nil_inv_r in Hrest as ->.
    unfold mbind, st_bind, ReadFromSocket. simpl. rewrite Hi, Hq. split; [done|]. split; [|done].
    split; try done; [by rewrite (proj2 (Z.eqb_eq _ _) E)|]. exists [], []. split; [done|]. split; [constructor|done]. }
  apply Forall2_cons_inv_r in Hrest as (l & rest' & [Hp (r & Hpe)] & Hrest' & ->).
  pose proof (Forall_inv Hleg) as [Hl Hto].
  rewrite (st_bind_Ok _ _ _ (Some p) (mkLoc n (<[a := q]> ws))).
  2:{ unfold ReadFromSocket. simpl. by rewrite Hi, Hq, Hp. }
  pose proof (zlen_nonneg (l_text l)). pose proof (lg_text _ _ Hl) as Htx.
  rewrite Hpe, (lift_bind_Ok _ _ _ _ (decode_pkt_of _ l _ Hl)).
  rewrite (st_bind_Ok (assert_ _) _ _ tt (mkLoc n (<[a := q]> ws))).
  2:{ unfold assert_. simpl. rewrite Hto, Hi, Z.eqb_refl. rewrite (proj2 (Z.leb_le _ _)) by (sizes; lia). done. }
  assert (bytes_from (encode_pkt (pkt_of l) ++ payload l ++ r) sizeof_PacketHeader (pkt_length (pkt_of l)) = Ok (payload l)) as Hbf.
  { rewrite <-(encode_pkt_len (pkt_of l)). change (pkt_length (pkt_of l)) with (zlen (l_text l) + sizeof_MailHeader).
    rewrite <-payload_len. apply bytes_from_behind. }
  rewrite (lift_bind_Ok _ _ _ _ Hbf).
  rewrite (lift_bind_Ok _ _ _ _ (bytes_to_front (payload l) (inbox (network (office n)))
    ltac:(rewrite payload_len, Hsi; sizes; lia))).
  eexists _, q. split; [reflexivity|]. cbn [office network inHdr].
  split; [|split; [|done]].
  - split; try done; fields.
    + split; [|done]. rewrite zlen_app. unfold zlen at 2. rewrite length_drop. rewrite payload_len.
      pose proof (payload_len l). unfold zlen in *. sizes. lia.
    + rewrite (proj2 (Z.eqb_neq _ _)) by (sizes; lia). split; [lia|].
      destruct (woken n); lia.
    + exists [l], rest'. split; [done|]. split; [done|]. right. by eexists l, _.
  - fields. intros. sizes. lia.
Qed.

(** The interrupt after a send, and the two waits. *)
Lemma senddone_ok nb a n q us bx ws :
  node_rep nb a n q us bx -> 0 < sendDones n ->
  exists n', perform junk a ASendDone (mkLoc n ws) = Ok (ENone, mkLoc n' ws) /\ node_rep nb a n' q us bx.
Proof.
  intros [Ha Hb Hbusy Hs Hsd Hwk Hu Hleg Hbox] Hpos. unfold perform. fields.
  rewrite (proj2 (Z.ltb_lt _ _)) by done. eexists. split; [reflexivity|]. split; try done. fields. lia.
Qed.
Lemma sent_ok nb a n q us bx ws :
  node_rep nb a n q us bx -> 0 < senders n -> 0 < messageSent (office n) ->
  exists n', perform junk a ASent (mkLoc n ws) = Ok (ENone, mkLoc n' ws) /\ node_rep nb a n' q us bx.
Proof.
  intros [Ha Hb Hbusy Hs Hsd Hwk Hu Hleg Hbox] H1 H2. unfold perform. fields.
  rewrite !(proj2 (Z.ltb_lt _ _)) by done. eexists. split; [reflexivity|]. split; try done. fields. lia.
Qed.
Lemma wake_ok nb a n q us bx ws :
  node_rep nb a n q us bx -> woken n = false -> 0 < messageAvailable (office n) ->
  exists n', perform junk a AWake (mkLoc n ws) = Ok (ENone, mkLoc n' ws) /\ node_rep nb a n' q us bx /\ woken n' = true.
Proof.
  intros [Ha Hb Hbusy Hs Hsd Hwk Hu Hleg Hbox] H1 H2. unfold perform. fields.
  rewrite H1, (proj2 (Z.ltb_lt _ _)) by done. eexists. split; [reflexivity|]. split; [|done]. split; try done. fields.
  rewrite H1 in Hwk. destruct (_ =? 0); lia.
Qed.

Definition put_in (bx : Z -> list letter) (l : letter) : Z -> list letter :=
  fun k => if decide (k = l_box l) then bx k ++ [l] else bx k.
Definition take_from (bx : Z -> list letter) (k : Z) (r : list letter) : Z -> list letter :=
  fun j => if decide (j = k) then r else bx j.

(** What [Put] queues for a payload. *)
Lemma Put_ok nb l r ms : legal nb l ->
  exists m, MailBox_Put junk ms (pkt_of l) (mail_of l) (l_text l ++ r) = Ok (ms ++ [m]) /\ mail_rep l m.
Proof.
  intros Hl. pose proof (lg_text _ _ Hl) as Ht. unfold MailBox_Put, new_Mail. fields.
  rewrite (proj2 (Z.leb_le _ _)) by done. rewrite bytes_from_front. cbn [mbind res_bind].
  rewrite bytes_to_front by (by rewrite junk_len). cbn [mbind res_bind]. eexists. split; [reflexivity|].
  split_and!; try done. by eexists.
Qed.
(** The worker puts the first letter under way in its box. *)
Lemma deliver_ok nb a n q us bx ws :
  node_rep nb a n q us bx -> woken n = true ->
  exists l us' n', us = l :: us' /\ PostalDelivery junk (mkLoc n ws) = Ok (tt, mkLoc n' ws) /\
    node_rep nb a n' q us' (put_in bx l) /\ woken n' = false.
Proof.
  intros [[Ha Hi] [Hb Hbl] Hbusy [Hsi Hsb] Hsd [Hav Hwk] (cur & rest & Hus & Hrest & Hcur) Hleg Hbox] Hw.
  rewrite Hw in Hwk. destruct Hcur as [[E _]|(l & r & -> & Hh & Hin)].
  { rewrite E in Hwk. cbn [Z.eqb] in Hwk. lia. }
  exists l, rest. rewrite Hus in Hleg. pose proof (Forall_inv Hleg) as [Hl Hto].
  pose proof (zlen_nonneg (l_text l)) as H0. pose proof (lg_text _ _ Hl) as Htx.
  assert (pkt_length (pkt_of l) <> 0) as Hne by (fields; sizes; lia).
  set (net' := mkNetwork (ident (network (office n))) (sendBusy (network (office n)))
    (mkPkt (pkt_to (pkt_of l)) (pkt_from (pkt_of l)) 0) (inbox (network (office n)))).
  set (n1 := set_office n (set_network (office n) net')).
  assert (Network_Receive (buffer n) (mkLoc n ws) =
    Ok (pkt_of l, payload l ++ drop (length (payload l)) (buffer n), mkLoc n1 ws)) as Hr.
  { unfold Network_Receive, get_office, put_office, modify, mbind, st_bind. fields. rewrite Hh.
    rewrite (proj2 (Z.eqb_neq _ _) Hne). cbn [negb]. unfold lift.
    change (pkt_length (pkt_of l)) with (zlen (l_text l) + sizeof_MailHeader). rewrite <-payload_len, Hin, bytes_from_front.
    cbn [mbind res_bind]. rewrite bytes_to_front by (rewrite payload_len, Hsb; sizes; lia).
    unfold n1, net'. by rewrite Hin. }
  destruct (zget_is_Some (boxes (office n)) (l_box l)) as [b Hbx]; [rewrite Hbl; apply Hl|].
  set (buf := payload l ++ drop (length (payload l)) (buffer n)) in *.
  assert (drop (Z.to_nat sizeof_MailHeader) buf = l_text l ++ drop (length (payload l)) (buffer n)) as Hdrop.
  { unfold buf, payload. rewrite <-app_assoc. apply drop_app_length'.
    pose proof (encode_mail_len (mail_of l)) as He. unfold zlen in He. lia. }
  destruct (Put_ok nb l (drop (length (payload l)) (buffer n)) b Hl) as (m & Hput & Hm).
  assert (zlen buf = MaxPacketSize) as Hbuf.
  { unfold buf. rewrite zlen_app. unfold zlen at 2. rewrite length_drop. pose proof (payload_len l).
    unfold zlen in *. sizes. lia. }
  eexists. split; [done|]. split.
  - unfold PostalDelivery. cbn [me].
    rewrite (st_bind_Ok _ _ _ _ _ Hr). fold buf.
    rewrite (lift_bind_Ok _ _ _ (mail_of l)).
    2:{ unfold buf, payload. rewrite <-app_assoc. by apply (decode_mail_of nb). }
    rewrite (st_bind_Ok _ _ _ (office n1) (mkLoc n1 ws)) by done.
    rewrite (st_bind_Ok (assert_ _) _ _ tt (mkLoc n1 ws)).
    2:{ unfold assert_. unfold n1. fields. rewrite Hb. pose proof (lg_box _ _ Hl).
        by rewrite (proj2 (Z.leb_le _ _)), (proj2 (Z.ltb_lt _ _)) by lia. }
    rewrite (st_bind_Ok (assert_ _) _ _ tt (mkLoc n1 ws)).
    2:{ unfold assert_. fields. by rewrite (proj2 (Z.leb_le _ _)) by done. }
    change (boxes (office n1)) with (boxes (office n)). cbn [mail_to mail_of].
    rewrite (lift_bind_Ok _ _ _ _ (proj2 (rd_Ok _ _ _) Hbx)), Hdrop, (lift_bind_Ok _ _ _ _ Hput).
    rewrite (lift_bind_Ok _ _ _ _ (wr_Ok _ _ _ (zget_Some_range _ _ _ Hbx))). reflexivity.
  - split; [|done]. unfold n1, net'. split; try done; fields; try done.
    + split; [done|]. by rewrite zlen_zset.
    + rewrite Hh, (proj2 (Z.eqb_neq _ _) Hne) in Hwk. cbn [Z.eqb]. lia.
    + exists [], rest. split; [done|]. split; [done|]. left. by fields.
    + by apply Forall_inv_tail in Hleg.
    + intros k b' Hk. rewrite zget_zset in Hk. unfold put_in. case_decide as Hd.
      * destruct Hd as [<- _]. injection Hk as <-. rewrite decide_True by done.
        apply Forall2_app; [by apply Hbox|]. by constructor.
      * rewrite decide_False; [by apply Hbox|]. intros ->. apply Hd. split; [done|]. rewrite Hbl. apply Hl.
Qed.

Lemma receive_out nb a n q us bx ws box :
  node_rep nb a n q us bx -> ~ 0 <= box < nb -> Receive box (mkLoc n ws) = AssertFail.
Proof.
  intros [_ [Hb _] _ _ _ _ _ _ _] Hbx. unfold Receive, get_office, assert_, mbind, st_bind. fields. rewrite Hb.
  destruct (Z.leb_spec 0 box), (Z.ltb_spec box nb); try done. lia.
Qed.
Lemma receive_start nb a n q us bx ws box :
  node_rep nb a n q us bx -> 0 <= box < nb ->
  exists b, zget (boxes (office n)) box = Some b /\ Forall2 mail_rep (bx box) b /\
    Receive box (mkLoc n ws) = ('(pktH, mailH, d, b) ← lift (MailBox_Get b);
      bs ← lift (wr (boxes (office n)) box b);
      put_office (set_boxes (office n) bs);;
      assert_ (mail_length mailH <=? MaxMailSize);;
      mret (pktH, mailH, d)) (mkLoc n ws).
Proof.
  intros [_ [Hb Hbl] _ _ _ _ _ _ Hbox] Hbx. destruct (zget_is_Some (boxes (office n)) box) as [b Hz]; [lia|].
  exists b. split; [done|]. split; [by apply Hbox|]. unfold Receive.
  rewrite (st_bind_Ok _ _ _ (office n) (mkLoc n ws)) by done.
  rewrite (st_bind_Ok (assert_ _) _ _ tt (mkLoc n ws)).
  2:{ unfold assert_. rewrite Hb, (proj2 (Z.leb_le _ _)), (proj2 (Z.ltb_lt _ _)) by lia. done. }
  by rewrite (lift_bind_Ok _ _ _ _ (proj2 (rd_Ok _ _ _) Hz)).
Qed.
Lemma receive_empty nb a n q us bx ws box :
  node_rep nb a n q us bx -> 0 <= box < nb -> bx box = [] -> Receive box (mkLoc n ws) = AssertFail.
Proof.
  intros Hn Hbx Hnil. destruct (receive_start _ _ _ _ _ _ ws _ Hn Hbx) as (b & _ & Hf & ->).
  rewrite Hnil in Hf. by apply Forall2_nil_inv_l in Hf as ->.
Qed.
Lemma receive_ok nb a n q us bx ws box l r :
  node_rep nb a n q us bx -> 0 <= box < nb -> bx box = l :: r ->
  exists n', Receive box (mkLoc n ws) = Ok (pkt_of l, mail_of l, l_text l, mkLoc n' ws) /\
    node_rep nb a n' q us (take_from bx box r).
Proof.
  intros Hn Hbx Hcons. destruct (receive_start _ _ _ _ _ _ ws _ Hn Hbx) as (b & Hz & Hf & ->).
  rewrite Hcons in Hf. apply Forall2_cons_inv_l in Hf as (m & b' & (Hp & Hm & Ht & rr & Hd) & Hf & ->).
  rewrite (lift_bind_Ok _ _ _ (pkt_of l, mail_of l, l_text l, b')).
  2:{ unfold MailBox_Get. cbn [SynchList_Remove mbind res_bind]. rewrite Hd, Hm. cbn [mail_length mail_of]. rewrite bytes_from_front. cbn [mbind res_bind].
      by rewrite Hp. }
  rewrite (lift_bind_Ok _ _ _ _ (wr_Ok _ _ _ (zget_Some_range _ _ _ Hz))).
  eexists. split.
  - unfold put_office, modify, assert_, mbind, st_bind. fields. rewrite (proj2 (Z.leb_le _ _) Ht). reflexivity.
  - destruct Hn as [Ha [Hb Hbl] Hbusy Hs Hsd Hwk Hu Hleg Hbox]. split; try done; fields.
    + split; [done|]. by rewrite zlen_zset.
    + intros k c Hk. rewrite zget_zset in Hk. unfold take_from. case_decide as Hd'.
      * destruct Hd' as [<- _]. injection Hk as <-. by rewrite decide_True.
      * rewrite decide_False; [by apply Hbox|]. intros ->. apply Hd'. split; [done|]. lia.
Qed.

Record sendable (nb : Z) (mailH : MailHeader) (msg : list Z) : Prop := {
  sb_box : 0 <= mail_to mailH < nb;
  sb_length : mail_length mailH <= MaxMailSize;
  sb_msg : mail_length mailH <= zlen msg
}.
Lemma letter_of_legal nb a pktH mailH msg :
  typed nb pktH mailH -> sendable nb mailH msg -> is_int a ->
  legal nb (letter_of a pktH mailH msg) /\ mail_of (letter_of a pktH mailH msg) = mailH.
Proof.
  intros [H1 H2 H3 H4 H5] [B1 B2 B3] Ha.
  assert (zlen (slice 0 (mail_length mailH) msg) = mail_length mailH) as Hl by (rewrite zlen_slice; unfold_int; lia).
  split; [split; try done; simpl; by rewrite Hl|]. unfold mail_of. simpl. rewrite Hl. by destruct mailH.
Qed.
(** A machine after [Send]. *)
Definition after_send (n : node) : node :=
  mkNode (office n) (sendDones n + 1) (senders n + 1) (woken n) (buffer n).
(** The packet that [Network_Send] puts together for a letter: its headers, its
    text and what was in the buffer before. *)
Definition wire_packet (l : letter) : list Z :=
  encode_pkt (pkt_of l) ++ payload l ++ drop (length (payload l))
    (drop (length (encode_pkt (pkt_of l))) (junk MaxWireSize)).
Lemma wire_room l : zlen (drop (length (encode_pkt (pkt_of l))) (junk MaxWireSize)) = MaxPacketSize.
Proof using All.
  pose proof (encode_pkt_len (pkt_of l)) as He. pose proof (junk_len MaxWireSize ltac:(done)) as Hj.
  unfold zlen in *. rewrite length_drop. sizes. lia.
Qed.
Lemma wire_packet_rep nb l : legal nb l -> packet_rep l (wire_packet l).
Proof using All.
  intros Hl. pose proof (lg_text _ _ Hl) as Htx. pose proof (wire_room l) as Hd1.
  split; [|by eexists]. unfold wire_packet. rewrite !zlen_app, encode_pkt_len.
  unfold zlen at 2. rewrite length_drop. pose proof (payload_len l). unfold zlen in *. sizes. lia.
Qed.
Lemma Network_Send_packet nb a n q us bx ws lost l rest :
  node_rep nb a n q us bx -> legal nb l -> l_from l = a ->
  Network_Send junk lost (pkt_of l) (payload l ++ rest) (mkLoc n ws) =
    (if lost then mret tt else SendToSocket (wire_packet l) (l_to l))
      (mkLoc (mkNode (office n) (sendDones n + 1) (senders n) (woken n) (buffer n)) ws).
Proof using All.
  intros [[Ha Hi] [Hb _] Hbusy _ _ _ _ _ _] Hl Hfrom.
  pose proof (lg_text _ _ Hl) as Htx. pose proof (zlen_nonneg (l_text l)) as H0.
  unfold Network_Send. rewrite (st_bind_Ok _ _ _ (office n) (mkLoc n ws)) by done.
  rewrite (st_bind_Ok (assert_ _) _ _ tt (mkLoc n ws)).
  2:{ unfold assert_. fields. rewrite Hbusy, Hi, Hfrom. cbn [negb andb]. rewrite Z.eqb_refl.
      by rewrite (proj2 (Z.ltb_lt _ _)), (proj2 (Z.leb_le _ _)) by (sizes; lia). }
  rewrite (st_bind_Ok schedule_SendDone _ _ tt
    (mkLoc (mkNode (office n) (sendDones n + 1) (senders n) (woken n) (buffer n)) ws)) by done.
  destruct lost; [done|].
  rewrite (lift_bind_Ok _ _ _ _ (bytes_to_front (encode_pkt (pkt_of l)) (junk MaxWireSize)
    ltac:(rewrite encode_pkt_len, junk_len by done; sizes; lia))).
  rewrite (lift_bind_Ok _ _ _ (payload l)).
  2:{ change (pkt_length (pkt_of l)) with (zlen (l_text l) + sizeof_MailHeader). rewrite <-payload_len.
      apply bytes_from_front. }
  rewrite (lift_bind_Ok _ _ _ (wire_packet l)); [done|]. rewrite <-(encode_pkt_len (pkt_of l)).
  rewrite bytes_to_behind by (rewrite wire_room, payload_len; sizes; lia). done.
Qed.
Lemma Send_packet nb a n q us bx ws lost pktH mailH msg :
  node_rep nb a n q us bx -> typed nb pktH mailH -> sendable nb mailH msg -> is_int a ->
  let l := letter_of a pktH mailH msg in
  exists p, packet_rep l p /\
    Send junk lost pktH mailH msg (mkLoc n ws) =
      if lost then Ok (tt, mkLoc (after_send n) ws)
      else match ws !! l_to l with
           | None => AssertFail
           | Some q => Ok (tt, mkLoc (after_send n) (<[l_to l := q ++ [p]]> ws))
           end.
Proof.
  intros Hrep Hty Hsb Hai l. pose proof Hrep as [[Ha _] [Hb _] _ _ _ _ _ _ _].
  destruct (letter_of_legal nb a pktH mailH msg Hty Hsb Hai) as [Hl Hm]. fold l in Hl, Hm.
  destruct Hsb as [B1 B2 B3]. pose proof (ty_length _ _ _ Hty) as Hlen. pose proof (zlen_nonneg (l_text l)) as H0.
  pose proof (lg_text _ _ Hl) as Htx.
  assert (mail_length mailH = zlen (l_text l)) as Hml by (by rewrite <-Hm).
  set (buf := payload l ++ drop (length (l_text l)) (drop (length (encode_mail mailH)) (junk MaxPacketSize))).
  assert (zlen (drop (length (encode_mail mailH)) (junk MaxPacketSize)) = MaxMailSize) as Hd2.
  { pose proof (encode_mail_len mailH) as He. pose proof (junk_len MaxPacketSize ltac:(done)) as Hj.
    unfold zlen in *. rewrite length_drop. sizes. lia. }
  exists (wire_packet l). split; [by apply (wire_packet_rep nb)|].
  unfold Send. rewrite (st_bind_Ok _ _ _ (office n) (mkLoc n ws)) by done.
  rewrite (st_bind_Ok (assert_ _) _ _ tt (mkLoc n ws)) by (unfold assert_; by rewrite (proj2 (Z.leb_le _ _) B2)).
  rewrite (st_bind_Ok (assert_ _) _ _ tt (mkLoc n ws)).
  2:{ unfold assert_. by rewrite Hb, (proj2 (Z.leb_le _ _)), (proj2 (Z.ltb_lt _ _)) by lia. }
  rewrite Hml, to_uint_id by (sizes; unfold_int; lia). rewrite Ha.
  change (mkPkt (pkt_to pktH) a (zlen (l_text l) + sizeof_MailHeader)) with (pkt_of l).
  rewrite (lift_bind_Ok _ _ _ _ (bytes_to_front (encode_mail mailH) (junk MaxPacketSize)
    ltac:(rewrite encode_mail_len, junk_len by done; sizes; lia))).
  rewrite (lift_bind_Ok _ _ _ (l_text l)).
  2:{ rewrite bytes_from_ok by lia. by rewrite <-Hml. }
  rewrite (lift_bind_Ok _ _ _ buf).
  2:{ rewrite <-(encode_mail_len mailH). rewrite bytes_to_behind by (rewrite Hd2; done).
      unfold buf, payload. by rewrite Hm, <-app_assoc. }
  unfold buf. unfold mbind at 1, st_bind at 1.
  rewrite (Network_Send_packet nb a n q us bx) by done.
  destruct lost; [done|]. unfold SendToSocket. fields. by destruct (ws !! l_to l).
Qed.
Lemma Send_sendable nb n ws lost pktH mailH msg r :
  numBoxes (office n) = nb -> is_uint (mail_length mailH) ->
  Send junk lost pktH mailH msg (mkLoc n ws) = Ok r -> sendable nb mailH msg.
Proof.
  intros Hb Hl Hs. unfold Send in Hs. rewrite (st_bind_Ok _ _ _ (office n) (mkLoc n ws)) in Hs by done.
  unfold assert_ at 1, mbind at 1, st_bind at 1 in Hs. destruct (Z.leb_spec (mail_length mailH) MaxMailSize); [|done].
  unfold assert_ at 1, mbind at 1, st_bind at 1 in Hs. rewrite Hb in Hs.
  destruct ((0 <=? mail_to mailH) && (mail_to mailH <? nb)) eqn:E; [|done].
  apply andb_true_iff in E as [E1%Z.leb_le E2%Z.ltb_lt].
  rewrite (lift_bind_Ok _ _ _ _ (bytes_to_front (encode_mail mailH) (junk MaxPacketSize)
    ltac:(rewrite encode_mail_len, junk_len by done; sizes; lia))) in Hs.
  unfold lift at 1, mbind at 1, st_bind at 1 in Hs. unfold bytes_from in Hs.
  destruct (Z.leb_spec (0 + mail_length mailH) (zlen msg)); [by split|done].
Qed.
Lemma after_send_rep nb a n q us bx : node_rep nb a n q us bx -> node_rep nb a (after_send n) q us bx.
Proof.
  intros [Ha Hb Hbusy Hs Hsd Hwk Hu Hleg Hbox]. split; try done. unfold after_send. fields. lia.
Qed.
(** A packet for the machine in its socket. *)
Lemma arrive_rep nb a n q us bx l p : node_rep nb a n q us bx -> packet_rep l p -> legal nb l -> l_to l = a ->
  node_rep nb a n (q ++ [p]) (us ++ [l]) bx.
Proof.
  intros [Ha Hb Hbusy Hs Hsd Hwk (cur & rest & -> & Hf & Hc) Hleg Hbox] Hp Hl Hto. split; try done.
  - exists cur, (rest ++ [l]). rewrite <-app_assoc. split; [done|]. split; [|done]. apply Forall2_app; [done|]. by constructor.
  - apply Forall_app. split; [done|]. constructor; [done|constructor].
Qed.
End rep.

(** ** The network as it is meant: queues of letters *)

(** The letters under way to each machine, and in its boxes. *)
Record mails := mkMails { under : Z -> list letter; inboxes : Z -> Z -> list letter }.
Definition at_machine {A} (f : Z -> A) (a : Z) (x : A) : Z -> A := fun b => if decide (b = a) then x else f b.
Definition spec_step (e : event) (m : mails) : option mails :=
  match e with
  | ENone => Some m
  | ESent l => Some (mkMails (at_machine (under m) (l_to l) (under m (l_to l) ++ [l])) (inboxes m))
  | EDelivered a =>
      match under m a with
      | l :: r => Some (mkMails (at_machine (under m) a r) (at_machine (inboxes m) a (put_in (inboxes m a) l)))
      | [] => None
      end
  | EReceived a k l =>
      match inboxes m a k with
      | l' :: r => if decide (l' = l)
                   then Some (mkMails (under m) (at_machine (inboxes m) a (take_from (inboxes m a) k r)))
                   else None
      | [] => None
      end
  end.
Definition no_mails : mails := mkMails (fun _ => []) (fun _ _ => []).

Definition world_rep (nb : Z) (w : world) (m : mails) : Prop :=
  (forall a, is_Some (nodes w !! a) <-> is_Some (sockets w !! a)) /\
  forall a n, nodes w !! a = Some n -> is_int a /\
    exists q, sockets w !! a = Some q /\ node_rep nb a n q (under m a) (inboxes m a).

Section refinement.
Context (junk : Z -> list Z).
Hypothesis junk_len : forall n, 0 <= n -> zlen (junk n) = n.

(** Replacing the machine [a], its socket and its letters. *)
Lemma world_rep_at nb w m a n q n' q' us' bx' :
  world_rep nb w m -> nodes w !! a = Some n -> sockets w !! a = Some q -> node_rep nb a n' q' us' bx' ->
  world_rep nb (mkWorld (<[a := n']> (nodes w)) (<[a := q']> (sockets w)))
    (mkMails (at_machine (under m) a us') (at_machine (inboxes m) a bx')).
Proof.
  intros [Hd Hw] Hn Hq Hn'. split; simpl.
  - intros b. destruct (decide (b = a)) as [->|]; [by rewrite !lookup_insert_eq|by rewrite !lookup_insert_ne].
  - intros b n0 Hb. unfold at_machine. destruct (decide (b = a)) as [->|].
    + rewrite lookup_insert_eq in Hb. injection Hb as <-. split; [by destruct (Hw a n Hn)|].
      exists q'. by rewrite lookup_insert_eq.
    + rewrite lookup_insert_ne in Hb by done. rewrite lookup_insert_ne by done. by apply Hw.
Qed.
Lemma at_machine_same {A} (f : Z -> A) a b : at_machine f a (f a) b = f b.
Proof. unfold at_machine. by case_decide as H; [rewrite H|]. Qed.
(** Only what the letters are matters. *)
Lemma node_rep_ext nb a n q us us' bx bx' :
  us = us' -> (forall k, bx k = bx' k) -> node_rep nb a n q us bx -> node_rep nb a n q us' bx'.
Proof. intros <- He [? ? ? ? ? ? ? ? Hb]. split; try done. intros k b Hk. rewrite <-He. by apply Hb. Qed.
Lemma world_rep_ext nb w m m' :
  (forall a, under m a = under m' a) -> (forall a k, inboxes m a k = inboxes m' a k) -> world_rep nb w m -> world_rep nb w m'.
Proof.
  intros H1 H2 [Hd Hw]. split; [done|]. intros a n Hn. destruct (Hw a n Hn) as (Hi & q & Hq & Hr). split; [done|].
  exists q. split; [done|].
  apply (node_rep_ext nb a n q (under m a) _ (inboxes m a)); [apply H1|apply H2|done].
Qed.
(** Steps of machine [a] that are not seen outside. *)
Lemma silent_rep nb w m a n q n' q' :
  world_rep nb w m -> nodes w !! a = Some n -> sockets w !! a = Some q ->
  node_rep nb a n' q' (under m a) (inboxes m a) ->
  world_rep nb (mkWorld (<[a := n']> (nodes w)) (<[a := q']> (sockets w))) m.
Proof.
  intros Hw Hn Hq Hr. eapply world_rep_ext; [| |exact (world_rep_at nb w m a n q n' q' _ _ Hw Hn Hq Hr)].
  - intros b. apply at_machine_same.
  - intros b k. simpl. by rewrite at_machine_same.
Qed.
(** A packet put in the socket of a machine. *)
Lemma sent_rep nb w m l p q :
  world_rep nb w m -> sockets w !! l_to l = Some q -> packet_rep l p -> legal nb l ->
  world_rep nb (mkWorld (nodes w) (<[l_to l := q ++ [p]]> (sockets w)))
    (mkMails (at_machine (under m) (l_to l) (under m (l_to l) ++ [l])) (inboxes m)).
Proof.
  intros Hw Hq Hp Hl. destruct (proj2 (proj1 Hw (l_to l)) ltac:(by eexists)) as [n Hn].
  destruct (proj2 Hw _ _ Hn) as (_ & q0 & Hq0 & Hr). assert (q0 = q) as -> by congruence.
  pose proof (world_rep_at nb w m (l_to l) n q n _ _ _ Hw Hn Hq (arrive_rep _ _ _ _ _ _ _ _ Hr Hp Hl eq_refl)) as H.
  rewrite (insert_id (nodes w)) in H by done. eapply world_rep_ext; [| |exact H]; [done|].
  intros a k. simpl. by rewrite at_machine_same.
Qed.

Lemma silent_same nb w m a n q n' :
  world_rep nb w m -> nodes w !! a = Some n -> sockets w !! a = Some q ->
  node_rep nb a n' q (under m a) (inboxes m a) ->
  world_rep nb (mkWorld (<[a := n']> (nodes w)) (sockets w)) m.
Proof. intros Hw Hn Hq Hr. pose proof (silent_rep nb w m a n q n' q Hw Hn Hq Hr) as H. by rewrite (insert_id (sockets w)) in H by done. Qed.

Lemma send_refines nb w m a n q lost pktH mailH msg e n' ws' :
  world_rep nb w m -> nodes w !! a = Some n -> is_int a -> sockets w !! a = Some q ->
  node_rep nb a n q (under m a) (inboxes m a) -> typed nb pktH mailH ->
  perform junk a (ASend lost pktH mailH msg) (mkLoc n (sockets w)) = Ok (e, mkLoc n' ws') ->
  exists m', spec_step e m = Some m' /\ world_rep nb (mkWorld (<[a := n']> (nodes w)) ws') m'.
Proof.
  intros Hw Hn Hi Hq Hr Hty Hp. unfold perform, mbind, st_bind in Hp.
  destruct (Send junk lost pktH mailH msg (mkLoc n (sockets w))) as [[[] s']| | | |] eqn:E; try done.
  pose proof (Send_sendable junk junk_len nb _ _ _ _ _ _ _ (proj1 (nr_boxes _ _ _ _ _ _ Hr)) (ty_length _ _ _ Hty) E) as Hsb.
  destruct (Send_packet junk junk_len nb a n q _ _ (sockets w) lost pktH mailH msg Hr Hty Hsb Hi) as (p & Hpk & Hs).
  destruct (letter_of_legal nb a pktH mailH msg Hty Hsb Hi) as [Hl _]. rewrite E in Hs.
  pose proof (silent_same nb w m a n q (after_send n) Hw Hn Hq (after_send_rep _ _ _ _ _ _ Hr)) as Hw1.
  destruct lost.
  - injection Hs as ->. injection Hp as <- <- <-. by exists m.
  - destruct (sockets w !! l_to (letter_of a pktH mailH msg)) as [q0|] eqn:E0; [|done].
    injection Hs as ->. injection Hp as <- <- <-. eexists. split; [reflexivity|].
    exact (sent_rep nb _ m _ p q0 Hw1 E0 Hpk Hl).
Qed.
Lemma letter_eta l : mkLetter (l_to l) (l_from l) (l_box l) (l_reply l) (l_text l) = l.
Proof. by destruct l. Qed.

Lemma step_refines nb w m e w' :
  world_rep nb w m -> step junk w e w' -> exists m', spec_step e m = Some m' /\ world_rep nb w' m'.
Proof.
  intros Hw [a act n n' ws' Hn Hty Hp]. destruct (proj2 Hw a n Hn) as (Hi & q & Hq & Hr).
  pose proof (nr_boxes _ _ _ _ _ _ Hr) as [Hb _].
  destruct act as [lost pktH mailH msg| | | | | |box].
  - rewrite Hb in Hty. by eapply send_refines.
  - assert (0 < senders n /\ 0 < messageSent (office n)) as [H1 H2].
    { unfold perform in Hp. cbn [me] in Hp. destruct (Z.ltb_spec 0 (senders n)), (Z.ltb_spec 0 (messageSent (office n))); done. }
    destruct (sent_ok junk nb a n q _ _ (sockets w) Hr H1 H2) as (n1 & E & Hr1). rewrite E in Hp. injection Hp as <- <- <-.
    exists m. split; [done|]. by eapply silent_same.
  - assert (0 < sendDones n) as H1.
    { unfold perform in Hp. cbn [me] in Hp. by destruct (Z.ltb_spec 0 (sendDones n)). }
    destruct (senddone_ok junk nb a n q _ _ (sockets w) Hr H1) as (n1 & E & Hr1). rewrite E in Hp. injection Hp as <- <- <-.
    exists m. split; [done|]. by eapply silent_same.
  - destruct (net_poll_ok nb a n q _ _ (sockets w) Hr Hq) as (n1 & q1 & E & Hr1 & _).
    unfold perform in Hp. rewrite (st_bind_Ok _ _ _ _ _ E) in Hp. injection Hp as <- <- <-.
    exists m. split; [done|]. by eapply silent_rep.
  - assert (woken n = false /\ 0 < messageAvailable (office n)) as [H1 H2].
    { unfold perform in Hp. cbn [me] in Hp. destruct (woken n), (Z.ltb_spec 0 (messageAvailable (office n))); done. }
    destruct (wake_ok junk nb a n q _ _ (sockets w) Hr H1 H2) as (n1 & E & Hr1 & _). rewrite E in Hp. injection Hp as <- <- <-.
    exists m. split; [done|]. by eapply silent_same.
  - unfold perform in Hp. cbn [me] in Hp. destruct (woken n) eqn:Hwk; [|done].
    destruct (deliver_ok junk junk_len nb a n q _ _ (sockets w) Hr Hwk) as (l & us' & n1 & Hus & E & Hr1 & _).
    rewrite (st_bind_Ok _ _ _ _ _ E) in Hp. injection Hp as <- <- <-. unfold spec_step. rewrite Hus.
    eexists. split; [reflexivity|]. pose proof (world_rep_at nb w m a n q n1 q _ _ Hw Hn Hq Hr1) as H.
    by rewrite (insert_id (sockets w)) in H by done.
  - unfold perform in Hp. destruct (decide (0 <= box < nb)) as [Hbx|Hbx].
    2:{ unfold mbind, st_bind in Hp. by rewrite (receive_out nb a n q _ _ _ _ Hr Hbx) in Hp. }
    destruct (inboxes m a box) as [|l r] eqn:Hin.
    { unfold mbind, st_bind in Hp. by rewrite (receive_empty nb a n q _ _ _ _ Hr Hbx Hin) in Hp. }
    destruct (receive_ok nb a n q _ _ (sockets w) _ _ _ Hr Hbx Hin) as (n1 & E & Hr1).
    rewrite (st_bind_Ok _ _ _ _ _ E) in Hp. injection Hp as <- <- <-. unfold spec_step. rewrite Hin, letter_eta.
    rewrite decide_True by done. eexists. split; [reflexivity|].
    pose proof (world_rep_at nb w m a n q n1 q _ _ Hw Hn Hq Hr1) as H. rewrite (insert_id (sockets w)) in H by done.
    eapply world_rep_ext; [| |exact H]; [|done]. intros b. simpl. apply at_machine_same.
Qed.
End refinement.

(** ** What was sent and what was received *)

Definition sent_to (es : list event) (a k : Z) : list letter :=
  omap (fun e => match e with
                 | ESent l => if decide (l_to l = a /\ l_box l = k) then Some l else None
                 | _ => None
                 end) es.
Definition received_by (es : list event) (a k : Z) : list letter :=
  omap (fun e => match e with
                 | EReceived b j l => if decide (b = a /\ j = k) then Some l else None
                 | _ => None
                 end) es.
Definition for_box (k : Z) (us : list letter) : list letter := filter (fun l => l_box l = k) us.
Definition accounted (es : list event) (m : mails) : Prop :=
  forall a k, sent_to es a k = received_by es a k ++ inboxes m a k ++ for_box k (under m a).

Lemma accounted_step es e m m' : accounted es m -> spec_step e m = Some m' -> accounted (es ++ [e]) m'.
Proof.
  intros Hacc Hs a k. specialize (Hacc a k). unfold sent_to, received_by in *. rewrite !omap_app, Hacc.
  destruct e as [l|b|b j l|]; simpl in Hs |- *.
  - injection Hs as <-. simpl. unfold at_machine, for_box. rewrite app_nil_r, <-!app_assoc. do 2 f_equal.
    destruct (decide (a = l_to l)) as [->|Hne].
    + rewrite filter_app, filter_cons, filter_nil. repeat case_decide; try done; naive_solver.
    + rewrite decide_False by naive_solver. by rewrite app_nil_r.
  - destruct (under m b) as [|l r] eqn:Hu; [done|]. injection Hs as <-. simpl. rewrite !app_nil_r. f_equal.
    unfold at_machine, put_in, for_box. destruct (decide (a = b)) as [->|]; [|done].
    rewrite Hu, filter_cons. repeat case_decide; try congruence. by rewrite <-app_assoc.
  - destruct (inboxes m b j) as [|l' r] eqn:Hi; [done|]. case_decide as He; [|done]. injection Hs as <-. subst l'. simpl.
    rewrite app_nil_r, <-app_assoc. f_equal. unfold at_machine, take_from.
    destruct (decide (b = a /\ j = k)) as [[-> ->]|Hne]; simpl.
    + rewrite !decide_True by done. by rewrite Hi.
    + destruct (decide (a = b)) as [->|]; [|done]. by rewrite decide_False by naive_solver.
  - injection Hs as <-. by rewrite !app_nil_r.
Qed.
Lemma lookup_tabled {A} (f : Z -> A) (l : list Z) a :
  (list_to_map ((fun b => (b, f b)) <$> l) : gmap Z A) !! a = if decide (a ∈ l) then Some (f a) else None.
Proof.
  induction l as [|b l IH]; [done|]. rewrite fmap_cons, list_to_map_cons. destruct (decide (b = a)) as [->|Hne].
  - rewrite lookup_insert_eq, decide_True; [done|]. apply list_elem_of_here.
  - rewrite lookup_insert_ne, IH by done. by destruct (decide (a ∈ l)), (decide (a ∈ b :: l)); set_solver.
Qed.

Section network.
Context (junk : Z -> list Z).
Hypothesis junk_len : forall n, 0 <= n -> zlen (junk n) = n.

Lemma boot_world_rep nb addrs : 0 <= nb -> Forall is_int addrs -> world_rep nb (boot junk nb addrs) no_mails.
Proof.
  intros Hnb Hf. split; simpl.
  - intros a. rewrite !lookup_tabled. by case_decide.
  - intros a n. rewrite !lookup_tabled. case_decide as Ha; [|done]. intros [= <-].
    split; [by apply (Forall_forall is_int addrs)|]. exists []. split; [done|]. by apply boot_rep.
Qed.
Lemma steps_refine nb w0 m0 es w :
  world_rep nb w0 m0 -> accounted [] m0 -> steps junk w0 es w -> exists m, world_rep nb w m /\ accounted es m.
Proof.
  intros Hw Hacc. induction 1 as [|es e w1 w2 _ (m1 & Hm1 & Ha1) Hstep]; [by exists m0|].
  destruct (step_refines junk junk_len nb w1 m1 e w2 Hm1 Hstep) as (m2 & Hs & Hm2).
  exists m2. split; [done|]. by eapply accounted_step.
Qed.
Lemma steps_app w es w1 es1 w2 : steps junk w es w1 -> steps junk w1 es1 w2 -> steps junk w (es ++ es1) w2.
Proof.
  intros H0. induction 1 as [|es1 e w1' w2 _ IH Hs]; [by rewrite app_nil_r|]. rewrite app_assoc.
  econstructor; [by apply IH|done].
Qed.
Lemma steps_one w e w1 : step junk w e w1 -> steps junk w [e] w1.
Proof. intros H. exact (steps_snoc junk w [] e w w1 (steps_nil junk w) H). Qed.
Lemma silent_step nb w m w' : world_rep nb w m -> step junk w ENone w' -> world_rep nb w' m.
Proof. intros Hw Hs. destruct (step_refines junk junk_len nb w m _ w' Hw Hs) as (m' & [= <-] & H). done. Qed.

(** With a letter under way, the poll and the wait of the worker succeed. *)
Lemma can_wake nb w m a n :
  world_rep nb w m -> nodes w !! a = Some n -> under m a <> [] ->
  exists es w1 n1, steps junk w es w1 /\ Forall (fun e => e = ENone) es /\ world_rep nb w1 m /\
    nodes w1 !! a = Some n1 /\ woken n1 = true.
Proof.
  intros Hw Hn Hu. destruct (woken n) eqn:Hwk; [by exists [], w, n; split; [constructor|]|].
  destruct (proj2 Hw a n Hn) as (_ & q & Hq & Hr).
  destruct (net_poll_ok nb a n q _ _ (sockets w) Hr Hq) as (n1 & q1 & E & Hr1 & Hne & Hwk1).
  set (w1 := mkWorld (<[a := n1]> (nodes w)) (<[a := q1]> (sockets w))).
  assert (step junk w ENone w1) as Hs1.
  { apply (step_at junk w ENone a APoll n n1); [done|done|]. unfold perform. by rewrite (st_bind_Ok _ _ _ _ _ E). }
  assert (0 < messageAvailable (office n1)) as Hav.
  { pose proof (nr_worker _ _ _ _ _ _ Hr1) as [_ Hk]. rewrite Hwk1, Hwk in Hk.
    rewrite (proj2 (Z.eqb_neq _ _)) in Hk; [lia|]. intros H0. by apply Hu, Hne. }
  destruct (wake_ok junk nb a n1 q1 _ _ (sockets w1) Hr1 ltac:(congruence) Hav) as (n2 & E2 & Hr2 & Hwk2).
  set (w2 := mkWorld (<[a := n2]> (nodes w1)) (sockets w1)).
  assert (step junk w1 ENone w2) as Hs2.
  { apply (step_at junk w1 ENone a AWake n1 n2); [by apply lookup_insert_eq|done|exact E2]. }
  exists [ENone; ENone], w2, n2. split; [exact (steps_snoc junk _ [ENone] _ _ _ (steps_one _ _ _ Hs1) Hs2)|].
  split; [by repeat constructor|]. split; [by eapply silent_step; [eapply silent_step|]|].
  split; [by apply lookup_insert_eq|done].
Qed.
Lemma deliver_one nb w m a n l us :
  world_rep nb w m -> nodes w !! a = Some n -> under m a = l :: us ->
  exists es w' m' n', steps junk w es w' /\ Forall (fun e => e = ENone \/ e = EDelivered a) es /\ world_rep nb w' m' /\
    nodes w' !! a = Some n' /\ under m' a = us /\ forall k, inboxes m' a k = inboxes m a k ++ for_box k [l].
Proof.
  intros Hw Hn Hu. destruct (can_wake nb w m a n Hw Hn ltac:(by rewrite Hu)) as (es & w1 & n1 & Hst & Hf & Hw1 & Hn1 & Hwk).
  destruct (proj2 Hw1 a n1 Hn1) as (_ & q & Hq & Hr).
  destruct (deliver_ok junk junk_len nb a n1 q _ _ (sockets w1) Hr Hwk) as (l' & us' & n2 & Hus & E & _ & _).
  set (w2 := mkWorld (<[a := n2]> (nodes w1)) (sockets w1)).
  assert (step junk w1 (EDelivered a) w2) as Hs.
  { apply (step_at junk w1 _ a ADeliver n1 n2); [done|done|]. unfold perform. cbn [me]. rewrite Hwk.
    by rewrite (st_bind_Ok _ _ _ _ _ E). }
  destruct (step_refines junk junk_len nb w1 m _ w2 Hw1 Hs) as (m2 & Hsp & Hw2). simpl in Hsp. rewrite Hu in Hsp.
  injection Hsp as <-. eexists (es ++ [EDelivered a]), w2, _, n2. split; [by econstructor|]. split.
  { apply Forall_app. split; [eapply Forall_impl; [exact Hf|]; by left|].
    constructor; [by right|constructor]. }
  split; [exact Hw2|]. split; [apply lookup_insert_eq|]. simpl. unfold at_machine. rewrite !decide_True by done.
  split; [done|]. intros k. unfold put_in, for_box. rewrite filter_cons, filter_nil.
  destruct (decide (k = l_box l)) as [->|]; [by rewrite decide_True|]. rewrite decide_False by congruence.
  by rewrite app_nil_r.
Qed.
Lemma deliver_all nb a us : forall w m n,
  world_rep nb w m -> nodes w !! a = Some n -> under m a = us ->
  exists es w' m', steps junk w es w' /\ Forall (fun e => e = ENone \/ e = EDelivered a) es /\ world_rep nb w' m' /\
    under m' a = [] /\ forall k, inboxes m' a k = inboxes m a k ++ for_box k us.
Proof.
  induction us as [|l us IH]; intros w m n Hw Hn Hu.
  - exists [], w, m. split; [constructor|]. split; [constructor|]. split; [done|]. split; [done|].
    intros k. by rewrite app_nil_r.
  - destruct (deliver_one nb w m a n l us Hw Hn Hu) as (es & w1 & m1 & n1 & Hs1 & Hf1 & Hw1 & Hn1 & Hu1 & Hi1).
    destruct (IH w1 m1 n1 Hw1 Hn1 Hu1) as (es2 & w2 & m2 & Hs2 & Hf2 & Hw2 & Hu2 & Hi2).
    exists (es ++ es2), w2, m2. split; [by eapply steps_app|]. split; [by apply Forall_app|].
    split; [done|]. split; [done|]. intros k. rewrite Hi2, Hi1, <-app_assoc. f_equal.
    unfold for_box. change (l :: us) with ([l] ++ us). by rewrite filter_app.
Qed.
End network.

(** C11. Mail between machines.  Whatever the machines do, in any order, for
    every machine and box: the letters sent to the box and not lost by the
    network are, in the order in which they were sent, those that were
    received from it, then those that lie in the box, then those under way to
    its machine.  So no letter is lost on the way, changed, duplicated or
    invented, letters arrive in order, and the bytes in sockets, device and
    boxes are images of exactly these letters. *)
Theorem mail_delivery (junk : Z -> list Z) (nb : Z) (addrs : list Z) (es : list event) (w : world) :
  (forall n, 0 <= n -> zlen (junk n) = n) -> 0 <= nb -> Forall is_int addrs ->
  steps junk (boot junk nb addrs) es w ->
  exists m, world_rep nb w m /\
    forall a k, sent_to es a k = received_by es a k ++ inboxes m a k ++ for_box k (under m a).
Proof.
  intros Hj Hnb Hf Hs. exact (steps_refine junk Hj nb _ no_mails es w (boot_world_rep junk Hj nb addrs Hnb Hf)
    ltac:(done) Hs).
Qed.

(** Mail arrives.  At any moment, the interrupts and the postal worker of
    a machine alone bring all the letters that are under way to it into their
    boxes, in order, without failing an assertion; and while threads wait in
    [Send], the end of a wait or the interrupt that ends one is possible. *)
Theorem mail_arrives (junk : Z -> list Z) (nb : Z) (w : world) (m : mails) (a : Z) (n : node) :
  (forall n, 0 <= n -> zlen (junk n) = n) -> world_rep nb w m -> nodes w !! a = Some n ->
  (exists es w' m', steps junk w es w' /\ Forall (fun e => e = ENone \/ e = EDelivered a) es /\ world_rep nb w' m' /\
     under m' a = [] /\ forall k, inboxes m' a k = inboxes m a k ++ for_box k (under m a)) /\
  (0 < senders n -> exists act n', (act = ASent \/ act = ASendDone) /\
     perform junk a act (mkLoc n (sockets w)) = Ok (ENone, mkLoc n' (sockets w))).
Proof.
  intros Hj Hw Hn. split; [by eapply deliver_all|]. intros Hs.
  destruct (proj2 Hw a n Hn) as (_ & q & _ & Hr). pose proof (nr_senders _ _ _ _ _ _ Hr) as (H1 & H2 & H3).
  destruct (decide (0 < messageSent (office n))) as [Hm|Hm].
  - destruct (sent_ok junk nb a n q _ _ (sockets w) Hr Hs Hm) as (n' & E & _). exists ASent, n'. by split; [left|].
  - destruct (senddone_ok junk nb a n q _ _ (sockets w) Hr ltac:(lia)) as (n' & E & _). exists ASendDone, n'.
    by split; [right|].
Qed.

(** ** A run: machine 0 sends "hi" to box 2 of machine 1 *)

Fixpoint run (junk : Z -> list Z) (acts : list (Z * action)) (w : world) : option (list event * world) :=
  match acts with
  | [] => Some ([], w)
  | (a, act) :: r =>
      match nodes w !! a with
      | None => None
      | Some n =>
          match perform junk a act (mkLoc n (sockets w)) with
          | Ok (e, s) =>
              match run junk r (mkWorld (<[a := me s]> (nodes w)) (wires s)) with
              | Some (es, w') => Some (e :: es, w')
              | None => None
              end
          | _ => None
          end
      end
  end.
Lemma run_steps junk nb acts : Forall (fun x => typed_action nb x.2) acts -> forall w es w' m,
  (forall n, 0 <= n -> zlen (junk n) = n) -> world_rep nb w m -> run junk acts w = Some (es, w') -> steps junk w es w'.
Proof.
  induction 1 as [|[a act] r Hty Hf IH]; intros w es w' m Hj Hw; simpl.
  - intros [= <- <-]. constructor.
  - destruct (nodes w !! a) as [n|] eqn:Hn; [|done].
    destruct (perform junk a act (mkLoc n (sockets w))) as [[e [n1 s1]]| | | |] eqn:Hp; try done. simpl.
    assert (step junk w e (mkWorld (<[a := n1]> (nodes w)) s1)) as Hs.
    { apply (step_at junk w e a act n); try done. destruct (proj2 Hw a n Hn) as (_ & q & _ & Hr).
      by rewrite (proj1 (nr_boxes _ _ _ _ _ _ Hr)). }
    destruct (step_refines junk Hj nb w m e _ Hw Hs) as (m1 & _ & Hw1).
    destruct (run junk r _) as [[es1 w1]|] eqn:Hr; [|done]. intros [= <- <-].
    change (e :: es1) with ([e] ++ es1). eapply steps_app; [by apply steps_one|]. by eapply IH.
Qed.
Definition zeros (n : Z) : list Z := replicate (Z.to_nat n) 0.
Definition hi : letter := mkLetter 1 0 2 5 [104; 105].
Definition hi_actions : list (Z * action) :=
  [(0, ASend false (mkPkt 1 0 0) (mkMailHdr 2 5 2) [104; 105]); (0, ASendDone); (1, APoll); (1, AWake);
   (1, ADeliver); (0, ASent); (1, AReceive 2)].
Definition hi_events : list event := [ESent hi; ENone; ENone; ENone; EDelivered 1; ENone; EReceived 1 2 hi].
Lemma zeros_len n : 0 <= n -> zlen (zeros n) = n.
Proof. intros. unfold zlen, zeros. rewrite length_replicate. lia. Qed.
Lemma two_machines : world_rep 10 (boot zeros 10 [0; 1]) no_mails.
Proof. apply boot_world_rep; [exact zeros_len|lia|repeat constructor; unfold_int; lia]. Qed.
Lemma hi_run : exists w, steps zeros (boot zeros 10 [0; 1]) hi_events w.
Proof.
  assert (fst <$> run zeros hi_actions (boot zeros 10 [0; 1]) = Some hi_events) as Hr by (vm_compute; reflexivity).
  destruct (run zeros hi_actions (boot zeros 10 [0; 1])) as [[es w]|] eqn:E; [|done]. injection Hr as ->. exists w.
  eapply (run_steps zeros 10 hi_actions); [|exact zeros_len|exact two_machines|exact E].
  unfold hi_actions. constructor; [by split; unfold_int; simpl; lia|]. repeat constructor.
Qed.

Lemma mail_delivery_witness :
  exists w m, world_rep 10 w m /\ sent_to hi_events 1 2 = [hi] /\ received_by hi_events 1 2 = [hi] /\
    sent_to hi_events 1 2 = received_by hi_events 1 2 ++ inboxes m 1 2 ++ for_box 2 (under m 1).
Proof.
  destruct hi_run as [w Hs].
  destruct (mail_delivery zeros 10 [0; 1] hi_events w zeros_len ltac:(lia)
    ltac:(repeat constructor; unfold_int; lia) Hs) as (m & Hw & Hm).
  exists w, m. split; [exact Hw|]. split; [reflexivity|]. split; [reflexivity|]. exact (Hm 1 2).
Defined.
(** The same letter when it has just been sent. *)
Lemma hi_sent : exists w n m, steps zeros (boot zeros 10 [0; 1]) [ESent hi] w /\ nodes w !! 1 = Some n /\
  world_rep 10 w m /\ accounted [ESent hi] m.
Proof.
  assert ((fun x => (x.1, bool_decide (is_Some (nodes x.2 !! 1)))) <$> run zeros (take 1 hi_actions) (boot zeros 10 [0; 1]) =
    Some ([ESent hi], true)) as Hr by (vm_compute; reflexivity).
  destruct (run zeros (take 1 hi_actions) (boot zeros 10 [0; 1])) as [[es w]|] eqn:E; [|done].
  injection Hr as -> Hb%bool_decide_eq_true_1. destruct Hb as [n Hn]. simpl in Hn.
  assert (steps zeros (boot zeros 10 [0; 1]) [ESent hi] w) as Hs.
  { eapply (run_steps zeros 10 (take 1 hi_actions)); [|exact zeros_len|exact two_machines|exact E].
    constructor; [by split; unfold_int; simpl; lia|constructor]. }
  destruct (steps_refine zeros zeros_len 10 _ no_mails _ w two_machines ltac:(done) Hs) as (m & Hw & Ha).
  by exists w, n, m.
Qed.
Lemma mail_arrives_witness :
  exists w es w' m', steps zeros (boot zeros 10 [0; 1]) [ESent hi] w /\ steps zeros w es w' /\
    world_rep 10 w' m' /\ inboxes m' 1 2 = [hi].
Proof.
  destruct hi_sent as (w & n & m & Hs & Hn & Hw & Ha).
  destruct (mail_arrives zeros 10 w m 1 n zeros_len Hw Hn) as [(es & w' & m' & Hs' & _ & Hw' & _ & Hi) _].
  exists w, es, w', m'. split; [exact Hs|]. split; [exact Hs'|]. split; [exact Hw'|].
  rewrite Hi. symmetry. exact (Ha 1 2).
Defined.
