(* ===== verification/Coff2Noff.v ===== *)
(** * bin/coff2noff.c: from object files to Nachos executables

    The tool reads a MIPS COFF file and writes the NOFF file that the address
    spaces of AddrSpace load.  [coff] is the input file; the state of the tool
    is the position in it and the output file with its position.  [Halted] is
    the end with a message and without an output file ([exit(1)]).  [junk] is
    what the header holds before it is filled in.  The host is little-endian,
    [long] has 32 bits; the disk of the host does not run full; what is printed
    is left out. *)

From stdpp Require Import list.
From S2P Require Import Prelude StubFS BitMap Disk Machine AddrSpace.
#[local] Open Scope Z_scope.

(** ** bin/coff.h *)

Definition MIPSELMAGIC : Z := 354.
Definition OMAGIC : Z := 263.
Definition sizeof_filehdr : Z := 20.
Definition sizeof_aouthdr : Z := 56.
Definition sizeof_scnhdr : Z := 40.
Definition sizeof_NoffHeader : Z := 40.

Definition short_at (bs : list Z) (off : Z) : Z := le_value (slice off 2 bs).
Definition long_at (bs : list Z) (off : Z) : Z := to_int (le_value (slice off 4 bs)).
(** The fields that the tool looks at. *)
Record filehdr := mkFilehdr { f_magic : Z; f_nscns : Z }.
Record aouthdr := mkAouthdr { magic : Z }.
Record scnhdr := mkScnhdr { s_name : list Z; s_paddr : Z; s_size : Z; s_scnptr : Z }.
Definition parse_filehdr (bs : list Z) : filehdr := mkFilehdr (short_at bs 0) (short_at bs 2).
Definition parse_aouthdr (bs : list Z) : aouthdr := mkAouthdr (short_at bs 0).
Definition parse_scnhdr (bs : list Z) : scnhdr :=
  mkScnhdr (slice 0 8 bs) (long_at bs 8) (long_at bs 16) (long_at bs 20).
Definition parse_sections (n : nat) (raw : list Z) : list scnhdr :=
  (fun i => parse_scnhdr (slice (Z.of_nat i * sizeof_scnhdr) sizeof_scnhdr raw)) <$> seq 0 n.

(** [!strcmp(s_name, name)]: the names compared are shorter than the array. *)
Definition named_ (s : scnhdr) (name : list Z) : bool :=
  bool_decide (take (S (length name)) (s_name s) = name ++ [0]).
Definition text_name : list Z := [46; 116; 101; 120; 116].
Definition data_name : list Z := [46; 100; 97; 116; 97].
Definition rdata_name : list Z := [46; 114; 100; 97; 116; 97].
Definition bss_name : list Z := [46; 98; 115; 115].
Definition sbss_name : list Z := [46; 115; 98; 115; 115].

Definition encode_noff (h : NoffHeader) : list Z :=
  bytes_of_ints [noffMagic h;
    virtualAddr (code h); inFileAddr (code h); size (code h);
    virtualAddr (initData h); inFileAddr (initData h); size (initData h);
    virtualAddr (uninitData h); inFileAddr (uninitData h); size (uninitData h)].
Definition set_code (h : NoffHeader) (s : Segment) : NoffHeader := mkNoffHeader (noffMagic h) s (initData h) (uninitData h).
Definition set_initData (h : NoffHeader) (s : Segment) : NoffHeader := mkNoffHeader (noffMagic h) (code h) s (uninitData h).
Definition set_uninitData (h : NoffHeader) (s : Segment) : NoffHeader := mkNoffHeader (noffMagic h) (code h) (initData h) s.

(** ** The tool *)

Record tool := mkTool { inpos : Z; out : list Z; outpos : Z }.
Section tool.
Context (coff : list Z).

(** [read] and [write] return -1 for a negative count. *)
Definition c2n_Read (nBytes : Z) : st tool (list Z) := fun t =>
  let bs := slice (inpos t) nBytes coff in
  let r := if nBytes <? 0 then -1 else zlen bs in
  if negb (r =? nBytes) then Halted else Ok (bs, mkTool (inpos t + zlen bs) (out t) (outpos t)).
Definition c2n_Write (bs : list Z) (nBytes : Z) : st tool unit := fun t =>
  let r := if nBytes <? 0 then -1 else nBytes in
  if negb (r =? nBytes) then Halted
  else
    let bs := take (Z.to_nat nBytes) bs in
    Ok (tt, mkTool (inpos t) (overwrite (out t) (outpos t) bs) (outpos t + zlen bs)).
(** A negative offset is refused and nobody looks. *)
Definition lseek_in (off : Z) : st tool unit := fun t =>
  Ok (tt, if off <? 0 then t else mkTool off (out t) (outpos t)).
Definition lseek_out (off : Z) : st tool unit := fun t =>
  Ok (tt, if off <? 0 then t else mkTool (inpos t) (out t) off).

Definition copy_section (s : scnhdr) : st tool unit :=
  lseek_in (s_scnptr s);;
  buffer ← c2n_Read (s_size s);
  c2n_Write buffer (s_size s).

(** The body of the loop over the sections, on [noffH] and [inNoffFile]. *)
Definition do_section (s : scnhdr) (x : NoffHeader * Z) : st tool (NoffHeader * Z) :=
  let '(noffH, inNoffFile) := x in
  if s_size s =? 0 then mret (noffH, inNoffFile)
  else if named_ s text_name then
    let noffH := set_code noffH (mkSegment (s_paddr s) inNoffFile (s_size s)) in
    copy_section s;;
    mret (noffH, to_int (inNoffFile + s_size s))
  else if named_ s data_name || named_ s rdata_name then
    if negb (size (initData noffH) =? 0) then lift Halted
    else
      let noffH := set_initData noffH (mkSegment (s_paddr s) inNoffFile (s_size s)) in
      copy_section s;;
      mret (noffH, to_int (inNoffFile + s_size s))
  else if named_ s bss_name || named_ s sbss_name then
    let u := uninitData noffH in
    if negb (size u =? 0) then
      if s_paddr s =? to_int (virtualAddr u + size u) then lift Halted
      else mret (set_uninitData noffH (mkSegment (virtualAddr u) (inFileAddr u) (to_int (size u + s_size s))), inNoffFile)
    else mret (set_uninitData noffH (mkSegment (s_paddr s) (inFileAddr u) (s_size s)), inNoffFile)
  else lift Halted.
Fixpoint do_sections (ss : list scnhdr) (x : NoffHeader * Z) : st tool (NoffHeader * Z) :=
  match ss with
  | [] => mret x
  | s :: r => x ← do_section s x; do_sections r x
  end.

Definition noff_init (junk : NoffHeader) : NoffHeader :=
  mkNoffHeader NOFFMAGIC (mkSegment (virtualAddr (code junk)) (inFileAddr (code junk)) 0)
    (mkSegment (virtualAddr (initData junk)) (inFileAddr (initData junk)) 0)
    (mkSegment (virtualAddr (uninitData junk)) (inFileAddr (uninitData junk)) 0).

Definition coff2noff_main (junk : NoffHeader) : st tool unit :=
  fileh ← c2n_Read sizeof_filehdr;
  let fileh := parse_filehdr fileh in
  if negb (f_magic fileh =? MIPSELMAGIC) then lift Halted
  else
    systemh ← c2n_Read sizeof_aouthdr;
    if negb (magic (parse_aouthdr systemh) =? OMAGIC) then lift Halted
    else
      let numsections := f_nscns fileh in
      raw ← c2n_Read (numsections * sizeof_scnhdr);
      let sections := parse_sections (Z.to_nat numsections) raw in
      lseek_out sizeof_NoffHeader;;
      '(noffH, _) ← do_sections sections (noff_init junk, sizeof_NoffHeader);
      lseek_out 0;;
      c2n_Write (encode_noff noffH) sizeof_NoffHeader.
(** The output file of a run, empty when it starts. *)
Definition coff2noff (junk : NoffHeader) : res (list Z) :=
  '(_, t) ← coff2noff_main junk (mkTool 0 [] 0); Ok (out t).
End tool.

(** ** What a section is *)

Inductive kind := KNone | KText | KData | KBss | KUnknown.
#[export] Instance kind_eq_dec : EqDecision kind.
Proof. solve_decision. Defined.
Definition kind_of (s : scnhdr) : kind :=
  if s_size s =? 0 then KNone
  else if named_ s text_name then KText
  else if named_ s data_name || named_ s rdata_name then KData
  else if named_ s bss_name || named_ s sbss_name then KBss
  else KUnknown.
Definition of_kind (k : kind) (ss : list scnhdr) : list scnhdr := filter (fun s => kind_of s = k) ss.

Section conversion.
Context (coff : list Z).

(** The raw data of a section, and where the output has it: [body] is what is
    behind the header of the output. *)
Definition raw_of (s : scnhdr) : list Z := slice (s_scnptr s) (s_size s) coff.
Record copyable (s : scnhdr) : Prop := {
  cp_size : 0 < s_size s;
  cp_ptr : 0 <= s_scnptr s;
  cp_in : s_scnptr s + s_size s <= zlen coff
}.
Record holds (body : list Z) (g : Segment) (s : scnhdr) : Prop := {
  ho_addr : virtualAddr g = s_paddr s;
  ho_size : size g = s_size s;
  ho_off : sizeof_NoffHeader <= inFileAddr g;
  ho_in : inFileAddr g + s_size s <= sizeof_NoffHeader + zlen body;
  ho_bytes : slice (inFileAddr g - sizeof_NoffHeader) (s_size s) body = raw_of s
}.
Lemma raw_len s : copyable s -> zlen (raw_of s) = s_size s.
Proof. intros [H1 H2 H3]. unfold raw_of. rewrite zlen_slice by lia. lia. Qed.
Lemma holds_app body more g s : holds body g s -> holds (body ++ more) g s.
Proof.
  intros [H1 H2 H3 H4 H5]. split; try done; [rewrite zlen_app; pose proof (zlen_nonneg more); lia|].
  rewrite <-H5. apply zget_ext. intros i. unfold sizeof_NoffHeader in *.
  destruct (decide (0 <= i < s_size s)) as [Hi|Hi].
  - rewrite !zget_slice by lia. rewrite !decide_True by lia. rewrite zget_app, decide_True by lia. done.
  - rewrite !zget_None; [done| |]; rewrite zlen_slice; lia.
Qed.
Lemma holds_new body s : copyable s ->
  holds (body ++ raw_of s) (mkSegment (s_paddr s) (sizeof_NoffHeader + zlen body) (s_size s)) s.
Proof.
  intros Hs. pose proof (raw_len s Hs) as Hl. pose proof (zlen_nonneg body). split; simpl; try done.
  - lia.
  - rewrite zlen_app. lia.
  - replace (sizeof_NoffHeader + zlen body - sizeof_NoffHeader) with (zlen body) by lia. rewrite <-Hl.
    unfold slice, zlen. rewrite !Nat2Z.id, drop_app_length. by apply take_ge.
Qed.

(** The segment of the sections of one kind, of which there is at most one. *)
Definition segment (body : list Z) (g : Segment) (ss : list scnhdr) : Prop :=
  (ss = [] /\ size g = 0) \/ exists s, ss = [s] /\ holds body g s.
Lemma segment_app body more g ss : segment body g ss -> segment (body ++ more) g ss.
Proof. intros [H|(s & H1 & H2)]; [by left|]. right. exists s. split; [done|]. by apply holds_app. Qed.
Definition bss_segment (g : Segment) (ss : list scnhdr) : Prop :=
  (ss = [] /\ size g = 0) \/ exists s, ss = [s] /\ virtualAddr g = s_paddr s /\ size g = s_size s.

Record conv (done_ : list scnhdr) (h : NoffHeader) (t : tool) (body : list Z) : Prop := {
  cv_pos : outpos t = sizeof_NoffHeader + zlen body;
  cv_out : (out t = [] /\ body = []) \/ out t = replicate (Z.to_nat sizeof_NoffHeader) 0 ++ body;
  cv_magic : noffMagic h = NOFFMAGIC;
  cv_code : segment body (code h) (of_kind KText done_);
  cv_data : segment body (initData h) (of_kind KData done_);
  cv_bss : bss_segment (uninitData h) (of_kind KBss done_);
  cv_body : zlen body <= size (code h) + size (initData h);
  cv_bytes : Forall is_byte coff -> Forall is_byte body
}.

Lemma overwrite_at_end (o body bs : list Z) (p : Z) :
  p = sizeof_NoffHeader + zlen body ->
  (o = [] /\ body = []) \/ o = replicate (Z.to_nat sizeof_NoffHeader) 0 ++ body ->
  overwrite o p bs = replicate (Z.to_nat sizeof_NoffHeader) 0 ++ body ++ bs.
Proof.
  intros -> [[-> ->]| ->].
  - unfold overwrite. rewrite zlen_nil, Z.add_0_r, Z.sub_0_r. rewrite drop_nil, app_nil_r. reflexivity.
  - replace (sizeof_NoffHeader + zlen body) with (zlen (replicate (Z.to_nat sizeof_NoffHeader) 0 ++ body)).
    + by rewrite overwrite_append, <-app_assoc.
    + rewrite zlen_app. unfold zlen at 1. by rewrite length_replicate.
Qed.
Lemma copy_ok done_ h t body s :
  conv done_ h t body -> copyable s ->
  exists t', copy_section coff s t = Ok (tt, t') /\ outpos t' = sizeof_NoffHeader + zlen (body ++ raw_of s) /\
    out t' = replicate (Z.to_nat sizeof_NoffHeader) 0 ++ body ++ raw_of s.
Proof.
  intros Hc Hs. pose proof (raw_len s Hs) as Hl. destruct Hs as [H1 H2 H3]. unfold copy_section.
  rewrite (st_bind_Ok _ _ _ tt (mkTool (s_scnptr s) (out t) (outpos t))).
  2:{ unfold lseek_in. by rewrite (proj2 (Z.ltb_ge _ _)) by lia. }
  rewrite (st_bind_Ok _ _ _ (raw_of s) (mkTool (s_scnptr s + zlen (raw_of s)) (out t) (outpos t))).
  2:{ unfold c2n_Read. simpl. fold (raw_of s). rewrite (proj2 (Z.ltb_ge _ _)) by lia. by rewrite Hl, Z.eqb_refl. }
  unfold c2n_Write. rewrite (proj2 (Z.ltb_ge _ _)) by lia. rewrite Z.eqb_refl. cbn [negb]. eexists. split; [reflexivity|].
  simpl. assert (take (Z.to_nat (s_size s)) (raw_of s) = raw_of s) as -> by (apply take_ge; unfold zlen in Hl; lia).
  split; [rewrite (cv_pos _ _ _ _ Hc), zlen_app; lia|]. apply overwrite_at_end; [apply Hc|apply Hc].
Qed.
Lemma of_kind_snoc k ss s : of_kind k (ss ++ [s]) = of_kind k ss ++ (if decide (kind_of s = k) then [s] else []).
Proof. unfold of_kind. by rewrite list.filter_app, filter_cons, filter_nil. Qed.
Lemma raw_bytes s : Forall is_byte coff -> Forall is_byte (raw_of s).
Proof. apply Forall_slice. Qed.

Lemma of_kind_unique k l1 s l2 : (length (of_kind k (l1 ++ s :: l2)) <= 1)%nat -> kind_of s = k ->
  of_kind k l1 = [] /\ of_kind k (l1 ++ s :: l2) = [s].
Proof.
  unfold of_kind. rewrite list.filter_app, filter_cons, length_app. intros Hl Hk. rewrite decide_True in * by done.
  simpl in Hl. destruct (filter _ l1) as [|x l]; [|simpl in Hl; lia].
  destruct (filter _ l2) as [|y l']; [done|simpl in Hl; lia].
Qed.
Lemma of_kind_part k l1 l2 x : of_kind k (l1 ++ l2) = [x] -> of_kind k l1 = [] \/ of_kind k l1 = [x].
Proof.
  unfold of_kind. rewrite list.filter_app. destruct (filter _ l1) as [|y l]; [by left|]. simpl. intros [= -> H].
  apply app_nil in H as [-> _]. by right.
Qed.
Lemma segment_size body g ss s : segment body g ss -> ss = [] \/ ss = [s] -> 0 <= s_size s -> 0 <= size g <= s_size s.
Proof. intros [[-> H]|(s' & -> & H)] Hs H0; [lia|]. destruct Hs as [|[= ->]]; [done|]. rewrite (ho_size _ _ _ H). lia. Qed.

(** All sections of a file that can be converted. *)
Context (all : list scnhdr) (text dat : scnhdr).
Record convertible : Prop := {
  cb_text : of_kind KText all = [text];
  cb_data : of_kind KData all = [dat];
  cb_bss : (length (of_kind KBss all) <= 1)%nat;
  cb_known : of_kind KUnknown all = [];
  cb_text_in : copyable text;
  cb_data_in : copyable dat;
  cb_fits : sizeof_NoffHeader + s_size text + s_size dat < two31
}.
Hypothesis Hall : convertible.

Lemma do_section_eq s h n :
  do_section coff s (h, n) =
    match kind_of s with
    | KNone => mret (h, n)
    | KText =>
        copy_section coff s;;
        mret (set_code h (mkSegment (s_paddr s) n (s_size s)), to_int (n + s_size s))
    | KData =>
        if negb (size (initData h) =? 0) then lift Halted
        else
          copy_section coff s;;
          mret (set_initData h (mkSegment (s_paddr s) n (s_size s)), to_int (n + s_size s))
    | KBss =>
        let u := uninitData h in
        if negb (size u =? 0) then
          if s_paddr s =? to_int (virtualAddr u + size u) then lift Halted
          else mret (set_uninitData h (mkSegment (virtualAddr u) (inFileAddr u) (to_int (size u + s_size s))), n)
        else mret (set_uninitData h (mkSegment (s_paddr s) (inFileAddr u) (s_size s)), n)
    | KUnknown => lift Halted
    end.
Proof.
  unfold do_section, kind_of. destruct (s_size s =? 0); [done|]. destruct (named_ s text_name); [done|].
  destruct (_ || _); [done|]. by destruct (named_ s bss_name || named_ s sbss_name).
Qed.

(** What is known before a section is done. *)
Lemma conv_bounds done_ rest_ h t body : all = done_ ++ rest_ -> conv done_ h t body ->
  0 <= size (code h) <= s_size text /\ 0 <= size (initData h) <= s_size dat.
Proof.
  intros Ha Hc. destruct Hall as [Ht Hd _ _ [Ht1 _ _] [Hd1 _ _] _]. rewrite Ha in Ht, Hd. split.
  - eapply segment_size; [apply Hc|by eapply of_kind_part|lia].
  - eapply segment_size; [apply Hc|by eapply of_kind_part|lia].
Qed.
Lemma segment_nil body g : segment body g [] -> size g = 0.
Proof. intros [[_ H]|(s & H & _)]; done. Qed.
Lemma conv_text done_ r h t body :
  all = done_ ++ text :: r -> of_kind KText done_ = [] -> kind_of text = KText -> conv done_ h t body ->
  exists t', copy_section coff text t = Ok (tt, t') /\
    to_int (sizeof_NoffHeader + zlen body + s_size text) = sizeof_NoffHeader + zlen (body ++ raw_of text) /\
    conv (done_ ++ [text]) (set_code h (mkSegment (s_paddr text) (sizeof_NoffHeader + zlen body) (s_size text))) t'
      (body ++ raw_of text).
Proof.
  intros Ha Hnil Ek Hc. pose proof (cb_text_in Hall) as Hin. pose proof (cb_fits Hall) as Hfit.
  destruct (conv_bounds _ _ _ _ _ Ha Hc) as [_ Sd]. pose proof Hc as [Cp Co Cm Cc Cd Cb Cl Cy].
  rewrite Hnil in Cc. apply segment_nil in Cc. pose proof (raw_len text Hin) as Hrl. pose proof (zlen_nonneg body).
  destruct (copy_ok done_ h t body text Hc Hin) as (t' & Hcp & Hp & Ho). exists t'. split; [done|].
  rewrite zlen_app, Hrl. split; [destruct Hin; rewrite to_int_id; unfold_int; unfold sizeof_NoffHeader in *; lia|].
  split; try done; simpl; rewrite ?of_kind_snoc, ?Ek; simpl; rewrite ?app_nil_r, ?Hnil.
  - by right.
  - right. exists text. split; [done|]. by apply holds_new.
  - by apply segment_app.
  - done.
  - rewrite zlen_app. lia.
  - intros Hy. apply Forall_app. split; [by apply Cy|by apply raw_bytes].
Qed.
Lemma conv_data done_ r h t body :
  all = done_ ++ dat :: r -> of_kind KData done_ = [] -> kind_of dat = KData -> conv done_ h t body ->
  exists t', copy_section coff dat t = Ok (tt, t') /\
    to_int (sizeof_NoffHeader + zlen body + s_size dat) = sizeof_NoffHeader + zlen (body ++ raw_of dat) /\
    conv (done_ ++ [dat]) (set_initData h (mkSegment (s_paddr dat) (sizeof_NoffHeader + zlen body) (s_size dat))) t'
      (body ++ raw_of dat).
Proof.
  intros Ha Hnil Ek Hc. pose proof (cb_data_in Hall) as Hin. pose proof (cb_fits Hall) as Hfit.
  destruct (conv_bounds _ _ _ _ _ Ha Hc) as [Sc _]. pose proof Hc as [Cp Co Cm Cc Cd Cb Cl Cy].
  rewrite Hnil in Cd. apply segment_nil in Cd. pose proof (raw_len dat Hin) as Hrl. pose proof (zlen_nonneg body).
  destruct (copy_ok done_ h t body dat Hc Hin) as (t' & Hcp & Hp & Ho). exists t'. split; [done|].
  rewrite zlen_app, Hrl. split; [destruct Hin; rewrite to_int_id; unfold_int; unfold sizeof_NoffHeader in *; lia|].
  split; try done; simpl; rewrite ?of_kind_snoc, ?Ek; simpl; rewrite ?app_nil_r, ?Hnil.
  - by right.
  - by apply segment_app.
  - right. exists dat. split; [done|]. by apply holds_new.
  - done.
  - rewrite zlen_app. lia.
  - intros Hy. apply Forall_app. split; [by apply Cy|by apply raw_bytes].
Qed.

Lemma section_ok done_ s r h t body :
  all = done_ ++ s :: r -> conv done_ h t body ->
  exists h' t' body',
    do_section coff s (h, sizeof_NoffHeader + zlen body) t = Ok ((h', sizeof_NoffHeader + zlen body'), t') /\
    conv (done_ ++ [s]) h' t' body' /\ inFileAddr (uninitData h') = inFileAddr (uninitData h).
Proof.
  intros Ha Hc. destruct Hall as [Ht Hd Hb Hk _ _ _]. rewrite do_section_eq. destruct (kind_of s) eqn:Ek.
  - exists h, t, body. split; [done|]. split; [|done]. destruct Hc as [Cp Co Cm Cc Cd Cb Cl Cy].
    split; try done; rewrite of_kind_snoc, Ek; simpl; by rewrite app_nil_r.
  - destruct (of_kind_unique KText done_ s r ltac:(by rewrite <-Ha, Ht) Ek) as [Hnil Hone].
    rewrite <-Ha, Ht in Hone. injection Hone as <-.
    destruct (conv_text done_ r h t body Ha Hnil Ek Hc) as (t' & Hcp & Hi & Hc').
    rewrite (st_bind_Ok _ _ _ _ _ Hcp), Hi. eexists _, t', _. split; [reflexivity|]. by split.
  - destruct (of_kind_unique KData done_ s r ltac:(by rewrite <-Ha, Hd) Ek) as [Hnil Hone].
    rewrite <-Ha, Hd in Hone. injection Hone as <-.
    assert (size (initData h) = 0) as -> by (apply (segment_nil body); rewrite <-Hnil; apply Hc). cbn [Z.eqb negb].
    destruct (conv_data done_ r h t body Ha Hnil Ek Hc) as (t' & Hcp & Hi & Hc').
    rewrite (st_bind_Ok _ _ _ _ _ Hcp), Hi. eexists _, t', _. split; [reflexivity|]. by split.
  - destruct (of_kind_unique KBss done_ s r ltac:(by rewrite <-Ha) Ek) as [Hnil _].
    destruct Hc as [Cp Co Cm Cc Cd Cb Cl Cy].
    assert (size (uninitData h) = 0) as Hz.
    { destruct Cb as [[_ ?]|(x & Hx & _)]; [done|]. by rewrite Hnil in Hx. }
    cbv zeta. rewrite Hz. cbn [Z.eqb negb]. eexists _, t, body. split; [reflexivity|]. split; [|done].
    split; try done; simpl; rewrite of_kind_snoc, Ek; simpl; rewrite ?app_nil_r; try done.
    rewrite Hnil. right. by exists s.
  - exfalso. rewrite Ha in Hk. unfold of_kind in Hk. rewrite list.filter_app, filter_cons, decide_True in Hk by done.
    apply app_nil in Hk as [_ Hk]. done.
Qed.
Lemma sections_ok r : forall done_ h t body,
  all = done_ ++ r -> conv done_ h t body ->
  exists h' t' body', do_sections coff r (h, sizeof_NoffHeader + zlen body) t =
      Ok ((h', sizeof_NoffHeader + zlen body'), t') /\
    conv all h' t' body' /\ inFileAddr (uninitData h') = inFileAddr (uninitData h).
Proof.
  induction r as [|s r IH]; intros done_ h t body Ha Hc.
  - rewrite app_nil_r in Ha. exists h, t, body. by rewrite Ha.
  - destruct (section_ok done_ s r h t body Ha Hc) as (h1 & t1 & b1 & Hs & Hc1 & Hi1). cbn [do_sections].
    rewrite (st_bind_Ok _ _ _ _ _ Hs).
    destruct (IH (done_ ++ [s]) h1 t1 b1) as (h2 & t2 & b2 & Hs2 & Hc2 & Hi2); [by rewrite <-app_assoc|done|].
    exists h2, t2, b2. split; [done|]. split; [done|]. congruence.
Qed.
End conversion.

(** ** A whole file *)

Definition nscns (coff : list Z) : Z := f_nscns (parse_filehdr (slice 0 sizeof_filehdr coff)).
Definition sections_of (coff : list Z) : list scnhdr :=
  parse_sections (Z.to_nat (nscns coff))
    (slice (sizeof_filehdr + sizeof_aouthdr) (nscns coff * sizeof_scnhdr) coff).
Definition bss_size (ss : list scnhdr) : Z := match of_kind KBss ss with [b] => s_size b | _ => 0 end.
(** An object file as the compiler of the user programs makes it: the text is
    at address 0 and the data directly behind it. *)
Record coff_ok (coff : list Z) (text dat : scnhdr) : Prop := {
  co_bytes : Forall is_byte coff;
  co_len : sizeof_filehdr + sizeof_aouthdr + nscns coff * sizeof_scnhdr <= zlen coff;
  co_magic : f_magic (parse_filehdr (slice 0 sizeof_filehdr coff)) = MIPSELMAGIC;
  co_omagic : magic (parse_aouthdr (slice sizeof_filehdr sizeof_aouthdr coff)) = OMAGIC;
  co_sections : convertible coff (sections_of coff) text dat;
  co_text0 : s_paddr text = 0;
  co_data0 : s_size dat = 0 \/ s_paddr dat = s_size text;
  co_bss : 0 <= bss_size (sections_of coff);
  co_total : s_size text + s_size dat + bss_size (sections_of coff) + UserStackSize < two31
}.
(** The header as it is read back. *)
Definition norm_segment (g : Segment) : Segment :=
  mkSegment (to_int (virtualAddr g)) (to_int (inFileAddr g)) (to_int (size g)).
Definition norm (h : NoffHeader) : NoffHeader :=
  mkNoffHeader (to_int (noffMagic h)) (norm_segment (code h)) (norm_segment (initData h)) (norm_segment (uninitData h)).

Lemma encode_noff_len h : zlen (encode_noff h) = sizeof_NoffHeader.
Proof. unfold encode_noff. by rewrite zlen_bytes_of_ints. Qed.
Lemma decode_encode_noff h : decode_noff (encode_noff h) = Ok (norm h).
Proof.
  assert (encode_noff h = encode_noff (norm h)) as ->.
  { unfold encode_noff, bytes_of_ints. cbn [norm norm_segment noffMagic code initData uninitData virtualAddr inFileAddr size].
    cbn [mbind list_bind]. by rewrite !le32_to_int. }
  unfold decode_noff, encode_noff. rewrite <-(app_nil_r (bytes_of_ints _)), ints_of_bytes_of_ints; [reflexivity|].
  repeat constructor; apply to_int_range.
Qed.
Lemma read_header_ok h body : noffMagic h = NOFFMAGIC -> read_header (encode_noff h ++ body) = Ok (norm h).
Proof.
  intros Hm. unfold read_header, file_ReadAt. cbn [Z.leb Z.ltb Z.compare mbind res_bind].
  assert (slice 0 40 (encode_noff h ++ body) = encode_noff h) as ->.
  { pose proof (encode_noff_len h) as Hl. unfold zlen, sizeof_NoffHeader in Hl. unfold slice. change (Z.to_nat 0) with 0%nat.
    rewrite drop_0. apply take_app_length'. lia. }
  rewrite decode_encode_noff. cbn [mbind res_bind].
  assert (noffMagic (norm h) = NOFFMAGIC) as Hn by (simpl; by rewrite Hm). rewrite Hn, Z.eqb_refl. cbn [negb andb].
  by rewrite Hn, Z.eqb_refl.
Qed.

(** The header over the hole in front of the segments. *)
Lemma final_write coff ss h t body i : conv coff ss h t body ->
  c2n_Write (encode_noff h) sizeof_NoffHeader (mkTool i (out t) 0) =
    Ok (tt, mkTool i (encode_noff h ++ body) sizeof_NoffHeader).
Proof.
  intros Hc. pose proof (encode_noff_len h) as He. unfold c2n_Write.
  change (sizeof_NoffHeader <? 0) with false. cbn [negb]. rewrite Z.eqb_refl. cbn [negb inpos out outpos].
  assert (take (Z.to_nat sizeof_NoffHeader) (encode_noff h) = encode_noff h) as ->
    by (apply take_ge; unfold zlen in He; lia).
  rewrite He. do 3 f_equal. unfold overwrite. change (Z.to_nat 0) with 0%nat. rewrite take_0. cbn [app Nat.add]. f_equal.
  destruct (cv_out _ _ _ _ _ Hc) as [[-> ->]| ->]; [by rewrite drop_nil|].
  apply drop_app_length'. rewrite length_replicate. unfold zlen in He. lia.
Qed.

Section whole.
Context (coff : list Z) (text dat : scnhdr).
Hypothesis Hok : coff_ok coff text dat.

Lemma read_front pos n o p : 0 <= pos -> 0 <= n -> pos + n <= zlen coff ->
  c2n_Read coff n (mkTool pos o p) = Ok (slice pos n coff, mkTool (pos + n) o p).
Proof.
  intros H0 Hn Hl. assert (zlen (slice pos n coff) = n) as Hz by (rewrite zlen_slice; lia).
  unfold c2n_Read. simpl. rewrite (proj2 (Z.ltb_ge _ _)) by lia. by rewrite Hz, Z.eqb_refl.
Qed.
Lemma nscns_nonneg : 0 <= nscns coff.
Proof.
  unfold nscns, parse_filehdr. cbn [f_nscns]. unfold short_at.
  assert (Forall is_byte (slice 2 2 (slice 0 sizeof_filehdr coff))) as Hf
    by (apply Forall_slice, Forall_slice, (co_bytes _ _ _ Hok)).
  induction Hf as [|b l Hb _ IH]; simpl; [lia|]. unfold is_byte in Hb. lia.
Qed.
Lemma main_ok junk : exists h body t, coff2noff coff junk = Ok (encode_noff h ++ body) /\
  conv coff (sections_of coff) h t body.
Proof.
  pose proof nscns_nonneg as Hn. destruct Hok as [Hb Hl Hm Hom Hs _ _ _ _].
  unfold sizeof_filehdr, sizeof_aouthdr, sizeof_scnhdr in Hl.
  set (t0 := mkTool (76 + nscns coff * sizeof_scnhdr) [] sizeof_NoffHeader).
  assert (conv coff [] (noff_init junk) t0 []) as Hc0.
  { split; try done; try (by left); try (by left; split). }
  destruct (sections_ok coff (sections_of coff) text dat Hs (sections_of coff) [] (noff_init junk) t0 [] eq_refl Hc0)
    as (h & t & body & Hd & Hc & _).
  exists h, body, t. split; [|done]. unfold coff2noff, coff2noff_main.
  rewrite (st_bind_Ok _ _ _ _ _ (read_front 0 sizeof_filehdr [] 0 ltac:(done) ltac:(done) ltac:(unfold sizeof_filehdr; lia))).
  cbv zeta. rewrite Hm, Z.eqb_refl. cbn [negb].
  rewrite (st_bind_Ok _ _ _ _ _ (read_front (0 + sizeof_filehdr) sizeof_aouthdr [] 0 ltac:(done) ltac:(done)
    ltac:(unfold sizeof_filehdr, sizeof_aouthdr; lia))).
  change (0 + sizeof_filehdr) with sizeof_filehdr. rewrite Hom, Z.eqb_refl. cbn [negb].
  change (f_nscns (parse_filehdr (slice 0 sizeof_filehdr coff))) with (nscns coff).
  rewrite (st_bind_Ok _ _ _ _ _ (read_front (sizeof_filehdr + sizeof_aouthdr) (nscns coff * sizeof_scnhdr) [] 0
    ltac:(done) ltac:(unfold sizeof_scnhdr; lia) ltac:(unfold sizeof_filehdr, sizeof_aouthdr, sizeof_scnhdr; lia))).
  fold (sections_of coff). rewrite (st_bind_Ok (lseek_out _) _ _ tt t0) by done.
  change sizeof_NoffHeader with (sizeof_NoffHeader + zlen ([] : list Z)) at 1.
  rewrite (st_bind_Ok _ _ _ _ _ Hd).
  rewrite (st_bind_Ok (lseek_out 0) _ _ tt (mkTool (inpos t) (out t) 0)) by done.
  by rewrite (final_write _ _ _ _ _ _ Hc).
Qed.

(** The bytes of a segment in the output are the raw data of its section. *)
Lemma segment_byte h body g s i : holds coff body g s -> copyable coff s -> 0 <= i < s_size s ->
  zget (encode_noff h ++ body) (inFileAddr g + i) = zget coff (s_scnptr s + i).
Proof.
  intros [_ _ Hoff Hin Hb] [C1 C2 C3] Hi. pose proof (encode_noff_len h) as He. unfold sizeof_NoffHeader in *.
  rewrite zget_app, decide_False by lia. rewrite He.
  assert (zget (raw_of coff s) i = zget coff (s_scnptr s + i)) as <-.
  { unfold raw_of. rewrite zget_slice by lia. by rewrite decide_True by lia. }
  rewrite <-Hb, zget_slice by lia. rewrite decide_True by lia. f_equal. lia.
Qed.
Lemma holds_norm body g s : holds coff body g s -> copyable coff s -> is_int (s_paddr s) ->
  sizeof_NoffHeader + zlen body < two31 -> norm_segment g = g.
Proof.
  intros [H1 H2 H3 H4 _] [C1 C2 C3] Hp Hb. unfold sizeof_NoffHeader in *. unfold norm_segment.
  rewrite H1, H2, !to_int_id by (done || (unfold_int; lia)). destruct g. simpl in *. by subst.
Qed.
Lemma section_int s : s ∈ sections_of coff -> is_int (s_paddr s).
Proof.
  unfold sections_of, parse_sections. intros (i & -> & _)%list_elem_of_fmap. apply to_int_range.
Qed.
Lemma of_kind_in k ss s : of_kind k ss = [s] -> s ∈ ss.
Proof. intros H. assert (s ∈ of_kind k ss) as Hin by (rewrite H; apply list_elem_of_here). by apply list_elem_of_filter in Hin as [_ ?]. Qed.

Lemma converted_ok h body t : conv coff (sections_of coff) h t body ->
  exe_ok (encode_noff h ++ body) (norm h) /\
  size (code (norm h)) = s_size text /\ size (initData (norm h)) = s_size dat /\
  size (uninitData (norm h)) = bss_size (sections_of coff) /\
  (forall va, 0 <= va -> image (encode_noff h ++ body) (norm h) va =
     if va <? s_size text then zget coff (s_scnptr text + va)
     else if va <? s_size text + s_size dat then zget coff (s_scnptr dat + (va - s_size text)) else Some 0).
Proof.
  intros [_ _ Cm Cc Cd Cb Cl Cy]. destruct Hok as [Hbytes _ _ _ [Ht Hd Hbs _ It Id Hfit] Ht0 _ Hb0 Htot].
  rewrite Ht in Cc. rewrite Hd in Cd. destruct Cc as [[? _]|(? & [= <-] & Hc)]; [done|].
  destruct Cd as [[? _]|(? & [= <-] & Hdt)]; [done|].
  pose proof (ho_size _ _ _ _ Hc) as Sc. pose proof (ho_size _ _ _ _ Hdt) as Sd. rewrite Sc, Sd in Cl.
  assert (sizeof_NoffHeader + zlen body < two31) as Hlen by lia.
  pose proof (holds_norm _ _ _ Hc It (section_int _ (of_kind_in _ _ _ Ht)) Hlen) as Nc.
  pose proof (holds_norm _ _ _ Hdt Id (section_int _ (of_kind_in _ _ _ Hd)) Hlen) as Nd.
  assert (size (uninitData h) = bss_size (sections_of coff)) as Su.
  { unfold bss_size. destruct Cb as [[-> ?]|(b & -> & _ & ?)]; done. }
  assert (size (norm_segment (uninitData h)) = bss_size (sections_of coff)) as Su'.
  { simpl. rewrite Su, to_int_id; [done|]. destruct It, Id. unfold_int. unfold UserStackSize in *. lia. }
  pose proof (encode_noff_len h) as He. pose proof It as [T1 T2 T3]. pose proof Id as [D1 D2 D3].
  split; [|unfold image; cbn [norm code initData uninitData]; rewrite Nc, Nd, Sc, Sd; split_and!; try done].
  - destruct Hc as [A1 A2 A3 A4 _], Hdt as [B1 B2 B3 B4 _]. unfold sizeof_NoffHeader in *.
    split; cbn [norm code initData uninitData]; rewrite ?Nc, ?Nd, ?Su', ?Sc, ?Sd, ?zlen_app, ?He; try lia.
    + by apply read_header_ok.
    + apply Forall_app. split; [apply bytes_of_ints_bytes|by apply Cy].
  - intros va Hva. destruct (Z.ltb_spec va (s_size text)); [by apply (segment_byte _ _ _ text)|].
    destruct (Z.ltb_spec va (s_size text + s_size dat)); [|done]. apply (segment_byte _ _ _ dat); try done. lia.
Qed.
End whole.

(** The addresses of a section, and the bytes by address. *)
Definition in_section (s : scnhdr) (va : Z) : bool := (s_paddr s <=? va) && (va <? s_paddr s + s_size s).
Lemma by_address (coff : list Z) text dat va :
  s_paddr text = 0 -> s_size dat = 0 \/ s_paddr dat = s_size text -> 0 <= s_size text -> 0 <= s_size dat -> 0 <= va ->
  (if va <? s_size text then zget coff (s_scnptr text + va)
   else if va <? s_size text + s_size dat then zget coff (s_scnptr dat + (va - s_size text)) else Some 0) =
  if in_section text va then zget coff (s_scnptr text + (va - s_paddr text))
  else if in_section dat va then zget coff (s_scnptr dat + (va - s_paddr dat)) else Some 0.
Proof.
  unfold in_section. intros -> Hd Ht0 Hd0 Hva. rewrite (proj2 (Z.leb_le 0 va)), Z.add_0_l, Z.sub_0_r by lia. cbn [andb].
  destruct (Z.ltb_spec va (s_size text)); [done|].
  destruct (Z.leb_spec (s_paddr dat) va), (Z.ltb_spec va (s_paddr dat + s_size dat)),
    (Z.ltb_spec va (s_size text + s_size dat)); simpl; try done; try lia.
  destruct Hd as [Hd | ->]; [lia|done].
Qed.

(** C12. From the compiler's object file to memory.  [coff2noff] turns a COFF
    file with one text section at address 0, one data section whose address is
    the size of the text and at most one bss section into a NOFF file (the
    header in front, the segments behind it); the kernel loads that file into
    any free pages, and the new process sees the bytes of each section at the
    addresses that the object file gives it, and zeros elsewhere. *)
Theorem object_file_reaches_memory (coff : list Z) (text dat : scnhdr) (junk : NoffHeader) :
  coff_ok coff text dat ->
  exists exe pages_, coff2noff coff junk = Ok exe /\
    pages_ = divRoundUp (s_size text + s_size dat + bss_size (sections_of coff) + UserStackSize) PageSize /\
    forall s, phys_ok s -> pages_ <= zlen (clear_items (pages s)) ->
      exists fs s', new_AddrSpace (Some exe) s = Ok (mkAddrSpace (Some (table_of 0 fs)) (Some pages_), s') /\
        zlen fs = pages_ /\
        forall va, 0 <= va < pages_ * PageSize -> vbyte (memory s') fs va =
          if in_section text va then zget coff (s_scnptr text + (va - s_paddr text))
          else if in_section dat va then zget coff (s_scnptr dat + (va - s_paddr dat)) else Some 0.
Proof.
  intros Hok. destruct (main_ok coff text dat Hok junk) as (h & body & t & Hm & Hc).
  destruct (converted_ok coff text dat Hok h body t Hc) as (Hx & Sc & Sd & Su & Him).
  exists (encode_noff h ++ body), (space_pages (norm h)). split; [done|].
  destruct Hok as [_ _ _ _ [_ _ _ _ [T1 _ _] [D1 _ _] _] Ht0 Hd0 Hb0 Htot]. split.
  - unfold space_pages. rewrite Sc, Sd, Su. f_equal. apply to_uint_id. unfold UserStackSize in *. unfold_int. lia.
  - intros s Hs Hle. destruct (load_program_spec _ _ s Hs Hx Hle) as (fs & s' & Hn & _ & Hl & _ & _ & _ & _ & Hv).
    exists fs, s'. split; [done|]. split; [done|]. intros va Hva. rewrite Hv, Him by lia. apply by_address; try done; lia.
Qed.

(** ** An object file: twelve bytes of code, one of data, three of bss *)

Definition pad (n : nat) (l : list Z) : list Z := l ++ replicate (n - length l) 0.
Definition scn_image (name : list Z) (paddr sz ptr : Z) : list Z :=
  pad 8 name ++ bytes_of_ints [paddr; paddr; sz; ptr; 0; 0; 0; 0].
Definition tiny_coff : list Z :=
  pad 20 (le16 MIPSELMAGIC ++ le16 3) ++ pad 56 (le16 OMAGIC) ++
  scn_image text_name 0 12 196 ++ scn_image data_name 12 1 208 ++ scn_image bss_name 13 3 0 ++
  [1; 2; 3; 4; 5; 6; 7; 8; 9; 10; 11; 12] ++ [77].
Definition tiny_text : scnhdr := mkScnhdr (pad 8 text_name) 0 12 196.
Definition tiny_data : scnhdr := mkScnhdr (pad 8 data_name) 12 1 208.
Definition zero_header : NoffHeader := mkNoffHeader 0 (mkSegment 0 0 0) (mkSegment 0 0 0) (mkSegment 0 0 0).
Lemma tiny_sections : sections_of tiny_coff = [tiny_text; tiny_data; mkScnhdr (pad 8 bss_name) 13 3 0].
Proof. vm_compute. reflexivity. Qed.
Lemma tiny_coff_ok : coff_ok tiny_coff tiny_text tiny_data.
Proof.
  split; rewrite ?tiny_sections; try (vm_compute; congruence).
  - unfold tiny_coff. vm_compute. repeat constructor; congruence.
  - split; try (vm_compute; congruence); try (vm_compute; lia).
    + split; vm_compute; congruence.
    + split; vm_compute; congruence.
  - by right.
Qed.
Lemma object_file_reaches_memory_witness :
  exists exe fs s', coff2noff tiny_coff zero_header = Ok exe /\
    new_AddrSpace (Some exe) used_mem = Ok (mkAddrSpace (Some (table_of 0 fs)) (Some 3), s') /\
    vbyte (memory s') fs 4 = Some 5 /\ vbyte (memory s') fs 12 = Some 77 /\ vbyte (memory s') fs 13 = Some 0.
Proof.
  destruct (object_file_reaches_memory tiny_coff tiny_text tiny_data zero_header tiny_coff_ok) as (exe & n & Hc & Hn & H).
  assert (n = 3) as -> by (rewrite Hn, tiny_sections; reflexivity).
  destruct (H used_mem used_mem_ok ltac:(by vm_compute)) as (fs & s' & Hl & _ & Hv).
  exists exe, fs, s'. split; [exact Hc|]. split; [exact Hl|].
  rewrite !Hv by (vm_compute; split; congruence). split_and!; reflexivity.
Defined.

(** The test of contiguous bss sections is the wrong way round: sections that
    follow each other are refused, sections with a gap are taken for one. *)
Lemma contiguous_bss_refused coff h n t :
  let s := mkScnhdr (pad 8 sbss_name) 16 4 0 in
  do_section coff s (set_uninitData h (mkSegment 12 0 4), n) t = Halted /\
  do_section coff s (set_uninitData h (mkSegment 0 0 4), n) t =
    Ok ((set_uninitData h (mkSegment 0 0 8), n), t).
Proof. split; reflexivity. Qed.
