(* ===== verification/UserProgs.v ===== *)
(** * test/: the sorting programs that run on the machine

    [quicksort.c], which sorts with an explicit stack of intervals and writes
    the numbers to a file; [mergesort.c] is the file UserMerge.  A program is its C code over its arrays; a system call is
    an event of the sequence of calls it makes, and what the kernel answers is
    an argument, a function of the calls so far and the new one. *)

From S2P Require Import Prelude Syscalls.
From stdpp Require Import list sorting strings.
#[local] Open Scope Z_scope.

(** The characters of a literal. *)
Definition txt (s : string) : list Z :=
  (fun c => Z.of_nat (Ascii.nat_of_ascii c)) <$> String.list_ascii_of_string s.

(** The system calls of the programs, with what they pass. *)
Inductive call :=
| PrintString (s : list Z)
| PrintInt (n : Z)
| ReadInt
| ReadFloat
| WriteF2File (f id : Z)
| ClearFloat (f : Z)
| Create (name : list Z)
| Open (name : list Z) (type : Z)
| Write (buffer : list Z) (size id : Z)
| Close (id : Z)
| HaltCall
| Exit (code : Z).
#[export] Instance call_eq_dec : EqDecision call.
Proof. solve_decision. Defined.

Definition say (c : call) : st (list call) unit := fun h => Ok (tt, h ++ [c]).
Definition ask (env : list call -> call -> Z) (c : call) : st (list call) Z :=
  fun h => Ok (env h c, h ++ [c]).

(** Names the calls made before the code [c] runs. *)
Ltac name_history c x :=
  match goal with |- context [mbind _ c ?h] => set (x := h) end.

(** ** quicksort.c *)

Module Quick.
Definition MAX : Z := 99.

(** [while (arr[R] >= piv && L < R) R--;] *)
Fixpoint down (fuel : nat) (arr : list Z) (piv L R : Z) : res Z :=
  match fuel with
  | O => NoFuel
  | S f => v ← rd arr R; if (piv <=? v) && (L <? R) then down f arr piv L (R - 1) else Ok R
  end.
(** [while (arr[L] <= piv && L < R) L++;] *)
Fixpoint up (fuel : nat) (arr : list Z) (piv L R : Z) : res Z :=
  match fuel with
  | O => NoFuel
  | S f => v ← rd arr L; if (v <=? piv) && (L <? R) then up f arr piv (L + 1) R else Ok L
  end.
(** [while (L < R) { ... }] *)
Fixpoint partition (fuel : nat) (arr : list Z) (piv L R : Z) : res (list Z * Z) :=
  match fuel with
  | O => NoFuel
  | S f =>
      if L <? R then
        R ← down (S (Z.to_nat (R - L))) arr piv L R;
        '(arr, L) ← (if L <? R then v ← rd arr R; arr ← wr arr L v; Ok (arr, L + 1) else Ok (arr, L));
        L ← up (S (Z.to_nat (R - L))) arr piv L R;
        '(arr, R) ← (if L <? R then v ← rd arr L; arr ← wr arr R v; Ok (arr, R - 1) else Ok (arr, R));
        partition f arr piv L R
      else Ok (arr, L)
  end.

(** The locals of [quicksort]. *)
Record frame := mkFrame { arr : list Z; beg : list Z; end_ : list Z; i : Z; totalShifting : Z }.

(** The body of [while (i >= 0)]; [inl] goes on, [inr] is [return -1]. *)
Definition body (F : frame) : res (frame + frame) :=
  let t := totalShifting F + 1 in
  L ← rd (beg F) (i F);
  e ← rd (end_ F) (i F);
  let R := e - 1 in
  if L <? R then
    piv ← rd (arr F) L;
    if i F =? MAX - 1 then Ok (inr (mkFrame (arr F) (beg F) (end_ F) (i F) t))
    else
      '(a, L) ← partition (S (Z.to_nat (R - L))) (arr F) piv L R;
      a ← wr a L piv;
      b ← wr (beg F) (i F + 1) (L + 1);
      ei ← rd (end_ F) (i F);
      e ← wr (end_ F) (i F + 1) ei;
      e ← wr e (i F) L;
      Ok (inl (mkFrame a b e (i F + 1) t))
  else Ok (inl (mkFrame (arr F) (beg F) (end_ F) (i F - 1) t)).

(** The loop: [inl] when it ends by its condition, [inr] by [return -1]. *)
Fixpoint loop (fuel : nat) (F : frame) : res (frame + frame) :=
  match fuel with
  | O => NoFuel
  | S f =>
      if 0 <=? i F then
        r ← body F;
        match r with inl F' => loop f F' | inr F' => Ok (inr F') end
      else Ok (inl F)
  end.

Definition quicksort (junk_b junk_e : list Z) (a : list Z) (n : Z) : st (list call) (Z * list Z) :=
  b ← lift (wr junk_b 0 0);
  e ← lift (wr junk_e 0 n);
  r ← lift (loop (2 * Z.to_nat n + 4) (mkFrame a b e 0 0));
  match r with
  | inr F => mret (-1, arr F)
  | inl F =>
      say (PrintString (txt "Total shifting: "));;
      say (PrintInt (totalShifting F));;
      say (PrintString [10]);;
      mret (0, arr F)
  end.

(** *** main *)

(** [while (tmp > 0) { size++; tmp /= 10; }] *)
Fixpoint count_size (fuel : nat) (tmp size : Z) : res Z :=
  match fuel with
  | O => NoFuel
  | S f => if 0 <? tmp then count_size f (Z.quot tmp 10) (size + 1) else Ok size
  end.
(** [while (i >= isNeg && tmp > 0) { strBuffer[i--] = (tmp % 10) + '0'; tmp /= 10; }] *)
Fixpoint fill (fuel : nat) (i isNeg tmp : Z) (strBuffer : list Z) : res (list Z) :=
  match fuel with
  | O => NoFuel
  | S f =>
      if (isNeg <=? i) && (0 <? tmp) then
        strBuffer ← wr strBuffer i (to_char (Z.rem tmp 10 + 48));
        fill f (i - 1) isNeg (Z.quot tmp 10) strBuffer
      else Ok strBuffer
  end.
(** The body of the loop that writes the numbers, up to [Write]. *)
Definition number_text (v : Z) (is_last : bool) (buffer : list Z) : res (list Z * Z) :=
  '(strBuffer, size, isNeg, tmp) ←
    (if v <? 0 then b ← wr buffer 0 45; Ok (b, 1, 1, to_int (- v))
     else if v =? 0 then b ← wr buffer 0 48; Ok (b, 1, 0, v)
     else Ok (buffer, 0, 0, v));
  size ← count_size 11 tmp size;
  strBuffer ← fill 11 (size + isNeg - 1) isNeg v strBuffer;
  '(strBuffer, size) ←
    (if negb is_last then b ← wr strBuffer size 32; Ok (b, size + 1) else Ok (strBuffer, size));
  strBuffer ← wr strBuffer size 0;
  Ok (strBuffer, size).

Definition read_elements (env : list call -> call -> Z) (count n : Z) (a : list Z) : st (list call) (list Z) :=
  for_st count n (fun count a =>
    say (PrintString (txt "Element "));;
    say (PrintInt count);;
    say (PrintString (txt ": "));;
    v ← ask env ReadInt;
    lift (wr a count v)) a.
Definition write_elements (n output : Z) (a buffer : list Z) : st (list call) (list Z) :=
  for_st 0 n (fun count buffer =>
    tmp ← lift (rd a count);
    '(strBuffer, size) ← lift (number_text tmp (count =? n - 1) buffer);
    say (Write strBuffer size output);;
    mret strBuffer) buffer.

(** [count0], [arr], [buffer] and the two stacks are what the uninitialised
    locals hold. *)
Definition main (env : list call -> call -> Z) (count0 : Z) (a buffer jb je : list Z) : st (list call) unit :=
  say (PrintString (txt "Enter the number of elements: "));;
  n ← ask env ReadInt;
  if (n <=? 0) || (MAX <? n) then
    say (PrintString (txt "Invalid number of elements" ++ [10]));;
    say HaltCall
  else
    say (PrintString (txt "Enter the elements:" ++ [10]));;
    a ← read_elements env count0 n a;
    '(_, a) ← quicksort jb je a n;
    say (PrintString (txt "Quick sort successfully" ++ [10]));;
    r ← ask env (Create (txt "quicksort.txt"));
    if r =? -1 then
      say (PrintString (txt "Error creating file" ++ [10]));;
      say HaltCall
    else
      say (PrintString (txt "Creating file quicksort.txt successfully" ++ [10]));;
      output ← ask env (Open (txt "quicksort.txt") 0);
      if output =? -1 then
        say (PrintString (txt "Error opening file" ++ [10]));;
        say HaltCall
      else
        say (PrintString (txt "Opening file quicksort.txt successfully" ++ [10]));;
        write_elements n output a buffer;;
        say (PrintString (txt "Writing to file quicksort.txt successfully" ++ [10]));;
        say (Close output);;
        say HaltCall.

(** *** Exchanging elements of an array *)

Lemma insert_perm {A} (l : list A) k x : (k < length l)%nat -> <[k := x]> l ≡ₚ x :: delete k l.
Proof.
  intros Hk. rewrite insert_take_drop by done. rewrite delete_take_drop.
  symmetry. apply Permutation_middle.
Qed.
(** The element [y] of place [k] goes to place [j], [x] to place [k]. *)
Lemma zset_swap_perm (l : list Z) j k x y :
  0 <= j < zlen l -> zget l k = Some y -> zset (zset l j y) k x ≡ₚ zset l j x.
Proof.
  intros Hj Hk. pose proof (zget_Some_range _ _ _ Hk) as Hr.
  unfold zget in Hk. unfold zset. rewrite decide_True in Hk by lia. rewrite !decide_True by lia.
  unfold zlen in *. set (a := Z.to_nat j) in *. set (b := Z.to_nat k) in *.
  destruct (decide (a = b)) as [->|Hne]; [by rewrite list_insert_insert_eq|].
  rewrite (insert_perm _ b x) by (rewrite length_insert; lia).
  rewrite (insert_perm _ a x) by lia. apply Permutation_cons; [done|].
  apply (Permutation_cons_inv (a := y)).
  rewrite <-(delete_Permutation (<[a:=y]> l) b y) by (by rewrite list_lookup_insert_ne).
  apply insert_perm. lia.
Qed.
(** A permutation that changes nothing outside [lo <= k < hi] permutes the
    elements inside. *)
Lemma perm_inside (l l' : list Z) lo hi (P : Z -> Prop) :
  l' ≡ₚ l -> 0 <= lo <= hi -> (forall k, ~ lo <= k < hi -> zget l' k = zget l k) ->
  (forall k x, lo <= k < hi -> zget l k = Some x -> P x) ->
  forall k x, lo <= k < hi -> zget l' k = Some x -> P x.
Proof.
  intros Hp Hlo Hout Hin k x Hk Hx.
  assert (zlen l' = zlen l) as Hl by (unfold zlen; by rewrite Hp).
  assert (slice lo (hi - lo) l' ≡ₚ slice lo (hi - lo) l) as Hs.
  { assert (forall m : list Z, m = take (Z.to_nat lo) m ++ slice lo (hi - lo) m ++ drop (Z.to_nat hi) m) as Hcut.
    { intros m. unfold slice. replace (Z.to_nat hi) with (Z.to_nat lo + Z.to_nat (hi - lo))%nat by lia.
      rewrite <-drop_drop, take_drop. by rewrite take_drop. }
    assert (take (Z.to_nat lo) l' = take (Z.to_nat lo) l) as E1.
    { apply list_eq. intros m. rewrite !lookup_take. case_decide; [|done].
      rewrite <-!zget_nat. apply Hout. lia. }
    assert (drop (Z.to_nat hi) l' = drop (Z.to_nat hi) l) as E2.
    { apply list_eq. intros m. rewrite !lookup_drop. rewrite <-!zget_nat. apply Hout. lia. }
    rewrite (Hcut l'), (Hcut l), E1, E2 in Hp.
    apply Permutation_app_inv_l, Permutation_app_inv_r in Hp. done. }
  assert (x ∈ slice lo (hi - lo) l) as Hxin.
  { rewrite <-Hs. apply elem_of_zget. exists (k - lo). rewrite zget_slice by lia.
    rewrite decide_True by lia. by replace (lo + (k - lo)) with k by lia. }
  apply elem_of_zget in Hxin as [m Hm].
  pose proof (zget_Some_range _ _ _ Hm) as Hr. rewrite zget_slice in Hm by lia.
  case_decide; [|done]. apply (Hin (lo + m)); [lia|done].
Qed.

(** *** The partition *)

Lemma down_spec a piv L : forall fuel R,
  0 <= L <= R -> R < zlen a -> R - L < Z.of_nat fuel ->
  exists R', down fuel a piv L R = Ok R' /\ L <= R' <= R /\
    (forall k x, R' < k <= R -> zget a k = Some x -> piv <= x) /\
    (L < R' -> exists x, zget a R' = Some x /\ x < piv).
Proof.
  induction fuel as [|f IH]; intros R HL HR Hf; [lia|]. simpl.
  destruct (rd_total a R ltac:(lia)) as (v & -> & Hv). simpl.
  destruct (Z.leb_spec piv v) as [Hp|Hp]; [destruct (Z.ltb_spec L R) as [Hlt|Hlt]|]; simpl.
  - destruct (IH (R - 1)) as (R' & -> & ? & Hge & Hlow); [lia..|].
    exists R'. split_and!; try done; try lia. intros k x Hk Hx.
    destruct (decide (k = R)) as [->|]; [congruence|]. apply (Hge k); [lia|done].
  - exists R. split_and!; try done; try lia.
  - exists R. split_and!; try done; try lia. by exists v.
Qed.
Lemma up_spec a piv R : forall fuel L,
  0 <= L <= R -> R < zlen a -> R - L < Z.of_nat fuel ->
  exists L', up fuel a piv L R = Ok L' /\ L <= L' <= R /\
    (forall k x, L <= k < L' -> zget a k = Some x -> x <= piv) /\
    (L' < R -> exists x, zget a L' = Some x /\ piv < x).
Proof.
  induction fuel as [|f IH]; intros L HL HR Hf; [lia|]. simpl.
  destruct (rd_total a L ltac:(lia)) as (v & -> & Hv). simpl.
  destruct (Z.leb_spec v piv) as [Hp|Hp]; [destruct (Z.ltb_spec L R) as [Hlt|Hlt]|]; simpl.
  - destruct (IH (L + 1)) as (L' & -> & ? & Hle & Hhigh); [lia..|].
    exists L'. split_and!; try done; try lia. intros k x Hk Hx.
    destruct (decide (k = L)) as [->|]; [congruence|]. apply (Hle k); [lia|done].
  - exists L. split_and!; try done; try lia.
  - exists L. split_and!; try done; try lia. by exists v.
Qed.

(** During the partition of [lo <= k <= hi] of [a0] by [piv] the array has a hole at
    [h], where the pivot belongs. *)
Record holed (a0 a : list Z) (piv lo hi L R h : Z) : Prop := {
  hd_range : 0 <= lo <= L /\ L <= R <= hi /\ hi < zlen a0;
  hd_hole : h = L \/ h = R;
  hd_perm : zset a h piv ≡ₚ a0;
  hd_left : forall k x, lo <= k < L -> zget a k = Some x -> x <= piv;
  hd_right : forall k x, R < k <= hi -> zget a k = Some x -> piv <= x;
  hd_out : forall k, ~ lo <= k <= hi -> zget a k = zget a0 k
}.
Lemma holed_len a0 a piv lo hi L R h : holed a0 a piv lo hi L R h -> zlen a = zlen a0.
Proof.
  intros H. pose proof (Permutation_length (hd_perm _ _ _ _ _ _ _ _ H)) as Hl.
  rewrite <-(zlen_zset a h piv). unfold zlen. lia.
Qed.
(** [arr[L++] = arr[R]]: the hole moves from the left to the right. *)
Lemma holed_right a0 a piv lo hi L R y :
  holed a0 a piv lo hi L R L -> L < R -> zget a R = Some y -> y <= piv ->
  holed a0 (zset a L y) piv lo hi (L + 1) R R.
Proof.
  intros H HLR Hy Hle. pose proof (holed_len _ _ _ _ _ _ _ _ H) as Hl. destruct H as [Hr _ Hp Hlf Hrt Ho].
  split; [lia|by right| | | |].
  - rewrite zset_swap_perm by (done || lia). done.
  - intros k x Hk. rewrite zget_zset. case_decide; [congruence|]. apply Hlf. lia.
  - intros k x Hk. rewrite zget_zset_ne by lia. by apply Hrt.
  - intros k Hk. rewrite zget_zset_ne by lia. by apply Ho.
Qed.
(** [arr[R--] = arr[L]]: the hole moves back. *)
Lemma holed_left a0 a piv lo hi L R y :
  holed a0 a piv lo hi L R R -> L < R -> zget a L = Some y -> piv <= y ->
  holed a0 (zset a R y) piv lo hi L (R - 1) L.
Proof.
  intros H HLR Hy Hle. pose proof (holed_len _ _ _ _ _ _ _ _ H) as Hl. destruct H as [Hr _ Hp Hlf Hrt Ho].
  split; [lia|by left| | | |].
  - rewrite zset_swap_perm by (done || lia). done.
  - intros k x Hk. rewrite zget_zset_ne by lia. by apply Hlf.
  - intros k x Hk. rewrite zget_zset. case_decide; [congruence|]. apply Hrt. lia.
  - intros k Hk. rewrite zget_zset_ne by lia. by apply Ho.
Qed.
(** The two bounds close in on elements that are on their side. *)
Lemma holed_narrow a0 a piv lo hi L R h L' R' :
  holed a0 a piv lo hi L R h -> L <= L' -> L' <= R' -> R' <= R -> h = L' \/ h = R' ->
  (forall k x, L <= k < L' -> zget a k = Some x -> x <= piv) ->
  (forall k x, R' < k <= R -> zget a k = Some x -> piv <= x) ->
  holed a0 a piv lo hi L' R' h.
Proof.
  intros [Hr _ Hp Hlf Hrt Ho] H1 H2 H3 Hh Hnl Hnr. split; [lia|done|done| | |done].
  - intros k x Hk Hx. destruct (Z.lt_ge_cases k L); [apply (Hlf k); [lia|done]|apply (Hnl k); [lia|done]].
  - intros k x Hk Hx. destruct (Z.lt_ge_cases R k); [apply (Hrt k); [lia|done]|apply (Hnr k); [lia|done]].
Qed.

Lemma partition_spec a0 piv lo hi : forall fuel a L R,
  holed a0 a piv lo hi L R L -> R - L < Z.of_nat fuel ->
  exists a' L', partition fuel a piv L R = Ok (a', L') /\ holed a0 a' piv lo hi L' L' L'.
Proof.
  induction fuel as [|f IH]; intros a L R H Hf.
  { pose proof (hd_range _ _ _ _ _ _ _ _ H). lia. }
  pose proof (holed_len _ _ _ _ _ _ _ _ H) as Hl. pose proof (hd_range _ _ _ _ _ _ _ _ H) as Hr.
  cbn [partition]. destruct (Z.ltb_spec L R) as [Hlt|Hlt].
  2:{ replace R with L in H by lia. eauto. }
  destruct (down_spec a piv L (S (Z.to_nat (R - L))) R) as (R1 & -> & HR1 & Hge & Hlow); [lia..|].
  cbn [mbind res_bind]. assert (holed a0 a piv lo hi L R1 L) as H1.
  { apply (holed_narrow _ _ _ _ _ L R); try done; try lia. }
  destruct (Z.ltb_spec L R1) as [Hlt1|Hlt1].
  - destruct (Hlow Hlt1) as (y & Hy & Hyp). rewrite (proj2 (rd_Ok _ _ _) Hy). cbn [mbind res_bind].
    rewrite wr_Ok by lia. cbn [mbind res_bind].
    pose proof (holed_right _ _ _ _ _ _ _ _ H1 Hlt1 Hy ltac:(lia)) as H2.
    pose proof (holed_len _ _ _ _ _ _ _ _ H2) as Hl2.
    destruct (up_spec (zset a L y) piv R1 (S (Z.to_nat (R1 - (L + 1)))) (L + 1))
      as (L1 & -> & HL1 & Hle & Hhigh); [lia..|].
    cbn [mbind res_bind]. assert (holed a0 (zset a L y) piv lo hi L1 R1 R1) as H3.
    { apply (holed_narrow _ _ _ _ _ (L + 1) R1); try done; try lia. }
    destruct (Z.ltb_spec L1 R1) as [Hlt2|Hlt2].
    + destruct (Hhigh Hlt2) as (z & Hz & Hzp). rewrite (proj2 (rd_Ok _ _ _) Hz). cbn [mbind res_bind].
      rewrite wr_Ok by lia. cbn [mbind res_bind]. apply IH; [|lia].
      by apply (holed_left _ _ _ _ _ _ _ _ H3); [| |lia].
    + replace R1 with L1 in H3 |- * by lia. apply IH; [done|lia].
  - replace R1 with L in * by lia. cbn [mbind res_bind].
    destruct (up_spec a piv L (S (Z.to_nat (L - L))) L) as (L1 & -> & HL1 & _); [lia..|].
    replace L1 with L by lia. cbn [mbind res_bind]. rewrite Z.ltb_irrefl. cbn [mbind res_bind].
    apply IH; [done|lia].
Qed.

(** *** The stack of intervals *)

(** No element in front of place [p] is greater; no element behind it (and in
    front of [n]) is smaller. *)
Definition below (a : list Z) (p : Z) : Prop :=
  forall q x y, 0 <= q < p -> zget a q = Some x -> zget a p = Some y -> x <= y.
Definition above (n : Z) (a : list Z) (p : Z) : Prop :=
  forall q x y, p < q < n -> zget a p = Some x -> zget a q = Some y -> x <= y.
(** [a'] is [a] with the places [lo <= k < hi] rearranged. *)
Record rearranged (a a' : list Z) (lo hi : Z) : Prop := {
  ra_perm : a' ≡ₚ a;
  ra_range : 0 <= lo <= hi;
  ra_out : forall k, ~ lo <= k < hi -> zget a' k = zget a k
}.
Lemma rearranged_inside a a' lo hi (P : Z -> Prop) :
  rearranged a a' lo hi -> (forall k x, lo <= k < hi -> zget a k = Some x -> P x) ->
  forall k x, lo <= k < hi -> zget a' k = Some x -> P x.
Proof. intros [Hp Hr Ho]. by apply perm_inside. Qed.
Lemma below_rearranged a a' lo hi p :
  rearranged a a' lo hi -> ~ lo <= p < hi -> below a p -> below a' p.
Proof.
  intros Hra Hp Hb q x y Hq Hx Hy. rewrite (ra_out _ _ _ _ Hra p Hp) in Hy.
  destruct (decide (lo <= q < hi)) as [Hin|Hin].
  - revert q x Hin Hx Hq. pose proof (ra_range _ _ _ _ Hra).
    intros q x Hin Hx Hq. apply (rearranged_inside a a' lo hi (fun x => x <= y) Hra) with (k := q); [|done|done].
    intros k z Hk Hz. apply (Hb k z y); [lia|done|done].
  - rewrite (ra_out _ _ _ _ Hra q Hin) in Hx. by apply (Hb q).
Qed.
Lemma above_rearranged n a a' lo hi p :
  rearranged a a' lo hi -> hi <= n -> ~ lo <= p < hi -> above n a p -> above n a' p.
Proof.
  intros Hra Hn Hp Hb q x y Hq Hx Hy. rewrite (ra_out _ _ _ _ Hra p Hp) in Hx.
  destruct (decide (lo <= q < hi)) as [Hin|Hin].
  - apply (rearranged_inside a a' lo hi (fun y => x <= y) Hra) with (k := q); [|done|done].
    intros k z Hk Hz. apply (Hb k x z); [lia|done|done].
  - rewrite (ra_out _ _ _ _ Hra q Hin) in Hy. by apply (Hb q).
Qed.

(** One partition of [b <= k < e], with the pivot put in its place. *)
Lemma partition_interval a b e piv :
  0 <= b -> b < e - 1 -> e <= zlen a -> zget a b = Some piv ->
  exists a1 L, partition (S (Z.to_nat (e - 1 - b))) a piv b (e - 1) = Ok (a1, L) /\ b <= L < e /\
    wr a1 L piv = Ok (zset a1 L piv) /\ rearranged a (zset a1 L piv) b e /\
    zget (zset a1 L piv) L = Some piv /\
    (forall k x, b <= k < L -> zget (zset a1 L piv) k = Some x -> x <= piv) /\
    (forall k x, L < k < e -> zget (zset a1 L piv) k = Some x -> piv <= x).
Proof.
  intros Hb Hbe He Hp.
  destruct (partition_spec a piv b (e - 1) (S (Z.to_nat (e - 1 - b))) a b (e - 1)) as (a1 & L & Hq & H); [|lia|].
  { split; try done; try lia. by rewrite zset_id. }
  pose proof (holed_len _ _ _ _ _ _ _ _ H) as Hl. destruct H as [Hr _ Hpm Hlf Hrt Ho].
  exists a1, L. split_and!; try done; try lia.
  - apply wr_Ok. lia.
  - split; [done|lia|]. intros k Hk. rewrite zget_zset_ne by lia. apply Ho. lia.
  - apply zget_zset_eq. lia.
  - intros k x Hk. rewrite zget_zset_ne by lia. by apply Hlf.
  - intros k x Hk. rewrite zget_zset_ne by lia. apply Hrt. lia.
Qed.

(** The end of the interval on top of the stack; 0 when the stack is empty. *)
Definition top (F : frame) : Z := match zget (end_ F) (i F) with Some e => e | None => 0 end.

(** The intervals on the stack lie behind each other, separated by pivots that
    are in their final place; everything behind the top one is in its place. *)
Record stack_inv (n : Z) (F : frame) : Prop := {
  si_lens : zlen (beg F) = MAX /\ zlen (end_ F) = MAX /\ 0 <= n <= zlen (arr F) /\ n <= MAX;
  si_i : -1 <= i F < MAX;
  si_ivl : forall k, 0 <= k <= i F -> exists b e, zget (beg F) k = Some b /\ zget (end_ F) k = Some e /\
    k <= b <= e /\ e <= n;
  si_first : 0 <= i F -> zget (beg F) 0 = Some 0;
  si_link : forall k e, 0 <= k < i F -> zget (end_ F) k = Some e -> zget (beg F) (k + 1) = Some (e + 1);
  si_piv : forall k e, 0 <= k < i F -> zget (end_ F) k = Some e -> below (arr F) e /\ above n (arr F) e;
  si_done : forall p, top F <= p < n -> below (arr F) p
}.
(** Everything in front of the top interval is at most what is in it. *)
Lemma front_small n F b e :
  stack_inv n F -> 0 <= i F -> zget (beg F) (i F) = Some b -> zget (end_ F) (i F) = Some e ->
  forall q p x y, 0 <= q < b -> b <= p < n -> zget (arr F) q = Some x -> zget (arr F) p = Some y -> x <= y.
Proof.
  intros [] Hi Hb He q p x y Hq Hp Hx Hy.
  assert (0 < i F) as Hpos.
  { destruct (decide (i F = 0)) as [E|]; [|lia]. specialize (si_first0 Hi). rewrite E in Hb.
    assert (b = 0) by congruence. lia. }
  destruct (si_ivl0 (i F - 1) ltac:(lia)) as (b' & e' & Hb' & He' & ? & ?).
  specialize (si_link0 (i F - 1) e' ltac:(lia) He').
  replace (i F - 1 + 1) with (i F) in si_link0 by lia. assert (b = e' + 1) as -> by congruence.
  destruct (si_piv0 (i F - 1) e' ltac:(lia) He') as [Hbl Hab].
  destruct (zget_is_Some (arr F) e') as [v Hv]; [lia|].
  assert (v <= y) by (apply (Hab p v y); [lia|done|done]).
  destruct (decide (q = e')) as [->|]; [assert (x = v) by congruence; lia|].
  assert (x <= v); [|lia]. apply (Hbl q x v); [lia|done|done].
Qed.

(** The pivots on the stack are in front of the top interval. *)
Lemma stack_order n F k e b :
  stack_inv n F -> 0 <= k < i F -> zget (end_ F) k = Some e -> zget (beg F) (i F) = Some b -> e < b.
Proof.
  intros [] Hk He Hb.
  assert (forall d : nat, k + 1 + Z.of_nat d <= i F ->
    exists b', zget (beg F) (k + 1 + Z.of_nat d) = Some b' /\ e < b') as Hd.
  { induction d as [|d IH]; intros Hle.
    - exists (e + 1). rewrite <-(si_link0 k e Hk He). split; [f_equal; lia|lia].
    - destruct IH as (b' & Hb' & Hlt); [lia|].
      destruct (si_ivl0 (k + 1 + Z.of_nat d) ltac:(lia)) as (b1 & e1 & Hb1 & He1 & ? & _).
      assert (b1 = b') as -> by congruence. exists (e1 + 1).
      rewrite <-(si_link0 (k + 1 + Z.of_nat d) e1 ltac:(lia) He1). split; [f_equal; lia|lia]. }
  destruct (Hd (Z.to_nat (i F - k - 1)) ltac:(lia)) as (b' & Hb' & Hlt).
  replace (k + 1 + Z.of_nat (Z.to_nat (i F - k - 1))) with (i F) in Hb' by lia. congruence.
Qed.
(** An interval of at most one element is in its place. *)
Lemma pop_inv n F b e t :
  stack_inv n F -> 0 <= i F -> zget (beg F) (i F) = Some b -> zget (end_ F) (i F) = Some e ->
  ~ b < e - 1 -> stack_inv n (mkFrame (arr F) (beg F) (end_ F) (i F - 1) t).
Proof.
  intros H Hi Hb He Hbe. pose proof (front_small n F b e H Hi Hb He) as Hfront.
  assert (top F = e) as Htop by (unfold top; by rewrite He). destruct H.
  split; cbn [arr beg end_ i]; try done; try lia.
  - intros k Hk. apply si_ivl0. lia.
  - intros _. by apply si_first0.
  - intros k e' Hk. apply si_link0. lia.
  - intros k e' Hk. apply si_piv0. lia.
  - intros p Hp. destruct (Z.lt_ge_cases p e) as [Hlt|Hge]; [|apply si_done0; lia].
    unfold top in Hp. cbn [end_ i] in Hp.
    destruct (decide (i F = 0)) as [E|].
    + rewrite E in *. assert (b = 0) as -> by (specialize (si_first0 ltac:(lia)); congruence).
      intros q x y Hq. lia.
    + destruct (si_ivl0 (i F - 1) ltac:(lia)) as (b' & e' & Hb' & He' & ? & ?). rewrite He' in Hp.
      specialize (si_link0 (i F - 1) e' ltac:(lia) He').
      replace (i F - 1 + 1) with (i F) in si_link0 by lia. assert (b = e' + 1) as -> by congruence.
      destruct (decide (p = e')) as [->|]; [by apply (si_piv0 (i F - 1)); [lia|]|].
      intros q x y Hq. apply Hfront; lia.
Qed.
(** The pivot of the top interval is in its final place. *)
Lemma pivot_placed n F b e a' L piv :
  stack_inv n F -> 0 <= i F -> zget (beg F) (i F) = Some b -> zget (end_ F) (i F) = Some e -> b <= L < e ->
  rearranged (arr F) a' b e -> zget a' L = Some piv ->
  (forall k x, b <= k < L -> zget a' k = Some x -> x <= piv) ->
  (forall k x, L < k < e -> zget a' k = Some x -> piv <= x) ->
  below a' L /\ above n a' L.
Proof.
  intros H Hi Hb He HL Hra Hpiv Hsm Hgr. pose proof (front_small n F b e H Hi Hb He) as Hfront.
  assert (top F = e) as Htop by (unfold top; by rewrite He).
  destruct (si_ivl _ _ H (i F) ltac:(lia)) as (b0 & e0 & Hb0 & He0 & ? & ?).
  assert (b0 = b) as -> by congruence. assert (e0 = e) as -> by congruence. split.
  - intros q x y Hq Hx Hy. assert (y = piv) as -> by congruence.
    destruct (Z.lt_ge_cases q b) as [Hqb|Hqb]; [|apply (Hsm q); [lia|done]].
    rewrite (ra_out _ _ _ _ Hra) in Hx by lia.
    apply (rearranged_inside _ _ _ _ (fun y => x <= y) Hra) with (k := L); [|lia|done].
    intros k z Hk Hz. apply (Hfront q k x z); [lia|lia|done|done].
  - intros q x y Hq Hx Hy. assert (x = piv) as -> by congruence.
    destruct (Z.lt_ge_cases q e) as [Hqe|Hqe]; [apply (Hgr q); [lia|done]|].
    assert (below a' q) as Hq'
      by (apply (below_rearranged _ _ _ _ _ Hra); [lia|apply (si_done _ _ H); lia]).
    apply (Hq' L piv y); [lia|done|done].
Qed.
(** Splitting the top interval at the place [L] of the pivot. *)
Lemma split_inv n F b e t a' L piv :
  stack_inv n F -> 0 <= i F -> i F + 1 < MAX ->
  zget (beg F) (i F) = Some b -> zget (end_ F) (i F) = Some e -> b <= L < e ->
  rearranged (arr F) a' b e -> zget a' L = Some piv ->
  (forall k x, b <= k < L -> zget a' k = Some x -> x <= piv) ->
  (forall k x, L < k < e -> zget a' k = Some x -> piv <= x) ->
  stack_inv n (mkFrame a' (zset (beg F) (i F + 1) (L + 1)) (zset (zset (end_ F) (i F + 1) e) (i F) L) (i F + 1) t).
Proof.
  intros H Hi HiM Hb He HL Hra Hpiv Hsm Hgr.
  destruct (pivot_placed n F b e a' L piv) as [HbL HaL]; try done.
  assert (top F = e) as Htop by (unfold top; by rewrite He).
  assert (forall k e', 0 <= k < i F -> zget (end_ F) k = Some e' -> e' < b) as Hord
    by (intros k e' Hk He'; by apply (stack_order n F k e' b)). destruct H.
  assert (zlen a' = zlen (arr F)) as Hlen by (unfold zlen; by rewrite (ra_perm _ _ _ _ Hra)).
  destruct (si_ivl0 (i F) ltac:(lia)) as (b0 & e0 & Hb0 & He0 & ? & ?).
  assert (b0 = b) as -> by congruence. assert (e0 = e) as -> by congruence.
  split; cbn [arr beg end_ i]; rewrite ?zlen_zset, ?Hlen; try done; try lia.
  - intros k Hk. destruct (decide (k = i F + 1)) as [->|]; [|destruct (decide (k = i F)) as [->|]].
    + exists (L + 1), e. rewrite zget_zset_eq by lia. rewrite zget_zset_ne by lia.
      rewrite zget_zset_eq by lia. split_and!; try done; lia.
    + exists b, L. rewrite zget_zset_ne by lia. rewrite zget_zset_eq by (rewrite zlen_zset; lia).
      split_and!; try done; lia.
    + rewrite !zget_zset_ne by lia. apply si_ivl0. lia.
  - intros _. rewrite zget_zset_ne by lia. by apply si_first0.
  - intros k e' Hk. destruct (decide (k = i F)) as [->|].
    + rewrite zget_zset_eq by (rewrite zlen_zset; lia). intros [= <-]. apply zget_zset_eq. lia.
    + rewrite !zget_zset_ne by lia. apply si_link0. lia.
  - intros k e' Hk. destruct (decide (k = i F)) as [->|].
    + rewrite zget_zset_eq by (rewrite zlen_zset; lia). by intros [= <-].
    + rewrite !zget_zset_ne by lia. intros He'.
      pose proof (Hord k e' ltac:(lia) He').
      destruct (si_piv0 k e' ltac:(lia) He'). split.
      * apply (below_rearranged _ _ _ _ _ Hra); [lia|done].
      * apply (above_rearranged _ _ _ _ _ _ Hra); [lia|lia|done].
  - intros p Hp. unfold top in Hp. cbn [end_ i] in Hp.
    rewrite zget_zset_ne, zget_zset_eq in Hp by lia.
    apply (below_rearranged _ _ _ _ _ Hra); [lia|]. apply si_done0. lia.
Qed.

(** Rounds that are left at most. *)
Definition rounds (F : frame) : Z := if i F <? 0 then 0 else 2 * top F - i F + 1.
Lemma body_spec n F :
  stack_inv n F -> 0 <= i F ->
  exists F', body F = Ok (inl F') /\ stack_inv n F' /\ rounds F' < rounds F /\
    totalShifting F' = totalShifting F + 1 /\ rearranged (arr F) (arr F') 0 n.
Proof.
  intros H Hi. pose proof H as [[Hlb [Hle Hln]] HiM Hivl _ _ _ _].
  destruct (Hivl (i F) ltac:(lia)) as (b & e & Hb & He & Hbe & Hen).
  assert (top F = e) as Htop by (unfold top; by rewrite He).
  assert (rounds F = 2 * e - i F + 1) as HrF by (unfold rounds; rewrite Htop; zcases).
  unfold body. rewrite (proj2 (rd_Ok _ _ _) Hb), (proj2 (rd_Ok _ _ _) He). cbn [mbind res_bind].
  destruct (Z.ltb_spec b (e - 1)) as [Hlt|Hge].
  - destruct (zget_is_Some (arr F) b) as [piv Hpiv]; [lia|].
    rewrite (proj2 (rd_Ok _ _ _) Hpiv). cbn [mbind res_bind].
    rewrite (proj2 (Z.eqb_neq _ _)) by (unfold MAX in *; lia).
    destruct (partition_interval (arr F) b e piv) as (a1 & L & -> & HL & Hw & Hra & HpL & Hsm & Hgr); try done; try lia.
    cbn [mbind res_bind]. rewrite Hw. cbn [mbind res_bind].
    assert (i F + 1 < MAX) by (unfold MAX in *; lia).
    repeat (rewrite wr_Ok by (rewrite ?zlen_zset; lia); cbn [mbind res_bind]).
    eexists. split; [done|]. split; [by apply (split_inv n F b e _ _ L piv); try done; lia|].
    cbn [arr totalShifting]. split_and!; [|done|].
    + rewrite HrF. unfold rounds, top. cbn [i end_]. rewrite zget_zset_ne, zget_zset_eq by lia. zcases.
    + destruct Hra as [Hp ? Ho]. split; [done|lia|]. intros k Hk. apply Ho. lia.
  - eexists. split; [done|]. split; [by apply (pop_inv n F b e); try done; lia|].
    cbn [arr totalShifting]. split_and!; [|done|by split; [done|lia|]].
    rewrite HrF. unfold rounds, top. cbn [i end_]. destruct (Z.ltb_spec (i F - 1) 0) as [|Hi']; [lia|].
    destruct (Hivl (i F - 1) ltac:(lia)) as (b' & e' & Hb' & He' & _). rewrite He'.
    pose proof (stack_order n F (i F - 1) e' b H ltac:(lia) He' Hb). lia.
Qed.
Lemma loop_spec n : forall fuel F,
  stack_inv n F -> rounds F < Z.of_nat fuel ->
  exists F', loop fuel F = Ok (inl F') /\ (forall p, 0 <= p < n -> below (arr F') p) /\
    rearranged (arr F) (arr F') 0 n /\ totalShifting F' <= totalShifting F + rounds F.
Proof.
  induction fuel as [|f IH]; intros F H Hf.
  { exfalso. assert (0 <= rounds F); [|lia]. unfold rounds, top. destruct (Z.ltb_spec (i F) 0); [lia|].
    destruct (si_ivl _ _ H (i F) ltac:(lia)) as (? & ? & _ & -> & ? & _). lia. }
  cbn [loop]. destruct (Z.leb_spec 0 (i F)) as [Hi|Hi].
  - destruct (body_spec n F H Hi) as (F1 & -> & H1 & Hr & Ht & Hra). cbn [mbind res_bind].
    destruct (IH F1 H1 ltac:(lia)) as (F' & -> & Hs & Hra' & Ht'). exists F'. split_and!; try done; [|lia].
    destruct Hra as [Hp ? Ho], Hra' as [Hp' ? Ho']. split; [by rewrite Hp'|done|].
    intros k Hk. by rewrite Ho', Ho.
  - exists F. pose proof (si_lens _ _ H). split_and!; try done.
    + intros p Hp. apply (si_done _ _ H). unfold top. rewrite zget_None by lia. done.
    + by split; [|lia|].
    + unfold rounds. zcases.
Qed.

(** The program sorts: every place holds no less than the places in front. *)
Definition sorted_upto (n : Z) (a : list Z) : Prop :=
  forall p q x y, 0 <= p < q -> q < n -> zget a p = Some x -> zget a q = Some y -> x <= y.
Lemma quicksort_spec jb je a n h :
  zlen jb = MAX -> zlen je = MAX -> 0 <= n <= zlen a -> n <= MAX ->
  exists a' t, quicksort jb je a n h =
      Ok ((0, a'), h ++ [PrintString (txt "Total shifting: ");
                         PrintInt t; PrintString [10]]) /\
    rearranged a a' 0 n /\ sorted_upto n a' /\ t <= 2 * n + 1.
Proof.
  intros Hjb Hje Hn HnM. unfold quicksort, MAX in *.
  rewrite (lift_bind_Ok _ _ _ _ (wr_Ok jb 0 0 ltac:(lia))), (lift_bind_Ok _ _ _ _ (wr_Ok je 0 n ltac:(lia))).
  set (F := mkFrame a (zset jb 0 0) (zset je 0 n) 0 0).
  assert (top F = n) as Htop by (unfold top, F; cbn [i end_]; by rewrite zget_zset_eq by lia).
  assert (rounds F = 2 * n + 1) as HrF by (unfold rounds; rewrite Htop; simpl; lia).
  destruct (loop_spec n (2 * Z.to_nat n + 4) F) as (F' & Hl & Hs & Hra & Ht); [|lia|].
  - split; unfold MAX; subst F; cbn [arr beg end_ i]; rewrite ?zlen_zset; try lia.
    + intros k Hk. assert (k = 0) as -> by lia. exists 0, n. rewrite !zget_zset_eq by lia. split_and!; try done; lia.
    + intros _. by rewrite zget_zset_eq by lia.
  - rewrite (lift_bind_Ok _ _ _ _ Hl). exists (arr F'), (totalShifting F'). split_and!.
    + unfold say, mbind, st_bind. cbn. by rewrite <-!app_assoc.
    + done.
    + intros p q x y Hp Hq. apply Hs; lia.
    + change (totalShifting F) with 0 in Ht. lia.
Qed.

(** *** The text of a number *)

Lemma count_size_spec k : forall v size, 0 <= v < 10 ^ Z.of_nat k ->
  count_size (S k) v size = Ok (size + zlen (dec_digits k v)).
Proof.
  induction k as [|k IH]; intros v size Hv.
  { change (10 ^ Z.of_nat 0) with 1 in Hv. replace v with 0 by lia. simpl. by rewrite Z.add_0_r. }
  rewrite Nat2Z.inj_succ, Z.pow_succ_r in Hv by lia.
  change (count_size (S (S k)) v size) with
    (if 0 <? v then count_size (S k) (Z.quot v 10) (size + 1) else Ok size).
  cbn [dec_digits]. destruct (Z.ltb_spec 0 v), (Z.eqb_spec v 0); try lia.
  - rewrite Z.quot_div_nonneg by lia. rewrite IH by lia_mod. f_equal. rewrite zlen_app, zlen_cons, zlen_nil. lia.
  - simpl. by rewrite Z.add_0_r.
Qed.
Lemma fill_spec k : forall v buf, 0 <= v < 10 ^ Z.of_nat k -> zlen (dec_digits k v) <= zlen buf ->
  fill (S k) (zlen (dec_digits k v) - 1) 0 v buf = Ok (dec_digits k v ++ drop (length (dec_digits k v)) buf).
Proof.
  induction k as [|k IH]; intros v buf Hv Hl.
  { change (10 ^ Z.of_nat 0) with 1 in Hv. by replace v with 0 by lia. }
  rewrite Nat2Z.inj_succ, Z.pow_succ_r in Hv by lia. revert Hl. cbn [dec_digits].
  destruct (Z.eqb_spec v 0) as [->|Hv0]; intros Hl; [done|].
  set (dd := dec_digits k (v / 10)) in *. rewrite zlen_app, zlen_cons, zlen_nil in Hl |- *.
  pose proof (zlen_nonneg dd). replace (zlen dd + (1 + 0) - 1) with (zlen dd) by lia.
  remember (S k) as m eqn:Em. cbn [fill].
  destruct (Z.leb_spec 0 (zlen dd)), (Z.ltb_spec 0 v); try lia. cbn [andb].
  rewrite wr_Ok by lia. cbn [mbind res_bind]. rewrite Z.quot_div_nonneg, Z.rem_mod_nonneg by lia. subst m.
  replace (to_char (v mod 10 + 48)) with (48 + v mod 10) by (unfold to_char; lia_mod).
  change (zlen dd - 1) with (zlen (dec_digits k (v / 10)) - 1).
  rewrite IH; fold dd; [|lia_mod|rewrite zlen_zset; lia]. f_equal. rewrite <-app_assoc. f_equal.
  unfold zset. rewrite decide_True by lia. unfold zlen. rewrite Nat2Z.id, length_app. simpl.
  rewrite insert_take_drop by (unfold zlen in *; lia).
  rewrite drop_app_length' by (rewrite length_take; unfold zlen in *; lia). f_equal. f_equal. lia.
Qed.
Lemma slice_zset_behind (l : list Z) n x : 0 <= n -> slice 0 n (zset l n x) = slice 0 n l.
Proof.
  intros Hn. apply zget_ext. intros k. rewrite !zget_slice by lia. case_decide; [|done].
  by rewrite zget_zset_ne by lia.
Qed.
Lemma slice_zset_last (l : list Z) n x :
  0 <= n < zlen l -> slice 0 (n + 1) (zset l n x) = slice 0 n l ++ [x].
Proof.
  intros Hn. apply zget_ext. intros k. rewrite zget_app, zlen_slice, !zget_slice by lia.
  replace (Z.max 0 (Z.min n (zlen l - 0))) with n by lia.
  repeat case_decide; try lia; try done.
  - by rewrite zget_zset_ne by lia.
  - replace (0 + k) with n by lia. rewrite zget_zset_eq by lia. by replace (k - n) with 0 by lia.
  - symmetry. apply zget_None. unfold zlen. simpl. lia.
Qed.
Lemma number_text_spec v is_last buffer :
  0 <= v < two31 -> zlen buffer = 20 ->
  exists buf size ds, number_text v is_last buffer = Ok (buf, size) /\ zlen buf = 20 /\ decimal ds v /\
    slice 0 size buf = ds ++ (if is_last then [] else [32]).
Proof.
  intros Hv Hb. unfold two31 in Hv.
  assert (exists b0 ds, (if v =? 0 then b ← wr buffer 0 48; Ok (b, 1, 0, v) else Ok (buffer, 0, 0, v)) =
      Ok (b0, if v =? 0 then 1 else 0, 0, v) /\ decimal ds v /\
    count_size 11 v (if v =? 0 then 1 else 0) = Ok (zlen ds) /\
    fill 11 (zlen ds + 0 - 1) 0 v b0 = Ok (ds ++ drop (length ds) buffer) /\ zlen ds <= 10) as (b0 & ds & H1 & Hd & H2 & H3 & H4).
  { destruct (Z.eqb_spec v 0) as [->|Hv0].
    - exists (zset buffer 0 48), [48]. rewrite wr_Ok by lia. split_and!; try done.
      + unfold decimal. split_and!; try done. by apply Forall_singleton.
      + simpl. by destruct buffer.
    - exists buffer, (dec_digits 10 v). pose proof (zlen_dec_digits 10 v ltac:(lia)). split_and!; try done.
      + apply dec_digits_decimal. simpl. lia.
      + rewrite (count_size_spec 10) by (simpl; lia). done.
      + rewrite Z.add_0_r. apply (fill_spec 10); [simpl; lia|lia]. }
  unfold number_text. destruct (Z.ltb_spec v 0); [lia|]. rewrite H1. cbn [mbind res_bind]. rewrite H2.
  cbn [mbind res_bind]. rewrite H3. cbn [mbind res_bind].
  pose proof (zlen_nonneg ds) as Hds.
  assert (zlen (ds ++ drop (length ds) buffer) = 20) as Hl
    by (rewrite zlen_app; unfold zlen in *; rewrite length_drop; lia).
  assert (slice 0 (zlen ds) (ds ++ drop (length ds) buffer) = ds) as Hs.
  { unfold slice, zlen. rewrite drop_0, Nat2Z.id. by rewrite take_app_length. }
  destruct is_last; cbn [negb mbind res_bind].
  - rewrite wr_Ok by lia. cbn [mbind res_bind]. eexists _, (zlen ds), ds. split; [done|].
    rewrite zlen_zset, slice_zset_behind, Hs, app_nil_r by lia. done.
  - rewrite wr_Ok by lia. cbn [mbind res_bind]. rewrite wr_Ok by (rewrite zlen_zset; lia). cbn [mbind res_bind].
    eexists _, (zlen ds + 1), ds. split; [done|].
    rewrite !zlen_zset, slice_zset_behind, slice_zset_last, Hs by lia. done.
Qed.

(** *** The whole program *)

Definition reads (h : list call) : Z := zlen (filter (fun c => c = ReadInt) h).
(** What the calls of [h] write to the file [id]. *)
Definition written (id : Z) (h : list call) : list Z :=
  h ≫= fun c => match c with Write b n j => if j =? id then slice 0 n b else [] | _ => [] end.
(** A user types the length of [xs] and then [xs]; the file can be created and
    is opened as [id]. *)
Record typist (env : list call -> call -> Z) (xs : list Z) (id : Z) : Prop := {
  ty_n : forall h, reads h = 0 -> env h ReadInt = zlen xs;
  ty_x : forall h k x, reads h = k + 1 -> zget xs k = Some x -> env h ReadInt = x;
  ty_create : forall h nm, env h (Create nm) <> -1;
  ty_open : forall h nm t, env h (Open nm t) = id
}.
(** Texts separated by spaces. *)
Fixpoint join (ts : list (list Z)) : list Z :=
  match ts with
  | [] => []
  | [t] => t
  | t :: ts' => t ++ 32 :: join ts'
  end.
Lemma join_snoc ts t : join (ts ++ [t]) = (ts ≫= fun u => u ++ [32]) ++ t.
Proof.
  induction ts as [|u ts IH]; [done|]. cbn [app]. destruct (ts ++ [t]) as [|v vs] eqn:E.
  - by destruct ts.
  - rewrite bind_cons, <-!app_assoc. simpl. f_equal. f_equal. exact IH.
Qed.

Lemma reads_app h h' : reads (h ++ h') = reads h + reads h'.
Proof. unfold reads. rewrite list.filter_app. apply zlen_app. Qed.
Lemma reads_other c : c <> ReadInt -> reads [c] = 0.
Proof. intros Hc. unfold reads. by rewrite filter_cons_False. Qed.
Lemma written_app id h h' : written id (h ++ h') = written id h ++ written id h'.
Proof. unfold written. apply bind_app. Qed.

Lemma read_elements_spec env xs id a h :
  typist env xs id -> reads h = 1 -> zlen xs <= zlen a ->
  exists a' h', read_elements env 0 (zlen xs) a h = Ok (a', h') /\ zlen a' = zlen a /\
    (forall k, 0 <= k < zlen xs -> zget a' k = zget xs k) /\ written id h' = written id h.
Proof.
  intros Hty Hr Hl. unfold read_elements.
  destruct (for_st_inv (fun i a1 h1 => zlen a1 = zlen a /\ (forall k, 0 <= k < i -> zget a1 k = zget xs k) /\
    reads h1 = i + 1 /\ written id h1 = written id h)
    (fun count a => say (PrintString (txt "Element "));; say (PrintInt count);;
       say (PrintString (txt ": "));; v ← ask env ReadInt; lift (wr a count v))
    0 (zlen xs) a h) as (a' & h' & -> & Ha & Hk & _ & Hw).
  - apply zlen_nonneg.
  - split_and!; try done. intros k Hk. lia.
  - intros i a1 h1 Hi (Ha & Hk & Hr1 & Hw). destruct (zget_is_Some xs i Hi) as [x Hx].
    unfold say, ask, mbind, st_bind, lift. rewrite wr_Ok by lia. cbn [mbind res_bind].
    rewrite (ty_x _ _ _ Hty _ i x); [|rewrite !reads_app, !reads_other by done; lia|done].
    eexists _, _. split; [done|]. rewrite zlen_zset. split_and!; try done.
    + intros k Hki. rewrite zget_zset. case_decide as Hd; [destruct Hd as [<- _]; done|]. apply Hk. lia.
    + rewrite !reads_app, !reads_other, Hr1 by done. rewrite (eq_refl : reads [ReadInt] = 1). lia.
    + rewrite !written_app, Hw. by rewrite !app_nil_r.
  - by exists a', h'.
Qed.
Lemma write_elements_spec n id a buffer h :
  0 < n <= zlen a -> (forall k x, 0 <= k < n -> zget a k = Some x -> 0 <= x < two31) -> zlen buffer = 20 ->
  exists buf h' texts, write_elements n id a buffer h = Ok (buf, h') /\
    Forall2 decimal texts (slice 0 n a) /\ written id h' = written id h ++ join texts.
Proof.
  intros Hn Hx Hb. unfold write_elements.
  destruct (for_st_inv (fun i b1 h1 => zlen b1 = 20 /\ exists ts, Forall2 decimal ts (slice 0 i a) /\
    written id h1 = written id h ++ (if i =? n then join ts else ts ≫= fun u => u ++ [32]))
    (fun count buffer => tmp ← lift (rd a count);
       '(strBuffer, size) ← lift (number_text tmp (count =? n - 1) buffer);
       say (Write strBuffer size id);; mret strBuffer) 0 n buffer h) as (b' & h' & -> & Hb' & ts & Hts & Hw).
  - lia.
  - split; [done|]. exists []. split; [by rewrite (eq_refl : slice 0 0 a = [])|].
    destruct (0 =? n); by rewrite app_nil_r.
  - intros i b1 h1 Hi (Hb1 & ts & Hts & Hw). destruct (zget_is_Some a i) as [x Hax]; [lia|].
    rewrite (lift_bind_Ok _ _ _ _ (proj2 (rd_Ok _ _ _) Hax)).
    destruct (number_text_spec x (i =? n - 1) b1 (Hx i x ltac:(lia) Hax) Hb1) as (b2 & sz & ds & Hnt & Hb2 & Hd & Hs).
    rewrite (lift_bind_Ok _ _ _ _ Hnt). eexists b2, _. split; [done|]. split; [done|]. exists (ts ++ [ds]). split.
    + replace (slice 0 (i + 1) a) with (slice 0 i a ++ [x]); [by apply Forall2_app; [|constructor]|].
      rewrite <-(zset_id a i x Hax) at 2. symmetry. apply slice_zset_last. lia.
    + rewrite written_app, Hw, <-app_assoc. f_equal. destruct (Z.eqb_spec i n); [lia|].
      assert (written id [Write b2 sz id] = slice 0 sz b2) as -> by (unfold written; simpl; by rewrite Z.eqb_refl, app_nil_r).
      rewrite Hs. destruct (Z.eqb_spec i (n - 1)), (Z.eqb_spec (i + 1) n); try lia.
      * by rewrite app_nil_r, join_snoc.
      * rewrite bind_app. simpl. by rewrite app_nil_r.
  - rewrite Z.eqb_refl in Hw. by exists b', h', ts.
Qed.

Lemma sorted_upto_sorted (l : list Z) : sorted_upto (zlen l) l -> StronglySorted Z.le l.
Proof.
  induction l as [|x l IH]; intros Hs; [constructor|]. pose proof (zlen_nonneg l) as Hl.
  unfold sorted_upto in Hs. rewrite zlen_cons in Hs. constructor.
  - apply IH. intros p q y z Hp Hq Hy Hz. apply (Hs (p + 1) (q + 1)); [lia|lia| |].
    + rewrite zget_cons_S by lia. by replace (p + 1 - 1) with p by lia.
    + rewrite zget_cons_S by lia. by replace (q + 1 - 1) with q by lia.
  - apply Forall_forall. intros y Hy. apply elem_of_zget in Hy as [k Hk].
    pose proof (zget_Some_range _ _ _ Hk). apply (Hs 0 (k + 1)); [lia|lia|done|].
    rewrite zget_cons_S by lia. by replace (k + 1 - 1) with k by lia.
Qed.
(** The elements in front of [n] are a sorted permutation of what was there. *)
Lemma rearranged_front a a' n :
  rearranged a a' 0 n -> n <= zlen a -> sorted_upto n a' ->
  slice 0 n a' ≡ₚ slice 0 n a /\ StronglySorted Z.le (slice 0 n a').
Proof.
  intros [Hp Hr Ho] Hn Hs. assert (zlen a' = zlen a) as Hl by (unfold zlen; by rewrite Hp). split.
  - assert (drop (Z.to_nat n) a' = drop (Z.to_nat n) a) as E.
    { apply list_eq. intros m. rewrite !lookup_drop, <-!zget_nat. apply Ho. lia. }
    unfold slice. rewrite !drop_0. rewrite <-(take_drop (Z.to_nat n) a'), <-(take_drop (Z.to_nat n) a), E in Hp.
    by apply Permutation_app_inv_r in Hp.
  - apply sorted_upto_sorted. rewrite zlen_slice by lia. intros p q x y Hpq Hq Hx Hy.
    rewrite zget_slice in Hx, Hy by lia. rewrite decide_True in Hx by lia. rewrite decide_True in Hy by lia.
    apply (Hs p q); [lia|lia|done|done].
Qed.

(** C30. Sorting a file of numbers.  When the uninitialised [count] of [main]
    happens to be 0, a user types a count from 1 to 99 and then so many
    non-negative numbers, and the kernel lets the program create and open its
    file, the program ends in Halt without leaving its arrays or
    its stack of intervals, and the text it has written to the file is the
    decimal forms, separated by single spaces, of a sorted permutation of the
    numbers typed. *)
Theorem quicksort_program (env : list call -> call -> Z) (xs : list Z) (id : Z) (a buffer jb je : list Z) :
  0 < zlen xs <= MAX -> Forall (fun x => 0 <= x < two31) xs -> id <> -1 -> typist env xs id ->
  zlen a = MAX -> zlen buffer = 20 -> zlen jb = MAX -> zlen je = MAX ->
  exists h ys texts, main env 0 a buffer jb je [] = Ok (tt, h ++ [HaltCall]) /\
    ys ≡ₚ xs /\ StronglySorted Z.le ys /\ Forall2 decimal texts ys /\ written id h = join texts.
Proof.
  intros Hn Hxs Hid Hty Ha Hb Hjb Hje. unfold main.
  rewrite (st_bind_Ok _ _ _ tt [PrintString (txt "Enter the number of elements: ")]) by done.
  rewrite (st_bind_Ok _ _ _ (zlen xs) [PrintString (txt "Enter the number of elements: "); ReadInt])
    by (unfold ask; by rewrite (ty_n _ _ _ Hty)).
  destruct (Z.leb_spec (zlen xs) 0), (Z.ltb_spec MAX (zlen xs)); try lia. cbn [orb].
  rewrite (st_bind_Ok _ _ _ tt _ (eq_refl : say _ _ = _)).
  name_history (read_elements env 0 (zlen xs) a) h1.
  destruct (read_elements_spec env xs id a h1) as (a1 & h2 & Hre & Hl1 & Hk1 & Hw2); [done|done|lia|].
  rewrite (st_bind_Ok _ _ _ _ _ Hre).
  destruct (quicksort_spec jb je a1 (zlen xs) h2) as (a2 & t & Hqs & Hra & Hso & _); [done|done|lia|lia|].
  rewrite (st_bind_Ok _ _ _ _ _ Hqs).
  destruct (rearranged_front a1 a2 (zlen xs) Hra) as [Hperm Hsort]; [lia|done|].
  assert (slice 0 (zlen xs) a1 = xs) as Hxs1.
  { apply zget_ext_range; rewrite zlen_slice by lia; [lia|]. intros k Hk.
    rewrite zget_slice, decide_True by lia. apply Hk1. lia. }
  rewrite Hxs1 in Hperm.
  rewrite (st_bind_Ok _ _ _ tt _ (eq_refl : say _ _ = _)).
  rewrite (st_bind_Ok _ _ _ _ _ (eq_refl : ask _ _ _ = _)).
  rewrite (proj2 (Z.eqb_neq _ _) (ty_create _ _ _ Hty _ _)).
  rewrite (st_bind_Ok _ _ _ tt _ (eq_refl : say _ _ = _)).
  rewrite (st_bind_Ok _ _ _ _ _ (eq_refl : ask _ _ _ = _)).
  rewrite (ty_open _ _ _ Hty), (proj2 (Z.eqb_neq _ _) Hid).
  rewrite (st_bind_Ok _ _ _ tt _ (eq_refl : say _ _ = _)).
  name_history (write_elements (zlen xs) id a2 buffer) h3.
  destruct (write_elements_spec (zlen xs) id a2 buffer h3) as (buf & h4 & texts & Hwe & Hdec & Hw4); [| |done|].
  - destruct Hra as [Hp _ _]. unfold zlen in *. rewrite Hp. lia.
  - intros k x Hk Hx. apply (Forall_forall (fun x => 0 <= x < two31) (slice 0 (zlen xs) a2)).
    + by rewrite Hperm.
    + apply elem_of_zget. exists k. rewrite zget_slice, decide_True by lia. done.
  - rewrite (st_bind_Ok _ _ _ _ _ Hwe).
    rewrite (st_bind_Ok _ _ _ tt _ (eq_refl : say _ _ = _)), (st_bind_Ok _ _ _ tt _ (eq_refl : say _ _ = _)).
    eexists _, (slice 0 (zlen xs) a2), texts. split; [done|]. split_and!; try done.
    rewrite !written_app, Hw4. subst h3. rewrite !written_app, Hw2. subst h1. rewrite !written_app. by rewrite !app_nil_r.
Qed.

(** A user who types 3, 20, 0 and 7. *)
Definition sample_env (h : list call) (c : call) : Z :=
  match c with
  | ReadInt => nth (Z.to_nat (reads h)) [3; 20; 0; 7] 0
  | Open _ _ => 5
  | _ => 0
  end.
Lemma sample_typist : typist sample_env [20; 0; 7] 5.
Proof.
  split; try done.
  - intros h Hh. unfold sample_env. by rewrite Hh.
  - intros h k x Hh Hx. unfold sample_env. rewrite Hh.
    pose proof (zget_Some_range _ _ _ Hx) as Hk. change (zlen [20; 0; 7]) with 3 in Hk.
    assert (k = 0 \/ k = 1 \/ k = 2) as [->|[->| ->]] by lia; by injection Hx as <-.
Qed.
Lemma quicksort_program_witness : exists h ys texts,
  main sample_env 0 (replicate 99 0) (replicate 20 0) (replicate 99 0) (replicate 99 0) [] = Ok (tt, h ++ [HaltCall]) /\
  ys ≡ₚ [20; 0; 7] /\ StronglySorted Z.le ys /\ Forall2 decimal texts ys /\ written 5 h = join texts.
Proof.
  apply (quicksort_program sample_env [20; 0; 7] 5).
  - by vm_compute.
  - repeat constructor; by vm_compute.
  - done.
  - apply sample_typist.
  - reflexivity.
  - reflexivity.
  - reflexivity.
  - reflexivity.
Defined.

(** The digits of a negative number are never put in the buffer: behind the
    sign the file gets what the buffer held before. *)
Lemma negative_digits_lost v buffer :
  - two31 < v < 0 -> zlen buffer = 20 ->
  exists size, 1 < size /\ number_text v true buffer = Ok (zset (zset buffer 0 45) size 0, size).
Proof.
  intros Hv Hb. unfold two31 in Hv. unfold number_text. destruct (Z.ltb_spec v 0); [|lia].
  rewrite wr_Ok by lia. cbn [mbind res_bind]. rewrite to_int_id by (unfold_int; lia).
  rewrite (count_size_spec 10) by (simpl; lia). cbn [mbind res_bind].
  pose proof (zlen_dec_digits 10 (- v) ltac:(lia)) as Hd.
  assert (0 < zlen (dec_digits 10 (- v))) as Hp.
  { destruct (dec_digits_decimal 10 (- v)) as (Hne & _); [simpl; lia|].
    destruct (dec_digits 10 (- v)); [done|]. rewrite zlen_cons. pose proof (zlen_nonneg l). lia. }
  assert (forall b, fill 11 (1 + zlen (dec_digits 10 (- v)) + 1 - 1) 1 v b = Ok b) as ->.
  { intros b. cbn [fill]. destruct (Z.ltb_spec 0 v); [lia|]. by rewrite andb_false_r. }
  cbn [mbind res_bind negb]. rewrite wr_Ok by (rewrite zlen_zset; lia). eexists. split; [|done]. lia.
Qed.
End Quick.
