(* ===== verification/UserMerge.v ===== *)
(** * test/mergesort.c, test/sort.c, test/matmult.c

    [mergesort.c] sorts floating-point numbers that live in the kernel: the
    program holds pointers to them and compares two with the system call
    CompareFloat, here the argument [cmp].  The merge works in place, by moving
    the elements between two places one to the right. *)

From S2P Require Import Prelude UserProgs.
From stdpp Require Import list sorting sets strings.
#[local] Open Scope Z_scope.

Module Merge.
Definition MAX : Z := 99.

Section code.
Context (cmp : Z -> Z -> Z).

(** [while (index != start) { arr[index] = arr[index - 1]; index--; }] *)
Fixpoint shift (fuel : nat) (arr : list Z) (index start : Z) : res (list Z) :=
  match fuel with
  | O => NoFuel
  | S f =>
      if negb (index =? start) then
        v ← rd arr (index - 1);
        arr ← wr arr index v;
        shift f arr (index - 1) start
      else Ok arr
  end.
(** [while (start <= mid && start2 <= end) { ... }] *)
Fixpoint merge_loop (fuel : nat) (arr : list Z) (start mid start2 end_ : Z) : res (list Z) :=
  match fuel with
  | O => NoFuel
  | S f =>
      if (start <=? mid) && (start2 <=? end_) then
        x ← rd arr start;
        y ← rd arr start2;
        if cmp x y <=? 0 then merge_loop f arr (start + 1) mid start2 end_
        else
          value ← rd arr start2;
          arr ← shift (S (Z.to_nat (start2 - start))) arr start2 start;
          arr ← wr arr start value;
          merge_loop f arr (start + 1) (mid + 1) (start2 + 1) end_
      else Ok arr
  end.
Definition merge (arr : list Z) (start mid end_ : Z) : res (list Z) :=
  let start2 := mid + 1 in
  x ← rd arr mid;
  y ← rd arr start2;
  if cmp x y <=? 0 then Ok arr
  else merge_loop (S (Z.to_nat (end_ - start + 1))) arr start mid start2 end_.
Fixpoint mergeSort (fuel : nat) (arr : list Z) (left right : Z) : res (list Z) :=
  match fuel with
  | O => NoFuel
  | S f =>
      if left <? right then
        let mid := left + Z.quot (right - left) 2 in
        arr ← mergeSort f arr left mid;
        arr ← mergeSort f arr (mid + 1) right;
        merge arr left mid right
      else Ok arr
  end.

(** *** main *)

Definition read_elements (env : list call -> call -> Z) (n : Z) (a : list Z) : st (list call) (list Z) :=
  for_st 0 n (fun count a =>
    say (PrintString (txt "Elem "));;
    say (PrintInt count);;
    say (PrintString (txt ": "));;
    v ← ask env ReadFloat;
    lift (wr a count v)) a.
(** [while (count++ < n)]: the body sees the count after the increment. *)
Definition write_elements (n output : Z) (a : list Z) : st (list call) unit :=
  for_st 0 n (fun c _ =>
    let count := c + 1 in
    f ← lift (rd a (count - 1));
    say (WriteF2File f output);;
    if count <? n then say (Write (txt " ") 1 output) else mret tt) tt.
Definition clear_elements (n : Z) (a : list Z) : st (list call) unit :=
  for_st 0 n (fun count _ => f ← lift (rd a count); say (ClearFloat f)) tt.

Definition main (env : list call -> call -> Z) (a : list Z) : st (list call) unit :=
  say (PrintString (txt "Enter n: "));;
  n ← ask env ReadInt;
  if (n <=? 0) || (MAX <? n) then
    say (PrintString (txt "Invalid number of elements" ++ [10]));;
    say HaltCall
  else
    say (PrintString (txt "Array:" ++ [10]));;
    a ← read_elements env n a;
    a ← lift (mergeSort (S (Z.to_nat n)) a 0 (n - 1));
    say (PrintString (txt "Mergesort success" ++ [10]));;
    r ← ask env (Create (txt "mergesort.txt"));
    if r =? -1 then say HaltCall
    else
      say (PrintString (txt "Creating file mergesort.txt successfully" ++ [10]));;
      output ← ask env (Open (txt "mergesort.txt") 0);
      if output =? -1 then say HaltCall
      else
        say (PrintString (txt "Opening file mergesort.txt successfully" ++ [10]));;
        write_elements n output a;;
        say (PrintString (txt "Write to file mergesort.txt successfully" ++ [10]));;
        say (Close output);;
        clear_elements n a;;
        say HaltCall.
End code.

(** ** The order *)

(** CompareFloat orders numbers: of two numbers one is at most the other, and
    the order is transitive. *)
Class FloatOrder (cmp : Z -> Z -> Z) : Prop := {
  fo_total x y : cmp x y <= 0 \/ cmp y x <= 0;
  fo_trans x y z : cmp x y <= 0 -> cmp y z <= 0 -> cmp x z <= 0
}.
Definition fle (cmp : Z -> Z -> Z) (x y : Z) : Prop := cmp x y <= 0.
#[export] Instance fle_dec cmp : RelDecision (fle cmp).
Proof. intros x y. unfold fle. apply _. Defined.
#[export] Instance fle_total cmp `{!FloatOrder cmp} : Total (fle cmp).
Proof. intros x y. apply fo_total. Qed.
#[export] Instance fle_trans cmp `{!FloatOrder cmp} : Transitive (fle cmp).
Proof. intros x y z. apply fo_trans. Qed.

(** Equal numbers. *)
Definition feq (cmp : Z -> Z -> Z) (x y : Z) : Prop := fle cmp x y /\ fle cmp y x.
#[export] Instance feq_dec cmp : RelDecision (feq cmp).
Proof. intros x y. unfold feq. apply _. Defined.
(** [l'] is [l] sorted, with equal numbers in the order they had. *)
Record sorted_of (cmp : Z -> Z -> Z) (l l' : list Z) : Prop := {
  so_perm : l' ≡ₚ l;
  so_sorted : StronglySorted (fle cmp) l';
  so_stable : forall x, filter (feq cmp x) l' = filter (feq cmp x) l
}.

(** ** The array as a sequence with a middle part *)

Lemma zget_middle (p m q : list Z) i : zlen p <= i < zlen p + zlen m ->
  zget (p ++ m ++ q) i = zget m (i - zlen p).
Proof. intros Hi. rewrite zget_app, decide_False by lia. by rewrite zget_app, decide_True by lia. Qed.
Lemma rd_at (l : list Z) i x p q : l = p ++ x :: q -> i = zlen p -> rd l i = Ok x.
Proof. intros -> ->. apply rd_Ok. rewrite zget_app, decide_False by lia. by rewrite Z.sub_diag. Qed.
Lemma wr_at (l : list Z) i x y p q : l = p ++ x :: q -> i = zlen p -> wr l i y = Ok (p ++ y :: q).
Proof.
  intros -> ->.
  rewrite wr_Ok by (rewrite zlen_app, zlen_cons; pose proof (zlen_nonneg p); pose proof (zlen_nonneg q); lia).
  f_equal. unfold zset, zlen. rewrite decide_True by lia. rewrite Nat2Z.id.
  by rewrite insert_app_r_alt, Nat.sub_diag by lia.
Qed.
#[local] Ltac lens := rewrite ?zlen_app, ?zlen_cons, ?(@zlen_nil Z); lia.
#[local] Ltac assoc := by rewrite <-?app_assoc.

(** The elements [m] between [start] and [index] move one to the right. *)
Lemma shift_spec m : forall fuel p q y, (length m < fuel)%nat ->
  exists w, shift fuel (p ++ m ++ y :: q) (zlen p + zlen m) (zlen p) = Ok (p ++ w :: m ++ q).
Proof.
  induction m as [|z m IH] using rev_ind; intros fuel p q y Hf; (destruct fuel as [|f]; [simpl in Hf; lia|]).
  - rewrite zlen_nil, Z.add_0_r. cbn [shift]. rewrite Z.eqb_refl. by exists y.
  - rewrite length_app in Hf. simpl in Hf. rewrite zlen_app, zlen_cons, zlen_nil. cbn [shift].
    pose proof (zlen_nonneg m). destruct (Z.eqb_spec (zlen p + (zlen m + (1 + 0))) (zlen p)); [lia|]. cbn [negb].
    rewrite (rd_at _ _ z (p ++ m) (y :: q)) by (assoc || lens). cbn [mbind res_bind].
    rewrite (wr_at _ _ y z (p ++ m ++ [z]) q) by (assoc || lens). cbn [mbind res_bind].
    destruct (IH f p (z :: q) z) as [w Hw]; [lia|]. exists w.
    replace ((p ++ m ++ [z]) ++ z :: q) with (p ++ m ++ z :: z :: q) by assoc.
    replace (zlen p + (zlen m + (1 + 0)) - 1) with (zlen p + zlen m) by lia. rewrite Hw. assoc.
Qed.

(** ** The merge is the merge of two sequences *)

Section order.
Context (cmp : Z -> Z -> Z).

Lemma merge_loop_spec : forall fuel p a b q, (length a + length b < fuel)%nat ->
  merge_loop cmp fuel (p ++ a ++ b ++ q) (zlen p) (zlen p + zlen a - 1) (zlen p + zlen a)
    (zlen p + zlen a + zlen b - 1) = Ok (p ++ list_merge (fle cmp) a b ++ q).
Proof.
  induction fuel as [|f IH]; intros p a b q Hf; [lia|]. cbn [merge_loop].
  pose proof (zlen_nonneg a). pose proof (zlen_nonneg b).
  destruct a as [|x a].
  { destruct (Z.leb_spec (zlen p) (zlen p + zlen ([] : list Z) - 1)) as [Hle|]; [rewrite (@zlen_nil Z) in Hle; lia|].
    by rewrite list_merge_nil_l. }
  destruct b as [|y b].
  { rewrite andb_comm. destruct (Z.leb_spec (zlen p + zlen (x :: a)) (zlen p + zlen (x :: a) + zlen ([] : list Z) - 1)) as [Hle|];
      [rewrite (@zlen_nil Z) in Hle; lia|]. by rewrite list_merge_nil_r. }
  rewrite !zlen_cons in *. simpl in Hf. pose proof (zlen_nonneg a). pose proof (zlen_nonneg b).
  destruct (Z.leb_spec (zlen p) (zlen p + (1 + zlen a) - 1)); [|lia].
  destruct (Z.leb_spec (zlen p + (1 + zlen a)) (zlen p + (1 + zlen a) + (1 + zlen b) - 1)); [|lia]. cbn [andb].
  assert (rd (p ++ (x :: a) ++ (y :: b) ++ q) (zlen p) = Ok x) as Hx
    by (by apply (rd_at _ _ x p (a ++ (y :: b) ++ q))).
  rewrite Hx. cbn [mbind res_bind].
  assert (rd (p ++ (x :: a) ++ (y :: b) ++ q) (zlen p + (1 + zlen a)) = Ok y) as Hy
    by (apply (rd_at _ _ y (p ++ x :: a) (b ++ q)); [assoc|lens]).
  rewrite Hy. cbn [mbind res_bind]. rewrite list_merge_cons.
  destruct (Z.leb_spec (cmp x y) 0) as [Hle|Hgt].
  - rewrite decide_True by done. specialize (IH (p ++ [x]) a (y :: b) q ltac:(simpl; lia)).
    rewrite zlen_app, !zlen_cons, (@zlen_nil Z) in IH.
    replace ((p ++ [x]) ++ a ++ (y :: b) ++ q) with (p ++ (x :: a) ++ (y :: b) ++ q) in IH by assoc.
    replace (zlen p + 1) with (zlen p + (1 + 0)) by lia.
    replace (zlen p + (1 + zlen a) - 1) with (zlen p + (1 + 0) + zlen a - 1) by lia.
    replace (zlen p + (1 + zlen a)) with (zlen p + (1 + 0) + zlen a) by lia. rewrite IH. f_equal. assoc.
  - rewrite decide_False by (unfold fle; lia).
    destruct (shift_spec (x :: a) (S (Z.to_nat (zlen p + (1 + zlen a) - zlen p))) p (b ++ q) y) as [w Hw];
      [unfold zlen; simpl; lia|]. rewrite zlen_cons in Hw.
    replace (p ++ (x :: a) ++ (y :: b) ++ q) with (p ++ (x :: a) ++ y :: b ++ q) by assoc.
    rewrite Hw. cbn [mbind res_bind]. rewrite (wr_at _ _ w y p ((x :: a) ++ b ++ q)) by (assoc || lens).
    cbn [mbind res_bind]. specialize (IH (p ++ [y]) (x :: a) b q ltac:(simpl; lia)).
    rewrite zlen_app, !zlen_cons, (@zlen_nil Z) in IH.
    replace ((p ++ [y]) ++ (x :: a) ++ b ++ q) with (p ++ y :: (x :: a) ++ b ++ q) in IH by assoc.
    replace (zlen p + 1) with (zlen p + (1 + 0)) by lia.
    replace (zlen p + (1 + zlen a) - 1 + 1) with (zlen p + (1 + 0) + (1 + zlen a) - 1) by lia.
    replace (zlen p + (1 + zlen a) + 1) with (zlen p + (1 + 0) + (1 + zlen a)) by lia.
    replace (zlen p + (1 + zlen a) + (1 + zlen b) - 1) with (zlen p + (1 + 0) + (1 + zlen a) + zlen b - 1) by lia.
    rewrite IH. f_equal. assoc.
Qed.

Context `{!FloatOrder cmp}.

Lemma feq_not_less x y z : ~ fle cmp x y -> feq cmp z y -> fle cmp x z -> False.
Proof. intros Hn [Hy _] Hx. apply Hn. by apply (fo_trans x z y). Qed.
(** An element smaller than all of a sequence may be put in front of it. *)
Lemma filter_move x y l :
  StronglySorted (fle cmp) (x :: l) -> ~ fle cmp x y ->
  forall z r, filter (feq cmp z) (y :: (x :: l) ++ r) = filter (feq cmp z) ((x :: l) ++ y :: r).
Proof.
  intros Hs Hn z r. destruct (decide (feq cmp z y)) as [Hz|Hz].
  - rewrite (filter_cons_True _ y) by done. rewrite !list.filter_app, (filter_cons_True _ y r) by done.
    rewrite (filter_none _ (x :: l)); [done|].
    apply Forall_forall. intros u Hu [_ Huz]. apply (feq_not_less x y z Hn Hz).
    apply elem_of_cons in Hu as [->|Hu]; [done|].
    apply (fo_trans x u z); [|done]. inversion Hs as [|? ? _ Hall]; subst. by apply (Forall_forall (fle cmp x) l).
  - rewrite (filter_cons_False _ y) by done. rewrite !list.filter_app. by rewrite (filter_cons_False _ y).
Qed.
Lemma list_merge_stable a : forall b z, StronglySorted (fle cmp) a ->
  filter (feq cmp z) (list_merge (fle cmp) a b) = filter (feq cmp z) (a ++ b).
Proof.
  induction a as [|x a IHa]; intros b z Ha; [by rewrite list_merge_nil_l|].
  induction b as [|y b IHb]; [by rewrite list_merge_nil_r, app_nil_r|]. rewrite list_merge_cons. case_decide as Hd.
  - inversion Ha; subst. cbn [app]. rewrite !filter_cons, IHa by done. done.
  - rewrite <-(filter_move x y a Ha Hd z b), !filter_cons, IHb. done.
Qed.
Lemma merged_sorted a b a' b' :
  sorted_of cmp a a' -> sorted_of cmp b b' -> sorted_of cmp (a ++ b) (list_merge (fle cmp) a' b').
Proof.
  intros [Ha1 Ha2 Ha3] [Hb1 Hb2 Hb3]. split.
  - by rewrite merge_Permutation, Ha1, Hb1.
  - apply Sorted_StronglySorted; [apply _|]. apply Sorted_list_merge; [apply _|by apply StronglySorted_Sorted..].
  - intros x. rewrite list_merge_stable by done. by rewrite !list.filter_app, Ha3, Hb3.
Qed.
(** When the last of one and the first of the other are in order, so is all. *)
Lemma appended_sorted a b x y a' b' :
  sorted_of cmp a (a' ++ [x]) -> sorted_of cmp b (y :: b') -> fle cmp x y ->
  sorted_of cmp (a ++ b) ((a' ++ [x]) ++ y :: b').
Proof.
  intros [Ha1 Ha2 Ha3] [Hb1 Hb2 Hb3] Hxy. split.
  - by rewrite Ha1, Hb1.
  - apply StronglySorted_app. split_and!; [|done|done]. intros u v Hu Hv.
    assert (fle cmp u x) as Hux.
    { apply elem_of_app in Hu as [Hu|Hu].
      - apply (StronglySorted_app_1_elem_of (fle cmp) a' [x] u x Ha2); set_solver.
      - apply list_elem_of_singleton in Hu as ->. destruct (fo_total x x); done. }
    assert (fle cmp y v) as Hyv.
    { apply elem_of_cons in Hv as [->|Hv]; [destruct (fo_total y y); done|].
      inversion Hb2 as [|? ? _ Hall]; subst. by apply (Forall_forall (fle cmp y) b'). }
    apply (fo_trans u x v); [done|]. by apply (fo_trans x y v).
  - intros z. rewrite (list.filter_app _ (a' ++ [x])), Ha3, Hb3. by rewrite list.filter_app.
Qed.

(** ** The sort *)

Lemma merge_spec p a b q a' b' x y :
  sorted_of cmp a (a' ++ [x]) -> sorted_of cmp b (y :: b') ->
  exists m, merge cmp (p ++ ((a' ++ [x]) ++ y :: b') ++ q) (zlen p) (zlen p + zlen a' )
      (zlen p + zlen a' + 1 + zlen b') = Ok (p ++ m ++ q) /\ sorted_of cmp (a ++ b) m.
Proof.
  intros Ha Hb. unfold merge.
  assert (rd (p ++ ((a' ++ [x]) ++ y :: b') ++ q) (zlen p + zlen a') = Ok x) as Hx
    by (apply (rd_at _ _ x (p ++ a') (y :: b' ++ q)); [assoc|lens]).
  assert (rd (p ++ ((a' ++ [x]) ++ y :: b') ++ q) (zlen p + zlen a' + 1) = Ok y) as Hy
    by (apply (rd_at _ _ y (p ++ a' ++ [x]) (b' ++ q)); [assoc|lens]).
  rewrite Hx, Hy. cbn [mbind res_bind]. destruct (Z.leb_spec (cmp x y) 0) as [Hle|Hgt].
  - eexists. split; [done|]. by apply appended_sorted.
  - eexists. split; [|by apply merged_sorted].
    pose proof (merge_loop_spec (S (Z.to_nat (zlen p + zlen a' + 1 + zlen b' - zlen p + 1))) p (a' ++ [x]) (y :: b') q) as Hm.
    rewrite zlen_app, !zlen_cons, (@zlen_nil Z) in Hm.
    replace (zlen p + (zlen a' + (1 + 0)) - 1) with (zlen p + zlen a') in Hm by lia.
    replace (zlen p + (zlen a' + (1 + 0)) + (1 + zlen b') - 1) with (zlen p + zlen a' + 1 + zlen b') in Hm by lia.
    replace (zlen p + (zlen a' + (1 + 0))) with (zlen p + zlen a' + 1) in Hm by lia.
    replace (p ++ ((a' ++ [x]) ++ y :: b') ++ q) with (p ++ (a' ++ [x]) ++ (y :: b') ++ q) by assoc.
    apply Hm. rewrite length_app. unfold zlen. simpl. lia.
Qed.
Lemma sorted_of_short m : (length m <= 1)%nat -> sorted_of cmp m m.
Proof. intros Hm. split; [done| |done]. destruct m as [|x [|]]; simpl in Hm; try lia; repeat constructor. Qed.
Lemma mergeSort_spec : forall fuel p m q, (length m < fuel)%nat ->
  exists m', mergeSort cmp fuel (p ++ m ++ q) (zlen p) (zlen p + zlen m - 1) = Ok (p ++ m' ++ q) /\ sorted_of cmp m m'.
Proof.
  induction fuel as [|f IH]; intros p m q Hf; [lia|]. cbn [mergeSort].
  destruct (Z.ltb_spec (zlen p) (zlen p + zlen m - 1)) as [Hlt|Hge].
  2:{ exists m. split; [done|]. apply sorted_of_short. unfold zlen in Hge. lia. }
  replace (zlen p + zlen m - 1 - zlen p) with (zlen m - 1) by lia. rewrite Z.quot_div_nonneg by lia.
  set (k := (zlen m - 1) / 2). assert (0 <= k /\ 2 * k <= zlen m - 1 <= 2 * k + 1) as Hk by (unfold k; lia_mod).
  pose proof (take_drop (Z.to_nat (k + 1)) m) as Hm.
  set (a := take (Z.to_nat (k + 1)) m) in *. set (b := drop (Z.to_nat (k + 1)) m) in *.
  assert (zlen a = k + 1) as Hla by (unfold a; unfold zlen in *; rewrite length_take; lia).
  assert (zlen b = zlen m - (k + 1)) as Hlb by (unfold b; unfold zlen in *; rewrite length_drop; lia).
  destruct (IH p a (b ++ q)) as (a' & Hra & Hsa); [unfold zlen in *; lia|].
  assert (zlen a' = zlen a) as Hla' by (unfold zlen; by rewrite (so_perm _ _ _ Hsa)).
  destruct (IH (p ++ a') b q) as (b' & Hrb & Hsb); [unfold zlen in *; lia|].
  assert (zlen b' = zlen b) as Hlb' by (unfold zlen; by rewrite (so_perm _ _ _ Hsb)).
  assert (p ++ m ++ q = p ++ a ++ b ++ q) as -> by (by rewrite (app_assoc a), Hm).
  replace (zlen p + zlen a - 1) with (zlen p + k) in Hra by lia. rewrite Hra. cbn [mbind res_bind].
  rewrite zlen_app in Hrb. replace ((p ++ a') ++ b ++ q) with (p ++ a' ++ b ++ q) in Hrb by assoc.
  replace (zlen p + zlen a' + zlen b - 1) with (zlen p + zlen m - 1) in Hrb by lia.
  replace (zlen p + k + 1) with (zlen p + zlen a') by lia. rewrite Hrb. cbn [mbind res_bind].
  destruct (exists_last (l := a')) as (a0 & x & ->); [intros ->; rewrite (@zlen_nil Z) in Hla'; lia|].
  destruct b' as [|y b0]; [rewrite (@zlen_nil Z) in Hlb'; lia|].
  rewrite zlen_app, zlen_cons, (@zlen_nil Z) in Hla'. rewrite zlen_cons in Hlb'.
  destruct (merge_spec p a b q a0 b0 x y Hsa Hsb) as (m' & Hr & Hs). rewrite Hm in Hs. exists m'. split; [|done].
  replace ((p ++ a0 ++ [x]) ++ (y :: b0) ++ q) with (p ++ ((a0 ++ [x]) ++ y :: b0) ++ q) by assoc.
  replace (zlen p + k) with (zlen p + zlen a0) by lia.
  replace (zlen p + zlen m - 1) with (zlen p + zlen a0 + 1 + zlen b0) by lia. exact Hr.
Qed.
End order.

(** ** The whole program *)

(** What the calls do to the file [id], how many numbers were read, and which
    numbers were freed. *)
Definition to_file (id : Z) (c : call) : bool :=
  match c with WriteF2File _ j => j =? id | Write _ _ j => j =? id | _ => false end.
Definition file_calls (id : Z) (h : list call) : list call := filter (fun c => to_file id c = true) h.
Definition floats (h : list call) : Z := zlen (filter (fun c => c = ReadFloat) h).
Definition cleared (h : list call) : list Z :=
  omap (fun c => match c with ClearFloat f => Some f | _ => None end) h.
(** The numbers [ys], with a space between two. *)
Fixpoint weave (id : Z) (ys : list Z) : list call :=
  match ys with
  | [] => []
  | [y] => [WriteF2File y id]
  | y :: ys' => WriteF2File y id :: Write (txt " ") 1 id :: weave id ys'
  end.
(** A user types the length of [ps] and numbers that the kernel keeps at [ps]. *)
Record typist (env : list call -> call -> Z) (ps : list Z) (id : Z) : Prop := {
  mt_n : forall h, env h ReadInt = zlen ps;
  mt_x : forall h k x, floats h = k -> zget ps k = Some x -> env h ReadFloat = x;
  mt_create : forall h nm, env h (Create nm) <> -1;
  mt_open : forall h nm t, env h (Open nm t) = id
}.

Lemma file_calls_app id h h' : file_calls id (h ++ h') = file_calls id h ++ file_calls id h'.
Proof. apply list.filter_app. Qed.
Lemma floats_app h h' : floats (h ++ h') = floats h + floats h'.
Proof. unfold floats. rewrite list.filter_app. apply zlen_app. Qed.
Lemma floats_other c : c <> ReadFloat -> floats [c] = 0.
Proof. intros Hc. unfold floats. by rewrite filter_cons_False. Qed.
Lemma cleared_app h h' : cleared (h ++ h') = cleared h ++ cleared h'.
Proof. apply omap_app. Qed.
Lemma weave_snoc id ys y :
  weave id (ys ++ [y]) = (ys ≫= fun u => [WriteF2File u id; Write (txt " ") 1 id]) ++ [WriteF2File y id].
Proof.
  induction ys as [|u ys IH]; [done|]. cbn [app]. destruct (ys ++ [y]) as [|v vs] eqn:E.
  - by destruct ys.
  - rewrite bind_cons. simpl. f_equal. f_equal. exact IH.
Qed.

Lemma merge_read_elements_spec env ps id a h :
  typist env ps id -> floats h = 0 -> zlen ps <= zlen a ->
  exists h', read_elements env (zlen ps) a h = Ok (ps ++ drop (length ps) a, h') /\
    file_calls id h' = file_calls id h /\ cleared h' = cleared h.
Proof.
  intros Hty Hr Hl. unfold read_elements.
  destruct (for_st_inv (fun i a1 h1 => a1 = take (Z.to_nat i) ps ++ drop (Z.to_nat i) a /\ floats h1 = i /\
    file_calls id h1 = file_calls id h /\ cleared h1 = cleared h)
    (fun count a => say (PrintString (txt "Elem "));; say (PrintInt count);;
       say (PrintString (txt ": "));; v ← ask env ReadFloat; lift (wr a count v))
    0 (zlen ps) a h) as (a' & h' & -> & -> & _ & Hw & Hc).
  - apply zlen_nonneg.
  - by rewrite take_0, drop_0.
  - intros i a1 h1 Hi (-> & Hf & Hw & Hc). destruct (zget_is_Some ps i Hi) as [x Hx].
    destruct (zget_is_Some a i) as [v Hv]; [lia|].
    unfold say, ask, mbind, st_bind, lift.
    rewrite (mt_x _ _ _ Hty _ i x); [|rewrite !floats_app, !floats_other by done; lia|done].
    unfold zget in Hx, Hv. rewrite decide_True in Hx, Hv by lia.
    rewrite (wr_at _ i v x (take (Z.to_nat i) ps) (drop (S (Z.to_nat i)) a)).
    + cbn [mbind res_bind]. eexists _, _. split; [done|]. split_and!.
      * replace (Z.to_nat (i + 1)) with (S (Z.to_nat i)) by lia.
        by rewrite (take_S_r _ _ _ Hx), <-app_assoc.
      * rewrite !floats_app, !floats_other, Hf by done. rewrite (eq_refl : floats [ReadFloat] = 1). lia.
      * rewrite !file_calls_app, Hw. by rewrite !app_nil_r.
      * rewrite !cleared_app, Hc. by rewrite !app_nil_r.
    + by rewrite (drop_S _ _ _ Hv).
    + unfold zlen in *. rewrite length_take. lia.
  - exists h'. split; [|done]. unfold zlen. rewrite Nat2Z.id. by rewrite take_ge.
Qed.
Lemma merge_write_elements_spec ys rest id h :
  exists h', write_elements (zlen ys) id (ys ++ rest) h = Ok (tt, h') /\
    file_calls id h' = file_calls id h ++ weave id ys /\ cleared h' = cleared h.
Proof.
  unfold write_elements.
  destruct (for_st_inv (fun i (_ : unit) h1 => file_calls id h1 = file_calls id h ++
      (if i =? zlen ys then weave id ys
       else take (Z.to_nat i) ys ≫= fun u => [WriteF2File u id; Write (txt " ") 1 id]) /\ cleared h1 = cleared h)
    (fun c _ => f ← lift (rd (ys ++ rest) (c + 1 - 1)); say (WriteF2File f id);;
       if c + 1 <? zlen ys then say (Write (txt " ") 1 id) else mret tt)
    0 (zlen ys) tt h) as ([] & h' & -> & Hw & Hc).
  - apply zlen_nonneg.
  - split; [|done]. destruct (Z.eqb_spec 0 (zlen ys)); [|by rewrite app_nil_r]. destruct ys; [by rewrite app_nil_r|done].
  - intros i [] h1 Hi [Hw Hc]. destruct (zget_is_Some ys i Hi) as [y Hy]. rewrite Z.add_simpl_r.
    assert (rd (ys ++ rest) i = Ok y) as Hr by (apply rd_Ok; by rewrite zget_app, decide_True by lia).
    rewrite (lift_bind_Ok _ _ _ _ Hr). unfold zget in Hy. rewrite decide_True in Hy by lia.
    destruct (Z.eqb_spec i (zlen ys)); [lia|]. rewrite (st_bind_Ok _ _ _ tt _ (eq_refl : say _ _ = _)).
    replace (Z.to_nat (i + 1)) with (S (Z.to_nat i)) by lia.
    assert (forall c, to_file id c = true -> file_calls id [c] = [c]) as Hone
      by (intros c Hcall; unfold file_calls; by rewrite filter_cons_True).
    destruct (Z.ltb_spec (i + 1) (zlen ys)), (Z.eqb_spec (i + 1) (zlen ys)); try lia; eexists tt, _; (split; [done|]).
    + rewrite !file_calls_app, !cleared_app, Hw, Hc, !Hone, !app_nil_r by (simpl; apply Z.eqb_refl). split; [|done].
      rewrite (take_S_r _ _ _ Hy), bind_app. by rewrite <-!app_assoc.
    + rewrite file_calls_app, cleared_app, Hw, Hc, Hone, app_nil_r by (simpl; apply Z.eqb_refl). split; [|done].
      assert (ys = take (Z.to_nat i) ys ++ [y]) as Eys
        by (rewrite <-(take_S_r _ _ _ Hy), take_ge; [done|unfold zlen in *; lia]).
      replace (weave id ys) with (weave id (take (Z.to_nat i) ys ++ [y])) by (by rewrite <-Eys).
      by rewrite weave_snoc, <-app_assoc.
  - rewrite Z.eqb_refl in Hw. by exists h'.
Qed.
Lemma clear_elements_spec ys rest id h :
  exists h', clear_elements (zlen ys) (ys ++ rest) h = Ok (tt, h') /\
    file_calls id h' = file_calls id h /\ cleared h' = cleared h ++ ys.
Proof.
  unfold clear_elements.
  destruct (for_st_inv (fun i (_ : unit) h1 => file_calls id h1 = file_calls id h /\
      cleared h1 = cleared h ++ take (Z.to_nat i) ys)
    (fun count _ => f ← lift (rd (ys ++ rest) count); say (ClearFloat f))
    0 (zlen ys) tt h) as ([] & h' & -> & Hw & Hc).
  - apply zlen_nonneg.
  - by rewrite app_nil_r.
  - intros i [] h1 Hi [Hw Hc]. destruct (zget_is_Some ys i Hi) as [y Hy].
    assert (rd (ys ++ rest) i = Ok y) as Hr by (apply rd_Ok; by rewrite zget_app, decide_True by lia).
    rewrite (lift_bind_Ok _ _ _ _ Hr). unfold zget in Hy. rewrite decide_True in Hy by lia.
    eexists tt, _. split; [done|]. rewrite file_calls_app, cleared_app, Hw, Hc. split; [by rewrite app_nil_r|].
    replace (Z.to_nat (i + 1)) with (S (Z.to_nat i)) by lia. by rewrite (take_S_r _ _ _ Hy), <-app_assoc.
  - exists h'. unfold zlen in Hc. rewrite Nat2Z.id, take_ge in Hc by done. done.
Qed.

(** C32. Sorting floating-point numbers.  For any comparison that orders the
    numbers (total and transitive), when a user types a count from 1 to 99 and
    so many numbers and the kernel lets the program create and open its file,
    the program ends in Halt without leaving its array; it writes to the file
    the numbers sorted, equal numbers in the order they were typed, with a
    space between two, and frees each of them once. *)
Theorem mergesort_program (cmp : Z -> Z -> Z) `{!FloatOrder cmp} (env : list call -> call -> Z)
    (ps : list Z) (id : Z) (a : list Z) :
  0 < zlen ps <= MAX -> id <> -1 -> typist env ps id -> zlen a = MAX ->
  exists h ys, main cmp env a [] = Ok (tt, h ++ [HaltCall]) /\ sorted_of cmp ps ys /\
    file_calls id h = weave id ys /\ cleared h = ys.
Proof.
  intros Hn Hid Hty Ha. unfold main.
  rewrite (st_bind_Ok _ _ _ tt _ (eq_refl : say _ _ = _)), (st_bind_Ok _ _ _ _ _ (eq_refl : ask _ _ _ = _)).
  rewrite (mt_n _ _ _ Hty). destruct (Z.leb_spec (zlen ps) 0), (Z.ltb_spec MAX (zlen ps)); try lia. cbn [orb].
  rewrite (st_bind_Ok _ _ _ tt _ (eq_refl : say _ _ = _)).
  name_history (read_elements env (zlen ps) a) h1.
  destruct (merge_read_elements_spec env ps id a h1) as (h2 & Hre & Hw2 & Hc2); [done|done|lia|].
  rewrite (st_bind_Ok _ _ _ _ _ Hre).
  destruct (mergeSort_spec cmp (S (Z.to_nat (zlen ps))) [] ps (drop (length ps) a)) as (ys & Hms & Hs);
    [unfold zlen; lia|]. change (zlen ([] : list Z)) with 0 in Hms. cbn [app] in Hms.
  replace (0 + zlen ps - 1) with (zlen ps - 1) in Hms by lia. rewrite (lift_bind_Ok _ _ _ _ Hms).
  assert (zlen ps = zlen ys) as Hlen by (unfold zlen; by rewrite (so_perm _ _ _ Hs)).
  rewrite (st_bind_Ok _ _ _ tt _ (eq_refl : say _ _ = _)), (st_bind_Ok _ _ _ _ _ (eq_refl : ask _ _ _ = _)).
  rewrite (proj2 (Z.eqb_neq _ _) (mt_create _ _ _ Hty _ _)).
  rewrite (st_bind_Ok _ _ _ tt _ (eq_refl : say _ _ = _)), (st_bind_Ok _ _ _ _ _ (eq_refl : ask _ _ _ = _)).
  rewrite (mt_open _ _ _ Hty), (proj2 (Z.eqb_neq _ _) Hid), Hlen.
  rewrite (st_bind_Ok _ _ _ tt _ (eq_refl : say _ _ = _)).
  name_history (write_elements (zlen ys) id (ys ++ drop (length ps) a)) h3.
  destruct (merge_write_elements_spec ys (drop (length ps) a) id h3) as (h4 & Hwe & Hw4 & Hc4).
  rewrite (st_bind_Ok _ _ _ _ _ Hwe).
  rewrite (st_bind_Ok _ _ _ tt _ (eq_refl : say _ _ = _)), (st_bind_Ok _ _ _ tt _ (eq_refl : say _ _ = _)).
  name_history (clear_elements (zlen ys) (ys ++ drop (length ps) a)) h5.
  destruct (clear_elements_spec ys (drop (length ps) a) id h5) as (h6 & Hce & Hw6 & Hc6).
  rewrite (st_bind_Ok _ _ _ _ _ Hce). exists h6, ys. split_and!; [done|done| |].
  - rewrite Hw6. subst h5. rewrite !file_calls_app, Hw4. subst h3. rewrite !file_calls_app, Hw2. subst h1.
    by rewrite !app_nil_r.
  - rewrite Hc6. subst h5. rewrite !cleared_app, Hc4. subst h3. rewrite !cleared_app, Hc2. by subst h1.
Qed.

(** Numbers 2, 1 and 2 kept at 7, 3 and 9. *)
Definition sample_cmp (p q : Z) : Z :=
  let value x := if x =? 3 then 1 else 2 in value p - value q.
#[export] Instance sample_order : FloatOrder sample_cmp.
Proof. split; unfold sample_cmp; intros; zcases. Qed.
Definition sample_env (h : list call) (c : call) : Z :=
  match c with
  | ReadInt => 3
  | ReadFloat => nth (Z.to_nat (floats h)) [7; 3; 9] 0
  | Open _ _ => 4
  | _ => 0
  end.
Lemma sample_mtypist : typist sample_env [7; 3; 9] 4.
Proof.
  split; try done. intros h k x Hh Hx. unfold sample_env. rewrite Hh.
  pose proof (zget_Some_range _ _ _ Hx) as Hk. change (zlen [7; 3; 9]) with 3 in Hk.
  assert (k = 0 \/ k = 1 \/ k = 2) as [->|[->| ->]] by lia; by injection Hx as <-.
Qed.
Lemma mergesort_program_witness : exists h ys,
  main sample_cmp sample_env (replicate 99 0) [] = Ok (tt, h ++ [HaltCall]) /\ sorted_of sample_cmp [7; 3; 9] ys /\
  file_calls 4 h = weave 4 ys /\ cleared h = ys.
Proof.
  apply (mergesort_program sample_cmp sample_env [7; 3; 9] 4).
  - by vm_compute.
  - done.
  - apply sample_mtypist.
  - reflexivity.
Defined.
End Merge.

(** ** sort.c *)

Module Bubble.
(** [if (A[j] > A[j + 1])] swap *)
Definition compare_swap (j : Z) (A : list Z) : res (list Z) :=
  x ← rd A j;
  y ← rd A (j + 1);
  if y <? x then
    let tmp := x in
    A ← wr A j y;
    wr A (j + 1) tmp
  else Ok A.
Definition sort_main (A : list Z) : st (list call) unit :=
  A ← lift (for_range 0 1024 (fun i A => wr A i (1024 - i)) A);
  A ← lift (for_range 0 1023 (fun i A => for_range i (1023 - i) compare_swap A) A);
  v ← lift (rd A 0);
  say (Exit v).

Lemma compare_swap_keeps j A :
  0 < j -> j + 1 < zlen A ->
  exists A', compare_swap j A = Ok A' /\ zlen A' = zlen A /\ zget A' 0 = zget A 0.
Proof.
  intros Hj Hl. unfold compare_swap.
  destruct (rd_total A j) as (x & -> & _); [lia|]. destruct (rd_total A (j + 1)) as (y & -> & _); [lia|].
  cbn [mbind res_bind]. destruct (y <? x); [|by exists A].
  rewrite wr_Ok by lia. cbn [mbind res_bind]. rewrite wr_Ok by (rewrite zlen_zset; lia). eexists. split; [done|].
  by rewrite !zlen_zset, !zget_zset_ne by lia.
Qed.
Lemma pass_keeps lo hi A :
  0 < lo -> hi < zlen A ->
  exists A', for_range lo hi compare_swap A = Ok A' /\ zlen A' = zlen A /\ zget A' 0 = zget A 0.
Proof.
  intros Hlo Hhi. destruct (Z.le_gt_cases hi lo) as [Hle|Hlt]; [exists A; by rewrite for_range_empty|].
  destruct (for_range_inv (fun _ A' => zlen A' = zlen A /\ zget A' 0 = zget A 0) compare_swap lo hi A)
    as (A' & -> & HA'); [lia|done| |by exists A'].
  intros j A1 Hj [Hl H0]. destruct (compare_swap_keeps j A1) as (A2 & -> & Hl2 & H2); [lia|lia|].
  exists A2. split; [done|]. split; congruence.
Qed.
(** The inner loop of pass [i] starts at [i], so only the first comparison ever
    moves the first element: the program ends with Exit(1023), where its
    comment expects the least number. *)
Lemma sort_exits_1023 : sort_main (replicate 1024 0) [] = Ok (tt, [Exit 1023]).
Proof.
  unfold sort_main.
  destruct (for_range_inv (fun i A => zlen A = 1024 /\ forall k, 0 <= k < i -> zget A k = Some (1024 - k))
    (fun i A => wr A i (1024 - i)) 0 1024 (replicate 1024 0)) as (A & -> & Hl & HA); [lia| | |].
  { split; [by vm_compute|]. intros k Hk. lia. }
  { intros i A Hi [Hl HA]. rewrite wr_Ok by lia. eexists. split; [done|]. rewrite zlen_zset. split; [done|].
    intros k Hk. rewrite zget_zset. case_decide as Hd; [destruct Hd as [-> _]; done|]. apply HA. lia. }
  rewrite (lift_bind_Ok _ _ _ A) by done.
  destruct (for_range_inv (fun i A => zlen A = 1024 /\ zget A 0 = Some (if i =? 0 then 1024 else 1023) /\
      (i = 0 -> zget A 1 = Some 1023))
    (fun i A => for_range i (1023 - i) compare_swap A) 0 1023 A) as (A' & -> & Hl' & H0 & _); [lia| | |].
  { split; [done|]. rewrite !HA by lia. done. }
  { intros i A1 Hi (Hl1 & H0 & H1). destruct (Z.eqb_spec i 0) as [->|Hne].
    - specialize (H1 eq_refl). unfold for_range. replace (Z.to_nat (1023 - 0 - 0)) with (S (Z.to_nat (1023 - 1))) by lia.
      cbn [for_n]. assert (compare_swap 0 A1 = Ok (zset (zset A1 0 1023) 1 1024)) as ->.
      { unfold compare_swap. change (0 + 1) with 1. rewrite (proj2 (rd_Ok _ _ _) H0), (proj2 (rd_Ok _ _ _) H1). cbn [mbind res_bind].
        rewrite (eq_refl : (1023 <? 1024) = true), wr_Ok by lia. cbn [mbind res_bind].
        by rewrite wr_Ok by (rewrite zlen_zset; lia). }
      destruct (pass_keeps (0 + 1) 1023 (zset (zset A1 0 1023) 1 1024)) as (A2 & HA2 & Hl2 & H2);
        [lia|rewrite !zlen_zset; lia|]. unfold for_range in HA2. exists A2. split; [exact HA2|].
      rewrite Hl2, H2, !zlen_zset. split; [done|]. rewrite zget_zset_ne, zget_zset_eq by lia. split; [done|lia].
    - destruct (pass_keeps i (1023 - i) A1) as (A2 & -> & Hl2 & H2); [lia|lia|]. exists A2. split; [done|].
      rewrite Hl2, H2. destruct (Z.eqb_spec (i + 1) 0); [lia|]. split_and!; [done|done|lia]. }
  rewrite (lift_bind_Ok _ _ _ A') by done. rewrite (lift_bind_Ok _ _ _ 1023) by (by apply rd_Ok). done.
Qed.
End Bubble.

(** ** matmult.c *)

Module MatMult.
Definition Dim : Z := 20.
Record matrices := mkMats { A : list (list Z); B : list (list Z); C : list (list Z) }.
Definition rd2 (M : list (list Z)) (i j : Z) : res Z := row ← rd M i; rd row j.
Definition wr2 (M : list (list Z)) (i j x : Z) : res (list (list Z)) :=
  row ← rd M i; row ← wr row j x; wr M i row.
Definition init (M : matrices) : res matrices :=
  for_range 0 Dim (fun i M => for_range 0 Dim (fun j M =>
    A1 ← wr2 (A M) i j i;
    B1 ← wr2 (B M) i j j;
    C1 ← wr2 (C M) i j 0;
    Ok (mkMats A1 B1 C1)) M) M.
Definition multiply (M : matrices) : res matrices :=
  for_range 0 Dim (fun i M => for_range 0 Dim (fun j M => for_range 0 Dim (fun k M =>
    c ← rd2 (C M) i j;
    a ← rd2 (A M) i k;
    b ← rd2 (B M) k j;
    C1 ← wr2 (C M) i j (to_int (c + to_int (a * b)));
    Ok (mkMats (A M) (B M) C1)) M) M) M.
(** The global arrays are zero at the start. *)
Definition zeros : list (list Z) := replicate 20 (replicate 20 0).
Definition matmult_main : st (list call) unit :=
  M ← lift (init (mkMats zeros zeros zeros));
  M ← lift (multiply M);
  v ← lift (rd2 (C M) (Dim - 1) (Dim - 1));
  say (Exit v).
(** The product of the two matrices, and the number the program exits with. *)
Lemma product_of_matrices :
  (M ← init (mkMats zeros zeros zeros); M ← multiply M; Ok (C M)) =
    Ok ((fun i => (fun j => 20 * i * j) <$> seqZ 0 20) <$> seqZ 0 20) /\
  matmult_main [] = Ok (tt, [Exit 7220]).
Proof. split; by vm_compute. Qed.
End MatMult.
