(* ===== verification/Switch.v ===== *)
(** * threads/switch.c, Thread::StackAllocate: the context switch

    The i386 part of the assembly: [SWITCH] saves the registers of the running
    thread in its Thread object and loads those of the next, [ThreadRoot] is
    the first frame of a forked thread, and [StackAllocate] prepares the object
    and the stack so that the first [SWITCH] to it enters [ThreadRoot].  The
    code is the list of its instructions, run on eight registers and a memory of
    words; an access to an address that is not mapped is undefined. *)

From S2P Require Import Prelude.
From stdpp Require Import gmap list.
#[local] Open Scope Z_scope.

Inductive reg := eax | ebx | ecx | edx | esi | edi | ebp | esp.
#[export] Instance reg_eq_dec : EqDecision reg.
Proof. solve_decision. Defined.

Record cpu := mkCpu { regs : reg -> Z; mem : gmap Z Z }.
Definition set_reg (f : reg -> Z) (r : reg) (v : Z) : reg -> Z := fun q => if decide (q = r) then v else f q.

(** A register, [off(%r)], or a variable of the data segment. *)
Inductive operand := Reg (r : reg) | Mem (off : Z) (r : reg) | Var (a : Z).
Inductive instr :=
| movl (src dst : operand)
| pushl (r : reg)
| popl (r : reg).

Definition load (a : Z) : st cpu Z := fun s =>
  match mem s !! a with Some v => Ok (v, s) | None => UB end.
Definition store (a v : Z) : st cpu unit := fun s =>
  match mem s !! a with Some _ => Ok (tt, mkCpu (regs s) (<[a := v]> (mem s))) | None => UB end.
Definition get_reg (r : reg) : st cpu Z := fun s => Ok (regs s r, s).
Definition put_reg (r : reg) (v : Z) : st cpu unit := fun s => Ok (tt, mkCpu (set_reg (regs s) r v) (mem s)).

Definition value (o : operand) : st cpu Z :=
  match o with
  | Reg r => get_reg r
  | Mem off r => b ← get_reg r; load (b + off)
  | Var a => load a
  end.
Definition assign (o : operand) (v : Z) : st cpu unit :=
  match o with
  | Reg r => put_reg r v
  | Mem off r => b ← get_reg r; store (b + off) v
  | Var a => store a v
  end.
Definition push (v : Z) : st cpu unit := sp ← get_reg esp; put_reg esp (sp - 4);; store (sp - 4) v.
Definition pop : st cpu Z := sp ← get_reg esp; v ← load sp; put_reg esp (sp + 4);; mret v.
Definition step (c : instr) : st cpu unit :=
  match c with
  | movl src dst => v ← value src; assign dst v
  | pushl r => v ← get_reg r; push v
  | popl r => v ← pop; put_reg r v
  end.
Fixpoint run (cs : list instr) : st cpu unit :=
  match cs with [] => mret tt | c :: cs' => step c;; run cs' end.

(** threads/switch.h: the places of the registers in a Thread object. *)
Definition _ESP : Z := 0.
Definition _EAX : Z := 4.
Definition _EBX : Z := 8.
Definition _ECX : Z := 12.
Definition _EDX : Z := 16.
Definition _EBP : Z := 20.
Definition _ESI : Z := 24.
Definition _EDI : Z := 28.
Definition _PC : Z := 32.
Definition PCState : Z := Z.quot _PC 4 - 1.
Definition InitialPCState : Z := Z.quot _ESI 4 - 1.
Definition InitialArgState : Z := Z.quot _EDX 4 - 1.
Definition WhenDonePCState : Z := Z.quot _EDI 4 - 1.
Definition StartupPCState : Z := Z.quot _ECX 4 - 1.
Definition InitialPC : reg := esi.
Definition InitialArg : reg := edx.
Definition WhenDonePC : reg := edi.
Definition StartupPC : reg := ecx.

Section code.
(** The address of the variable [_eax_save]. *)
Context (_eax_save : Z).

Definition switch_code : list instr := [
  movl (Reg eax) (Var _eax_save);
  movl (Mem 4 esp) (Reg eax);
  movl (Reg ebx) (Mem _EBX eax);
  movl (Reg ecx) (Mem _ECX eax);
  movl (Reg edx) (Mem _EDX eax);
  movl (Reg esi) (Mem _ESI eax);
  movl (Reg edi) (Mem _EDI eax);
  movl (Reg ebp) (Mem _EBP eax);
  movl (Reg esp) (Mem _ESP eax);
  movl (Var _eax_save) (Reg ebx);
  movl (Reg ebx) (Mem _EAX eax);
  movl (Mem 0 esp) (Reg ebx);
  movl (Reg ebx) (Mem _PC eax);
  movl (Mem 8 esp) (Reg eax);
  movl (Mem _EAX eax) (Reg ebx);
  movl (Reg ebx) (Var _eax_save);
  movl (Mem _EBX eax) (Reg ebx);
  movl (Mem _ECX eax) (Reg ecx);
  movl (Mem _EDX eax) (Reg edx);
  movl (Mem _ESI eax) (Reg esi);
  movl (Mem _EDI eax) (Reg edi);
  movl (Mem _EBP eax) (Reg ebp);
  movl (Mem _ESP eax) (Reg esp);
  movl (Mem _PC eax) (Reg eax);
  movl (Reg eax) (Mem 4 esp);
  movl (Var _eax_save) (Reg eax)].
(** The result is the address that [ret] goes to. *)
Definition SWITCH : st cpu Z := run switch_code;; pop.
End code.

(** ** ThreadRoot *)

Section root.
(** What a called function does to the machine, and the address behind the call
    in the code (where the callee returns to). *)
Context (fn : Z -> cpu -> cpu) (behind : nat -> Z).

Definition enter (f : Z) : st cpu unit := fun s => Ok (tt, fn f s).
(** [call *r]: the address called, with the word on top of the stack, where a
    function finds its first argument. *)
Definition call_reg (n : nat) (r : reg) : st cpu (Z * Z) :=
  f ← get_reg r;
  sp ← get_reg esp;
  arg ← load sp;
  push (behind n);;
  enter f;;
  mret (f, arg).
Definition ThreadRoot : st cpu (list (Z * Z)) :=
  run [pushl ebp; movl (Reg esp) (Reg ebp); pushl InitialArg];;
  c1 ← call_reg 0 StartupPC;
  c2 ← call_reg 1 InitialPC;
  c3 ← call_reg 2 WhenDonePC;
  mret [c1; c2; c3].
End root.

(** ** Thread::StackAllocate *)

Definition StackSize : Z := 4 * 1024.
Definition STACK_FENCEPOST : Z := 3735928559.

(** [machineState[k] = v] of the Thread object at [t]: the array is behind the
    pointer [stackTop]. *)
Definition set_state (t k v : Z) : st cpu unit := store (t + 4 + 4 * k) v.
(** [stack] is what AllocBoundedArray returned; [root], [enable] and [finish] are
    the addresses of ThreadRoot, InterruptEnable and ThreadFinish.  (The member
    [stack] of the object is not used by the switch.) *)
Definition StackAllocate (t stack root enable finish func arg : Z) : st cpu unit :=
  let stackTop := stack + 4 * (StackSize - 4) in
  let stackTop := stackTop - 4 in
  store stackTop root;;
  store (t + _ESP) stackTop;;
  store stack STACK_FENCEPOST;;
  set_state t PCState root;;
  set_state t StartupPCState enable;;
  set_state t InitialPCState func;;
  set_state t InitialArgState arg;;
  set_state t WhenDonePCState finish.

(** ** What SWITCH does *)

(** The words of the Thread object that the switch uses. *)
Definition fields : list Z := [_ESP; _EAX; _EBX; _ECX; _EDX; _EBP; _ESI; _EDI; _PC].
Definition in_object (t a : Z) : Prop := t <= a <= t + _PC.
Definition mapped (m : gmap Z Z) (a : Z) : Prop := is_Some (m !! a).
Definition object (m : gmap Z Z) (t : Z) : Prop := Forall (fun k => mapped m (t + k)) fields.

(** The memory after the registers [f], with return address [ra], are saved in
    the object at [t]. *)
Definition saved (save : Z) (f : reg -> Z) (ra t : Z) (m : gmap Z Z) : gmap Z Z :=
  <[t + _PC := ra]> (<[t + _EAX := f eax]> (<[t + _ESP := f esp]> (<[t + _EBP := f ebp]> (<[t + _EDI := f edi]>
  (<[t + _ESI := f esi]> (<[t + _EDX := f edx]> (<[t + _ECX := f ecx]> (<[t + _EBX := f ebx]>
  (<[save := f eax]> m))))))))).
(** The object at [t] holds the registers [f] and the address [ra]. *)
Record holds (m : gmap Z Z) (t : Z) (f : reg -> Z) (ra : Z) : Prop := {
  ho_esp : m !! (t + _ESP) = Some (f esp);
  ho_eax : m !! (t + _EAX) = Some (f eax);
  ho_ebx : m !! (t + _EBX) = Some (f ebx);
  ho_ecx : m !! (t + _ECX) = Some (f ecx);
  ho_edx : m !! (t + _EDX) = Some (f edx);
  ho_ebp : m !! (t + _EBP) = Some (f ebp);
  ho_esi : m !! (t + _ESI) = Some (f esi);
  ho_edi : m !! (t + _EDI) = Some (f edi);
  ho_pc : m !! (t + _PC) = Some ra
}.
(** A call [SWITCH(t1, t2)]: the stack at entry, and the areas apart. *)
Record switch_call (save : Z) (s : cpu) (t1 t2 ra : Z) : Prop := {
  sc_ra : mem s !! regs s esp = Some ra;
  sc_t1 : mem s !! (regs s esp + 4) = Some t1;
  sc_t2 : mem s !! (regs s esp + 8) = Some t2;
  sc_save : mapped (mem s) save;
  sc_obj : object (mem s) t1;
  sc_apart : forall k, k = 0 \/ k = 4 \/ k = 8 -> regs s esp + k <> save /\ ~ in_object t1 (regs s esp + k);
  sc_out : ~ in_object t1 save /\ ~ in_object t2 save
}.

Ltac offs := unfold in_object, _ESP, _EAX, _EBX, _ECX, _EDX, _EBP, _ESI, _EDI, _PC in *.
Lemma saved_holds save f ra t m : ~ in_object t save -> holds (saved save f ra t m) t f ra.
Proof.
  intros Ho. unfold saved. split; offs;
    repeat (rewrite lookup_insert_ne by lia); by rewrite lookup_insert_eq.
Qed.
Lemma saved_other save f ra t m a : a <> save -> ~ in_object t a -> saved save f ra t m !! a = m !! a.
Proof. intros Ha Ho. unfold saved. offs. by repeat (rewrite lookup_insert_ne by lia). Qed.

Lemma set_reg_same f r v : set_reg f r v r = v.
Proof. unfold set_reg. by rewrite decide_True. Qed.
Lemma set_reg_other f r v q : q <> r -> set_reg f r v q = f q.
Proof. intros H. unfold set_reg. by rewrite decide_False. Qed.
Ltac rs := cbn [regs mem]; repeat (rewrite set_reg_same || rewrite set_reg_other by done).

Lemma run_store r off b cs s :
  mapped (mem s) (regs s b + off) ->
  run (movl (Reg r) (Mem off b) :: cs) s =
    run cs (mkCpu (regs s) (<[regs s b + off := regs s r]> (mem s))).
Proof. intros [w H]. simpl. unfold mbind, st_bind, get_reg, store. by rewrite H. Qed.
Lemma run_load r off b cs s w :
  mem s !! (regs s b + off) = Some w ->
  run (movl (Mem off b) (Reg r) :: cs) s = run cs (mkCpu (set_reg (regs s) r w) (mem s)).
Proof. intros H. simpl. unfold mbind, st_bind, get_reg, load. by rewrite H. Qed.
Lemma run_store_var r a cs s :
  mapped (mem s) a ->
  run (movl (Reg r) (Var a) :: cs) s = run cs (mkCpu (regs s) (<[a := regs s r]> (mem s))).
Proof. intros [w H]. simpl. unfold mbind, st_bind, get_reg, store. by rewrite H. Qed.
Lemma run_load_var r a cs s w :
  mem s !! a = Some w ->
  run (movl (Var a) (Reg r) :: cs) s = run cs (mkCpu (set_reg (regs s) r w) (mem s)).
Proof. intros H. simpl. unfold mbind, st_bind, get_reg, load. by rewrite H. Qed.
Lemma mapped_insert m a b v : mapped m a -> mapped (<[b := v]> m) a.
Proof. intros H. unfold mapped. apply lookup_insert_is_Some'. by right. Qed.

(** A word of memory after stores to other addresses, and after the last store
    to it. *)
Ltac look := rs; offs; repeat (rewrite lookup_insert_ne by lia); rewrite ?lookup_insert_eq; first [done|eassumption].
Ltac mapd := rs; repeat apply mapped_insert; assumption.

(** The first half: everything is saved. *)
Lemma save_half save s t1 t2 ra :
  switch_call save s t1 t2 ra ->
  exists f, run (switch_code save) s =
    run (drop 14 (switch_code save)) (mkCpu f (saved save (regs s) ra t1 (mem s))) /\ f eax = t2.
Proof.
  destruct s as [f m]. intros [Hra Ht1 Ht2 Hw Ho Ha Hout]. cbn [regs mem] in *.
  unfold object, fields in Ho. rewrite !Forall_cons in Ho. destruct_and! Ho.
  pose proof (Ha 0 ltac:(auto)). pose proof (Ha 4 ltac:(auto)). pose proof (Ha 8 ltac:(auto)). clear Ha.
  unfold switch_code at 1.
  rewrite run_store_var by mapd.
  rewrite (run_load _ _ _ _ _ t1) by look.
  do 7 (rewrite run_store by mapd; rs).
  rewrite (run_load_var _ _ _ _ (f eax)) by look.
  rewrite run_store by mapd. rs.
  rewrite (run_load _ _ _ _ _ ra) by (rs; rewrite Z.add_0_r in *; look).
  rewrite run_store by mapd. rs.
  rewrite (run_load _ _ _ _ _ t2) by look. rs.
  eexists. split; [reflexivity|]. by rs.
Qed.

(** The second half: everything is loaded. *)
Lemma load_half save s t2 f2 pc2 :
  holds (mem s) t2 f2 pc2 -> regs s eax = t2 -> ~ in_object t2 save -> mapped (mem s) save ->
  mapped (mem s) (f2 esp + 4) -> f2 esp + 4 <> save ->
  exists f, run (drop 14 (switch_code save)) s =
      Ok (tt, mkCpu f (<[f2 esp + 4 := pc2]> (<[save := f2 eax]> (mem s)))) /\ forall r, f r = f2 r.
Proof.
  destruct s as [f m]. intros [] Heax Hout Hs H4 Hne. cbn [regs mem] in *. cbn [drop switch_code].
  rewrite (run_load _ _ _ _ _ (f2 eax)) by (rs; rewrite Heax; look).
  rewrite run_store_var by mapd. rs.
  rewrite (run_load _ _ _ _ _ (f2 ebx)) by (rs; rewrite Heax; look).
  rewrite (run_load _ _ _ _ _ (f2 ecx)) by (rs; rewrite Heax; look).
  rewrite (run_load _ _ _ _ _ (f2 edx)) by (rs; rewrite Heax; look).
  rewrite (run_load _ _ _ _ _ (f2 esi)) by (rs; rewrite Heax; look).
  rewrite (run_load _ _ _ _ _ (f2 edi)) by (rs; rewrite Heax; look).
  rewrite (run_load _ _ _ _ _ (f2 ebp)) by (rs; rewrite Heax; look).
  rewrite (run_load _ _ _ _ _ (f2 esp)) by (rs; rewrite Heax; look).
  rewrite (run_load _ _ _ _ _ pc2) by (rs; rewrite Heax; look).
  rewrite run_store by mapd. rs.
  rewrite (run_load_var _ _ _ _ (f2 eax)) by look. rs.
  eexists. split; [reflexivity|]. intros r. destruct r; by rs.
Qed.
(** [SWITCH(t1, t2)]: the registers of the caller are in the object at [t1], those
    of the object at [t2] in the machine, and [ret] goes where the word on the
    new stack says. *)
Lemma SWITCH_spec save s t1 t2 ra f2 pc2 ret2 :
  switch_call save s t1 t2 ra ->
  holds (saved save (regs s) ra t1 (mem s)) t2 f2 pc2 ->
  mapped (saved save (regs s) ra t1 (mem s)) (f2 esp + 4) -> f2 esp + 4 <> save -> f2 esp <> save ->
  saved save (regs s) ra t1 (mem s) !! f2 esp = Some ret2 ->
  exists f, SWITCH save s =
      Ok (ret2, mkCpu f (<[f2 esp + 4 := pc2]> (<[save := f2 eax]> (saved save (regs s) ra t1 (mem s))))) /\
    f esp = f2 esp + 4 /\ forall r, r <> esp -> f r = f2 r.
Proof.
  intros Hc Hh H4 Hne Hne0 Hret. destruct (save_half save s t1 t2 ra Hc) as (f & Hr & Hf).
  destruct (load_half save (mkCpu f (saved save (regs s) ra t1 (mem s))) t2 f2 pc2) as (f' & Hr' & Hf'); try done.
  { apply (sc_out _ _ _ _ _ Hc). }
  { unfold saved. repeat apply mapped_insert. apply (sc_save _ _ _ _ _ Hc). }
  unfold SWITCH. rewrite (st_bind_Ok _ _ _ tt _ (eq_trans Hr Hr')).
  unfold pop, mbind, st_bind, get_reg, load, put_reg. cbn [regs mem] in *. rewrite Hf'.
  rewrite lookup_insert_ne by lia. rewrite lookup_insert_ne by done. rewrite Hret.
  eexists. split; [reflexivity|]. split; [by rs|]. intros r Hr0. by rewrite set_reg_other.
Qed.

(** ** Suspended threads *)

(** The words that belong to the suspended thread at [t] with registers [f]: its
    object, the return address on its stack and the word behind it. *)
Definition words (t : Z) (f : reg -> Z) (a : Z) : Prop := in_object t a \/ a = f esp \/ a = f esp + 4.
(** The thread at [t] can be switched to and goes on at [ret] with registers [f]. *)
Record ready (save : Z) (m : gmap Z Z) (t : Z) (f : reg -> Z) (ret : Z) : Prop := {
  rd_holds : exists pc, holds m t f pc;
  rd_ret : m !! f esp = Some ret;
  rd_slot : mapped m (f esp + 4);
  rd_save : ~ words t f save
}.
(** The registers after the [ret] of the switch. *)
Definition resumed (f : reg -> Z) (s : cpu) : Prop :=
  regs s esp = f esp + 4 /\ forall r, r <> esp -> regs s r = f r.

Lemma holds_agree m m' t f pc :
  holds m t f pc -> (forall a, in_object t a -> m' !! a = m !! a) -> holds m' t f pc.
Proof. intros [] Hm. split; rewrite Hm by (offs; lia); done. Qed.
Lemma ready_agree save m m' t f ret :
  ready save m t f ret -> (forall a, words t f a -> m' !! a = m !! a) -> ready save m' t f ret.
Proof.
  intros [[pc Hh] Hr Hs Ho] Hm. split; [exists pc|..|done].
  - apply (holds_agree m); [done|]. intros a Ha. apply Hm. by left.
  - rewrite Hm; [done|]. unfold words. auto.
  - unfold mapped. rewrite Hm; [done|]. unfold words. auto.
Qed.
(** Switching from [t1] to [t2]: [t2] goes on, [t1] can be switched back to, and no
    word of another area changes. *)
Lemma switch_to save s t1 t2 ra f2 ret2 :
  switch_call save s t1 t2 ra -> ready save (mem s) t2 f2 ret2 ->
  (forall a, words t2 f2 a -> ~ words t1 (regs s) a) ->
  exists s', SWITCH save s = Ok (ret2, s') /\ resumed f2 s' /\ ready save (mem s') t1 (regs s) ra /\
    forall a, a <> save -> ~ in_object t1 a -> a <> f2 esp + 4 -> mem s' !! a = mem s !! a.
Proof.
  intros Hc [[pc Hh] Hr Hs Ho] Hd. pose proof (sc_out _ _ _ _ _ Hc) as [Ho1 Ho2].
  set (m1 := saved save (regs s) ra t1 (mem s)).
  assert (forall a, words t2 f2 a -> m1 !! a = mem s !! a) as Hm1.
  { intros a Ha. apply saved_other; [by intros ->|]. intros Hin. apply (Hd a Ha). by left. }
  destruct (SWITCH_spec save s t1 t2 ra f2 pc ret2 Hc) as (f & HS & Hesp & Hf); fold m1.
  - apply (holds_agree (mem s)); [done|]. intros a Ha. apply Hm1. by left.
  - unfold mapped. rewrite Hm1; [done|]. unfold words. auto.
  - intros E. apply Ho. unfold words. auto.
  - intros E. apply Ho. unfold words. auto.
  - rewrite Hm1; [done|]. unfold words. auto.
  - eexists. split; [exact HS|]. split; [by split|]. cbn [mem]. fold m1. split.
    + assert (~ words t1 (regs s) save) as Hsave.
      { intros [H|[H|H]]; [done|destruct (sc_apart _ _ _ _ _ Hc 0); [auto|lia]|destruct (sc_apart _ _ _ _ _ Hc 4); [auto|lia]]. }
      assert (~ words t1 (regs s) (f2 esp + 4)) as Hslot by (apply Hd; unfold words; auto).
      apply (ready_agree save m1).
      * split; [exists ra; by apply saved_holds| | |done].
        -- unfold m1. rewrite saved_other; [apply (sc_ra _ _ _ _ _ Hc)|..]; destruct (sc_apart _ _ _ _ _ Hc 0); auto;
             rewrite Z.add_0_r in *; done.
        -- unfold mapped, m1. destruct (sc_apart _ _ _ _ _ Hc 4); [auto|]. rewrite saved_other by done.
           eexists. apply (sc_t1 _ _ _ _ _ Hc).
      * intros a Ha. rewrite !lookup_insert_ne; [done|by intros <-|by intros <-].
    + intros a Ha1 Ha2 Ha3. rewrite !lookup_insert_ne by done. by apply saved_other.
Qed.

(** C29. The context switch.  A thread [t1] that calls SWITCH(t1, t2) leaves the
    CPU to [t2], which goes on where it was suspended with the registers it had.
    Whenever later any thread [t3] calls SWITCH(t3, t1), and the object of [t1]
    and the two words on its stack are as they were, the call of [t1] returns to
    its caller with all registers and the stack pointer as at the call; apart
    from the object of [t3] and the scratch variable, the only word of memory
    that the return changes is the first argument on the stack of [t1]. *)
Theorem context_switch (save : Z) (s s2 : cpu) (t1 t2 t3 ra ra3 ret2 : Z) (f2 : reg -> Z) :
  switch_call save s t1 t2 ra -> ready save (mem s) t2 f2 ret2 ->
  (forall a, words t2 f2 a -> ~ words t1 (regs s) a) ->
  exists s1, SWITCH save s = Ok (ret2, s1) /\ resumed f2 s1 /\
    (switch_call save s2 t3 t1 ra3 ->
     (forall a, words t1 (regs s) a -> mem s2 !! a = mem s1 !! a) ->
     (forall a, words t1 (regs s) a -> ~ words t3 (regs s2) a) ->
     exists s3, SWITCH save s2 = Ok (ra, s3) /\ resumed (regs s) s3 /\
       forall a, a <> save -> ~ in_object t3 a -> a <> regs s esp + 4 -> mem s3 !! a = mem s2 !! a).
Proof.
  intros Hc Hr Hd. destruct (switch_to save s t1 t2 ra f2 ret2 Hc Hr Hd) as (s1 & HS & Hres & Hr1 & _).
  exists s1. split; [done|]. split; [done|]. intros Hc3 Hm Hd3.
  destruct (switch_to save s2 t3 t1 ra3 (regs s) ra Hc3) as (s3 & HS3 & Hres3 & _ & Hfr); [|done|by exists s3].
  by apply (ready_agree save (mem s1)).
Qed.

(** Two threads: objects at 100 and 200, stacks from 500 and from 600; the
    second is suspended and goes on at 7. *)
Definition sample_regs (sp : Z) (r : reg) : Z :=
  match r with eax => 11 | ebx => 12 | ecx => 13 | edx => 14 | esi => 15 | edi => 16 | ebp => 17 | esp => sp end.
Definition sample_mem : gmap Z Z :=
  list_to_map ([(1000, 0); (500, 1); (504, 100); (508, 200); (600, 7); (604, 0); (640, 9); (644, 200); (648, 100)] ++
    ((fun k => (100 + k, 0)) <$> fields) ++
    [(200, 600); (204, 11); (208, 12); (212, 13); (216, 14); (220, 17); (224, 15); (228, 16); (232, 7)]).
Definition sample_cpu : cpu := mkCpu (sample_regs 500) sample_mem.
(** Later the second thread switches back. *)
Definition later_cpu : cpu :=
  mkCpu (sample_regs 640) match SWITCH 1000 sample_cpu with Ok (_, s) => mem s | _ => ∅ end.
#[local] Ltac decide_call :=
  split; [vm_compute; reflexivity|vm_compute; reflexivity|vm_compute; reflexivity| | |
          cbn [regs sample_cpu later_cpu sample_regs]; offs; lia|offs; lia];
  apply (bool_decide_unpack _); vm_compute; exact I.
Lemma context_switch_witness : exists s1 s3, SWITCH 1000 sample_cpu = Ok (7, s1) /\ resumed (sample_regs 600) s1 /\
  SWITCH 1000 later_cpu = Ok (1, s3) /\ resumed (sample_regs 500) s3.
Proof.
  destruct (context_switch 1000 sample_cpu later_cpu 100 200 200 1 9 7 (sample_regs 600)) as (s1 & H1 & H2 & H3).
  - decide_call.
  - split; [exists 7; split; reflexivity|reflexivity|by eexists|unfold words; offs; cbn; lia].
  - unfold words. intros a. offs. cbn. lia.
  - destruct H3 as (s3 & H3 & H4 & _).
    + decide_call.
    + intros a _. unfold later_cpu. by rewrite H1.
    + unfold words. intros a. cbn [regs sample_cpu later_cpu sample_regs]. offs. lia.
    + exists s1, s3. exact (conj H1 (conj H2 (conj H3 H4))).
Defined.

(** ** A forked thread *)

(** The registers that [StackAllocate] leaves for the first switch; the others
    are what the object held. *)
Definition first_regs (m : gmap Z Z) (t stack enable finish func arg : Z) (r : reg) : Z :=
  match r with
  | esp => stack + 4 * (StackSize - 5)
  | ecx => enable
  | edx => arg
  | esi => func
  | edi => finish
  | eax => default 0 (m !! (t + _EAX))
  | ebx => default 0 (m !! (t + _EBX))
  | ebp => default 0 (m !! (t + _EBP))
  end.
(** The stack is mapped and apart from the object and the scratch variable. *)
Record fork_areas (save : Z) (m : gmap Z Z) (t stack : Z) : Prop := {
  fa_stack : forall k, 0 <= k < StackSize -> mapped m (stack + 4 * k);
  fa_object : object m t;
  fa_apart : forall a, in_object t a -> ~ stack <= a < stack + 4 * StackSize;
  fa_save : ~ in_object t save /\ ~ stack <= save < stack + 4 * StackSize
}.

Lemma store_bind {A} (a v : Z) (k : unit -> st cpu A) (s : cpu) :
  mapped (mem s) a -> (store a v ≫= k) s = k tt (mkCpu (regs s) (<[a := v]> (mem s))).
Proof. intros [w H]. unfold mbind, st_bind, store. by rewrite H. Qed.
(** The memory that [StackAllocate] leaves. *)
Definition prepared (m : gmap Z Z) (t stack root enable finish func arg : Z) : gmap Z Z :=
  let top := stack + 4 * (StackSize - 5) in
  <[t + _EDI := finish]> (<[t + _EDX := arg]> (<[t + _ESI := func]> (<[t + _ECX := enable]> (<[t + _PC := root]>
  (<[stack := STACK_FENCEPOST]> (<[t + _ESP := top]> (<[top := root]> m))))))).
Lemma StackAllocate_run save s t stack root enable finish func arg :
  fork_areas save (mem s) t stack ->
  StackAllocate t stack root enable finish func arg s =
    Ok (tt, mkCpu (regs s) (prepared (mem s) t stack root enable finish func arg)).
Proof.
  intros [Hst Ho _ _]. unfold object, fields in Ho. rewrite !Forall_cons in Ho. destruct_and! Ho.
  pose proof (Hst 0 ltac:(done)) as Hfence. rewrite Z.mul_0_r, Z.add_0_r in Hfence.
  pose proof (Hst (StackSize - 5) ltac:(done)) as Htop.
  unfold StackAllocate, set_state.
  replace (stack + 4 * (StackSize - 4) - 4) with (stack + 4 * (StackSize - 5)) by lia.
  replace (t + 4 + 4 * PCState) with (t + _PC) by (unfold PCState; offs; change (Z.quot 32 4) with 8; lia).
  replace (t + 4 + 4 * StartupPCState) with (t + _ECX) by (unfold StartupPCState; offs; change (Z.quot 12 4) with 3; lia).
  replace (t + 4 + 4 * InitialPCState) with (t + _ESI) by (unfold InitialPCState; offs; change (Z.quot 24 4) with 6; lia).
  replace (t + 4 + 4 * InitialArgState) with (t + _EDX) by (unfold InitialArgState; offs; change (Z.quot 16 4) with 4; lia).
  replace (t + 4 + 4 * WhenDonePCState) with (t + _EDI) by (unfold WhenDonePCState; offs; change (Z.quot 28 4) with 7; lia).
  repeat (rewrite store_bind by (cbn [mem]; repeat apply mapped_insert; assumption); cbn [regs mem]).
  unfold store. cbn [mem regs].
  match goal with |- context [match ?x with Some _ => _ | None => _ end] => assert (is_Some x) as [w ->] end; [|done].
  repeat apply mapped_insert. assumption.
Qed.
Lemma object_beside save m t stack :
  fork_areas save m t stack -> t + _PC < stack \/ stack + 4 * StackSize <= t.
Proof.
  intros [_ _ Ha _]. pose proof (Ha t ltac:(offs; lia)) as H1.
  destruct (decide (t + _PC < stack)); [by left|]. right.
  destruct (decide (stack <= t)); [lia|]. exfalso. apply (Ha stack); offs; unfold StackSize in *; lia.
Qed.
Lemma prepared_ready save m t stack root enable finish func arg :
  fork_areas save m t stack ->
  ready save (prepared m t stack root enable finish func arg) t (first_regs m t stack enable finish func arg) root /\
  prepared m t stack root enable finish func arg !! stack = Some STACK_FENCEPOST.
Proof.
  intros Hfa. pose proof (object_beside _ _ _ _ Hfa) as Hside. destruct Hfa as [Hst Ho Ha [Hs1 Hs2]].
  unfold object, fields in Ho. rewrite !Forall_cons in Ho. destruct Ho as (_ & [w1 E1] & [w2 E2] & _ & _ & [w3 E3] & _).
  unfold prepared, StackSize in *. split; [split|].
  - exists root. split; cbn [first_regs]; unfold StackSize; offs;
      repeat (rewrite lookup_insert_ne by lia); rewrite ?lookup_insert_eq; rewrite ?E1, ?E2, ?E3; done.
  - cbn [first_regs]. offs. unfold StackSize. repeat (rewrite lookup_insert_ne by lia). by rewrite lookup_insert_eq.
  - cbn [first_regs]. unfold StackSize. repeat apply mapped_insert.
    replace (stack + 4 * (4 * 1024 - 5) + 4) with (stack + 4 * (4 * 1024 - 4)) by lia. by apply Hst.
  - unfold words. cbn [first_regs]. unfold StackSize. intros [H|[H|H]]; [done|lia|lia].
  - offs. repeat (rewrite lookup_insert_ne by lia). by rewrite lookup_insert_eq.
Qed.

(** What compiled functions keep: the stack pointer is behind the return address
    when they return, four registers are as before, no memory disappears. *)
Record cdecl (fn : Z -> cpu -> cpu) : Prop := {
  cd_esp : forall f s, regs (fn f s) esp = regs s esp + 4;
  cd_regs : forall f s r, r = ebx \/ r = esi \/ r = edi \/ r = ebp -> regs (fn f s) r = regs s r;
  cd_mapped : forall f s a, mapped (mem s) a -> mapped (mem (fn f s)) a
}.
Lemma call_reg_spec fn behind n r s arg :
  cdecl fn -> mem s !! regs s esp = Some arg -> mapped (mem s) (regs s esp - 4) ->
  exists s', call_reg fn behind n r s = Ok ((regs s r, arg), s') /\ regs s' esp = regs s esp /\
    (forall q, q = ebx \/ q = esi \/ q = edi \/ q = ebp -> regs s' q = regs s q) /\
    (forall a, mapped (mem s) a -> mapped (mem s') a) /\
    s' = fn (regs s r) (mkCpu (set_reg (regs s) esp (regs s esp - 4)) (<[regs s esp - 4 := behind n]> (mem s))).
Proof.
  intros [Hesp Hregs Hmap] Harg [w Hw]. eexists. split.
  - unfold call_reg, push, enter, mbind, st_bind, get_reg, put_reg, load, store. rewrite Harg. cbn [regs mem]. by rewrite Hw.
  - split_and!; [rewrite Hesp; rs; lia| | |done].
    + intros q Hq. rewrite Hregs by done. cbn [regs]. apply set_reg_other. by destruct Hq as [->|[->|[->| ->]]].
    + intros a Ha. apply Hmap. cbn [mem]. by apply mapped_insert.
Qed.
Lemma ThreadRoot_spec fn behind s :
  cdecl fn -> (forall k, 1 <= k <= 3 -> mapped (mem s) (regs s esp - 4 * k)) ->
  (forall s' a, regs s' esp + 4 <= a -> mem (fn (regs s StartupPC) s') !! a = mem s' !! a) ->
  exists x s', ThreadRoot fn behind s =
    Ok ([(regs s StartupPC, regs s InitialArg); (regs s InitialPC, regs s InitialArg); (regs s WhenDonePC, x)], s').
Proof.
  intros Hcd Hm Hen. destruct s as [f m]. cbn [regs mem] in *. unfold StartupPC, InitialArg, InitialPC, WhenDonePC in *.
  pose proof (Hm 1 ltac:(lia)) as M1. pose proof (Hm 2 ltac:(lia)) as M2. pose proof (Hm 3 ltac:(lia)) as M3.
  set (m2 := <[f esp - 8 := f edx]> (<[f esp - 4 := f ebp]> m)).
  set (g := set_reg (set_reg (set_reg f esp (f esp - 4)) ebp (f esp - 4)) esp (f esp - 8)).
  assert (run [pushl ebp; movl (Reg esp) (Reg ebp); pushl InitialArg] (mkCpu f m) = Ok (tt, mkCpu g m2)) as Hr.
  { destruct M1 as [w1 E1], (mapped_insert m (f esp - 4 * 2) (f esp - 4) (f ebp) M2) as [w2 E2].
    replace (f esp - 4 * 1) with (f esp - 4) in E1 by lia. replace (f esp - 4 * 2) with (f esp - 8) in E2 by lia.
    cbn [run step value assign]. unfold push, mbind, st_bind, get_reg, put_reg, store. cbn [regs mem].
    rewrite E1. cbn [regs mem]. rs. replace (f esp - 4 - 4) with (f esp - 8) by lia. rewrite E2. done. }
  unfold ThreadRoot. rewrite (st_bind_Ok _ _ _ _ _ Hr).
  assert (g esp = f esp - 8) as Hgesp by (unfold g; by rs).
  assert (g ecx = f ecx /\ g esi = f esi /\ g edi = f edi) as (Gc & Gs & Gd) by (unfold g; by rs).
  destruct (call_reg_spec fn behind 0 ecx (mkCpu g m2) (f edx) Hcd) as (s1 & C1 & Hsp1 & Hq1 & Hm1 & Es1);
    cbn [regs mem] in *; rewrite ?Hgesp.
  { unfold m2. by rewrite lookup_insert_eq. }
  { unfold m2. repeat apply mapped_insert. by replace (f esp - 8 - 4) with (f esp - 4 * 3) by lia. }
  rewrite (st_bind_Ok _ _ _ _ _ C1). rewrite Gc, Hgesp in *.
  assert (mapped m2 (f esp - 8 - 4)) as M12
    by (unfold m2; repeat apply mapped_insert; by replace (f esp - 8 - 4) with (f esp - 4 * 3) by lia).
  destruct (call_reg_spec fn behind 1 esi s1 (f edx) Hcd) as (s2 & C2 & Hsp2 & Hq2 & Hm2 & _).
  { rewrite Hsp1, Es1, Hen by (cbn [regs]; rs; lia). cbn [mem]. rewrite lookup_insert_ne by lia.
    unfold m2. by rewrite lookup_insert_eq. }
  { rewrite Hsp1. by apply Hm1. }
  rewrite (st_bind_Ok _ _ _ _ _ C2). rewrite Hsp1 in *.
  destruct (Hm2 (f esp - 8)) as [x Hx]; [apply Hm1; unfold mapped, m2; rewrite lookup_insert_eq; by eexists|].
  destruct (call_reg_spec fn behind 2 edi s2 x Hcd) as (s3 & C3 & _); [by rewrite Hsp2| |].
  { rewrite Hsp2. by apply Hm2, Hm1. }
  rewrite (st_bind_Ok _ _ _ _ _ C3). exists x, s3.
  rewrite (Hq2 edi), (Hq1 edi), (Hq1 esi), Gs, Gd by auto. done.
Qed.

(** C33. A forked thread.  After [StackAllocate] (in [Thread::Fork]) the first
    switch to the new thread enters ThreadRoot, which calls InterruptEnable,
    then the function given to Fork with its argument where a function finds
    it, and then ThreadFinish, in this order; the fence post is at the end of
    the stack. *)
Theorem forked_thread (save : Z) (fn : Z -> cpu -> cpu) (behind : nat -> Z) (s s2 : cpu)
    (t t1 stack root enable finish func arg ra : Z) :
  fork_areas save (mem s) t stack -> cdecl fn ->
  (forall s' a, regs s' esp + 4 <= a -> mem (fn enable s') !! a = mem s' !! a) ->
  exists s', StackAllocate t stack root enable finish func arg s = Ok (tt, s') /\
    mem s' !! stack = Some STACK_FENCEPOST /\
    (switch_call save s2 t1 t ra ->
     (forall a, in_object t a \/ stack <= a < stack + 4 * StackSize -> mem s2 !! a = mem s' !! a /\ ~ words t1 (regs s2) a) ->
     exists s3 s4 x, SWITCH save s2 = Ok (root, s3) /\
       ThreadRoot fn behind s3 = Ok ([(enable, arg); (func, arg); (finish, x)], s4)).
Proof.
  intros Hfa Hcd Hen. pose proof (StackAllocate_run save s t stack root enable finish func arg Hfa) as Hrun.
  destruct (prepared_ready save (mem s) t stack root enable finish func arg Hfa) as [Hready Hfence].
  eexists. split; [exact Hrun|]. split; [exact Hfence|]. cbn [mem]. intros Hc Hm.
  set (f := first_regs (mem s) t stack enable finish func arg) in *.
  assert (forall a, words t f a -> in_object t a \/ stack <= a < stack + 4 * StackSize) as Hw.
  { intros a [Ha|[->| ->]]; [by left|right..]; unfold f, first_regs, StackSize; lia. }
  destruct (switch_to save s2 t1 t ra f root Hc) as (s3 & HS & [Hesp Hregs] & _ & Hfr).
  { apply (ready_agree _ _ _ _ _ _ Hready). intros a Ha. by apply Hm, Hw. }
  { intros a Ha. by apply Hm, Hw. }
  destruct (ThreadRoot_spec fn behind s3 Hcd) as (x & s4 & HR).
  - intros k Hk. rewrite Hesp. change (f esp) with (stack + 4 * (StackSize - 5)).
    replace (stack + 4 * (StackSize - 5) + 4 - 4 * k) with (stack + 4 * (StackSize - 4 - k)) by lia.
    assert (stack <= stack + 4 * (StackSize - 4 - k) < stack + 4 * StackSize) as Hin by (unfold StackSize; lia).
    destruct (Hm _ (or_intror Hin)) as [Hm1 Hm2]. unfold mapped. rewrite Hfr.
    + rewrite Hm1. unfold prepared. repeat apply mapped_insert. apply (fa_stack _ _ _ _ Hfa). unfold StackSize. lia.
    + intros E. apply (fa_save _ _ _ _ Hfa). by rewrite <-E.
    + intros Hin'. apply Hm2. by left.
    + change (f esp) with (stack + 4 * (StackSize - 5)). lia.
  - unfold StartupPC. rewrite Hregs by done. exact Hen.
  - exists s3, s4, x. split; [done|]. revert HR. unfold StartupPC, InitialArg, InitialPC, WhenDonePC.
    rewrite !Hregs by done. done.
Qed.

(** A new thread with its object at 100 and its stack from 20000, switched to
    by a thread with its object at 200 and its stack from 500. *)
Definition small_mem : gmap Z Z :=
  list_to_map ([(1000, 0); (500, 1); (504, 200); (508, 100)] ++ ((fun k => (100 + k, 5)) <$> fields) ++
    ((fun k => (200 + k, 6)) <$> fields)).
Definition fork_mem : gmap Z Z := small_mem ∪ list_to_map ((fun k => (20000 + 4 * k, 0)) <$> seqZ 0 4096).
Definition fork_cpu : cpu := mkCpu (sample_regs 500) fork_mem.
Definition forked_cpu : cpu := mkCpu (sample_regs 500) (prepared fork_mem 100 20000 31 32 33 34 35).
(** Functions that return at once. *)
Definition returning (f : Z) (s : cpu) : cpu := mkCpu (set_reg (regs s) esp (regs s esp + 4)) (mem s).
Lemma returning_cdecl : cdecl returning.
Proof.
  split; intros; unfold returning; cbn [regs mem]; rs; try done.
  by destruct H as [->|[->|[->| ->]]]; rs.
Qed.
Lemma small_lookup a v : small_mem !! a = Some v -> fork_mem !! a = Some v.
Proof. apply lookup_union_Some_l. Qed.
Lemma small_mapped a : is_Some (small_mem !! a) -> mapped fork_mem a.
Proof. intros [v Hv]. exists v. by apply small_lookup. Qed.
Lemma fork_areas_sample : fork_areas 1000 fork_mem 100 20000.
Proof.
  split.
  - intros k Hk. unfold mapped, fork_mem. rewrite lookup_union_is_Some. right.
    apply not_eq_None_Some. intros E.
    apply not_elem_of_list_to_map in E. apply E. rewrite <-list_fmap_compose.
    apply list_elem_of_fmap. exists k. split; [done|]. apply elem_of_seqZ. unfold StackSize in Hk. lia.
  - eapply Forall_impl; [|intros k; apply small_mapped]. apply (bool_decide_unpack _). vm_compute. exact I.
  - offs. unfold StackSize. lia.
  - offs. unfold StackSize. lia.
Qed.
Lemma prepared_other m t stack root enable finish func arg a :
  ~ in_object t a -> ~ stack <= a < stack + 4 * StackSize ->
  prepared m t stack root enable finish func arg !! a = m !! a.
Proof.
  intros Ho Hs. unfold prepared, StackSize in *. offs. by repeat (rewrite lookup_insert_ne by lia).
Qed.
Lemma switch_call_sample : switch_call 1000 forked_cpu 200 100 1.
Proof.
  split; cbn [mem regs forked_cpu sample_regs]; try (offs; lia).
  - rewrite prepared_other by (offs; unfold StackSize; lia). by apply small_lookup.
  - rewrite prepared_other by (offs; unfold StackSize; lia). by apply small_lookup.
  - rewrite prepared_other by (offs; unfold StackSize; lia). by apply small_lookup.
  - unfold prepared. do 8 apply mapped_insert. apply small_mapped. by eexists.
  - eapply Forall_impl; [|intros k Hk; unfold prepared; do 8 apply mapped_insert; apply small_mapped; exact Hk].
    apply (bool_decide_unpack _). vm_compute. exact I.
Qed.
Lemma forked_thread_witness : exists s' s3 s4 x,
  StackAllocate 100 20000 31 32 33 34 35 fork_cpu = Ok (tt, s') /\ SWITCH 1000 forked_cpu = Ok (31, s3) /\
  ThreadRoot returning (fun _ => 0) s3 = Ok ([(32, 35); (34, 35); (33, x)], s4).
Proof.
  destruct (forked_thread 1000 returning (fun _ => 0) fork_cpu forked_cpu 100 200 20000 31 32 33 34 35 1)
    as (s' & H1 & _ & H2).
  - exact fork_areas_sample.
  - exact returning_cdecl.
  - intros s' a _. reflexivity.
  - pose proof H1 as E. rewrite (StackAllocate_run 1000 fork_cpu 100 20000 31 32 33 34 35 fork_areas_sample) in E.
    injection E as E. destruct H2 as (s3 & s4 & x & H3 & H4).
    + exact switch_call_sample.
    + intros a Ha. rewrite <-E. cbn [mem regs forked_cpu]. split; [reflexivity|].
      unfold words, StackSize in *. cbn [sample_regs]. offs. lia.
    + exists s', s3, s4, x. exact (conj H1 (conj H3 H4)).
Defined.
