(* ===== verification/HostSim.v ===== *)
(** * bin/execute.c, bin/main.c, bin/system.c: the MIPS interpreter of the host

    A second simulator for the programs of the machine, a host program without
    address translation, load delays or exceptions: [runprogram] sets up the
    stack and interprets one instruction after the other.  The memory is the
    array [mem] of [MEMSIZE] bytes for the addresses from [memoffset] on; an
    access outside it is undefined.  The UNIX calls behind [system_trap] are an
    argument. *)

From S2P Require Import Prelude Interrupt Machine MipsSim MipsIsa.
From stdpp Require Import gmap list sets.
#[local] Open Scope Z_scope.

Definition MEMSIZE : Z := 16777216.
Definition memoffset : Z := 268435456.

(** ** bin/instr.h: the fields of an instruction *)

Module I.
Definition rd (i : Z) : Z := Z.land (Z.shiftr i 11) 31.
Definition rt (i : Z) : Z := Z.land (Z.shiftr i 16) 31.
Definition rs (i : Z) : Z := Z.land (Z.shiftr i 21) 31.
Definition shamt (i : Z) : Z := Z.land (Z.shiftr i 6) 31.
Definition immed (i : Z) : Z :=
  if negb (Z.land i 32768 =? 0) then Z.lor i (-32768) else Z.land i 32767.
End I.

(** ** The machine: [Reg], [HI], [LO], [mem] and the program counters *)

Record host := mkHost { Reg : list Z; HI : Z; LO : Z; mem : gmap Z Z; pc : Z; npc : Z }.
Definition set_Reg h v := mkHost v (HI h) (LO h) (mem h) (pc h) (npc h).
Definition set_HILO h hi lo := mkHost (Reg h) hi lo (mem h) (pc h) (npc h).
Definition set_mem h v := mkHost (Reg h) (HI h) (LO h) v (pc h) (npc h).
Definition set_pcs h p n := mkHost (Reg h) (HI h) (LO h) (mem h) p n.

Definition R (k : Z) : st host Z := fun h => v ← Prelude.rd (Reg h) k; Ok (v, h).
Definition setR (k v : Z) : st host unit := fun h => r ← wr (Reg h) k v; Ok (tt, set_Reg h r).
Definition getHI : st host Z := fun h => Ok (HI h, h).
Definition getLO : st host Z := fun h => Ok (LO h, h).
Definition setHILO (hi lo : Z) : st host unit := fun h => Ok (tt, set_HILO h hi lo).
Definition jump (a : Z) : st host unit := fun h => Ok (tt, set_pcs h (pc h) a).
(** [u()]: [exit(2)] *)
Definition u {A} : st host A := fun _ => Halted.

(** bin/int.h: the memory is zero where nothing was stored. *)
Definition byte_at (m : gmap Z Z) (a : Z) : Z := default 0 (m !! a).
Definition in_mem (a n : Z) : bool := (memoffset <=? a) && (a + n <=? memoffset + MEMSIZE).
Definition get_bytes (m : gmap Z Z) (a : Z) (n : nat) : list Z :=
  (fun k => byte_at m (a - memoffset + k)) <$> seqZ 0 (Z.of_nat n).
Fixpoint put_bytes (m : gmap Z Z) (a : Z) (bs : list Z) : gmap Z Z :=
  match bs with [] => m | b :: bs' => put_bytes (<[a := b]> m) (a + 1) bs' end.
Definition load_mem (a : Z) (n : nat) : st host Z := fun h =>
  if in_mem a (Z.of_nat n) then Ok (le_value (get_bytes (mem h) a n), h) else UB.
Definition store_mem (a : Z) (bs : list Z) : st host unit := fun h =>
  if in_mem a (zlen bs) then Ok (tt, set_mem h (put_bytes (mem h) (a - memoffset) bs)) else UB.
Definition to_short (z : Z) : Z := (z + 32768) mod 65536 - 32768.
Definition fetch (a : Z) : st host Z := v ← load_mem a 4; mret (to_int v).
Definition ifetch (a : Z) : st host Z := fetch a.
Definition sfetch (a : Z) : st host Z := v ← load_mem a 2; mret (to_short v).
Definition usfetch (a : Z) : st host Z := load_mem a 2.
Definition cfetch (a : Z) : st host Z := v ← load_mem a 1; mret (to_char v).
Definition ucfetch (a : Z) : st host Z := load_mem a 1.
Definition store (a i : Z) : st host unit := store_mem a (le32 i).
Definition sstore (a i : Z) : st host unit := store_mem a (le16 i).
Definition cstore (a i : Z) : st host unit := store_mem a [i mod 256].

(** Shifts are defined for counts from 0 to 31 only. *)
Definition shift_count (n : Z) : st host unit := fun h => if (0 <=? n) && (n <? 32) then Ok (tt, h) else UB.
Definition shl (a n : Z) : Z := to_int (Z.shiftl a n).
Definition shr (a n : Z) : Z := to_int (Z.shiftr (to_uint a) n).

Section execute.
(** The UNIX calls: number and three arguments, to the result and the memory. *)
Context (unix : Z -> Z -> Z -> Z -> gmap Z Z -> Z * gmap Z Z).

(** ** bin/system.c *)

Definition unix_call (n o0 o1 o2 : Z) : st host unit := fun h =>
  let '(r, m) := unix n o0 o1 o2 (mem h) in setR 1 r (set_mem h m).
Definition system_trap : st host unit :=
  syscallno ← R 2;
  o0 ← R 4;
  o1 ← R 5;
  o2 ← R 6;
  match syscallno with
  | 1 => u
  | 3 | 4 | 5 | 19 => unix_call syscallno o0 o1 o2
  | 6 => setR 1 0
  | 17 => setR 1 (to_int ((Z.quot o0 8192 + 1) * 8192))
  | 54 =>
      let size := Z.land (Z.shiftr o1 16) 127 in
      let group := to_char (Z.land (Z.shiftr o1 8) 255) in
      let o1 := if (group =? 116) && (size =? 8)
                then Z.lor (Z.land o1 (Z.lnot (Z.shiftl 127 16))) (Z.shiftl 6 16) else o1 in
      unix_call syscallno o0 o1 o2;; setR 1 0
  | 62 => unix_call syscallno o1 o2 0
  | 64 => unix_call syscallno 0 0 0
  | _ => u
  end.

(** ** bin/execute.c: the SPECIAL instructions *)

Definition mult (t1 t2 : Z) : Z * Z :=
  let neg := xorb (t1 <? 0) (t2 <? 0) in
  let t1 := if t1 <? 0 then to_int (- t1) else t1 in
  let t2 := if t2 <? 0 then to_int (- t2) else t2 in
  let lo := to_int (t1 * t2) in
  let t1l := Z.land t1 65535 in
  let t1h := Z.land (Z.shiftr t1 16) 65535 in
  let t2l := Z.land t2 65535 in
  let t2h := Z.land (Z.shiftr t2 16) 65535 in
  let hi := to_int (to_int (t1h * t2h) + Z.shiftr (to_int (t1h * t2l)) 16 + Z.shiftr (to_int (t2h * t1l)) 16) in
  if neg then
    let lo := to_int (Z.lnot lo + 1) in
    let hi := Z.lnot hi in
    (if lo =? 0 then to_int (hi + 1) else hi, lo)
  else (hi, lo).
Definition multu (t1 t2 : Z) : Z * Z :=
  let t1l := Z.land t1 65535 in
  let t1h := Z.land (Z.shiftr t1 16) 65535 in
  let t2l := Z.land t2 65535 in
  let t2h := Z.land (Z.shiftr t2 16) 65535 in
  (to_int (to_int (t1h * t2h) + Z.shiftr (to_int (t1h * t2l)) 16 + Z.shiftr (to_int (t2h * t1l)) 16),
   to_int (t1 * t2)).
(** [/] and [%] of [int]s: by zero, and the least [int] by -1, stop the process. *)
Definition divide (a b : Z) : res (Z * Z) :=
  if (b =? 0) || ((a =? - two31) && (b =? -1)) then UB else Ok (Z.rem a b, Z.quot a b).
Definition divideu (a b : Z) : res (Z * Z) :=
  if to_uint b =? 0 then UB
  else Ok (to_int (to_uint a mod to_uint b), to_int (to_uint a / to_uint b)).

(** [Reg[rd(instr)] = f(Reg[rs(instr)], Reg[rt(instr)])] *)
Definition alu (instr : Z) (f : Z -> Z -> Z) : st host unit :=
  a ← R (I.rs instr); b ← R (I.rt instr); setR (I.rd instr) (f a b).

Definition special (instr xpc : Z) : st host unit :=
  match Z.land instr 63 with
  | 0 (* I_SLL *) => b ← R (I.rt instr); setR (I.rd instr) (shl b (I.shamt instr))
  | 2 (* I_SRL *) => b ← R (I.rt instr); setR (I.rd instr) (shr b (I.shamt instr))
  | 3 (* I_SRA *) => b ← R (I.rt instr); setR (I.rd instr) (Z.shiftr b (I.shamt instr))
  | 4 (* I_SLLV *) => b ← R (I.rt instr); a ← R (I.rs instr); shift_count a;; setR (I.rd instr) (shl b a)
  | 6 (* I_SRLV *) => b ← R (I.rt instr); a ← R (I.rs instr); shift_count a;; setR (I.rd instr) (shr b a)
  | 7 (* I_SRAV *) => b ← R (I.rt instr); a ← R (I.rs instr); shift_count a;; setR (I.rd instr) (Z.shiftr b a)
  | 8 (* I_JR *) => a ← R (I.rs instr); jump a
  | 9 (* I_JALR *) => a ← R (I.rs instr); jump a;; setR (I.rd instr) (to_int (xpc + 8))
  | 12 (* I_SYSCALL *) => system_trap
  | 13 (* I_BREAK *) => system_trap
  | 16 (* I_MFHI *) => v ← getHI; setR (I.rd instr) v
  | 17 (* I_MTHI *) => a ← R (I.rs instr); lo ← getLO; setHILO a lo
  | 18 (* I_MFLO *) => v ← getLO; setR (I.rd instr) v
  | 19 (* I_MTLO *) => a ← R (I.rs instr); hi ← getHI; setHILO hi a
  | 24 (* I_MULT *) => a ← R (I.rs instr); b ← R (I.rt instr); let '(hi, lo) := mult a b in setHILO hi lo
  | 25 (* I_MULTU *) => a ← R (I.rs instr); b ← R (I.rt instr); let '(hi, lo) := multu a b in setHILO hi lo
  | 26 (* I_DIV *) => a ← R (I.rs instr); b ← R (I.rt instr); '(hi, lo) ← lift (divide a b); setHILO hi lo
  | 27 (* I_DIVU *) => a ← R (I.rs instr); b ← R (I.rt instr); '(hi, lo) ← lift (divideu a b); setHILO hi lo
  | 32 | 33 (* I_ADD, I_ADDU *) => alu instr (fun a b => to_int (a + b))
  | 34 | 35 (* I_SUB, I_SUBU *) => alu instr (fun a b => to_int (a - b))
  | 36 (* I_AND *) => alu instr Z.land
  | 37 (* I_OR *) => alu instr Z.lor
  | 38 (* I_XOR *) => alu instr Z.lxor
  | 39 (* I_NOR *) => alu instr (fun a b => Z.lnot (Z.lor a b))
  | 42 (* I_SLT *) => alu instr (fun a b => Z.b2z (a <? b))
  | 43 (* I_SLTU *) => alu instr (fun a b => Z.b2z (to_uint a <? to_uint b))
  | _ => u
  end.

(** ** Branches *)

Definition branch_if (instr xpc : Z) (c : bool) : st host unit :=
  if c then jump (to_int (to_int (xpc + 4) + shl (I.immed instr) 2)) else mret tt.
Definition bcond (instr xpc : Z) : st host unit :=
  match I.rt instr with
  | 0 (* I_BLTZ *) => a ← R (I.rs instr); branch_if instr xpc (a <? 0)
  | 1 (* I_BGEZ *) => a ← R (I.rs instr); branch_if instr xpc (0 <=? a)
  | 16 (* I_BLTZAL *) => setR 31 (to_int (xpc + 8));; a ← R (I.rs instr); branch_if instr xpc (a <? 0)
  | 17 (* I_BGEZAL *) => setR 31 (to_int (xpc + 8));; a ← R (I.rs instr); branch_if instr xpc (0 <=? a)
  | _ => u
  end.
Definition jump_target (instr xpc : Z) : Z :=
  to_int (Z.lor (Z.land xpc 4026531840) (Z.shiftl (Z.land instr 67108863) 2)).

(** [Reg[rt(instr)] = f(Reg[rs(instr)], immed(instr))] *)
Definition alu_i (instr : Z) (f : Z -> Z -> Z) : st host unit :=
  a ← R (I.rs instr); setR (I.rt instr) (f a (I.immed instr)).
Definition address (instr : Z) : st host Z := a ← R (I.rs instr); mret (to_int (a + I.immed instr)).
Definition load_i (instr : Z) (f : Z -> st host Z) : st host unit :=
  a ← address instr; v ← f a; setR (I.rt instr) v.
Definition store_i (instr : Z) (f : Z -> Z -> st host unit) : st host unit :=
  a ← address instr; v ← R (I.rt instr); f a v.
Definition op_LWL (instr : Z) : st host unit :=
  i ← address instr;
  t ← R (I.rt instr);
  let t := Z.land t (Z.shiftr (-1) (8 * Z.land (- i) 3)) in
  w ← fetch (to_int (Z.land i 4294967292));
  setR (I.rt instr) (Z.lor t (shl w (8 * Z.land i 3))).
Definition op_LWR (instr : Z) : st host unit :=
  i ← address instr;
  t ← R (I.rt instr);
  let t := Z.land t (shl (-1) (8 * Z.land i 3)) in
  let t := if Z.land i 3 =? 0 then 0 else t in
  w ← fetch (to_int (Z.land i 4294967292));
  setR (I.rt instr) (Z.lor t (Z.shiftr w (8 * Z.land (- i) 3))).

Definition execute (instr xpc : Z) : st host unit :=
  match Z.land (Z.shiftr instr 26) 63 with
  | 0 (* I_SPECIAL *) => special instr xpc
  | 1 (* I_BCOND *) => bcond instr xpc
  | 2 (* I_J *) => jump (jump_target instr xpc)
  | 3 (* I_JAL *) => setR 31 (to_int (xpc + 8));; jump (jump_target instr xpc)
  | 4 (* I_BEQ *) => a ← R (I.rs instr); b ← R (I.rt instr); branch_if instr xpc (a =? b)
  | 5 (* I_BNE *) => a ← R (I.rs instr); b ← R (I.rt instr); branch_if instr xpc (negb (a =? b))
  | 6 (* I_BLEZ *) => a ← R (I.rs instr); branch_if instr xpc (a <=? 0)
  | 7 (* I_BGTZ *) => a ← R (I.rs instr); branch_if instr xpc (0 <? a)
  | 8 | 9 (* I_ADDI, I_ADDIU *) => alu_i instr (fun a e => to_int (a + e))
  | 10 (* I_SLTI *) => alu_i instr (fun a e => Z.b2z (a <? e))
  | 11 (* I_SLTIU *) => alu_i instr (fun a e => Z.b2z (to_uint a <? to_uint e))
  | 12 (* I_ANDI *) => alu_i instr Z.land
  | 13 (* I_ORI *) => alu_i instr Z.lor
  | 14 (* I_XORI *) => alu_i instr Z.lxor
  | 15 (* I_LUI *) => setR (I.rt instr) (shl instr 16)
  | 32 (* I_LB *) => load_i instr cfetch
  | 33 (* I_LH *) => load_i instr sfetch
  | 34 (* I_LWL *) => op_LWL instr
  | 35 (* I_LW *) => load_i instr fetch
  | 36 (* I_LBU *) => load_i instr ucfetch
  | 37 (* I_LHU *) => load_i instr usfetch
  | 38 (* I_LWR *) => op_LWR instr
  | 40 (* I_SB *) => store_i instr cstore
  | 41 (* I_SH *) => store_i instr sstore
  | 43 (* I_SW *) => store_i instr store
  | _ => u (* SWL, SWR, the coprocessors and all others end the program *)
  end.

(** One round of the loop. *)
Definition step : st host unit :=
  xpc ← (fun h => Ok (pc h, h));
  (fun h => Ok (tt, set_pcs h (npc h) (to_int (npc h + 4))));;
  instr ← ifetch xpc;
  setR 0 0;;
  if negb (instr =? 0) then execute instr xpc else mret tt.
Fixpoint rounds (n : nat) : st host unit :=
  match n with O => mret tt | S n' => step;; rounds n' end.

(** The stack of the program: argc, the pointers, the strings. *)
Fixpoint put_args (aci ai : Z) (argv : list (list Z)) : st host unit :=
  match argv with
  | [] => mret tt
  | s :: argv' =>
      store_mem ai (s ++ [0]);;
      store aci ai;;
      put_args (aci + 4) (ai + zlen s + 1) argv'
  end.
(** [runprogram], [n] rounds of its endless loop. *)
Definition runprogram (n : nat) (startpc : Z) (argv : list (list Z)) : st host unit :=
  (fun h => Ok (tt, set_pcs h startpc (to_int (startpc + 4))));;
  let i := MEMSIZE - 1024 + memoffset in
  setR 29 i;;
  store i (zlen argv);;
  put_args (i + 4) (i + 4 + 32) argv;;
  rounds n.
End execute.

(** ** The two simulators *)

(** The word of the instruction in a machine. *)
Definition raw_at (m : Machine) : option Z :=
  match phys m (reg_of m PCReg) 4 false with
  | inr pa => match Machine.load (mainMemory m) pa 4 with Ok raw => Some raw | _ => None end
  | inl _ => None
  end.
(** The registers, HI and LO agree, the program counters of the host are [off]
    further (the host loads programs at [memoffset], the kernel at 0), and the
    machine has no load pending (the host interpreter has no delayed loads).
    Register 0 of the host is cleared at the start of each round. *)
Record agree (off : Z) (m : Machine) (h : host) : Prop := {
  ag_len : zlen (Reg h) = 32;
  ag_regs : forall k, 1 <= k < 32 -> zget (Reg h) k = Some (reg_of m k);
  ag_hi : HI h = reg_of m HiReg;
  ag_lo : LO h = reg_of m LoReg;
  ag_pc : pc h = to_int (reg_of m PCReg + off);
  ag_npc : npc h = to_int (reg_of m NextPCReg + off);
  ag_load : reg_of m LoadReg = 0
}.

Lemma field_uint v k n : 0 <= k -> 0 <= n -> k + n <= 32 ->
  Z.land (Z.shiftr (to_uint v) k) (Z.ones n) = Z.land (Z.shiftr v k) (Z.ones n).
Proof.
  intros Hk Hn Hs. apply Z.bits_inj'. intros j Hj. rewrite !Z.land_spec, !Z.shiftr_spec by lia.
  unfold to_uint. change two32 with (2 ^ 32). destruct (Z.lt_ge_cases j n) as [Hlt|Hge].
  - by rewrite Z.mod_pow2_bits_low by lia.
  - rewrite Z.ones_spec_high by lia. by rewrite !andb_false_r.
Qed.
Lemma land_uint v n : 0 <= n <= 32 -> Z.land (to_uint v) (Z.ones n) = Z.land v (Z.ones n).
Proof.
  intros Hn. pose proof (field_uint v 0 n ltac:(lia) ltac:(lia) ltac:(lia)) as H. by rewrite !Z.shiftr_0_r in H.
Qed.
Lemma lor_high v : Z.lor (v mod 65536) 4294901760 = v mod 65536 + 4294901760.
Proof.
  rewrite <-Z.add_lor_land. change 4294901760 with (Z.shiftl 65535 16). rewrite land_shiftl by lia.
  rewrite Z.shiftr_div_pow2 by lia. rewrite Z.div_small by (change (2 ^ 16) with 65536; lia_mod).
  rewrite Z.land_0_l, Z.shiftl_0_l. lia.
Qed.
(** The immediate field of both simulators. *)
Lemma immed_extra v :
  (let e := Z.land v 65535 in if negb (Z.land e 32768 =? 0) then to_int (Z.lor e 4294901760) else e) = I.immed v.
Proof.
  cbv zeta. unfold I.immed. rewrite <-Z.land_assoc. change (Z.land 65535 32768) with 32768.
  assert (Z.land v 65535 = v mod 65536) as E1 by (change 65535 with (Z.ones 16); by rewrite Z.land_ones by lia).
  assert (Z.land v 32767 = v mod 32768) as E2 by (change 32767 with (Z.ones 15); by rewrite Z.land_ones by lia).
  assert (Z.land v 32768 = v / 32768 mod 2 * 32768) as E3 by (change 32768 with (2 ^ 15); by rewrite land_bit).
  rewrite E1, E2, E3. destruct (Z.eqb_spec (v / 32768 mod 2 * 32768) 0) as [H0|H0]; cbn [negb]; [lia_mod|].
  assert (Z.lor v (-32768) = -1 - (-1 - v) mod 32768) as ->.
  { rewrite <-(Z.lnot_involutive (Z.lor v (-32768))), Z.lnot_lor. change (Z.lnot (-32768)) with (Z.ones 15).
    rewrite Z.land_ones by lia. unfold Z.lnot. replace (Z.pred (- v)) with (-1 - v) by lia.
    change (2 ^ 15) with 32768. lia. }
  rewrite lor_high.
  unfold to_int, two31, two32. lia_mod.
Qed.
(** The fields that both simulators take from an instruction. *)
Lemma decode_fields v i :
  Decode (to_uint v) = Ok i -> rs i = I.rs v /\ rt i = I.rt v /\ rd_ i = I.rd v.
Proof.
  unfold Decode. intros H. unfold I.rs, I.rt, I.rd.
  assert (forall k, 0 <= k -> k + 5 <= 32 -> Z.land (Z.shiftr (to_uint v) k) 31 = Z.land (Z.shiftr v k) 31) as Hf
    by (intros k H0 H1; by apply (field_uint v k 5)).
  rewrite !Hf in H by lia.
  destruct (Prelude.rd opTable _) as [[op fmt]| | | |]; try done. cbn [mbind res_bind] in H.
  destruct (op =? SPECIAL); [|by destruct (op =? BCOND); injection H as <-].
  destruct (Prelude.rd specialTable _); try done. cbn [mbind res_bind] in H. by injection H as <-.
Qed.
(** In a table that has [x] only at place [k], an index that yields [x] is [k]. *)
Lemma table_index {A} `{EqDecision A} (l : list A) (x : A) (k c : Z) :
  forallb (fun j => implb (bool_decide (zget l j = Some x)) (j =? k)) (seqZ 0 (zlen l)) = true ->
  zget l c = Some x -> c = k.
Proof.
  intros Hall Hc. rewrite forallb_forall in Hall. pose proof (zget_Some_range _ _ _ Hc) as Hr.
  specialize (Hall c). rewrite (bool_decide_true _ Hc) in Hall. cbn [implb] in Hall.
  apply Z.eqb_eq, Hall, list_elem_of_In, elem_of_seqZ. lia.
Qed.
#[local] Instance format_eq_dec : EqDecision Format.
Proof. solve_decision. Defined.
(** An R-format instruction. *)
Lemma decode_special v i c :
  Decode (to_uint v) = Ok i ->
  forallb (fun j => implb (bool_decide (zget specialTable j = Some (opCode i))) (j =? c)) (seqZ 0 (zlen specialTable)) = true ->
  forallb (fun x => negb (x.1 =? opCode i)) opTable = true -> opCode i <> OP_UNIMP ->
  (forall w, decode_bcond w <> opCode i) ->
  Z.land (Z.shiftr v 26) 63 = 0 /\ Z.land v 63 = c /\ extra i = I.shamt v.
Proof.
  intros H Hc Hno Hu Hbc. unfold Decode in H.
  change 63 with (Z.ones 6) in *. rewrite field_uint, land_uint in H by lia.
  change 31 with (Z.ones 5) in *. rewrite !field_uint in H by lia.
  destruct (Prelude.rd opTable (Z.land (Z.shiftr v 26) (Z.ones 6))) as [[op fmt]| | | |] eqn:E; try done.
  cbn [mbind res_bind] in H. apply rd_Ok in E.
  destruct (Z.eqb_spec op SPECIAL) as [->|N1].
  - assert (fmt = RFMT) as ->.
    { assert (Forall (fun x => x.1 = SPECIAL -> x.2 = RFMT) opTable) as Hall
        by (unfold opTable; repeat (constructor; [simpl; done|]); constructor).
      by apply (Forall_zget _ _ _ _ Hall E). }
    destruct (Prelude.rd specialTable _) as [op'| | | |] eqn:E'; try done. cbn [mbind res_bind] in H.
    injection H as <-. apply rd_Ok in E'. cbn [opCode] in Hc. split_and!; [|by apply (table_index _ _ _ _ Hc)|done].
    apply (table_index opTable (SPECIAL, RFMT) 0); [vm_compute; reflexivity|done].
  - destruct (op =? BCOND); injection H as <-; cbn [opCode] in *; [by destruct (Hbc (to_uint v))|].
    exfalso. rewrite forallb_forall in Hno.
    assert (In (op, fmt) opTable) as Hin by (apply list_elem_of_In, elem_of_zget; by eexists).
    specialize (Hno _ Hin). cbn in Hno. by rewrite Z.eqb_refl in Hno.
Qed.
(** An I-format instruction. *)
Lemma decode_immediate v i c :
  Decode (to_uint v) = Ok i ->
  forallb (fun j => implb (bool_decide (zget opTable j = Some (opCode i, IFMT))) (j =? c)) (seqZ 0 (zlen opTable)) = true ->
  forallb (fun x => negb (x =? opCode i)) specialTable = true -> opCode i <> OP_UNIMP -> opCode i <> OP_J -> opCode i <> OP_JAL ->
  (forall w, decode_bcond w <> opCode i) ->
  Z.land (Z.shiftr v 26) 63 = c /\ extra i = I.immed v.
Proof.
  intros H Hc Hno Hu Hj1 Hj2 Hbc. unfold Decode in H. rewrite <-(immed_extra v).
  change 63 with (Z.ones 6) in *. rewrite field_uint, land_uint in H by lia.
  change 65535 with (Z.ones 16) in *. rewrite land_uint in H by lia.
  destruct (Prelude.rd opTable (Z.land (Z.shiftr v 26) (Z.ones 6))) as [[op fmt]| | | |] eqn:E; try done.
  cbn [mbind res_bind] in H. apply rd_Ok in E.
  destruct (Z.eqb_spec op SPECIAL) as [->|N1].
  - destruct (Prelude.rd specialTable _) as [op'| | | |] eqn:E'; try done. cbn [mbind res_bind] in H.
    injection H as <-. apply rd_Ok in E'. cbn [opCode] in *. exfalso. rewrite forallb_forall in Hno.
    assert (In op' specialTable) as Hin by (apply list_elem_of_In, elem_of_zget; by eexists).
    specialize (Hno _ Hin). by rewrite Z.eqb_refl in Hno.
  - destruct (op =? BCOND) eqn:Eb; injection H as <-; cbn [opCode extra] in *; [by destruct (Hbc (to_uint v))|].
    assert (fmt = IFMT) as ->.
    { assert (Forall (fun x => x.2 = IFMT \/ x.1 = SPECIAL \/ x.1 = OP_J \/ x.1 = OP_JAL) opTable) as Hall
        by (unfold opTable; repeat (constructor; [simpl; auto|]); constructor).
      destruct (Forall_zget _ _ _ _ Hall E) as [?|[E1|[?|?]]]; done. }
    split; [|done]. by apply (table_index _ _ _ _ Hc).
Qed.

Section effects.
Context (unix : Z -> Z -> Z -> Z -> gmap Z Z -> Z * gmap Z Z).

Lemma R_at h k v : zget (Reg h) k = Some v -> R k h = Ok (v, h).
Proof. intros H. unfold R. by rewrite (proj2 (rd_Ok _ _ _) H). Qed.
Lemma setR_at h k v : 0 <= k < zlen (Reg h) -> setR k v h = Ok (tt, set_Reg h (zset (Reg h) k v)).
Proof. intros H. unfold setR. by rewrite wr_Ok. Qed.
Lemma bcond_op w x : x ∉ [OP_BLTZ; OP_BGEZ; OP_BLTZAL; OP_BGEZAL; OP_UNIMP] -> decode_bcond w <> x.
Proof.
  unfold decode_bcond. generalize (Z.land w 2031616). intros z Hx E. apply Hx. rewrite <-E.
  destruct (z =? 0), (z =? 65536), (z =? 1048576), (z =? 1114112); set_solver.
Qed.

Lemma shift_count_ok h a : 0 <= a < 32 -> shift_count a h = Ok (tt, h).
Proof. intros H. unfold shift_count. by rewrite (proj2 (Z.leb_le _ _)), (proj2 (Z.ltb_lt _ _)) by lia. Qed.
Lemma immed_mod v : I.immed v mod 65536 = v mod 65536 /\ -32768 <= I.immed v < 32768.
Proof.
  rewrite <-(immed_extra v). cbv zeta. rewrite <-Z.land_assoc. change (Z.land 65535 32768) with 32768.
  assert (Z.land v 65535 = v mod 65536) as -> by (change 65535 with (Z.ones 16); by rewrite Z.land_ones by lia).
  assert (Z.land v 32768 = v / 32768 mod 2 * 32768) as -> by (change 32768 with (2 ^ 15); by rewrite land_bit).
  destruct (Z.eqb_spec (v / 32768 mod 2 * 32768) 0) as [H0|H0]; cbn [negb]; [lia_mod|].
  rewrite lor_high. unfold to_int, two31, two32. lia_mod.
Qed.
(** Finds the case of the instruction in the host interpreter. *)
Ltac special_case Hd Eop c :=
  let E0 := fresh in let E1 := fresh in let Ex := fresh in
  destruct (decode_special _ _ c Hd) as (E0 & E1 & Ex);
    [rewrite <-Eop; vm_compute; reflexivity|rewrite <-Eop; vm_compute; reflexivity|by rewrite <-Eop|
     intros ?; rewrite <-Eop; apply bcond_op; set_solver|];
  rewrite E0; unfold special; rewrite E1, ?Ex.
Ltac immediate_case Hd Eop c :=
  let E0 := fresh in let Ex := fresh in
  destruct (decode_immediate _ _ c Hd) as (E0 & Ex);
    [rewrite <-Eop; vm_compute; reflexivity|rewrite <-Eop; vm_compute; reflexivity|by rewrite <-Eop|by rewrite <-Eop|by rewrite <-Eop|
     intros ?; rewrite <-Eop; apply bcond_op; set_solver|];
  rewrite E0, ?Ex in *.

(** The instructions whose value depends on [rs], [rt] and the shift amount. *)
Lemma host_alu_rd v i f xpc h a b :
  Decode (to_uint v) = Ok i -> In (opCode i, f) isa_rd -> zlen (Reg h) = 32 -> 0 <= rd_ i < 32 ->
  zget (Reg h) (rs i) = Some a -> zget (Reg h) (rt i) = Some b ->
  (opCode i = OP_SLLV \/ opCode i = OP_SRAV -> 0 <= a < 32) ->
  execute unix v xpc h = Ok (tt, set_Reg h (zset (Reg h) (rd_ i) (f a b (extra i)))).
Proof.
  intros Hd Hin Hl Hrd Ha Hb Hs. destruct (decode_fields v i Hd) as (Ers & Ert & Erd). rewrite Ers in Ha. rewrite Ert in Hb.
  apply R_at in Ha, Hb. pose proof (fun w => setR_at h (rd_ i) w ltac:(lia)) as Hw. rewrite Erd in Hw |- *.
  assert (0 <= I.shamt v < 32) as Hsh by (apply (land_mask_bound _ 5); lia).
  unfold execute.
  simpl in Hin. destruct_or! Hin; try done; injection Hin as Eop <-.
  - special_case Hd Eop 33. unfold alu. by rewrite (st_bind_Ok _ _ _ _ _ Ha), (st_bind_Ok _ _ _ _ _ Hb), Hw.
  - special_case Hd Eop 35. unfold alu. by rewrite (st_bind_Ok _ _ _ _ _ Ha), (st_bind_Ok _ _ _ _ _ Hb), Hw.
  - special_case Hd Eop 36. unfold alu. by rewrite (st_bind_Ok _ _ _ _ _ Ha), (st_bind_Ok _ _ _ _ _ Hb), Hw.
  - special_case Hd Eop 39. unfold alu. rewrite (st_bind_Ok _ _ _ _ _ Ha), (st_bind_Ok _ _ _ _ _ Hb), Hw.
    unfold Z.lnot. do 4 f_equal. lia.
  - special_case Hd Eop 38. unfold alu. by rewrite (st_bind_Ok _ _ _ _ _ Ha), (st_bind_Ok _ _ _ _ _ Hb), Hw.
  - special_case Hd Eop 42. unfold alu. by rewrite (st_bind_Ok _ _ _ _ _ Ha), (st_bind_Ok _ _ _ _ _ Hb), Hw.
  - special_case Hd Eop 43. unfold alu. by rewrite (st_bind_Ok _ _ _ _ _ Ha), (st_bind_Ok _ _ _ _ _ Hb), Hw.
  - special_case Hd Eop 0. rewrite (st_bind_Ok _ _ _ _ _ Hb), Hw. unfold shl. by rewrite Z.shiftl_mul_pow2 by lia.
  - special_case Hd Eop 4. specialize (Hs ltac:(rewrite <-Eop; auto)).
    rewrite (st_bind_Ok _ _ _ _ _ Hb), (st_bind_Ok _ _ _ _ _ Ha), (st_bind_Ok _ _ _ _ _ (shift_count_ok h a Hs)), Hw.
    unfold shl. by rewrite Z.shiftl_mul_pow2, (Z.mod_small a 32) by lia.
  - special_case Hd Eop 3. rewrite (st_bind_Ok _ _ _ _ _ Hb), Hw. by rewrite Z.shiftr_div_pow2 by lia.
  - special_case Hd Eop 7. specialize (Hs ltac:(rewrite <-Eop; auto)).
    rewrite (st_bind_Ok _ _ _ _ _ Hb), (st_bind_Ok _ _ _ _ _ Ha), (st_bind_Ok _ _ _ _ _ (shift_count_ok h a Hs)), Hw.
    by rewrite Z.shiftr_div_pow2, (Z.mod_small a 32) by lia.
Qed.
(** The instructions with an immediate operand; the host interpreter extends the
    sign of the operand of ANDI, ORI and XORI as well. *)
Lemma host_alu_rt v i f xpc h a :
  Decode (to_uint v) = Ok i -> In (opCode i, f) isa_rt -> zlen (Reg h) = 32 -> 0 <= rt i < 32 ->
  zget (Reg h) (rs i) = Some a ->
  (opCode i = OP_ANDI \/ opCode i = OP_ORI \/ opCode i = OP_XORI -> 0 <= extra i) ->
  execute unix v xpc h = Ok (tt, set_Reg h (zset (Reg h) (rt i) (f a (extra i)))).
Proof.
  intros Hd Hin Hl Hrt Ha Hs. destruct (decode_fields v i Hd) as (Ers & Ert & _). rewrite Ers in Ha.
  apply R_at in Ha. pose proof (fun w => setR_at h (rt i) w ltac:(lia)) as Hw. rewrite Ert in Hw |- *.
  pose proof (immed_mod v) as [Him Hir]. unfold execute.
  simpl in Hin. destruct_or! Hin; try done; injection Hin as Eop <-.
  - immediate_case Hd Eop 9. unfold alu_i. by rewrite (st_bind_Ok _ _ _ _ _ Ha), Hw.
  - immediate_case Hd Eop 12. specialize (Hs ltac:(rewrite <-Eop; auto)).
    unfold alu_i. rewrite (st_bind_Ok _ _ _ _ _ Ha), Hw. by rewrite (Z.mod_small (I.immed v)) by lia.
  - immediate_case Hd Eop 13. specialize (Hs ltac:(rewrite <-Eop; auto)).
    unfold alu_i. rewrite (st_bind_Ok _ _ _ _ _ Ha), Hw. by rewrite (Z.mod_small (I.immed v)) by lia.
  - immediate_case Hd Eop 14. specialize (Hs ltac:(rewrite <-Eop; auto)).
    unfold alu_i. rewrite (st_bind_Ok _ _ _ _ _ Ha), Hw. by rewrite (Z.mod_small (I.immed v)) by lia.
  - immediate_case Hd Eop 10. unfold alu_i. by rewrite (st_bind_Ok _ _ _ _ _ Ha), Hw.
  - immediate_case Hd Eop 11. unfold alu_i. by rewrite (st_bind_Ok _ _ _ _ _ Ha), Hw.
  - immediate_case Hd Eop 15. rewrite Hw. unfold shl. rewrite Z.shiftl_mul_pow2 by lia. change (2 ^ 16) with 65536.
    do 4 f_equal. unfold to_int, two31, two32. lia_mod.
Qed.
End effects.

(** The instructions on which the two simulators compute the same: the eighteen
    of the class [isa_rd] and [isa_rt], SLLV and SRAV with a count below 32, the
    logical immediates with a non-negative operand. *)
Definition same_value (m : Machine) (i : Instruction) : Prop :=
  (exists f, In (opCode i, f) isa_rd /\ (opCode i = OP_SLLV \/ opCode i = OP_SRAV -> 0 <= reg_of m (rs i) < 32)) \/
  (exists f, In (opCode i, f) isa_rt /\ (opCode i = OP_ANDI \/ opCode i = OP_ORI \/ opCode i = OP_XORI -> 0 <= extra i)).

Lemma ifetch_mem h h' a v : mem h' = mem h -> ifetch a h = Ok (v, h) -> ifetch a h' = Ok (v, h').
Proof.
  intros E H. unfold ifetch, fetch, load_mem, mbind, st_bind in *. rewrite E. destruct (in_mem a (Z.of_nat 4)); [|done].
  change (Ok (to_int (le_value (get_bytes (mem h) a 4)), h) = Ok (v, h)) in H.
  change (Ok (to_int (le_value (get_bytes (mem h) a 4)), h') = Ok (v, h')).
  generalize dependent (to_int (le_value (get_bytes (mem h) a 4))). intros z Hz. by injection Hz as ->.
Qed.
(** One round of the host interpreter on such an instruction. *)
Lemma host_step_alu unix off m h raw i :
  machine_ok m -> agree off m h -> instr_ok i -> ifetch (pc h) h = Ok (to_int raw, h) -> Decode (to_uint raw) = Ok i ->
  same_value m i ->
  exists d v h', step unix h = Ok (tt, h') /\
    ((exists f, In (opCode i, f) isa_rd /\ d = rd_ i /\ v = f (reg_of m (rs i)) (reg_of m (rt i)) (extra i)) \/
     (exists f, In (opCode i, f) isa_rt /\ d = rt i /\ v = f (reg_of m (rs i)) (extra i))) /\
    0 <= d < 32 /\ zlen (Reg h') = 32 /\ (forall k, 1 <= k < 32 -> zget (Reg h') k = Some (if k =? d then v else reg_of m k)) /\
    HI h' = HI h /\ LO h' = LO h /\ mem h' = mem h /\ pc h' = npc h /\ npc h' = to_int (npc h + 4).
Proof.
  intros Hm [Hl Hr _ _ _ _ _] [_ Hrs Hrt Hrd _ _] Hf Hd Hsame.
  set (h1 := set_pcs h (npc h) (to_int (npc h + 4))).
  assert (ifetch (pc h) h1 = Ok (to_int raw, h1)) as Hf1.
  { by apply (ifetch_mem h). }
  set (h2 := set_Reg h1 (zset (Reg h) 0 0)).
  assert (setR 0 0 h1 = Ok (tt, h2)) as Hz by (apply setR_at; cbn [Reg h1 set_pcs]; lia).
  assert (forall k, 0 <= k < 32 -> zget (Reg h2) k = Some (reg_of m k)) as Hk.
  { intros k Hk. cbn [Reg h2 set_Reg]. rewrite zget_zset. case_decide as E.
    - destruct E as [<- _]. unfold reg_of. by rewrite (mo_zero _ Hm).
    - apply Hr. lia. }
  assert (zlen (Reg h2) = 32) as Hl2 by (cbn [Reg h2 set_Reg]; by rewrite zlen_zset).
  rewrite <-(to_uint_to_int raw) in Hd.
  assert (exists d v h', (if negb (to_int raw =? 0) then execute unix (to_int raw) (pc h) else mret tt) h2 = Ok (tt, h') /\
    ((exists f, In (opCode i, f) isa_rd /\ d = rd_ i /\ v = f (reg_of m (rs i)) (reg_of m (rt i)) (extra i)) \/
     (exists f, In (opCode i, f) isa_rt /\ d = rt i /\ v = f (reg_of m (rs i)) (extra i))) /\ 0 <= d < 32 /\
    (h' = set_Reg h2 (zset (Reg h2) d v) \/ d = 0 /\ h' = h2)) as (d & v & h' & Hx & Hv & Hdr & Hh').
  { destruct (Z.eqb_spec (to_int raw) 0) as [E|E]; cbn [negb].
    - rewrite E in Hd. injection Hd as <-. exists 0, (to_int (0 * 2 ^ 0)), h2. split; [done|]. split; [|split; [lia|auto]].
      left. eexists. split; [do 7 right; left; reflexivity|]. split; [done|].
      change (to_int (0 * 2 ^ 0) = to_int (reg_of m 0 * 2 ^ 0)). unfold reg_of. by rewrite (mo_zero _ Hm).
    - destruct Hsame as [(f & Hin & Hs)|(f & Hin & Hs)].
      + eexists (rd_ i), _, _. split; [by apply (host_alu_rd unix _ i f _ h2 (reg_of m (rs i)) (reg_of m (rt i)) Hd Hin); auto|].
        split; [left; by eexists|]. auto.
      + eexists (rt i), _, _. split; [by apply (host_alu_rt unix _ i f _ h2 (reg_of m (rs i)) Hd Hin); auto|].
        split; [right; by eexists|]. auto. }
  exists d, v, h'. split.
  { unfold step. rewrite (st_bind_Ok _ _ _ (pc h) h) by done.
    rewrite (st_bind_Ok _ _ _ tt h1) by done.
    rewrite (st_bind_Ok _ _ _ _ _ Hf1), (st_bind_Ok _ _ _ _ _ Hz). exact Hx. }
  split; [done|]. split; [done|]. destruct Hh' as [->|[-> ->]].
  - cbn [Reg HI LO mem pc npc set_Reg]. rewrite zlen_zset. split_and!; try done. intros k Hk1.
    rewrite zget_zset. destruct (Z.eqb_spec k d); [by rewrite decide_True by lia|]. rewrite decide_False by lia. apply Hk. lia.
  - split_and!; try done. intros k Hk1. destruct (Z.eqb_spec k 0); [lia|]. apply Hk. lia.
Qed.

(** ** Properties *)

(** C31. The two simulators agree.  When the kernel's machine and the host
    interpreter have the same registers, program counters a fixed distance
    apart, no load is pending and both find the same word at the program counter, and the word
    is one of the eighteen instructions that compute a register without a trap
    (with a shift count below 32 and a non-negative logical immediate), then
    both execute it, and registers, HI, LO and program counters are the same
    again; neither changes its memory. *)
Theorem simulators_agree {K} (ExceptionHandler : ExceptionType -> st (sim (cpu K)) unit)
    (unix : Z -> Z -> Z -> Z -> gmap Z Z -> Z * gmap Z Z) (s : sim (cpu K)) (h : host) (off raw : Z) (i : Instruction) :
  let m := mach (world s) in
  machine_ok m -> agree off m h -> raw_at m = Some raw -> ifetch (pc h) h = Ok (to_int raw, h) ->
  Decode (to_uint raw) = Ok i -> same_value m i ->
  exists m' h', OneInstruction ExceptionHandler s = Ok (tt, with_mach s m') /\ step unix h = Ok (tt, h') /\
    agree off m' h' /\ mainMemory m' = mainMemory m /\ mem h' = mem h.
Proof.
  intros m Hm Hag Hraw Hf Hd Hsame.
  assert (MipsSim.fetch m = Some i) as Hfm.
  { revert Hraw. unfold raw_at, MipsSim.fetch. destruct (phys m (reg_of m PCReg) 4 false) as [|pa]; [done|].
    destruct (Machine.load (mainMemory m) pa 4); try done. intros [= ->]. by rewrite Hd. }
  pose proof (fetch_ok s i Hm Hfm) as Hi.
  destruct (host_step_alu unix off m h raw i Hm Hag Hi Hf Hd Hsame)
    as (d & v & h' & Hst & Hv & Hdr & Hl' & Hk' & Hhi & Hlo & Hmem & Hpc & Hnpc).
  destruct (alu_completes ExceptionHandler s i d v Hm Hfm Hv) as (m' & Ho & Hc & Hmm).
  exists m', h'. split; [done|]. split; [done|]. split; [|done]. destruct Hag as [_ _ Ahi Alo Apc Anpc Ald]. destruct Hc.
  split; [done|..].
  - intros k Hk. rewrite Hk' by done. rewrite cp_regs by (unfold NumGPRegs; lia). unfold after_write. fold m. rewrite Ald.
    destruct (Z.eqb_spec k 0); [lia|]. done.
  - rewrite cp_hilo by auto. destruct (Z.eqb_spec HiReg d) as [E|]; [unfold HiReg in E; lia|]. by rewrite Hhi.
  - rewrite cp_hilo by auto. destruct (Z.eqb_spec LoReg d) as [E|]; [unfold LoReg in E; lia|]. by rewrite Hlo.
  - by rewrite cp_pc, Hpc.
  - rewrite cp_next, Hnpc, Anpc. fold m. unfold to_int, two31, two32. lia_mod.
  - done.
Qed.

Lemma code_raw raw r : zget r PCReg = Some 0 -> raw_at (code_machine raw r) = Some (to_int raw).
Proof.
  intros Hpc. assert (reg_of (code_machine raw r) PCReg = 0) as Hreg
    by (unfold reg_of; change (registers (code_machine raw r)) with r; by rewrite Hpc).
  unfold raw_at. rewrite Hreg. change (phys _ 0 4 false) with (inr 3584 : ExceptionType + Z). cbv beta iota.
  change (mainMemory (code_machine raw r)) with (splice 3584 (image 4 raw) (mainMemory sample_machine)).
  rewrite load_store; [done|unfold size_ok; lia|lia|].
  pose proof sample_machine_ok as [_ _ Hml _ _]. rewrite Hml. done.
Qed.
(** SUBU r3,r1,r2 at address 0 of the machine and at [memoffset] of the host. *)
Definition sample_host : host :=
  mkHost (take 32 (two_regs 5 7)) 0 0 (put_bytes ∅ 0 (le32 2234403)) memoffset memoffset.
Lemma simulators_agree_witness : exists m' h',
  OneInstruction (fun _ => no_op) (code_sim 2234403 (two_regs 5 7)) = Ok (tt, with_mach (code_sim 2234403 (two_regs 5 7)) m') /\
  step (fun _ _ _ _ m => (0, m)) sample_host = Ok (tt, h') /\ agree memoffset m' h'.
Proof.
  destruct (two_regs_ok 5 7) as [Hr Hz]; [unfold_int; lia|unfold_int; lia|].
  destruct (simulators_agree (fun _ => no_op) (fun _ _ _ _ m => (0, m)) (code_sim 2234403 (two_regs 5 7)) sample_host
    memoffset 2234403 (mkInstruction OP_SUBU 1 2 3 0)) as (m' & h' & H1 & H2 & H3 & _).
  - exact (code_sim_ok 2234403 (two_regs 5 7) Hr Hz).
  - split; try reflexivity. intros k Hk. change (reg_of (mach (world (code_sim 2234403 (two_regs 5 7)))) k) with
      (default 0 (zget (two_regs 5 7) k)).
    assert (forallb (fun k => bool_decide (zget (take 32 (two_regs 5 7)) k = Some (default 0 (zget (two_regs 5 7) k)))) (seqZ 0 32) = true)
      as Hall by reflexivity.
    rewrite forallb_forall in Hall. apply (bool_decide_eq_true_1 _), Hall, list_elem_of_In, elem_of_seqZ. lia.
  - exact (code_raw 2234403 (two_regs 5 7) eq_refl).
  - reflexivity.
  - reflexivity.
  - left. eexists. split; [right; left; reflexivity|]. intros [H|H]; discriminate H.
  - exists m', h'. exact (conj H1 (conj H2 H3)).
Defined.

(** Where the host interpreter computes something else: the carry from the low
    halves is missing in the high word of a product; ANDI extends the sign of
    its operand; the mask of LWL keeps all old bits. *)
Lemma host_mult_carry_lost :
  mult 131071 131071 = (1, -262143) /\ Mult 131071 131071 true = (3, -262143).
Proof. split; vm_compute; reflexivity. Qed.
Lemma host_andi_extends : execute (fun _ _ _ _ m => (0, m)) 807632896 0
    (mkHost (zset (replicate 32 0) 1 (-1)) 0 0 ∅ 0 0) =
  Ok (tt, mkHost (zset (zset (replicate 32 0) 1 (-1)) 3 (-32768)) 0 0 ∅ 0 0).
Proof. reflexivity. Qed.
Lemma host_lwl_mask (n : Z) : 0 <= n -> Z.shiftr (-1) n = -1.
Proof. intros Hn. change (-1) with (Z.lnot 0). rewrite <-Z.lnot_shiftr by done. by rewrite Z.shiftr_0_l. Qed.
