(* ===== verification/PingPong.v ===== *)
(** * test/PingPong.c, test/Ping.c, test/Pong.c: two processes and two semaphores

    [PingPong] creates the semaphores First (1) and Second (0) and starts Ping
    and Pong, which print A and B in turn.  The programs run on the kernel of
    Threads and the table of SemTable: a call of [Down] or [Up] is the routine
    of the table, and [PrintString] is [SynchConsole::Write] with its two
    semaphores, each executed by the thread of the process when it has the CPU.
    Between two calls of the kernel anything may happen: time slices,
    dispatching, the interrupt of the console, and whatever other threads and
    interrupts do to other semaphores.  Behind [return 0] a process calls Exit
    (test/start.s) and, when Exit comes back, runs into Halt.

    No other program uses the console or the names First and Second meanwhile;
    PingPong itself prints its line only after both processes have exited. *)

From S2P Require Import Prelude UserProgs BitMap Interrupt Threads SemTable.
From stdpp Require Import gmap list strings.
#[local] Open Scope Z_scope.

(** ** The programs *)

(** What differs between Ping.c and Pong.c. *)
Record program := mkProgram { down_name : list Z; letter : Z; up_name : list Z }.
Definition Ping : program := mkProgram (txt "First") 65 (txt "Second").
Definition Pong : program := mkProgram (txt "Second") 66 (txt "First").

(** Where a process is: at the test of [for]; before or in the wait of [Down];
    in [Write] of the console before or in the wait for the line, before
    [PutChar], before or in the wait for the end of the output, before it frees
    the line; before [Up]; in the call of Exit behind [return 0]; behind it. *)
Inductive place :=
| AtFor | AtDown | InDown
| AtLine | InLine | AtPut | AtWait | InWait | AtFree
| AtUp | InExit | AtHalt.
#[export] Instance place_eq_dec : EqDecision place.
Proof. solve_decision. Defined.

Record process := mkProcess { tid : Z; i : Z; at_ : place }.
Definition goto (pr : process) (p : place) : process := mkProcess (tid pr) (i pr) p.

(** [P] of semaphore [s], by the process: it waits at [inn], or goes on to [out]. *)
Definition wait_in (k : kernel STable) (pr : process) (s : Z) (inn out : place) : res (kernel STable * process) :=
  k' ← P k (tid pr) s; Ok (k', goto pr (if switching k' then inn else out)).
(** A process that has waited tries again. *)
Definition wait_again (k : kernel STable) (pr : process) (inn out : place) : res (kernel STable * process) :=
  th ← thread_at k (tid pr);
  match where_ th with InP s => wait_in k pr s inn out | _ => UB end.

(** The next action of the process, which has the CPU; [w] and [a] are
    [WLineBlock] and [synchWriteAvail], [screen] is what has been printed and
    [putBusy] the flag of the console. *)
Definition advance (pg : program) (w a : Z) (k : kernel STable) (pr : process) (screen : list Z) (putBusy : bool)
  : res (kernel STable * process * list Z * bool) :=
  match at_ pr with
  | AtFor => Ok (k, goto pr (if i pr <? 1000 then AtDown else InExit), screen, putBusy)
  | AtDown =>
      '(_, k') ← Wait k (tid pr) (down_name pg);
      Ok (k', goto pr (if switching k' then InDown else AtLine), screen, putBusy)
  | InDown => '(k', pr') ← wait_again k pr InDown AtLine; Ok (k', pr', screen, putBusy)
  | AtLine => '(k', pr') ← wait_in k pr w InLine AtPut; Ok (k', pr', screen, putBusy)
  | InLine => '(k', pr') ← wait_again k pr InLine AtPut; Ok (k', pr', screen, putBusy)
  | AtPut => ASSERT (negb putBusy); Ok (k, goto pr AtWait, screen ++ [letter pg], true)
  | AtWait => '(k', pr') ← wait_in k pr a InWait AtFree; Ok (k', pr', screen, putBusy)
  | InWait => '(k', pr') ← wait_again k pr InWait AtFree; Ok (k', pr', screen, putBusy)
  | AtFree => k' ← V k w; Ok (k', goto pr AtUp, screen, putBusy)
  | AtUp =>
      '(_, k') ← Signal k (up_name pg);
      Ok (k', mkProcess (tid pr) (i pr + 1) AtFor, screen, putBusy)
  | InExit => Ok (k, goto pr AtHalt, screen, putBusy)
  | AtHalt => Halted
  end.

(** [Exec] as far as the kernel sees it: a new thread, forked. *)
Definition exec_thread (k : kernel STable) (t : Z) : res (kernel STable) :=
  Fork (set_threads k (<[t := new_Thread t]> (threads k))) t.

(** The beginning of PingPong.c, up to the calls of [Join]: [None] when a
    semaphore cannot be created and the program halts.  [s1], [s2], [t1], [t2]
    are the new objects. *)
Definition PingPong (k : kernel STable) (s1 s2 t1 t2 : Z) : res (option (kernel STable)) :=
  '(r1, k) ← Create k (txt "First") 1 s1;
  if r1 =? -1 then Ok None
  else
    '(r2, k) ← Create k (txt "Second") 0 s2;
    if r2 =? -1 then Ok None
    else
      k ← exec_thread k t1;
      k ← exec_thread k t2;
      Ok (Some k).

(** ** Everything that can happen *)

Record config := mkConfig {
  kern : kernel STable; ping : process; pong : process; screen : list Z; putBusy : bool; halted : bool
}.
Definition with_kern (c : config) (k : kernel STable) : config := mkConfig k (ping c) (pong c) (screen c) (putBusy c) (halted c).
Definition halt (c : config) : config := mkConfig (kern c) (ping c) (pong c) (screen c) (putBusy c) true.
Definition started (k : kernel STable) (t1 t2 : Z) : config :=
  mkConfig k (mkProcess t1 0 AtFor) (mkProcess t2 0 AtFor) [] false false.

(** The running thread is another one, or a process in the routines of Exit. *)
Definition bystander (c : config) : Prop :=
  let t := currentThread (kern c) in
  (t = tid (ping c) -> at_ (ping c) = InExit) /\ (t = tid (pong c) -> at_ (pong c) = InExit).

Section steps.
Context (s1 s2 w a : Z).
(** The semaphores of the two programs and of the console's output. *)
Definition ours (x : Z) : Prop := x = s1 \/ x = s2 \/ x = w \/ x = a.

Inductive pp_step : config -> config -> Prop :=
| ping_runs c k pr scr b :
    switching (kern c) = false -> currentThread (kern c) = tid (ping c) ->
    advance Ping w a (kern c) (ping c) (screen c) (putBusy c) = Ok (k, pr, scr, b) ->
    pp_step c (mkConfig k pr (pong c) scr b false)
| pong_runs c k pr scr b :
    switching (kern c) = false -> currentThread (kern c) = tid (pong c) ->
    advance Pong w a (kern c) (pong c) (screen c) (putBusy c) = Ok (k, pr, scr, b) ->
    pp_step c (mkConfig k (ping c) pr scr b false)
| ping_halts c :
    switching (kern c) = false -> currentThread (kern c) = tid (ping c) ->
    advance Ping w a (kern c) (ping c) (screen c) (putBusy c) = Halted -> pp_step c (halt c)
| pong_halts c :
    switching (kern c) = false -> currentThread (kern c) = tid (pong c) ->
    advance Pong w a (kern c) (pong c) (screen c) (putBusy c) = Halted -> pp_step c (halt c)
| write_done c k :
    putBusy c = true -> V (kern c) a = Ok k -> pp_step c (mkConfig k (ping c) (pong c) (screen c) false (halted c))
| time_slice c k th :
    switching (kern c) = false -> threads (kern c) !! currentThread (kern c) = Some th -> where_ th = Normal ->
    Yield keep_user keep_user (kern c) (currentThread (kern c)) = Ok k -> pp_step c (with_kern c k)
| dispatch c k :
    switching (kern c) = true -> sleep_loop keep_user keep_user (kern c) = Ok (Some k) -> pp_step c (with_kern c k)
| other_P c k s th :
    switching (kern c) = false -> bystander c -> ~ ours s ->
    threads (kern c) !! currentThread (kern c) = Some th -> where_ th = Normal \/ where_ th = InP s ->
    P (kern c) (currentThread (kern c)) s = Ok k -> pp_step c (with_kern c k)
| any_V c k s : ~ ours s -> V (kern c) s = Ok k -> pp_step c (with_kern c k)
| other_Finish c k th :
    switching (kern c) = false -> bystander c ->
    threads (kern c) !! currentThread (kern c) = Some th -> where_ th = Normal ->
    Finish (kern c) (currentThread (kern c)) = Ok k -> pp_step c (with_kern c k)
| other_halts c : switching (kern c) = false -> bystander c -> pp_step c (halt c).

(** Nothing happens any more when the machine has halted. *)
Inductive pp_reachable (c0 : config) : config -> Prop :=
| pp_refl : pp_reachable c0 c0
| pp_more c c' : pp_reachable c0 c -> halted c = false -> pp_step c c' -> pp_reachable c0 c'.
End steps.

(** All threads but [x] keep their places. *)
Record others_move (x : Z) (k k' : kernel STable) : Prop := {
  om_ext : ext k' = ext k;
  om_fwd t th : t <> x -> threads k !! t = Some th -> where_ th <> Dead ->
    exists th', threads k' !! t = Some th' /\ after (where_ th) (where_ th');
  om_bwd t th' : t <> x -> threads k' !! t = Some th' ->
    exists th, threads k !! t = Some th /\ after (where_ th) (where_ th')
}.
Lemma moves_others x k k' : moves k k' -> others_move x k k'.
Proof. intros [He Hf Hb]. split; eauto. Qed.
Lemma insert_others x k k' th : ext k' = ext k -> threads k' = <[x := th]> (threads k) -> others_move x k k'.
Proof.
  intros He Ht. split; [done|rewrite Ht..]; intros t th' Hne; rewrite lookup_insert_ne by done; unfold after; eauto.
Qed.

(** ** What a process holds at its place *)

(** The unit of its [Down] that it has not given on. *)
Definition token (p : place) : Z :=
  match p with AtLine | InLine | AtPut | AtWait | InWait | AtFree | AtUp => 1 | _ => 0 end.
(** The line of the console; a character that is being written; a letter printed
    in this round. *)
Definition inside (p : place) : Z := match p with AtPut | AtWait | InWait | AtFree => 1 | _ => 0 end.
Definition writing (p : place) : Z := match p with AtWait | InWait => 1 | _ => 0 end.
Definition had (p : place) : Z := match p with AtWait | InWait | AtFree | AtUp => 1 | _ => 0 end.
Definition finished (p : place) : bool := match p with InExit | AtHalt => true | _ => false end.
Lemma place_facts p :
  0 <= token p <= 1 /\ 0 <= inside p <= token p /\ 0 <= writing p <= inside p /\ 0 <= had p <= token p.
Proof. destruct p; simpl; lia. Qed.
(** How many letters the process has printed. *)
Definition printed (pr : process) : Z := i pr + had (at_ pr).
Definition alternating (n : Z) : list Z := (fun j => if Z.even j then 65 else 66) <$> seqZ 0 n.
Lemma alternating_snoc n : 0 <= n -> alternating (n + 1) = alternating n ++ [if Z.even n then 65 else 66].
Proof.
  intros Hn. unfold alternating. replace (n + 1) with (Z.of_nat (Z.to_nat n) + 1) by lia.
  rewrite (seqZ_app 0 (Z.of_nat (Z.to_nat n)) 1) by lia. rewrite fmap_app, Z2Nat.id by lia. by rewrite Z.add_0_l.
Qed.

(** The units of a semaphore. *)
Definition units (k : kernel STable) (x : Z) : Z := match semaphores k !! x with Some m => value m | None => 0 end.
Lemma units_at k x m : semaphores k !! x = Some m -> units k x = value m.
Proof. intros H. unfold units. by rewrite H. Qed.
Lemma units_same k k' x : semaphores k' !! x = semaphores k !! x -> units k' x = units k x.
Proof. intros H. unfold units. by rewrite H. Qed.

(** [P] and [V], as far as the processes are concerned. *)
Lemma P_effect k t x th k' :
  Inv k -> switching k = false -> currentThread k = t -> threads k !! t = Some th -> where_ th = Normal \/ where_ th = InP x ->
  P k t x = Ok k' ->
  Inv k' /\ others_move t k k' /\
  (exists th', threads k' !! t = Some th' /\ where_ th' = if switching k' then InP x else Normal) /\
  (forall y, y <> x -> semaphores k' !! y = semaphores k !! y) /\ is_Some (semaphores k' !! x) /\
  (if switching k' then units k x = 0 /\ units k' x = 0 else units k x <> 0 /\ units k' x = units k x - 1).
Proof.
  intros Hinv Hsw Hcur Hth Hw HP. assert (exists m, semaphores k !! x = Some m) as [m Hm].
  { unfold P, sem_at in HP. destruct (semaphores k !! x); [by eexists|done]. }
  destruct (P_spec k t x th m Hinv Hsw (eq_sym Hcur) Hth Hw Hm) as (k2 & HP2 & Hinv' & _ & _ & Hsem).
  rewrite HP in HP2. injection HP2 as <-. destruct (P_threads k t x k' m Hm HP) as (He & th' & Ht' & Hw').
  assert (switching k' = (value m =? 0)) as -> by (by destruct (value m =? 0); destruct Hsem).
  rewrite (units_at _ _ _ Hm). split; [done|]. split; [by eapply insert_others|].
  split; [exists th'; rewrite Ht', lookup_insert_eq; by split|].
  destruct (Z.eqb_spec (value m) 0); destruct Hsem as [_ Hsem]; unfold units; rewrite Hsem, lookup_insert_eq;
    (split; [intros y Hy; by rewrite lookup_insert_ne|]); (split; [by eexists|]); split; simpl; lia.
Qed.
Lemma V_effect k x k' :
  Inv k -> V k x = Ok k' ->
  Inv k' /\ moves k k' /\ (forall y, y <> x -> semaphores k' !! y = semaphores k !! y) /\ is_Some (semaphores k' !! x) /\
  units k' x = units k x + 1.
Proof.
  intros Hinv HV. assert (exists m, semaphores k !! x = Some m) as [m Hm].
  { unfold V, sem_at in HV. destruct (semaphores k !! x); [by eexists|done]. }
  destruct (V_spec _ x m Hinv Hm) as (k2 & HV2 & Hinv' & _ & _ & Es & _). rewrite HV in HV2. injection HV2 as <-.
  split; [done|]. split; [by eapply V_moves|]. rewrite (units_at _ _ _ Hm). unfold units. rewrite Es, lookup_insert_eq.
  split; [intros y Hy; by rewrite lookup_insert_ne|]. split; [by eexists|done].
Qed.

(** ** One process *)

Section process.
Context (s w a : Z).
(** The semaphore that a process waits for; [s] is the one of its [Down]. *)
Definition waiting_for (p : place) : option Z :=
  match p with InDown => Some s | InLine => Some w | InWait => Some a | _ => None end.
Record proc_ok (k : kernel STable) (pr : process) : Prop := {
  po_i : 0 <= i pr <= 1000;
  po_more : at_ pr <> AtFor -> finished (at_ pr) = false -> i pr < 1000;
  po_done : finished (at_ pr) = true -> i pr = 1000;
  po_where : finished (at_ pr) = false -> exists th, threads k !! tid pr = Some th /\
    match waiting_for (at_ pr) with
    | Some x => where_ th = InP x
    | None => where_ th = Threads.Fresh \/ where_ th = Normal
    end
}.
Lemma proc_ok_others x k k' pr :
  others_move x k k' -> (tid pr = x -> finished (at_ pr) = true) -> proc_ok k pr -> proc_ok k' pr.
Proof.
  intros Hm Hx [Hi Hmore Hd Hw]. split; try done. intros Hr. destruct (Hw Hr) as (th & Ht & Hp).
  destruct (om_fwd _ _ _ Hm (tid pr) th) as (th' & Ht' & Ha); [intros ?%Hx; congruence|done| |].
  - destruct (waiting_for (at_ pr)); [congruence|]. destruct Hp as [-> | ->]; done.
  - exists th'. split; [done|]. destruct (waiting_for (at_ pr)).
    + destruct Ha as [->|[Hf _]]; congruence.
    + destruct Ha as [->|[_ ->]]; auto.
Qed.
Lemma proc_ok_moves k k' pr : moves k k' -> proc_ok k pr -> proc_ok k' pr.
Proof.
  intros Hm. apply (proc_ok_others (fresh ({[tid pr]} : gset Z))); [by apply moves_others|].
  intros E. pose proof (is_fresh ({[tid pr]} : gset Z)) as F. set_solver.
Qed.
(** A process that runs is not at its start. *)
Lemma running_place k pr :
  Inv k -> switching k = false -> currentThread k = tid pr -> proc_ok k pr -> finished (at_ pr) = false ->
  exists th, threads k !! tid pr = Some th /\
    where_ th = match waiting_for (at_ pr) with Some x => InP x | None => Normal end.
Proof.
  intros Hinv Hsw Hcur Hok Hr. destruct (po_where _ _ Hok Hr) as (th & Hth & Hwh). exists th. split; [done|].
  destruct (Inv_current k Hinv Hsw) as (th0 & Hth0 & Hst). rewrite Hcur, Hth in Hth0. injection Hth0 as <-.
  destruct (waiting_for (at_ pr)); [done|]. destruct Hwh as [Hf|]; [|done].
  destruct Hinv as [Hc _]. destruct (core_thread _ _ _ _ _ Hc _ th Hth) as [_ Hk]. rewrite Hst in Hk.
  destruct Hk as [_ [|[s' ?]]]; congruence.
Qed.

(** What one action does to the semaphores and the screen; [u] is the semaphore of
    [Up]. *)
Record effect (pg : program) (u : Z) (k k' : kernel STable) (pr pr' : process) (scr scr' : list Z) (b b' : bool) : Prop := {
  ef_down : units k' s + i pr' + token (at_ pr') = units k s + i pr + token (at_ pr);
  ef_up : units k' u - i pr' = units k u - i pr;
  ef_line : units k' w + inside (at_ pr') = units k w + inside (at_ pr);
  ef_wait : units k' a + Z.b2z b' - writing (at_ pr') = units k a + Z.b2z b - writing (at_ pr);
  ef_pos x : 0 <= units k x -> 0 <= units k' x;
  ef_some x : is_Some (semaphores k !! x) -> is_Some (semaphores k' !! x);
  ef_screen : (printed pr' = printed pr /\ scr' = scr) \/
    (at_ pr = AtPut /\ printed pr' = printed pr + 1 /\ scr' = scr ++ [letter pg])
}.

Section action.
Context (pg : program) (k : kernel STable) (pr : process) (scr : list Z) (b : bool) (u : Z) (mine : Z -> Prop).
Context (Hinv : Inv k) (Htab : table_ok (ext k)) (Hsw : switching k = false) (Hcur : currentThread k = tid pr).
Context (Hs : sem_named (ext k) (down_name pg) = Some s) (Hu : sem_named (ext k) (up_name pg) = Some u).
Context (Hne : NoDup [s; u; w; a]) (Hok : proc_ok k pr).
(** Of the semaphores that are [mine], the process waits only for that of its place. *)
Definition own_waits (k : kernel STable) (pr : process) : Prop :=
  forall th y, mine y -> threads k !! tid pr = Some th -> where_ th = InP y -> waiting_for (at_ pr) = Some y.
Context (Hown : own_waits k pr).

(** What holds after an action of the process. *)
Definition advanced (k' : kernel STable) (pr' : process) (scr' : list Z) (b' : bool) : Prop :=
  Inv k' /\ others_move (tid pr) k k' /\ tid pr' = tid pr /\ proc_ok k' pr' /\ own_waits k' pr' /\
  effect pg u k k' pr pr' scr scr' b b'.

Lemma distinct : s <> u /\ s <> w /\ s <> a /\ u <> w /\ u <> a /\ w <> a.
Proof using Hne. rewrite !NoDup_cons, !not_elem_of_cons in Hne. naive_solver. Qed.

(** Only the place of the process changes. *)
Lemma advanced_stay p scr' b' :
  waiting_for (at_ pr) = None -> waiting_for p = None -> (finished (at_ pr) = true -> finished p = true) ->
  (finished p = false -> i pr < 1000) -> (finished p = true -> i pr = 1000) ->
  effect pg u k k pr (goto pr p) scr scr' b b' -> advanced k (goto pr p) scr' b'.
Proof using Hinv Hok Hown.
  intros Hw1 Hw2 Hf Hlt Hd He. split_and!; try done; [by apply moves_others, moves_same| |].
  - pose proof (po_i _ _ Hok). split; simpl; [done|auto|done|]. intros Hp. rewrite Hw2.
    destruct (finished (at_ pr)) eqn:E; [rewrite Hf in Hp; done|]. destruct (po_where _ _ Hok E) as (th & Hth & Hwh).
    rewrite Hw1 in Hwh. by exists th.
  - intros th y Hy Hth Hwh. specialize (Hown th y Hy Hth Hwh). congruence.
Qed.
(** A [P] of [x], before or after a wait. *)
Lemma advanced_P x inn out k' pr' :
  finished (at_ pr) = false -> at_ pr <> AtFor -> waiting_for (at_ pr) = None \/ waiting_for (at_ pr) = Some x ->
  waiting_for inn = Some x -> waiting_for out = None -> finished inn = false -> finished out = false ->
  token (at_ pr) = token inn -> inside (at_ pr) = inside inn -> writing (at_ pr) = writing inn -> had (at_ pr) = had inn ->
  had out = had inn ->
  token out = token inn + (if decide (x = s) then 1 else 0) -> inside out = inside inn + (if decide (x = w) then 1 else 0) ->
  writing out = writing inn - (if decide (x = a) then 1 else 0) -> x <> u ->
  wait_in k pr x inn out = Ok (k', pr') -> advanced k' pr' scr b.
Proof using Hinv Hsw Hcur Hok.
  intros Hf0 Hfor Hw0 Hwi Hwo Hfi Hfo Ht0 Hi0 Hr0 Hh0 Hh1 Ht1 Hi1 Hr1 Hxu. unfold wait_in.
  destruct (P k (tid pr) x) as [k1| | | |] eqn:EP; try done. cbn [mbind res_bind]. intros [= <- <-].
  destruct (running_place k pr Hinv Hsw Hcur Hok Hf0) as (th & Hth & Hwh).
  assert (where_ th = Normal \/ where_ th = InP x) as Hwh' by (rewrite Hwh; destruct Hw0 as [-> | ->]; auto).
  destruct (P_effect k (tid pr) x th k1 Hinv Hsw Hcur Hth Hwh' EP) as (Hinv' & Hom & (th' & Ht' & Hw') & Hoth & Hsome & Hun).
  pose proof (po_i _ _ Hok). pose proof (po_more _ _ Hok Hfor Hf0) as Hlt.
  assert (forall y, y <> x -> units k1 y = units k y) as Hou by (intros y Hy; by apply units_same, Hoth).
  split; [done|]. split; [done|]. split; [done|].
  set (p := if switching k1 then inn else out). assert (finished p = false) as Hfp by (unfold p; by destruct (switching k1)).
  assert (waiting_for p = if switching k1 then Some x else None) as Hwp by (unfold p; by destruct (switching k1)).
  split; [split; cbn; [done|done|congruence|]; intros _; exists th'; split; [done|]; rewrite Hwp, Hw'; by destruct (switching k1); auto|].
  split; [intros th2 y _ Ht2 Hw2; cbn in *; rewrite Hwp; assert (th2 = th') as -> by congruence; destruct (switching k1); congruence|].
  assert (forall y, units k1 y = units k y - (if switching k1 then 0 else if decide (x = y) then 1 else 0)) as Hall.
  { intros y. destruct (decide (x = y)) as [<-|]; [destruct (switching k1); lia|rewrite Hou by done; destruct (switching k1); lia]. }
  split; cbn [goto i at_ tid].
  - rewrite Hall. unfold p. destruct (switching k1), (decide (x = s)); lia.
  - rewrite Hou by done. lia.
  - rewrite Hall. unfold p. destruct (switching k1), (decide (x = w)); lia.
  - rewrite Hall. unfold p. destruct (switching k1), (decide (x = a)); lia.
  - intros y Hy. rewrite Hall. destruct (switching k1); [lia|]. destruct (decide (x = y)) as [<-|]; lia.
  - intros y Hy. destruct (decide (y = x)) as [->|]; [done|by rewrite Hoth].
  - left. split; [|done]. unfold printed, p. cbn. destruct (switching k1); lia.
Qed.
(** The same after a wait: the semaphore is the one it waits for. *)
Lemma wait_again_eq inn out x : waiting_for (at_ pr) = Some x -> wait_again k pr inn out = wait_in k pr x inn out.
Proof using Hinv Hsw Hcur Hok.
  intros Hw. assert (finished (at_ pr) = false) as Hf by (by destruct (at_ pr)).
  destruct (running_place k pr Hinv Hsw Hcur Hok Hf) as (th & Hth & Hwh). unfold wait_again, thread_at.
  rewrite Hth. cbn [mbind res_bind]. rewrite Hwh, Hw. done.
Qed.
(** A [V] of [x]. *)
Lemma advanced_V x k' pr' :
  finished (at_ pr) = false -> waiting_for (at_ pr) = None -> waiting_for (at_ pr') = None -> finished (at_ pr') = false ->
  tid pr' = tid pr -> (at_ pr' <> AtFor -> i pr' < 1000) -> 0 <= i pr' <= 1000 -> V k x = Ok k' ->
  i pr' + token (at_ pr') = i pr + token (at_ pr) -> printed pr' = printed pr -> writing (at_ pr') = writing (at_ pr) ->
  x <> s -> x <> a -> i pr' = i pr + (if decide (x = u) then 1 else 0) ->
  inside (at_ pr') = inside (at_ pr) - (if decide (x = w) then 1 else 0) -> advanced k' pr' scr b.
Proof using Hinv Hsw Hcur Hok.
  intros Hf Hw Hw' Hf' Htid Hmore Hi HV Htok Hpr Hwr Hxs Hxa Hup Hin.
  destruct (V_effect k x k' Hinv HV) as (Hinv' & Hmv & Hoth & Hsome & Hun).
  destruct (running_place k pr Hinv Hsw Hcur Hok Hf) as (th & Hth & Hwh). rewrite Hw in Hwh.
  destruct (mv_fwd _ _ Hmv _ _ Hth) as (th1 & Hth1 & Ha); [congruence|].
  assert (where_ th1 = Normal) as Hw1 by (destruct Ha as [->|[? ->]]; congruence).
  assert (forall y, units k' y = units k y + (if decide (x = y) then 1 else 0)) as Hall.
  { intros y. destruct (decide (x = y)) as [<-|]; [done|]. rewrite (units_same _ _ _ (Hoth y ltac:(done))). lia. }
  split; [done|]. split; [by apply moves_others|]. split; [done|].
  split; [split; [done|auto|congruence|]; intros _; rewrite Htid, Hw'; eauto|].
  split; [intros th2 y _ Ht2 Hw2; rewrite Htid, Hth1 in Ht2; congruence|]. split.
  - rewrite Hall, decide_False by done. lia.
  - rewrite Hall, Hup. destruct (decide (x = u)); lia.
  - rewrite Hall, Hin. destruct (decide (x = w)); lia.
  - rewrite Hall, decide_False by done. lia.
  - intros y Hy. rewrite Hall. destruct (decide (x = y)); lia.
  - intros y Hy. destruct (decide (y = x)) as [->|]; [done|by rewrite Hoth].
  - left. by split.
Qed.
Lemma stay_effect p scr' b' :
  token p = token (at_ pr) -> inside p = inside (at_ pr) ->
  Z.b2z b' - writing p = Z.b2z b - writing (at_ pr) ->
  (had p = had (at_ pr) /\ scr' = scr) \/ (at_ pr = AtPut /\ had p = had (at_ pr) + 1 /\ scr' = scr ++ [letter pg]) ->
  effect pg u k k pr (goto pr p) scr scr' b b'.
Proof. intros H1 H2 H3 H4. split; cbn [goto i at_]; try lia; try done. unfold printed; cbn. destruct H4 as [[? ?]|(? & ? & ?)]; [left|right]; split_and!; try done; lia. Qed.
Lemma advance_ok k' pr' scr' b' : advance pg w a k pr scr b = Ok (k', pr', scr', b') -> advanced k' pr' scr' b'.
Proof using Hinv Htab Hsw Hcur Hs Hu Hne Hok Hown.
  destruct distinct as (H1 & H2 & H3 & H4 & H5 & H6). pose proof (po_i _ _ Hok) as Hi.
  pose proof (po_more _ _ Hok) as Hmore. pose proof (po_done _ _ Hok) as Hdone.
  assert (forall x inn out, (wait_in k pr x inn out ≫= fun '(k1, pr1) => Ok (k1, pr1, scr, b)) = Ok (k', pr', scr', b') ->
    wait_in k pr x inn out = Ok (k', pr') /\ scr' = scr /\ b' = b) as Hwait.
  { intros x inn out. destruct (wait_in k pr x inn out) as [[]| | | |]; try done. cbn. intros [= <- <- <- <-]. done. }
  unfold advance. destruct (at_ pr) eqn:Hat.
  - intros [= <- <- <- <-]. destruct (Z.ltb_spec (i pr) 1000).
    + apply advanced_stay; try done; [by rewrite Hat|by rewrite Hat|]. apply stay_effect; rewrite Hat; try done. by left.
    + apply advanced_stay; try done; [by rewrite Hat|intros _; lia|]. apply stay_effect; rewrite Hat; try done. by left.
  - rewrite (Wait_eq _ _ _ Htab), Hs. intros HA. assert (wait_in k pr s InDown AtLine = Ok (k', pr') /\ scr' = scr /\ b' = b) as (HP & -> & ->).
    { unfold wait_in. destruct (P k (tid pr) s); try done. cbn in *. injection HA as <- <- <- <-. done. }
    eapply (advanced_P s InDown AtLine); rewrite ?Hat; try done; try by left.
    all: cbn; rewrite ?decide_True, ?decide_False by done; done.
  - rewrite (wait_again_eq _ _ s) by (by rewrite Hat). intros (HP & -> & ->)%Hwait.
    eapply (advanced_P s InDown AtLine); rewrite ?Hat; try done; try by right.
    all: cbn; rewrite ?decide_True, ?decide_False by done; done.
  - intros (HP & -> & ->)%Hwait.
    eapply (advanced_P w InLine AtPut); rewrite ?Hat; try done; try by left.
    all: cbn; rewrite ?decide_True, ?decide_False by done; done.
  - rewrite (wait_again_eq _ _ w) by (by rewrite Hat). intros (HP & -> & ->)%Hwait.
    eapply (advanced_P w InLine AtPut); rewrite ?Hat; try done; try by right.
    all: cbn; rewrite ?decide_True, ?decide_False by done; done.
  - destruct b eqn:Eb; [done|]. intros [= <- <- <- <-].
    apply advanced_stay; try done; [by rewrite Hat|by rewrite Hat|intros _; by apply Hmore|].
    apply stay_effect; rewrite ?Hat, ?Eb; try done. by right.
  - intros (HP & -> & ->)%Hwait.
    eapply (advanced_P a InWait AtFree); rewrite ?Hat; try done; try by left.
    all: cbn; rewrite ?decide_True, ?decide_False by done; done.
  - rewrite (wait_again_eq _ _ a) by (by rewrite Hat). intros (HP & -> & ->)%Hwait.
    eapply (advanced_P a InWait AtFree); rewrite ?Hat; try done; try by right.
    all: cbn; rewrite ?decide_True, ?decide_False by done; done.
  - destruct (V k w) as [k1| | | |] eqn:EV; try done. cbn. intros [= <- <- <- <-].
    eapply (advanced_V w); unfold printed; rewrite ?Hat; cbn; try done; rewrite ?decide_True, ?decide_False by done; try lia.
    intros _. by apply Hmore.
  - assert (i pr < 1000) by (by apply Hmore).
    rewrite (Signal_eq _ _ Htab), Hu. destruct (V k u) as [k1| | | |] eqn:EV; try done. cbn. intros [= <- <- <- <-].
    eapply (advanced_V u); unfold printed; rewrite ?Hat; cbn; try done; rewrite ?decide_True, ?decide_False by done; try lia.
  - intros [= <- <- <- <-].
    assert (i pr = 1000) by (by apply Hdone).
    apply advanced_stay; try done; rewrite ?Hat; try done. apply stay_effect; rewrite Hat; try done. by left.
  - done.
Qed.
(** The action does not fail; behind Exit it halts the machine. *)
Lemma advance_returns :
  is_Some (semaphores k !! s) -> is_Some (semaphores k !! u) -> is_Some (semaphores k !! w) -> is_Some (semaphores k !! a) ->
  (at_ pr = AtPut -> b = false) ->
  if decide (at_ pr = AtHalt) then advance pg w a k pr scr b = Halted else is_Ok (advance pg w a k pr scr b) = true.
Proof using Hinv Htab Hsw Hcur Hs Hu Hok.
  intros [ms Hms] [mu Hmu] [mw Hmw] [ma Hma] Hb.
  assert (forall x m inn out, finished (at_ pr) = false -> waiting_for (at_ pr) = None \/ waiting_for (at_ pr) = Some x ->
    semaphores k !! x = Some m -> exists k1 pr1, wait_in k pr x inn out = Ok (k1, pr1)) as Hwait.
  { intros x m inn out Hf Hw Hm. destruct (running_place k pr Hinv Hsw Hcur Hok Hf) as (th & Hth & Hwh).
    destruct (P_spec k (tid pr) x th m Hinv Hsw (eq_sym Hcur) Hth) as (k2 & HP & _); [rewrite Hwh; destruct Hw as [-> | ->]; auto|done|].
    unfold wait_in. rewrite HP. cbn. eauto. }
  unfold advance. destruct (at_ pr) eqn:Hat; cbn [decide place_eq_dec]; try done.
  - rewrite (Wait_eq _ _ _ Htab), Hs. destruct (Hwait s ms InDown AtLine) as (k1 & pr1 & E); [done|by left|done|].
    revert E. unfold wait_in. by destruct (P k (tid pr) s).
  - rewrite (wait_again_eq _ _ s) by (by rewrite Hat).
    by destruct (Hwait s ms InDown AtLine) as (k1 & pr1 & ->); [done|by right|done|].
  - by destruct (Hwait w mw InLine AtPut) as (k1 & pr1 & ->); [done|by left|done|].
  - rewrite (wait_again_eq _ _ w) by (by rewrite Hat).
    by destruct (Hwait w mw InLine AtPut) as (k1 & pr1 & ->); [done|by right|done|].
  - by rewrite Hb.
  - by destruct (Hwait a ma InWait AtFree) as (k1 & pr1 & ->); [done|by left|done|].
  - rewrite (wait_again_eq _ _ a) by (by rewrite Hat).
    by destruct (Hwait a ma InWait AtFree) as (k1 & pr1 & ->); [done|by right|done|].
  - by destruct (V_spec k w mw Hinv Hmw) as (k2 & -> & _).
  - rewrite (Signal_eq _ _ Htab), Hu. by destruct (V_spec k u mu Hinv Hmu) as (k2 & -> & _).
Qed.
End action.
End process.

(** ** The invariant of the two processes *)

Section invariant.
Context (s1 s2 w a : Z) (Hne : NoDup [s1; s2; w; a]).
#[local] Abbreviation mine := (ours s1 s2 w a).

(** The unit of First and Second is in one of them or with a process; the line of
    the console is free or with a process; the character being written belongs to a
    process that waits for it. *)
Record pp_inv (c : config) : Prop := {
  pi_inv : Inv (kern c);
  pi_tab : table_ok (ext (kern c));
  pi_first : sem_named (ext (kern c)) (txt "First") = Some s1;
  pi_second : sem_named (ext (kern c)) (txt "Second") = Some s2;
  pi_tids : tid (ping c) <> tid (pong c);
  pi_ping : proc_ok s1 w a (kern c) (ping c);
  pi_pong : proc_ok s2 w a (kern c) (pong c);
  pi_waits t th x : mine x -> threads (kern c) !! t = Some th -> where_ th = InP x ->
    (t = tid (ping c) /\ waiting_for s1 w a (at_ (ping c)) = Some x) \/
    (t = tid (pong c) /\ waiting_for s2 w a (at_ (pong c)) = Some x);
  pi_some x : mine x -> is_Some (semaphores (kern c) !! x);
  pi_pos x : mine x -> 0 <= units (kern c) x;
  pi_one : units (kern c) s1 + i (ping c) + token (at_ (ping c)) = 1 + i (pong c);
  pi_two : units (kern c) s2 + i (pong c) + token (at_ (pong c)) = i (ping c);
  pi_line : units (kern c) w + inside (at_ (ping c)) + inside (at_ (pong c)) = 1;
  pi_write : units (kern c) a + Z.b2z (putBusy c) = writing (at_ (ping c)) + writing (at_ (pong c));
  pi_screen : screen c = alternating (printed (ping c) + printed (pong c))
}.
Ltac mine_pos :=
  match goal with H : forall x, mine x -> 0 <= units ?k x |- _ =>
    pose proof (H s1 ltac:(unfold ours; auto)); pose proof (H s2 ltac:(unfold ours; auto));
    pose proof (H w ltac:(unfold ours; auto)); pose proof (H a ltac:(unfold ours; auto)) end.
Ltac places :=
  repeat match goal with
  | |- context [at_ ?p] => lazymatch goal with H : 0 <= token (at_ p) <= 1 /\ _ |- _ => fail | _ => pose proof (place_facts (at_ p)) end
  | _ : context [at_ ?p] |- _ => lazymatch goal with H : 0 <= token (at_ p) <= 1 /\ _ |- _ => fail | _ => pose proof (place_facts (at_ p)) end
  end.

Lemma ping_runs_inv c k pr scr b h :
  pp_inv c -> switching (kern c) = false -> currentThread (kern c) = tid (ping c) ->
  advance Ping w a (kern c) (ping c) (screen c) (putBusy c) = Ok (k, pr, scr, b) -> pp_inv (mkConfig k pr (pong c) scr b h).
Proof using Hne.
  intros [Hinv Htab H1 H2 Htid Hp Hq Hw Hsome Hpos E1 E2 E3 E4 Hscr] Hsw Hcur Ha.
  assert (own_waits s1 w a mine (kern c) (ping c)) as Hown.
  { intros th y Hy Hth Hwh. by destruct (Hw _ _ _ Hy Hth Hwh) as [[_ ?]|[? _]]. }
  destruct (advance_ok s1 w a Ping (kern c) (ping c) (screen c) (putBusy c) s2 mine Hinv Htab Hsw Hcur H1 H2 Hne Hp Hown _ _ _ _ Ha)
    as (Hinv' & Hom & Ht & Hp' & Hown' & [F1 F2 F3 F4 F5 F6 F7]).
  split; cbn [kern ping pong screen putBusy]; rewrite ?(om_ext _ _ _ Hom); try done; try (rewrite ?Ht; done); try lia.
  - eapply proc_ok_others; [exact Hom|congruence|done].
  - intros t th x Hx Hth Hwh. destruct (decide (t = tid (ping c))) as [->|Hn].
    + left. split; [done|]. rewrite <-Ht in Hth. by apply (Hown' th).
    + destruct (om_bwd _ _ _ Hom t th Hn Hth) as (th0 & Ht0 & Haf).
      destruct (Hw t th0 x Hx Ht0) as [[? _]|?]; [destruct Haf as [<-|[_ ?]]; congruence|done|by right].
  - auto.
  - auto.
  - destruct F7 as [[-> ->]|(Hat & -> & ->)]; [done|]. rewrite Hscr. mine_pos. places. rewrite Hat in *. cbn in *.
    assert (i (ping c) = i (pong c) /\ had (at_ (pong c)) = 0) as [Ei Eh] by lia.
    replace (printed (ping c) + 1 + printed (pong c)) with (printed (ping c) + printed (pong c) + 1) by lia.
    pose proof (po_i _ _ _ _ _ Hp). unfold printed. rewrite Hat, Eh, Ei. cbn. rewrite alternating_snoc by lia. do 3 f_equal.
    replace (i (pong c) + 0 + (i (pong c) + 0)) with (0 + 2 * i (pong c)) by lia. by rewrite Z.even_add_mul_2.
Qed.
Lemma pong_runs_inv c k pr scr b h :
  pp_inv c -> switching (kern c) = false -> currentThread (kern c) = tid (pong c) ->
  advance Pong w a (kern c) (pong c) (screen c) (putBusy c) = Ok (k, pr, scr, b) -> pp_inv (mkConfig k (ping c) pr scr b h).
Proof using Hne.
  intros [Hinv Htab H1 H2 Htid Hp Hq Hw Hsome Hpos E1 E2 E3 E4 Hscr] Hsw Hcur Ha.
  assert (own_waits s2 w a mine (kern c) (pong c)) as Hown.
  { intros th y Hy Hth Hwh. destruct (Hw _ _ _ Hy Hth Hwh) as [[? _]|[_ ?]]; [congruence|done]. }
  assert (NoDup [s2; s1; w; a]) as Hne' by (eapply NoDup_Permutation_proper; [|exact Hne]; constructor).
  destruct (advance_ok s2 w a Pong (kern c) (pong c) (screen c) (putBusy c) s1 mine Hinv Htab Hsw Hcur H2 H1 Hne' Hq Hown _ _ _ _ Ha)
    as (Hinv' & Hom & Ht & Hp' & Hown' & [F1 F2 F3 F4 F5 F6 F7]).
  split; cbn [kern ping pong screen putBusy]; rewrite ?(om_ext _ _ _ Hom); try done; try (rewrite ?Ht; done); try lia.
  - eapply proc_ok_others; [exact Hom|congruence|done].
  - intros t th x Hx Hth Hwh. destruct (decide (t = tid (pong c))) as [->|Hn].
    + right. split; [done|]. rewrite <-Ht in Hth. by apply (Hown' th).
    + destruct (om_bwd _ _ _ Hom t th Hn Hth) as (th0 & Ht0 & Haf).
      destruct (Hw t th0 x Hx Ht0) as [?|[? _]]; [destruct Haf as [<-|[_ ?]]; congruence|by left|done].
  - auto.
  - auto.
  - destruct F7 as [[-> ->]|(Hat & -> & ->)]; [done|]. rewrite Hscr. mine_pos. places. rewrite Hat in *. cbn in *.
    assert (i (ping c) = i (pong c) + 1 /\ had (at_ (ping c)) = 0) as [Ei Eh] by lia.
    replace (printed (ping c) + (printed (pong c) + 1)) with (printed (ping c) + printed (pong c) + 1) by lia.
    pose proof (po_i _ _ _ _ _ Hq). unfold printed. rewrite Hat, Eh, Ei. cbn. rewrite alternating_snoc by lia. do 3 f_equal.
    replace (i (pong c) + 1 + 0 + (i (pong c) + 0)) with (1 + 2 * i (pong c)) by lia. by rewrite Z.even_add_mul_2.
Qed.

(** Steps of the rest of the system: the four semaphores stay, and a thread that
    is moved is not a process in its [main]. *)
Lemma rest_inv c k x :
  pp_inv c -> Inv k -> others_move x (kern c) k ->
  (x = tid (ping c) -> finished (at_ (ping c)) = true) -> (x = tid (pong c) -> finished (at_ (pong c)) = true) ->
  (forall th y, mine y -> threads k !! x = Some th -> where_ th <> InP y) ->
  (forall y, mine y -> semaphores k !! y = semaphores (kern c) !! y) -> pp_inv (with_kern c k).
Proof.
  intros [Hinv Htab H1 H2 Htid Hp Hq Hw Hsome Hpos E1 E2 E3 E4 Hscr] Hinv' Hom Hx1 Hx2 Hx Hs.
  assert (forall y, mine y -> units k y = units (kern c) y) as Hu by (intros y Hy; by apply units_same, Hs).
  split; cbn [kern ping pong screen putBusy with_kern]; rewrite ?(om_ext _ _ _ Hom), ?Hu by (unfold ours; auto); try done.
  - eapply proc_ok_others; [exact Hom|by intros <-; auto|done].
  - eapply proc_ok_others; [exact Hom|by intros <-; auto|done].
  - intros t th y Hy Hth Hwh. destruct (decide (t = x)) as [->|Hn]; [by destruct (Hx th y Hy Hth)|].
    destruct (om_bwd _ _ _ Hom t th Hn Hth) as (th0 & Ht0 & Haf). apply (Hw t th0 y Hy Ht0).
    destruct Haf as [<-|[_ ?]]; congruence.
  - intros y Hy. rewrite Hs by done. auto.
  - intros y Hy. rewrite Hu by done. auto.
Qed.
Lemma moves_inv c k :
  pp_inv c -> Inv k -> moves (kern c) k ->
  (forall y, mine y -> semaphores k !! y = semaphores (kern c) !! y) -> pp_inv (with_kern c k).
Proof.
  intros Hc Hinv Hm Hs.
  set (x := fresh (dom (threads k) ∪ {[tid (ping c); tid (pong c)]} : gset Z)).
  assert (x ∉ (dom (threads k) ∪ {[tid (ping c); tid (pong c)]} : gset Z)) as Hx by apply is_fresh.
  eapply (rest_inv c k x); try done; [by apply moves_others|set_solver|set_solver|].
  intros th y _ Hth%elem_of_dom_2. set_solver.
Qed.
(** The interrupt of the console. *)
Lemma write_done_inv c k h :
  pp_inv c -> putBusy c = true -> V (kern c) a = Ok k -> pp_inv (mkConfig k (ping c) (pong c) (screen c) false h).
Proof using Hne.
  intros [Hinv Htab H1 H2 Htid Hp Hq Hw Hsome Hpos E1 E2 E3 E4 Hscr] Hb HV.
  destruct (V_effect _ _ _ Hinv HV) as (Hinv' & Hm & Hs & Ha & Hu).
  assert (forall y, y <> a -> units k y = units (kern c) y) as Hou by (intros y Hy; by apply units_same, Hs).
  assert (s1 <> a /\ s2 <> a /\ w <> a) as (N1 & N2 & N3) by (rewrite !NoDup_cons, !not_elem_of_cons in Hne; naive_solver).
  rewrite Hb in E4. split; cbn [kern ping pong screen putBusy]; rewrite ?(mv_ext _ _ Hm), ?Hou, ?Hu by done; try done.
  - by eapply proc_ok_moves.
  - by eapply proc_ok_moves.
  - intros t th y Hy Hth Hwh. destruct (mv_bwd _ _ Hm t th Hth) as (th0 & Ht0 & Haf). apply (Hw t th0 y Hy Ht0).
    destruct Haf as [<-|[_ ?]]; congruence.
  - intros y Hy. destruct (decide (y = a)) as [->|]; [done|]. rewrite Hs by done. auto.
  - intros y Hy. destruct (decide (y = a)) as [->|]; [rewrite Hu; pose proof (Hpos a Hy); lia|]. rewrite Hou by done. auto.
  - cbn in *. lia.
Qed.
Lemma pp_step_inv c c' : pp_inv c -> pp_step s1 s2 w a c c' -> pp_inv c'.
Proof using Hne.
  intros Hc Hst. pose proof (pi_inv c Hc) as Hinv.
  assert (forall c, pp_inv c -> pp_inv (halt c)) as Hhalt by (by intros ? []).
  destruct Hst as [c k pr scr b Hsw Hcur Ha|c k pr scr b Hsw Hcur Ha|c _ _ _|c _ _ _|c k Hb HV|c k th Hsw Hth Hw HY|c k Hsw HS
    |c k s th Hsw [Hb1 Hb2] Hs Hth Hw HP|c k s Hs HV|c k th Hsw [Hb1 Hb2] Hth Hw HF|c _ _]; try by apply Hhalt.
  - by apply ping_runs_inv.
  - by apply pong_runs_inv.
  - by apply write_done_inv.
  - destruct (Yield_spec keep_user keep_user _ _ Hinv Hsw eq_refl) as (k2 & HY2 & Hinv' & _ & Es & _).
    rewrite HY in HY2. injection HY2 as <-. apply moves_inv; try done; [by eapply Yield_moves|by rewrite Es..].
  - pose proof (sleep_loop_spec keep_user keep_user _ Hinv Hsw) as H. destruct (readyList (kern c)); [congruence|].
    destruct H as (k2 & HS2 & Hinv' & _ & _ & _ & Es). rewrite HS in HS2. injection HS2 as <-.
    apply moves_inv; try done; [by apply sleep_loop_moves|by rewrite Es..].
  - destruct (P_effect _ _ s th k Hinv Hsw eq_refl Hth Hw HP) as (Hinv' & Hom & (th' & Ht' & Hw') & Hoth & _).
    apply (rest_inv c k (currentThread (kern c))); try done.
    + intros E. by rewrite Hb1.
    + intros E. by rewrite Hb2.
    + intros th2 y Hy Ht2 Hw2. assert (th2 = th') as -> by congruence. destruct (switching k); congruence.
    + intros y Hy. apply Hoth. by intros ->.
  - destruct (V_effect _ s k Hinv HV) as (Hinv' & Hm & Hoth & _). apply moves_inv; try done. intros y Hy. apply Hoth. by intros ->.
  - destruct (Finish_spec _ _ th Hinv Hsw eq_refl Hth Hw) as (k2 & HF2 & Hinv' & _). rewrite HF in HF2. injection HF2 as <-.
    destruct (Finish_threads _ _ _ HF) as (He & Es & th' & Ht' & Hw').
    apply (rest_inv c k (currentThread (kern c))); try done; [by eapply insert_others|..].
    + intros E. by rewrite Hb1.
    + intros E. by rewrite Hb2.
    + intros th2 y _. rewrite Ht', lookup_insert_eq. intros [= <-]. by rewrite Hw'.
    + intros y _. by rewrite Es.
Qed.
Lemma pp_reachable_inv c0 c : pp_inv c0 -> pp_reachable s1 s2 w a c0 c -> pp_inv c.
Proof using Hne. intros H0. induction 1; [done|]. by eapply pp_step_inv. Qed.

(** *** No deadlock *)

(** The process has not returned and is not blocked. *)
Definition can_run (k : kernel STable) (pr : process) : Prop :=
  finished (at_ pr) = false /\ exists th, threads k !! tid pr = Some th /\ status th <> BLOCKED.
#[local] Instance can_run_dec k pr : Decision (can_run k pr).
Proof.
  unfold can_run. apply and_dec; [apply _|]. destruct (threads k !! tid pr) as [th|].
  - destruct (decide (status th = BLOCKED)); [right; intros (? & [= <-] & ?); done|left; eauto].
  - right. by intros (? & ? & _).
Qed.
(** A process that cannot run has returned, or waits for a semaphore without a
    unit, or for one that the other process waits for. *)
Lemma cannot_run k s pr (other : Z -> Prop) :
  Inv k -> proc_ok s w a k pr -> (forall x, mine x -> 0 <= units k x) -> mine s ->
  (forall t th x, mine x -> threads k !! t = Some th -> where_ th = InP x -> t = tid pr \/ other x) ->
  ~ can_run k pr ->
  (finished (at_ pr) = true /\ i pr = 1000) \/
  exists x, waiting_for s w a (at_ pr) = Some x /\ i pr < 1000 /\ (units k x = 0 \/ other x).
Proof.
  intros Hinv Hok Hpos Hs Hw Hno. destruct (finished (at_ pr)) eqn:Hf; [left; split; [done|by apply (po_done _ _ _ _ _ Hok)]|].
  right. destruct (po_where _ _ _ _ _ Hok Hf) as (th & Hth & Hwh).
  assert (status th = BLOCKED) as Hst.
  { destruct (decide (status th = BLOCKED)); [done|]. destruct Hno. split; [done|]. eauto. }
  destruct Hinv as [Hc _]. destruct (core_thread _ _ _ _ _ Hc _ th Hth) as [_ Hk]. rewrite Hst in Hk.
  destruct (waiting_for s w a (at_ pr)) as [x|] eqn:Ex.
  2:{ destruct Hwh as [E|E]; rewrite E in Hk; destruct Hk as [|(? & ? & ? & _)]; done. }
  exists x. assert (at_ pr <> AtFor) as Hfor by (by intros E; rewrite E in Ex). split; [done|].
  split; [by apply (po_more _ _ _ _ _ Hok)|]. rewrite Hwh in Hk. destruct Hk as [|(x' & m & [= <-] & Hm & Hq)]; [done|].
  assert (mine x) as Hmx by (unfold ours in *; destruct (at_ pr); cbn in Ex; simplify_eq; auto).
  destruct (core_sem _ _ _ _ _ Hc x m Hm) as (Hv & _ & _ & Hwk).
  destruct Hwk as (ws & _ & Hws & Hle); [by intros E; rewrite E in Hq; apply elem_of_nil in Hq|].
  destruct ws as [|t ws].
  - left. pose proof (Hpos x Hmx) as Hp. rewrite (units_at _ _ _ Hm) in *. unfold zlen in Hle. simpl in Hle. lia.
  - right. destruct (Hws t) as (th1 & Ht1 & Hnb & Hp); [set_solver|]. destruct (Hw t th1 x Hmx Ht1 Hp) as [-> |]; [congruence|done].
Qed.
Lemma no_deadlock c :
  pp_inv c -> finished (at_ (ping c)) && finished (at_ (pong c)) = false ->
  can_run (kern c) (ping c) \/ can_run (kern c) (pong c) \/ putBusy c = true.
Proof using Hne.
  intros [Hinv Htab H1 H2 Htid Hp Hq Hw Hsome Hpos E1 E2 E3 E4 Hscr] Hnot.
  destruct (decide (can_run (kern c) (ping c))) as [|Hnp]; [by left|]. destruct (decide (can_run (kern c) (pong c))) as [|Hnq]; [auto|].
  destruct (putBusy c) eqn:Eb; [auto|]. exfalso. cbn in E4.
  assert (s1 <> w /\ s1 <> a /\ s2 <> w /\ s2 <> a /\ s1 <> s2) as (N1 & N2 & N3 & N4 & N5)
    by (rewrite !NoDup_cons, !not_elem_of_cons in Hne; naive_solver).
  pose proof (cannot_run _ s1 _ (fun x => waiting_for s2 w a (at_ (pong c)) = Some x) Hinv Hp Hpos ltac:(by left)) as C1.
  pose proof (cannot_run _ s2 _ (fun x => waiting_for s1 w a (at_ (ping c)) = Some x) Hinv Hq Hpos ltac:(right; by left)) as C2.
  specialize (C1 ltac:(intros t th x Hx Ht Hwh; destruct (Hw t th x Hx Ht Hwh) as [[? _]|[_ ?]]; auto) Hnp).
  specialize (C2 ltac:(intros t th x Hx Ht Hwh; destruct (Hw t th x Hx Ht Hwh) as [[_ ?]|[? _]]; auto) Hnq).
  clear Hw Hp Hq Hscr Hsome H1 H2 Htab. mine_pos.
  destruct C1 as [[F1 I1]|(x & Ex & I1 & Hx)]; destruct C2 as [[F2 I2]|(y & Ey & I2 & Hy)];
    destruct (at_ (ping c)), (at_ (pong c)); cbn in *; simplify_eq; try lia;
    repeat match goal with H : _ \/ _ |- _ => destruct H end; simplify_eq; lia.
Qed.
End invariant.

(** ** The start *)

Lemma Create_kernel (k k' : kernel STable) name init s ID :
  Create k name init s = Ok (ID, k') -> ID <> -1 ->
  k' = set_ext (set_semaphores k (<[s := new_Semaphore init]> (semaphores k))) (ext k').
Proof.
  unfold Create. destruct (create_loop _ _ _ _) as [[]| | | |]; try done; cbn [mbind res_bind]; [by intros [= <-]|].
  destruct (GetFreeSlot (ext k)) as [[j T]| | | |]; try done. cbn [mbind res_bind].
  destruct (j =? -1); [by intros [= <-]|]. destruct (wr _ _ _); try done. cbn [mbind res_bind].
  destruct (Mark _ _); try done. cbn [mbind res_bind]. by intros [= <- <-] _.
Qed.
(** A semaphore that is created is new, and the others and the threads stay. *)
Lemma Create_made (k k' : kernel STable) name init s ID :
  Inv k -> table_ok (ext k) -> semaphores k !! s = None ->
  Create k name init s = Ok (ID, k') -> ID <> -1 ->
  Inv k' /\ table_ok (ext k') /\ sem_named (ext k) name = None /\
  (forall n, sem_named (ext k') n = if decide (n = name) then Some s else sem_named (ext k) n) /\
  semaphores k' = <[s := new_Semaphore init]> (semaphores k) /\ threads k' = threads k.
Proof.
  intros Hinv Htab Hs HC HID. pose proof (Create_kernel _ _ _ _ _ _ HC HID) as Hk'.
  assert (sem_named (ext k) name = None) as Hnone.
  { destruct (sem_named (ext k) name) eqn:E; [|done]. rewrite Create_refused in HC by (done || left; rewrite E; eauto). congruence. }
  assert (clear_items (bm (ext k)) <> []) as Hroom.
  { intros E. rewrite Create_refused in HC by (done || by right). congruence. }
  destruct (Create_new k name init s Htab Hnone Hroom) as (ID2 & k2 & HC2 & _ & Ht2 & Es & Eth & _ & _ & Hn).
  rewrite HC in HC2. injection HC2 as <- <-. split_and!; try done.
  rewrite Hk'. eapply (step_inv keep_user keep_user); [|apply step_ext]. by eapply (step_inv keep_user keep_user); [|apply step_new_sem].
Qed.
Lemma exec_thread_spec (k : kernel STable) t :
  Inv k -> threads k !! t = None ->
  exists k' th, exec_thread k t = Ok k' /\ Inv k' /\ ext k' = ext k /\ semaphores k' = semaphores k /\
    threads k' = <[t := th]> (threads k) /\ where_ th = Threads.Fresh.
Proof.
  intros Hinv Ht. set (k1 := set_threads k (<[t := new_Thread t]> (threads k))).
  assert (Inv k1) as Hinv1 by (by eapply (step_inv keep_user keep_user); [|apply (step_create _ _ k t t)]).
  destruct (Fork_spec k1 t (new_Thread t) Hinv1) as (k2 & HF & Hinv2 & _); [apply lookup_insert_eq|done|].
  exists k2. unfold exec_thread. fold k1. rewrite HF. revert HF. unfold Fork, thread_at, ReadyToRun, setStatus, thread_at.
  simpl. rewrite lookup_insert_eq. simpl. rewrite lookup_insert_eq. simpl. intros [= <-]. simpl.
  eexists. split_and!; [done|exact Hinv2|done|done|by rewrite !insert_insert_eq|done].
Qed.

(** Nothing uses the objects that PingPong creates, and the console is idle. *)
Record unused (k : kernel STable) (s1 s2 w a t1 t2 : Z) : Prop := {
  un_distinct : NoDup [s1; s2; w; a];
  un_sems : semaphores k !! s1 = None /\ semaphores k !! s2 = None;
  un_console : is_Some (semaphores k !! w) /\ units k w = 1 /\ is_Some (semaphores k !! a) /\ units k a = 0;
  un_threads : t1 <> t2 /\ threads k !! t1 = None /\ threads k !! t2 = None;
  un_waits t th x : ours s1 s2 w a x -> threads k !! t = Some th -> where_ th <> InP x
}.
Lemma started_inv k s1 s2 w a t1 t2 k0 :
  Inv k -> table_ok (ext k) -> unused k s1 s2 w a t1 t2 -> PingPong k s1 s2 t1 t2 = Ok (Some k0) ->
  pp_inv s1 s2 w a (started k0 t1 t2).
Proof.
  intros Hinv Htab [Hd (Hs1 & Hs2) ([mw Hmw] & Hvw & [ma Hma] & Hva) (Ht & Ht1 & Ht2) Hw]. unfold PingPong.
  assert (s1 <> s2 /\ s1 <> w /\ s1 <> a /\ s2 <> w /\ s2 <> a) as (N1 & N2 & N3 & N4 & N5)
    by (rewrite !NoDup_cons, !not_elem_of_cons in Hd; naive_solver).
  destruct (Create k (txt "First") 1 s1) as [[r1 ka]| | | |] eqn:E1; try done. cbn [mbind res_bind].
  destruct (Z.eqb_spec r1 (-1)) as [|Hr1]; [done|].
  destruct (Create_made k ka (txt "First") 1 s1 r1 Hinv Htab Hs1 E1 Hr1) as (Hia & Hta & _ & Hna & Esa & Etha).
  destruct (Create ka (txt "Second") 0 s2) as [[r2 kb]| | | |] eqn:E2; try done. cbn [mbind res_bind].
  destruct (Z.eqb_spec r2 (-1)) as [|Hr2]; [done|].
  destruct (Create_made ka kb (txt "Second") 0 s2 r2 Hia Hta ltac:(by rewrite Esa, lookup_insert_ne) E2 Hr2) as (Hib & Htb & _ & Hnb & Esb & Ethb).
  destruct (exec_thread_spec kb t1 Hib) as (kc & tha & -> & Hic & Eec & Esc & Etc & Hfa); [by rewrite Ethb, Etha|]. cbn [mbind res_bind].
  destruct (exec_thread_spec kc t2 Hic) as (kd & thb & -> & Hid & Eed & Esd & Etd & Hfb);
    [by rewrite Etc, lookup_insert_ne, Ethb, Etha|]. cbn [mbind res_bind]. intros [= <-].
  assert (threads kd = <[t2 := thb]> (<[t1 := tha]> (threads k))) as Ethr by (by rewrite Etd, Etc, Ethb, Etha).
  assert (semaphores kd = <[s2 := new_Semaphore 0]> (<[s1 := new_Semaphore 1]> (semaphores k))) as Esem by (by rewrite Esd, Esc, Esb, Esa).
  assert (units kd s1 = 1 /\ units kd s2 = 0 /\ units kd w = 1 /\ units kd a = 0) as (V1 & V2 & V3 & V4).
  { unfold units in *. rewrite Esem, lookup_insert_eq, lookup_insert_ne, lookup_insert_eq by done.
    rewrite !(lookup_insert_ne _ s2), !(lookup_insert_ne _ s1) by done. done. }
  split; cbn [started kern ping pong screen putBusy tid i at_]; try done; rewrite ?Eed, ?Eec, ?V1, ?V2, ?V3, ?V4; try done.
  - rewrite Hnb. rewrite decide_False by done. rewrite Hna. by rewrite decide_True.
  - split; simpl; try done. intros _. exists tha. rewrite Ethr, lookup_insert_ne, lookup_insert_eq by done. auto.
  - split; simpl; try done. intros _. exists thb. rewrite Ethr, lookup_insert_eq. auto.
  - intros t th x Hx Hth Hwh. rewrite Ethr in Hth. exfalso. destruct (decide (t = t2)) as [->|].
    { rewrite lookup_insert_eq in Hth. congruence. }
    rewrite lookup_insert_ne in Hth by done. destruct (decide (t = t1)) as [->|].
    { rewrite lookup_insert_eq in Hth. congruence. }
    rewrite lookup_insert_ne in Hth by done. by destruct (Hw t th x Hx Hth).
  - intros x Hx. rewrite Esem. destruct (decide (x = s2)) as [->|]; [rewrite lookup_insert_eq; eauto|]. rewrite lookup_insert_ne by done.
    destruct (decide (x = s1)) as [->|]; [rewrite lookup_insert_eq; eauto|]. rewrite lookup_insert_ne by done.
    destruct Hx as [?|[?|[->| ->]]]; try done; eauto.
  - intros x [->|[->|[->| ->]]]; lia.
Qed.

(** ** Properties *)

(** C19. Ping and Pong take turns.  PingPong, started on any kernel with an idle
    console, creates its two semaphores and processes; from then on, in every
    interleaving with time slices, dispatching, the console's interrupts, other
    threads and interrupts that use other semaphores: the screen shows A and B
    alternating, A first, at most 1000 of each, and exactly 1000 of each when both
    programs have returned from [main]; the calls of the two programs never fail
    (the console is never busy when a letter is put out), except that a process
    whose Exit has come back halts the machine, with whatever is on the screen; and
    as long as the machine has not halted and not both have returned, one that has
    not is running or ready, or a letter is being put out and its interrupt can
    come, which wakes the writer: the two never wait for each other. *)
Theorem ping_pong (k : kernel STable) (s1 s2 w a t1 t2 : Z) (k0 : kernel STable) (c : config) :
  Inv k -> table_ok (ext k) -> unused k s1 s2 w a t1 t2 ->
  PingPong k s1 s2 t1 t2 = Ok (Some k0) -> pp_reachable s1 s2 w a (started k0 t1 t2) c ->
  (exists n, 0 <= n <= 2000 /\ screen c = alternating n) /\
  (finished (at_ (ping c)) = true -> finished (at_ (pong c)) = true -> screen c = alternating 2000) /\
  (switching (kern c) = false -> currentThread (kern c) = tid (ping c) ->
     if decide (at_ (ping c) = AtHalt) then advance Ping w a (kern c) (ping c) (screen c) (putBusy c) = Halted
     else is_Ok (advance Ping w a (kern c) (ping c) (screen c) (putBusy c)) = true) /\
  (switching (kern c) = false -> currentThread (kern c) = tid (pong c) ->
     if decide (at_ (pong c) = AtHalt) then advance Pong w a (kern c) (pong c) (screen c) (putBusy c) = Halted
     else is_Ok (advance Pong w a (kern c) (pong c) (screen c) (putBusy c)) = true) /\
  (finished (at_ (ping c)) && finished (at_ (pong c)) = false ->
     can_run (kern c) (ping c) \/ can_run (kern c) (pong c) \/
     putBusy c = true /\ exists k', V (kern c) a = Ok k' /\
       pp_step s1 s2 w a c (mkConfig k' (ping c) (pong c) (screen c) false (halted c)) /\
       (can_run k' (ping c) \/ can_run k' (pong c))).
Proof.
  intros Hinv Htab Hun Hpp Hr. pose proof (un_distinct _ _ _ _ _ _ _ Hun) as Hne.
  pose proof (pp_reachable_inv s1 s2 w a Hne _ _ (started_inv _ _ _ _ _ _ _ _ Hinv Htab Hun Hpp) Hr) as Hc.
  pose proof Hc as [Hi Ht H1 H2 _ Hp Hq Hw Hsome Hpos E1 E2 E3 E4 Hscr].
  pose proof (place_facts (at_ (ping c))) as F1. pose proof (place_facts (at_ (pong c))) as F2.
  pose proof (Hpos s1 ltac:(by left)) as P1. pose proof (Hpos s2 ltac:(right; by left)) as P2.
  pose proof (Hpos a ltac:(unfold ours; auto)) as P4. pose proof (po_i _ _ _ _ _ Hp). pose proof (po_i _ _ _ _ _ Hq). split_and!.
  - exists (printed (ping c) + printed (pong c)). split; [|done]. unfold printed.
    assert (finished (at_ (ping c)) = false -> had (at_ (ping c)) = 1 -> i (ping c) < 1000) as G1.
    { intros ? Eh. apply (po_more _ _ _ _ _ Hp); [by intros E; rewrite E in Eh|done]. }
    assert (finished (at_ (pong c)) = false -> had (at_ (pong c)) = 1 -> i (pong c) < 1000) as G2.
    { intros ? Eh. apply (po_more _ _ _ _ _ Hq); [by intros E; rewrite E in Eh|done]. }
    destruct (at_ (ping c)), (at_ (pong c)); cbn in *; lia.
  - intros Ep Eq. rewrite Hscr. unfold printed. rewrite (po_done _ _ _ _ _ Hp Ep), (po_done _ _ _ _ _ Hq Eq).
    by destruct (at_ (ping c)), (at_ (pong c)).
  - intros Hsw Hcur. apply (advance_returns s1 w a Ping (kern c) (ping c) (screen c) (putBusy c) s2); try done;
      try (apply Hsome; unfold ours; auto). intros Eat. rewrite Eat in *. cbn in *. destruct (putBusy c); [cbn in E4; lia|done].
  - intros Hsw Hcur. apply (advance_returns s2 w a Pong (kern c) (pong c) (screen c) (putBusy c) s1); try done;
      try (apply Hsome; unfold ours; auto). intros Eat. rewrite Eat in *. cbn in *. destruct (putBusy c); [cbn in E4; lia|done].
  - intros Hnot. destruct (no_deadlock s1 s2 w a Hne c Hc Hnot) as [?|[?|Hb]]; [auto..|]. right. right. split; [done|].
    destruct (Hsome a ltac:(unfold ours; auto)) as [m Hm]. destruct (V_spec (kern c) a m Hi Hm) as (k' & HV & _).
    exists k'. split; [done|]. split; [by apply write_done|].
    pose proof (write_done_inv s1 s2 w a Hne c k' (halted c) Hc Hb HV) as Hc'.
    by destruct (no_deadlock s1 s2 w a Hne _ Hc' Hnot) as [?|[?|?]]; [left|right|].
Qed.

(** Ping gets the CPU from the main thread and prints its first letter. *)
Definition table0 : STable := match new_STable [0] with Ok T => T | _ => mkSTable (mkBitMap 0 0 []) [] end.
Definition k_console : kernel STable :=
  Eval vm_compute in set_semaphores (boot table0) (<[3 := new_Semaphore 1]> (<[4 := new_Semaphore 0]> (semaphores (boot table0)))).
Definition k_start : kernel STable :=
  Eval vm_compute in match PingPong k_console 1 2 5 6 with Ok (Some k) => k | _ => boot table0 end.
Definition k_ping : kernel STable :=
  Eval vm_compute in match Yield keep_user keep_user k_start 0 with Ok k => k | _ => k_start end.
Definition k_taken : kernel STable :=
  Eval vm_compute in match Wait k_ping 5 (txt "First") with Ok (_, k) => k | _ => k_ping end.
Definition k_line : kernel STable :=
  Eval vm_compute in match P k_taken 5 3 with Ok k => k | _ => k_ping end.
Definition k_writing : kernel STable :=
  Eval vm_compute in match P k_line 5 4 with Ok k => k | _ => k_ping end.
Definition at_place (k : kernel STable) (p : place) (scr : list Z) (b : bool) : config :=
  mkConfig k (mkProcess 5 0 p) (mkProcess 6 0 AtFor) scr b false.
Definition first_letter : config := at_place k_writing InWait [65] true.
Lemma first_letter_reachable : pp_reachable 1 2 3 4 (started k_start 5 6) first_letter.
Proof.
  apply (pp_more _ _ _ _ _ (at_place k_line AtWait [65] true)); [|reflexivity|by apply ping_runs].
  apply (pp_more _ _ _ _ _ (at_place k_line AtPut [] false)); [|reflexivity|by apply ping_runs].
  apply (pp_more _ _ _ _ _ (at_place k_taken AtLine [] false)); [|reflexivity|by apply ping_runs].
  apply (pp_more _ _ _ _ _ (at_place k_ping AtDown [] false)); [|reflexivity|by apply ping_runs].
  apply (pp_more _ _ _ _ _ (at_place k_ping AtFor [] false)); [|reflexivity|by apply ping_runs].
  apply (pp_more _ _ _ _ _ (started k_start 5 6)); [apply pp_refl|reflexivity|].
  apply (time_slice 1 2 3 4 (started k_start 5 6) k_ping (mkThread RUNNING 0 None Normal)); reflexivity.
Qed.
Lemma k_console_inv : Inv k_console.
Proof.
  pose (k4 := set_semaphores (boot table0) (<[4 := new_Semaphore 0]> (semaphores (boot table0)))).
  assert (Inv k4) as Hi by (eapply (step_inv keep_user keep_user); [apply boot_inv|by apply step_new_sem]).
  exact (step_inv keep_user keep_user k4 _ Hi (step_new_sem keep_user keep_user k4 3 1 eq_refl)).
Qed.
Lemma ping_pong_witness :
  (exists n, 0 <= n <= 2000 /\ screen first_letter = alternating n) /\
  (can_run (kern first_letter) (ping first_letter) \/ can_run (kern first_letter) (pong first_letter) \/
   putBusy first_letter = true).
Proof.
  destruct (new_STable_ok [0]) as (T & HT & HTok & _); [reflexivity|repeat constructor; unfold is_uint, two32; lia|].
  assert (T = table0) as -> by (unfold table0; by rewrite HT).
  destruct (ping_pong k_console 1 2 3 4 5 6 k_start first_letter) as (H1 & _ & _ & _ & H5).
  - exact k_console_inv.
  - exact HTok.
  - split; [apply (bool_decide_unpack _); vm_compute; exact I|done| |done|].
    { split_and!; [by eexists|reflexivity|by eexists|reflexivity]. }
    intros t th x _ Hth. change (threads k_console) with (threads (boot table0)) in Hth. cbn [boot threads] in Hth.
    apply lookup_singleton_Some in Hth as [<- <-]. done.
  - vm_compute. reflexivity.
  - exact first_letter_reachable.
  - split; [exact H1|]. destruct (H5 eq_refl) as [?|[?|[? _]]]; auto.
Defined.
