(* ===== verification/Stacks.v ===== *)
(** * c++example/: the stacks of the C++ introduction

    [inheritstack.h] declares an abstract class [Stack] with two
    implementations, [ArrayStack] and [ListStack], and one [SelfTest] for all of
    them; [stack.cc] and [templatestack.cc] are the array stack again, the
    second for any element type, and [list.cc] is the list under [ListStack].
    The abstract class is a type class, [SelfTest] is written against it, and
    what it promises is the class [StackLaws]: a stack holds a sequence, up to
    a capacity. *)

From S2P Require Import Prelude.
From stdpp Require Import gmap list sets.
#[local] Open Scope Z_scope.

(** ** inheritstack.h: the abstract class *)

Class Stack (W T : Type) := {
  Push : T -> st W unit;
  Pop : st W T;
  Full : st W bool;
  Empty : st W bool
}.

(** What a test prints. *)
Inductive line (T : Type) := pushing (v : T) | popping (v : T).
Arguments pushing {T} v.
Arguments popping {T} v.
#[export] Instance line_eq_dec {T} `{EqDecision T} : EqDecision (line T).
Proof. solve_decision. Defined.

Section SelfTest.
Context {W T : Type} `{!Stack W T} (incr : T -> T).

Definition on {A} (m : st W A) : st (W * list (line T)) A := fun w =>
  '(a, s) ← m w.1; Ok (a, (s, w.2)).
Definition print (l : line T) : st (W * list (line T)) unit := fun w => Ok (tt, (w.1, w.2 ++ [l])).

(** [while (!Empty()) cout << "popping " << Pop();] *)
Fixpoint pop_all (fuel : nat) : st (W * list (line T)) unit :=
  match fuel with
  | O => fun _ => NoFuel
  | S f =>
      e ← on Empty;
      if (e : bool) then mret tt else v ← on Pop; print (popping v);; pop_all f
  end.
(** The first loop of the test of [inheritstack.cc]; the result is [count]. *)
Definition push_count (numToPush : Z) (start : T) : st (W * list (line T)) T :=
  for_st 0 numToPush (fun _ count =>
    f ← on Full;
    assert_ (negb f);;
    print (pushing count);;
    on (Push count);;
    mret (incr count)) start.
(** The first loop of the test of [stack.cc]: [while (!Full())]. *)
Fixpoint push_full (fuel : nat) (count : T) : st (W * list (line T)) unit :=
  match fuel with
  | O => fun _ => NoFuel
  | S f =>
      b ← on Full;
      if (b : bool) then mret tt else print (pushing count);; on (Push count);; push_full f (incr count)
  end.

(** [Stack::SelfTest(int numToPush)] of inheritstack.cc, from [start] (17 there). *)
Definition SelfTest (fuel : nat) (numToPush : Z) (start : T) : st (W * list (line T)) unit :=
  push_count numToPush start;; pop_all fuel.
(** [Stack::SelfTest()] of stack.cc and [SelfTest(T start)] of templatestack.cc. *)
Definition SelfTestFull (fuel : nat) (start : T) : st (W * list (line T)) unit :=
  push_full fuel start;; pop_all fuel.
End SelfTest.

(** ** stack.cc, templatestack.cc, ArrayStack *)

Section array.
Context {T : Type}.

Record ArrayStack := mkArrayStack { size : Z; top : Z; stack : list T }.

(** [junk] is what [new T[size]] holds. *)
Definition new_ArrayStack (junk : list T) (sz : Z) : res ArrayStack :=
  ASSERT (1 <=? sz); Ok (mkArrayStack sz 0 junk).
Definition ArrayStack_Full : st ArrayStack bool := fun s => Ok (top s =? size s, s).
Definition ArrayStack_Empty : st ArrayStack bool := fun s => Ok (top s =? 0, s).
Definition ArrayStack_Push (value : T) : st ArrayStack unit := fun s =>
  '(f, s) ← ArrayStack_Full s;
  ASSERT (negb f);
  a ← wr (stack s) (top s) value;
  Ok (tt, mkArrayStack (size s) (top s + 1) a).
Definition ArrayStack_Pop : st ArrayStack T := fun s =>
  '(e, s) ← ArrayStack_Empty s;
  ASSERT (negb e);
  v ← rd (stack s) (top s - 1);
  Ok (v, mkArrayStack (size s) (top s - 1) (stack s)).
#[export] Instance ArrayStack_ops : Stack ArrayStack T := {|
  Push := ArrayStack_Push; Pop := ArrayStack_Pop; Full := ArrayStack_Full; Empty := ArrayStack_Empty |}.
End array.
Arguments ArrayStack : clear implicits.

(** ** list.cc *)

Record ListElement := mkListElement { next : option positive; item : Z }.
Record heap := mkHeap { cells : gmap positive ListElement; brk : positive }.
Record List := mkList { first : option positive; last : option positive }.

Definition new_List : List := mkList None None.
(** [*p]; NULL and freed elements are undefined. *)
Definition element (h : heap) (p : option positive) : res ListElement :=
  match p with
  | Some a => match cells h !! a with Some e => Ok e | None => UB end
  | None => UB
  end.
(** [new ListElement(value)] and [delete element] *)
Definition new_ListElement (value : Z) (h : heap) : positive * heap :=
  (brk h, mkHeap (<[brk h := mkListElement None value]> (cells h)) (Pos.succ (brk h))).
Definition delete_ListElement (p : option positive) (h : heap) : res heap :=
  _ ← element h p;
  match p with Some a => Ok (mkHeap (delete a (cells h)) (brk h)) | None => UB end.
Definition set_next (p q : option positive) (h : heap) : res heap :=
  e ← element h p;
  match p with Some a => Ok (mkHeap (<[a := mkListElement q (item e)]> (cells h)) (brk h)) | None => UB end.

Definition List_Empty (l : List) : bool := bool_decide (first l = None).
Definition Prepend (value : Z) : st (List * heap) unit := fun '(l, h) =>
  let '(a, h) := new_ListElement value h in
  if List_Empty l then Ok (tt, (mkList (Some a) (Some a), h))
  else h ← set_next (Some a) (first l) h; Ok (tt, (mkList (Some a) (last l), h)).
Definition Remove : st (List * heap) Z := fun '(l, h) =>
  ASSERT (negb (List_Empty l));
  let elem := first l in
  e ← element h (first l);
  l' ← (if bool_decide (first l = last l) then Ok (mkList None None) else Ok (mkList (next e) (last l)));
  h ← delete_ListElement elem h;
  Ok (item e, (l', h)).
(** [List::~List]: [while (!Empty()) (void) Remove();] *)
Fixpoint delete_List (fuel : nat) : st (List * heap) unit :=
  match fuel with
  | O => fun _ => NoFuel
  | S f => fun w => if List_Empty w.1 then Ok (tt, w) else (Remove;; delete_List f) w
  end.

(** ** ListStack *)

Definition ListStack : Type := List * heap.
Definition new_ListStack (h : heap) : ListStack := (new_List, h).
Definition ListStack_Full : st ListStack bool := mret false.
Definition ListStack_Empty : st ListStack bool := fun s => Ok (List_Empty s.1, s).
Definition ListStack_Push (value : Z) : st ListStack unit := Prepend value.
Definition ListStack_Pop : st ListStack Z :=
  e ← ListStack_Empty; assert_ (negb e);; Remove.
#[export] Instance ListStack_ops : Stack ListStack Z := {|
  Push := ListStack_Push; Pop := ListStack_Pop; Full := ListStack_Full; Empty := ListStack_Empty |}.

(** ** main of stack.cc, of inheritstack.cc and of templatestack.cc *)

Definition stack_main (junk : list Z) : res (list (line Z)) :=
  s ← new_ArrayStack junk 10;
  '(_, (_, out)) ← SelfTestFull (fun n => to_int (n + 1)) 11 17 (s, []);
  Ok out.

Definition Stack_main (junk : list Z) (h : heap) : res (list (line Z) * list (line Z) * heap) :=
  s1 ← new_ArrayStack junk 10;
  let s2 := new_ListStack h in
  '(_, (_, out1)) ← SelfTest (fun n => to_int (n + 1)) 11 10 17 (s1, []);
  '(_, (s2, out2)) ← SelfTest (fun n => to_int (n + 1)) 11 10 17 (s2, []);
  '(_, (_, h)) ← delete_List 11 s2;
  Ok (out1, out2, h).
Definition template_main (junk1 junk2 : list Z) : res (list (line Z) * list (line Z)) :=
  s1 ← new_ArrayStack junk1 10;
  s2 ← new_ArrayStack junk2 10;
  '(_, (_, out1)) ← SelfTestFull (fun n => to_int (n + 1)) 11 17 (s1, []);
  '(_, (_, out2)) ← SelfTestFull (fun c => to_char (c + 1)) 11 97 (s2, []);
  Ok (out1, out2).

(** ** What the abstract class promises *)

(** [holds xs s]: the stack [s] holds [xs], the value on top first, of at most
    [capacity] values. *)
Class StackLaws {W T} `{!Stack W T} (holds : list T -> W -> Prop) (capacity : option Z) : Prop := {
  holds_fits xs s : holds xs s -> from_option (fun n => zlen xs <= n) True capacity;
  Full_law xs s : holds xs s -> Full s = Ok (from_option (fun n => zlen xs =? n) false capacity, s);
  Empty_law xs s : holds xs s -> Empty s = Ok (bool_decide (xs = []), s);
  Push_law xs s v : holds xs s -> from_option (fun n => zlen xs < n) True capacity ->
    exists s', Push v s = Ok (tt, s') /\ holds (v :: xs) s';
  Push_fails xs s v n : holds xs s -> capacity = Some n -> zlen xs = n -> Push v s = AssertFail;
  Pop_law xs s v : holds (v :: xs) s -> exists s', Pop s = Ok (v, s') /\ holds xs s';
  Pop_fails s : holds [] s -> Pop s = AssertFail
}.

Fixpoint counts {T} (incr : T -> T) (n : nat) (c : T) : list T :=
  match n with O => [] | S n' => c :: counts incr n' (incr c) end.

Section laws.
Context {W T : Type} `{!Stack W T} (holds : list T -> W -> Prop) (capacity : option Z) `{!StackLaws holds capacity}.
Context (incr : T -> T).

Lemma on_Ok {A} (m : st W A) s (o : list (line T)) a s' : m s = Ok (a, s') -> on m (s, o) = Ok (a, (s', o)).
Proof. intros E. unfold on. simpl. by rewrite E. Qed.

Lemma pop_all_spec xs : forall fuel s o,
  holds xs s -> (length xs < fuel)%nat ->
  exists s', pop_all fuel (s, o) = Ok (tt, (s', o ++ (popping <$> xs))) /\ holds [] s'.
Proof.
  induction xs as [|v xs IH]; intros [|fuel] s o Hh Hf; try (simpl in Hf; lia); cbn [pop_all];
    rewrite (st_bind_Ok _ _ _ _ _ (on_Ok _ _ _ _ _ (Empty_law _ _ Hh))).
  - rewrite bool_decide_true by done. exists s. rewrite fmap_nil, app_nil_r. done.
  - rewrite bool_decide_false by done. destruct (Pop_law _ _ _ Hh) as (s1 & Hp & Hh1).
    rewrite (st_bind_Ok _ _ _ _ _ (on_Ok _ _ _ _ _ Hp)). rewrite (st_bind_Ok _ _ _ tt (s1, o ++ [popping v])) by done.
    destruct (IH fuel s1 (o ++ [popping v]) Hh1) as (s' & -> & Hh'); [simpl in Hf; lia|].
    exists s'. by rewrite fmap_cons, <-app_assoc.
Qed.
(** A round of the first loops: the value is shown and pushed. *)
Lemma push_one {B} xs s o v (k : unit -> st (W * list (line T)) B) :
  holds xs s -> from_option (fun n => zlen xs < n) True capacity ->
  exists s', holds (v :: xs) s' /\
    (print (pushing v);; on (Push v);; k tt) (s, o) = k tt (s', o ++ [pushing v]).
Proof.
  intros Hh Hroom. destruct (Push_law _ _ v Hh Hroom) as (s' & Hp & Hh'). exists s'. split; [done|].
  rewrite (st_bind_Ok _ _ _ tt (s, o ++ [pushing v])) by done. by rewrite (st_bind_Ok _ _ _ _ _ (on_Ok _ _ _ _ _ Hp)).
Qed.
Lemma push_count_spec n : forall lo c xs s o,
  holds xs s -> from_option (fun m => zlen xs + Z.of_nat n <= m) True capacity ->
  exists c' s', for_st_n n lo (fun _ count =>
      f ← on Full; assert_ (negb f);; print (pushing count);; on (Push count);; mret (incr count)) c (s, o) =
    Ok (c', (s', o ++ (pushing <$> counts incr n c))) /\ holds (reverse (counts incr n c) ++ xs) s'.
Proof.
  induction n as [|n IH]; intros lo c xs s o Hh Hcap; cbn [for_st_n counts].
  - exists c, s. rewrite app_nil_r. done.
  - assert (from_option (fun m => zlen xs < m) True capacity) as Hroom by (destruct capacity; simpl in *; lia).
    unfold mbind at 1, st_bind at 1. rewrite (st_bind_Ok _ _ _ _ _ (on_Ok _ _ _ _ _ (Full_law _ _ Hh))).
    rewrite (st_bind_Ok _ _ _ tt (s, o)) by (destruct capacity as [m|]; [|done]; simpl in *; by rewrite (proj2 (Z.eqb_neq _ _)) by lia).
    destruct (push_one xs s o c (fun _ => mret (incr c)) Hh Hroom) as (s1 & Hh1 & ->). cbn [mret st_ret].
    destruct (IH (lo + 1) (incr c) (c :: xs) s1 (o ++ [pushing c]) Hh1) as (c' & s' & -> & Hh').
    { destruct capacity; [|done]. simpl in *. unfold zlen in *. simpl. lia. }
    exists c', s'. rewrite fmap_cons, <-app_assoc, reverse_cons, <-app_assoc. done.
Qed.
(** [while (!Full())] ends when the capacity is reached. *)
Lemma push_full_spec m n : forall fuel c xs s o,
  capacity = Some m -> holds xs s -> zlen xs + Z.of_nat n = m -> (n < fuel)%nat ->
  exists s', push_full incr fuel c (s, o) = Ok (tt, (s', o ++ (pushing <$> counts incr n c))) /\
    holds (reverse (counts incr n c) ++ xs) s'.
Proof.
  induction n as [|n IH]; intros [|fuel] c xs s o Hcap Hh Hlen Hf; try lia; cbn [push_full counts];
    rewrite (st_bind_Ok _ _ _ _ _ (on_Ok _ _ _ _ _ (Full_law _ _ Hh))), Hcap; cbn [from_option].
  - rewrite (proj2 (Z.eqb_eq _ _)) by lia. exists s. by rewrite app_nil_r.
  - rewrite (proj2 (Z.eqb_neq _ _)) by lia.
    destruct (push_one xs s o c (fun _ => push_full incr fuel (incr c)) Hh) as (s1 & Hh1 & ->); [rewrite Hcap; simpl; lia|].
    destruct (IH fuel (incr c) (c :: xs) s1 (o ++ [pushing c]) Hcap Hh1) as (s' & -> & Hh');
      [unfold zlen in *; simpl; lia|lia|].
    exists s'. by rewrite fmap_cons, <-app_assoc, reverse_cons, <-app_assoc.
Qed.

(** What a test that pushes [n] values prints. *)
Definition test_output (n : nat) (start : T) : list (line T) :=
  (pushing <$> counts incr n start) ++ (popping <$> reverse (counts incr n start)).
Lemma length_counts n c : length (counts incr n c) = n.
Proof. revert c. induction n as [|n IH]; intros c; simpl; [done|]. by rewrite IH. Qed.

Lemma SelfTest_spec n start fuel s :
  holds [] s -> from_option (fun m => Z.of_nat n <= m) True capacity -> (n < fuel)%nat ->
  exists s', SelfTest incr fuel (Z.of_nat n) start (s, []) = Ok (tt, (s', test_output n start)) /\ holds [] s'.
Proof.
  intros Hh Hcap Hf. unfold SelfTest, push_count, for_st. rewrite Z.sub_0_r, Nat2Z.id.
  destruct (push_count_spec n 0 start [] s [] Hh) as (c' & s1 & E & Hh1); [by destruct capacity|].
  rewrite (st_bind_Ok _ _ _ _ _ E). rewrite app_nil_r in Hh1.
  apply pop_all_spec; [done|]. by rewrite length_reverse, length_counts.
Qed.
Lemma SelfTestFull_spec m start fuel s :
  capacity = Some m -> holds [] s -> (Z.to_nat m < fuel)%nat ->
  exists s', SelfTestFull incr fuel start (s, []) = Ok (tt, (s', test_output (Z.to_nat m) start)) /\ holds [] s'.
Proof.
  intros Hcap Hh Hf. pose proof (holds_fits _ _ Hh) as Hm. rewrite Hcap in Hm. simpl in Hm. unfold SelfTestFull.
  destruct (push_full_spec m (Z.to_nat m) fuel start [] s [] Hcap Hh) as (s1 & E & Hh1); [unfold zlen in *; simpl in *; lia|lia|].
  rewrite (st_bind_Ok _ _ _ _ _ E). rewrite app_nil_r in Hh1.
  apply pop_all_spec; [done|]. by rewrite length_reverse, length_counts.
Qed.
End laws.

(** ** The array stack keeps the promise *)

Definition array_holds {T} (sz : Z) (xs : list T) (s : ArrayStack T) : Prop :=
  size s = sz /\ top s = zlen xs /\ zlen (stack s) = sz /\ zlen xs <= sz /\
  take (length xs) (stack s) = reverse xs.

Lemma array_push {T} (a : list T) xs v :
  zlen xs < zlen a -> take (length xs) a = reverse xs ->
  exists a', wr a (zlen xs) v = Ok a' /\ zlen a' = zlen a /\ take (S (length xs)) a' = reverse (v :: xs).
Proof.
  intros Hlt Ht. unfold zlen in *. rewrite wr_Ok by (unfold zlen; lia). eexists. split; [done|].
  unfold zset. rewrite decide_True by lia. rewrite Nat2Z.id, length_insert. split; [done|].
  rewrite (take_S_r _ _ v) by (apply list_lookup_insert_eq; lia).
  by rewrite take_insert_ge, Ht, reverse_cons by lia.
Qed.
Lemma array_pop {T} (a : list T) xs v :
  take (S (length xs)) a = reverse (v :: xs) ->
  rd a (zlen xs) = Ok v /\ take (length xs) a = reverse xs.
Proof.
  intros Ht. rewrite reverse_cons in Ht.
  assert (length a >= S (length xs))%nat as Hl.
  { apply (f_equal length) in Ht. rewrite length_take, length_app, length_reverse in Ht. cbn [length] in Ht. lia. }
  destruct (lookup_lt_is_Some_2 a (length xs)) as [x Hx]; [lia|]. rewrite (take_S_r _ _ _ Hx) in Ht.
  apply app_inj_tail in Ht as [Ht ->]. split; [|done]. apply rd_Ok. unfold zlen. by rewrite zget_nat.
Qed.
#[export] Instance ArrayStack_laws {T} (sz : Z) : StackLaws (@array_holds T sz) (Some sz).
Proof.
  split; unfold array_holds; cbn [from_option].
  - by intros xs s (_ & _ & _ & ? & _).
  - intros xs s (Hs & Ht & _). cbn. unfold ArrayStack_Full. by rewrite Hs, Ht.
  - intros xs s (_ & Ht & _). cbn. unfold ArrayStack_Empty. rewrite Ht. do 2 f_equal.
    destruct xs; [done|]. rewrite bool_decide_false by done. apply Z.eqb_neq. unfold zlen. simpl. lia.
  - intros xs s v (Hs & Ht & Hl & _ & Hx) Hlt. cbn. unfold ArrayStack_Push, ArrayStack_Full. cbn [mbind res_bind].
    rewrite Hs, Ht, (proj2 (Z.eqb_neq (zlen xs) sz)) by lia. cbn [negb].
    destruct (array_push (stack s) xs v) as (a & -> & Hla & Hta); [lia|done|]. cbn [mbind res_bind].
    eexists. split; [done|]. cbn [size top stack]. unfold zlen in *. simpl length in *. split_and!; try done; lia.
  - intros xs s v n (Hs & Ht & _) [= <-] Hf. cbn. unfold ArrayStack_Push, ArrayStack_Full. cbn [mbind res_bind].
    by rewrite Hs, Ht, (proj2 (Z.eqb_eq (zlen xs) sz)) by lia.
  - intros xs s v (Hs & Ht & Hl & Hle & Hx). destruct (array_pop _ _ _ Hx) as [Hr Hx'].
    cbn. unfold ArrayStack_Pop, ArrayStack_Empty. cbn [mbind res_bind].
    assert (zlen (v :: xs) = zlen xs + 1) as E by (unfold zlen; simpl; lia).
    rewrite Ht, E, (proj2 (Z.eqb_neq (zlen xs + 1) 0)) by (unfold zlen; lia). cbn [negb].
    replace (zlen xs + 1 - 1) with (zlen xs) by lia. rewrite Hr. cbn [mbind res_bind]. eexists. split; [done|].
    cbn [size top stack]. split_and!; try done; lia.
  - intros s (_ & Ht & _). cbn. unfold ArrayStack_Pop, ArrayStack_Empty. cbn [mbind res_bind]. by rewrite Ht.
Qed.
Lemma new_ArrayStack_holds {T} (junk : list T) sz :
  1 <= sz -> zlen junk = sz -> exists s, new_ArrayStack junk sz = Ok s /\ array_holds sz [] s.
Proof.
  intros Hsz Hl. unfold new_ArrayStack. rewrite (proj2 (Z.leb_le _ _)) by done. eexists. split; [done|].
  split_and!; try done; simpl; unfold zlen; simpl; lia.
Qed.

(** ** The list stack keeps the promise *)

(** The elements at [ls], linked from [p], hold [xs]. *)
Fixpoint chain (m : gmap positive ListElement) (p : option positive) (ls : list positive) (xs : list Z) : Prop :=
  match ls, xs with
  | [], [] => p = None
  | a :: ls', x :: xs' => p = Some a /\ exists q, m !! a = Some (mkListElement q x) /\ chain m q ls' xs'
  | _, _ => False
  end.
Lemma chain_ext m m' ls : forall p xs,
  chain m p ls xs -> (forall a, a ∈ ls -> m' !! a = m !! a) -> chain m' p ls xs.
Proof.
  induction ls as [|a ls IH]; intros p [|x xs] Hc Hm; try done. destruct Hc as (-> & q & Ha & Hc). split; [done|].
  exists q. rewrite Hm by set_solver. split; [done|]. apply IH; [done|]. intros b Hb. apply Hm. set_solver.
Qed.

(** [m0] is the rest of the heap: other objects, which the stack leaves alone. *)
Record list_at (m0 : gmap positive ListElement) (ls : list positive) (xs : list Z) (w : ListStack) : Prop := {
  la_chain : chain (cells w.2) (first w.1) ls xs;
  la_nodup : NoDup ls;
  la_last : last w.1 = list.last ls;
  la_rest a : a ∉ ls -> cells w.2 !! a = m0 !! a;
  la_own a : a ∈ ls -> m0 !! a = None;
  la_fresh a : (brk w.2 <= a)%positive -> cells w.2 !! a = None
}.
Definition list_holds (m0 : gmap positive ListElement) (xs : list Z) (w : ListStack) : Prop := exists ls, list_at m0 ls xs w.

Lemma List_Empty_spec m0 ls xs w : list_at m0 ls xs w -> List_Empty w.1 = bool_decide (xs = []).
Proof.
  intros Hl. pose proof (la_chain _ _ _ _ Hl) as Hc. unfold List_Empty.
  destruct ls as [|a ls], xs as [|x xs]; simpl in Hc; try done; [by rewrite Hc|]. by destruct Hc as [-> _].
Qed.
Lemma Prepend_spec m0 ls xs w v :
  list_at m0 ls xs w -> exists w', Prepend v w = Ok (tt, w') /\ list_at m0 (brk w.2 :: ls) (v :: xs) w'.
Proof.
  intros Hl. pose proof (List_Empty_spec _ _ _ _ Hl) as He. destruct w as [l h]; cbn [fst snd] in *.
  destruct Hl as [Hc Hnd Hla Hr Ho Hf]; cbn [fst snd] in *.
  assert (brk h ∉ ls) as Hni.
  { intros Hin. clear -Hc Hin Hf. revert Hc. generalize (first l). revert xs.
    induction ls as [|a ls IH]; intros xs p Hc; [by apply elem_of_nil in Hin|]. destruct xs as [|x xs]; [done|].
    destruct Hc as (_ & q & Ha & Hc). apply elem_of_cons in Hin as [<-|Hin]; [|by eapply IH].
    rewrite Hf in Ha by lia. done. }
  assert (forall q, list_at m0 (brk h :: ls) (v :: xs)
    (mkList (Some (brk h)) (list.last (brk h :: ls)),
     mkHeap (<[brk h := mkListElement q v]> (cells h)) (Pos.succ (brk h))) \/ q <> first l) as Hnew.
  { intros q. destruct (decide (q = first l)) as [->|]; [left|by right]. split; cbn [fst snd first last cells brk]; try done.
    - split; [done|]. exists (first l). rewrite lookup_insert_eq. split; [done|].
      eapply chain_ext; [exact Hc|]. intros a Ha. apply lookup_insert_ne. by intros <-.
    - by constructor.
    - intros a [Hne Ha]%not_elem_of_cons. rewrite lookup_insert_ne by done. by apply Hr.
    - intros a [->|Ha]%elem_of_cons; [|by apply Ho]. rewrite <-Hr by done. apply Hf. lia.
    - intros a Ha. rewrite lookup_insert_ne by lia. apply Hf. lia. }
  unfold Prepend, new_ListElement. rewrite He. destruct xs as [|x xs].
  - destruct ls as [|? ?]; [|done]. rewrite bool_decide_true by done. eexists. split; [done|].
    destruct (Hnew None) as [H|H]; [exact H|]. simpl in Hc. congruence.
  - rewrite bool_decide_false by done. destruct ls as [|a ls]; [done|].
    unfold set_next, element. cbn [cells]. rewrite lookup_insert_eq. cbn [mbind res_bind item cells brk].
    rewrite insert_insert_eq. eexists. split; [done|]. rewrite Hla. rewrite last_cons_cons in Hnew.
    destruct (Hnew (first l)) as [H|H]; [exact H|done].
Qed.
Lemma List_Remove_spec m0 ls a xs v w :
  list_at m0 (a :: ls) (v :: xs) w -> exists w', Remove w = Ok (v, w') /\ list_at m0 ls xs w'.
Proof.
  intros Hl. pose proof (List_Empty_spec _ _ _ _ Hl) as He. destruct w as [l h]; cbn [fst snd] in *.
  destruct Hl as [(Hfst & q & Ha & Hc) Hnd Hla Hr Ho Hf]; cbn [fst snd] in *. apply NoDup_cons in Hnd as [Hni Hnd].
  unfold Remove. rewrite He, bool_decide_false by done. cbn [negb]. unfold delete_ListElement, element. rewrite Hfst, Ha.
  cbn [mbind res_bind next item].
  assert (forall l', first l' = q -> last l' = list.last ls ->
    list_at m0 ls xs (l', mkHeap (delete a (cells h)) (brk h))) as Hnew.
  { intros l' E1 E2. split; cbn [fst snd cells brk]; try done.
    - rewrite E1. eapply chain_ext; [exact Hc|]. intros b Hb. apply lookup_delete_ne. by intros ->.
    - intros b Hb. destruct (decide (b = a)) as [->|].
      + rewrite lookup_delete_eq. symmetry. apply Ho. set_solver.
      + rewrite lookup_delete_ne by done. apply Hr. set_solver.
    - intros b Hb. apply Ho. set_solver.
    - intros b Hb. apply lookup_delete_None. right. by apply Hf. }
  rewrite Hla. destruct ls as [|b ls].
  - rewrite last_singleton, bool_decide_true by done. cbn [mbind res_bind]. eexists. split; [done|]. apply Hnew; [|done].
    by destruct xs.
  - rewrite last_cons_cons. rewrite bool_decide_false.
    + cbn [mbind res_bind]. eexists. split; [done|]. by apply Hnew.
    + intros E. symmetry in E. apply last_Some in E as [l' E]. apply Hni. rewrite E. set_solver.
Qed.
#[export] Instance ListStack_laws m0 : StackLaws (list_holds m0) None.
Proof.
  split; cbn [from_option]; try done.
  - intros xs s [ls Hl]. cbn. unfold ListStack_Empty. by rewrite (List_Empty_spec _ _ _ _ Hl).
  - intros xs s v [ls Hl] _. destruct (Prepend_spec _ _ _ _ v Hl) as (w' & E & Hl'). exists w'. split; [exact E|]. by eexists.
  - intros xs s v [[|a ls] Hl]; [by destruct (la_chain _ _ _ _ Hl)|].
    destruct (List_Remove_spec _ _ _ _ _ _ Hl) as (w' & E & Hl'). exists w'. cbn. unfold ListStack_Pop.
    rewrite (st_bind_Ok _ _ _ (List_Empty s.1) s) by done. rewrite (List_Empty_spec _ _ _ _ Hl), bool_decide_false by done.
    rewrite (st_bind_Ok _ _ _ tt s) by done. split; [exact E|]. by eexists.
  - intros s [ls Hl]. cbn. unfold ListStack_Pop. rewrite (st_bind_Ok _ _ _ (List_Empty s.1) s) by done.
    by rewrite (List_Empty_spec _ _ _ _ Hl).
Qed.
Lemma new_ListStack_holds h :
  (forall a, (brk h <= a)%positive -> cells h !! a = None) -> list_holds (cells h) [] (new_ListStack h).
Proof. intros Hf. exists []. split; try done; [constructor|set_solver]. Qed.
(** [~List] gives back every element. *)
Lemma delete_List_spec m0 xs : forall fuel w,
  list_holds m0 xs w -> (length xs < fuel)%nat ->
  exists w', delete_List fuel w = Ok (tt, w') /\ cells w'.2 = m0.
Proof.
  induction xs as [|v xs IH]; intros [|fuel] w [ls Hl] Hf; try (simpl in Hf; lia); cbn [delete_List];
    rewrite (List_Empty_spec _ _ _ _ Hl).
  - rewrite bool_decide_true by done. exists w. split; [done|]. apply map_eq. intros a. apply (la_rest _ _ _ _ Hl).
    pose proof (la_chain _ _ _ _ Hl). destruct ls; [set_solver|done].
  - rewrite bool_decide_false by done. destruct ls as [|a ls]; [by destruct (la_chain _ _ _ _ Hl)|].
    destruct (List_Remove_spec _ _ _ _ _ _ Hl) as (w1 & E & Hl1). rewrite (st_bind_Ok _ _ _ _ _ E).
    apply IH; [by eexists|simpl in Hf; lia].
Qed.

(** ** Programs that use a stack *)

Inductive op (T : Type) := DoPush (v : T) | DoPop | DoEmpty.
Arguments DoPush {T} v.
Arguments DoPop {T}.
Arguments DoEmpty {T}.

(** The answers of a sequence of calls. *)
Fixpoint calls {W T} `{!Stack W T} (ops : list (op T)) : st W (list (T + bool)) :=
  match ops with
  | [] => mret []
  | DoPush v :: ops' => Push v;; calls ops'
  | DoPop :: ops' => v ← Pop; r ← calls ops'; mret (inl v :: r)
  | DoEmpty :: ops' => e ← Empty; r ← calls ops'; mret (inr e :: r)
  end.
(** The same on a sequence of values. *)
Fixpoint answers {T} (ops : list (op T)) (xs : list T) : res (list (T + bool) * list T) :=
  match ops with
  | [] => Ok ([], xs)
  | DoPush v :: ops' => answers ops' (v :: xs)
  | DoPop :: ops' =>
      match xs with
      | [] => AssertFail
      | v :: xs' => '(r, ys) ← answers ops' xs'; Ok (inl v :: r, ys)
      end
  | DoEmpty :: ops' => '(r, ys) ← answers ops' xs; Ok (inr (bool_decide (xs = [])) :: r, ys)
  end.
(** The calls never make the stack hold more than [n] values. *)
Fixpoint within {T} (n : Z) (ops : list (op T)) (depth : Z) : bool :=
  match ops with
  | [] => true
  | DoPush _ :: ops' => (depth <? n) && within n ops' (depth + 1)
  | DoPop :: ops' => (depth =? 0) || within n ops' (depth - 1)
  | DoEmpty :: ops' => within n ops' depth
  end.

Lemma zlen_cons_1 {T} (v : T) xs : zlen (v :: xs) = zlen xs + 1.
Proof. unfold zlen. simpl. lia. Qed.
(** Every implementation of the class answers as the sequence does. *)
Lemma calls_spec {W T} `{!Stack W T} (holds : list T -> W -> Prop) capacity `{!StackLaws holds capacity} ops : forall xs s,
  holds xs s -> from_option (fun n => within n ops (zlen xs) = true) True capacity ->
  match answers ops xs with
  | Ok (r, ys) => exists s', calls ops s = Ok (r, s') /\ holds ys s'
  | AssertFail => calls ops s = AssertFail
  | _ => False
  end.
Proof.
  induction ops as [|[v| |] ops IH]; intros xs s Hh Hw; cbn [answers calls].
  - exists s. by split.
  - destruct (Push_law _ _ v Hh) as (s1 & E & Hh1).
    { destruct capacity; [|done]. simpl in *. apply andb_true_iff in Hw as [?%Z.ltb_lt _]. done. }
    specialize (IH _ _ Hh1). rewrite (st_bind_Ok _ _ _ _ _ E). apply IH.
    destruct capacity; [|done]. simpl in *. rewrite zlen_cons_1. by apply andb_true_iff in Hw as [_ ?].
  - destruct xs as [|v xs].
    + unfold mbind, st_bind. by rewrite (Pop_fails _ Hh).
    + destruct (Pop_law _ _ _ Hh) as (s1 & E & Hh1). specialize (IH _ _ Hh1). rewrite (st_bind_Ok _ _ _ _ _ E).
      assert (from_option (fun n => within n ops (zlen xs) = true) True capacity) as Hw'.
      { destruct capacity; [|done]. cbn [from_option within] in *. rewrite zlen_cons_1 in Hw. apply orb_true_iff in Hw as [?%Z.eqb_eq|Hw];
          [unfold zlen in *; lia|]. by replace (zlen xs + 1 - 1) with (zlen xs) in Hw by lia. }
      specialize (IH Hw'). destruct (answers ops xs) as [[r ys]| | | |]; cbn [mbind res_bind]; try done.
      * destruct IH as (s' & E' & Hh'). exists s'. split; [|done]. by rewrite (st_bind_Ok _ _ _ _ _ E').
      * unfold mbind, st_bind. by rewrite IH.
  - specialize (IH _ _ Hh Hw). rewrite (st_bind_Ok _ _ _ _ _ (Empty_law _ _ Hh)).
    destruct (answers ops xs) as [[r ys]| | | |]; cbn [mbind res_bind]; try done.
    + destruct IH as (s' & E' & Hh'). exists s'. split; [|done]. by rewrite (st_bind_Ok _ _ _ _ _ E').
    + unfold mbind, st_bind. by rewrite IH.
Qed.

(** ** Properties *)

(** The two stacks of inheritstack.cc cannot be told apart.  A program that
    pushes, pops and asks for emptiness, and never has more than [sz] values on
    the stack, gets from an [ArrayStack] of size [sz] and from a [ListStack] the
    same answers, those of a sequence of values, last in first out; a [Pop] of
    the empty stack fails its assertion in both.  Deleting the list stack
    afterwards gives back every element: the heap is what it was. *)
Theorem stacks_agree (ops : list (op Z)) (sz : Z) (junk : list Z) (h : heap) :
  1 <= sz -> zlen junk = sz -> within sz ops 0 = true ->
  (forall a, (brk h <= a)%positive -> cells h !! a = None) ->
  exists s, new_ArrayStack junk sz = Ok s /\
    match answers ops [] with
    | Ok (r, ys) => exists s' l' h', calls ops s = Ok (r, s') /\ calls ops (new_ListStack h) = Ok (r, (l', h')) /\
        exists w, delete_List (S (length ys)) (l', h') = Ok (tt, w) /\ cells w.2 = cells h
    | AssertFail => calls ops s = AssertFail /\ calls ops (new_ListStack h) = AssertFail
    | _ => False
    end.
Proof.
  intros Hsz Hj Hw Hf. destruct (new_ArrayStack_holds junk sz Hsz Hj) as (s & E & Hs). exists s. split; [done|].
  pose proof (calls_spec (array_holds sz) (Some sz) ops [] s Hs Hw) as Ha.
  pose proof (calls_spec (list_holds (cells h)) None ops [] _ (new_ListStack_holds h Hf) I) as Hl.
  destruct (answers ops []) as [[r ys]| | | |]; try done. destruct Ha as (s' & Ea & _). destruct Hl as ([l' h'] & El & Hh').
  exists s', l', h'. split_and!; [done|done|]. by apply (delete_List_spec (cells h) ys); [|lia].
Qed.
Definition small_heap : heap := mkHeap {[ 1%positive := mkListElement None 5 ]} 2%positive.
Lemma small_heap_fresh a : (brk small_heap <= a)%positive -> cells small_heap !! a = None.
Proof. intros Ha. apply lookup_singleton_ne. simpl in Ha. lia. Qed.
Lemma stacks_agree_witness :
  let ops := [DoPush 3; DoPush 4; DoPop; DoEmpty; DoPop; DoEmpty] in
  exists s s' l' h', new_ArrayStack [0; 0] 2 = Ok s /\
    calls ops s = Ok ([inl 4; inr false; inl 3; inr true], s') /\
    calls ops (new_ListStack small_heap) = Ok ([inl 4; inr false; inl 3; inr true], (l', h')).
Proof.
  intros ops. destruct (stacks_agree ops 2 [0; 0] small_heap) as (s & E & H);
    [lia|reflexivity|reflexivity|exact small_heap_fresh|].
  destruct H as (s' & l' & h' & H1 & H2 & _). exists s, s', l', h'. exact (conj E (conj H1 H2)).
Defined.

(** The self tests.  Whatever the memory of [new] holds: [main] of
    inheritstack.cc prints for both stacks the numbers 17 to 26 pushed and then
    popped in the opposite order and leaves the heap as it found it, [main] of
    stack.cc prints the same, and [main] of templatestack.cc prints it for the
    numbers and for the letters a to j. *)
Theorem self_tests_pass (junk junk1 junk2 : list Z) (h : heap) :
  zlen junk = 10 -> zlen junk1 = 10 -> zlen junk2 = 10 ->
  (forall a, (brk h <= a)%positive -> cells h !! a = None) ->
  let numbers := (pushing <$> seqZ 17 10) ++ (popping <$> reverse (seqZ 17 10)) in
  let letters := (pushing <$> seqZ 97 10) ++ (popping <$> reverse (seqZ 97 10)) in
  (exists h', Stack_main junk h = Ok (numbers, numbers, h') /\ cells h' = cells h) /\
  stack_main junk = Ok numbers /\ template_main junk1 junk2 = Ok (numbers, letters).
Proof.
  intros Hj Hj1 Hj2 Hf numbers letters. set (incr n := to_int (n + 1)). set (cincr c := to_char (c + 1)).
  assert (test_output incr 10 17 = numbers) as En by reflexivity.
  assert (test_output cincr 10 97 = letters) as El by reflexivity.
  destruct (new_ArrayStack_holds junk 10 ltac:(lia) Hj) as (s & Es & Hs).
  destruct (new_ArrayStack_holds junk1 10 ltac:(lia) Hj1) as (s1 & Es1 & Hs1).
  destruct (new_ArrayStack_holds junk2 10 ltac:(lia) Hj2) as (s2 & Es2 & Hs2). split_and!.
  - unfold Stack_main. rewrite Es. cbn [mbind res_bind]. fold incr.
    destruct (SelfTest_spec (array_holds 10) (Some 10) incr 10 17 11 s Hs) as (s' & E1 & _); [simpl; lia|lia|].
    change (Z.of_nat 10) with 10 in E1. rewrite E1, En. cbn [mbind res_bind].
    destruct (SelfTest_spec (list_holds (cells h)) None incr 10 17 11 _ (new_ListStack_holds h Hf)) as (l' & E2 & Hl'); [done|lia|].
    change (Z.of_nat 10) with 10 in E2. rewrite E2, En. cbn [mbind res_bind].
    destruct (delete_List_spec (cells h) [] 11 l' Hl') as ([l2 h2] & E3 & Hc); [simpl; lia|]. rewrite E3. cbn [mbind res_bind].
    by exists h2.
  - unfold stack_main. rewrite Es. cbn [mbind res_bind]. fold incr.
    destruct (SelfTestFull_spec (array_holds 10) (Some 10) incr 10 17 11 s eq_refl Hs) as (s' & E1 & _); [simpl; lia|].
    change (Z.to_nat 10) with 10%nat in E1. by rewrite E1, En.
  - unfold template_main. rewrite Es1. cbn [mbind res_bind]. rewrite Es2. cbn [mbind res_bind]. fold incr cincr.
    destruct (SelfTestFull_spec (array_holds 10) (Some 10) incr 10 17 11 s1 eq_refl Hs1) as (s1' & E1 & _); [simpl; lia|].
    change (Z.to_nat 10) with 10%nat in E1. rewrite E1, En. cbn [mbind res_bind].
    destruct (SelfTestFull_spec (array_holds 10) (Some 10) cincr 10 97 11 s2 eq_refl Hs2) as (s2' & E2 & _); [simpl; lia|].
    change (Z.to_nat 10) with 10%nat in E2. by rewrite E2, El.
Qed.
Lemma self_tests_pass_witness :
  exists h', Stack_main (replicate 10 7) small_heap =
    Ok ((pushing <$> seqZ 17 10) ++ (popping <$> reverse (seqZ 17 10)),
        (pushing <$> seqZ 17 10) ++ (popping <$> reverse (seqZ 17 10)), h') /\ cells h' = cells small_heap.
Proof.
  apply (self_tests_pass (replicate 10 7) (replicate 10 7) (replicate 10 7) small_heap);
    [reflexivity|reflexivity|reflexivity|exact small_heap_fresh].
Defined.
