(* ===== verification/UserState.v ===== *)
(** * Thread::SaveUserState, Thread::RestoreUserState, Scheduler::Run: one
    machine for many user programs

    The machine has one set of user registers and one page table; a thread that
    runs a user program saves the registers in its object when it loses the CPU
    and puts registers and page table back when it gets it again
    ([Scheduler::Run]).  This file gives the arguments [save_user] and
    [restore_user] of Threads their meaning and shows that every program has a
    processor of its own. *)

From S2P Require Import Prelude BitMap Interrupt Disk Threads Machine AddrSpace.
From stdpp Require Import gmap list.
#[local] Open Scope Z_scope.

(** The machine, and the members [userRegisters] and [space] of the threads; a
    thread without an entry in [space] has none ([space == NULL]). *)
Record users := mkUsers {
  machine : Machine;
  userRegisters : gmap Z (list Z);
  space : gmap Z AddrSpace
}.

Definition SaveUserState (t : Z) (e : users) : res users :=
  match userRegisters e !! t with
  | Some old =>
      r ← for_range 0 NumTotalRegs (fun i r => v ← ReadRegister (machine e) i; wr r i v) old;
      Ok (mkUsers (machine e) (<[t := r]> (userRegisters e)) (space e))
  | None => UB
  end.
Definition RestoreUserState (t : Z) (e : users) : res users :=
  match userRegisters e !! t with
  | Some r =>
      m ← for_range 0 NumTotalRegs (fun i m => v ← rd r i; WriteRegister m i v) (machine e);
      Ok (mkUsers m (userRegisters e) (space e))
  | None => UB
  end.

(** The table of the machine and that of the address space are one array: what
    the machine wrote in it (use and dirty bits) is in the address space too. *)
Definition shared_table (t : Z) (e : users) : users :=
  match space e !! t with
  | Some a => mkUsers (machine e) (userRegisters e) (<[t := mkAddrSpace (Machine.pageTable (machine e)) (numPages a)]> (space e))
  | None => e
  end.

(** The user parts of [Scheduler::Run]. *)
Definition run_save (t : Z) (e : users) : res users :=
  match space e !! t with
  | Some a => e ← SaveUserState t e; let _ := SaveState a in Ok (shared_table t e)
  | None => Ok e
  end.
Definition run_restore (t : Z) (e : users) : res users :=
  match space e !! t with
  | Some a =>
      e ← RestoreUserState t e;
      m ← RestoreState a (machine e);
      Ok (mkUsers m (userRegisters e) (space e))
  | None => Ok e
  end.
Definition returned (e : users) (r : res users) : users := match r with Ok e' => e' | _ => e end.
Definition save_user (t : Z) (e : users) : users := returned e (run_save t e).
Definition restore_user (t : Z) (e : users) : users := returned e (run_restore t e).

(** The end of [MyStartProcess] and [StartProcess], up to [machine->Run()]. *)
Definition start_process (t : Z) (a : AddrSpace) (e : users) : res users :=
  m ← InitRegisters a (machine e);
  m ← RestoreState a m;
  Ok (mkUsers m (userRegisters e) (<[t := a]> (space e))).

(** ** Steps

    Kernel routines that do not change the thread on the CPU, the two that do,
    the running program, and the start of a program.  [who] is the thread whose
    program acts. *)
Inductive ustep : option Z -> kernel users -> kernel users -> Prop :=
| u_kernel k k' :
    step save_user restore_user k k' -> ext k' = ext k -> currentThread k' = currentThread k ->
    (forall t th, threads k' !! t = Some th -> where_ th = Threads.Fresh -> space (ext k) !! t = None) ->
    ustep None k k'
| u_yield k k' t : Yield save_user restore_user k t = Ok k' -> ustep None k k'
| u_dispatch k k' : sleep_loop save_user restore_user k = Ok (Some k') -> ustep None k k'
| u_program k a m' :
    space (ext k) !! currentThread k = Some a ->
    zlen (registers m') = NumTotalRegs -> is_Some (Machine.pageTable m') ->
    pageTableSize m' = pageTableSize (machine (ext k)) ->
    ustep (Some (currentThread k)) k (set_ext k (mkUsers m' (userRegisters (ext k)) (space (ext k))))
| u_start k a e' th :
    space (ext k) !! currentThread k = None -> threads k !! currentThread k = Some th -> where_ th <> Threads.Fresh ->
    (exists r, userRegisters (ext k) !! currentThread k = Some r /\ zlen r = NumTotalRegs) ->
    start_process (currentThread k) a (ext k) = Ok e' ->
    ustep (Some (currentThread k)) k (set_ext k e').

(** Any number of steps in which the program of [t] does nothing. *)
Inductive usteps_without (t : Z) (k0 : kernel users) : kernel users -> Prop :=
| uw_refl : usteps_without t k0 k0
| uw_step who k k' : usteps_without t k0 k -> ustep who k k' -> who <> Some t -> usteps_without t k0 k'.

(** ** The processor of a program *)

(** What the program of [t] has: on the CPU the machine itself, and otherwise
    what is saved. *)
Record processor := mkProcessor { p_regs : list Z; p_table : option (list TranslationEntry); p_size : option Z }.
Definition processor_of (k : kernel users) (t : Z) : option processor :=
  match space (ext k) !! t with
  | None => None
  | Some a =>
      let m := machine (ext k) in
      if decide (currentThread k = t)
      then Some (mkProcessor (registers m) (Machine.pageTable m) (Some (pageTableSize m)))
      else Some (mkProcessor (default [] (userRegisters (ext k) !! t)) (pageTable a) (numPages a))
  end.

Record users_ok (k : kernel users) : Prop := {
  uo_regs : zlen (registers (machine (ext k))) = NumTotalRegs;
  uo_saved t a : space (ext k) !! t = Some a ->
    (exists r, userRegisters (ext k) !! t = Some r /\ zlen r = NumTotalRegs) /\ is_Some (pageTable a) /\ is_Some (numPages a);
  uo_fresh t th : threads k !! t = Some th -> where_ th = Threads.Fresh -> space (ext k) !! t = None;
  uo_current a : space (ext k) !! currentThread k = Some a ->
    is_Some (Machine.pageTable (machine (ext k))) /\ numPages a = Some (pageTableSize (machine (ext k)))
}.

(** ** Saving and restoring *)

(** Copying an array of the registers' size place by place; [put q] is the state
    in which the array that is written is [q]. *)
Lemma copy_loop (src q0 : list Z) {S} (put : list Z -> S) (f : Z -> S -> res S) :
  zlen src = NumTotalRegs -> zlen q0 = NumTotalRegs ->
  (forall i q v, 0 <= i < NumTotalRegs -> zget src i = Some v -> zlen q = NumTotalRegs ->
     f i (put q) = Ok (put (zset q i v))) ->
  for_range 0 NumTotalRegs f (put q0) = Ok (put src).
Proof.
  intros Hs Hl Hf.
  destruct (for_range_inv (fun i s => exists q, s = put q /\ zlen q = NumTotalRegs /\
      forall j, 0 <= j < i -> zget q j = zget src j) f 0 NumTotalRegs (put q0)) as (s & -> & q & -> & Hq & Hg); [done| | |].
  - exists q0. split_and!; [done|done|lia].
  - intros i s Hi (q & -> & Hq & Hg). destruct (zget_is_Some src i) as [v Hv]; [lia|]. rewrite (Hf i q v Hi Hv Hq).
    eexists. split; [done|]. exists (zset q i v). rewrite zlen_zset. split_and!; [done|done|].
    intros j Hj. rewrite zget_zset. case_decide as Hd; [by destruct Hd as [-> _]|]. apply Hg. lia.
  - by rewrite (zget_ext_range q src) by (lia || (intros i Hi; apply Hg; lia)).
Qed.
Lemma SaveUserState_spec t e old :
  userRegisters e !! t = Some old -> zlen old = NumTotalRegs -> zlen (registers (machine e)) = NumTotalRegs ->
  SaveUserState t e = Ok (mkUsers (machine e) (<[t := registers (machine e)]> (userRegisters e)) (space e)).
Proof.
  intros Ho Hl Hr. unfold SaveUserState. rewrite Ho.
  rewrite (copy_loop (registers (machine e)) old id _ Hr Hl); [done|].
  intros i r v Hi Hv Hlr. unfold ReadRegister. rewrite (proj2 (Z.leb_le 0 i)), (proj2 (Z.ltb_lt i NumTotalRegs)) by lia.
  cbn [andb]. rewrite (proj2 (rd_Ok _ _ _) Hv). cbn [mbind res_bind]. unfold id. by rewrite wr_Ok by lia.
Qed.
Lemma RestoreUserState_spec t e r :
  userRegisters e !! t = Some r -> zlen r = NumTotalRegs -> zlen (registers (machine e)) = NumTotalRegs ->
  RestoreUserState t e = Ok (mkUsers (set_registers (machine e) r) (userRegisters e) (space e)).
Proof.
  intros Hr Hl Hm. unfold RestoreUserState. rewrite Hr.
  assert (machine e = set_registers (machine e) (registers (machine e))) as Em by (by destruct (machine e)).
  rewrite Em at 1. rewrite (copy_loop r _ (set_registers (machine e)) _ Hl Hm); [done|].
  intros i q v Hi Hv Hq. rewrite (proj2 (rd_Ok _ _ _) Hv). cbn [mbind res_bind]. unfold WriteRegister.
  rewrite (proj2 (Z.leb_le 0 i)), (proj2 (Z.ltb_lt i NumTotalRegs)) by lia.
  cbn [andb registers set_registers]. by rewrite wr_Ok by lia.
Qed.

(** What [Run] does to the user state of a thread that leaves the CPU and of one
    that gets it. *)
Lemma save_user_spec k a :
  users_ok k -> space (ext k) !! currentThread k = Some a ->
  save_user (currentThread k) (ext k) =
    mkUsers (machine (ext k)) (<[currentThread k := registers (machine (ext k))]> (userRegisters (ext k)))
      (<[currentThread k := mkAddrSpace (Machine.pageTable (machine (ext k))) (numPages a)]> (space (ext k))).
Proof.
  intros Hok Ha. destruct (uo_saved _ Hok _ _ Ha) as ((r & Hr & Hl) & _). unfold save_user, run_save. rewrite Ha.
  rewrite (SaveUserState_spec _ _ r Hr Hl (uo_regs _ Hok)). cbn [mbind res_bind]. unfold shared_table. cbn [space]. by rewrite Ha.
Qed.
Lemma save_user_none k : space (ext k) !! currentThread k = None -> save_user (currentThread k) (ext k) = ext k.
Proof. intros Ha. unfold save_user, run_save. by rewrite Ha. Qed.
Lemma restore_user_spec n e a r tb sz :
  space e !! n = Some a -> userRegisters e !! n = Some r -> zlen r = NumTotalRegs ->
  zlen (registers (machine e)) = NumTotalRegs -> pageTable a = Some tb -> numPages a = Some sz ->
  exists m, restore_user n e = mkUsers m (userRegisters e) (space e) /\
    registers m = r /\ Machine.pageTable m = Some tb /\ pageTableSize m = sz.
Proof.
  intros Ha Hr Hl Hm Ht Hn. unfold restore_user, run_restore. rewrite Ha, (RestoreUserState_spec _ _ r Hr Hl Hm).
  cbn [mbind res_bind machine]. unfold RestoreState. rewrite Ht, Hn. cbn [mbind res_bind]. by eexists.
Qed.

(** ** The kernel leaves the processors alone *)

(** The user state after [Run]. *)
Lemma Run_ext (k k' : kernel users) n :
  Run save_user restore_user k n = Ok k' ->
  currentThread k' = n /\
  (exists th, threads k !! n = Some th /\
    ext k' = if decide (where_ th = Threads.Fresh) then save_user (currentThread k) (ext k)
             else restore_user n (save_user (currentThread k) (ext k))) /\
  (forall t th', threads k' !! t = Some th' -> where_ th' = Threads.Fresh ->
     exists th, threads k !! t = Some th /\ where_ th = Threads.Fresh).
Proof.
  unfold Run. destruct (CheckOverflow _ _); try done. cbn [mbind res_bind]. unfold setStatus, thread_at. simpl.
  destruct (threads k !! n) as [th|] eqn:En; [|done]. simpl. rewrite lookup_insert_eq. simpl.
  assert (forall st w t th', <[n := mkThread st (threadID th) (Threads.stack th) w]> (threads k) !! t = Some th' ->
    where_ th' = Threads.Fresh -> (w = Threads.Fresh -> where_ th = Threads.Fresh) ->
    exists th0, threads k !! t = Some th0 /\ where_ th0 = Threads.Fresh) as Hback.
  { intros st w t th' Ht Hw Hi. destruct (decide (t = n)) as [->|].
    - rewrite lookup_insert_eq in Ht. injection Ht as <-. eauto.
    - rewrite lookup_insert_ne in Ht by done. eauto. }
  destruct (decide (where_ th = Threads.Fresh)) as [Hf|Hf].
  - unfold set_where, thread_at. simpl. rewrite lookup_insert_eq. simpl. intros [= <-]. simpl. split; [done|]. split.
    + exists th. split; [done|]. by rewrite decide_True.
    + intros t th'. rewrite insert_insert_eq. intros Ht Hw. by eapply Hback.
  - destruct (threadToBeDestroyed k) as [d|]; simpl.
    + unfold delete_Thread, thread_at. simpl. destruct (<[n := _]> (threads k) !! d) as [thd|]; [|done]. simpl.
      destruct (negb _); [|done]. simpl. intros [= <-]. simpl. split; [done|]. split.
      * exists th. split; [done|]. by rewrite decide_False.
      * intros t th' [_ Ht]%lookup_delete_Some Hw. by eapply Hback.
    + intros [= <-]. simpl. split; [done|]. split.
      * exists th. split; [done|]. by rewrite decide_False.
      * intros t th' Ht Hw. by eapply Hback.
Qed.

(** The state before a switch, as far as users go. *)
Lemma users_ok_like (k k1 : kernel users) :
  users_ok k -> ext k1 = ext k -> currentThread k1 = currentThread k ->
  (forall t th', threads k1 !! t = Some th' -> where_ th' = Threads.Fresh ->
     exists th, threads k !! t = Some th /\ where_ th = Threads.Fresh) ->
  users_ok k1 /\ forall t, processor_of k1 t = processor_of k t.
Proof.
  intros [Hr Hs Hf Hc] Ee Ec Hfr. split; [|by intros t; unfold processor_of; rewrite Ee, Ec].
  split; rewrite ?Ee, ?Ec; try done. intros t th Ht Hw. destruct (Hfr t th Ht Hw) as (th0 & ? & ?). by eapply Hf.
Qed.

(** The thread [old] leaves the CPU. *)
Lemma saved_processors (k : kernel users) t e1 :
  users_ok k -> e1 = save_user (currentThread k) (ext k) ->
  machine e1 = machine (ext k) /\
  match space e1 !! t with
  | None => processor_of k t = None
  | Some a => (exists r, userRegisters e1 !! t = Some r /\ zlen r = NumTotalRegs /\
        processor_of k t = Some (mkProcessor r (pageTable a) (numPages a))) /\
      is_Some (pageTable a) /\ is_Some (numPages a)
  end.
Proof.
  intros Hok ->. unfold processor_of. destruct (space (ext k) !! currentThread k) as [a|] eqn:Ha.
  - rewrite (save_user_spec k a Hok Ha). cbn [machine userRegisters space]. split; [done|].
    destruct (uo_current _ Hok a Ha) as [Ht Hn]. destruct (decide (currentThread k = t)) as [<-|Hne].
    + rewrite !lookup_insert_eq, Ha. cbn [pageTable numPages]. rewrite Hn. split_and!; [|done|done].
      eexists. split_and!; [done|apply Hok|done].
    + rewrite !lookup_insert_ne by done. destruct (space (ext k) !! t) as [b|] eqn:Hb; [|done].
      destruct (uo_saved _ Hok t b Hb) as ((r & Hr & Hl) & ? & ?). split_and!; try done. exists r. by rewrite Hr.
  - rewrite (save_user_none k Ha). split; [done|]. destruct (space (ext k) !! t) as [b|] eqn:Hb; [|done].
    destruct (uo_saved _ Hok t b Hb) as ((r & Hr & Hl) & ? & ?). rewrite decide_False by congruence.
    split_and!; try done. exists r. by rewrite Hr.
Qed.
Lemma save_space k t : users_ok k -> space (save_user (currentThread k) (ext k)) !! t = None <-> space (ext k) !! t = None.
Proof.
  intros Hok. destruct (saved_processors k t _ Hok eq_refl) as [_ H]. unfold processor_of in H.
  destruct (space (save_user _ _) !! t) as [a|]; destruct (space (ext k) !! t) as [b|]; try done.
  - destruct H as ((r & _ & _ & H) & _). done.
  - by case_decide.
Qed.
Lemma Run_keeps (k k' : kernel users) n :
  users_ok k -> Run save_user restore_user k n = Ok k' ->
  users_ok k' /\ forall t, processor_of k' t = processor_of k t.
Proof.
  intros Hok HR. destruct (Run_ext k k' n HR) as (Hcur & (th & Hn & He) & Hfr).
  set (e1 := save_user (currentThread k) (ext k)) in *.
  assert (machine e1 = machine (ext k)) as Hm by apply (saved_processors k n e1 Hok eq_refl).
  assert (exists m, ext k' = mkUsers m (userRegisters e1) (space e1) /\ zlen (registers m) = NumTotalRegs /\
    match space e1 !! n with
    | None => True
    | Some a => Some (registers m) = userRegisters e1 !! n /\ Machine.pageTable m = pageTable a /\ Some (pageTableSize m) = numPages a
    end) as (m & Ek & Hlm & Hm').
  { destruct (space e1 !! n) as [a|] eqn:Ha.
    - rewrite decide_False in He.
      2:{ intros Hf. pose proof (uo_fresh _ Hok n th Hn Hf) as H0. apply (save_space k n Hok) in H0. fold e1 in H0. congruence. }
      destruct (saved_processors k n e1 Hok eq_refl) as [_ H]. rewrite Ha in H.
      destruct H as ((r & Hr & Hl & _) & [tb Htb] & [sz Hsz]).
      destruct (restore_user_spec n e1 a r tb sz Ha Hr Hl) as (m & Em & Er & Et & Es); [rewrite Hm; apply Hok|done|done|].
      exists m. rewrite He. split; [done|]. rewrite Er, Et, Es, Hr. done.
    - exists (machine e1). rewrite He. split; [|rewrite Hm; split; [apply Hok|done]].
      unfold restore_user, run_restore. rewrite Ha. cbn [returned]. destruct (decide _); by destruct e1. }
  assert (forall t, processor_of k' t = processor_of k t) as Hproc.
  { intros t. destruct (saved_processors k t e1 Hok eq_refl) as [_ H]. unfold processor_of at 1. rewrite Ek, Hcur.
    cbn [space machine userRegisters]. destruct (space e1 !! t) as [a|] eqn:Ha; [|done].
    destruct H as ((r & Hr & Hl & ->) & _). destruct (decide (n = t)) as [->|].
    - rewrite Ha in Hm'. destruct Hm' as (E1 & -> & ->). rewrite Hr in E1. by injection E1 as ->.
    - by rewrite Hr. }
  split; [|done]. split.
  - by rewrite Ek.
  - rewrite Ek. cbn [space userRegisters]. intros t a Ha. destruct (saved_processors k t e1 Hok eq_refl) as [_ H].
    rewrite Ha in H. destruct H as ((r & Hr & Hl & _) & ? & ?). eauto.
  - rewrite Ek. cbn [space]. intros t th' Ht Hw. destruct (Hfr t th' Ht Hw) as (th0 & H0 & Hw0).
    apply (save_space k t Hok). by eapply (uo_fresh _ Hok).
  - rewrite Ek, Hcur. cbn [space machine]. intros a Ha. rewrite Ha in Hm'. destruct Hm' as (_ & -> & ->).
    destruct (saved_processors k n e1 Hok eq_refl) as [_ H]. rewrite Ha in H. by destruct H as (_ & ? & _).
Qed.

(** A change of status is none of the users' business. *)
Lemma setStatus_like (k k1 : kernel users) t v :
  users_ok k -> setStatus k t v = Ok k1 -> users_ok k1 /\ forall x, processor_of k1 x = processor_of k x.
Proof.
  intros Hok. unfold setStatus, thread_at. destruct (threads k !! t) as [th|] eqn:Et; [|done]. simpl. intros [= <-].
  apply users_ok_like; try done. simpl. intros x th' Hx Hw. destruct (decide (x = t)) as [->|].
  - rewrite lookup_insert_eq in Hx. injection Hx as <-. eauto.
  - rewrite lookup_insert_ne in Hx by done. eauto.
Qed.
Lemma Yield_keeps (k k' : kernel users) t :
  users_ok k -> Yield save_user restore_user k t = Ok k' -> users_ok k' /\ forall x, processor_of k' x = processor_of k x.
Proof.
  intros Hok. unfold Yield. destruct (t =? currentThread k); [|done]. unfold FindNextToRun.
  destruct (readyList k) as [|n r]; [by intros [= <-]|]. unfold ReadyToRun.
  destruct (users_ok_like k (set_ready k r) Hok) as [Hok0 H0]; [done|done|eauto|].
  destruct (setStatus (set_ready k r) t READY) as [k1| | | |] eqn:E; try done. cbn [mbind res_bind].
  destruct (setStatus_like _ _ _ _ Hok0 E) as [Hok1 H1].
  destruct (users_ok_like k1 (set_ready k1 (readyList k1 ++ [t])) Hok1) as [Hok2 H2]; [done|done|eauto|].
  intros HR. destruct (Run_keeps _ _ _ Hok2 HR) as [Hok' H']. split; [done|]. intros x. by rewrite H', H2, H1, H0.
Qed.
Lemma sleep_loop_keeps (k k' : kernel users) :
  users_ok k -> sleep_loop save_user restore_user k = Ok (Some k') ->
  users_ok k' /\ forall x, processor_of k' x = processor_of k x.
Proof.
  intros Hok. unfold sleep_loop, FindNextToRun. destruct (readyList k) as [|n r]; [done|].
  destruct (users_ok_like k (set_ready k r) Hok) as [Hok0 H0]; [done|done|eauto|].
  destruct (Run _ _ (set_ready k r) n) as [k1| | | |] eqn:E; try done. simpl. intros [= <-].
  destruct (Run_keeps _ _ _ Hok0 E) as [Hok1 H1].
  destruct (users_ok_like k1 (set_switching k1 false) Hok1) as [Hok2 H2]; [done|done|eauto|].
  split; [done|]. intros x. by rewrite H2, H1, H0.
Qed.

Lemma WriteRegister_len m i v m' : WriteRegister m i v = Ok m' -> zlen (registers m') = zlen (registers m).
Proof.
  unfold WriteRegister. destruct (_ && _); [|done]. unfold wr. destruct (zget (registers m) i); [|done].
  simpl. intros [= <-]. simpl. by rewrite zlen_zset.
Qed.
Lemma start_process_spec t a e e' :
  zlen (registers (machine e)) = NumTotalRegs -> start_process t a e = Ok e' ->
  zlen (registers (machine e')) = NumTotalRegs /\ is_Some (Machine.pageTable (machine e')) /\ is_Some (pageTable a) /\
  numPages a = Some (pageTableSize (machine e')) /\
  userRegisters e' = userRegisters e /\ space e' = <[t := a]> (space e).
Proof.
  intros Hl. unfold start_process, InitRegisters. rewrite (set_regs_loop (machine e) _ Hl eq_refl). cbn [mbind res_bind].
  destruct (WriteRegister _ PCReg 0) as [m1| | | |] eqn:E1; try done. cbn [mbind res_bind].
  destruct (WriteRegister m1 _ 4) as [m2| | | |] eqn:E2; try done. cbn [mbind res_bind].
  destruct (numPages a) as [n|] eqn:En; [|done]. cbn [mbind res_bind].
  destruct (WriteRegister m2 _ _) as [m3| | | |] eqn:E3; try done. cbn [mbind res_bind]. unfold RestoreState. rewrite En.
  destruct (pageTable a); [|done]. cbn [mbind res_bind]. intros [= <-]. simpl. split_and!; try done.
  by rewrite (WriteRegister_len _ _ _ _ E3), (WriteRegister_len _ _ _ _ E2), (WriteRegister_len _ _ _ _ E1).
Qed.

(** A step keeps the invariant, and the processors of all programs but the one
    that acts. *)
Lemma ustep_keeps who k k' :
  users_ok k -> ustep who k k' ->
  users_ok k' /\ forall t, who <> Some t -> processor_of k' t = processor_of k t.
Proof.
  intros Hok Hst. destruct Hst as [k k' _ Ee Ec Hfr|k k' t HY|k k' HS|k a m' Ha Hl Ht Hsz|k a e' th Ha Hth Hw (r & Hr & Hlr) Hs].
  - split; [|by intros t _; unfold processor_of; rewrite Ee, Ec]. destruct Hok. split; rewrite ?Ee, ?Ec; try done.
  - destruct (Yield_keeps _ _ _ Hok HY) as [Hk Hp]. split; [done|]. intros x _. apply Hp.
  - destruct (sleep_loop_keeps _ _ Hok HS) as [Hk Hp]. split; [done|]. intros x _. apply Hp.
  - split.
    + destruct Hok as [Hr Hs Hf Hc]. split; simpl; try done. intros b Hb. destruct (Hc b Hb) as [_ Hn]. by rewrite Hsz.
    + intros t Hne. unfold processor_of. simpl. destruct (space (ext k) !! t); [|done]. by rewrite !decide_False by congruence.
  - destruct (start_process_spec _ _ _ _ (uo_regs _ Hok) Hs) as (Hl & Ht & Hta & Hn & Eu & Es). split.
    + split; cbn [set_ext ext threads currentThread]; rewrite ?Es, ?Eu; try done.
      * intros t b Hb. destruct (decide (currentThread k = t)) as [<-|].
        -- rewrite lookup_insert_eq in Hb. injection Hb as <-. rewrite Hn. eauto 6.
        -- rewrite lookup_insert_ne in Hb by done. by apply (uo_saved _ Hok).
      * intros t th0 Ht0 Hw0. rewrite lookup_insert_ne by congruence. by eapply (uo_fresh _ Hok).
      * intros b Hb. rewrite lookup_insert_eq in Hb. by injection Hb as <-.
    + intros t Hne. unfold processor_of. simpl. rewrite Es, Eu, lookup_insert_ne by congruence.
      destruct (space (ext k) !! t); [|done]. by rewrite !decide_False by congruence.
Qed.

(** From the boot of a machine on which no program runs yet. *)
Inductive ureachable (e : users) : kernel users -> Prop :=
| ur_boot : ureachable e (boot e)
| ur_step who k k' : ureachable e k -> ustep who k k' -> ureachable e k'.
Lemma ureachable_ok e k :
  zlen (registers (machine e)) = NumTotalRegs -> space e = ∅ -> ureachable e k -> users_ok k.
Proof.
  intros Hl Hs. induction 1 as [|who k k' _ IH Hst]; [|by eapply ustep_keeps].
  split; simpl; rewrite ?Hs; try done.
Qed.
Lemma usteps_without_keeps t k k' :
  users_ok k -> usteps_without t k k' -> users_ok k' /\ processor_of k' t = processor_of k t.
Proof.
  intros Hok. induction 1 as [|who k1 k2 _ [IHk IHp] Hst Hne]; [done|].
  destruct (ustep_keeps _ _ _ IHk Hst) as [Hk Hp]. split; [done|]. by rewrite Hp.
Qed.

(** ** Properties *)

(** C20. Every program has a processor of its own.  From the boot of the kernel,
    let the thread [t] run a user program and lose the CPU, by a system call
    that waits or by a time slice, and let then the kernel, interrupts and the
    programs of the other threads do anything, any number of times: whenever
    [t] is on the CPU again, the registers of the machine, the page table (with
    its use and dirty bits) and its size are those that [t] left. *)
Theorem user_state_survives (e : users) (k k' : kernel users) (t : Z) (a : AddrSpace) :
  zlen (registers (machine e)) = NumTotalRegs -> space e = ∅ -> ureachable e k ->
  space (ext k) !! t = Some a -> currentThread k = t ->
  usteps_without t k k' -> currentThread k' = t ->
  registers (machine (ext k')) = registers (machine (ext k)) /\
  Machine.pageTable (machine (ext k')) = Machine.pageTable (machine (ext k)) /\
  pageTableSize (machine (ext k')) = pageTableSize (machine (ext k)).
Proof.
  intros Hl Hs Hr Ha Hc Hw Hc'. pose proof (ureachable_ok e k Hl Hs Hr) as Hok.
  destruct (usteps_without_keeps _ _ _ Hok Hw) as [Hok' Hp]. unfold processor_of in Hp. rewrite Ha, Hc, Hc' in Hp.
  destruct (decide (t = t)); [|done]. destruct (space (ext k') !! t); [|done]. by injection Hp as -> -> ->.
Qed.

(** The main thread 0 starts a program and forks thread 5; a time slice gives 5
    the CPU, which starts a program of its own, and another one gives it back. *)
Definition no_machine : Machine := mkMachine (replicate 40 0) [] None None 0 false 0.
Definition boot_users : users := mkUsers no_machine {[ 0 := replicate 40 9; 5 := replicate 40 9 ]} ∅.
Definition space_a : AddrSpace := mkAddrSpace (Some []) (Some 3).
Definition space_b : AddrSpace := mkAddrSpace (Some []) (Some 8).
Definition or_boot (r : res (kernel users)) : kernel users := match r with Ok k => k | _ => boot boot_users end.
Definition k_main : kernel users :=
  Eval vm_compute in or_boot (e ← start_process 0 space_a boot_users; Ok (set_ext (boot boot_users) e)).
Definition k_new : kernel users := Eval vm_compute in set_threads k_main (<[5 := new_Thread 5]> (threads k_main)).
Definition k_forked : kernel users := Eval vm_compute in or_boot (Fork k_new 5).
Definition k_away : kernel users := Eval vm_compute in or_boot (Yield save_user restore_user k_forked 0).
Definition k_other : kernel users :=
  Eval vm_compute in or_boot (e ← start_process 5 space_b (ext k_away); Ok (set_ext k_away e)).
Definition k_back : kernel users := Eval vm_compute in or_boot (Yield save_user restore_user k_other 5).

Lemma k_forked_reachable : ureachable boot_users k_forked.
Proof.
  apply (ur_step _ None k_new); [apply (ur_step _ None k_main); [apply (ur_step _ (Some 0) (boot boot_users)); [apply ur_boot|]|]|].
  - apply (u_start (boot boot_users) space_a (ext k_main) (mkThread RUNNING 0 None Normal));
      [reflexivity|reflexivity|discriminate|by exists (replicate 40 9)|vm_compute; reflexivity].
  - apply u_kernel; [by apply (step_create _ _ k_main 5 5)|done|done|].
    intros t th Ht Hw. change (threads k_new) with (<[5 := new_Thread 5]> {[0 := mkThread RUNNING 0 None Normal]} : gmap Z Thread) in Ht.
    apply lookup_insert_Some in Ht as [[<- _]|[_ [<- <-]%lookup_singleton_Some]]; [reflexivity|done].
  - apply u_kernel; [apply (step_Fork _ _ k_new k_forked 5 (new_Thread 5)); reflexivity|done|done|].
    intros t th Ht Hw.
    change (threads k_forked) with (<[5 := mkThread READY 5 (Some STACK_FENCEPOST) Threads.Fresh]>
      {[0 := mkThread RUNNING 0 None Normal]} : gmap Z Thread) in Ht.
    apply lookup_insert_Some in Ht as [[<- _]|[_ [<- <-]%lookup_singleton_Some]]; [reflexivity|done].
Qed.
Lemma k_back_without : usteps_without 0 k_forked k_back.
Proof.
  apply (uw_step _ _ None k_other); [apply (uw_step _ _ (Some 5) k_away); [apply (uw_step _ _ None k_forked); [apply uw_refl| |done]| |done]| |done].
  - apply (u_yield _ _ 0). vm_compute. reflexivity.
  - apply (u_start k_away space_b (ext k_other) (mkThread RUNNING 5 (Some STACK_FENCEPOST) Normal));
      [reflexivity|reflexivity|discriminate|by exists (replicate 40 9)|vm_compute; reflexivity].
  - apply (u_yield _ _ 5). vm_compute. reflexivity.
Qed.
Lemma user_state_survives_witness :
  registers (machine (ext k_back)) = registers (machine (ext k_forked)) /\
  pageTableSize (machine (ext k_other)) = 8 /\ pageTableSize (machine (ext k_back)) = 3.
Proof.
  destruct (user_state_survives boot_users k_forked k_back 0 space_a) as (H1 & H2 & H3);
    [reflexivity|reflexivity|exact k_forked_reachable|reflexivity|reflexivity|exact k_back_without|reflexivity|].
  split; [exact H1|]. split; [reflexivity|exact H3].
Defined.
