(* ===== verification/FsTest.v ===== *)
(** * filesys/fstest.cc: copying, printing and the performance test

    Programs on top of the file system: [Copy] brings a UNIX file into it,
    [Print] shows a file, [PerformanceTest] writes, reads and removes one.  They
    use [Create], [Open], [Remove] of FileSys and [Read], [Write] of OpenFile;
    a UNIX file is its bytes, and [fread] takes the next ones. *)

From S2P Require Import Prelude BitMap Disk FileHdr OpenFile Directory FileSys.
From stdpp Require Import gmap list sets.
#[local] Open Scope Z_scope.

Definition TransferSize : Z := 10.
(** "TestFile" and "1234567890" *)
Definition FileName : list Z := [84; 101; 115; 116; 70; 105; 108; 101].
Definition Contents : list Z := [49; 50; 51; 52; 53; 54; 55; 56; 57; 48].
Definition ContentSize : Z := 10.
Definition FileSize : Z := ContentSize * 5000.

(** How [Copy] ends, and what the parts of the performance test report. *)
Inductive copy_result := Copied | NoInput | NoOutput.
Inductive report := Passed | CannotCreate | CannotOpen | CannotWrite | CannotRead.

Section ops.
Context {D : Type} `{SectorStore D}.
Context (junk : Z -> Z) (junk_words : list Z) (junk_entries : list DirectoryEntry) (junk_hdr : FileHeader).
Context (fs : FileSystem).

(** [while ((amountRead = fread(buffer, sizeof(char), TransferSize, fp)) > 0)
    openFile->Write(buffer, amountRead);]  [rest] is what [fread] has not
    delivered yet. *)
Fixpoint copy_chunks (fuel : nat) (openFile : OpenFile) (buffer rest : list Z) : st D unit :=
  match fuel with
  | O => fun _ => NoFuel
  | S f =>
      let chunk := slice 0 TransferSize rest in
      let amountRead := zlen chunk in
      let buffer := splice 0 chunk buffer in
      if 0 <? amountRead then
        '(_, openFile) ← Write junk openFile buffer amountRead;
        copy_chunks f openFile buffer (drop (length chunk) rest)
      else mret tt
  end.
(** [from] is [None] when [fopen] fails. *)
Definition Copy (from : option (list Z)) (to : list Z) : st D copy_result :=
  match from with
  | None => mret NoInput
  | Some text =>
      let fileLength := zlen text in
      ok ← Create junk junk_words junk_entries junk_hdr fs to fileLength;
      if negb ok then mret NoOutput
      else
        o ← Open junk junk_entries fs to;
        match o with
        | None => fun _ => AssertFail
        | Some openFile =>
            copy_chunks (S (length text)) openFile (new_chars junk TransferSize) text;;
            mret Copied
        end
  end.

(** [while ((amountRead = openFile->Read(buffer, TransferSize)) > 0) printf ...]:
    the characters printed. *)
Fixpoint print_chunks (fuel : nat) (openFile : OpenFile) : st D (list Z) :=
  match fuel with
  | O => fun _ => NoFuel
  | S f =>
      '(data, openFile) ← Read junk openFile TransferSize;
      if 0 <? zlen data then out ← print_chunks f openFile; mret (data ++ out) else mret []
  end.
(** [None]: the file cannot be opened.  The fuel is a round for every byte. *)
Definition Print (nm : list Z) : st D (option (list Z)) :=
  o ← Open junk junk_entries fs nm;
  match o with
  | None => mret None
  | Some openFile => out ← print_chunks (S (Z.to_nat (Length openFile))) openFile; mret (Some out)
  end.

(** The loops of the performance test, [n] rounds left. *)
Fixpoint write_rounds (n : nat) (openFile : OpenFile) : st D report :=
  match n with
  | O => mret Passed
  | S n' =>
      '(numBytes, openFile) ← Write junk openFile Contents ContentSize;
      if numBytes <? 10 then mret CannotWrite else write_rounds n' openFile
  end.
Definition FileWrite : st D report :=
  ok ← Create junk junk_words junk_entries junk_hdr fs (c_str FileName) 0;
  if negb ok then mret CannotCreate
  else
    o ← Open junk junk_entries fs (c_str FileName);
    match o with
    | None => mret CannotOpen
    | Some openFile => write_rounds (Z.to_nat (FileSize / ContentSize)) openFile
    end.
Fixpoint read_rounds (n : nat) (openFile : OpenFile) (buffer : list Z) : st D report :=
  match n with
  | O => mret Passed
  | S n' =>
      '(data, openFile) ← Read junk openFile ContentSize;
      let buffer := splice 0 data buffer in
      if (zlen data <? 10) || negb (bool_decide (slice 0 ContentSize buffer = Contents)) then mret CannotRead
      else read_rounds n' openFile buffer
  end.
Definition FileRead : st D report :=
  o ← Open junk junk_entries fs (c_str FileName);
  match o with
  | None => mret CannotOpen
  | Some openFile => read_rounds (Z.to_nat (FileSize / ContentSize)) openFile (new_chars junk ContentSize)
  end.
(** What the two parts report, and whether the file could be removed. *)
Definition PerformanceTest : st D (report * report * bool) :=
  w ← FileWrite;
  r ← FileRead;
  b ← Remove junk junk_words junk_entries fs (c_str FileName);
  mret (w, r, b).
End ops.

(** ** What they do *)

Lemma take_its_length {A} n (l : list A) : take (length (take n l)) l = take n l.
Proof.
  rewrite length_take. destruct (Nat.le_gt_cases n (length l)); [by rewrite Nat.min_l|].
  by rewrite Nat.min_r, !take_ge by lia.
Qed.
Lemma hdr_max h : hdr_ok h -> numBytes h <= MaxFileSize.
Proof.
  intros Hh. pose proof (divRoundUp_spec (numBytes h) SectorSize (ho_bytes _ Hh) eq_refl) as Hd.
  pose proof (ho_sectors _ Hh). pose proof (ho_fits _ Hh). unfold MaxFileSize, NumDirect, SectorSize in *. lia.
Qed.

Section specs.
Context {D : Type} `{SectorStoreLaws D}.
Context (junk : Z -> Z) (junk_words : list Z) (junk_entries : list DirectoryEntry) (junk_hdr : FileHeader).
Context (Hjunk : junk_ok junk junk_words junk_entries junk_hdr).
Context (fs : FileSystem).

(** [front] has been written, [old] is still behind it. *)
Lemma copy_chunks_spec m t fm k sec h : forall fuel d ty buffer front rest old,
  fs_inv d fs m t fm -> fm !! k = Some (sec, h) -> numBytes h = zlen front + zlen rest -> numBytes h <= MaxFileSize ->
  content d h = front ++ old -> zlen buffer = TransferSize -> Forall is_byte buffer -> Forall is_byte rest ->
  (length rest < fuel)%nat ->
  exists d', copy_chunks junk fuel (mkOpenFile h sec ty (zlen front)) buffer rest d = Ok (tt, d') /\
    fs_inv d' fs m t fm /\ content d' h = front ++ rest /\
    forall k' x, k' <> k -> fm !! k' = Some x -> content d' x.2 = content d x.2.
Proof.
  induction fuel as [|fuel IH]; intros d ty buffer front rest old Hinv Hk Hn Hmax Hc Hbl Hb Hr Hf; [lia|].
  cbn [copy_chunks]. set (chunk := slice 0 TransferSize rest).
  assert (zlen (content d h) = zlen front + zlen old) as Hlc by (rewrite Hc; apply zlen_app).
  rewrite zlen_content in Hlc by (pose proof (zlen_nonneg front); pose proof (zlen_nonneg rest); lia).
  assert (zlen old = zlen rest) as Hold by lia.
  assert (rest = chunk ++ drop (length chunk) rest) as Hsplit.
  { rewrite <-(take_drop (length chunk) rest) at 1. f_equal. unfold chunk, slice. rewrite drop_0. apply take_its_length. }
  assert (zlen chunk <= TransferSize) as Hcl by (unfold chunk, slice, zlen, TransferSize; rewrite length_take; lia).
  destruct (Z.ltb_spec 0 (zlen chunk)) as [Hpos|Hnil].
  - assert (Forall is_byte chunk) as Hcb by (by apply Forall_slice).
    set (buffer' := splice 0 chunk buffer).
    assert (buffer' = chunk ++ drop (length chunk) buffer) as Eb by apply splice_0.
    assert (zlen rest = zlen chunk + zlen (drop (length chunk) rest)) as Hrl by (rewrite Hsplit at 1; apply zlen_app).
    pose proof (zlen_nonneg (drop (length chunk) rest)) as Hnn. pose proof (zlen_nonneg front) as Hnf.
    destruct (fs_WriteAt_spec junk junk_words junk_entries junk_hdr Hjunk d fs m t fm k sec
      (mkOpenFile h sec ty (zlen front)) buffer' (zlen chunk) (zlen front) Hinv Hk) as (d1 & Hw & Hinv1 & Hc1 & Ho1); cbn [hdr].
    + lia.
    + unfold MaxFileSize, NumDirect, SectorSize, two31 in *. lia.
    + by apply Forall_splice.
    + rewrite Eb, zlen_app. pose proof (zlen_nonneg (drop (length chunk) buffer)). lia.
    + cbn [hdr] in Hw, Hc1. replace (Z.max 0 (Z.min (zlen chunk) (numBytes h - zlen front))) with (zlen chunk) in Hw, Hc1 by lia.
      rewrite (st_bind_Ok _ _ _ (zlen chunk, mkOpenFile h sec ty (zlen (front ++ chunk))) d1).
      2:{ unfold Write. cbn [seekPosition]. rewrite (st_bind_Ok _ _ _ _ _ Hw). unfold Seek. cbn. by rewrite zlen_app. }
      rewrite Eb in Hc1. rewrite slice_front, Hc, splice_behind in Hc1.
      destruct (IH d1 ty buffer' (front ++ chunk) (drop (length chunk) rest) (drop (length chunk) old))
        as (d2 & E2 & Hinv2 & Hc2 & Ho2); try done.
      * rewrite zlen_app. lia.
      * by rewrite Hc1, app_assoc.
      * rewrite Eb, zlen_app. unfold zlen in *. rewrite length_drop. lia.
      * by apply Forall_splice.
      * by apply Forall_drop.
      * rewrite length_drop. unfold zlen in *. lia.
      * exists d2. split; [exact E2|]. split; [done|]. split; [by rewrite Hc2, <-app_assoc, <-Hsplit|].
        intros k' x Hne Hx. by rewrite (Ho2 k' x Hne Hx), (Ho1 k' x Hne Hx).
  - assert (rest = []) as ->.
    { destruct rest; [done|]. unfold chunk, zlen, slice, TransferSize in Hnil. simpl in Hnil. lia. }
    exists d. split; [done|]. split; [done|]. split; [|done]. rewrite Hc. f_equal. destruct old; [done|]. unfold zlen in Hold. simpl in Hold. lia.
Qed.

(** From [pos] on, [Read] delivers the file to its end. *)
Lemma print_chunks_spec m t fm k sec h : forall fuel d ty pos,
  fs_inv d fs m t fm -> fm !! k = Some (sec, h) -> 0 <= pos <= numBytes h ->
  (Z.to_nat (numBytes h - pos) < fuel)%nat ->
  exists d', print_chunks junk fuel (mkOpenFile h sec ty pos) d = Ok (drop (Z.to_nat pos) (content d h), d') /\
    fs_inv d' fs m t fm /\ same_sectors d d'.
Proof.
  induction fuel as [|fuel IH]; intros d ty pos Hinv Hk Hp Hf; [lia|]. cbn [print_chunks].
  destruct (fi_file _ _ _ _ _ Hinv _ _ _ Hk) as (_ & _ & Hh & _).
  pose proof (hdr_max h Hh) as Hsz.
  destruct (ReadAt_spec junk d (mkOpenFile h sec ty pos) TransferSize pos Hh (fi_store _ _ _ _ _ Hinv)) as (d1 & Hr & Hd1 & Hs1);
    [lia|unfold TransferSize, two31, MaxFileSize, NumDirect, SectorSize in *; lia|]. cbn [hdr] in Hr.
  set (data := slice pos TransferSize (content d h)) in *.
  pose proof (fs_inv_same _ _ _ _ _ _ Hinv Hd1 Hs1) as Hinv1.
  rewrite (st_bind_Ok _ _ _ (data, mkOpenFile h sec ty (pos + zlen data)) d1).
  2:{ unfold Read. cbn [seekPosition]. by rewrite (st_bind_Ok _ _ _ _ _ Hr). }
  assert (zlen (content d h) = numBytes h) as Hlc by (apply zlen_content; lia).
  assert (zlen data = Z.min TransferSize (numBytes h - pos)) as Hdl.
  { unfold data, slice, zlen in *. rewrite length_take, length_drop. unfold TransferSize. lia. }
  assert (data = take (length data) (drop (Z.to_nat pos) (content d h))) as Hdata.
  { unfold data, slice. symmetry. apply take_its_length. }
  destruct (Z.ltb_spec 0 (zlen data)) as [Hpos|Hnil].
  - destruct (IH d1 ty (pos + zlen data) Hinv1 Hk) as (d2 & E & Hinv2 & Hs2); [unfold TransferSize in *; lia|lia|].
    rewrite (st_bind_Ok _ _ _ _ _ E). exists d2. split; [|split; [done|by eapply same_sectors_trans]].
    rewrite (content_same d d1 h Hh Hs1). cbn [mret st_ret]. do 2 f_equal.
    rewrite <-(take_drop (length data) (drop (Z.to_nat pos) (content d h))), <-Hdata, drop_drop. f_equal.
    replace (Z.to_nat (pos + zlen data)) with (Z.to_nat pos + length data)%nat by (unfold zlen in *; lia). done.
  - exists d1. split; [|done]. cbn [mret st_ret]. rewrite drop_ge; [done|]. unfold zlen, TransferSize in *. lia.
Qed.

Lemma new_chars_bytes n : 0 <= n -> zlen (new_chars junk n) = n /\ Forall is_byte (new_chars junk n).
Proof.
  intros Hn. split; [by apply zlen_new_chars|]. apply Forall_fmap, Forall_forall. intros i _. apply (jo_chars _ _ _ _ Hjunk).
Qed.

Lemma Copy_spec d m t fm s text :
  fs_inv d fs m t fm -> is_name s -> Forall is_byte text -> zlen text <= MaxFileSize ->
  if decide (can_create m t fm (key_of s) (zlen text)) then
    exists d' m' t' sec h,
      Copy junk junk_words junk_entries junk_hdr fs (Some text) (c_str s) d = Ok (Copied, d') /\
      fs_inv d' fs m' t' (<[key_of s := (sec, h)]> fm) /\ content d' h = text /\
      forall k x, fm !! k = Some x -> content d' x.2 = content d x.2
  else exists d', Copy junk junk_words junk_entries junk_hdr fs (Some text) (c_str s) d = Ok (NoOutput, d') /\
    fs_inv d' fs m t fm /\ same_sectors d d'.
Proof.
  intros Hinv Hs Hb Hmax. pose proof (zlen_nonneg text) as Hnn.
  pose proof (Create_spec junk junk_words junk_entries junk_hdr Hjunk d fs m t fm s (zlen text) Hinv Hs ltac:(lia)) as HC.
  unfold Copy. case_decide as Hcan.
  - destruct HC as (d1 & m1 & t1 & sec & h & HC & Hinv1 & Hn & Hc1 & _). rewrite (st_bind_Ok _ _ _ _ _ HC). cbn [negb].
    destruct (Open_spec junk junk_words junk_entries junk_hdr Hjunk d1 fs m1 t1 _ s Hinv1 Hs) as (d2 & Hinv2 & Hs2 & HO & _).
    rewrite lookup_insert_eq in HO. rewrite (st_bind_Ok _ _ _ _ _ HO).
    destruct (new_chars_bytes TransferSize ltac:(done)) as [Hnl Hnb].
    destruct (copy_chunks_spec m1 t1 (<[key_of s := (sec, h)]> fm) (key_of s) sec h (S (length text)) d2 None (new_chars junk TransferSize) [] text (content d2 h))
      as (d3 & E & Hinv3 & Hc3 & Ho3); try done; [apply lookup_insert_eq|lia|lia|].
    change (zlen (@nil Z)) with 0 in E. rewrite (st_bind_Ok _ _ _ _ _ E). exists d3, m1, t1, sec, h. split_and!; try done.
    intros k x Hx. assert (k <> key_of s) as Hne by (intros ->; destruct Hcan as [Hnone _]; congruence).
    rewrite (Ho3 k x Hne) by (by rewrite lookup_insert_ne). destruct x as [sec' h'].
    rewrite (content_same d1 d2); [by apply (Hc1 k)| |done]. by apply (fi_file _ _ _ _ _ Hinv _ _ _ Hx).
  - destruct HC as (d1 & HC & Hinv1 & Hs1). rewrite (st_bind_Ok _ _ _ _ _ HC). cbn [negb]. by exists d1.
Qed.
Lemma Print_shows d m t fm s :
  fs_inv d fs m t fm -> is_name s ->
  exists d', Print junk junk_entries fs (c_str s) d =
      Ok ((fun x => content d x.2) <$> fm !! key_of s, d') /\ fs_inv d' fs m t fm /\ same_sectors d d'.
Proof.
  intros Hinv Hs. unfold Print.
  destruct (Open_spec junk junk_words junk_entries junk_hdr Hjunk d fs m t fm s Hinv Hs) as (d1 & Hinv1 & Hs1 & HO & _).
  rewrite (st_bind_Ok _ _ _ _ _ HO). destruct (fm !! key_of s) as [[sec h]|] eqn:Ek; [|by exists d1].
  destruct (fi_file _ _ _ _ _ Hinv1 _ _ _ Ek) as (_ & _ & Hh & _). pose proof (ho_bytes _ Hh).
  unfold Length, FileLength. cbn [hdr].
  destruct (print_chunks_spec m t fm (key_of s) sec h (S (Z.to_nat (numBytes h))) d1 None 0 Hinv1 Ek) as (d2 & E & Hinv2 & Hs2); [lia|lia|].
  rewrite (st_bind_Ok _ _ _ _ _ E). exists d2. split; [|split; [done|by eapply same_sectors_trans]].
  cbn [mret st_ret fmap option_fmap option_map snd]. by rewrite drop_0, (content_same d d1 h Hh Hs1).
Qed.

(** Nothing can be written to or read from a file of size 0. *)
Lemma empty_file_io h sec d from n :
  numBytes h = 0 ->
  Write junk (mkOpenFile h sec None 0) from n d = Ok ((0, mkOpenFile h sec None 0), d) /\
  Read junk (mkOpenFile h sec None 0) n d = Ok (([], mkOpenFile h sec None 0), d).
Proof.
  intros H0. unfold Write, Read, WriteAt, ReadAt, FileLength. cbn [seekPosition hdr]. rewrite H0, orb_true_r. by split.
Qed.
Lemma empty_file_rounds h sec d n buffer :
  numBytes h = 0 ->
  write_rounds junk (S n) (mkOpenFile h sec None 0) d = Ok (CannotWrite, d) /\
  read_rounds junk (S n) (mkOpenFile h sec None 0) buffer d = Ok (CannotRead, d).
Proof.
  intros H0. destruct (empty_file_io h sec d Contents ContentSize H0) as [HW HR]. cbn [write_rounds read_rounds].
  by rewrite (st_bind_Ok _ _ _ _ _ HW), (st_bind_Ok _ _ _ _ _ HR).
Qed.
End specs.

(** ** Properties *)

(** C28. A UNIX file copied into the file system is printed as it was.  On a sound
    file system with room for it, [Copy] of a file of at most 126 sectors, in
    pieces of ten bytes, makes a file whose content is that of the UNIX file,
    leaves the file system sound and all other files as they were, and [Print]
    then shows exactly the bytes of the UNIX file and changes nothing; without
    room, or when the name is taken, [Copy] changes nothing. *)
Theorem copy_then_print {D} `{SectorStoreLaws D} (junk : Z -> Z) (junk_words : list Z)
    (junk_entries : list DirectoryEntry) (junk_hdr : FileHeader)
    (d : D) (fs : FileSystem) (m : BitMap) (t : list DirectoryEntry) (fm : fmap_t) (s text : list Z) :
  junk_ok junk junk_words junk_entries junk_hdr -> fs_inv d fs m t fm -> is_name s ->
  Forall is_byte text -> zlen text <= MaxFileSize ->
  if decide (can_create m t fm (key_of s) (zlen text)) then
    exists d1 d2 m' t' sec h,
      Copy junk junk_words junk_entries junk_hdr fs (Some text) (c_str s) d = Ok (Copied, d1) /\
      fs_inv d1 fs m' t' (<[key_of s := (sec, h)]> fm) /\ content d1 h = text /\
      (forall k x, fm !! k = Some x -> content d1 x.2 = content d x.2) /\
      Print junk junk_entries fs (c_str s) d1 = Ok (Some text, d2) /\ same_sectors d1 d2
  else exists d1, Copy junk junk_words junk_entries junk_hdr fs (Some text) (c_str s) d = Ok (NoOutput, d1) /\
    fs_inv d1 fs m t fm /\ same_sectors d d1.
Proof.
  intros Hj Hinv Hs Hb Hmax. pose proof (Copy_spec junk junk_words junk_entries junk_hdr Hj fs d m t fm s text Hinv Hs Hb Hmax) as HC.
  case_decide; [|exact HC]. destruct HC as (d1 & m' & t' & sec & h & HC & Hinv1 & Hc & Ho).
  destruct (Print_shows junk junk_words junk_entries junk_hdr Hj fs d1 m' t' _ s Hinv1 Hs) as (d2 & HP & _ & Hs2).
  rewrite lookup_insert_eq in HP. simpl in HP. rewrite Hc in HP. exists d1, d2, m', t', sec, h. by split_and!.
Qed.
Lemma copy_then_print_witness :
  exists (d d1 d2 : gmap Z (list Z)) fs,
    Copy (fun _ => 0) (replicate 32 0) (replicate 10 zero_entry) zero_hdr fs
      (Some (seqZ 1 25)) (c_str sample_name) d = Ok (Copied, d1) /\
    Print (fun _ => 0) (replicate 10 zero_entry) fs (c_str sample_name) d1 = Ok (Some (seqZ 1 25), d2).
Proof.
  destruct formatted_blank as (d & fs & m & t & Hinv & Hfree).
  pose proof (copy_then_print _ _ _ _ d fs m t ∅ sample_name (seqZ 1 25) zero_junk_ok Hinv sample_name_ok
    ltac:(apply Forall_forall; intros i Hi%elem_of_seqZ; unfold is_byte; lia) ltac:(by vm_compute)) as HC.
  rewrite decide_True in HC.
  - destruct HC as (d1 & d2 & m' & t' & sec & h & HC & _ & _ & _ & HP & _). exists d, d1, d2, fs. split; [exact HC|exact HP].
  - split; [done|]. split; [by eapply directory_room|]. rewrite Hfree. done.
Defined.

(** The performance test cannot pass: it creates its file with size 0, and files
    do not grow, so the first [Write] stores nothing and the first [Read] finds
    nothing.  It reports both, removes the file, and leaves every other file as
    it was. *)
Lemma performance_test_fails {D} `{SectorStoreLaws D} (junk : Z -> Z) (junk_words : list Z)
    (junk_entries : list DirectoryEntry) (junk_hdr : FileHeader)
    (d : D) (fs : FileSystem) (m : BitMap) (t : list DirectoryEntry) (fm : fmap_t) :
  junk_ok junk junk_words junk_entries junk_hdr -> fs_inv d fs m t fm ->
  can_create m t fm FileName 0 ->
  exists d' m' t', PerformanceTest junk junk_words junk_entries junk_hdr fs d = Ok ((CannotWrite, CannotRead, true), d') /\
    fs_inv d' fs m' t' fm /\ forall k x, fm !! k = Some x -> content d' x.2 = content d x.2.
Proof.
  intros Hj Hinv Hcan. assert (is_name FileName) as Hs by (unfold is_name, FileName; repeat constructor; lia).
  pose proof (Create_spec junk junk_words junk_entries junk_hdr Hj d fs m t fm FileName 0 Hinv Hs ltac:(done)) as HC.
  change (key_of FileName) with FileName in HC. rewrite decide_True in HC by done.
  destruct HC as (d1 & m1 & t1 & sec & h & HC & Hinv1 & Hn & Hc1 & _).
  destruct (Open_spec junk junk_words junk_entries junk_hdr Hj d1 fs m1 t1 _ FileName Hinv1 Hs) as (d2 & Hinv2 & Hs2 & HO2 & _).
  destruct (Open_spec junk junk_words junk_entries junk_hdr Hj d2 fs m1 t1 _ FileName Hinv2 Hs) as (d3 & Hinv3 & Hs3 & HO3 & _).
  pose proof (Remove_spec junk junk_words junk_entries junk_hdr Hj d3 fs m1 t1 _ FileName Hinv3 Hs) as HR.
  change (key_of FileName) with FileName in *. rewrite lookup_insert_eq in HO2, HO3, HR.
  destruct HR as (d4 & m4 & t4 & HR & Hinv4 & _ & Hc4).
  destruct Hcan as [Hnone _]. rewrite delete_insert_id in Hinv4 by done.
  assert (exists n, Z.to_nat (FileSize / ContentSize) = S n) as [n Erounds] by (by exists 4999%nat).
  assert (FileWrite junk junk_words junk_entries junk_hdr fs d = Ok (CannotWrite, d2)) as EW.
  { unfold FileWrite. rewrite (st_bind_Ok _ _ _ _ _ HC). cbn [negb]. rewrite (st_bind_Ok _ _ _ _ _ HO2), Erounds.
    by apply (empty_file_rounds junk h sec d2 n []). }
  assert (FileRead junk junk_entries fs d2 = Ok (CannotRead, d3)) as ER.
  { unfold FileRead. rewrite (st_bind_Ok _ _ _ _ _ HO3), Erounds. by apply empty_file_rounds. }
  exists d4, m4, t4. unfold PerformanceTest. rewrite (st_bind_Ok _ _ _ _ _ EW), (st_bind_Ok _ _ _ _ _ ER), (st_bind_Ok _ _ _ _ _ HR).
  split; [done|]. split; [done|]. intros k [sec' h'] Hx.
  assert (k <> FileName) as Hne by congruence.
  rewrite (Hc4 k _) by (by rewrite lookup_insert_ne).
  assert (hdr_ok h') as Hh' by apply (fi_file _ _ _ _ _ Hinv _ _ _ Hx). cbn [snd].
  rewrite (content_same d2 d3 h' Hh' Hs3), (content_same d1 d2 h' Hh' Hs2). apply (Hc1 k _ Hx).
Qed.
