(* ===== verification/ReadFormat.v ===== *)
(** * userprog/exception.cc: the call ReadFileFormat

    The call is meant to read a file of numbers, a count and then lines, into an
    array of the program.  [Node] objects hold the lines; the entry of a line in
    [bigHead] is a node whose [data] is the number of numbers (the nodes of the
    numbers are created but never linked to it).  A character of the file that is
    read is in [temp], which keeps its value at the end of the file. *)

From S2P Require Import Prelude Interrupt Machine SynchCons StubFS Syscalls.
From stdpp Require Import gmap list.
#[local] Open Scope Z_scope.

Section calls.
Context {X : Type}.
#[local] Abbreviation S := (sim (cpu (kern X))).

(** [machine->WriteMem(virtAddr + i, 4, buffer[i])] for every [i] *)
Fixpoint s2ui_loop (n : nat) (i virtAddr : Z) (buffer : list Z) : st S Z :=
  match n with
  | O => mret i
  | Datatypes.S n' =>
      v ← lift (rd buffer i);
      WriteMem fault_handler (to_int (virtAddr + i)) 4 v;;
      s2ui_loop n' (i + 1) virtAddr buffer
  end.
Definition System2UserInt (virtAddr len : Z) (buffer : list Z) : st S Z :=
  if len <? 0 then mret (-1)
  else if len =? 0 then mret len
  else s2ui_loop (Z.to_nat len) 0 virtAddr buffer.

(** A list of nodes from a pointer: [None] was never set. *)
Definition node_list := option (list Z).
(** [delete2DimNodeArr] frees every list; a pointer that was never set is
    followed all the same. *)
Definition delete2DimNodeArr (arr : list node_list) (size : Z) : res unit :=
  if size <=? 0 then Ok tt
  else for_range 0 size (fun i _ => l ← rd arr i; match l with Some _ => Ok tt | None => UB end) tt.

(** [len = file->Read(temp, 1)] *)
Definition read_char (fID : Z) (temp : option Z) : st S (option Z * Z) :=
  o ← on_fs (list_at fID);
  match o with
  | None => lift UB
  | Some f => bs ← file_Read fID f 1; mret (match bs with c :: _ => Some c | [] => temp end, zlen bs)
  end.
(** [*temp] *)
Definition char_of (temp : option Z) : st S Z := lift (match temp with Some c => Ok c | None => UB end).
Definition digit (c : Z) : bool := (48 <=? c) && (c <=? 57).

(** The number of lines: [stopRun], the number, [temp]. *)
Fixpoint read_count (fuel : nat) (fID : Z) (temp : option Z) (total : Z) : st S (bool * Z * option Z) :=
  match fuel with
  | O => lift NoFuel
  | Datatypes.S f =>
      '(temp, _) ← read_char fID temp;
      c ← char_of temp;
      if digit c then read_count f fID temp (to_int (to_int (total * 10) + (c - 48)))
      else if c =? 10 then mret (false, total, temp)
      else mret (true, total, temp)
  end.

(** One line: [stopRun], [size], [temp], [len]. *)
Fixpoint read_line (fuel : nat) (fID : Z) (temp : option Z) (curNum size : Z) (isSet : bool) : st S (bool * Z * option Z * Z) :=
  match fuel with
  | O => lift NoFuel
  | Datatypes.S f =>
      '(temp, len) ← read_char fID temp;
      c ← char_of temp;
      if negb (c =? 32) && negb (c =? 10) && negb (digit c) then mret (true, size, temp, len)
      else
        let '(curNum, size, isSet) :=
          if ((c =? 32) || (c =? 10)) && isSet then (0, size + 1, false)
          else if digit c then (to_int (to_int (curNum * 10) + (c - 48)), size, true)
          else (curNum, size, isSet) in
        if c =? 10 then mret (false, size, temp, len)
        else read_line f fID temp curNum size isSet
  end.

(** The lines: [while (!stopRun)]. *)
Fixpoint read_lines (fuel : nat) (fID : Z) (temp : option Z) (stopRun : bool) (len : Z) (bigHead : list node_list) (index totalSize : Z)
  : st S (bool * list node_list * Z * Z) :=
  match fuel with
  | O => lift NoFuel
  | Datatypes.S f =>
      if stopRun then mret (stopRun, bigHead, totalSize, len)
      else
        bigHead ← lift (wr bigHead index (Some [0])); (* [data] is not set yet; the 0 is never read *)
        '(stop, size, temp, len) ← read_line fuel fID temp 0 0 false;
        bigHead ← (if negb stop then lift (wr bigHead index (Some [size])) else mret bigHead);
        read_lines f fID temp stop len bigHead (index + 1) (totalSize + (size + 1))
  end.

(** [bufData]: the count and then the lists, one behind the other. *)
Fixpoint fill_data (bigHead : list node_list) (bufData : list Z) (index : Z) : res (list Z * Z) :=
  match bigHead with
  | [] => Ok (bufData, index)
  | None :: _ => UB
  | Some l :: r =>
      '(bufData, index) ← foldl (fun acc v => '(b, i) ← acc; b ← wr b i v; Ok (b, i + 1)) (Ok (bufData, index)) l;
      fill_data r bufData index
  end.

(** [fuel] bounds the characters read; [junk] is what [new int[n]] holds. *)
Definition SC_ReadFileFormat (fuel : nat) (junk : Z -> list Z) : st S unit :=
  addData ← rreg 4;
  fID ← rreg 5;
  o ← on_fs (list_at fID);
  match o with
  | None => setreg 2 (-1)
  | Some _ =>
      '(stopRun, total, temp) ← read_count fuel fID None 0;
      if (stopRun : bool) then mret tt
      else
        bigHead ← lift (if total <? 0 then UB else Ok (replicate (Z.to_nat total) None));
        '(stopRun, bigHead, totalSize, len) ← read_lines fuel fID temp false 0 bigHead 0 1;
        (if negb stopRun then
           bufData ← lift (wr (junk totalSize) 0 totalSize);
           '(bufData, _) ← lift (fill_data bigHead bufData 1);
           System2UserInt addData totalSize bufData;;
           setreg 2 len
         else mret tt);;
        lift (delete2DimNodeArr bigHead total)
  end.

(** ** What becomes of the data *)

(** The code does not touch the machine. *)
Definition leaves {A} (Q : A -> Prop) (c : st S A) : Prop :=
  forall s a s', c s = Ok (a, s') -> mach (world s') = mach (world s) /\ Q a.

Lemma leaves_ret {A} (Q : A -> Prop) a : Q a -> leaves Q (mret a).
Proof. by intros HQ s b s' [= <- <-]. Qed.
Lemma leaves_lift {A} (Q : A -> Prop) (r : res A) : (forall a, r = Ok a -> Q a) -> leaves Q (lift r).
Proof. intros HQ s b s'. unfold lift. destruct r; try done. simpl. intros [= <- <-]. auto. Qed.
Lemma leaves_bind {A B} (R : A -> Prop) (Q : B -> Prop) (c : st S A) (f : A -> st S B) :
  leaves R c -> (forall a, R a -> leaves Q (f a)) -> leaves Q (c ≫= f).
Proof.
  intros Hc Hf s b s'. unfold mbind, st_bind. destruct (c s) as [[a s1]| | | |] eqn:E; try done. intros H.
  destruct (Hc s a s1 E) as [E1 Ra]. destruct (Hf a Ra s1 b s' H) as [E2 Qb]. split; [congruence|done].
Qed.
Lemma leaves_on_fs {A} (c : st FileSystem A) : leaves (fun _ => True) (on_fs c).
Proof.
  intros s a s'. unfold on_fs. destruct (c _) as [[b f]| | | |]; try done. simpl. by intros [= <- <-].
Qed.
Lemma leaves_rreg n : leaves (fun _ => True) (rreg n).
Proof.
  intros s a s'. unfold rreg, get_m, mbind, st_bind, lift. destruct (ReadRegister _ n); try done. simpl. by intros [= <- <-].
Qed.
Ltac leave := first [apply leaves_on_fs | apply leaves_rreg | by apply leaves_ret | by apply leaves_lift].
Ltac leave_step := eapply (leaves_bind (fun _ => True)); [leave|intros ? _].

Lemma leaves_read_char fID temp : leaves (fun _ => True) (read_char fID temp).
Proof.
  unfold read_char, file_Read. leave_step. destruct a as [f|]; [|leave].
  eapply (leaves_bind (fun _ => True)); [|intros ? _; leave]. leave_step. destruct a as [[bs n] f']. leave_step.
  destruct (n <? 0); leave.
Qed.
Lemma leaves_read_count fID : forall fuel temp total, leaves (fun _ => True) (read_count fuel fID temp total).
Proof.
  induction fuel as [|fuel IH]; intros temp total; cbn [read_count]; [leave|].
  eapply (leaves_bind (fun _ => True)); [apply leaves_read_char|]. intros [temp' len] _. leave_step.
  destruct (digit a); [apply IH|]. destruct (a =? 10); leave.
Qed.
Lemma leaves_read_line fID : forall fuel temp curNum size isSet,
  leaves (fun _ => True) (read_line fuel fID temp curNum size isSet).
Proof.
  induction fuel as [|fuel IH]; intros temp curNum size isSet; cbn [read_line]; [leave|].
  eapply (leaves_bind (fun _ => True)); [apply leaves_read_char|]. intros [temp' len] _. leave_step.
  destruct (negb _ && negb _ && negb _); [leave|]. destruct (_ && isSet); [destruct (a =? 10); [leave|apply IH]|].
  destruct (digit a); destruct (a =? 10); (leave || apply IH).
Qed.
(** The loop over the lines ends by [stopRun] only. *)
Lemma leaves_read_lines fID : forall fuel temp stopRun len bigHead index totalSize,
  leaves (fun r => r.1.1.1 = true) (read_lines fuel fID temp stopRun len bigHead index totalSize).
Proof.
  induction fuel as [|fuel IH]; intros temp stopRun len bigHead index totalSize; cbn [read_lines]; [leave|].
  destruct stopRun; [by apply leaves_ret|]. leave_step.
  eapply (leaves_bind (fun _ => True)); [apply leaves_read_line|]. intros [[[stop size] temp'] len'] _.
  eapply (leaves_bind (fun _ => True)); [destruct stop; leave|]. intros bh _. apply IH.
Qed.
End calls.

(** ReadFileFormat never delivers anything.  Whatever the file holds: when the
    call returns, for an open file, memory and registers of the machine are
    unchanged, so the program gets neither numbers nor a result; the loop over
    the lines is left only by an illegal character, and what follows it is
    skipped then.  (For a file of numbers only it does not return: see the
    next lemma.) *)
Lemma read_format_delivers_nothing {X} (fuel : nat) (junk : Z -> list Z) (s s' : sim (cpu (kern X))) fID f :
  zget (registers (mach (world s))) 5 = Some fID ->
  zget (openFileList (fsys (os (world s)))) fID = Some (Some f) ->
  SC_ReadFileFormat fuel junk s = Ok (tt, s') -> mach (world s') = mach (world s).
Proof.
  intros H5 Hf. unfold SC_ReadFileFormat.
  unfold mbind at 1, st_bind at 1. destruct (rreg 4 s) as [[addData s1]| | | |] eqn:E4; try done.
  assert (s1 = s) as ->.
  { revert E4. unfold rreg, get_m, mbind, st_bind, lift. destruct (ReadRegister _ 4); try done. simpl. by intros [= _ <-]. }
  rewrite (st_bind_Ok _ _ _ fID s).
  2:{ unfold rreg, get_m, mbind, st_bind, lift, ReadRegister. cbn [andb]. by rewrite (proj2 (rd_Ok _ _ _) H5). }
  rewrite (st_bind_Ok _ _ _ (Some f) s).
  2:{ unfold on_fs, list_at. rewrite (proj2 (rd_Ok _ _ _) Hf). cbn [mbind res_bind]. destruct s as [? ? [? [? ? ?]]]. done. }
  intros H. eapply (leaves_bind (fun _ => True) (fun _ => True)); [apply leaves_read_count| |exact H].
  intros [[stop total] temp] _. destruct stop; [by apply leaves_ret|].
  eapply (leaves_bind (fun _ => True)); [by apply leaves_lift|]. intros bigHead _.
  eapply leaves_bind; [apply leaves_read_lines|]. intros [[[stop bh] totalSize] len] Hstop. cbn in Hstop. rewrite Hstop. cbn [negb].
  eapply (leaves_bind (fun _ => True)); [by apply leaves_ret|]. intros _ _. by apply leaves_lift.
Qed.

(** A correct file, one line of two numbers: at its end [temp] stays a line end,
    the loop goes on to a second line, and its entry is written behind the array.
    A line with a letter ends the call. *)
Definition numbers_fs (text : list Z) : FileSystem :=
  mkFileSystem (mkUnix {[ [97] := 1 ]} {[ 1 := text ]} {[ 4 := mkDescr 1 0 true ]})
    (<[3%nat := Some (mkOpenFile 4 (Some 0) 0)]> (replicate 10 None)).
Lemma read_format_overruns :
  SC_ReadFileFormat 50 (fun _ => []) (call_state (numbers_fs [49; 10; 53; 32; 54; 10]) 4 3 0) = UB.
Proof. by vm_compute. Qed.
Lemma Ok_exists {A} (P : Prop) (r : res (unit * A)) : (forall s', r = Ok (tt, s') -> P) -> is_Ok r = true -> P.
Proof. intros HP. destruct r as [[[] s']| | | |]; try done. intros _. by apply (HP s'). Qed.
Lemma read_format_returns :
  exists s', SC_ReadFileFormat 50 (fun _ => []) (call_state (numbers_fs [49; 10; 53; 120]) 4 3 0) = Ok (tt, s') /\
    mach (world s') = mach (world (call_state (numbers_fs [49; 10; 53; 120]) 4 3 0)).
Proof.
  refine (Ok_exists _ _ (fun s' E => ex_intro _ s' (conj E _)) _);
    [exact (read_format_delivers_nothing 50 (fun _ => []) (call_state (numbers_fs [49; 10; 53; 120]) 4 3 0) s' 3 (mkOpenFile 4 (Some 0) 0) eq_refl eq_refl E)|vm_compute; reflexivity].
Qed.
