(* ===== verification/CmdLine.v ===== *)
(** * threads/main.cc, threads/system.cc, threads/utility.cc: the command line

    [Initialize] takes its options from the command line and [main] its commands,
    each passing over the words of the other.  Which words they know is decided
    by the options of the build.  A word is its characters; [argv] is without the
    name of the program.  What a command does is an argument; the end of the file
    runs the commands of the file system. *)

From S2P Require Import Prelude BitMap Disk FileHdr OpenFile Directory FileSys FsTest.
From stdpp Require Import gmap list sets.
#[local] Open Scope Z_scope.

(** The macros of the Makefiles. *)
Record build := mkBuild { THREADS : bool; USER_PROGRAM : bool; FILESYS_NEEDED : bool; FILESYS : bool; NETWORK : bool }.

(** "-d" and so on *)
Definition w_d : list Z := [45; 100].
Definition w_rs : list Z := [45; 114; 115].
Definition w_s : list Z := [45; 115].
Definition w_f : list Z := [45; 102].
Definition w_l : list Z := [45; 108].
Definition w_m : list Z := [45; 109].
Definition w_z : list Z := [45; 122].
Definition w_x : list Z := [45; 120].
Definition w_c : list Z := [45; 99].
Definition w_cp : list Z := [45; 99; 112].
Definition w_p : list Z := [45; 112].
Definition w_r : list Z := [45; 114].
Definition w_D : list Z := [45; 68].
Definition w_t : list Z := [45; 116].
Definition w_o : list Z := [45; 111].
(** [!strcmp(a, b)] *)
Definition same_word (a b : list Z) : bool := bool_decide (a = b).

(** [atoi]: blanks, a sign, digits.  A number that is no [int] has no defined value. *)
Fixpoint atoi_digits (s : list Z) (n : Z) : Z :=
  match s with
  | c :: r => if (48 <=? c) && (c <=? 57) then atoi_digits r (n * 10 + (c - 48)) else n
  | [] => n
  end.
Fixpoint atoi_blanks (s : list Z) : list Z :=
  match s with c :: r => if (c =? 32) || ((9 <=? c) && (c <=? 13)) then atoi_blanks r else s | [] => [] end.
Definition atoi (s : list Z) : res Z :=
  let n := match atoi_blanks s with
           | 45 :: r => - atoi_digits r 0
           | 43 :: r => atoi_digits r 0
           | r => atoi_digits r 0
           end in
  if decide (is_int n) then Ok n else UB.

(** ** DEBUG (threads/utility.cc) *)

(** [strchr(s, c) != 0]; the terminator is a character of the string *)
Definition strchr (s : list Z) (c : Z) : bool := bool_decide (c ∈ s ++ [0]).
Definition DebugIsEnabled (enableFlags : option (list Z)) (flag : Z) : bool :=
  match enableFlags with
  | Some s => strchr s flag || strchr s 43
  | None => false
  end.

(** ** The options of Initialize *)

Record options := mkOptions {
  debugArgs : list Z;
  seed : option Z;      (** [RandomInit] was called, and [randomYield] is true *)
  debugUserProg : bool;
  format : bool;
  rely : option (list Z);   (** what [atof] reads; the reliability is 1 otherwise *)
  netname : Z
}.
Definition no_options : options := mkOptions [] None false false None 0.
Definition set_debugArgs o v := mkOptions v (seed o) (debugUserProg o) (format o) (rely o) (netname o).
Definition set_seed o v := mkOptions (debugArgs o) v (debugUserProg o) (format o) (rely o) (netname o).
Definition set_debugUserProg o v := mkOptions (debugArgs o) (seed o) v (format o) (rely o) (netname o).
Definition set_format o v := mkOptions (debugArgs o) (seed o) (debugUserProg o) v (rely o) (netname o).
Definition set_rely o v := mkOptions (debugArgs o) (seed o) (debugUserProg o) (format o) v (netname o).
Definition set_netname o v := mkOptions (debugArgs o) (seed o) (debugUserProg o) (format o) (rely o) v.

Section command_line.
Context (B : build).

(** The body of the loop: the options and [argCount]; [rest] is behind [a]. *)
Definition init_arg (o : options) (a : list Z) (rest : list (list Z)) : res (options * Z) :=
  '(o, argCount) ←
    (if same_word a w_d then
       match rest with
       | [] => Ok (set_debugArgs o [43], 1)
       | f :: _ => Ok (set_debugArgs o f, 2)
       end
     else if same_word a w_rs then
       match rest with
       | [] => AssertFail
       | n :: _ => n ← atoi n; Ok (set_seed o (Some n), 2)
       end
     else Ok (o, 1));
  let o := if USER_PROGRAM B && same_word a w_s then set_debugUserProg o true else o in
  let o := if FILESYS_NEEDED B && same_word a w_f then set_format o true else o in
  if NETWORK B then
    if same_word a w_l then
      match rest with [] => AssertFail | v :: _ => Ok (set_rely o (Some v), 2) end
    else if same_word a w_m then
      match rest with [] => AssertFail | v :: _ => n ← atoi v; Ok (set_netname o n, 2) end
    else Ok (o, argCount)
  else Ok (o, argCount).
(** The loop; a round for every word is enough. *)
Fixpoint init_args (fuel : nat) (o : options) (argv : list (list Z)) : res options :=
  match argv with
  | [] => Ok o
  | a :: rest =>
      match fuel with
      | O => NoFuel
      | S f =>
          '(o, argCount) ← init_arg o a rest;
          init_args f o (drop (Z.to_nat (argCount - 1)) rest)
      end
  end.

(** ** The commands of main *)

Inductive command :=
| Copyright
| Start (file : list Z)
| Echo (files : option (list Z * list Z))
| CopyIn (from to : list Z)
| PrintFile (file : list Z)
| RemoveFile (file : list Z)
| ListDirectory
| PrintAll
| Performance
| Mail (id : list Z).

Context {S : Type} (run : command -> st S unit) (Halt : st S unit) (ThreadTest : Z -> st S unit) (Finish : st S unit).

(** [ConsoleTest] and then [interrupt->Halt()] *)
Definition perform (c : command) : st S unit :=
  run c;; match c with Echo _ => Halt | _ => mret tt end.
Definition main_arg (a : list Z) (rest : list (list Z)) : st S Z :=
  (if same_word a w_z then perform Copyright else mret tt);;
  argCount ←
    (if USER_PROGRAM B then
       if same_word a w_x then
         match rest with f :: _ => perform (Start f);; mret 2 | [] => lift AssertFail end
       else if same_word a w_c then
         match rest with
         | [] => perform (Echo None);; mret 1
         | [_] => lift AssertFail
         | i :: o :: _ => perform (Echo (Some (i, o)));; mret 3
         end
       else mret 1
     else mret 1);
  argCount ←
    (if FILESYS B then
       if same_word a w_cp then
         match rest with f :: t :: _ => perform (CopyIn f t);; mret 3 | _ => lift AssertFail end
       else if same_word a w_p then
         match rest with f :: _ => perform (PrintFile f);; mret 2 | [] => lift AssertFail end
       else if same_word a w_r then
         match rest with f :: _ => perform (RemoveFile f);; mret 2 | [] => lift AssertFail end
       else if same_word a w_l then perform ListDirectory;; mret argCount
       else if same_word a w_D then perform PrintAll;; mret argCount
       else if same_word a w_t then perform Performance;; mret argCount
       else mret argCount
     else mret argCount);
  if NETWORK B && same_word a w_o then
    match rest with n :: _ => perform (Mail n);; mret 2 | [] => lift AssertFail end
  else mret argCount.
Fixpoint main_args (fuel : nat) (argv : list (list Z)) : st S unit :=
  match argv with
  | [] => mret tt
  | a :: rest =>
      match fuel with
      | O => lift NoFuel
      | Datatypes.S f =>
          argCount ← main_arg a rest;
          main_args f (drop (Z.to_nat (argCount - 1)) rest)
      end
  end.

(** The loop of a THREADS build: [testnum].  [argv[0][1]] may be the terminator. *)
Fixpoint test_args (fuel : nat) (testnum : Z) (argv : list (list Z)) : res Z :=
  match argv with
  | [] => Ok testnum
  | a :: rest =>
      match fuel with
      | O => NoFuel
      | Datatypes.S f =>
          c ← rd (a ++ [0]) 1;
          if c =? 113 then
            match rest with
            | [] => UB
            | n :: r => n ← atoi n; test_args f n r
            end
          else test_args f 1 rest
      end
  end.

(** [main] behind [Initialize].  The loop of a THREADS build leaves no words for
    the second loop. *)
Definition main (argv : list (list Z)) : st S unit :=
  argv ← (if THREADS B then
            testnum ← lift (test_args (length argv) 1 argv);
            ThreadTest testnum;;
            mret []
          else mret argv);
  main_args (length argv) argv;;
  Finish.
End command_line.

(** ** What a command line says *)

(** An option or a command, as the usage message has them. *)
Inductive item :=
| Debug (flags : list Z)
| Seed (n : list Z)
| Step
| Format
| Rely (v : list Z)
| NetName (n : list Z)
| Command (c : command).

Definition command_words (c : command) : list (list Z) :=
  match c with
  | Copyright => [w_z]
  | Start f => [w_x; f]
  | Echo None => [w_c]
  | Echo (Some (i, o)) => [w_c; i; o]
  | CopyIn f t => [w_cp; f; t]
  | PrintFile f => [w_p; f]
  | RemoveFile f => [w_r; f]
  | ListDirectory => [w_l]
  | PrintAll => [w_D]
  | Performance => [w_t]
  | Mail n => [w_o; n]
  end.
Definition words (i : item) : list (list Z) :=
  match i with
  | Debug f => [w_d; f]
  | Seed n => [w_rs; n]
  | Step => [w_s]
  | Format => [w_f]
  | Rely v => [w_l; v]
  | NetName n => [w_m; n]
  | Command c => command_words c
  end.
Definition line (l : list item) : list (list Z) := concat (words <$> l).

(** What it means. *)
Definition number (s : list Z) : Z := match atoi s with Ok n => n | _ => 0 end.
Definition set_option (o : options) (i : item) : options :=
  match i with
  | Debug f => set_debugArgs o f
  | Seed n => set_seed o (Some (number n))
  | Step => set_debugUserProg o true
  | Format => set_format o true
  | Rely v => set_rely o (Some v)
  | NetName n => set_netname o (number n)
  | Command _ => o
  end.
Definition commands (l : list item) : list command := omap (fun i => match i with Command c => Some c | _ => None end) l.

(** A word that is no option; arguments are such words, numbers are [int]s, and
    the build knows the item (with both a file system and a network the word -l
    is ambiguous). *)
Definition plain (s : list Z) : Prop := head s <> Some 45.
Definition command_ok (B : build) (c : command) : Prop :=
  match c with
  | Copyright => True
  | Start f => USER_PROGRAM B = true /\ plain f
  | Echo None => False
  | Echo (Some (i, o)) => USER_PROGRAM B = true /\ plain i /\ plain o
  | CopyIn f t => FILESYS B = true /\ plain f /\ plain t
  | PrintFile f | RemoveFile f => FILESYS B = true /\ plain f
  | ListDirectory => FILESYS B = true /\ NETWORK B = false
  | PrintAll | Performance => FILESYS B = true
  | Mail n => NETWORK B = true /\ plain n
  end.
Definition is_number (s : list Z) : Prop := plain s /\ is_Ok (atoi s) = true.
Definition item_ok (B : build) (i : item) : Prop :=
  match i with
  | Debug f => plain f
  | Seed n => is_number n
  | Step => USER_PROGRAM B = true
  | Format => FILESYS_NEEDED B = true
  | Rely v => NETWORK B = true /\ FILESYS B = false /\ plain v
  | NetName n => NETWORK B = true /\ is_number n
  | Command c => command_ok B c
  end.

Section parsing.
Context (B : build).

Lemma plain_word s w : plain s -> head w = Some 45 -> same_word s w = false.
Proof. intros Hs Hw. apply bool_decide_eq_false. intros ->. done. Qed.

(** Words that the loop of [Initialize] passes over. *)
Definition no_option (a : list Z) : Prop := forall o rest, init_arg B o a rest = Ok (o, 1).
Lemma plain_no_option a : plain a -> no_option a.
Proof.
  intros Ha o rest. unfold init_arg. rewrite !(plain_word a) by done. cbn [mbind res_bind].
  rewrite !andb_false_r. by destruct (NETWORK B).
Qed.
Lemma init_skip l : forall fuel o rest, Forall no_option l -> (length l <= fuel)%nat ->
  init_args B fuel o (l ++ rest) = init_args B (fuel - length l) o rest.
Proof.
  induction l as [|a l IH]; intros fuel o rest Hl Hf; [by rewrite Nat.sub_0_r|].
  inversion Hl as [|? ? Ha Hl']; subst. destruct fuel as [|fuel]; simpl in Hf; [lia|].
  cbn [app init_args]. rewrite Ha. cbn [mbind res_bind]. change (Z.to_nat (1 - 1)) with 0%nat. rewrite drop_0.
  by rewrite IH by (done || lia).
Qed.

Context {S : Type} (run : command -> st S unit) (Halt : st S unit).

(** Words that the loop of [main] passes over. *)
Definition no_command (a : list Z) : Prop := forall rest s, main_arg B run Halt a rest s = Ok (1, s).
Lemma plain_no_command a : plain a -> no_command a.
Proof.
  intros Ha rest s. unfold main_arg. rewrite !(plain_word a) by done.
  rewrite andb_false_r. by destruct (USER_PROGRAM B), (FILESYS B).
Qed.
Lemma main_skip l : forall fuel rest s, Forall no_command l -> (length l <= fuel)%nat ->
  main_args B run Halt fuel (l ++ rest) s = main_args B run Halt (fuel - length l) rest s.
Proof.
  induction l as [|a l IH]; intros fuel rest s Hl Hf; [by rewrite Nat.sub_0_r|].
  inversion Hl as [|? ? Ha Hl']; subst. destruct fuel as [|fuel]; simpl in Hf; [lia|].
  cbn [app main_args]. rewrite (st_bind_Ok _ _ _ _ _ (Ha _ _)). change (Z.to_nat (1 - 1)) with 0%nat. rewrite drop_0.
  by rewrite IH by (done || lia).
Qed.

(** One item at the front of the line. *)
Ltac eval_words :=
  repeat match goal with
  | |- context [same_word ?a ?b] =>
      let v := eval vm_compute in (same_word a b) in
      lazymatch v with true => idtac | false => idtac end; change (same_word a b) with v
  end.
Ltac option_word := intros ? ?; unfold init_arg; eval_words; rewrite ?andb_false_r; cbn [mbind res_bind]; by destruct (NETWORK B).
Ltac command_word := intros ? ?; unfold main_arg; eval_words; rewrite ?andb_false_r; by destruct (USER_PROGRAM B), (FILESYS B).

Lemma number_ok n : is_number n -> plain n /\ atoi n = Ok (number n).
Proof. intros [Hp Hn]. split; [done|]. unfold number. by destruct (atoi n). Qed.

Lemma command_no_options c : command_ok B c -> Forall no_option (command_words c).
Proof.
  assert (forall a, plain a -> no_option a) as Hp by exact plain_no_option.
  destruct c as [|f|[[i o]|]|f t|f|f| | | |n]; simpl; intros Hc; repeat constructor; try (by apply Hp, Hc); try option_word; try done.
  destruct Hc as [_ HN]. intros o rest. unfold init_arg. eval_words. rewrite HN, !andb_false_r. done.
Qed.
Lemma init_item i fuel o rest : item_ok B i -> (length (words i ++ rest) <= fuel)%nat ->
  exists fuel', (length rest <= fuel')%nat /\ init_args B fuel o (words i ++ rest) = init_args B fuel' (set_option o i) rest.
Proof.
  rewrite length_app. intros Hi Hf. destruct i as [f|n| | |v|n|c]; simpl in Hi.
  7:{ exists (fuel - length (command_words c))%nat. split; [simpl in Hf; lia|].
      apply init_skip; [by apply command_no_options|simpl in Hf; lia]. }
  all: destruct fuel as [|fuel]; simpl in Hf; [lia|]; exists fuel; (split; [lia|]); cbn [words app init_args];
    unfold init_arg; eval_words; rewrite ?andb_false_r, ?andb_true_r; cbn [mbind res_bind].
  - by destruct (NETWORK B).
  - destruct (number_ok n Hi) as [_ ->]. cbn [mbind res_bind]. by destruct (NETWORK B).
  - rewrite Hi. by destruct (NETWORK B).
  - rewrite Hi. by destruct (NETWORK B).
  - destruct Hi as [-> _]. done.
  - destruct Hi as [-> Hn]. destruct (number_ok n Hn) as [_ ->]. done.
Qed.

Lemma option_no_commands i : item_ok B i -> (forall c, i <> Command c) -> Forall no_command (words i).
Proof.
  assert (forall a, plain a -> no_command a) as Hp by exact plain_no_command.
  intros Hi Hc. destruct i as [f|n| | |v|n|c]; simpl in *; repeat constructor; try (by apply Hp, Hi); try command_word; try done.
  - destruct Hi as (_ & HF & _). intros rest s. unfold main_arg. eval_words. rewrite HF, andb_false_r. by destruct (USER_PROGRAM B).
  - by destruct (Hc c).
Qed.
Lemma main_command c fuel rest s : command_ok B c -> (length (command_words c ++ rest) <= fuel)%nat ->
  exists fuel', (length rest <= fuel')%nat /\
    main_args B run Halt fuel (command_words c ++ rest) s = (perform run Halt c;; main_args B run Halt fuel' rest) s.
Proof.
  rewrite length_app. intros Hc Hf. destruct fuel as [|fuel]; [destruct c as [| |[[]|]| | | | | | |]; simpl in Hf; lia|].
  exists fuel. split; [destruct c as [| |[[]|]| | | | | | |]; simpl in Hf, Hc; try done; lia|].
  destruct c as [|f|[[i o]|]|f t|f|f| | | |n]; simpl in Hc; try done; cbn [command_words app main_args];
    unfold main_arg; eval_words; unfold mbind, st_bind, mret, st_ret;
    repeat match goal with H : _ /\ _ |- _ => destruct H end;
    repeat match goal with H : _ B = _ |- _ => rewrite H; clear H end; rewrite ?andb_false_r; cbn [andb];
    try (destruct (USER_PROGRAM B)); try (destruct (FILESYS B)); try (destruct (NETWORK B)); lazy beta iota;
    destruct (perform run Halt _ s) as [[[] s']| | | |]; done.
Qed.

Fixpoint run_all (cs : list command) : st S unit :=
  match cs with [] => mret tt | c :: cs => perform run Halt c;; run_all cs end.

Lemma init_line l : forall fuel o, Forall (item_ok B) l -> (length (line l) <= fuel)%nat ->
  init_args B fuel o (line l) = Ok (foldl set_option o l).
Proof.
  induction l as [|i l IH]; intros fuel o Hl Hf; [by destruct fuel|]. inversion Hl; subst.
  destruct (init_item i fuel o (line l)) as (f' & Hf' & E); [done|done|]. unfold line in *. cbn [fmap list_fmap concat] in *.
  rewrite E. cbn [foldl]. by apply IH.
Qed.
Lemma main_line l : forall fuel s, Forall (item_ok B) l -> (length (line l) <= fuel)%nat ->
  main_args B run Halt fuel (line l) s = run_all (commands l) s.
Proof.
  induction l as [|i l IH]; intros fuel s Hl Hf; [by destruct fuel|]. inversion Hl as [|? ? Hi Hl']; subst.
  unfold line in *. cbn [fmap list_fmap concat] in *. fold (line l) in *.
  assert ((exists c, i = Command c) \/ forall c, i <> Command c) as [[c ->]|Hn] by (destruct i; eauto; by right).
  - destruct (main_command c fuel (line l) s) as (f' & Hf' & E); [done|done|].
    cbn [words] in *. rewrite E. cbn [commands omap list_omap run_all]. unfold mbind, st_bind.
    destruct (perform run Halt c s) as [[[] s']| | | |]; try done. by apply IH.
  - rewrite length_app in Hf. rewrite main_skip by (by try apply option_no_commands; lia || done).
    rewrite IH by (done || lia). f_equal. unfold commands. destruct i; try done. by destruct (Hn c).
Qed.
End parsing.

(** ** The commands of the file system *)

Section fs_commands.
Context {D : Type} `{SectorStore D}.
Context (junk : Z -> Z) (junk_words : list Z) (junk_entries : list DirectoryEntry) (junk_hdr : FileHeader).
Context (fs : FileSystem).
(** The UNIX files, the text of -z, and the commands that are not the file system's. *)
Context (unix : list Z -> option (list Z)) (copyright : list Z) (others : command -> st (D * list Z) unit).

(** The state is the disk and what has been printed (without messages). *)
Definition on_disk {A} (c : st D A) : st (D * list Z) A := fun s => '(a, d) ← c s.1; Ok (a, (d, s.2)).
Definition show (out : list Z) : st (D * list Z) unit := fun s => Ok (tt, (s.1, s.2 ++ out)).
Definition fs_run (c : command) : st (D * list Z) unit :=
  match c with
  | Copyright => show copyright
  | CopyIn from to => on_disk (Copy junk junk_words junk_entries junk_hdr fs (unix from) (c_str to));; mret tt
  | PrintFile f =>
      o ← on_disk (FsTest.Print junk junk_entries fs (c_str f));
      match o with Some out => show out | None => mret tt end
  | RemoveFile f => on_disk (FileSys.Remove junk junk_words junk_entries fs (c_str f));; mret tt
  | ListDirectory => names ← on_disk (fs_List junk junk_entries fs); show (concat ((fun n => n ++ [10]) <$> names))
  | Performance => on_disk (PerformanceTest junk junk_words junk_entries junk_hdr fs);; mret tt
  | _ => others c
  end.
End fs_commands.

(** What they mean, on the files as a finite map and on what is printed.  A file
    takes a directory entry, a sector for its header and the sectors of its data;
    there are ten entries, and the sectors that the file system itself does not
    use.  A copy happens exactly when the host has the file, the name is free and
    there is room. *)
Section meaning.
Context (unix : list Z -> option (list Z)) (copyright : list Z).
Definition sectors_for (text : list Z) : Z := divRoundUp (zlen text) SectorSize + 1.
Definition space_used (M : gmap (list Z) (list Z)) : Z :=
  foldr (fun x n => sectors_for x.2 + n) 0 (map_to_list M).
Definition space_free (M : gmap (list Z) (list Z)) : Z :=
  NumSectors - (divRoundUp FreeMapFileSize SectorSize + 1) - (divRoundUp DirectoryFileSize SectorSize + 1) - space_used M.
Definition has_room (M : gmap (list Z) (list Z)) (text : list Z) : bool :=
  (Z.of_nat (size M) <? NumDirEntries) && (sectors_for text <=? space_free M).
Definition means (c : command) (x : gmap (list Z) (list Z) * list Z) : gmap (list Z) (list Z) * list Z :=
  let '(M, out) := x in
  match c with
  | Copyright => (M, out ++ copyright)
  | CopyIn from to =>
      match unix from, M !! key_of to with
      | Some text, None => if has_room M text then (<[key_of to := text]> M, out) else (M, out)
      | _, _ => (M, out)
      end
  | PrintFile f => (M, out ++ default [] (M !! key_of f))
  | RemoveFile f => (delete (key_of f) M, out)
  | _ => (M, out)
  end.
Definition means_all (cs : list command) (x : gmap (list Z) (list Z) * list Z) : gmap (list Z) (list Z) * list Z :=
  foldl (fun x c => means c x) x cs.
End meaning.

(** The files that the tables [fm] and the disk hold. *)
Definition files {D} `{SectorStore D} (d : D) (fm : fmap_t) : gmap (list Z) (list Z) := (fun x => content d x.2) <$> fm.

(** Copies, prints and removals with proper names, of files that fit. *)
Definition file_command (unix : list Z -> option (list Z)) (c : command) : Prop :=
  match c with
  | Copyright => True
  | CopyIn from to => is_name to /\ forall text, unix from = Some text -> Forall is_byte text /\ zlen text <= MaxFileSize
  | PrintFile f | RemoveFile f => is_name f
  | _ => False
  end.

Section fs_specs.
Context {D : Type} `{SectorStoreLaws D}.
Context (junk : Z -> Z) (junk_words : list Z) (junk_entries : list DirectoryEntry) (junk_hdr : FileHeader).
Context (Hjunk : junk_ok junk junk_words junk_entries junk_hdr).
Context (fs : FileSystem) (unix : list Z -> option (list Z)) (copyright : list Z) (others : command -> st (D * list Z) unit).

Lemma files_ext (d d' : D) fm : (forall k x, fm !! k = Some x -> content d' x.2 = content d x.2) -> files d' fm = files d fm.
Proof.
  intros Hc. unfold files. apply map_eq. intros k. rewrite !lookup_fmap. destruct (fm !! k) as [x|] eqn:E; [|done].
  simpl. f_equal. by apply (Hc k).
Qed.
Lemma files_same (d d' : D) m t fm : fs_inv d fs m t fm -> same_sectors d d' -> files d' fm = files d fm.
Proof.
  intros Hinv Hs. apply files_ext. intros k [sec h] Hk. apply content_same; [|done]. by apply (fi_file _ _ _ _ _ Hinv _ _ _ Hk).
Qed.

(** *** The room that is left *)

Lemma directory_entries d m t fm :
  fs_inv d fs m t fm -> Z.of_nat (size fm) < NumDirEntries <-> ~ Forall (fun e => inUse e = true) t.
Proof.
  intros Hinv. split; [by eapply directory_room|]. intros Hno. destruct Hinv. destruct fi_dir as [Hl _ Hk].
  cbn [table tableSize] in Hl, Hk.
  assert (elements (dom fm) ⊆ keys t) as Hsub.
  { intros k Hin%elem_of_elements%elem_of_dom. apply lookup_dir_keys. by rewrite fi_lookup, fmap_is_Some. }
  pose proof (submseteq_length _ _ (NoDup_submseteq _ _ (NoDup_elements (dom fm)) Hsub)) as Hle.
  change (length (elements (dom fm))) with (size (dom fm)) in Hle. rewrite size_dom in Hle.
  assert (length (keys t) < length t)%nat; [|unfold zlen in Hl; lia].
  unfold keys. rewrite length_fmap. clear -Hno. induction t as [|e t IH]; [by destruct Hno|].
  rewrite filter_cons. destruct (decide (inUse e = true)) as [He|He]; simpl.
  - apply Nat.succ_lt_mono in IH; [done|]. intros Ht. apply Hno. by constructor.
  - apply Nat.lt_succ_r, length_filter.
Qed.
Lemma zlen_file_sectors x : hdr_ok x.2 -> zlen (file_sectors x) = divRoundUp (numBytes x.2) SectorSize + 1.
Proof.
  intros Hh. unfold file_sectors. rewrite zlen_cons. unfold used_sectors.
  rewrite zlen_slice, (hs_len _ (ho_shape _ Hh)) by done. pose proof (ho_sectors _ Hh). pose proof (ho_fits _ Hh).
  pose proof (divRoundUp_spec (numBytes x.2) SectorSize (ho_bytes _ Hh) eq_refl). pose proof (ho_bytes _ Hh). unfold SectorSize in *. lia.
Qed.
Lemma zlen_bind {A} (f : A -> list Z) l : zlen (l ≫= f) = foldr (fun x n => zlen (f x) + n) 0 l.
Proof. induction l as [|x l IH]; [done|]. cbn [mbind list_bind foldr]. by rewrite zlen_app, <-IH. Qed.
(** Every sector is free, the file system's, or one file's. *)
Lemma free_sectors d m t fm :
  fs_inv d fs m t fm -> zlen (clear_items m) = space_free (files d fm).
Proof.
  intros Hinv. pose proof Hinv as [].
  set (taken := map_to_list fm ≫= (fun kx => file_sectors kx.2)).
  assert (clear_items m ++ sys_sectors fs ++ taken ≡ₚ seqZ 0 NumSectors) as Hall.
  { assert (forall s, s ∈ taken <-> exists k x, fm !! k = Some x /\ s ∈ file_sectors x) as Htaken.
    { intros s. unfold taken. rewrite list_elem_of_bind. split.
      - intros ([k x] & Hs & Hk%elem_of_map_to_list). eauto.
      - intros (k & x & Hk%elem_of_map_to_list & Hs). by exists (k, x). }
    assert (forall s, owned fs fm s <-> s ∈ sys_sectors fs ++ taken) as Hown.
    { intros s. unfold owned. by rewrite elem_of_app, Htaken. }
    assert (forall s, s ∈ sys_sectors fs ++ taken -> 0 <= s < NumSectors) as Hrange.
    { intros s [Hs|(k & [sec h] & Hk & Hs)%Htaken]%elem_of_app.
      - unfold sys_sectors in Hs. rewrite !elem_of_app, !elem_of_cons in Hs.
        destruct fi_mh as [_ _ _ _ R1 _], fi_dh as [_ _ _ _ R2 _]. rewrite list.Forall_forall in R1, R2.
        destruct Hs as [[-> |[-> |Hs]]|[Hs|Hs]]; [by vm_compute|by vm_compute|by apply elem_of_nil in Hs|auto|auto].
      - destruct (fi_file _ _ _ Hk) as (R & _ & Hh & _). apply elem_of_cons in Hs as [-> |Hs]; [done|].
        destruct Hh as [_ _ _ _ R1 _]. rewrite list.Forall_forall in R1. auto. }
    apply NoDup_Permutation; [|apply NoDup_seqZ|].
    - apply NoDup_app. split_and!; [apply NoDup_clear_items| |].
      { intros s [Hs Hb]%elem_of_clear_items Hin. rewrite fi_bitsn in Hs. apply Hown, fi_bits in Hin; [congruence|done]. }
      apply NoDup_app. split_and!; [done| |].
      { intros s Hs (k & x & Hk & Hin)%Htaken. by apply (fi_sys_files k x s Hk Hin). }
      apply NoDup_bind; [| |apply NoDup_map_to_list].
      + intros [k1 x1] [k2 x2] s Hk1%elem_of_map_to_list Hk2%elem_of_map_to_list H1 H2.
        assert (k1 = k2) as -> by (by eapply fi_files). congruence.
      + intros [k [sec h]] Hk%elem_of_map_to_list. by destruct (fi_file _ _ _ Hk) as (_ & _ & _ & ?).
    - intros s. rewrite elem_of_seqZ, elem_of_app, elem_of_clear_items, fi_bitsn. split.
      + intros [[? _]|Hs]; [lia|]. apply Hrange in Hs. lia.
      + intros Hs. destruct (bit m s) eqn:E; [right; apply Hown, fi_bits; [lia|done]|left]. split; [lia|done]. }
  apply Permutation_length in Hall. rewrite !length_app, length_seqZ in Hall.
  assert (zlen taken = space_used (files d fm)) as Ht.
  { unfold taken, space_used, files. rewrite zlen_bind, map_to_list_fmap.
    assert (forall kx, kx ∈ map_to_list fm -> hdr_ok kx.2.2) as Hh.
    { intros [k [sec h]] Hk%elem_of_map_to_list. by destruct (fi_file _ _ _ Hk) as (_ & _ & ? & _). }
    clear -Hh. revert Hh. induction (map_to_list fm) as [|[k [sec h]] l IH]; intros Hh; [done|]. cbn [foldr fmap list_fmap].
    rewrite IH by (intros kx Hk; apply Hh; by right). f_equal.
    assert (hdr_ok h) as Hok by (apply (Hh (k, (sec, h))); by left). rewrite zlen_file_sectors by done.
    unfold sectors_for. simpl. rewrite zlen_content by apply Hok. done. }
  assert (zlen (sys_sectors fs) = divRoundUp FreeMapFileSize SectorSize + 1 + (divRoundUp DirectoryFileSize SectorSize + 1)) as Hsys.
  { pose proof (zlen_file_sectors (0, hdr (freeMapFile fs)) fi_mh) as H1.
    pose proof (zlen_file_sectors (0, hdr (directoryFile fs)) fi_dh) as H2. unfold file_sectors in H1, H2.
    rewrite zlen_cons in H1, H2. cbn [fst snd] in H1, H2. unfold sys_sectors. rewrite !zlen_app, !zlen_cons, zlen_nil.
    rewrite <-fi_mh_size, <-fi_dh_size. lia. }
  unfold space_free. unfold zlen in *. unfold NumSectors in *. lia.
Qed.
Lemma has_room_spec d m t fm k text :
  fs_inv d fs m t fm -> fm !! k = None -> has_room (files d fm) text = bool_decide (can_create m t fm k (zlen text)).
Proof.
  intros Hinv Hk. unfold has_room, can_create. pose proof (directory_entries d m t fm Hinv) as Hdir.
  rewrite <-(free_sectors d m t fm Hinv). unfold files. rewrite map_size_fmap. unfold sectors_for.
  destruct (Z.ltb_spec (Z.of_nat (size fm)) NumDirEntries), (Z.leb_spec (divRoundUp (zlen text) SectorSize + 1) (zlen (clear_items m)));
    symmetry; first [apply bool_decide_eq_true|apply bool_decide_eq_false]; naive_solver lia.
Qed.

Lemma fs_run_means c d out m t fm :
  fs_inv d fs m t fm -> file_command unix c ->
  exists d' out' m' t' fm',
    fs_run junk junk_words junk_entries junk_hdr fs unix copyright others c (d, out) = Ok (tt, (d', out')) /\
    fs_inv d' fs m' t' fm' /\ (files d' fm', out') = means unix copyright c (files d fm, out).
Proof.
  intros Hinv Hc. destruct c as [|f|o|from to|f|f| | | |n]; try done; simpl in Hc; cbn [fs_run].
  - exists d, (out ++ copyright), m, t, fm. done.
  - destruct Hc as [Hs Ht]. destruct (unix from) as [text|] eqn:Eu.
    2:{ exists d, out, m, t, fm. split; [done|]. split; [done|]. cbn. by rewrite Eu. }
    destruct (Ht text eq_refl) as [Hb Hm].
    pose proof (Copy_spec junk junk_words junk_entries junk_hdr Hjunk fs d m t fm to text Hinv Hs Hb Hm) as HC.
    assert (means unix copyright (CopyIn from to) (files d fm, out) =
      if decide (can_create m t fm (key_of to) (zlen text)) then (<[key_of to := text]> (files d fm), out) else (files d fm, out)) as Hmean.
    { cbn [means]. rewrite Eu. unfold files at 1. rewrite lookup_fmap. destruct (fm !! key_of to) as [x|] eqn:Ek; cbn [fmap option_fmap option_map].
      - rewrite decide_False; [done|]. intros [? _]. congruence.
      - rewrite (has_room_spec d m t fm (key_of to) text Hinv Ek). by case_bool_decide; case_decide. }
    case_decide as Hcan.
    + destruct HC as (d' & m' & t' & sec & h & HC & Hinv' & Hct & Ho). exists d', out, m', t', (<[key_of to := (sec, h)]> fm).
      unfold mbind, st_bind, on_disk. cbn [fst snd]. rewrite HC. split; [done|]. split; [done|].
      rewrite Hmean. unfold files at 1. rewrite fmap_insert. cbn [snd]. rewrite Hct. fold (files d' fm). by rewrite (files_ext d d' fm Ho).
    + destruct HC as (d' & HC & Hinv' & Hs'). exists d', out, m, t, fm.
      unfold mbind, st_bind, on_disk. cbn [fst snd]. rewrite HC. split; [done|]. split; [done|].
      by rewrite (files_same d d' m t fm Hinv Hs'), Hmean.
  - destruct (Print_shows junk junk_words junk_entries junk_hdr Hjunk fs d m t fm f Hinv Hc) as (d' & HP & Hinv' & Hs').
    exists d', (out ++ default [] (files d fm !! key_of f)), m, t, fm.
    unfold mbind, st_bind, on_disk. cbn [fst snd]. rewrite HP. split.
    { unfold files. rewrite lookup_fmap. cbn [mbind res_bind]. destruct (fm !! key_of f) as [x|]; [done|]. simpl. by rewrite app_nil_r. }
    split; [done|]. by rewrite (files_same d d' m t fm Hinv Hs').
  - pose proof (Remove_spec junk junk_words junk_entries junk_hdr Hjunk d fs m t fm f Hinv Hc) as HR.
    unfold mbind, st_bind, on_disk. cbn [fst snd]. destruct (fm !! key_of f) as [[sec h]|] eqn:Ef.
    + destruct HR as (d' & m' & t' & -> & Hinv' & _ & Ho). exists d', out, m', t', (delete (key_of f) fm). split; [done|]. split; [done|].
      replace (files d' (delete (key_of f) fm)) with (delete (key_of f) (files d fm)); [done|].
      rewrite <-(files_ext d d' fm Ho). unfold files. by rewrite fmap_delete.
    + destruct HR as (d' & -> & Hinv' & Hs'). exists d', out, m, t, fm. split; [done|]. split; [done|].
      rewrite (files_same d d' m t fm Hinv Hs'). cbn [means]. f_equal. symmetry.
      apply delete_id. unfold files. by rewrite lookup_fmap, Ef.
Qed.
Lemma run_all_means Halt cs : forall d out m t fm,
  fs_inv d fs m t fm -> Forall (file_command unix) cs ->
  exists d' out' m' t' fm',
    run_all (fs_run junk junk_words junk_entries junk_hdr fs unix copyright others) Halt cs (d, out) = Ok (tt, (d', out')) /\
    fs_inv d' fs m' t' fm' /\ (files d' fm', out') = means_all unix copyright cs (files d fm, out).
Proof.
  induction cs as [|c cs IH]; intros d out m t fm Hinv Hcs.
  { by exists d, out, m, t, fm. }
  inversion Hcs as [|? ? Hc Hcs']; subst.
  destruct (fs_run_means c d out m t fm Hinv Hc) as (d1 & out1 & m1 & t1 & fm1 & E1 & Hinv1 & M1).
  destruct (IH d1 out1 m1 t1 fm1 Hinv1 Hcs') as (d2 & out2 & m2 & t2 & fm2 & E2 & Hinv2 & M2).
  exists d2, out2, m2, t2, fm2. split; [|split; [done|unfold means_all; cbn [foldl]; by rewrite <-M1]].
  cbn [run_all]. rewrite (st_bind_Ok _ _ _ tt (d1, out1)); [done|]. unfold perform.
  rewrite (st_bind_Ok _ _ _ _ _ E1). by destruct c.
Qed.
End fs_specs.

(** ** Properties *)

(** The command line.  For options and commands of the build in any order and
    mix, with arguments that do not look like options: [Initialize] ends without
    an assertion with exactly the options of the line (the last one counts), and
    [main] performs exactly the commands of the line, in their order, and then
    finishes the main thread; no word of an option is taken for a command and no
    word of a command for an option. *)
Theorem command_line {S} (B : build) (run : command -> st S unit) (Halt : st S unit) (ThreadTest : Z -> st S unit)
    (Finish : st S unit) (l : list item) (s : S) :
  THREADS B = false -> Forall (item_ok B) l ->
  init_args B (length (line l)) no_options (line l) = Ok (foldl set_option no_options l) /\
  main B run Halt ThreadTest Finish (line l) s = (run_all run Halt (commands l);; Finish) s.
Proof.
  intros HT Hl. split; [by apply init_line|]. unfold main. rewrite HT. unfold mbind, st_bind. simpl.
  by rewrite main_line.
Qed.
(** The build of userprog/Makefile: nachos -d a -rs 7 -x s -s *)
Definition userprog_build : build := mkBuild false true true false false.
Definition sample_line : list item := [Debug [97]; Seed [55]; Command (Start [115]); Step].
Lemma command_line_witness :
  init_args userprog_build 7 no_options [w_d; [97]; w_rs; [55]; w_x; [115]; w_s] = Ok (mkOptions [97] (Some 7) true false None 0) /\
  forall run Halt ThreadTest Finish (s : list Z),
    main userprog_build run Halt ThreadTest Finish [w_d; [97]; w_rs; [55]; w_x; [115]; w_s] s = (run_all run Halt [Start [115]];; Finish) s.
Proof.
  assert (Forall (item_ok userprog_build) sample_line) as Hl by (repeat (done || constructor)).
  split; [exact (proj1 (command_line userprog_build (fun _ => mret tt) (mret tt) (fun _ => mret tt) (mret tt) sample_line tt eq_refl Hl))|].
  intros run Halt ThreadTest Finish s. exact (proj2 (command_line userprog_build run Halt ThreadTest Finish sample_line s eq_refl Hl)).
Defined.

(** nachos -cp u n -p n -r n, in the build of filesys/ without THREADS *)
Definition filesys_build : build := mkBuild false true true true false.
Definition sample_files : list item := [Command (CopyIn [117] sample_name); Command (PrintFile sample_name); Command (RemoveFile sample_name)].

(** In a build with THREADS, as filesys/Makefile makes it, the first loop takes
    all words: [main] runs the thread test and none of the commands. *)
Lemma threads_build_runs_no_command {S} (B : build) (run : command -> st S unit) Halt ThreadTest Finish argv (s : S) :
  THREADS B = true ->
  main B run Halt ThreadTest Finish argv s =
    (testnum ← lift (test_args (length argv) 1 argv); ThreadTest testnum;; Finish) s.
Proof.
  intros HT. unfold main. rewrite HT. unfold mbind, st_bind, lift. cbn [length main_args].
  destruct (test_args _ _ _) as [n| | | |]; try done. simpl. by destruct (ThreadTest n s) as [[[] s']| | | |].
Qed.
