(* ===== verification/Boot.v ===== *)
(** * threads/system.cc, userprog/progtest.cc: starting the system

    [Initialize] and [main] of the build of userprog/Makefile: the objects of the
    kernel are built one after the other, and -x starts the first program, with
    the constructor of AddrSpace that loads an open file to physical address 0.
    The state is the one of the system calls (Syscalls); [rest] has what is behind
    the interface there. *)

From stdpp Require Import gmap list sets.
From S2P Require Import Prelude BitMap Interrupt Threads Disk ProcTable SemTable CmdLine SynchCons StubFS Syscalls KernelInv Machine AddrSpace Floats.
#[local] Open Scope Z_scope.

(** ** The first address space *)

(** The first [n] frames are taken, in order. *)
Definition taken (b : BitMap) (n : Z) : Prop :=
  wf b /\ numBits b = NumPhysPages /\ forall j, 0 <= j < NumPhysPages -> bit b j = bool_decide (j < n).

Lemma map_pages_first n : forall i t mem b,
  taken b i -> 0 <= i -> i + Z.of_nat n <= NumPhysPages ->
  exists b', map_pages_only n i t (mkPhys mem b) = Ok (Some (t ++ table_of i (seqZ i (Z.of_nat n))), mkPhys mem b') /\
    taken b' (i + Z.of_nat n).
Proof.
  induction n as [|n IH]; intros i t mem b (Hwf & Hn & Hb) Hi Hle.
  { exists b. rewrite app_nil_r, Z.add_0_r. done. }
  cbn [map_pages_only].
  destruct (Find_cases b Hwf) as [[Hall _]|(k & b1 & Hfind & Hwf1 & Hn1 & Hk & Hbk & Hlow & Hbits)].
  { specialize (Hall i ltac:(lia)). rewrite Hb, bool_decide_false in Hall by lia. done. }
  assert (k = i) as ->.
  { rewrite Hn in Hk. rewrite Hb in Hbk by lia. apply bool_decide_eq_false in Hbk.
    destruct (decide (i < k)); [|lia]. specialize (Hlow i ltac:(lia)). rewrite Hb, bool_decide_false in Hlow by lia. done. }
  rewrite (st_bind_Ok alloc_page _ _ i (mkPhys mem b1)) by (unfold alloc_page; simpl; by rewrite Hfind).
  rewrite (proj2 (Z.eqb_neq i (-1))) by lia.
  destruct (IH (i + 1) (t ++ [mkTranslationEntry i i true false false false]) mem b1) as (b' & E & Hb').
  - split; [done|]. split; [lia|]. intros j Hj. rewrite Hbits, Hb by done.
    destruct (Z.eqb_spec j i) as [->|]; simpl; [by rewrite bool_decide_true by lia|]. apply bool_decide_ext. lia.
  - lia.
  - lia.
  - exists b'. split; [|by replace (i + Z.of_nat (S n)) with (i + 1 + Z.of_nat n) by lia].
    rewrite E, <-app_assoc. do 3 f_equal. rewrite (seqZ_cons i) by lia. cbn [table_of]. do 2 f_equal.
    by replace (Z.pred (Z.of_nat (S n))) with (Z.of_nat n) by lia.
Qed.

(** The data segment lies inside the address space. *)
Definition data_fits (h : NoffHeader) : Prop :=
  0 <= virtualAddr (initData h) /\ virtualAddr (initData h) + size (initData h) <= space_pages h * PageSize.

(** A segment read to its virtual address, or nothing when it is empty. *)
Lemma read_segment exe b mem dst n pos :
  zlen mem = MemorySize -> Forall is_byte mem -> Forall is_byte exe -> 0 <= n -> 0 <= pos -> pos + n <= zlen exe ->
  0 <= dst -> dst + n <= MemorySize ->
  exists mem', (if 0 <? n then read_into exe dst n pos else mret tt) (mkPhys mem b) = Ok (tt, mkPhys mem' b) /\
    zlen mem' = MemorySize /\ Forall is_byte mem' /\
    forall i, zget mem' i = if (dst <=? i) && (i <? dst + n) then zget exe (pos + (i - dst)) else zget mem i.
Proof.
  intros Hl Hm He Hn Hp Hpe Hd Hde. destruct (Z.ltb_spec 0 n) as [H0|H0].
  2:{ exists mem. split; [done|]. split_and!; try done. intros i. destruct (Z.leb_spec dst i), (Z.ltb_spec i (dst + n)); try done. lia. }
  assert (zlen (slice pos n exe) = n) as Hsl by (rewrite zlen_slice; lia).
  exists (splice dst (slice pos n exe) mem). unfold read_into, file_ReadAt, poke, mbind, st_bind, lift. simpl.
  rewrite (proj2 (Z.leb_le 0 pos)), (proj2 (Z.ltb_ge n 0)) by lia. simpl. rewrite bytes_to_ok by lia. simpl. split; [done|].
  split; [rewrite zlen_splice; lia|]. split; [by apply Forall_splice; [|apply Forall_slice]|].
  intros i. rewrite zget_splice, Hsl by lia. destruct (Z.leb_spec dst i), (Z.ltb_spec i (dst + n)); simpl.
  - rewrite decide_True, zget_slice, decide_True by lia. done.
  - by rewrite decide_False by lia.
  - by rewrite decide_False by lia.
  - by rewrite decide_False by lia.
Qed.

(** On an empty memory the frames are 0, 1, ... in order, and loading from
    physical address 0 is right. *)
Lemma load_first exe h mem b :
  phys_ok (mkPhys mem b) -> taken b 0 -> exe_ok exe h -> data_fits h -> space_pages h <= NumPhysPages ->
  exists mem' b', new_AddrSpace_file exe (mkPhys mem b) =
      Ok (mkAddrSpace (Some (table_of 0 (seqZ 0 (space_pages h)))) (Some (space_pages h)), mkPhys mem' b') /\
    phys_ok (mkPhys mem' b') /\ taken b' (space_pages h) /\
    forall va, 0 <= va < space_pages h * PageSize -> zget mem' va = file_image exe h va.
Proof.
  intros [_ _ Hl Hm] Hb Hx [Hd1 Hd2] Hle. simpl in Hl, Hm. destruct (space_pages_spec exe h Hx) as [Hpos Hfit].
  pose proof (ex_sizes _ _ Hx) as (Hs1 & Hs2 & Hs3). pose proof (ex_code _ _ Hx). pose proof (ex_data _ _ Hx).
  assert (space_pages h * PageSize <= MemorySize) as Hmax by (unfold MemorySize, NumPhysPages, PageSize, SectorSize in *; lia).
  unfold UserStackSize in Hfit.
  unfold new_AddrSpace_file. rewrite (lift_bind_Ok _ _ _ h (ex_header _ _ Hx)).
  rewrite (st_bind_Ok _ _ _ tt (mkPhys mem b)) by (unfold assert_; by rewrite (proj2 (Z.leb_le _ _)) by lia).
  destruct (map_pages_first (Z.to_nat (space_pages h)) 0 [] mem b Hb) as (b' & E & Hb'); [lia|lia|].
  rewrite Z2Nat.id in E, Hb' by lia. rewrite (st_bind_Ok _ _ _ _ _ E). cbn [app].
  set (zeros := replicate (Z.to_nat (space_pages h * PageSize)) 0).
  assert (zlen zeros = space_pages h * PageSize) as Hzl by (unfold zlen, zeros; rewrite length_replicate; lia).
  rewrite (st_bind_Ok _ _ _ tt (mkPhys (splice 0 zeros mem) b')) by (unfold poke; simpl; rewrite bytes_to_ok by lia; done).
  destruct (read_segment exe b' (splice 0 zeros mem) (virtualAddr (code h)) (size (code h)) (inFileAddr (code h)))
    as (m1 & E1 & Hl1 & Hm1 & Hg1); rewrite ?(ex_code0 _ _ Hx); try lia.
  { rewrite zlen_splice; lia. }
  { apply Forall_splice; [done|]. apply Forall_replicate. unfold is_byte. lia. }
  { apply Hx. }
  rewrite (ex_code0 _ _ Hx) in E1. rewrite (st_bind_Ok _ _ _ _ _ E1).
  destruct (read_segment exe b' m1 (virtualAddr (initData h)) (size (initData h)) (inFileAddr (initData h)))
    as (m2 & E2 & Hl2 & Hm2 & Hg2); try done; try lia; [apply Hx|].
  rewrite (st_bind_Ok _ _ _ _ _ E2). exists m2, b'. split; [done|]. split; [split; [apply Hb'|apply Hb'|done|done]|]. split; [done|].
  intros va Hva. rewrite Hg2, Hg1. unfold file_image. destruct ((virtualAddr (initData h) <=? va) && _); [done|].
  rewrite ?(ex_code0 _ _ Hx), (proj2 (Z.leb_le 0 va)), ?Z.sub_0_r, ?Z.add_0_l by lia. cbn [andb]. destruct (va <? size (code h)); [done|].
  rewrite zget_splice, decide_True, Z.sub_0_r by lia. unfold zeros. apply zget_zeros. lia.
Qed.

(** ** Initialize *)

(** What is behind the interface of the system calls: the thread kernel with the
    table of semaphores, the process table, the free pages, the timer, the debug
    flags, [currentThread->space], the floats that the calls on floats have
    made, and which semaphores of the kernel are [joinsem] and [exitsem] of
    which PCB (the process table has their values). *)
Record rest_t := mkRest {
  threads_ : kernel STable;
  processTab : ProcTable.sys;
  gPhysPageBitMap : BitMap;
  timer : option Timer;
  enableFlags : option (list Z);
  space : option AddrSpace;
  float_heap : gmap Z float;
  pcb_sems : gmap Z (Z * Z)
}.
#[local] Abbreviation S := (sim (cpu (kern rest_t))).

(** What the memory that [new] returns holds, the address of the first PCB, the
    values of the first calls of [Random], and what will be typed. *)
Record machine_room := mkRoom {
  words_pages : list Z;
  words_procs : list Z;
  words_sems : list Z;
  pcb0 : Z;
  entries : list TranslationEntry;
  size0 : Z;
  until0 : Z;
  fd2 : Z;
  fd3 : Z;
  random1 : Z;
  random2 : Z;
  typed : list Z
}.

Section boot.
Context (permits : list Z -> bool) (open_max : nat) (R : machine_room).

(** The interrupts that can fire in [Enable]: no other device is there yet, and
    [machine] is NULL. *)
Definition boot_handler (t : option Timer) (h : IntHandler) (a : Z) : st (sim (kernel STable)) unit :=
  match h, t with
  | TimerHandler, Some t => TimerExpired (random2 R) t
  | _, _ => fun s => Ok (tt, s)
  end.
Definition same_user (t : Z) (e : STable) : STable := e.
Definition boot_yield : st (sim (kernel STable)) unit := fun s =>
  k ← Threads.Yield same_user same_user (world s) (currentThread (world s)); Ok (tt, set_world s k).

(** [fuel] bounds the loop over due interrupts: there is at most the timer's. *)
Definition Initialize (fuel : nat) (u : unix) (argv : list (list Z)) : res S :=
  o ← init_args userprog_build (length argv) no_options argv;
  let s := mkSim new_Interrupt new_Statistics tt in
  pages ← new_BitMap (words_pages R) NumPhysPages;
  '(timer, s) ← (match seed o with
                 | Some _ => '(t, s) ← new_Timer (random1 R) true s; Ok (Some t, s)
                 | None => Ok (None, s)
                 end);
  (* [new PTable] makes the main thread and [setStatus] makes it run *)
  processTab ← new_PTable (words_procs R) MAXPROCESS (pcb0 R) (boot_procs 0);
  semaphoreTable ← new_STable (words_sems R);
  '(_, s) ← Interrupt.Enable (boot_handler timer) no_op boot_yield fuel
              (mkSim (interrupt s) (stats s) (Threads.boot semaphoreTable));
  machine ← new_Machine false (entries R) (size0 R) (until0 R) (debugUserProg o);
  '(_, s) ← Schedule ConsoleReadPoll 0 ConsoleTime ConsoleReadInt s;
  fileSystem ← StubFS.new_FileSystem permits open_max u (fd2 R) (fd3 R) FileSys.stdin_name FileSys.stdout_name;
  Ok (mkSim (interrupt s) (stats s)
       (mkCpu machine (mkKern fileSystem (new_SynchConsole (typed R))
          (mkRest (world s) processTab pages timer (Some (debugArgs o)) None ∅ ∅)))).

(** ** StartProcess *)

Definition set_rest (s : S) (m : Machine) (r : rest_t) : S :=
  set_world s (mkCpu m (mkKern (fsys (os (world s))) (console (os (world s))) r)).
Definition set_pages_space (r : rest_t) (b : BitMap) (a : AddrSpace) : rest_t :=
  mkRest (threads_ r) (processTab r) b (timer r) (enableFlags r) (Some a) (float_heap r) (pcb_sems r).
(** [new AddrSpace(executable)] on the memory of the machine and the page map *)
Definition new_space (exe : list Z) : st S AddrSpace := fun s =>
  let m := mach (world s) in
  let r := rest (os (world s)) in
  '(a, p) ← new_AddrSpace_file exe (mkPhys (mainMemory m) (gPhysPageBitMap r));
  Ok (a, set_rest s (set_mainMemory m (memory p)) (set_pages_space r (pages p) a)).
Definition on_machine (f : Machine -> res Machine) : st S unit := fun s =>
  m ← f (mach (world s)); Ok (tt, set_rest s m (rest (os (world s)))).
(** The bytes of an open file of the host. *)
Definition file_bytes (f : OpenFile) : st S (list Z) := fun s =>
  match fd_at (ux (fsys (os (world s)))) (file f) with Some (_, c) => Ok (c, s) | None => UB end.

(** [StartProcess] up to [machine->Run()]; false when there is no such file. *)
Definition load_process (filename : list Z) : st S bool :=
  o ← on_fs (StubFS.Open permits open_max filename);
  match o with
  | None => mret false
  | Some executable =>
      exe ← file_bytes executable;
      space ← new_space exe;
      on_fs (on_unix (delete_OpenFile executable));;
      on_machine (InitRegisters space);;
      on_machine (RestoreState space);;
      mret true
  end.
Context (Run : st S unit) (ConsoleTest : option (list Z * list Z) -> st S unit) (Halt_ : st S unit) (Finish : st S unit).
Definition StartProcess (filename : list Z) : st S unit :=
  b ← load_process filename;
  if (b : bool) then Run;; lift AssertFail else mret tt.
Definition user_run (c : command) : st S unit :=
  match c with
  | Start f => StartProcess f
  | Echo files => ConsoleTest files
  | _ => mret tt
  end.
(** The whole program. *)
Definition nachos (fuel : nat) (u : unix) (argv : list (list Z)) : res (unit * S) :=
  s ← Initialize fuel u argv;
  main userprog_build user_run Halt_ (fun _ => mret tt) Finish argv s.
End boot.

(** ** What it leaves *)

(** The interrupt system between two calls of the kernel. *)
Record calm {W} (s : sim W) : Prop := {
  ca_queue : queue_ok (pending (interrupt s));
  ca_handler : inHandler (interrupt s) = false;
  ca_status : Interrupt.status (interrupt s) = SystemMode;
  ca_balance : ticks_balance (stats s)
}.

(** The semaphores of the PCBs: the kernel has them, with the values of the
    process table, each is the semaphore of one PCB, and none has a name.
    ([bmsem] and the [mutex] of a PCB are 1 between two calls, so that nobody
    queues for them, and the PCB of process 0 is never waited for.) *)
Record pcb_sems_ok (k : kernel STable) (p : ProcTable.sys) (m : gmap Z (Z * Z)) : Prop := {
  ps_pcb i a q : used p i -> zget (pcb p) i = Some (Some a) -> pcbs p !! a = Some q ->
    exists js es mj me, m !! a = Some (js, es) /\ semaphores k !! js = Some mj /\ value mj = joinsem q /\
      semaphores k !! es = Some me /\ value me = exitsem q;
  ps_dom a js es : m !! a = Some (js, es) -> is_Some (semaphores k !! js) /\ is_Some (semaphores k !! es);
  ps_inj a b js es js' es' : m !! a = Some (js, es) -> m !! b = Some (js', es') ->
    js <> es' /\ (a <> b -> js <> js' /\ es <> es');
  ps_named n s a js es : sem_named (ext k) n = Some s -> m !! a = Some (js, es) -> s <> js /\ s <> es
}.

(** Between two calls of the running thread: the threads, the semaphore table and
    the process table are as their own theorems want them, the names of the table
    stand for semaphores that exist, the semaphores of the PCBs are in the kernel, every thread of a process is a thread that has not finished, and the
    running thread is in its program. *)
Record system_ok (r : rest_t) : Prop := {
  sy_threads : Threads.Inv (threads_ r);
  sy_busy : switching (threads_ r) = false;
  sy_normal : exists th, threads (threads_ r) !! currentThread (threads_ r) = Some th /\ where_ th = Normal;
  sy_table : table_ok (ext (threads_ r));
  sy_sems n s : sem_named (ext (threads_ r)) n = Some s -> is_Some (semaphores (threads_ r) !! s);
  sy_procs : ProcTable.Inv (processTab r);
  sy_program : exists th, procs (processTab r) !! currentThread (threads_ r) = Some th /\ at_ th = InProgram;
  sy_same t : is_Some (procs (processTab r) !! t) -> exists th, threads (threads_ r) !! t = Some th /\ where_ th <> Dead;
  sy_pcbs : pcb_sems_ok (threads_ r) (processTab r) (pcb_sems r)
}.
(** What the constructors make is such a system. *)
Lemma booted_system T p r :
  table_ok T -> (forall n, sem_named T n = None) -> ProcTable.Inv p -> procs p = boot_procs 0 -> (forall i, ~ used p i) ->
  threads_ r = Threads.boot T -> processTab r = p -> pcb_sems r = ∅ -> system_ok r.
Proof.
  intros HT Hn Hp Hpr Hun Hth Hpt Hps. split; rewrite ?Hth, ?Hpt, ?Hps; cbn [Threads.boot switching threads currentThread ext semaphores]; try done.
  - apply boot_inv.
  - by eexists.
  - intros n s. by rewrite Hn.
  - rewrite Hpr. by eexists.
  - intros t. rewrite Hpr. unfold boot_procs. intros [x [<- _]%lookup_singleton_Some]. by eexists.
  - split; try by intros *; rewrite lookup_empty. intros i a q Hu. by destruct (Hun i).
Qed.

Section boot_specs.
Context (permits : list Z -> bool) (open_max : nat) (R : machine_room).
Context (Hrandom : 0 <= random1 R /\ 0 <= random2 R).

Lemma boot_handlers_ok T t : handlers_ok (boot_handler R t) (fun k => k = Threads.boot T).
Proof.
  intros h a s Hq Hl Hh HI. unfold boot_handler.
  destruct h; try (exists s; split; [done|]; split; [apply handler_step_refl|done]).
  destruct t as [t|]; [|exists s; split; [done|]; split; [apply handler_step_refl|done]].
  destruct (TimerExpired_ok (random2 R) t s) as (s' & E & Hs & Hw); [lia|done|]. exists s'. split; [done|]. split; [done|congruence].
Qed.
Lemma boot_Enable T t fuel s :
  calm s -> level (interrupt s) = IntOff -> world s = Threads.boot T -> (length (pending (interrupt s)) < fuel)%nat ->
  exists s', Interrupt.Enable (boot_handler R t) no_op boot_yield fuel s = Ok (tt, s') /\
    calm s' /\ level (interrupt s') = IntOn /\ world s' = Threads.boot T /\ totalTicks (stats s') = totalTicks (stats s) + SystemTick.
Proof.
  intros [Hq Hh Hst Hb] Hl Hw Hf. unfold Interrupt.Enable, SetLevel, ChangeLevel. rewrite Hh, Hl. cbn [negb orb andb].
  rewrite orb_true_r. cbn [mbind res_bind]. rewrite !bool_decide_true by done. cbn [andb].
  set (s0 := set_level s IntOn).
  destruct (OneTick_spec (boot_handler R t) no_op boot_yield (fun k => k = Threads.boot T) (boot_handlers_ok T t)
    (fun s HI => ex_intro _ (world s) (conj (match s return no_op s = Ok (tt, set_world s (world s)) with mkSim _ _ _ => eq_refl end) HI))
    fuel s0) as (s1 & q & _ & _ & [[Hq1 Hl1 Hh1 Hw1] Hc1 Hst1 Hb1] & _ & E); try done.
  { unfold s0. simpl. by rewrite Hst. }
  cbn zeta in E. rewrite E. unfold tick_of in *. cbn in Hq1, Hl1, Hh1, Hw1, Hc1, Hst1, Hb1. rewrite Hst, decide_True in * by done.
  assert (ticks_balance (stats s1)) as Hb2 by (apply Hb1; unfold ticks_balance in *; simpl; lia).
  set (s2 := set_level (set_pending s1 q) IntOn).
  destruct (yieldOnReturn (interrupt s2)).
  - unfold boot_yield. cbn. rewrite Hw1. cbn. eexists. split; [done|]. split; [split; simpl; try done|]. split; [done|]. split; [done|]. done.
  - cbn. exists s2. split; [done|]. split; [split; simpl; try done; congruence|]. done.
Qed.

(** *** The file system *)

Lemma free_fd_first u n :
  (forall i, 3 <= i < n -> fds u !! i <> None) -> fds u !! n = None -> 3 <= n < Z.of_nat open_max -> free_fd open_max u = Some n.
Proof using open_max.
  clear. intros Hlow Hn Hr. unfold free_fd.
  replace (Z.of_nat open_max - 3) with ((n - 3) + (Z.of_nat open_max - n)) by lia.
  rewrite seqZ_app, list.filter_app by lia. rewrite filter_none.
  2:{ apply list.Forall_forall. intros i Hi%elem_of_seqZ. apply Hlow. lia. }
  replace (3 + (n - 3)) with n by lia. rewrite seqZ_cons by lia. by rewrite filter_cons_True.
Qed.
(** The descriptor stays open; its number is a place of the list that is free. *)
Lemma boot_Create u l name fd :
  permits name = true -> free_fd open_max u = Some fd -> zget l fd = Some None ->
  exists ino, StubFS.Create permits open_max name 0 (StubFS.mkFileSystem u l) =
      Ok (true, StubFS.mkFileSystem (mkUnix (<[name := ino]> (dirents u)) (<[ino := []]> (inodes u))
                                       (<[fd := mkDescr ino 0 true]> (fds u))) l) /\
    (dirents u !! name = Some ino \/ inodes u !! ino = None).
Proof using permits open_max.
  clear R Hrandom. intros Hp Hf Hl. destruct (free_fd_spec open_max u fd Hf) as [Hfd _].
  exists (match dirents u !! name with Some i => i | None => fresh (dom (inodes u)) end). split.
  - unfold StubFS.Create, on_unix, OpenForWrite, open_create, mbind, st_bind. cbn [ux]. rewrite Hp, Hf. cbn [negb].
    set (ino := match dirents u !! name with Some i => i | None => _ end). unfold new_fd. set (u1 := set_inodes _ _).
    assert (free_fd open_max u1 = Some fd) as -> by exact Hf. rewrite (proj2 (Z.leb_le 0 fd)) by lia. cbn [res_bind].
    rewrite (proj2 (Z.eqb_neq fd (-1))) by lia. unfold StubFS.Close, list_at, mbind, st_bind, res_bind.
    cbn [openFileList]. rewrite (proj2 (rd_Ok _ _ _) Hl). done.
  - destruct (dirents u !! name); [by left|]. right. apply not_elem_of_dom, is_fresh.
Qed.

(** The host has the file [prog] and nothing open, and the names that the kernel
    creates do not stand for the same file. *)
Record host_ok (u : unix) (prog : list Z) (ino : Z) (exe : list Z) : Prop := {
  hk_fds : fds u = ∅;
  hk_entry : dirents u !! prog = Some ino;
  hk_file : inodes u !! ino = Some exe;
  hk_in : prog <> FileSys.stdin_name /\ dirents u !! FileSys.stdin_name <> Some ino;
  hk_out : prog <> FileSys.stdout_name /\ dirents u !! FileSys.stdout_name <> Some ino
}.
Lemma boot_fs u prog ino exe :
  host_ok u prog ino exe -> permits FileSys.stdin_name = true -> permits FileSys.stdout_name = true -> (6 <= open_max)%nat ->
  exists f, StubFS.new_FileSystem permits open_max u (fd2 R) (fd3 R) FileSys.stdin_name FileSys.stdout_name = Ok f /\
    zlen (openFileList f) = 10 /\ free_fd open_max (ux f) = Some 5 /\ fds (ux f) !! 5 = None /\
    dirents (ux f) !! prog = Some ino /\ inodes (ux f) !! ino = Some exe.
Proof using permits open_max R.
  clear Hrandom. intros [Hfds He Hi [Hp1 Hd1] [Hp2 Hd2]] Hin Hout Hom. unfold StubFS.new_FileSystem.
  destruct (boot_Create u (replicate 10 None) FileSys.stdin_name 3 Hin) as (i1 & E1 & H1).
  { apply free_fd_first; [lia|by rewrite Hfds|lia]. }
  { done. }
  set (u1 := mkUnix _ _ _) in E1.
  destruct (boot_Create u1 (replicate 10 None) FileSys.stdout_name 4 Hout) as (i2 & E2 & H2).
  { apply free_fd_first; [|simpl; by rewrite lookup_insert_ne, Hfds|lia]. intros i Hi4. replace i with 3 by lia. simpl. by rewrite lookup_insert_eq. }
  { done. }
  set (u2 := mkUnix _ _ _) in E2.
  assert (i1 <> ino) as Hi1 by (intros ->; destruct H1; congruence).
  assert (inodes u1 !! ino = Some exe) as Hi' by (simpl; by rewrite lookup_insert_ne).
  assert (i2 <> ino) as Hi2.
  { intros ->. destruct H2 as [H2|H2]; [|congruence]. simpl in H2. rewrite lookup_insert_ne in H2 by done. congruence. }
  rewrite (st_bind_Ok _ _ _ _ _ E1), (st_bind_Ok _ _ _ _ _ E2).
  unfold Open_t, mbind, st_bind, mret, st_ret. cbn [Z.eqb Pos.eqb]. cbv beta iota zeta.
  destruct (fd2 R =? -1), (fd3 R =? -1); (eexists; split; [reflexivity|]; split; [reflexivity|]; cbn [ux]; split; [|split; [|split]]).
  all: unfold u2, u1; try (apply free_fd_first; [intros i Hi5| |lia]); cbn [fds dirents inodes].
  all: try (destruct (decide (i = 4)) as [->|]; [by rewrite lookup_insert_eq|]; replace i with 3 by lia;
            rewrite lookup_insert_ne by done; by rewrite lookup_insert_eq).
  all: rewrite !lookup_insert_ne by done; rewrite ?Hfds; try done.
Qed.

(** *** The objects of the kernel *)

Record room_ok : Prop := {
  ro_pages : zlen (words_pages R) = divRoundUp NumPhysPages BitsInWord /\ Forall is_uint (words_pages R);
  ro_procs : zlen (words_procs R) = divRoundUp MAXPROCESS BitsInWord /\ Forall is_uint (words_procs R);
  ro_sems : zlen (words_sems R) = divRoundUp MAX_SEMAPHORES BitsInWord /\ Forall is_uint (words_sems R);
  ro_typed : Forall is_char (typed R)
}.
(** The system after [Initialize], with the file [exe] of the host under [prog]. *)
Record came_up (s : S) (prog : list Z) (ino : Z) (exe : list Z) : Prop := {
  up_calm : calm s;
  up_level : level (interrupt s) = IntOn;
  up_threads : exists T, threads_ (rest (os (world s))) = Threads.boot T /\ SemTable.table_ok T;
  up_procs : booted (processTab (rest (os (world s))));
  up_system : system_ok (rest (os (world s)));
  up_pages : taken (gPhysPageBitMap (rest (os (world s)))) 0;
  up_machine : let m := mach (world s) in
    tlb m = None /\ exists debug until, machine_ok (mkMachine (registers m) (mainMemory m) None (Some []) 0 debug until);
  up_console : console (os (world s)) = new_SynchConsole (typed R);
  up_free : free_fd open_max (ux (fsys (os (world s)))) = Some 5 /\ fds (ux (fsys (os (world s)))) !! 5 = None;
  up_entry : dirents (ux (fsys (os (world s)))) !! prog = Some ino;
  up_file : inodes (ux (fsys (os (world s)))) !! ino = Some exe
}.
(** The timer, if -rs asks for one. *)
Lemma boot_timer (o : option Z) :
  let s := mkSim new_Interrupt new_Statistics tt in
  exists t s', (match o with
                | Some _ => '(t, s) ← new_Timer (random1 R) true s; Ok (Some t, s)
                | None => Ok (None, s)
                end) = Ok (t, s') /\ calm s' /\ level (interrupt s') = IntOff /\ (length (pending (interrupt s')) < 2)%nat.
Proof using Hrandom.
  intros s. destruct o as [n|].
  - unfold new_Timer. edestruct (@Schedule_step unit TimerHandler 0 (TimeOfNextInterrupt (random1 R) (mkTimer true)) TimerInt s)
      as (s' & -> & [Hc Hi Hsy Hu Hl Hh Hst Hq _ _] & _ & Hstats & _ & Hp).
    { unfold TimeOfNextInterrupt, TimerTicks. simpl. pose proof (Z.rem_bound_pos (random1 R) (100 * 2)). lia. }
    cbn [mbind res_bind]. eexists _, s'. split; [done|]. split.
    { split; [apply Hq, queue_ok_nil|done|done|]. rewrite Hstats. done. }
    split; [done|]. rewrite Hp. simpl. lia.
  - eexists _, s. split; [done|]. split; [split; [apply queue_ok_nil|done|done|done]|]. split; [done|]. simpl. lia.
Qed.
Lemma Initialize_up fuel u argv o prog ino exe :
  room_ok -> host_ok u prog ino exe -> permits FileSys.stdin_name = true -> permits FileSys.stdout_name = true ->
  (6 <= open_max)%nat -> (2 <= fuel)%nat ->
  init_args userprog_build (length argv) no_options argv = Ok o ->
  exists s, Initialize permits open_max R fuel u argv = Ok s /\ came_up s prog ino exe.
Proof using All.
  intros [[Hp1 Hp2] [Hq1 Hq2] [Hr1 Hr2] _] Hhost Hin Hout Hom Hf Ho. unfold Initialize. rewrite Ho. cbn [mbind res_bind].
  destruct (new_BitMap_spec (words_pages R) NumPhysPages) as (b & -> & Hwf & Hn & Hc); [done|done|done|]. cbn [mbind res_bind].
  destruct (boot_timer (seed o)) as (t & s1 & Et & Hca & Hlv & Hlen). cbv zeta in Et. rewrite Et. cbn [mbind res_bind].
  destruct (boot_ok (words_procs R) (pcb0 R) 0 Hq1 Hq2) as (ps & Eps & Hpinv & Hun & Hpp & _). rewrite Eps. cbn [mbind res_bind].
  destruct (new_STable_ok (words_sems R) Hr1 Hr2) as (T & -> & HT & HTn & _). cbn [mbind res_bind].
  destruct (boot_Enable T t fuel (mkSim (interrupt s1) (stats s1) (Threads.boot T))) as (s2 & -> & Hca2 & Hlv2 & Hw2 & _); [by destruct Hca|done|done|simpl; lia|].
  cbn [mbind res_bind].
  destruct (new_Machine_spec (entries R) (size0 R) (until0 R) (debugUserProg o) []) as (m & Em & Htlb & _ & Hm).
  rewrite Em. cbn [mbind res_bind].
  destruct (@Schedule_step _ ConsoleReadPoll 0 ConsoleTime ConsoleReadInt s2) as (s3 & -> & [_ _ _ _ Hl3 Hh3 Hst3 Hq3 _ _] & Hw3 & Hstats & _); [done|].
  cbn [mbind res_bind].
  destruct (boot_fs u prog ino exe Hhost Hin Hout Hom) as (f & -> & _ & Hfree & H5 & He & Hi). cbn [mbind res_bind].
  destruct Hca2 as [C1 C2 C3 C4].
  eexists. split; [done|]. split; cbn [interrupt stats world os mach rest console fsys threads_ processTab gPhysPageBitMap]; try done.
  - split; cbn [interrupt stats]; [by apply Hq3|congruence|congruence|congruence].
  - congruence.
  - exists T. split; [congruence|done].
  - by exists (words_procs R), (pcb0 R), 0.
  - eapply (booted_system T ps); try done. cbn. congruence.
  - split; [done|]. split; [done|]. intros j Hj. rewrite Hc by done. symmetry. apply bool_decide_eq_false. lia.
  - split; [exact Htlb|]. rewrite Htlb in Hm. eexists _, _. exact Hm.
Qed.

(** *** The first program *)

(** The state in which [machine->Run()] starts. *)
Record running (s : S) (exe : list Z) (h : NoffHeader) : Prop := {
  rn_kernel : kernel_ok s;
  rn_calm : calm s;
  rn_level : level (interrupt s) = IntOn;
  rn_threads : Threads.Inv (threads_ (rest (os (world s)))) /\ SemTable.table_ok (ext (threads_ (rest (os (world s)))));
  rn_procs : booted (processTab (rest (os (world s))));
  rn_system : system_ok (rest (os (world s)));
  rn_pages : phys_ok (mkPhys (mainMemory (mach (world s))) (gPhysPageBitMap (rest (os (world s))))) /\
    taken (gPhysPageBitMap (rest (os (world s)))) (space_pages h);
  rn_console : sc_ok (console (os (world s)));
  rn_regs : registers (mach (world s)) = start_regs (space_pages h);
  rn_image va w : 0 <= va < space_pages h * PageSize -> exists pa,
    phys (mach (world s)) va 1 w = inr pa /\ zget (mainMemory (mach (world s))) pa = file_image exe h va;
  rn_outside va w : space_pages h * PageSize <= va < two31 -> phys (mach (world s)) va 1 w = inl AddressErrorException
}.

(** [InitRegisters] and [RestoreState] do not look at the old tables. *)
Lemma start_machine m mem n debug until (img : Z -> option Z) :
  tlb m = None -> machine_ok (mkMachine (registers m) mem None (Some []) 0 debug until) -> 0 < n <= NumPhysPages ->
  (forall va, 0 <= va < n * PageSize -> zget mem va = img va) ->
  let a := mkAddrSpace (Some (table_of 0 (seqZ 0 n))) (Some n) in
  exists m1 m2, InitRegisters a (set_mainMemory m mem) = Ok m1 /\ RestoreState a m1 = Ok m2 /\
    machine_ok m2 /\ mainMemory m2 = mem /\ registers m2 = start_regs n /\
    (forall va w, 0 <= va < n * PageSize -> exists pa, phys m2 va 1 w = inr pa /\ zget mem pa = img va) /\
    (forall va w, n * PageSize <= va < two31 -> phys m2 va 1 w = inl AddressErrorException).
Proof using.
  clear. intros Htlb Hm Hn Himg a. set (mt := mkMachine _ _ _ _ _ _ _) in Hm.
  destruct (start_program_spec (seqZ 0 n) n mt Hm) as (m3 & E & Hm3 & _ & Hr3 & Hin3 & Hout3); try done.
  { split; [apply NoDup_seqZ|]. apply list.Forall_forall. intros f Hf%elem_of_seqZ. lia. }
  { unfold zlen. rewrite length_seqZ. lia. }
  { lia. }
  fold a in E. assert (zlen (registers m) = NumTotalRegs) as Hl by apply (mo_regs _ Hm).
  rewrite (InitRegisters_spec a mt n) in E by done. unfold RestoreState in E. cbn [mbind res_bind a pageTable numPages] in E. injection E as <-.
  exists (set_registers (set_mainMemory m mem) (start_regs n)).
  exists (mkMachine (start_regs n) mem (tlb m) (Some (table_of 0 (seqZ 0 n))) n (singleStep m) (runUntilTime m)).
  split; [by apply InitRegisters_spec|]. split; [done|]. rewrite Htlb. split; [by destruct Hm3|]. split; [done|]. split; [done|]. split.
  - intros va w Hva. destruct (Hin3 va w Hva) as (f & Hf & Hph). exists (f * PageSize + va mod PageSize). split; [exact Hph|].
    assert (0 <= va / PageSize < n) as Hd by (unfold PageSize, SectorSize in *; lia_mod).
    assert (f = va / PageSize) as ->.
    { unfold zget in Hf. rewrite decide_True, lookup_seqZ_lt in Hf by lia. injection Hf as <-. lia. }
    rewrite <-Himg by done. f_equal. pose proof (Z.div_mod va PageSize). unfold PageSize, SectorSize in *. lia.
  - exact Hout3.
Qed.

(** Opening, loading and closing the executable. *)
Lemma load_executable s prog ino exe h :
  came_up s prog ino exe -> permits prog = true -> exe_ok exe h -> data_fits h -> space_pages h <= NumPhysPages ->
  let a := mkAddrSpace (Some (table_of 0 (seqZ 0 (space_pages h)))) (Some (space_pages h)) in
  let r := rest (os (world s)) in
  exists mem b' f,
    load_process permits open_max prog s =
      (on_machine (InitRegisters a);; on_machine (RestoreState a);; mret true)
        (mkSim (interrupt s) (stats s) (mkCpu (set_mainMemory (mach (world s)) mem)
           (mkKern f (console (os (world s))) (set_pages_space r b' a)))) /\
    phys_ok (mkPhys mem b') /\ taken b' (space_pages h) /\
    forall va, 0 <= va < space_pages h * PageSize -> zget mem va = file_image exe h va.
Proof using permits open_max R.
  clear Hrandom. intros [_ _ _ _ _ Hpg [_ (debug & until & Hm)] _ [Hfree H5] He Hi] Hp Hx Hdf Hle a r. unfold r. clear r.
  destruct s as [int sts [m [[u l] con [k pt b tm fl sp fh ps]]]]. cbn in *.
  destruct (load_first exe h (mainMemory m) b) as (mem & b' & El & Hphys' & Hb' & Himg); try done.
  { split; [apply Hpg|apply Hpg|apply (mo_mem_len _ Hm)|apply (mo_mem _ Hm)]. }
  fold a in El. set (u1 := set_fds u (<[5 := mkDescr ino 0 true]> (fds u))).
  assert (fds u1 !! 5 = Some (mkDescr ino 0 true)) as Hfd by apply lookup_insert_eq.
  exists mem, b', (StubFS.mkFileSystem (set_fds u1 (delete 5 (fds u1))) l). split; [|done]. unfold load_process.
  rewrite (st_bind_Ok _ _ _ (Some (new_OpenFile 5)) (mkSim int sts (mkCpu m (mkKern (StubFS.mkFileSystem u1 l) con (mkRest k pt b tm fl sp fh ps))))).
  2:{ unfold on_fs, StubFS.Open, on_unix, OpenForReadWrite, open_existing, new_fd, mbind, st_bind. cbn [world os fsys ux].
      by rewrite He, Hp, Hfree. }
  rewrite (st_bind_Ok _ _ _ exe (mkSim int sts (mkCpu m (mkKern (StubFS.mkFileSystem u1 l) con (mkRest k pt b tm fl sp fh ps))))).
  2:{ unfold file_bytes, fd_at. cbn [world os fsys ux file new_OpenFile]. rewrite Hfd. cbn [mbind option_bind inode].
      change (inodes u1) with (inodes u). by rewrite Hi. }
  rewrite (st_bind_Ok _ _ _ a (mkSim int sts (mkCpu (set_mainMemory m mem) (mkKern (StubFS.mkFileSystem u1 l) con
    (set_pages_space (mkRest k pt b tm fl sp fh ps) b' a))))).
  2:{ unfold new_space. cbn [world os mach rest gPhysPageBitMap]. by rewrite El. }
  rewrite (st_bind_Ok _ _ _ tt (mkSim int sts (mkCpu (set_mainMemory m mem) (mkKern (StubFS.mkFileSystem (set_fds u1 (delete 5 (fds u1))) l) con
    (set_pages_space (mkRest k pt b tm fl sp fh ps) b' a))))); [done|].
  unfold on_fs, on_unix, delete_OpenFile, sys_Close, host_close. cbn [world os fsys ux file new_OpenFile]. by rewrite Hfd.
Qed.
Lemma load_process_running s prog ino exe h :
  came_up s prog ino exe -> permits prog = true -> Forall is_char (typed R) ->
  exe_ok exe h -> data_fits h -> space_pages h <= NumPhysPages ->
  exists s', load_process permits open_max prog s = Ok (true, s') /\ running s' exe h.
Proof using permits open_max R.
  clear Hrandom. intros Hup Hp Hty Hx Hdf Hle.
  destruct (load_executable s prog ino exe h Hup Hp Hx Hdf Hle) as (mem & b' & f & -> & Hphys & Hb' & Himg).
  destruct Hup as [[C1 C2 C3 C4] Hlv (T & HT & Htab) Hps Hsys _ [Htlb (debug & until & Hm)] Hcon _ _ _].
  destruct (space_pages_spec exe h Hx) as [Hpos _].
  destruct (start_machine (mach (world s)) mem (space_pages h) debug until (file_image exe h) Htlb)
    as (m1 & m2 & E1 & E2 & Hm2 & Hmem & Hregs & Hin & Hout); [|lia|done|].
  { destruct Hm as [M1 M2 M3 M4 M5]. split; try done; apply Hphys. }
  set (a := mkAddrSpace _ _) in *. set (r := set_pages_space _ b' a).
  rewrite (st_bind_Ok _ _ _ tt (mkSim (interrupt s) (stats s) (mkCpu m1 (mkKern f (console (os (world s))) r)))).
  2:{ unfold on_machine. cbn [world mach]. by rewrite E1. }
  rewrite (st_bind_Ok _ _ _ tt (mkSim (interrupt s) (stats s) (mkCpu m2 (mkKern f (console (os (world s))) r)))).
  2:{ unfold on_machine. cbn [world mach]. by rewrite E2. }
  eexists. split; [done|]. split; cbn [interrupt stats world os mach rest console r set_pages_space threads_ processTab gPhysPageBitMap]; try done.
  - split; [exact Hm2|]. rewrite Hcon. by split.
  - rewrite HT. split; [apply boot_inv|exact Htab].
  - by destruct Hsys.
  - rewrite Hmem. by split.
  - rewrite Hcon. apply new_SynchConsole_ok.
  - rewrite Hmem. exact Hin.
Qed.
End boot_specs.

(** ** The console test *)

(** [ConsoleTest] on a console of its own, whose semaphores [readAvail] and
    [writeDone] are the ones of the device: an echo up to the first 'q'. *)
Fixpoint ConsoleTest (fuel : nat) : st SynchConsole unit :=
  match fuel with
  | O => lift NoFuel
  | Datatypes.S f =>
      P_read;;
      ch ← GetChar;
      PutChar ch;;
      P_write;;
      if ch =? 113 then mret tt else ConsoleTest f
  end.
(** No character waits in the device, nothing is being shown. *)
Definition idle (s : SynchConsole) : Prop :=
  incoming (SynchCons.cons s) = EOF /\ synchReadAvail s = 0 /\ synchWriteAvail s = 0 /\ putBusy (SynchCons.cons s) = false.
(** When a 'q' is typed the test ends, having shown all that was typed up to it
    and left the rest in the keyboard. *)
Lemma echo_shows front : forall fuel s back,
  idle s -> keyboard (SynchCons.cons s) = front ++ 113 :: back -> 113 ∉ front -> (length front < fuel)%nat ->
  exists s', ConsoleTest fuel s = Ok (tt, s') /\ idle s' /\ keyboard (SynchCons.cons s') = back /\
    display (SynchCons.cons s') = display (SynchCons.cons s) ++ front ++ [113].
Proof.
  induction front as [|c front IH]; intros fuel s back (H1 & H2 & H3 & H4) Hk Hq Hf; (destruct fuel as [|fuel]; [simpl in Hf; lia|]);
    destruct s as [[kb dp pb inc] ra wa rl wl nr nw]; cbn in *; subst; cbn [ConsoleTest].
  - eexists. split; [reflexivity|]. done.
  - apply not_elem_of_cons in Hq as [Hc Hq].
    destruct (IH fuel (mkSynchConsole (mkConsole (front ++ 113 :: back) (dp ++ [c]) false EOF) 0 0 rl wl (nr + 1) (nw + 1)) back)
      as (s' & E & Hi & Hb & Hd); [done|done|done|lia|].
    exists s'. split; [|split; [done|]; split; [done|]; rewrite Hd; simpl; by rewrite <-app_assoc].
    rewrite <-E. erewrite (st_bind_Ok P_read) by reflexivity. erewrite (st_bind_Ok GetChar) by reflexivity.
    erewrite (st_bind_Ok (PutChar _)) by reflexivity. erewrite (st_bind_Ok P_write) by reflexivity.
    match goal with |- (if ?b then _ else _) _ = _ => change b with (c =? 113) end. by rewrite (proj2 (Z.eqb_neq c 113)) by done.
Qed.

(** ** Properties *)

(** C22. From the command line to the first program.  For every command line of
    options of the build whose first command is -x with a well-formed executable
    of the host that fits in memory: the system comes up without failing an
    assertion or touching memory it does not own, and reaches [machine->Run()]
    with interrupts on, all its parts in the states their theorems start from
    (threads, process table, semaphore table, interrupt queue, clock, console,
    page map, machine), the registers of a new program, and a page table through
    which the program sees exactly its image, and nothing beyond its pages.  The
    constructor that loads at physical address 0 is right here because the frames
    it gets are 0, 1, 2 and so on. *)
Theorem first_program (permits : list Z -> bool) (open_max : nat) (R : machine_room)
    (Run : st (sim (cpu (kern rest_t))) unit) (test : option (list Z * list Z) -> st (sim (cpu (kern rest_t))) unit)
    (Halt_ Finish : st (sim (cpu (kern rest_t))) unit)
    (fuel : nat) (u : unix) (l : list item) (cs : list command) (prog : list Z) (ino : Z) (exe : list Z) (h : NoffHeader) :
  0 <= random1 R /\ 0 <= random2 R -> room_ok R -> (2 <= fuel)%nat -> (6 <= open_max)%nat ->
  Forall (item_ok userprog_build) l -> commands l = Start prog :: cs ->
  host_ok u prog ino exe -> permits prog = true -> permits FileSys.stdin_name = true -> permits FileSys.stdout_name = true ->
  exe_ok exe h -> data_fits h -> space_pages h <= NumPhysPages ->
  exists s, nachos permits open_max R Run test Halt_ Finish fuel u (line l) = (Run;; lift AssertFail) s /\ running s exe h.
Proof.
  intros Hrand HR Hf Hom Hl Hcs Hhost Hp Hin Hout Hx Hdf Hle. unfold nachos.
  destruct (Initialize_up permits open_max R Hrand fuel u (line l) (foldl set_option no_options l) prog ino exe HR Hhost Hin Hout Hom Hf)
    as (s0 & -> & Hup); [by apply init_line|]. cbn [mbind res_bind].
  destruct (load_process_running permits open_max R s0 prog ino exe h Hup Hp (ro_typed _ HR) Hx Hdf Hle) as (s & E & Hs).
  exists s. split; [|done]. unfold main. cbn [THREADS userprog_build]. unfold mbind at 1, st_bind at 1. cbn [mret st_ret].
  unfold mbind at 1, st_bind at 1. rewrite main_line, Hcs by done. cbn [run_all]. unfold perform. cbn [user_run]. unfold StartProcess.
  unfold mbind, st_bind. rewrite E. cbn. by destruct (Run s) as [[[] s1]| | | |].
Qed.

(** nachos -rs 5 -x p *)
Definition sample_room : machine_room := mkRoom [1; 2; 3; 4] [9] [7] 100 [] 0 0 3 4 8 8 [104; 105; 10].
Definition sample_host : unix := mkUnix {[ [112] := 1 ]} {[ 1 := tiny_exe ]} ∅.
Lemma first_program_witness :
  exists s, nachos (fun _ => true) 64 sample_room (fun _ => Halted) (fun _ => mret tt) (mret tt) (mret tt) 2 sample_host [w_rs; [53]; w_x; [112]] =
      ((fun _ => Halted) : st (sim (cpu (kern rest_t))) unit) s /\ running s tiny_exe tiny_header.
Proof.
  destruct (first_program (fun _ => true) 64 sample_room (fun _ => Halted) (fun _ => mret tt) (mret tt) (mret tt) 2 sample_host
    [Seed [53]; Command (Start [112])] [] [112] 1 tiny_exe tiny_header) as (s & E & Hs).
  - split; by vm_compute.
  - split; repeat first [done | split | constructor | unfold is_uint, two32, is_char; lia].
  - lia.
  - lia.
  - repeat (done || constructor).
  - reflexivity.
  - split; [done|done|done|split; [done|by vm_compute]|split; [done|by vm_compute]].
  - reflexivity.
  - reflexivity.
  - reflexivity.
  - exact tiny_exe_ok.
  - split; by vm_compute.
  - by vm_compute.
  - exists s. split; [exact E|exact Hs].
Defined.
