(* ===== verification/StartCode.v ===== *)
(** * test/start.c, userprog/syscall.h: the code in front of every user program

    start.c is assembly code: [__start], at address 0, where the kernel starts a
    program, and one stub for each system call.  A stub puts the number of the call
    into register 2, traps into the kernel, and returns to its caller.  The words
    below are what the assembler makes of it; the assembler fills the delay slot of
    a jump with a nop.  They are run by the simulator (MipsSim) with the handler of
    exception.cc (Syscalls) behind the trap: a call of a C program becomes a system
    call of the kernel. *)

From stdpp Require Import gmap list strings sets.
From S2P Require Import Prelude Interrupt Machine MipsSim MipsIsa SynchCons StubFS Syscalls.
#[local] Open Scope Z_scope.

(** ** userprog/syscall.h *)

Definition syscall_codes : list (string * Z) := [
  ("Halt", 0); ("Exit", 1); ("Exec", 2); ("Join", 3); ("Create", 4); ("Open", 5); ("Read", 6); ("Write", 7);
  ("Close", 8); ("Fork", 9); ("Yield", 10); ("ReadInt", 11); ("PrintInt", 12); ("ReadFloat", 13); ("PrintFloat", 14);
  ("ReadChar", 15); ("PrintChar", 16); ("ReadString", 17); ("PrintString", 18); ("WriteF2File", 19);
  ("CompareFloat", 20); ("ClearFloat", 21); ("Up", 22); ("Down", 23); ("Sleep", 24); ("CreateSemaphore", 25);
  ("ReadFileFormat", 26); ("WriteInt2File", 27)]%string.
Definition SC (name : string) : Z := default (-1) (snd ∘ snd <$> list_find (fun x => x.1 = name) syscall_codes).

(** ** test/start.c *)

(** addiu rt,rs,imm; addu rd,rs,rt; jr rs; jal target *)
Definition w_addiu (rt rs imm : Z) : Z := 9 * 2 ^ 26 + rs * 2 ^ 21 + rt * 2 ^ 16 + imm.
Definition w_addu (rd rs rt : Z) : Z := rs * 2 ^ 21 + rt * 2 ^ 16 + rd * 2 ^ 11 + 33.
Definition w_jr (rs : Z) : Z := rs * 2 ^ 21 + 8.
Definition w_jal (target : Z) : Z := 3 * 2 ^ 26 + target / 4.
Definition w_syscall : Z := 12.
Definition w_nop : Z := 0.

(** addiu $2,$0,SC_name; syscall; j $31 *)
Definition stub (code : Z) : list Z := [w_addiu 2 0 code; w_syscall; w_jr 31; w_nop].
(** The stubs, in the order of the file. *)
Definition stubs_first : list string := [
  "Halt"; "Exit"; "Exec"; "Join"; "Create"; "Open"; "Read"; "Write"; "WriteF2File"; "CompareFloat"; "ClearFloat"; "Close";
  "ReadInt"; "PrintInt"]%string.
Definition stubs_second : list string := [
  "ReadFloat"; "PrintFloat"; "ReadChar"; "PrintChar"; "ReadString"; "PrintString"; "Fork"; "Yield";
  "CreateSemaphore"; "Up"; "Down"; "ReadFileFormat"; "WriteInt2File"]%string.
(** jal main; move $4,$0; jal Exit *)
Definition __start (main exit : Z) : list Z := [w_jal main; w_nop; w_addu 4 0 0; w_jal exit; w_nop].
(** The text of start.c at address 0: [__start], the stubs, and [__main]. *)
Definition stub_address (i : nat) : Z := 20 + 16 * Z.of_nat i.
Definition __main : list Z := [w_jr 31; w_nop].
Definition start_text (main : Z) : list Z :=
  __start main (stub_address 1) ++ concat (stub ∘ SC <$> stubs_first ++ stubs_second) ++ __main.

(** ** Running code *)

Section run.
Context {K : Type} (ExceptionHandler : ExceptionType -> st (sim (cpu K)) unit).
(** [n] instructions of [Machine::Run]. *)
Fixpoint instructions (n : nat) : st (sim (cpu K)) unit :=
  match n with
  | O => mret tt
  | S n' => OneInstruction ExceptionHandler;; instructions n'
  end.
Lemma instructions_app a b s : instructions (a + b) s = (instructions a;; instructions b) s.
Proof.
  revert s. induction a as [|a IH]; intros s; [done|]. cbn [instructions Nat.add]. unfold mbind, st_bind in *.
  destruct (OneInstruction ExceptionHandler s) as [[[] s']| | | |]; done || apply IH.
Qed.
Lemma instructions_one s s' : OneInstruction ExceptionHandler s = Ok (tt, s') -> instructions 1 s = Ok (tt, s').
Proof. intros E. cbn [instructions]. by rewrite (st_bind_Ok _ _ _ _ _ E). Qed.
Lemma instructions_trans a b s s' s'' : instructions a s = Ok (tt, s') -> instructions b s' = Ok (tt, s'') -> instructions (a + b) s = Ok (tt, s'').
Proof. intros E1 E2. rewrite instructions_app. by rewrite (st_bind_Ok _ _ _ _ _ E1). Qed.
End run.

(** The word [w] is the instruction at virtual address [a]. *)
Definition word_at (m : Machine) (a w : Z) : Prop :=
  exists pa, phys m a 4 false = inr pa /\ load (mainMemory m) pa 4 = Ok (to_int w).
Definition code_at (m : Machine) (a : Z) (ws : list Z) : Prop := forall i w, ws !! i = Some w -> word_at m (a + 4 * Z.of_nat i) w.
Lemma word_at_same m m' a w : mainMemory m' = mainMemory m -> (forall a n b, phys m' a n b = phys m a n b) -> word_at m a w -> word_at m' a w.
Proof. intros Hm Hp (pa & H1 & H2). exists pa. by rewrite Hp, Hm. Qed.
Lemma code_at_same m m' a ws : mainMemory m' = mainMemory m -> (forall a n b, phys m' a n b = phys m a n b) -> code_at m a ws -> code_at m' a ws.
Proof. intros Hm Hp H i w Hw. by apply (word_at_same m), H. Qed.
Lemma fetch_word_at m a w i : word_at m a w -> reg_of m PCReg = a -> is_uint w -> Decode w = Ok i -> fetch m = Some i.
Proof.
  intros (pa & Hp & Hl) Hpc Hw Hd. unfold fetch. rewrite Hpc, Hp, Hl, to_uint_to_int, to_uint_id, Hd by done. done.
Qed.

(** *** Jumps and traps *)

Section steps.
Context {K : Type} (ExceptionHandler : ExceptionType -> st (sim (cpu K)) unit).
Implicit Types (s : sim (cpu K)) (i : Instruction).

Lemma no_write m m1 : machine_ok m -> touched m m1 -> set_registers m1 (zset (registers m1) 0 0) = m1.
Proof. intros Hm Htd. rewrite zset_id; [by destruct m1|]. rewrite (td_regs _ _ Htd). apply Hm. Qed.
Lemma reg_touched m m1 r : touched m m1 -> reg_of m1 r = reg_of m r.
Proof. intros Htd. unfold reg_of. by rewrite (td_regs _ _ Htd). Qed.
Lemma reg_is_int m r : machine_ok m -> 0 <= r < NumTotalRegs -> is_int (reg_of m r).
Proof. intros Hm Hr. destruct (regs_get _ r (mo_regs _ Hm) Hr) as (v & Hv & Hvi). unfold reg_of. by rewrite Hv. Qed.

Lemma reg_zero m : machine_ok m -> reg_of m 0 = 0.
Proof. intros Hm. unfold reg_of. by rewrite (mo_zero _ Hm). Qed.

Lemma jr_completes s i :
  let m := mach (world s) in
  machine_ok m -> fetch m = Some i -> opCode i = OP_JR ->
  exists m', OneInstruction ExceptionHandler s = Ok (tt, with_mach s m') /\
    completed m m' 0 0 0 0 (reg_of m (rs i)) /\ mainMemory m' = mainMemory m.
Proof.
  intros m Hm Hf Eop. pose proof (fetch_ok s i Hm Hf) as Hi. pose proof Hi as [].
  assert (is_int (reg_of m (rs i))) as Hri by (apply reg_is_int; [done|unfold NumTotalRegs; lia]).
  destruct (one_case ExceptionHandler s i 0 0 0 0 (fun _ => reg_of m (rs i)) Hm Hf) as (m1 & m' & _ & Ho & Hc & Hmem);
    [done|unfold_int; lia| |by exists m'].
  intros m1 Htd. split; [done|]. split; [unfold_int; lia|]. split; [done|]. exists m1. split; [apply touched_refl|].
  assert (P_mid (with_mach s m1)) as Hmid by (apply ok_mid; by eapply touched_machine_ok).
  destruct (reg_value (with_mach s m1) (rs i) Hmid) as [Hv _]; [unfold NumTotalRegs; lia|].
  unfold execute, switch_table. simpl. rewrite Eop. cbn -[op_JR]. unfold op_JR. rewrite (st_bind_Ok _ _ _ _ _ Hv).
  rewrite (no_write m) by done. unfold break_. cbn [mach world with_mach set_world]. by rewrite (reg_touched m).
Qed.
(** The target of a jump. *)
Definition jal_target (npc : Z) (i : Instruction) : Z :=
  to_int (Z.lor (Z.land (to_int (npc + 4)) 4026531840) (to_uint (IndexToAddr (extra i)))).
Lemma jal_completes s i :
  let m := mach (world s) in
  machine_ok m -> fetch m = Some i -> opCode i = OP_JAL ->
  exists m', OneInstruction ExceptionHandler s = Ok (tt, with_mach s m') /\
    completed m m' R31 (to_int (reg_of m NextPCReg + 4)) 0 0 (jal_target (reg_of m NextPCReg) i) /\ mainMemory m' = mainMemory m.
Proof.
  intros m Hm Hf Eop. pose proof (fetch_ok s i Hm Hf) as Hi.
  destruct (one_case ExceptionHandler s i R31 (to_int (reg_of m NextPCReg + 4)) 0 0 (fun _ => jal_target (reg_of m NextPCReg) i) Hm Hf)
    as (m1 & m' & _ & Ho & Hc & Hmem); [done|apply to_int_range| |by exists m'].
  intros m1 Htd. split; [done|]. split; [unfold_int; lia|]. split; [apply to_int_range|]. exists m1. split; [apply touched_refl|].
  assert (P_mid (with_mach s m1)) as Hmid by (apply ok_mid; by eapply touched_machine_ok).
  destruct (reg_value (with_mach s m1) NextPCReg Hmid) as [Hv _]; [done|].
  unfold execute, switch_table. simpl. rewrite Eop. cbn -[op_JAL]. unfold op_JAL, link.
  rewrite (st_bind_Ok _ _ _ tt (with_mach s (set_registers m1 (zset (registers m1) R31 (to_int (reg_of m1 NextPCReg + 4)))))).
  - unfold op_J, break_, jal_target. by rewrite !(reg_touched m m1).
  - rewrite (st_bind_Ok _ _ _ _ _ Hv). apply (wreg_at (with_mach s m1)); done.
Qed.
(** A system call enters the kernel. *)
Lemma syscall_traps s i :
  let m := mach (world s) in
  machine_ok m -> fetch m = Some i -> opCode i = OP_SYSCALL ->
  exists m1, touched m m1 /\ OneInstruction ExceptionHandler s = RaiseException ExceptionHandler SyscallException 0 (with_mach s m1).
Proof.
  intros m Hm Hf Eop. pose proof (OneInstruction_fetch ExceptionHandler s Hm) as Ho. fold m in Ho. rewrite Hf in Ho.
  destruct Ho as (_ & m1 & Htd & ->). exists m1. split; [done|]. unfold mbind at 1, st_bind at 1.
  unfold execute, switch_table. simpl. rewrite Eop. cbn -[op_SYSCALL]. unfold op_SYSCALL, raise, mbind, st_bind.
  by destruct (RaiseException ExceptionHandler SyscallException 0 _) as [[[] ?]| | | |].
Qed.
End steps.

(** *** The words *)

Lemma decode_stub code : 0 <= code < 28 ->
  is_uint (w_addiu 2 0 code) /\ Decode (w_addiu 2 0 code) = Ok (mkInstruction OP_ADDIU 0 2 0 code).
Proof.
  intros Hc. split; [unfold w_addiu, is_uint, two32; lia|].
  assert (forallb (fun c => match Decode (w_addiu 2 0 c) with
    | Ok i => bool_decide (opCode i = OP_ADDIU /\ rs i = 0 /\ rt i = 2 /\ rd_ i = 0 /\ extra i = c) | _ => false end) (seqZ 0 28) = true) as H
    by (vm_compute; reflexivity).
  rewrite forallb_forall in H. specialize (H code (proj1 (list_elem_of_In _ _) (proj2 (elem_of_seqZ 0 28 code) ltac:(lia)))).
  destruct (Decode _) as [i| | | |]; try done. apply bool_decide_eq_true in H as (? & ? & ? & ? & ?). destruct i. simpl in *. by subst.
Qed.
Lemma land_small a n : 0 <= n -> 0 <= a < 2 ^ n -> Z.land a (Z.ones n) = a.
Proof. intros Hn Ha. rewrite Z.land_ones by done. by apply Z.mod_small. Qed.
Lemma decode_jal t : 0 <= t < 2 ^ 28 -> is_uint (w_jal t) /\ exists i, Decode (w_jal t) = Ok i /\ opCode i = OP_JAL /\ extra i = t / 4.
Proof.
  intros Ht. assert (0 <= t / 4 < 67108864) as Hq by (change (2 ^ 28) with 268435456 in Ht; lia_mod). unfold w_jal.
  split; [unfold is_uint, two32; lia|]. unfold Decode.
  assert (Z.land (Z.shiftr (3 * 2 ^ 26 + t / 4) 26) 63 = 3) as ->.
  { rewrite Z.shiftr_div_pow2 by lia. change (2 ^ 26) with 67108864. replace ((3 * 67108864 + t / 4) / 67108864) with 3 by lia_mod. done. }
  cbn -[Z.pow]. eexists. split; [reflexivity|]. split; [done|]. cbn -[Z.pow].
  change 67108863 with (Z.ones 26). rewrite Z.land_ones by lia. change (2 ^ 26) with 67108864. lia_mod.
Qed.
Lemma jal_target_low npc t i : 0 <= npc -> npc + 4 < 2 ^ 28 -> 0 <= t < 2 ^ 28 -> t mod 4 = 0 -> extra i = t / 4 -> jal_target npc i = t.
Proof.
  intros H1 H2 H3 H4 He. unfold jal_target, IndexToAddr. rewrite He, Z.shiftl_mul_pow2 by lia. change (2 ^ 2) with 4.
  change (2 ^ 28) with 268435456 in *. replace (t / 4 * 4) with t by lia_mod. rewrite (to_int_id t) by (unfold_int; lia).
  rewrite (to_int_id (npc + 4)) by (unfold_int; lia). rewrite to_uint_id by (unfold is_uint, two32; lia).
  assert (Z.land (npc + 4) 4026531840 = 0) as ->; [|rewrite Z.lor_0_l; apply to_int_id; unfold_int; lia].
  change 4026531840 with (Z.shiftl 15 28). apply Z.bits_inj'. intros k Hk. rewrite Z.land_spec, Z.bits_0, Z.shiftl_spec by lia.
  destruct (Z.ltb_spec k 28).
  - rewrite (Z.testbit_neg_r 15) by lia. by rewrite andb_false_r.
  - rewrite (Z.bits_above_log2 (npc + 4)); [done|lia|]. apply Z.log2_lt_pow2; [lia|].
    assert (2 ^ 28 <= 2 ^ k) by (apply Z.pow_le_mono_r; lia). change (2 ^ 28) with 268435456 in *. lia.
Qed.

(** ** The stubs *)

(** Two machines with the same memory and general registers, no load pending in the
    second. *)
Record moved (m m' : Machine) (pc npc : Z) : Prop := {
  mv_ok : machine_ok m';
  mv_regs : forall k, 0 <= k < NumGPRegs -> reg_of m' k = reg_of m k;
  mv_pc : reg_of m' PCReg = pc;
  mv_npc : reg_of m' NextPCReg = npc;
  mv_load : reg_of m' LoadReg = 0;
  mv_mem : mainMemory m' = mainMemory m;
  mv_map : forall a n w, phys m' a n w = phys m a n w
}.
Lemma moved_trans m m1 m2 pc npc pc' npc' : moved m m1 pc npc -> moved m1 m2 pc' npc' -> moved m m2 pc' npc'.
Proof.
  intros H1 H2. split; try apply H2.
  - intros k Hk. by rewrite (mv_regs _ _ _ _ H2), (mv_regs _ _ _ _ H1).
  - by rewrite (mv_mem _ _ _ _ H2), (mv_mem _ _ _ _ H1).
  - intros. by rewrite (mv_map _ _ _ _ H2), (mv_map _ _ _ _ H1).
Qed.
Lemma completed_moved m m' d v pcAfter :
  machine_ok m -> completed m m' d v 0 0 pcAfter -> reg_of m LoadReg = 0 -> mainMemory m' = mainMemory m -> d = 0 ->
  moved m m' (reg_of m NextPCReg) pcAfter.
Proof.
  intros Hm [] Hl Hmem ->. split; try done. intros k Hk. rewrite cp_regs by done. unfold after_write. rewrite Hl.
  destruct (Z.eqb_spec k 0) as [->|]; [|done]. by rewrite reg_zero.
Qed.

Section stubs.
Context {K : Type} (ExceptionHandler : ExceptionType -> st (sim (cpu K)) unit).
Implicit Types s : sim (cpu K).

Lemma nop_moves s a : let m := mach (world s) in
  machine_ok m -> word_at m a w_nop -> reg_of m PCReg = a -> reg_of m LoadReg = 0 ->
  exists m', instructions ExceptionHandler 1 s = Ok (tt, with_mach s m') /\ moved m m' (reg_of m NextPCReg) (to_int (reg_of m NextPCReg + 4)).
Proof.
  intros m Hm Hw Hpc Hl. pose proof (fetch_word_at m a w_nop (mkInstruction OP_SLL 0 0 0 0) Hw Hpc ltac:(done) eq_refl) as Hf.
  destruct (alu_completes ExceptionHandler s _ 0 0 Hm Hf) as (m' & E & Hc & Hmem).
  { left. eexists. split; [do 7 right; left; reflexivity|]. split; [done|]. cbn [rs rt extra].
    fold m. by rewrite (reg_zero m Hm). }
  exists m'. split; [by apply instructions_one|]. eapply completed_moved; done.
Qed.
Lemma stub_returns s a code ra : let m := mach (world s) in
  machine_ok m -> code_at m a (stub code) -> reg_of m PCReg = a + 8 -> reg_of m NextPCReg = a + 12 -> reg_of m LoadReg = 0 -> reg_of m 31 = ra ->
  exists m', instructions ExceptionHandler 2 s = Ok (tt, with_mach s m') /\ moved m m' ra (to_int (ra + 4)).
Proof.
  intros m Hm Hcode Hpc Hn Hl Hra.
  pose proof (fetch_word_at m (a + 8) (w_jr 31) (mkInstruction OP_JR 31 0 0 0) (Hcode 2%nat _ eq_refl) Hpc ltac:(done) eq_refl) as Hf.
  destruct (jr_completes ExceptionHandler s _ Hm Hf eq_refl) as (m1 & E1 & Hc & Hmem). cbn [rs] in Hc. fold m in Hc. rewrite Hra in Hc.
  pose proof (completed_moved _ _ _ _ _ Hm Hc Hl Hmem eq_refl) as Hmv. rewrite Hn in Hmv. pose proof Hmv as [Hok _ Hpc1 Hn1 Hl1 _ Hmap].
  destruct (nop_moves (with_mach s m1) (a + 12)) as (m2 & E2 & Hmv2); [done| |done|done|].
  { apply (code_at_same m m1 _ _ Hmem Hmap Hcode 3%nat w_nop eq_refl). }
  exists m2. split; [apply (instructions_trans ExceptionHandler 1 1 s (with_mach s m1)); [by apply instructions_one|exact E2]|].
  cbn [mach world with_mach set_world] in Hmv2. rewrite Hn1 in Hmv2. by eapply moved_trans.
Qed.

(** The machine [m] with the value [v] in register [d]. *)
Definition with_gpr (m : Machine) (d v : Z) : Machine := set_registers m (zset (registers m) d v).
(** The machine when the kernel is entered: the number of the call in register 2. *)
Definition called m m' (a code : Z) : Prop :=
  moved (with_gpr m 2 code) m' (a + 4) (a + 8).
Lemma trap_registers m m1 : machine_ok m1 -> touched m m1 -> machine_ok m -> reg_of m LoadReg = 0 ->
  moved m (set_registers m1 (delayed (zset (registers m1) BadVAddrReg 0) 0 0)) (reg_of m PCReg) (reg_of m NextPCReg).
Proof.
  intros Hm1 Htd Hm Hl. set (r := zset (registers m1) BadVAddrReg 0). pose proof Hm1 as [Hr Hz Hml Hmb Ht].
  assert (regs_ok r) as Hr' by (apply regs_set; [done|unfold_int; lia|by left]).
  destruct (delayed_ok r 0 0 Hr') as [Hd Hd0]; [done|unfold_int; lia|].
  assert (forall k, k <> BadVAddrReg -> zget r k = zget (registers m) k) as Hg by (intros; unfold r; rewrite zget_zset_ne, (td_regs _ _ Htd); done).
  destruct (regs_get _ LoadReg (mo_regs _ Hm) ltac:(done)) as (l & Hld & _).
  assert (l = 0) as -> by (unfold reg_of in Hl; by rewrite Hld in Hl).
  destruct (regs_get _ LoadValueReg (mo_regs _ Hm) ltac:(done)) as (v & Hlv & _).
  assert (forall k, 0 < k < LoadReg -> reg_of (set_registers m1 (delayed r 0 0)) k = reg_of m k) as Hreg.
  { intros k Hk. unfold reg_of. cbn [registers set_registers].
    rewrite (zget_delayed r 0 0 k 0 v); [|apply Hr'|by left|by rewrite Hg|by rewrite Hg]. unfold LoadReg in Hk. rewrite decide_False, Hg by (unfold BadVAddrReg; lia). done. }
  split; try (apply Hreg; done).
  - split; done.
  - intros k Hk. destruct (decide (k = 0)) as [->|]; [unfold reg_of; cbn [registers set_registers]; by rewrite Hd0, (mo_zero _ Hm)|].
    apply Hreg. unfold NumGPRegs, LoadReg in *. lia.
  - unfold reg_of. cbn [registers set_registers]. unfold delayed. rewrite !Hg, Hld, Hlv by done.
    rewrite !zget_zset_ne by done. rewrite zget_zset_eq; [done|]. rewrite zlen_zset, (ro_len _ Hr'). done.
  - apply Htd.
  - intros. symmetry. apply phys_same. by destruct Htd.
Qed.
End stubs.

(** The state of a program inside a stub, when the kernel goes back to it. *)
Record in_stub (m : Machine) (a ra code : Z) : Prop := {
  is_ok : machine_ok m;
  is_pc : reg_of m PCReg = a + 4;
  is_npc : reg_of m NextPCReg = a + 8;
  is_load : reg_of m LoadReg = 0;
  is_ra : reg_of m 31 = ra;
  is_code : code_at m a (stub code)
}.
Lemma IncPCReg_moves {X} `{!ProcessCalls X} (t : sim (cpu (kern X))) a :
  let m := mach (world t) in
  machine_ok m -> reg_of m PCReg = a + 4 -> reg_of m NextPCReg = a + 8 -> reg_of m LoadReg = 0 -> 0 <= a -> a + 16 < two31 ->
  exists m', IncPCReg t = Ok (tt, with_mach t m') /\ moved m m' (a + 8) (a + 12).
Proof.
  intros m Hm Hpc Hn Hl Ha Hb.
  destruct (regs_get _ PCReg (mo_regs _ Hm) ltac:(done)) as (pc & Epc & _). destruct (regs_get _ NextPCReg (mo_regs _ Hm) ltac:(done)) as (npc & En & _).
  assert (pc = a + 4) as -> by (unfold reg_of in Hpc; by rewrite Epc in Hpc). assert (npc = a + 8) as -> by (unfold reg_of in Hn; by rewrite En in Hn).
  rewrite (IncPCReg_ok t _ _ Hm Epc En). unfold two31 in Hb. replace (a + 8 + 4) with (a + 12) by lia. rewrite (to_int_id (a + 12)) by (unfold_int; lia).
  eexists. split; [reflexivity|]. pose proof (ro_len _ (mo_regs _ Hm)) as Hlen. unfold m in *.
  assert (forall k, reg_of (set_registers (mach (world t)) (zset (zset (zset (registers (mach (world t))) PrevPCReg (a + 4)) PCReg (a + 8)) NextPCReg (a + 12))) k =
    if k =? NextPCReg then a + 12 else if k =? PCReg then a + 8 else if k =? PrevPCReg then a + 4 else reg_of (mach (world t)) k) as Hr.
  { intros k. unfold reg_of. cbn [registers set_registers]. rewrite !default_zset by (rewrite ?zlen_zset, Hlen; done). done. }
  split; try done.
  - cbn [with_reg with_mach set_world mach world set_registers registers].
    repeat (apply machine_ok_reg; [|done|done|unfold_int; lia]). done.
  - intros k Hk. etrans; [apply Hr|]. unfold NumGPRegs, NextPCReg, PCReg, PrevPCReg in *. by rewrite !(proj2 (Z.eqb_neq _ _)) by lia.
  - exact (eq_trans (Hr LoadReg) Hl).
Qed.

Lemma zget_reg m r v : machine_ok m -> 0 <= r < NumTotalRegs -> reg_of m r = v -> zget (registers m) r = Some v.
Proof. intros Hm Hr Hv. destruct (regs_get _ r (mo_regs _ Hm) Hr) as (x & Hx & _). unfold reg_of in Hv. rewrite Hx in *. by simpl in Hv; subst. Qed.
Lemma with_gpr_reg m d v k : machine_ok m -> 0 <= d < NumTotalRegs -> reg_of (with_gpr m d v) k = if k =? d then v else reg_of m k.
Proof. intros Hm Hd. apply default_zset. by rewrite (ro_len _ (mo_regs _ Hm)). Qed.
Lemma completed_sets m m1 d v pcAfter :
  machine_ok m -> reg_of m LoadReg = 0 -> completed m m1 d v 0 0 pcAfter -> mainMemory m1 = mainMemory m -> 0 < d < NumGPRegs ->
  moved (with_gpr m d v) m1 (reg_of m NextPCReg) pcAfter.
Proof.
  intros Hm Hl Hc Hmem Hd. split; try apply Hc; [|done]. intros k Hk. rewrite (cp_regs _ _ _ _ _ _ _ Hc) by done. unfold after_write.
  rewrite with_gpr_reg, Hl by (done || unfold NumGPRegs, NumTotalRegs in *; lia).
  destruct (Z.eqb_spec k 0) as [->|]; [|done]. rewrite (reg_zero m Hm). by destruct (Z.eqb_spec 0 d); [lia|].
Qed.
(** The handler of a system call that does not return, or does. *)
Lemma handler_call {X} `{!ProcessCalls X} permits open_max others junk (s : sim (cpu (kern X))) code :
  machine_ok (mach (world s)) -> reg_of (mach (world s)) 2 = code ->
  ExceptionHandler permits open_max others junk SyscallException s = (syscall permits open_max others junk code;; IncPCReg) s.
Proof.
  intros Hm H2. unfold ExceptionHandler. by rewrite (st_bind_Ok _ _ _ _ _ (rreg_ok s 2 code ltac:(done) (zget_reg _ 2 code Hm ltac:(done) H2))).
Qed.

(** C21. A call of a C program becomes a system call of the kernel.  A program that
    jumps to a stub of start.c, with the address it came from in register 31,
    enters the handler of exception.cc with the number of the call in register 2
    and everything else, the arguments in particular, as the caller left it, and the
    handler runs exactly the system call with that number.  When that call stops the
    machine, so does the program.  When it returns, the program goes on behind the
    place it called from, with the registers and the memory that the kernel has
    left: the result is in register 2.  This takes four instructions. *)
Theorem stub_call {X} `{!ProcessCalls X} permits open_max others junk (s : sim (cpu (kern X))) (a ra code : Z) :
  let m := mach (world s) in
  let handler := ExceptionHandler permits open_max others junk in
  machine_ok m -> reg_of m PCReg = a -> reg_of m NextPCReg = a + 4 -> reg_of m LoadReg = 0 -> reg_of m 31 = ra ->
  0 <= a -> a + 16 < two31 -> 0 <= code < 28 -> code_at m a (stub code) ->
  exists m1, called m m1 a code /\ in_stub m1 a ra code /\
    let s1 := set_status (with_mach s m1) SystemMode in
    (syscall permits open_max others junk code s1 = Halted -> instructions handler 4 s = Halted) /\
    (forall t, syscall permits open_max others junk code s1 = Ok (tt, t) -> in_stub (mach (world t)) a ra code ->
       exists m', instructions handler 4 s = Ok (tt, set_status (with_mach t m') UserMode) /\
         moved (mach (world t)) m' ra (to_int (ra + 4))).
Proof.
  intros m handler Hm Hpc Hn Hl Hra Ha Hb Hc Hcode. destruct (decode_stub code Hc) as [Hu Hd].
  assert (is_int code) as Hci by (unfold_int; lia). unfold two31 in Hb.
  assert (code_at m (a + 0) (stub code)) as Hcode0 by (by rewrite Z.add_0_r).
  destruct (alu_completes handler s _ 2 code Hm (fetch_word_at _ _ _ _ (Hcode0 0%nat _ eq_refl) ltac:(lia) Hu Hd)) as (m1 & E1 & Hcp & Hmem1).
  { right. eexists. split; [left; reflexivity|]. split; [done|]. cbn [rs extra]. fold m. rewrite (reg_zero m Hm). by rewrite to_int_id. }
  fold m in Hcp, Hmem1. rewrite Hn in Hcp. replace (a + 4 + 4) with (a + 8) in Hcp by lia. rewrite to_int_id in Hcp by (unfold_int; lia).
  assert (code_at m1 a (stub code)) as Hcode1 by (apply (code_at_same m); [done|apply Hcp|done]).
  pose proof (cp_pc _ _ _ _ _ _ _ Hcp) as Hpc1. rewrite Hn in Hpc1.
  set (s1 := with_mach s m1) in *.
  destruct (syscall_traps handler s1 (mkInstruction OP_SYSCALL 0 0 0 0) (cp_ok _ _ _ _ _ _ _ Hcp)
    (fetch_word_at _ _ _ _ (Hcode1 1%nat _ eq_refl) Hpc1 ltac:(done) eq_refl) eq_refl) as (m2 & Htd & E2).
  cbn [s1 mach world with_mach set_world] in Htd.
  pose proof (touched_machine_ok _ _ Htd (cp_ok _ _ _ _ _ _ _ Hcp)) as Hm2.
  pose proof (trap_registers m1 m2 Hm2 Htd (cp_ok _ _ _ _ _ _ _ Hcp) (cp_load _ _ _ _ _ _ _ Hcp)) as Hmv.
  rewrite Hpc1, (cp_next _ _ _ _ _ _ _ Hcp) in Hmv.
  destruct (RaiseException_spec handler (with_mach s1 m2) SyscallException 0 (mo_regs _ Hm2) ltac:(unfold_int; lia)) as (E3 & _ & _).
  cbn [s1 mach world with_mach set_world] in E3. set (m3 := set_registers m2 _) in *.
  assert (called m m3 a code) as Hcl by (eapply moved_trans; [apply completed_sets; done|exact Hmv]).
  assert (reg_of m3 2 = code /\ reg_of m3 31 = ra) as [H2 H31].
  { rewrite !(mv_regs _ _ _ _ Hcl), !with_gpr_reg by done. done. }
  exists m3. split; [exact Hcl|]. split.
  { split; try apply Hmv; [done|]. apply (code_at_same m1); [apply Hmv|apply Hmv|done]. }
  intros s3. pose proof (handler_call permits open_max others junk s3 code (mv_ok _ _ _ _ Hmv) H2) as Eh. fold handler in Eh.
  assert (instructions handler 4 s = (handler SyscallException;; setStatus UserMode;; instructions handler 2) s3) as Erun.
  { change 4%nat with (1 + (1 + 2))%nat. rewrite instructions_app, (st_bind_Ok _ _ _ _ _ (instructions_one handler s s1 E1)), instructions_app.
    cbn [instructions]. unfold mbind, st_bind in *. rewrite E2, E3.
    change (set_status (with_mach (with_mach s1 m2) m3) SystemMode) with s3.
    destruct (handler SyscallException s3) as [[[] ?]| | | |]; reflexivity. }
  split.
  - intros Eh'. rewrite Erun. unfold mbind, st_bind in Eh |- *. by rewrite Eh, Eh'.
  - intros t Et [Ht Htp Htn Htl Htr Htc]. destruct (IncPCReg_moves t a Ht Htp Htn Htl Ha ltac:(unfold two31; lia)) as (m4 & Ei & Hmv4).
    rewrite (st_bind_Ok _ _ _ _ _ Et), Ei in Eh. rewrite Erun, (st_bind_Ok _ _ _ _ _ Eh).
    rewrite (st_bind_Ok _ _ _ tt (set_status (with_mach t m4) UserMode)) by done.
    destruct (stub_returns handler (set_status (with_mach t m4) UserMode) a code ra) as (m5 & E5 & Hmv5); try apply Hmv4.
    { apply (code_at_same (mach (world t))); [apply Hmv4|apply Hmv4|done]. }
    { cbn. by rewrite (mv_regs _ _ _ _ Hmv4). }
    exists m5. split; [exact E5|]. eapply moved_trans; [exact Hmv4|exact Hmv5].
Qed.
(** PrintChar of "A", called from address 92. *)
Definition print_stub_memory : list Z := splice 3584 (concat (image 4 <$> stub (SC "PrintChar"))) (mainMemory sample_machine).
Definition print_stub_state : sim (cpu (kern unit)) :=
  let s := call_state busy_fs 65 0 0 in
  let s := with_mach s (set_mainMemory (mach (world s)) print_stub_memory) in
  with_reg (with_reg s 31 100) NextPCReg 4.
Lemma print_stub_memory_ok : zlen print_stub_memory = MemorySize /\ Forall is_byte print_stub_memory.
Proof.
  pose proof sample_machine_ok as [_ _ Hml Hmb _].
  assert (forallb (fun b => bool_decide (is_byte b)) (concat (image 4 <$> stub (SC "PrintChar"))) = true) as Hb by (vm_compute; reflexivity).
  unfold print_stub_memory. split.
  - rewrite zlen_splice; [exact Hml|lia|]. rewrite Hml. vm_compute. congruence.
  - apply Forall_splice; [exact Hmb|]. rewrite forallb_forall in Hb. apply list.Forall_forall. intros b Hin%list_elem_of_In%Hb. by apply bool_decide_eq_true in Hin.
Qed.
Lemma print_stub_ok : machine_ok (mach (world print_stub_state)).
Proof.
  unfold print_stub_state. cbn [with_reg with_mach set_world mach world].
  do 2 (apply machine_ok_reg; [|done|done|by apply small_is_int]).
  destruct (call_state_ok busy_fs 65 0 0) as [Hr Hz _ _ Ht]; [by apply small_is_int..|].
  destruct print_stub_memory_ok as [Hl Hb]. split; [exact Hr|exact Hz|exact Hl|exact Hb|exact Ht].
Qed.
Lemma print_stub_code : code_at (mach (world print_stub_state)) 0 (stub 16).
Proof.
  intros i w Hi. do 4 (destruct i as [|i]; [injection Hi as <-; eexists; split; [reflexivity|vm_compute; reflexivity]|]). done.
Qed.
Lemma print_char_call {X} `{!ProcessCalls X} (s : sim (cpu (kern X))) c d :
  reg s 4 = Some c -> SynchCons.Write [to_char c] 1 (console (os (world s))) = Ok (1, d) -> SC_PrintChar s = Ok (tt, with_console s d).
Proof.
  intros H4 Hw. unfold SC_PrintChar. rewrite (st_bind_Ok _ _ _ _ _ (rreg_ok s 4 c ltac:(done) H4)).
  by rewrite (st_bind_Ok _ _ _ _ _ (on_cons_ok s _ _ _ Hw)).
Qed.
Lemma stub_call_witness :
  exists m' t, instructions (ExceptionHandler (fun _ => true) 64 (fun _ => Halt) (fun _ => [])) 4 print_stub_state =
      Ok (tt, set_status (with_mach t m') UserMode) /\
    display (SynchCons.cons (console (os (world t)))) = [65] /\ reg_of m' PCReg = 100 /\ reg_of m' 4 = 65.
Proof.
  assert (0 <= 4 < NumGPRegs) as Hr4 by done. assert (0 <= 4 < NumTotalRegs) as Ht4 by done.
  destruct (stub_call (fun _ => true) 64 (fun _ => Halt) (fun _ => []) print_stub_state 0 100 16)
    as (m1 & Hcl & Hin & _ & H); [exact print_stub_ok|reflexivity|reflexivity|reflexivity|reflexivity|lia|unfold two31; lia|lia|exact print_stub_code|].
  destruct (cons_Write_ok (new_SynchConsole []) [65] 1 (new_SynchConsole_ok []) eq_refl) as (d & Hw & _ & _ & Hd & _);
    [by vm_compute|].
  pose proof (mv_regs _ _ _ _ Hcl 4 Hr4) as H4. change (reg_of m1 4 = 65) in H4.
  set (s1 := set_status (with_mach print_stub_state m1) SystemMode) in *.
  destruct (H (with_console s1 d)) as (m' & E & Hmv).
  - exact (print_char_call s1 65 d (zget_reg m1 4 65 (is_ok _ _ _ _ Hin) Ht4 H4) Hw).
  - exact Hin.
  - exists m', (with_console s1 d). split; [exact E|]. split; [exact Hd|]. split; [exact (mv_pc _ _ _ _ Hmv)|].
    change (mach (world (with_console s1 d))) with m1 in Hmv. rewrite (mv_regs _ _ _ _ Hmv 4 Hr4). exact H4.
Defined.

(** ** The text of start.c *)

(** Every call that syscall.h declares has a stub, with a number of its own that the
    handler knows; only Sleep has none. *)
Lemma stub_table :
  NoDup (SC <$> stubs_first ++ stubs_second) /\ Forall (fun n => 0 <= SC n < 28) (stubs_first ++ stubs_second) /\
  filter (fun x => x.1 ∉ stubs_first ++ stubs_second) syscall_codes = [("Sleep"%string, 24)].
Proof.
  split_and!; [|apply (bool_decide_eq_true_1 (Forall _ _)); vm_compute; reflexivity|vm_compute; reflexivity].
  apply (bool_decide_eq_true_1 (NoDup _)). vm_compute. reflexivity.
Qed.
Lemma code_at_part m a l1 l2 l3 : code_at m a (l1 ++ l2 ++ l3) -> code_at m (a + 4 * zlen l1) l2.
Proof.
  intros H i w Hi. replace (a + 4 * zlen l1 + 4 * Z.of_nat i) with (a + 4 * Z.of_nat (length l1 + i)) by (unfold zlen; lia).
  apply H. rewrite lookup_app_r by lia. rewrite Nat.add_comm, Nat.add_sub, lookup_app_l; [done|]. by eapply lookup_lt_Some.
Qed.
(** Each stub is at its place in the text. *)
Lemma stubs_in_text m main : code_at m 0 (start_text main) ->
  code_at m 0 (__start main (stub_address 1)) /\
  forall i name, (stubs_first ++ stubs_second) !! i = Some name -> code_at m (stub_address i) (stub (SC name)).
Proof.
  intros H. unfold start_text in H. split; [exact (code_at_part m 0 [] _ _ H)|]. intros i name Hi.
  rewrite <-(take_drop_middle _ _ _ Hi), fmap_app, concat_app, app_assoc in H. cbn [fmap list_fmap concat] in H. rewrite <-!app_assoc in H.
  rewrite (app_assoc (__start main _)) in H. apply code_at_part in H. unfold stub_address.
  assert (forall l, zlen (concat (stub ∘ SC <$> l)) = 4 * zlen l) as Hl.
  { induction l as [|x l IH]; [done|]. cbn [fmap list_fmap concat]. rewrite zlen_app, IH, zlen_cons.
    change (zlen ((stub ∘ SC) x)) with 4. lia. }
  rewrite zlen_app, Hl in H. unfold zlen in H at 2. rewrite length_take_le in H by (apply lookup_lt_Some in Hi; lia).
  change (zlen (__start main _)) with 5 in H. by replace (20 + 16 * Z.of_nat i) with (0 + 4 * (5 + 4 * Z.of_nat i)) by lia.
Qed.

Section start.
Context {K : Type} (ExceptionHandler : ExceptionType -> st (sim (cpu K)) unit).
Implicit Types s : sim (cpu K).

(** A call: jal and the nop behind it. *)
Lemma call_moves s a target : let m := mach (world s) in
  machine_ok m -> word_at m a (w_jal target) -> word_at m (a + 4) w_nop -> reg_of m PCReg = a -> reg_of m NextPCReg = a + 4 -> reg_of m LoadReg = 0 ->
  0 <= a -> a + 8 < 2 ^ 28 -> 0 <= target < 2 ^ 28 -> target mod 4 = 0 ->
  exists m', instructions ExceptionHandler 2 s = Ok (tt, with_mach s m') /\ moved (with_gpr m R31 (a + 8)) m' target (target + 4).
Proof.
  intros m Hm Hj Hnop Hpc Hn Hl Ha Hb Ht Ht4. destruct (decode_jal target Ht) as (Hu & i & Hd & Eop & Ex).
  destruct (jal_completes ExceptionHandler s i Hm (fetch_word_at _ _ _ _ Hj Hpc Hu Hd) Eop) as (m1 & E1 & Hc & Hmem). fold m in Hc, Hmem.
  change (2 ^ 28) with 268435456 in *.
  rewrite Hn, (jal_target_low (a + 4) target) in Hc by (done || change (2 ^ 28) with 268435456; lia).
  replace (a + 4 + 4) with (a + 8) in Hc by lia. rewrite to_int_id in Hc by (unfold_int; lia).
  pose proof (completed_sets m m1 R31 (a + 8) target Hm Hl Hc Hmem ltac:(done)) as Hmv. rewrite Hn in Hmv. pose proof Hmv as [Hok _ Hpc1 Hn1 Hl1 Hmem1 Hmap].
  destruct (nop_moves ExceptionHandler (with_mach s m1) (a + 4)) as (m2 & E2 & Hmv2); [done| |done|done|].
  { by apply (word_at_same m m1). }
  exists m2. split; [apply (instructions_trans ExceptionHandler 1 1 s (with_mach s m1)); [by apply instructions_one|exact E2]|].
  cbn [mach world with_mach set_world] in Hmv2. rewrite Hn1, to_int_id in Hmv2 by (unfold_int; lia). by eapply moved_trans.
Qed.
Lemma clear_moves s a d : let m := mach (world s) in
  machine_ok m -> word_at m a (w_addu 4 0 0) -> reg_of m PCReg = a -> reg_of m LoadReg = 0 -> reg_of m NextPCReg = d ->
  exists m', instructions ExceptionHandler 1 s = Ok (tt, with_mach s m') /\ moved (with_gpr m 4 0) m' d (to_int (d + 4)).
Proof.
  intros m Hm Hw Hpc Hl <-.
  destruct (alu_completes ExceptionHandler s (mkInstruction OP_ADDU 0 0 4 0) 4 0 Hm (fetch_word_at _ _ _ _ Hw Hpc ltac:(done) eq_refl)) as (m' & E & Hc & Hmem).
  { left. eexists. split; [left; reflexivity|]. split; [done|]. cbn [rs rt extra]. fold m. by rewrite (reg_zero m Hm). }
  exists m'. split; [by apply instructions_one|]. by apply completed_sets.
Qed.
End start.

(** The start of a program.  With start.c at address 0, a program that the kernel
    starts there calls [main] (two instructions later it is there, and register 31
    leads back to address 8); when [main] returns, the program is three instructions
    later in the stub of Exit, with 0 in register 4: it calls Exit(0). *)
Theorem program_start {K} (ExceptionHandler : ExceptionType -> st (sim (cpu K)) unit) (s : sim (cpu K)) (main : Z) :
  let m := mach (world s) in
  machine_ok m -> code_at m 0 (start_text main) -> reg_of m LoadReg = 0 -> 0 <= main < 2 ^ 28 -> main mod 4 = 0 ->
  (reg_of m PCReg = 0 -> reg_of m NextPCReg = 4 ->
     exists m', instructions ExceptionHandler 2 s = Ok (tt, with_mach s m') /\ moved (with_gpr m R31 8) m' main (main + 4)) /\
  (reg_of m PCReg = 8 -> reg_of m NextPCReg = 12 ->
     exists m', instructions ExceptionHandler 3 s = Ok (tt, with_mach s m') /\
       moved (with_gpr (with_gpr m 4 0) R31 20) m' (stub_address 1) (stub_address 1 + 4) /\ code_at m' (stub_address 1) (stub (SC "Exit"))).
Proof.
  intros m Hm Htext Hl Hmain H4. destruct (stubs_in_text m main Htext) as [Hs Hstubs]. split; intros Hpc Hn.
  - apply (call_moves ExceptionHandler s 0 main); try done; [exact (Hs 0%nat _ eq_refl)|exact (Hs 1%nat _ eq_refl)].
  - destruct (clear_moves ExceptionHandler s 8 12) as (m1 & E1 & Hmv1); try done; [exact (Hs 2%nat _ eq_refl)|].
    change (to_int (12 + 4)) with 16 in Hmv1. pose proof Hmv1 as [Hok1 Hr1 Hpc1 Hn1 Hl1 Hmem1 Hmap1].
    destruct (call_moves ExceptionHandler (with_mach s m1) 12 (stub_address 1)) as (m2 & E2 & Hmv2); try done.
    { apply (word_at_same m m1); [done|done|exact (Hs 3%nat _ eq_refl)]. }
    { apply (word_at_same m m1); [done|done|exact (Hs 4%nat _ eq_refl)]. }
    exists m2. split; [exact (instructions_trans ExceptionHandler 1 2 s (with_mach s m1) _ E1 E2)|].
    cbn [mach world with_mach set_world] in Hmv2. pose proof Hmv2 as [Hok2 Hr2 Hpc2 Hn2 Hl2 Hmem2 Hmap2]. split.
    + split; try done.
      * intros k Hk. rewrite Hr2 by done. rewrite with_gpr_reg by done. etrans; [|symmetry; apply default_zset; cbn; rewrite zlen_zset, (ro_len _ (mo_regs _ Hm)); done].
        change (12 + 8) with 20. destruct (k =? R31); [done|]. by rewrite Hr1.
      * rewrite Hmem2. exact Hmem1.
      * intros. rewrite Hmap2. apply Hmap1.
    + apply (code_at_same m m2); [etrans; [exact Hmem2|exact Hmem1]|intros; rewrite Hmap2; apply Hmap1|].
      by apply (Hstubs 1%nat "Exit"%string).
Qed.
