(* ===== verification/FloatCalls.v ===== *)
(** * userprog/exception.cc: the calls on floating-point numbers

    The MIPS simulator has no floating point, so the kernel keeps the numbers: a
    call returns the address of a [float] of the kernel, and the program hands it
    back to the other calls.  The state of the kernel behind Syscalls gets the
    floats that [new] has made, by address; the address in a register is
    dereferenced as it is, and one where there is no float is undefined
    behaviour.  With these calls and ReadFileFormat, [other_calls] is all that
    the dispatcher of Syscalls leaves open but Fork. *)

From stdpp Require Import gmap list.
From S2P Require Import Prelude Interrupt Machine SynchCons StubFS Syscalls KernelInv ReadFormat UserMerge Floats.
#[local] Open Scope Z_scope.

(** The part of the kernel that holds the floats. *)
Class FloatHeap (X : Type) := {
  floats : X -> gmap Z float;
  set_floats : X -> gmap Z float -> X;
  floats_set x h : floats (set_floats x h) = h;
  set_set_floats x h h' : set_floats (set_floats x h) h' = set_floats x h';
  set_floats_id x : set_floats x (floats x) = x
}.

(** [sprintf] into a buffer: the text and its 0 must fit. *)
Definition sprintf (buffer text : list Z) : res (list Z) :=
  if zlen text <? zlen buffer then Ok (text ++ [0] ++ drop (S (length text)) buffer) else UB.
(** The argument of [atof] is a string: a 0 ends it. *)
Definition c_string (buffer : list Z) : res (list Z) :=
  if decide (0 ∈ buffer) then Ok (cstr buffer) else UB.

(** A [float*] as an [int]: the same 32 bits. *)
Definition fromFToI (num : Z) : Z := to_int num.

Section calls.
Context {X : Type} `{!FloatHeap X}.
#[local] Abbreviation S := (sim (cpu (kern X))).

Definition heap_of (s : S) : gmap Z float := floats (rest (os (world s))).
Definition with_floats (s : S) (h : gmap Z float) : S :=
  set_world s (mkCpu (mach (world s)) (mkKern (fsys (os (world s))) (console (os (world s))) (set_floats (rest (os (world s))) h))).
(** [*number], [*number = v] and [delete number] *)
Definition deref (number : Z) : st S float := fun s =>
  match heap_of s !! number with Some v => Ok (v, s) | None => UB end.
Definition assign (number : Z) (v : float) : st S unit := fun s => Ok (tt, with_floats s (<[number := v]> (heap_of s))).
Definition delete_float (number : Z) : st S unit := fun s =>
  match heap_of s !! number with
  | Some _ => Ok (tt, with_floats s (delete number (heap_of s)))
  | None => UB
  end.

(** The address that [new float] returns. *)
Context (alloc : gmap Z float -> Z).

Definition SC_ReadFloat (junk : list Z) : st S unit :=
  number ← (fun s => Ok (alloc (heap_of s), s));
  '(numOfChars, buffer) ← on_cons (SynchCons.Read junk 40);
  (if 0 <? numOfChars then l ← lift (c_string buffer); assign number (float_of_double (atof l))
   else assign number (Fzero false));;
  setreg 2 (fromFToI number).

Definition SC_PrintFloat (junk : list Z) : st S unit :=
  number ← rreg 4;
  v ← deref number;
  let text := fmt_f v in
  buffer ← lift (sprintf junk text);
  count ← on_cons (SynchCons.Write buffer (zlen text));
  setreg 2 count.

Definition SC_WriteF2File (junk : list Z) : st S unit :=
  number ← rreg 4;
  fID ← rreg 5;
  if (fID <? 2) || (9 <? fID) then setreg 2 (-1)
  else
    o ← on_fs (list_at fID);
    match o with
    | None => setreg 2 (-1)
    | Some file =>
        t ← lift (GetType file);
        if negb (t =? 0) then setreg 2 (-1)
        else
          v ← deref number;
          let text := fmt_f v in
          buffer ← lift (sprintf junk text);
          count ← file_Write fID file buffer (zlen text);
          if negb (count =? zlen text - 1) then setreg 2 (-2) else setreg 2 count
    end.

Definition SC_CompareFloat : st S unit :=
  first ← rreg 4;
  second ← rreg 5;
  x ← deref first;
  y ← deref second;
  match fcompare x y with
  | Some Gt => setreg 2 1
  | Some Eq => setreg 2 0
  | _ => setreg 2 (-1)
  end.

Definition SC_ClearFloat : st S unit :=
  number ← rreg 4;
  if negb (number =? 0) then delete_float number else mret tt.

(** The cases of the dispatcher that Syscalls leaves open.  [fuel] bounds the
    loops of ReadFileFormat; Fork jumps to an address of the host that the
    program chooses, and is an argument. *)
Definition other_calls (fork : st S unit) (fuel : nat) (junk : Z -> list Z) (type : Z) : st S unit :=
  match type with
  | 9 => fork
  | 13 => SC_ReadFloat (junk MaxString)
  | 14 => SC_PrintFloat (junk MaxString)
  | 19 => SC_WriteF2File (junk MaxString)
  | 20 => SC_CompareFloat
  | 21 => SC_ClearFloat
  | 26 => SC_ReadFileFormat fuel junk
  | _ => Halt
  end.
End calls.

(** ** Printing *)

Lemma cstr_zero l r : Forall (fun c => c <> 0) l -> c_string (l ++ 0 :: r) = Ok l.
Proof.
  intros Hl. unfold c_string. rewrite decide_True by (apply elem_of_app; right; left). by rewrite cstr_app.
Qed.
Lemma sprintf_ok buffer text : zlen text < zlen buffer ->
  exists b, sprintf buffer text = Ok b /\ zlen b = zlen buffer /\ slice 0 (zlen text) b = text.
Proof.
  intros Hl. unfold sprintf. rewrite (proj2 (Z.ltb_lt _ _)) by done. eexists. split; [done|]. split.
  - rewrite !zlen_app. unfold zlen in *. rewrite length_drop. simpl. lia.
  - unfold slice, zlen. by rewrite drop_0, Nat2Z.id, take_app_length.
Qed.

(** The text of %f: a number with six digits, and no number with six digits is
    nearer. *)
Definition six_digit_text (x : float) (text : list Z) : Prop :=
  match x with
  | Ffin s m e => exists ip fp, text = minus s ++ ip ++ [46] ++ fp /\ decimal ip (dec_value ip) /\
      Forall is_digit fp /\ zlen fp = 6 /\
      let q := dec_value ip * millionth + dec_value fp in
      2 * Z.abs (m * pow_up e * millionth - q * pow_up (- e)) <= pow_up (- e)
  | Fzero s => text = minus s ++ [48; 46; 48; 48; 48; 48; 48; 48]
  | Finf s => text = minus s ++ [105; 110; 102]
  | Fnan s => text = minus s ++ [110; 97; 110]
  end.
Lemma fmt_f_text x : valid binary32 x -> six_digit_text x (fmt_f x).
Proof.
  intros Hv. destruct x as [s|s|s|s m e]; try done. cbn [fmt_f six_digit_text]. set (q := millionths m e).
  pose proof (millionths_range s m e Hv) as Hq. fold q in Hq. exists (dec_text (q / millionth)), (low_digits 6 (q mod millionth)).
  destruct (dec_text_decimal (q / millionth)) as (H1 & H2 & H3 & H4); [split; [lia|]; eapply Z.lt_trans; [apply Hq|done]|].
  split; [done|]. split; [by rewrite H3|]. split; [apply low_digits_range|]. split; [unfold zlen; by rewrite length_low_digits|].
  rewrite H3, low_digits_value by (apply Z.mod_pos_bound; done).
  replace (q / millionth * millionth + q mod millionth) with q by (pose proof (Z.div_mod q millionth ltac:(done)); lia).
  apply rdiv_near, up_pos.
Qed.

Section specs.
Context {X : Type} `{!FloatHeap X}.
#[local] Abbreviation S := (sim (cpu (kern X))).
Implicit Types (s : S).

Lemma deref_ok s a x : heap_of s !! a = Some x -> deref a s = Ok (x, s).
Proof. intros H. unfold deref. by rewrite H. Qed.

Lemma print_float_ok s junk a x :
  machine_ok (mach (world s)) -> reg s 4 = Some a -> heap_of s !! a = Some x -> valid binary32 x ->
  zlen junk = MaxString -> sc_ok (console (os (world s))) -> WLineBlock (console (os (world s))) = 1 ->
  exists d, SC_PrintFloat junk s = Ok (tt, with_reg (with_console s d) 2 (zlen (fmt_f x))) /\
    display (SynchCons.cons d) = display (SynchCons.cons (console (os (world s)))) ++ fmt_f x /\
    sc_ok d /\ chars d = chars (console (os (world s))).
Proof.
  intros Hm H4 Ha Hv Hj Hc Hw. unfold SC_PrintFloat. rewrite (st_bind_Ok _ _ _ _ _ (rreg_ok s 4 a ltac:(done) H4)).
  rewrite (st_bind_Ok _ _ _ _ _ (deref_ok s a x Ha)). cbv zeta. pose proof (fmt_f_len x Hv) as Hl.
  destruct (sprintf_ok junk (fmt_f x)) as (b & Eb & Hbl & Hbs); [rewrite Hj; unfold MaxString; lia|].
  rewrite (lift_bind_Ok _ _ _ _ Eb).
  destruct (cons_Write_ok _ b (zlen (fmt_f x)) Hc Hw) as (d & Hwr & Hok & Hch & Hdisp & _); [unfold MaxString in Hj; lia|].
  rewrite (st_bind_Ok _ _ _ _ _ (on_cons_ok s _ _ _ Hwr)), setreg_ok by done. exists d. rewrite Hbs in Hdisp. done.
Qed.

(** A line of less than 40 characters. *)
Definition float_line (l : list Z) : Prop := 0 < zlen l < 40 /\ Forall (fun c => c <> 0 /\ c <> LF /\ c <> CtrlA) l.
Lemma read_float_ok alloc s junk l r :
  machine_ok (mach (world s)) -> sc_ok (console (os (world s))) -> RLineBlock (console (os (world s))) = 1 ->
  zlen junk = MaxString -> float_line l -> chars (console (os (world s))) = l ++ LF :: r ->
  let a := alloc (heap_of s) in
  exists d, SC_ReadFloat alloc junk s =
      Ok (tt, with_reg (with_floats (with_console s d) (<[a := float_of_double (atof l)]> (heap_of s))) 2 (to_int a)) /\
    sc_ok d /\ chars d = r.
Proof.
  intros Hm Hc HR Hj [Hll Hf] Hch a. unfold SC_ReadFloat. rewrite (st_bind_Ok _ _ _ a s) by done.
  destruct (cons_Read_ok (console (os (world s))) junk 40 l LF r Hc HR) as (d & Hrd & Hok & _ & Hcd); [rewrite Hj; done| |].
  { rewrite Hch. apply take_line_ok; [|unfold zlen in Hll; lia]. eapply list.Forall_impl; [exact Hf|]. by intros c (_ & ? & ?). }
  change (LF =? CtrlA) with false in Hrd. rewrite (st_bind_Ok _ _ _ _ _ (on_cons_ok s _ _ _ Hrd)).
  rewrite (proj2 (Z.ltb_lt 0 (zlen l))) by lia.
  assert (exists r', splice 0 l (splice 0 (replicate (Z.to_nat 40) 0) junk) = l ++ 0 :: r') as [r' ->].
  { unfold splice. change (Z.to_nat 0) with 0%nat. rewrite !take_0, !app_nil_l. cbn [Nat.add].
    rewrite drop_app_le by (rewrite length_replicate; unfold zlen in Hll; lia).
    rewrite drop_replicate. replace (Z.to_nat 40 - length l)%nat with (Datatypes.S (39 - length l)) by (unfold zlen in Hll; lia).
    cbn [replicate app]. by eexists. }
  unfold mbind at 1, st_bind at 1. rewrite (lift_bind_Ok _ _ _ l).
  2:{ apply cstr_zero. eapply list.Forall_impl; [exact Hf|]. by intros c (? & _). }
  unfold assign. rewrite setreg_ok by done. exists d. done.
Qed.
End specs.

(** ** Properties *)

(** The floats alone, for examples. *)
#[export] Instance floats_only : FloatHeap (gmap Z float).
Proof. exists (fun h => h) (fun _ h => h); done. Defined.
Definition half : float := Ffin false 8388608 (-24).
Definition two_and_a_half : float := Ffin true 10485760 (-22).
Definition float_state (a b : Z) (typed : list Z) : sim (cpu (kern (gmap Z float))) :=
  mkSim new_Interrupt new_Statistics
    (mkCpu (mach (world (call_state busy_fs a b 0))) (mkKern busy_fs (new_SynchConsole typed) {[ 100 := half; 108 := two_and_a_half ]})).
Lemma float_state_ok a b typed : is_int a -> is_int b -> machine_ok (mach (world (float_state a b typed))).
Proof. intros. cbn [float_state mach world]. by apply call_state_ok; [| |apply small_is_int]. Qed.

(** Printing a float.  For every float that the kernel holds, [SC_PrintFloat]
    writes the text of %f into its buffer of 256 characters without running over
    (the text has at most 47), shows exactly this text, and returns its length.
    The text of a finite number has six digits behind the point and is within
    half a millionth of the exact value. *)
Theorem print_float {X} `{!FloatHeap X} (s : sim (cpu (kern X))) (junk : list Z) (a : Z) (x : float) :
  machine_ok (mach (world s)) -> reg s 4 = Some a -> heap_of s !! a = Some x -> valid binary32 x ->
  zlen junk = MaxString -> sc_ok (console (os (world s))) -> WLineBlock (console (os (world s))) = 1 ->
  exists d text, SC_PrintFloat junk s = Ok (tt, with_reg (with_console s d) 2 (zlen text)) /\
    display (SynchCons.cons d) = display (SynchCons.cons (console (os (world s)))) ++ text /\
    0 < zlen text <= 47 /\ six_digit_text x text.
Proof.
  intros Hm H4 Ha Hv Hj Hc Hw. destruct (print_float_ok s junk a x Hm H4 Ha Hv Hj Hc Hw) as (d & E & Hd & _).
  exists d, (fmt_f x). split; [done|]. split; [done|]. split; [by apply fmt_f_len|by apply fmt_f_text].
Qed.
Lemma print_float_witness :
  exists d text, SC_PrintFloat (replicate 256 7) (float_state 108 0 []) = Ok (tt, with_reg (with_console (float_state 108 0 []) d) 2 (zlen text)) /\
    display (SynchCons.cons d) = [] ++ text /\ 0 < zlen text <= 47 /\ six_digit_text two_and_a_half text.
Proof.
  apply (print_float (float_state 108 0 []) (replicate 256 7) 108 two_and_a_half).
  - apply float_state_ok; by apply small_is_int.
  - reflexivity.
  - reflexivity.
  - unfold valid, emin. simpl. lia.
  - reflexivity.
  - apply new_SynchConsole_ok.
  - reflexivity.
Defined.

(** Reading a float.  When a line of 1 to 39 characters has been typed,
    [SC_ReadFloat] takes exactly this line, makes a float at a new address with
    the number of the line, leaves the other floats alone and returns the address;
    [SC_ClearFloat] of this address frees it and no other.  For a line "ip.fp" of
    digits, with a minus sign or not, the number is the double nearest to it,
    rounded to a float. *)
Theorem read_float {X} `{!FloatHeap X} (alloc : gmap Z float -> Z) (s : sim (cpu (kern X))) (junk l r : list Z) (a : Z) :
  machine_ok (mach (world s)) -> sc_ok (console (os (world s))) -> RLineBlock (console (os (world s))) = 1 ->
  zlen junk = MaxString -> float_line l -> chars (console (os (world s))) = l ++ LF :: r ->
  a = alloc (heap_of s) -> heap_of s !! a = None -> a <> 0 -> is_int a ->
  exists d, let u := with_reg (with_floats (with_console s d) (<[a := float_of_double (atof l)]> (heap_of s))) 2 a in
    SC_ReadFloat alloc junk s = Ok (tt, u) /\ chars d = r /\
    (forall t, machine_ok (mach (world t)) -> reg t 4 = Some a -> heap_of t = heap_of u ->
       SC_ClearFloat t = Ok (tt, with_floats t (heap_of s))) /\
    (forall sg ip fp y K, l = minus sg ++ ip ++ [46] ++ fp -> ip <> [] -> Forall is_digit ip -> Forall is_digit fp ->
       let num := dec_value ip * 10 ^ zlen fp + dec_value fp in let den := 10 ^ zlen fp in
       0 < num -> finite (atof l) = true -> valid binary64 y -> finite y = true -> 1074 <= K ->
       Z.abs (num * 2 ^ K - den * magnitude K (atof l)) <= Z.abs (num * 2 ^ K - den * magnitude K y)).
Proof.
  intros Hm Hc HR Hj Hl Hch Ha Hnew H0 Hi.
  destruct (read_float_ok alloc s junk l r Hm Hc HR Hj Hl Hch) as (d & E & _ & Hcd). rewrite <-Ha in E.
  exists d. cbv zeta. rewrite to_int_id in E by done. split; [done|]. split; [done|]. split.
  - intros t Hmt H4 Ht. unfold SC_ClearFloat. rewrite (st_bind_Ok _ _ _ _ _ (rreg_ok t 4 a ltac:(done) H4)).
    rewrite (proj2 (Z.eqb_neq a 0)) by done. cbn [negb]. unfold delete_float. rewrite Ht. unfold heap_of at 1 3. simpl.
    rewrite !floats_set, lookup_insert_eq. do 3 f_equal. by rewrite delete_insert_id.
  - intros sg ip fp y K -> Hne Hip Hfp Hnum. rewrite atof_text by done. unfold to_double.
    rewrite (proj2 (Z.eqb_neq _ 0)) by lia. pose proof (zlen_nonneg fp).
    rewrite (Z.max_r (- zlen fp) 0), Z.opp_involutive, (Z.max_l (zlen fp) 0), Z.mul_1_r by lia.
    intros Hfin Hy Hyf HK. apply round_nearest; try done; try lia.
    unfold emin. simpl. lia.
Qed.
Definition sample_alloc (h : gmap Z float) : Z := 200.
Definition typed_quarter : list Z := [45; 48; 46; 50; 53].
Lemma read_float_witness :
  exists d, SC_ReadFloat sample_alloc (replicate 256 7) (float_state 0 0 (typed_quarter ++ [10])) =
    Ok (tt, with_reg (with_floats (with_console (float_state 0 0 (typed_quarter ++ [10])) d)
      (<[200 := Ffin true 8388608 (-25)]> {[ 100 := half; 108 := two_and_a_half ]})) 2 200) /\ chars d = [].
Proof.
  destruct (read_float sample_alloc (float_state 0 0 (typed_quarter ++ [10])) (replicate 256 7) typed_quarter [] 200) as (d & E & Hd & _).
  - apply float_state_ok; by apply small_is_int.
  - apply new_SynchConsole_ok.
  - reflexivity.
  - reflexivity.
  - split; [split; reflexivity|]. repeat (done || constructor).
  - reflexivity.
  - reflexivity.
  - reflexivity.
  - discriminate.
  - by apply small_is_int.
  - exists d. split; [|exact Hd]. rewrite E. assert (float_of_double (atof typed_quarter) = Ffin true 8388608 (-25)) as -> by (vm_compute; reflexivity).
    reflexivity.
Defined.

(** C24. What is printed can be typed back.  A float that is a multiple of 1/64,
    or an infinity or a NaN, and whose text has less than 40 characters, is shown
    by [SC_PrintFloat] as a text which [SC_ReadFloat], when it is typed with a line
    end, turns into a new float of exactly the same value. *)
Theorem float_roundtrip {X} `{!FloatHeap X} (alloc : gmap Z float -> Z) (s t : sim (cpu (kern X)))
    (junk1 junk2 r : list Z) (a : Z) (x : float) :
  machine_ok (mach (world s)) -> reg s 4 = Some a -> heap_of s !! a = Some x -> valid binary32 x -> six_digits x ->
  zlen junk1 = MaxString -> sc_ok (console (os (world s))) -> WLineBlock (console (os (world s))) = 1 ->
  machine_ok (mach (world t)) -> sc_ok (console (os (world t))) -> RLineBlock (console (os (world t))) = 1 ->
  zlen junk2 = MaxString ->
  exists d text, SC_PrintFloat junk1 s = Ok (tt, with_reg (with_console s d) 2 (zlen text)) /\
    display (SynchCons.cons d) = display (SynchCons.cons (console (os (world s)))) ++ text /\
    (zlen text < 40 -> chars (console (os (world t))) = text ++ LF :: r ->
     exists e, let b := alloc (heap_of t) in
       SC_ReadFloat alloc junk2 t = Ok (tt, with_reg (with_floats (with_console t e) (<[b := x]> (heap_of t))) 2 (to_int b)) /\
       chars e = r).
Proof.
  intros Hm H4 Ha Hv H6 Hj1 Hc Hw Hmt Hct HR Hj2.
  destruct (print_float_ok s junk1 a x Hm H4 Ha Hv Hj1 Hc Hw) as (d & E & Hd & _). exists d, (fmt_f x). split; [done|]. split; [done|].
  intros Hl Hch. destruct (read_float_ok alloc t junk2 (fmt_f x) r Hmt Hct HR Hj2) as (e & Ee & _ & He); [|done|].
  - split; [pose proof (fmt_f_len x Hv); lia|]. pose proof (fmt_f_chars x Hv) as Hf.
    apply list.Forall_forall. intros c Hin. rewrite list.Forall_forall in Hf. specialize (Hf c Hin). unfold LF, CtrlA. cbn in Hf. lia.
  - rewrite (atof_fmt_f x Hv H6) in Ee. exists e. done.
Qed.
Definition shown_text : list Z := [45; 50; 46; 53; 48; 48; 48; 48; 48].
Lemma float_roundtrip_witness :
  exists d text, SC_PrintFloat (replicate 256 7) (float_state 108 0 []) = Ok (tt, with_reg (with_console (float_state 108 0 []) d) 2 (zlen text)) /\
    text = shown_text /\
    exists e, SC_ReadFloat sample_alloc (replicate 256 7) (float_state 0 0 (shown_text ++ [10])) =
      Ok (tt, with_reg (with_floats (with_console (float_state 0 0 (shown_text ++ [10])) e)
        (<[200 := two_and_a_half]> {[ 100 := half; 108 := two_and_a_half ]})) 2 200) /\ chars e = [].
Proof.
  destruct (float_roundtrip sample_alloc (float_state 108 0 []) (float_state 0 0 (shown_text ++ [10])) (replicate 256 7) (replicate 256 7) [] 108
    two_and_a_half) as (d & text & E & Hd & Hr).
  - apply float_state_ok; by apply small_is_int.
  - reflexivity.
  - reflexivity.
  - unfold valid, emin. simpl. lia.
  - reflexivity.
  - reflexivity.
  - apply new_SynchConsole_ok.
  - reflexivity.
  - apply float_state_ok; by apply small_is_int.
  - apply new_SynchConsole_ok.
  - reflexivity.
  - reflexivity.
  - assert (text = shown_text) as ->.
    { destruct (SC_PrintFloat (replicate 256 7) (float_state 108 0 [])) as [[[] u]| | | |] eqn:Eu; try discriminate E.
      assert (display (SynchCons.cons (console (os (world u)))) = shown_text) as Hs.
      { change (match Ok (tt, u) with Ok (_, u) => display (SynchCons.cons (console (os (world u)))) | _ => [] end = shown_text).
        rewrite <-Eu. vm_compute. reflexivity. }
      injection E as ->. cbn in Hs. rewrite Hd in Hs. exact Hs. }
    exists d, shown_text. split; [exact E|]. split; [reflexivity|]. destruct (Hr eq_refl eq_refl) as (e & He & Hc). exists e. split; [exact He|exact Hc].
Defined.

(** ** Comparing *)

(** CompareFloat on the addresses of floats; an address without a float is not
    looked at. *)
Definition heap_cmp (h : gmap Z float) (a b : Z) : Z :=
  compare_answer (default (Fzero false) (h !! a)) (default (Fzero false) (h !! b)).
Definition no_nan (h : gmap Z float) : Prop := forall a x, h !! a = Some x -> is_nan x = false.
(** The comparison that mergesort.c needs. *)
Lemma heap_order h : no_nan h -> Merge.FloatOrder (heap_cmp h).
Proof.
  intros Hn. assert (forall a, is_nan (default (Fzero false) (h !! a)) = false) as Hd.
  { intros a. destruct (h !! a) as [x|] eqn:E; [by apply (Hn a)|done]. }
  split; intros; [apply compare_total|eapply compare_trans]; eauto.
Qed.

(** C26. Comparing floats.  [SC_CompareFloat] of two floats of the kernel changes
    register 2 only, and puts there 1, 0 or -1: -1 when one is a NaN; otherwise the
    answer for the exact values, where 0 means the same number or the two zeros.
    As long as no float is a NaN the answers are those of a total order, which is
    what the merge sort of the user programs relies on. *)
Theorem compare_float {X} `{!FloatHeap X} (s : sim (cpu (kern X))) (a b : Z) (x y : float) :
  machine_ok (mach (world s)) -> reg s 4 = Some a -> reg s 5 = Some b ->
  heap_of s !! a = Some x -> heap_of s !! b = Some y -> valid binary32 x -> valid binary32 y ->
  exists v, SC_CompareFloat s = Ok (tt, with_reg s 2 v) /\ (v = -1 \/ v = 0 \/ v = 1) /\
    (is_nan x = true \/ is_nan y = true -> v = -1) /\
    (v = 0 -> x = y \/ exists sx sy, x = Fzero sx /\ y = Fzero sy) /\
    (is_nan x = false -> is_nan y = false -> forall E, E <= exponent x -> E <= exponent y ->
       v <= 0 <-> rank x < rank y \/ (rank x = rank y /\ scaled E x <= scaled E y)) /\
    (no_nan (heap_of s) -> Merge.FloatOrder (heap_cmp (heap_of s)) /\ heap_cmp (heap_of s) a b = v).
Proof.
  intros Hm H4 H5 Ha Hb Hx Hy. exists (compare_answer x y). split.
  { unfold SC_CompareFloat. rewrite (st_bind_Ok _ _ _ _ _ (rreg_ok s 4 a ltac:(done) H4)).
    rewrite (st_bind_Ok _ _ _ _ _ (rreg_ok s 5 b ltac:(done) H5)), (st_bind_Ok _ _ _ _ _ (deref_ok s a x Ha)).
    rewrite (st_bind_Ok _ _ _ _ _ (deref_ok s b y Hb)). unfold compare_answer.
    destruct (fcompare x y) as [[]|]; by apply setreg_ok. }
  split; [unfold compare_answer; destruct (fcompare x y) as [[]|]; auto|].
  split; [intros [H|H]; unfold compare_answer; destruct x, y; done|].
  split; [intros H; by apply compare_zero|].
  split; [intros; by apply compare_answer_le|].
  intros Hn. split; [by apply heap_order|]. unfold heap_cmp. by rewrite Ha, Hb.
Qed.
Lemma compare_float_witness :
  exists v, SC_CompareFloat (float_state 100 108 []) = Ok (tt, with_reg (float_state 100 108 []) 2 v) /\ v = 1.
Proof.
  destruct (compare_float (float_state 100 108 []) 100 108 half two_and_a_half) as (v & E & _ & _ & _ & _ & Hc).
  - apply float_state_ok; by apply small_is_int.
  - reflexivity.
  - reflexivity.
  - reflexivity.
  - reflexivity.
  - unfold valid, emin. simpl. lia.
  - unfold valid, emin. simpl. lia.
  - exists v. split; [exact E|]. destruct Hc as [_ <-]; [|reflexivity].
    intros a x H. change ((<[100 := half]> {[ 108 := two_and_a_half ]} : gmap Z float) !! a = Some x) in H. revert H.
    intros [[<- <-]|[_ [<- <-]%lookup_singleton_Some]]%lookup_insert_Some; reflexivity.
Defined.

(** ** Writing to a file *)

(** The text goes to the file at its offset, but register 2 is -2: the count is
    compared to [length - 1], as in the Write call. *)
Lemma write_float_never_succeeds {X} `{!FloatHeap X} (s : sim (cpu (kern X))) junk a x fID o d c :
  machine_ok (mach (world s)) -> reg s 4 = Some a -> reg s 5 = Some fID -> heap_of s !! a = Some x -> valid binary32 x ->
  zlen junk = MaxString -> 2 <= fID <= 9 -> zget (openFileList (fs_of s)) fID = Some (Some o) -> type o = Some 0 ->
  fd_at (ux (fs_of s)) (file o) = Some (d, c) -> writable d = true -> 0 <= currentOffset o ->
  exists f', SC_WriteF2File junk s = Ok (tt, with_reg (with_fs s f') 2 (-2)) /\
    inodes (ux f') = <[inode d := overwrite c (currentOffset o) (bytes_of (fmt_f x))]> (inodes (ux (fs_of s))).
Proof.
  intros Hm H4 H5 Ha Hv Hj Hf Hl Ht Hfd Hw Ho. unfold SC_WriteF2File.
  rewrite (st_bind_Ok _ _ _ _ _ (rreg_ok s 4 a ltac:(done) H4)), (st_bind_Ok _ _ _ _ _ (rreg_ok s 5 fID ltac:(done) H5)).
  rewrite (good_file_id fID Hf), (st_bind_Ok _ _ _ _ _ (on_list_at _ _ _ Hl)). unfold GetType. rewrite Ht.
  rewrite (lift_bind_Ok _ _ _ _ eq_refl). cbn [Z.eqb negb]. rewrite (st_bind_Ok _ _ _ _ _ (deref_ok s a x Ha)). cbv zeta.
  pose proof (fmt_f_len x Hv) as Hlen.
  destruct (sprintf_ok junk (fmt_f x)) as (b & Eb & Hbl & Hbs); [rewrite Hj; unfold MaxString; lia|].
  rewrite (lift_bind_Ok _ _ _ _ Eb).
  destruct (file_Write_ok s fID o b (zlen (fmt_f x)) d c Hl Hfd Hw Ho) as (f' & E & _ & _ & Hi); [unfold MaxString in *; lia|].
  rewrite (st_bind_Ok _ _ _ _ _ E), (proj2 (Z.eqb_neq _ _)) by lia. cbn [negb]. rewrite setreg_ok by done.
  exists f'. rewrite Hbs in Hi. done.
Qed.

(** An address that the kernel did not hand out, or that was cleared, is used
    all the same. *)
Lemma wild_float {X} `{!FloatHeap X} (s : sim (cpu (kern X))) junk a :
  reg s 4 = Some a -> heap_of s !! a = None -> a <> 0 ->
  SC_PrintFloat junk s = UB /\ SC_ClearFloat s = UB.
Proof.
  intros H4 Ha H0. unfold SC_PrintFloat, SC_ClearFloat. rewrite !(st_bind_Ok _ _ _ _ _ (rreg_ok s 4 a ltac:(done) H4)).
  rewrite (proj2 (Z.eqb_neq a 0)) by done. unfold mbind, st_bind, deref, delete_float. cbn [negb]. by rewrite Ha.
Qed.

(** ** The handler with these calls *)

Section keeps.
Context {X : Type} `{!FloatHeap X}.
#[local] Abbreviation S := (sim (cpu (kern X))).
#[local] Abbreviation ok c := (keeps (fun _ => True) (c : st S unit)).

Lemma keeps_deref a : keeps (fun _ => True) (deref a : st S float).
Proof. intros s Hs. unfold deref. by destruct (heap_of s !! a). Qed.
Lemma keeps_assign a v : ok (assign a v).
Proof. by intros s Hs. Qed.
Lemma keeps_delete_float a : ok (delete_float a).
Proof. intros s Hs. unfold delete_float. by destruct (heap_of s !! a). Qed.
#[local] Hint Resolve keeps_deref keeps_assign keeps_delete_float : kernel_keeps.
Context (junk : Z -> list Z).
Hypothesis junk_chars : forall n, Forall is_char (junk n).
Lemma keeps_SC_ReadFloat alloc : ok (SC_ReadFloat alloc (junk MaxString)).
Proof using junk_chars.
  unfold SC_ReadFloat. eapply (keeps_bind (fun _ => True)); [by intros s Hs|]. intros a _.
  eapply keeps_bind; [by apply keeps_cons_Read|]. intros [n buf] _.
  eapply (keeps_bind (fun _ => True)).
  - destruct (0 <? n); [|apply keeps_assign]. eapply (keeps_bind (fun _ => True)); [by apply keeps_lift|]. intros l _. apply keeps_assign.
  - intros _ _. apply keeps_setreg; [done|done|]. apply to_int_range.
Qed.
Lemma sprintf_len buffer text b : sprintf buffer text = Ok b -> zlen text < zlen buffer.
Proof. unfold sprintf. by destruct (Z.ltb_spec (zlen text) (zlen buffer)). Qed.
Hypothesis junk_len : zlen (junk MaxString) = MaxString.
Lemma keeps_SC_PrintFloat : ok (SC_PrintFloat (junk MaxString)).
Proof using junk_len.
  unfold SC_PrintFloat. do 2 kstep. cbv zeta. eapply (keeps_bind (fun _ => zlen (fmt_f a0) < MaxString)).
  { apply keeps_lift. intros b E%sprintf_len. by rewrite junk_len in E. }
  intros b Hb. kstep. subst. apply keeps_setreg; [done|done|]. pose proof (zlen_nonneg (fmt_f a0)). unfold MaxString in Hb. unfold_int. lia.
Qed.
Lemma keeps_SC_WriteF2File : ok (SC_WriteF2File (junk MaxString)).
Proof using junk_len.
  unfold SC_WriteF2File. do 2 kstep. kstep; [ksteps|].
  eapply (keeps_bind (fun _ => True)); [by apply keeps_on_fs|]. intros [f|] _; [|ksteps].
  eapply (keeps_bind (fun _ => True)); [by apply keeps_lift|]. intros t _. kstep; [ksteps|]. kstep. cbv zeta.
  eapply (keeps_bind (fun _ => zlen (fmt_f a1) < MaxString)).
  { apply keeps_lift. intros b E%sprintf_len. by rewrite junk_len in E. }
  intros b Hb. pose proof (zlen_nonneg (fmt_f a1)). assert (is_int (zlen (fmt_f a1))) by (unfold MaxString in Hb; unfold_int; lia).
  eapply keeps_bind; [by apply keeps_file_Write|]. intros n ->. ksteps.
Qed.
Lemma keeps_SC_CompareFloat : ok SC_CompareFloat.
Proof. unfold SC_CompareFloat. do 4 kstep. destruct (fcompare _ _) as [[]|]; ksteps. Qed.
Lemma keeps_SC_ClearFloat : ok SC_ClearFloat.
Proof. unfold SC_ClearFloat. kstep. destruct (negb _); [apply keeps_delete_float|by apply keeps_ret]. Qed.
End keeps.

(** *** ReadFileFormat *)

Section keeps_format.
Context {X : Type}.
#[local] Abbreviation S := (sim (cpu (kern X))).

Lemma keeps_read_char fID temp : keeps (fun x => 0 <= x.2 <= 1) (read_char fID temp : st S (option Z * Z)).
Proof.
  unfold read_char. eapply (keeps_bind (fun _ => True)); [by apply keeps_on_fs|]. intros [f|] _; [|by apply keeps_lift].
  eapply keeps_bind; [apply keeps_file_Read; by apply small_is_int|]. intros bs Hb. apply keeps_ret. cbn [snd]. cbn in Hb.
  pose proof (zlen_nonneg bs). lia.
Qed.
Lemma keeps_char_of temp : keeps (fun _ => True) (char_of temp : st S Z).
Proof. by apply keeps_lift. Qed.
Lemma keeps_read_count fID : forall fuel temp total, keeps (fun _ => True) (read_count fuel fID temp total : st S _).
Proof.
  induction fuel as [|fuel IH]; intros temp total; cbn [read_count]; [by apply keeps_lift|].
  eapply keeps_bind; [apply keeps_read_char|]. intros [t len] _. eapply keeps_bind; [apply keeps_char_of|]. intros c _.
  destruct (digit c); [apply IH|]. destruct (c =? 10); by apply keeps_ret.
Qed.
Lemma keeps_read_line fID : forall fuel temp curNum size isSet,
  keeps (fun _ => True) (read_line fuel fID temp curNum size isSet : st S _).
Proof.
  induction fuel as [|fuel IH]; intros temp curNum size isSet; cbn [read_line]; [by apply keeps_lift|].
  eapply keeps_bind; [apply keeps_read_char|]. intros [t len] _. eapply keeps_bind; [apply keeps_char_of|]. intros c _.
  destruct (negb _ && negb _ && negb _); [by apply keeps_ret|].
  destruct (_ && isSet); [|destruct (digit c)]; destruct (c =? 10); (by apply keeps_ret) || apply IH.
Qed.
(** The loop is left by [stopRun] only, so nothing is delivered. *)
Lemma keeps_read_lines fID : forall fuel temp stopRun len bigHead index totalSize,
  keeps (fun r => r.1.1.1 = true) (read_lines fuel fID temp stopRun len bigHead index totalSize : st S _).
Proof.
  induction fuel as [|fuel IH]; intros temp stopRun len bigHead index totalSize; cbn [read_lines]; [by apply keeps_lift|].
  destruct stopRun; [by apply keeps_ret|].
  eapply (keeps_bind (fun _ => True)); [by apply keeps_lift|]. intros b1 _.
  eapply keeps_bind; [apply keeps_read_line|]. intros [[[stop size] t] l] _.
  eapply (keeps_bind (fun _ => True)); [destruct stop; [by apply keeps_ret|by apply keeps_lift]|]. intros b2 _. apply IH.
Qed.
Lemma keeps_SC_ReadFileFormat fuel junk : keeps (fun _ => True) (SC_ReadFileFormat fuel junk : st S unit).
Proof.
  unfold SC_ReadFileFormat. do 2 kstep. eapply (keeps_bind (fun _ => True)); [by apply keeps_on_fs|]. intros [f|] _; [|ksteps].
  eapply keeps_bind; [apply keeps_read_count|]. intros [[stop total] temp] _. destruct stop; [by apply keeps_ret|].
  eapply (keeps_bind (fun _ => True)); [by apply keeps_lift|]. intros bh _.
  eapply keeps_bind; [apply keeps_read_lines|]. intros [[[stop2 bh2] ts] len] Hs. cbn in Hs. rewrite Hs. cbn [negb].
  eapply (keeps_bind (fun _ => True)); [by apply keeps_ret|]. intros _ _. by apply keeps_lift.
Qed.
End keeps_format.

Lemma keeps_other_calls {X} `{!FloatHeap X} alloc (fork : st (sim (cpu (kern X))) unit) fuel (junk : Z -> list Z) :
  (forall n, Forall is_char (junk n)) -> zlen (junk MaxString) = MaxString -> keeps (fun _ => True) fork ->
  forall ty, keeps (fun _ => True) (other_calls alloc fork fuel junk ty).
Proof.
  intros Hj Hl Hf ty. unfold other_calls.
  repeat match goal with |- keeps _ (match ?x with _ => _ end) => destruct x end;
    first [apply keeps_Halt|exact Hf|by apply keeps_SC_ReadFloat|by apply keeps_SC_PrintFloat|by apply keeps_SC_WriteF2File
          |apply keeps_SC_CompareFloat|apply keeps_SC_ClearFloat|apply keeps_SC_ReadFileFormat].
Qed.

