(* ===== verification/System.v ===== *)
(** * The kernel behind the system calls

    Syscalls takes the calls that can switch to another thread as an interface,
    [ProcessCalls].  Here it is the process table (ProcTable), the semaphore table
    (SemTable) and the threads (Threads) of the running system (Boot), so that the
    handler of exception.cc is one definition over the state of the whole kernel.
    The thread that makes a call is [currentThread].  When the call has to wait, or
    gives up the CPU, the rest of the system runs until the thread is back in its
    program: this part is an argument, [others].  [joinsem] and [exitsem] of a PCB
    are semaphores of the kernel: the process table has their values, the kernel
    their queues, and a call that waits for one of them, or signals one, does so in
    both. *)

From stdpp Require Import gmap list sets.
From S2P Require Import Prelude BitMap Interrupt Threads ProcTable SemTable SynchCons StubFS Machine MipsSim Syscalls KernelInv Floats FloatCalls Boot.
#[local] Open Scope Z_scope.

#[local] Abbreviation S := (sim (cpu (kern rest_t))).

Definition put_threads (r : rest_t) (k : kernel STable) : rest_t :=
  mkRest k (processTab r) (gPhysPageBitMap r) (timer r) (enableFlags r) (space r) (float_heap r) (pcb_sems r).
Definition put_procs (r : rest_t) (p : ProcTable.sys) : rest_t :=
  mkRest (threads_ r) p (gPhysPageBitMap r) (timer r) (enableFlags r) (space r) (float_heap r) (pcb_sems r).
Definition put_heap (r : rest_t) (h : gmap Z float) : rest_t :=
  mkRest (threads_ r) (processTab r) (gPhysPageBitMap r) (timer r) (enableFlags r) (space r) h (pcb_sems r).
Definition put_sems (r : rest_t) (m : gmap Z (Z * Z)) : rest_t :=
  mkRest (threads_ r) (processTab r) (gPhysPageBitMap r) (timer r) (enableFlags r) (space r) (float_heap r) m.
#[export] Instance rest_floats : FloatHeap rest_t.
Proof. exists float_heap put_heap; by intros []. Defined.

Definition rest_of (s : S) : rest_t := rest (os (world s)).
Definition with_rest (s : S) (r : rest_t) : S := set_rest s (mach (world s)) r.
Definition on_threads {A} (c : kernel STable -> res (A * kernel STable)) : st S A := fun s =>
  '(a, k) ← c (threads_ (rest_of s)); Ok (a, with_rest s (put_threads (rest_of s) k)).
Definition on_procs {A} (c : st ProcTable.sys A) : st S A := fun s =>
  '(a, p) ← c (processTab (rest_of s)); Ok (a, with_rest s (put_procs (rest_of s) p)).
Definition current : st S Z := fun s => Ok (currentThread (threads_ (rest_of s)), s).

(** The addresses that [new] returns: [a] for the PCB, [nt] for the thread, [sid]
    for the semaphore. *)
Definition new_pcb (r : rest_t) : Z := fresh (dom (pcbs (processTab r))).
Definition new_thread (r : rest_t) : Z := fresh (dom (procs (processTab r)) ∪ dom (threads (threads_ r))).
Definition new_sem (r : rest_t) : Z := fresh (dom (semaphores (threads_ r))).

Section calls.
Context (permits : list Z -> bool) (open_max : nat).
(** What runs from the moment thread [t] is not on the CPU, or waits, until it is
    back in its program. *)
Context (others : Z -> st S unit).

(** Thread [t] is on the CPU and in its program. *)
Definition back (t : Z) (r : rest_t) : bool :=
  negb (switching (threads_ r)) && (currentThread (threads_ r) =? t) &&
  match procs (processTab r) !! t with Some th => bool_decide (at_ th = InProgram) | None => false end.
Definition go_on (t : Z) : st S unit := fun s => if back t (rest_of s) then Ok (tt, s) else others t s.
(** The value that the process call returns to the thread. *)
Definition answer (t : Z) : st S Z := fun s =>
  match procs (processTab (rest_of s)) !! t with Some th => Ok (to_int (result th), s) | None => UB end.

(** [fileSystem->Open(filename)] and [delete executable]: is there such a file? *)
Definition exec_file (filename : list Z) : st FileSystem bool :=
  o ← StubFS.Open permits open_max filename;
  match o with
  | None => mret false
  | Some executable => on_unix (delete_OpenFile executable);; mret true
  end.
(** [thread->Fork(MyStartProcess, pID)] for the thread that [PCB::Exec] made, if it
    made one. *)
Definition fork_new (nt : Z) : st S unit := fun s =>
  match procs (processTab (rest_of s)) !! nt with
  | None => Ok (tt, s)
  | Some th =>
      on_threads (fun k => k ← Fork (set_threads k (<[nt := new_Thread (processID th)]> (threads k))) nt; Ok (tt, k)) s
  end.

(** *** The semaphores of the PCBs *)

(** [new Semaphore(...)] *)
Definition new_kernel_sem (v : Z) : st S Z := fun s =>
  let r := rest_of s in
  let k := threads_ r in
  let sid := new_sem r in
  Ok (sid, with_rest s (put_threads r (set_semaphores k (<[sid := new_Semaphore v]> (semaphores k))))).
(** [joinsem] and [exitsem] in the constructor of the PCB at [a], if [ExecUpdate]
    made one. *)
Definition note_sems (a js es : Z) : st S unit := fun s =>
  Ok (tt, with_rest s (put_sems (rest_of s) (<[a := (js, es)]> (pcb_sems (rest_of s))))).
Definition make_pcb_sems (a : Z) : st S unit :=
  js ← new_kernel_sem 0;
  es ← new_kernel_sem 0;
  note_sems a js es.
Definition new_pcb_sems (a : Z) : st S unit := fun s =>
  match pcbs (processTab (rest_of s)) !! a with
  | None => Ok (tt, s)
  | Some _ => make_pcb_sems a s
  end.
Definition sems_at (a : Z) : st S (Z * Z) := fun s =>
  match pcb_sems (rest_of s) !! a with Some x => Ok (x, s) | None => UB end.
Definition kernel_P (t sid : Z) : st S unit := on_threads (fun k => k ← Threads.P k t sid; Ok (tt, k)).
Definition kernel_V (sid : Z) : st S unit := on_threads (fun k => k ← Threads.V k sid; Ok (tt, k)).

Definition table_says {A} (f : ProcTable.sys -> A) : st S A := fun s => Ok (f (processTab (rest_of s)), s).
(** The PCB on which [JoinUpdate] calls [JoinWait]. *)
Definition join_target (t pID : Z) (p : ProcTable.sys) : option Z :=
  if (pID <=? 0) || (9 <? pID) then None
  else
    match zget (pcb p) pID, procs p !! t with
    | Some (Some this), Some th =>
        match pcbs p !! this with
        | Some q => if processID th =? parentID q then Some this else None
        | None => None
        end
    | _, _ => None
    end.
(** [joinsem->P()] of [JoinWait] and, when it does not wait and the exit code is 0,
    [exitsem->V()] of [ExitRelease]. *)
Definition join_release (this es : Z) : st S unit := fun s =>
  if switching (threads_ (rest_of s)) then Ok (tt, s)
  else
    match pcbs (processTab (rest_of s)) !! this with
    | Some q => if GetExitCode q =? 0 then kernel_V es s else Ok (tt, s)
    | None => UB
    end.
Definition join_sems (t this : Z) : st S unit :=
  '(js, es) ← sems_at this;
  kernel_P t js;;
  join_release this es.
(** The PCB on which [ExitUpdate] calls [JoinRelease] and [ExitWait]. *)
Definition exit_target (t : Z) (p : ProcTable.sys) : option Z :=
  match procs p !! t with
  | None => None
  | Some th =>
      match zget (pcb p) (processID th) with
      | Some (Some this) =>
          match pcbs p !! this with
          | Some q => if bit (ProcTable.bm p) (processID th) && negb (JoinStatus q =? -1) then Some this else None
          | None => None
          end
      | _ => None
      end
  end.
(** [joinsem->V()] of [JoinRelease], then [exitsem->P()] of [ExitWait]. *)
Definition exit_sems (t this : Z) : st S unit :=
  '(js, es) ← sems_at this;
  kernel_V js;;
  kernel_P t es.

Definition call_Exec (filename : list Z) : st S Z :=
  t ← current;
  found ← on_fs (exec_file filename);
  '(a, nt) ← (fun s => Ok ((new_pcb (rest_of s), new_thread (rest_of s)), s));
  on_procs (ProcTable.ExecUpdate (fun _ => found) t a nt filename);;
  new_pcb_sems a;;
  fork_new nt;;
  go_on t;;
  answer t.
Definition call_Join (pID : Z) : st S Z :=
  t ← current;
  o ← table_says (join_target t pID);
  on_procs (ProcTable.JoinUpdate t pID);;
  match o with Some this => join_sems t this | None => mret tt end;;
  go_on t;;
  answer t.
Definition call_Exit (ec : Z) : st S Z :=
  t ← current;
  o ← table_says (exit_target t);
  on_procs (ProcTable.ExitUpdate t ec);;
  match o with Some this => exit_sems t this | None => mret tt end;;
  go_on t;;
  answer t.
Definition call_Create (name : list Z) (v : Z) : st S Z :=
  sid ← (fun s => Ok (new_sem (rest_of s), s));
  i ← on_threads (fun k => SemTable.Create k name v sid);
  mret (to_int i).
Definition call_Wait (name : list Z) : st S Z :=
  t ← current;
  i ← on_threads (fun k => SemTable.Wait k t name);
  go_on t;;
  mret (to_int i).
Definition call_Signal (name : list Z) : st S Z := i ← on_threads (fun k => SemTable.Signal k name); mret (to_int i).
Definition call_Yield : st S unit :=
  t ← current;
  on_threads (fun k => k ← Threads.Yield same_user same_user k t; Ok (tt, k));;
  go_on t.
Definition call_Sleep : st S unit :=
  t ← current;
  on_threads (fun k => k ← Threads.Sleep IntOff k t; Ok (tt, k));;
  go_on t.

Definition system_calls : ProcessCalls rest_t := {|
  Syscalls.ExecUpdate := call_Exec;
  Syscalls.IsExist pid := on_procs (ProcTable.IsExist pid);
  Syscalls.JoinUpdate := call_Join;
  Syscalls.ExitUpdate := call_Exit;
  sem_Create := call_Create;
  sem_Wait := call_Wait;
  sem_Signal := call_Signal;
  thread_Yield := call_Yield;
  thread_Sleep := call_Sleep
|}.

(** ** The machine behind the calls *)

Hypothesis others_keep : forall t, keeps (fun _ => True) (others t).
Lemma keeps_on_threads {A} (c : kernel STable -> res (A * kernel STable)) : keeps (fun _ => True) (on_threads c).
Proof. intros s Hs. unfold on_threads. by destruct (c _) as [[]| | | |]. Qed.
Lemma keeps_on_procs {A} (c : st ProcTable.sys A) : keeps (fun _ => True) (on_procs c).
Proof. intros s Hs. unfold on_procs. by destruct (c _) as [[]| | | |]. Qed.
Lemma keeps_current : keeps (fun _ => True) current.
Proof. by intros s Hs. Qed.
Lemma keeps_go_on t : keeps (fun _ => True) (go_on t).
Proof using others_keep. intros s Hs. unfold go_on. destruct (back t _); [done|by apply others_keep]. Qed.
Lemma keeps_answer t : keeps is_int (answer t).
Proof. intros s Hs. unfold answer. destruct (procs _ !! t); [|done]. split; [done|apply to_int_range]. Qed.
Lemma keeps_fork_new nt : keeps (fun _ => True) (fork_new nt).
Proof. intros s Hs. unfold fork_new. destruct (procs _ !! nt); [by apply keeps_on_threads|done]. Qed.
Lemma keeps_kernel_P t sid : keeps (fun _ => True) (kernel_P t sid).
Proof. apply keeps_on_threads. Qed.
Lemma keeps_kernel_V sid : keeps (fun _ => True) (kernel_V sid).
Proof. apply keeps_on_threads. Qed.
Lemma keeps_sems_at a : keeps (fun _ => True) (sems_at a).
Proof. intros s Hs. unfold sems_at. by destruct (pcb_sems _ !! a). Qed.
Lemma keeps_new_pcb_sems a : keeps (fun _ => True) (new_pcb_sems a).
Proof. intros s Hs. unfold new_pcb_sems. by destruct (pcbs _ !! a). Qed.
Lemma keeps_after {A B} (c : st S A) (Q : B -> Prop) (f : A -> st S B) :
  keeps (fun _ => True) c -> (forall a, keeps Q (f a)) -> keeps Q (c ≫= f).
Proof. intros Hc Hf. eapply keeps_bind; [exact Hc|]. intros a _. apply Hf. Qed.
Lemma keeps_join_sems t a : keeps (fun _ => True) (join_sems t a).
Proof.
  unfold join_sems. apply keeps_after; [apply keeps_sems_at|]. intros [js es]. apply keeps_after; [apply keeps_kernel_P|]. intros _ s Hs. unfold join_release.
  destruct (switching _); [done|]. destruct (pcbs _ !! a) as [q|]; [|done]. destruct (_ =? 0); [by apply keeps_kernel_V|done].
Qed.
Lemma keeps_exit_sems t a : keeps (fun _ => True) (exit_sems t a).
Proof.
  unfold exit_sems. apply keeps_after; [apply keeps_sems_at|]. intros [js es]. apply keeps_after; [apply keeps_kernel_V|].
  intros _. apply keeps_kernel_P.
Qed.
Ltac ksys :=
  repeat (first [apply keeps_after; [first [apply keeps_current|apply keeps_new_pcb_sems|apply keeps_on_procs|apply keeps_on_threads|apply keeps_go_on
      |apply keeps_fork_new|by apply keeps_on_fs|by intros ? ?]|intros ?]]);
  try destruct_and?; first [apply keeps_answer|apply keeps_go_on|apply keeps_ret, to_int_range|idtac].

(** The routines keep the machine well formed, if the other threads do. *)
Lemma system_keeps : @KeepsKernel rest_t system_calls.
Proof using others_keep.
  split; intros; cbn [system_calls Syscalls.ExecUpdate Syscalls.IsExist Syscalls.JoinUpdate Syscalls.ExitUpdate sem_Create sem_Wait
    sem_Signal thread_Yield thread_Sleep].
  - unfold call_Exec. do 2 (apply keeps_after; [first [apply keeps_current|by apply keeps_on_fs]|intros ?]).
    eapply (keeps_bind (fun _ => True)); [by intros s Hs|]. intros [b nt] _. ksys.
  - apply keeps_on_procs.
  - unfold call_Join. apply keeps_after; [apply keeps_current|]. intros t. apply keeps_after; [by intros s Hs|]. intros o.
    apply keeps_after; [apply keeps_on_procs|]. intros _. apply keeps_after; [destruct o; [apply keeps_join_sems|by intros s Hs]|]. intros _. ksys.
  - unfold call_Exit. apply keeps_after; [apply keeps_current|]. intros t. apply keeps_after; [by intros s Hs|]. intros o.
    apply keeps_after; [apply keeps_on_procs|]. intros _. apply keeps_after; [destruct o; [apply keeps_exit_sems|by intros s Hs]|]. intros _. ksys.
  - unfold call_Create. ksys.
  - unfold call_Wait. ksys.
  - unfold call_Signal. ksys.
  - unfold call_Yield. ksys.
  - unfold call_Sleep. ksys.
Qed.
End calls.

(** ** The whole system *)

Lemma system_back r : system_ok r -> back (currentThread (threads_ r)) r = true.
Proof.
  intros [_ Hb _ _ _ _ (th & Hth & Hat) _ _]. unfold back. by rewrite Hb, Z.eqb_refl, Hth, bool_decide_true.
Qed.
Lemma put_threads_id r : put_threads r (threads_ r) = r.
Proof. by destruct r. Qed.
Lemma with_rest_id (s : S) : with_rest s (rest_of s) = s.
Proof. by destruct s as [? ? [? []]]. Qed.
Lemma on_threads_ok {A} (c : kernel STable -> res (A * kernel STable)) s a k :
  c (threads_ (rest_of s)) = Ok (a, k) -> on_threads c s = Ok (a, with_rest s (put_threads (rest_of s) k)).
Proof. intros H. unfold on_threads. by rewrite H. Qed.
Lemma on_procs_ok {A} (c : st ProcTable.sys A) s a p :
  c (processTab (rest_of s)) = Ok (a, p) -> on_procs c s = Ok (a, with_rest s (put_procs (rest_of s) p)).
Proof. intros H. unfold on_procs. by rewrite H. Qed.

(** What the calls of the semaphore table do to the threads. *)
Lemma Create_shape (k : kernel STable) name v sid i k' : SemTable.Create k name v sid = Ok (i, k') ->
  k' = set_ext k (ext k') \/ k' = set_ext (set_semaphores k (<[sid := new_Semaphore v]> (semaphores k))) (ext k').
Proof.
  unfold SemTable.Create. destruct (create_loop _ _ _ _) as [[]| | | |]; cbn [mbind res_bind]; try done.
  { intros [= <- <-]. left. by destruct k. }
  destruct (SemTable.GetFreeSlot (ext k)) as [[ID T]| | | |]; cbn [mbind res_bind]; try done.
  destruct (ID =? -1); [intros [= <- <-]; by left|]. destruct (wr _ ID _); cbn [mbind res_bind]; try done.
  destruct (Mark _ ID); cbn [mbind res_bind]; try done. intros [= <- <-]. by right.
Qed.
Lemma P_takes_unit (k : kernel STable) t s th sem : threads k !! t = Some th -> where_ th = Normal -> semaphores k !! s = Some sem -> value sem <> 0 ->
  P k t s = Ok (set_semaphores k (<[s := mkSemaphore (value sem - 1) (queue sem)]> (semaphores k))).
Proof.
  intros Ht Hw Hs Hv. unfold P, sem_at. rewrite Hs. cbn [mbind res_bind]. rewrite (proj2 (Z.eqb_neq _ 0)) by done.
  unfold set_where. rewrite (thread_at_Ok _ t th) by done. cbn [mbind res_bind]. f_equal. unfold set_threads, set_semaphores. simpl. f_equal.
  apply insert_id. rewrite Ht. f_equal. destruct th. simpl in *. by subst.
Qed.
Lemma Inv_ext {E} (k : kernel E) e : Threads.Inv k -> Threads.Inv (set_ext k e).
Proof. done. Qed.
Lemma Inv_new_sem {E} (k : kernel E) s v : Threads.Inv k -> semaphores k !! s = None ->
  Threads.Inv (set_semaphores k (<[s := new_Semaphore v]> (semaphores k))).
Proof. intros Hk Hs. apply (step_inv (fun _ e => e) (fun _ e => e) k); [done|by apply step_new_sem]. Qed.


(** What holds of the whole system when a call hands over to other threads: as
    [system_ok], except that the calling thread is not on the CPU, or waits. *)
Record handed_over (r : rest_t) : Prop := {
  ho_threads : Threads.Inv (threads_ r);
  ho_table : table_ok (ext (threads_ r));
  ho_sems n s : sem_named (ext (threads_ r)) n = Some s -> is_Some (semaphores (threads_ r) !! s);
  ho_procs : ProcTable.Inv (processTab r);
  ho_same t : is_Some (procs (processTab r) !! t) -> exists th, threads (threads_ r) !! t = Some th /\ where_ th <> Dead;
  ho_pcbs : pcb_sems_ok (threads_ r) (processTab r) (pcb_sems r)
}.
Lemma system_handed r : system_ok r -> handed_over r.
Proof. by intros []. Qed.
Lemma handed_system r :
  handed_over r -> switching (threads_ r) = false ->
  (exists th, threads (threads_ r) !! currentThread (threads_ r) = Some th /\ where_ th = Normal) ->
  (exists th, procs (processTab r) !! currentThread (threads_ r) = Some th /\ at_ th = InProgram) -> system_ok r.
Proof. by intros [] Hsw Hn Hp. Qed.

(** *** Threads that have not finished *)

Definition alive (k k' : kernel STable) : Prop :=
  forall t th, threads k !! t = Some th -> where_ th <> Dead -> exists th', threads k' !! t = Some th' /\ where_ th' <> Dead.
Lemma alive_same (k k' : kernel STable) : threads k' = threads k -> alive k k'.
Proof. intros E t th. rewrite E. eauto. Qed.
Lemma alive_trans (k1 k2 k3 : kernel STable) : alive k1 k2 -> alive k2 k3 -> alive k1 k3.
Proof. intros H1 H2 t th Ht Hd. destruct (H1 t th Ht Hd) as (th2 & Ht2 & Hd2). eauto. Qed.
Lemma alive_moves (k k' : kernel STable) : moves k k' -> alive k k'.
Proof. intros Hm t th Ht Hd. destruct (mv_fwd _ _ Hm t th Ht Hd) as (th' & Ht' & Ha). eauto using after_dead. Qed.
Lemma alive_P (k k' : kernel STable) t s : Threads.P k t s = Ok k' -> alive k k' /\ ext k' = ext k.
Proof.
  intros HP. assert (exists sem, semaphores k !! s = Some sem) as [sem Hs].
  { unfold Threads.P, sem_at in HP. destruct (semaphores k !! s); [eauto|done]. }
  destruct (P_threads k t s k' sem Hs HP) as (He & th' & Ht' & Hw'). split; [|done]. intros x th Hx Hd. rewrite Ht'.
  destruct (decide (x = t)) as [->|]; [rewrite lookup_insert_eq; exists th'; split; [done|]; by rewrite Hw'; destruct (_ =? 0)|].
  rewrite lookup_insert_ne by done. eauto.
Qed.
Lemma alive_V (k k' : kernel STable) s : Threads.V k s = Ok k' -> alive k k' /\ ext k' = ext k.
Proof. intros HV. pose proof (V_moves k s k' HV) as Hm. split; [by apply alive_moves|apply Hm]. Qed.

(** *** The semaphores of the PCBs *)

Lemma pcb_sems_step k p m k' p' :
  pcb_sems_ok k p m -> ext k' = ext k -> (forall s, is_Some (semaphores k !! s) -> is_Some (semaphores k' !! s)) ->
  (forall i a q', used p' i -> zget (pcb p') i = Some (Some a) -> pcbs p' !! a = Some q' ->
     exists i0 q, used p i0 /\ zget (pcb p) i0 = Some (Some a) /\ pcbs p !! a = Some q /\
       forall js es mj me, m !! a = Some (js, es) -> semaphores k !! js = Some mj -> value mj = joinsem q ->
         semaphores k !! es = Some me -> value me = exitsem q ->
         exists mj' me', semaphores k' !! js = Some mj' /\ value mj' = joinsem q' /\
           semaphores k' !! es = Some me' /\ value me' = exitsem q') ->
  pcb_sems_ok k' p' m.
Proof.
  intros [Hp Hd Hi Hn] He Hs Hstep. split; [| |exact Hi|rewrite He; exact Hn].
  - intros i a q' Hu Hz Hq'. destruct (Hstep i a q' Hu Hz Hq') as (i0 & q & Hu0 & Hz0 & Hq & H).
    destruct (Hp i0 a q Hu0 Hz0 Hq) as (js & es & mj & me & Hm & Hj & Hvj & He' & Hve).
    destruct (H js es mj me Hm Hj Hvj He' Hve) as (mj' & me' & ? & ? & ? & ?). exists js, es, mj', me'. done.
  - intros a js es Hm. destruct (Hd a js es Hm). auto.
Qed.
(** A semaphore with a name changes. *)
Lemma pcb_sems_named k p m k' n sid :
  pcb_sems_ok k p m -> ext k' = ext k -> sem_named (ext k) n = Some sid ->
  (forall s, s <> sid -> semaphores k' !! s = semaphores k !! s) -> is_Some (semaphores k' !! sid) -> pcb_sems_ok k' p m.
Proof.
  intros Hok He Hn Hs Hsid. eapply pcb_sems_step; [exact Hok|done| |].
  - intros s Hx. destruct (decide (s = sid)) as [->|]; [done|]. by rewrite Hs.
  - intros i a q Hu Hz Hq. exists i, q. split_and!; try done. intros js es mj me Hm Hj Hvj He' Hve.
    destruct (ps_named _ _ _ Hok n sid a js es Hn Hm) as [H1 H2]. exists mj, me. rewrite !Hs by done. done.
Qed.
(** A semaphore with a name is made. *)
Lemma pcb_sems_create k p m k' name sid x :
  pcb_sems_ok k p m -> semaphores k !! sid = None -> semaphores k' = <[sid := x]> (semaphores k) ->
  (forall n, sem_named (ext k') n = if decide (n = name) then Some sid else sem_named (ext k) n) -> pcb_sems_ok k' p m.
Proof.
  intros [Hp Hd Hi Hn] Hnew Hs Hnm.
  assert (forall a js es, m !! a = Some (js, es) -> sid <> js /\ sid <> es) as Hne.
  { intros a js es Hm. destruct (Hd a js es Hm) as [[? ?] [? ?]]. split; congruence. }
  split; [| |exact Hi|].
  - intros i a q Hu Hz Hq. destruct (Hp i a q Hu Hz Hq) as (js & es & mj & me & Hm & Hj & Hvj & He & Hve).
    destruct (Hne a js es Hm). exists js, es, mj, me. rewrite Hs, !lookup_insert_ne by done. done.
  - intros a js es Hm. destruct (Hne a js es Hm). rewrite Hs, !lookup_insert_ne by done. by apply Hd with a.
  - intros n s a js es. rewrite Hnm. destruct (decide (n = name)); [intros [= <-]; by apply Hne|apply Hn].
Qed.
(** The two semaphores of one PCB change, and its values with them. *)
Lemma pcb_sems_update k p m k' p' i a q q' js es mj me mj' me' :
  pcb_sems_ok k p m -> ext k' = ext k -> used p i -> zget (pcb p) i = Some (Some a) -> pcbs p !! a = Some q ->
  m !! a = Some (js, es) -> semaphores k !! js = Some mj -> semaphores k !! es = Some me ->
  ProcTable.bm p' = ProcTable.bm p -> pcb p' = pcb p -> pcbs p' = <[a := q']> (pcbs p) ->
  semaphores k' = <[js := mj']> (<[es := me']> (semaphores k)) ->
  value mj' = joinsem q' -> value me' = exitsem q' -> pcb_sems_ok k' p' m.
Proof.
  intros Hok He Hu Hz Hq Hm Hj Hes Hbm Hpcb Hpcbs Hs Hvj Hve. eapply pcb_sems_step; [exact Hok|done| |].
  - intros x Hx. rewrite Hs. destruct (decide (x = js)) as [->|]; [rewrite lookup_insert_eq; eauto|rewrite lookup_insert_ne by done].
    destruct (decide (x = es)) as [->|]; [rewrite lookup_insert_eq; eauto|by rewrite lookup_insert_ne].
  - intros i0 b r Hu0 Hz0 Hr. rewrite Hpcb in Hz0. rewrite Hpcbs in Hr. assert (used p i0) as Hu1 by (by unfold used in *; rewrite Hbm in Hu0).
    destruct (ps_inj _ _ _ Hok a a _ _ _ _ Hm Hm) as [Hjs _].
    destruct (decide (b = a)) as [->|Hb].
    + rewrite lookup_insert_eq in Hr. injection Hr as <-. exists i, q. split_and!; try done.
      intros js0 es0 mj0 me0 Hm0 Hj0 _ Hes0 _. assert (js0 = js /\ es0 = es) as [-> ->] by (split; congruence).
      exists mj', me'. rewrite Hs, lookup_insert_eq. split_and!; try done. rewrite lookup_insert_ne, lookup_insert_eq by done. done.
    + rewrite lookup_insert_ne in Hr by done. exists i0, r. split_and!; try done.
      intros js0 es0 mj0 me0 Hm0 Hj0 Hvj0 Hes0 Hve0. destruct (ps_inj _ _ _ Hok a b _ _ _ _ Hm Hm0) as [H1 H2].
      destruct (ps_inj _ _ _ Hok b a _ _ _ _ Hm0 Hm) as [H3 _]. destruct (H2 ltac:(done)) as [H4 H5].
      exists mj0, me0. rewrite Hs, !lookup_insert_ne by done. done.
Qed.
(** The table alone moves on; no PCB that stays in use changes. *)
Lemma pcb_sems_table k p m p' :
  pcb_sems_ok k p m ->
  (forall i a q, used p' i -> zget (pcb p') i = Some (Some a) -> pcbs p' !! a = Some q ->
     used p i /\ zget (pcb p) i = Some (Some a) /\ pcbs p !! a = Some q) -> pcb_sems_ok k p' m.
Proof.
  intros Hok Hp. eapply pcb_sems_step; [exact Hok|done|done|]. intros i a q Hu Hz Hq.
  destruct (Hp i a q Hu Hz Hq) as (? & ? & ?). exists i, q. split_and!; try done. eauto 9.
Qed.

(** *** Changes of one part *)

Lemma handed_kernel r k' :
  handed_over r -> Threads.Inv k' -> ext k' = ext (threads_ r) -> alive (threads_ r) k' ->
  (forall s, is_Some (semaphores (threads_ r) !! s) -> is_Some (semaphores k' !! s)) ->
  pcb_sems_ok k' (processTab r) (pcb_sems r) -> handed_over (put_threads r k').
Proof.
  intros [Hk HT Hsem Hp Hs Hps] Hk' He Hal Hse Hps'. split; cbn [threads_ put_threads processTab pcb_sems]; try done.
  - by rewrite He.
  - intros n x. rewrite He. intros Hx. by apply Hse, (Hsem n).
  - intros t Ht. destruct (Hs t Ht) as (th & Hth & Hd). by apply (Hal t th).
Qed.
Lemma handed_table r p :
  handed_over r -> ProcTable.Inv p -> (forall t, is_Some (procs p !! t) -> is_Some (procs (processTab r) !! t)) ->
  pcb_sems_ok (threads_ r) p (pcb_sems r) -> handed_over (put_procs r p).
Proof. intros [Hk HT Hsem Hp Hs Hps] Hp' Hd Hps'. split; cbn [threads_ put_procs processTab pcb_sems]; try done. auto. Qed.
Lemma insert_dom {V} (m : gmap Z V) t v x : is_Some (m !! t) -> is_Some (<[t := v]> m !! x) -> is_Some (m !! x).
Proof. intros Ht. destruct (decide (x = t)) as [->|]; [done|by rewrite lookup_insert_ne]. Qed.
Lemma insert_is_Some {V} (m : gmap Z V) i x j : is_Some (m !! j) -> is_Some (<[i := x]> m !! j).
Proof. intros H. destruct (decide (j = i)) as [->|]; [rewrite lookup_insert_eq; eauto|by rewrite lookup_insert_ne]. Qed.

Section specs.
Context (permits : list Z -> bool) (open_max : nat) (others : Z -> st S unit).

(** A value of any sign, as in the code. *)
Lemma create_keeps_system s name v :
  system_ok (rest_of s) ->
  exists i r', call_Create name v s = Ok (i, with_rest s r') /\ system_ok r' /\ -1 <= i <= 9 /\
    (i <> -1 -> exists sid, sem_named (ext (threads_ r')) name = Some sid /\ semaphores (threads_ r') !! sid = Some (new_Semaphore v)).
Proof.
  intros Hok. pose proof Hok as [Hk Hb Hn HT Hsem Hp Hpr Hs Hps]. unfold call_Create. set (k := threads_ (rest_of s)) in *.
  rewrite (st_bind_Ok _ _ _ (new_sem (rest_of s)) s) by done. set (sid := new_sem (rest_of s)).
  assert (semaphores k !! sid = None) as Hfresh by (apply (not_elem_of_dom (D := gset Z)); unfold sid, new_sem; apply is_fresh).
  destruct (decide (is_Some (sem_named (ext k) name) \/ clear_items (bm (ext k)) = [])) as [Hno|Hyes].
  - rewrite (st_bind_Ok _ _ _ _ _ (on_threads_ok _ s (-1) k (Create_refused k name v sid HT Hno))).
    exists (-1), (rest_of s). assert (put_threads (rest_of s) k = rest_of s) as -> by apply put_threads_id. split; [done|]. split; [done|]. split; [lia|done].
  - destruct (Create_new k name v sid HT) as (ID & k' & E & HID & HT' & Hse & Hth & Hrd & Hcu & Hnm).
    { destruct (sem_named (ext k) name) eqn:En; [|done]. exfalso. apply Hyes. left. eauto. }
    { intros Hc. apply Hyes. by right. }
    rewrite (st_bind_Ok _ _ _ _ _ (on_threads_ok _ s ID k' E)). unfold MAX_SEMAPHORES in HID.
    exists ID, (put_threads (rest_of s) k'). rewrite to_int_id by (unfold_int; lia). split; [done|].
    assert (k' = set_ext (set_semaphores k (<[sid := new_Semaphore v]> (semaphores k))) (ext k')) as Hk'.
    { destruct (Create_shape _ _ _ _ _ _ E) as [E1|E1]; [|done]. exfalso. assert (semaphores k' !! sid = Some (new_Semaphore v)) as H1
        by (rewrite Hse; apply lookup_insert_eq). rewrite E1 in H1. cbn in H1. congruence. }
    split; [|split; [lia|]].
    + split; cbn [threads_ put_threads processTab pcb_sems].
      * rewrite Hk'. by apply Inv_ext, Inv_new_sem.
      * rewrite Hk'. done.
      * rewrite Hcu, Hth. done.
      * done.
      * intros n x. rewrite Hnm, Hse. destruct (decide (n = name)).
        { intros [= <-]. rewrite lookup_insert_eq. eauto. }
        { intros Hx. destruct (decide (x = sid)) as [->|]; [rewrite lookup_insert_eq; eauto|rewrite lookup_insert_ne by done; by apply (Hsem n)]. }
      * done.
      * by rewrite Hcu.
      * rewrite Hth. done.
      * eapply pcb_sems_create; [exact Hps|exact Hfresh|exact Hse|exact Hnm].
    + intros _. exists sid. cbn [threads_ put_threads]. rewrite Hnm, decide_True, Hse, lookup_insert_eq by done. done.
Qed.

(** [V] moves a thread to the ready list, where it stays at its place. *)
Lemma V_places (k : kernel STable) s k' : V k s = Ok k' ->
  forall t th, threads k !! t = Some th -> exists th', threads k' !! t = Some th' /\ where_ th' = where_ th.
Proof.
  unfold V, sem_at. destruct (semaphores k !! s) as [sem|]; cbn [mbind res_bind]; [|done].
  destruct (queue sem) as [|w q]; [intros [= <-]; eauto|]. unfold ReadyToRun, setStatus, thread_at.
  destruct (threads k !! w) as [thw|] eqn:Ew; cbn [mbind res_bind]; [|done]. intros [= <-] t th Ht. cbn.
  destruct (decide (t = w)) as [->|]; [rewrite lookup_insert_eq; simplify_eq; eauto|rewrite lookup_insert_ne by done; eauto].
Qed.
Lemma signal_keeps_system s name :
  system_ok (rest_of s) ->
  exists v r', call_Signal name s = Ok (v, with_rest s r') /\ system_ok r' /\
    v = (if decide (is_Some (sem_named (ext (threads_ (rest_of s))) name)) then 0 else -1).
Proof.
  intros Hok. pose proof Hok as [Hk Hb (th & Hth & Hw) HT Hsem _ Hpr _ Hps]. unfold call_Signal.
  pose proof (Signal_eq (threads_ (rest_of s)) name HT) as E. destruct (sem_named _ name) as [sid|] eqn:En.
  - destruct (Hsem name sid En) as [sem Hs]. destruct (V_spec _ sid sem Hk Hs) as (k' & EV & Hk' & Hcu & Hb' & Hse & _ & He).
    rewrite EV in E. rewrite (st_bind_Ok _ _ _ _ _ (on_threads_ok _ s 0 k' E)). exists 0, (put_threads (rest_of s) k').
    split; [done|]. split; [|done]. apply handed_system; cbn [threads_ put_threads processTab]; [|congruence| |by rewrite Hcu].
    + apply handed_kernel; try done; [by apply system_handed|by apply (alive_V _ _ sid)| |].
      * intros x Hx. rewrite Hse. by apply insert_is_Some.
      * eapply pcb_sems_named; [exact Hps|done|exact En| |rewrite Hse, lookup_insert_eq; eauto].
        intros x Hx. by rewrite Hse, lookup_insert_ne.
    + rewrite Hcu. destruct (V_places _ _ _ EV _ _ Hth) as (th' & ? & ?). exists th'. split; [done|congruence].
  - rewrite (st_bind_Ok _ _ _ _ _ (on_threads_ok _ s (-1) _ E)). exists (-1), (rest_of s). by rewrite put_threads_id.
Qed.

(** [Wait] on a semaphore with a unit takes it; on one without, the thread joins
    its queue and the others run. *)
Lemma wait_keeps_system s name :
  system_ok (rest_of s) ->
  let t := currentThread (threads_ (rest_of s)) in
  match sem_named (ext (threads_ (rest_of s))) name with
  | None => call_Wait others name s = Ok (-1, s)
  | Some sid => exists sem r', semaphores (threads_ (rest_of s)) !! sid = Some sem /\
      if value sem =? 0 then
        call_Wait others name s = (others t;; mret 0) (with_rest s r') /\ handed_over r' /\ switching (threads_ r') = true /\
        semaphores (threads_ r') !! sid = Some (mkSemaphore 0 (queue sem ++ [t]))
      else call_Wait others name s = Ok (0, with_rest s r') /\ system_ok r' /\
        semaphores (threads_ r') !! sid = Some (mkSemaphore (value sem - 1) (queue sem))
  end.
Proof.
  intros Hok t. pose proof Hok as [Hk Hb (th & Hth & Hw) HT Hsem _ Hpr _ Hps]. unfold call_Wait.
  rewrite (st_bind_Ok _ _ _ t s) by done. pose proof (Wait_eq (threads_ (rest_of s)) t name HT) as E.
  destruct (sem_named _ name) as [sid|] eqn:En.
  - destruct (Hsem name sid En) as [sem Hs]. exists sem.
    destruct (P_spec _ t sid th sem Hk Hb eq_refl Hth (or_introl Hw) Hs) as (k' & EP & Hk' & Hcu & Hrd & Hcase).
    rewrite EP in E. cbn [mbind res_bind] in E. rewrite (st_bind_Ok _ _ _ _ _ (on_threads_ok _ s 0 k' E)).
    exists (put_threads (rest_of s) k'). split; [done|].
    assert (forall x, semaphores k' = <[sid := x]> (semaphores (threads_ (rest_of s))) -> handed_over (put_threads (rest_of s) k')) as Hho.
    { intros x Hse. destruct (alive_P _ _ _ _ EP) as [Hal He]. apply handed_kernel; try done; [by apply system_handed| |].
      - intros y Hy. rewrite Hse. by apply insert_is_Some.
      - eapply pcb_sems_named; [exact Hps|done|exact En| |rewrite Hse, lookup_insert_eq; eauto].
        intros y Hy. by rewrite Hse, lookup_insert_ne. }
    destruct (Z.eqb_spec (value sem) 0) as [Hv|Hv]; destruct Hcase as [Hsw Hse]; specialize (Hho _ Hse).
    + split; [|split; [done|]; split; [done|]; cbn; rewrite Hse; apply lookup_insert_eq].
      unfold mbind, st_bind, go_on, back, rest_of. cbn. rewrite Hsw. done.
    + assert (system_ok (put_threads (rest_of s) k')) as Hok'.
      { apply handed_system; cbn [threads_ put_threads processTab]; [done|done| |by rewrite Hcu].
        rewrite (P_takes_unit _ t sid th sem Hth Hw Hs Hv) in EP. injection EP as <-. eauto. }
      split; [|split; [done|cbn; rewrite Hse; apply lookup_insert_eq]].
      pose proof (system_back _ Hok') as Hbk. unfold mbind, st_bind, go_on, rest_of in *. cbn in Hbk |- *. rewrite Hcu in Hbk. by rewrite Hbk.
  - rewrite (st_bind_Ok _ _ _ _ _ (on_threads_ok _ s (-1) _ E)), put_threads_id, with_rest_id.
    unfold mbind, st_bind, go_on. unfold t. by rewrite (system_back _ Hok).
Qed.
Lemma yield_keeps_system s :
  system_ok (rest_of s) ->
  let t := currentThread (threads_ (rest_of s)) in
  match readyList (threads_ (rest_of s)) with
  | [] => call_Yield others s = Ok (tt, s)
  | n :: rl => exists r', call_Yield others s = others t (with_rest s r') /\
      handed_over r' /\ currentThread (threads_ r') = n /\ readyList (threads_ r') = rl ++ [t]
  end.
Proof.
  intros Hok t. pose proof Hok as [Hk Hb _ _ _ _ _ _ Hps]. unfold call_Yield. rewrite (st_bind_Ok _ _ _ t s) by done.
  destruct (Yield_spec same_user same_user _ t Hk Hb eq_refl) as (k' & EY & Hk' & _ & Hse & Hcase).
  assert (forall k, Threads.Yield same_user same_user (threads_ (rest_of s)) t = Ok k ->
    on_threads (fun k => k ← Threads.Yield same_user same_user k t; Ok (tt, k)) s = Ok (tt, with_rest s (put_threads (rest_of s) k))) as Hon.
  { intros k Ek. apply on_threads_ok. by rewrite Ek. }
  destruct (readyList _) as [|n rl] eqn:Er.
  - subst k'. rewrite (st_bind_Ok _ _ _ _ _ (Hon _ EY)), put_threads_id, with_rest_id. unfold go_on, t. by rewrite (system_back _ Hok).
  - destruct Hcase as [Hn Hrl]. exists (put_threads (rest_of s) k'). split.
    { rewrite (st_bind_Ok _ _ _ _ _ (Hon _ EY)). unfold go_on, back, rest_of. cbn. rewrite Hn, (proj2 (Z.eqb_neq n t)), andb_false_r; [done|].
      intros ->. destruct Hk as [Hc _]. unfold Threads.running in Hc. rewrite Hb, Er in Hc. destruct (core_run _ _ _ _ _ Hc t eq_refl) as (x & Hx & Hrun).
      destruct (core_ready _ _ _ _ _ Hc t) as (y & Hy & Hrdy); [left|]. congruence. }
    split; [|done]. pose proof (Yield_moves _ t k' Hk EY) as Hm.
    apply handed_kernel; try done; [by apply system_handed|apply Hm|by apply alive_moves|by rewrite Hse|].
    eapply pcb_sems_step; [exact Hps|apply Hm|by rewrite Hse|]. intros i a q Hu Hz Hq. exists i, q. split_and!; try done.
    intros js es mj me _ Hj Hvj Hes Hve. exists mj, me. rewrite Hse. done.
Qed.

(** *** Processes *)

(** [Open] and [delete] leave the host as it was. *)
Lemma exec_file_ok name f : exists b, exec_file permits open_max name f = Ok (b, f).
Proof.
  destruct f as [u l]. unfold exec_file, StubFS.Open, on_unix, OpenForReadWrite, open_existing, new_fd, mbind, st_bind. cbn [ux].
  destruct (dirents u !! name) as [ino|]; [|by exists false]. destruct (permits name); [|by exists false].
  destruct (free_fd open_max u) as [fd|] eqn:Ef; [|by exists false]. destruct (free_fd_spec open_max u fd Ef) as [H3 Hn].
  exists true. cbn. rewrite (proj2 (Z.eqb_neq fd (-1))) by lia. unfold delete_OpenFile, sys_Close, host_close. cbn.
  rewrite lookup_insert_eq. cbn. rewrite delete_insert_id by done. by destruct u.
Qed.
Lemma Inv_fork {E} (k : kernel E) nt id : Threads.Inv k -> threads k !! nt = None ->
  exists k', Fork (set_threads k (<[nt := new_Thread id]> (threads k))) nt = Ok k' /\ Threads.Inv k' /\
    readyList k' = readyList k ++ [nt] /\ currentThread k' = currentThread k /\ switching k' = switching k /\ ext k' = ext k /\
    semaphores k' = semaphores k /\ (exists th, threads k' !! nt = Some th /\ where_ th <> Dead) /\ forall t, t <> nt -> threads k' !! t = threads k !! t.
Proof.
  intros Hk Hn. set (k1 := set_threads k (<[nt := new_Thread id]> (threads k))).
  assert (threads k1 !! nt = Some (new_Thread id)) as H1 by apply lookup_insert_eq.
  assert (Threads.Inv k1) as Hk1 by (apply (step_inv (fun _ e => e) (fun _ e => e) k); [done|by apply step_create]).
  destruct (Fork_spec k1 nt _ Hk1 H1 eq_refl) as (k' & E1 & Hk' & Hr). exists k'. split; [done|]. split; [done|]. split; [done|].
  revert E1. unfold Fork. rewrite (thread_at_Ok _ _ _ H1). cbn [mbind res_bind]. unfold ReadyToRun, setStatus, thread_at. cbn.
  rewrite lookup_insert_eq. cbn. intros [= <-]. cbn. split_and!; try done; [rewrite lookup_insert_eq; by eexists|].
  intros t Ht. by rewrite !lookup_insert_ne.
Qed.
Lemma new_pcb_fresh r : pcbs (processTab r) !! new_pcb r = None.
Proof. apply (not_elem_of_dom (D := gset Z)). unfold new_pcb. apply is_fresh. Qed.
Lemma new_thread_fresh r : procs (processTab r) !! new_thread r = None /\ threads (threads_ r) !! new_thread r = None.
Proof.
  pose proof (is_fresh (dom (procs (processTab r)) ∪ dom (threads (threads_ r)) : gset Z)) as H. fold (new_thread r) in H.
  split; apply (not_elem_of_dom (D := gset Z)); set_solver.
Qed.
Lemma new_sem_fresh r : semaphores (threads_ r) !! new_sem r = None.
Proof. apply (not_elem_of_dom (D := gset Z)). unfold new_sem. apply is_fresh. Qed.
(** The value that a thread gets back. *)
Lemma answer_now s t th : procs (processTab (rest_of s)) !! t = Some th -> answer t s = Ok (to_int (result th), s).
Proof. intros H. unfold answer. by rewrite H. Qed.

(** The process table moves on, the running thread stays in its program. *)
Lemma system_ok_procs r p th' :
  system_ok r -> ProcTable.Inv p -> procs p !! currentThread (threads_ r) = Some th' -> at_ th' = InProgram ->
  (forall t, is_Some (procs p !! t) -> is_Some (procs (processTab r) !! t)) ->
  pcb_sems_ok (threads_ r) p (pcb_sems r) -> system_ok (put_procs r p).
Proof.
  intros Hok Hp Ht Hat Hs Hps. pose proof Hok as [? ? ? _ _ _ _ _ _]. apply handed_system; cbn [threads_ put_procs processTab]; try done; [|eauto].
  apply handed_table; try done. by apply system_handed.
Qed.

(** The semaphores of a new PCB. *)
Lemma make_pcb_sems_ok s a p0 q i :
  let r := rest_of s in
  pcb_sems_ok (threads_ r) p0 (pcb_sems r) -> Threads.Inv (threads_ r) -> pcbs p0 !! a = None ->
  (forall i0 b q0, used (processTab r) i0 -> zget (pcb (processTab r)) i0 = Some (Some b) -> pcbs (processTab r) !! b = Some q0 ->
     (i0 = i /\ b = a /\ q0 = q) \/ (used p0 i0 /\ zget (pcb p0) i0 = Some (Some b) /\ pcbs p0 !! b = Some q0)) ->
  joinsem q = 0 -> exitsem q = 0 -> is_Some (pcbs (processTab r) !! a) ->
  (forall n x, sem_named (ext (threads_ r)) n = Some x -> is_Some (semaphores (threads_ r) !! x)) ->
  exists k' m', new_pcb_sems a s = Ok (tt, with_rest s (put_sems (put_threads r k') m')) /\ Threads.Inv k' /\
    pcb_sems_ok k' (processTab r) m' /\ threads k' = threads (threads_ r) /\ readyList k' = readyList (threads_ r) /\
    currentThread k' = currentThread (threads_ r) /\ switching k' = switching (threads_ r) /\ ext k' = ext (threads_ r) /\
    (forall x, is_Some (semaphores (threads_ r) !! x) -> is_Some (semaphores k' !! x)).
Proof.
  intros r Hps Hk Ha Hcases Hj0 He0 [q1 Hq1] Hnamed. set (k := threads_ r). pose proof (new_sem_fresh r) as F1. fold k in F1. set (js := new_sem r) in *.
  set (k1 := set_semaphores k (<[js := new_Semaphore 0]> (semaphores k))).
  set (r1 := put_threads r k1). pose proof (new_sem_fresh r1) as F2. set (es := new_sem r1) in *.
  set (k2 := set_semaphores k1 (<[es := new_Semaphore 0]> (semaphores k1))).
  assert (js <> es) as Hne by (intros E; rewrite <-E in F2; cbn in F2; by rewrite lookup_insert_eq in F2).
  assert (semaphores k !! es = None) as F3 by (cbn in F2; by rewrite lookup_insert_ne in F2).
  exists k2, (<[a := (js, es)]> (pcb_sems r)). split.
  { unfold new_pcb_sems. fold r. rewrite Hq1. done. }
  split; [by apply Inv_new_sem; [apply Inv_new_sem|]|]. split.
  2:{ split_and!; try done. intros x Hx. cbn. by do 2 apply insert_is_Some. }
  destruct Hps as [Hp Hd Hi Hn]. clearbody es. clearbody js.
  assert (forall b js0 es0, pcb_sems r !! b = Some (js0, es0) -> js0 <> js /\ js0 <> es /\ es0 <> js /\ es0 <> es) as Hold.
  { intros b js0 es0 Hm. destruct (Hd b js0 es0 Hm) as [[? H1] [? H2]]. fold k in H1, H2. split_and!; congruence. }
  split.
  - intros i0 b q0 Hu Hz Hq. destruct (Hcases i0 b q0 Hu Hz Hq) as [(-> & -> & ->)|(Hu0 & Hz0 & Hq0)].
    + exists js, es, (new_Semaphore 0), (new_Semaphore 0). cbn. rewrite !lookup_insert_eq, lookup_insert_ne, lookup_insert_eq by done. done.
    + destruct (Hp i0 b q0 Hu0 Hz0 Hq0) as (js0 & es0 & mj & me & Hm & Hj & Hvj & He & Hve).
      destruct (Hold b js0 es0 Hm) as (H1 & H2 & H3 & H4). exists js0, es0, mj, me. cbn.
      rewrite !lookup_insert_ne by congruence. done.
  - intros b js0 es0. cbn. destruct (decide (b = a)) as [->|].
    + rewrite lookup_insert_eq. intros [= <- <-]. rewrite lookup_insert_ne, !lookup_insert_eq by done. eauto.
    + rewrite lookup_insert_ne by done. intros Hm. destruct (Hold b js0 es0 Hm) as (? & ? & ? & ?).
      rewrite !lookup_insert_ne by congruence. by apply Hd with b.
  - intros b c js0 es0 js1 es1. destruct (decide (b = a)) as [->|], (decide (c = a)) as [->|];
      rewrite ?lookup_insert_eq, ?lookup_insert_ne by done.
    + intros [= <- <-] [= <- <-]. done.
    + intros [= <- <-] Hm. destruct (Hold c js1 es1 Hm) as (? & ? & ? & ?). split; [congruence|]. intros _. split; congruence.
    + intros Hm [= <- <-]. destruct (Hold b js0 es0 Hm) as (? & ? & ? & ?). split; [congruence|]. intros _. split; congruence.
    + apply Hi.
  - intros n x b js0 es0 Hx. destruct (decide (b = a)) as [->|].
    + rewrite lookup_insert_eq. intros [= <- <-]. 
      destruct (Hnamed n x Hx) as [y Hy]. fold k in Hy. split; congruence.
    + rewrite lookup_insert_ne by done. by apply (Hn n).
Qed.

Lemma exec_keeps_system s filename :
  system_ok (rest_of s) ->
  exists v r', call_Exec permits open_max others filename s = Ok (v, with_rest s r') /\ system_ok r' /\
    currentThread (threads_ r') = currentThread (threads_ (rest_of s)) /\
    (v = -1 /\ threads_ r' = threads_ (rest_of s) \/
     1 <= v < MAXPROCESS /\ exists nt, readyList (threads_ r') = readyList (threads_ (rest_of s)) ++ [nt] /\
       procs (processTab r') !! nt = Some (mkProc filename v (Starting v) 0)).
Proof.
  intros Hok. pose proof Hok as [Hk Hb Hn HT Hsem Hp (th & Hth & Hat) Hs Hps]. set (r := rest_of s) in *.
  set (t := currentThread (threads_ r)) in *. unfold call_Exec. rewrite (st_bind_Ok _ _ _ t s) by done.
  destruct (exec_file_ok filename (fsys (os (world s)))) as [b Eb].
  rewrite (st_bind_Ok _ _ _ b s) by (unfold on_fs; rewrite Eb; by destruct s as [? ? [? []]]).
  rewrite (st_bind_Ok _ _ _ (new_pcb r, new_thread r) s) by done.
  destruct (new_thread_fresh r) as [Hn1 Hn2]. set (nt := new_thread r) in *. pose proof (new_pcb_fresh r) as Ha. set (a := new_pcb r) in *.
  destruct (ExecUpdate_ok (fun _ => b) (processTab r) t a nt th filename Hp Hth Hat Ha Hn1) as [Hno Hyes].
  assert (t <> nt) as Htn by congruence.
  assert (ProcTable.ExecUpdate (fun _ => b) t a nt filename (processTab r) = Ok (tt, moved (processTab r) t th InProgram (-1)) \/
    exists ID b', ProcTable.ExecUpdate (fun _ => b) t a nt filename (processTab r) =
      Ok (tt, created (processTab r) b' t a nt th ID filename) /\ 1 <= ID < MAXPROCESS /\
      (forall j, bit b' j = (j =? ID) || bit (ProcTable.bm (processTab r)) j) /\
      ProcTable.Inv (created (processTab r) b' t a nt th ID filename)) as [E|(ID & b' & E & HID & Hbits & Hinv)].
  { destruct b; [|by left; apply Hno; left]. destruct (decide (filename = name th)); [left; apply Hno; auto|].
    destruct (decide (clear_items (ProcTable.bm (processTab r)) = [])).
    - left. apply Hno. right. right. by apply table_full.
    - right. destruct Hyes as (ID & b' & E & HID & _ & _ & Hbits & Hinv); [done|done|by apply table_not_full|]. eauto 6. }
  - rewrite (st_bind_Ok _ _ _ _ _ (on_procs_ok _ s tt _ E)). fold r. set (r' := put_procs r _).
    assert (system_ok r') as Hok'.
    { eapply system_ok_procs; [done|by apply inv_returns; [| |left]|apply lookup_insert_eq|done| |by eapply pcb_sems_table; [exact Hps|]].
      intros x. apply insert_dom. fold t. eauto. }
    rewrite (st_bind_Ok _ _ _ tt (with_rest s r')) by (unfold new_pcb_sems, rest_of; cbn; by rewrite Ha).
    rewrite (st_bind_Ok _ _ _ tt (with_rest s r')).
    2:{ unfold fork_new, rest_of. cbn. by rewrite lookup_insert_ne, Hn1 by done. }
    rewrite (st_bind_Ok _ _ _ tt (with_rest s r')).
    2:{ unfold go_on. pose proof (system_back _ Hok') as Hbk. cbn in Hbk |- *. fold t in Hbk. unfold rest_of. cbn. by rewrite Hbk. }
    rewrite (answer_now _ t (mkProc (name th) (processID th) InProgram (-1))) by (unfold rest_of; cbn; apply lookup_insert_eq).
    exists (-1), r'. split; [done|]. split; [done|]. split; [done|]. by left.
  - rewrite (st_bind_Ok _ _ _ _ _ (on_procs_ok _ s tt _ E)). fold r. set (p' := created _ _ _ _ _ _ _ _) in *.
    assert (procs p' !! nt = Some (mkProc filename ID (Starting ID) 0)) as Hnew by (cbn; by rewrite lookup_insert_ne, lookup_insert_eq).
    assert (procs p' !! t = Some (mkProc (name th) (processID th) InProgram ID)) as Hme by (cbn; apply lookup_insert_eq).
    set (q := set_thread (new_PCB ID (processID th)) (Some nt)).
    destruct (make_pcb_sems_ok (with_rest s (put_procs r p')) a (processTab r) q ID) as
      (k1 & m' & E1 & Hk1 & Hps1 & Hth1 & Hrd1 & Hcu1 & Hsw1 & He1 & Hse1); try done.
    { intros i0 c q0 Hu Hz Hq. cbn in Hz, Hq.
      assert (i0 = ID \/ i0 <> ID /\ used (processTab r) i0) as [->|[Hne Hu0]].
      { destruct Hu as [Hr Hbi]. cbn in Hbi. rewrite Hbits in Hbi. destruct (Z.eqb_spec i0 ID) as [->|]; [by left|right]. by split. }
      - rewrite zget_zset_eq in Hz by (rewrite (i_len _ Hp); lia). injection Hz as <-. rewrite lookup_insert_eq in Hq. injection Hq as <-. by left.
      - right. rewrite zget_zset_ne in Hz by done. destruct (i_slot _ Hp i0 Hu0) as (c' & qc & ? & ? & [Hc1 Hc2 _ _ _ _ _ _ _]).
        assert (c' = c) as -> by congruence. rewrite lookup_insert_ne in Hq by congruence. done. }
    { cbn. rewrite lookup_insert_eq. eauto. }
    set (r1 := put_sems (put_threads (put_procs r p') k1) m').
    rewrite (st_bind_Ok _ _ _ tt (with_rest s r1)) by exact E1. cbn in Hth1, Hrd1, Hcu1, Hsw1, He1.
    destruct (Inv_fork k1 nt ID Hk1) as (k' & Ek & Hk' & Hrl & Hcu & Hsw & He & Hse & (thn & Hnt & Hdn) & Hth'); [by rewrite Hth1|].
    set (r' := put_threads r1 k').
    rewrite (st_bind_Ok _ _ _ tt (with_rest s r')).
    2:{ unfold fork_new. change (procs (processTab (rest_of (with_rest s r1)))) with (procs p'). rewrite Hnew. cbn [processID].
        etransitivity; [apply on_threads_ok with (a := tt) (k := k')|done].
        change (threads_ (rest_of (with_rest s r1))) with k1. by rewrite Ek. }
    assert (system_ok r') as Hok'.
    { split; cbn [r' r1 threads_ put_threads put_procs put_sems processTab pcb_sems]; try done; try congruence.
      - destruct Hn as (x & Hx & Hw). exists x. rewrite Hcu, Hcu1, Hth', Hth1 by done. done.
      - intros n x. rewrite He, He1, Hse. intros Hx. apply Hse1. by apply (Hsem n).
      - rewrite Hcu, Hcu1. eauto.
      - intros x Hx. destruct (decide (x = nt)) as [->|]; [eauto|]. rewrite Hth', Hth1 by done. apply Hs. revert Hx. cbn.
        fold t. destruct (decide (x = t)) as [->|]; [eauto|by rewrite !lookup_insert_ne].
      - eapply pcb_sems_step; [exact Hps1|done|by rewrite Hse|]. intros i0 c q0 Hu Hz Hq. exists i0, q0. split_and!; try done.
        intros js es mj me _ Hj Hvj Hes Hve. exists mj, me. rewrite Hse. done. }
    rewrite (st_bind_Ok _ _ _ tt (with_rest s r')).
    2:{ assert (back t (rest_of (with_rest s r')) = true) as Hbk by (unfold t; rewrite <-Hcu1, <-Hcu; exact (system_back _ Hok')).
        unfold go_on. by rewrite Hbk. }
    assert (to_int ID = ID) as Hid by (apply to_int_id; unfold MAXPROCESS in HID; unfold_int; lia).
    rewrite (answer_now (with_rest s r') t _ Hme). cbn [result]. rewrite Hid.
    exists ID, r'. split; [done|]. split; [done|]. split; [exact (eq_trans Hcu Hcu1)|]. right. split; [done|]. exists nt.
    split; [|done]. exact (eq_trans Hrl (f_equal (fun l => l ++ [nt]) Hrd1)).
Qed.

(** *** Join and Exit *)

(** [P] and [V] of the semaphores of a PCB, in the kernel. *)
Lemma kernel_P_ok s k k' t sid : threads_ (rest_of s) = k -> Threads.P k t sid = Ok k' ->
  kernel_P t sid s = Ok (tt, with_rest s (put_threads (rest_of s) k')).
Proof. intros <- E. apply on_threads_ok. by rewrite E. Qed.
Lemma kernel_V_ok s k k' sid : threads_ (rest_of s) = k -> Threads.V k sid = Ok k' ->
  kernel_V sid s = Ok (tt, with_rest s (put_threads (rest_of s) k')).
Proof. intros <- E. apply on_threads_ok. by rewrite E. Qed.
Lemma join_target_eq p t i a q th :
  1 <= i < MAXPROCESS -> zget (pcb p) i = Some (Some a) -> procs p !! t = Some th -> pcbs p !! a = Some q ->
  join_target t i p = if processID th =? parentID q then Some a else None.
Proof.
  intros Hi Hz Ht Hq. unfold join_target, MAXPROCESS in *. rewrite (proj2 (Z.leb_gt _ _)), (proj2 (Z.ltb_ge _ _)) by lia. cbn [orb].
  by rewrite Hz, Ht, Hq.
Qed.

(** Where a waiting thread is in the kernel: in the queue of the semaphore [sid],
    with the CPU given up. *)
Definition queued (r : rest_t) (t sid : Z) : Prop :=
  switching (threads_ r) = true /\ exists m, semaphores (threads_ r) !! sid = Some m /\ value m = 0 /\ (exists q, queue m = q ++ [t]) /\
    exists th, threads (threads_ r) !! t = Some th /\ where_ th = InP sid.

(** [P] of a semaphore of a PCB, by the running thread in its program. *)
Lemma P_pcb_sem (k : kernel STable) t sid th m :
  Threads.Inv k -> switching k = false -> t = currentThread k -> threads k !! t = Some th -> where_ th = Normal ->
  semaphores k !! sid = Some m ->
  exists k', Threads.P k t sid = Ok k' /\ Threads.Inv k' /\ currentThread k' = t /\ ext k' = ext k /\ alive k k' /\
    switching k' = (value m =? 0) /\
    semaphores k' = <[sid := mkSemaphore (if value m =? 0 then 0 else value m - 1) (if value m =? 0 then queue m ++ [t] else queue m)]> (semaphores k) /\
    exists th', threads k' !! t = Some th' /\ where_ th' = if value m =? 0 then InP sid else Normal.
Proof.
  intros Hk Hsw Ht Hth Hw Hm. destruct (P_spec k t sid th m Hk Hsw Ht Hth (or_introl Hw) Hm) as (k' & EP & Hk' & Hcu & _ & Hcase).
  destruct (alive_P _ _ _ _ EP) as [Hal He]. destruct (P_threads k t sid k' m Hm EP) as (_ & th' & Ht' & Hw').
  exists k'. split_and!; try done; [by destruct (value m =? 0), Hcase|by destruct (value m =? 0), Hcase|].
  exists th'. by rewrite Ht', lookup_insert_eq.
Qed.

(** [joinsem->P()] and perhaps [exitsem->V()] of [JoinUpdate], in the kernel. *)
Lemma join_sems_ok s t a js es th mj me q :
  let r := rest_of s in
  let k := threads_ r in
  Threads.Inv k -> switching k = false -> t = currentThread k -> threads k !! t = Some th -> where_ th = Normal ->
  pcb_sems r !! a = Some (js, es) -> semaphores k !! js = Some mj -> semaphores k !! es = Some me -> js <> es ->
  pcbs (processTab r) !! a = Some q ->
  exists k', join_sems t a s = Ok (tt, with_rest s (put_threads r k')) /\ Threads.Inv k' /\ currentThread k' = t /\ ext k' = ext k /\
    alive k k' /\ switching k' = (value mj =? 0) /\
    (exists th', threads k' !! t = Some th' /\ where_ th' = if value mj =? 0 then InP js else Normal) /\
    semaphores k' =
      <[js := mkSemaphore (if value mj =? 0 then 0 else value mj - 1) (if value mj =? 0 then queue mj ++ [t] else queue mj)]>
        (<[es := if negb (value mj =? 0) && (exitcode q =? 0) then mkSemaphore (value me + 1) (tail (queue me)) else me]> (semaphores k)).
Proof.
  intros r k Hk Hsw Ht Hth Hw Hm Hj He Hne Hq.
  destruct (P_pcb_sem k t js th mj Hk Hsw Ht Hth Hw Hj) as (k1 & EP & Hk1 & Hc1 & He1 & Ha1 & Hs1 & Hse1 & th1 & Ht1 & Hw1).
  unfold join_sems. rewrite (st_bind_Ok _ _ _ (js, es) s) by (unfold sems_at; fold r; by rewrite Hm).
  rewrite (st_bind_Ok _ _ _ _ _ (kernel_P_ok s k k1 t js eq_refl EP)). fold r.
  unfold join_release. change (threads_ (rest_of (with_rest s (put_threads r k1)))) with k1.
  change (pcbs (processTab (rest_of (with_rest s (put_threads r k1))))) with (pcbs (processTab r)). rewrite Hs1, Hq. unfold GetExitCode.
  destruct (Z.eqb_spec (value mj) 0) as [Hv|Hv]; cbn [negb andb]; [|destruct (exitcode q =? 0)].
  1,3: exists k1; split_and!; try done; [eauto|]; by rewrite (insert_id _ es me).
  destruct (V_spec k1 es me Hk1) as (k2 & EV & Hk2 & Hc2 & Hs2 & Hse2 & _ & He2); [by rewrite Hse1, lookup_insert_ne|].
  destruct (alive_V _ _ _ EV) as [Ha2 _]. destruct (V_places _ _ _ EV _ _ Ht1) as (th2 & Ht2 & Hw2).
  exists k2. split; [exact (kernel_V_ok (with_rest s (put_threads r k1)) k1 k2 es eq_refl EV)|].
  split_and!; try done; try congruence; [by eapply alive_trans|exists th2; split; congruence|].
  rewrite Hse2, Hse1. by apply insert_insert_ne.
Qed.
(** [joinsem->V()] and [exitsem->P()] of [ExitUpdate], where [exitsem] is 0. *)
Lemma exit_sems_ok s t a js es th mj me :
  let r := rest_of s in
  let k := threads_ r in
  Threads.Inv k -> switching k = false -> t = currentThread k -> threads k !! t = Some th -> where_ th = Normal ->
  pcb_sems r !! a = Some (js, es) -> semaphores k !! js = Some mj -> semaphores k !! es = Some me -> js <> es -> value me = 0 ->
  exists k', exit_sems t a s = Ok (tt, with_rest s (put_threads r k')) /\ Threads.Inv k' /\ ext k' = ext k /\
    alive k k' /\ switching k' = true /\
    (exists th', threads k' !! t = Some th' /\ where_ th' = InP es) /\
    semaphores k' = <[js := mkSemaphore (value mj + 1) (tail (queue mj))]> (<[es := mkSemaphore 0 (queue me ++ [t])]> (semaphores k)).
Proof.
  intros r k Hk Hsw Ht Hth Hw Hm Hj He Hne Hv.
  destruct (V_spec k js mj Hk Hj) as (k1 & EV & Hk1 & Hc1 & Hs1 & Hse1 & _ & He1).
  destruct (alive_V _ _ _ EV) as [Ha1 _]. destruct (V_places _ _ _ EV _ _ Hth) as (th1 & Ht1 & Hw1).
  destruct (P_pcb_sem k1 t es th1 me Hk1) as (k2 & EP & Hk2 & Hc2 & He2 & Ha2 & Hs2 & Hse2 & th2 & Ht2 & Hw2);
    try congruence; [by rewrite Hse1, lookup_insert_ne|]. rewrite Hv in Hs2, Hse2, Hw2. cbn in Hs2, Hse2, Hw2.
  exists k2. split.
  - unfold exit_sems. rewrite (st_bind_Ok _ _ _ (js, es) s) by (unfold sems_at; fold r; by rewrite Hm).
    rewrite (st_bind_Ok _ _ _ _ _ (kernel_V_ok s k k1 js eq_refl EV)). fold r.
    exact (kernel_P_ok (with_rest s (put_threads r k1)) k1 k2 t es eq_refl EP).
  - split_and!; try done; try congruence; [by eapply alive_trans|eauto|]. rewrite Hse2, Hse1. by apply insert_insert_ne.
Qed.

(** A waiting thread hands over. *)
Lemma go_on_waits s t : switching (threads_ (rest_of s)) = true -> go_on others t s = others t s.
Proof. intros H. unfold go_on, back. by rewrite H. Qed.
Lemma go_on_back s t : system_ok (rest_of s) -> t = currentThread (threads_ (rest_of s)) -> go_on others t s = Ok (tt, s).
Proof. intros H ->. unfold go_on. by rewrite (system_back _ H). Qed.

(** The semaphores of the PCB of a process. *)
Lemma pcb_sems_of r i a p c thc : system_ok r -> used (processTab r) i -> slot (processTab r) i a p c thc ->
  exists js es mj me, pcb_sems r !! a = Some (js, es) /\ semaphores (threads_ r) !! js = Some mj /\ value mj = joinsem p /\
    semaphores (threads_ r) !! es = Some me /\ value me = exitsem p /\ js <> es.
Proof.
  intros Hok Hu Hs. destruct (ps_pcb _ _ _ (sy_pcbs _ Hok) i a p Hu (sl_ptr _ _ _ _ _ _ Hs) (sl_pcb _ _ _ _ _ _ Hs))
    as (js & es & mj & me & Hm & Hj & Hvj & He & Hve). exists js, es, mj, me. split_and!; try done.
  by destruct (ps_inj _ _ _ (sy_pcbs _ Hok) a a js es js es Hm Hm).
Qed.
(** The process table and the semaphores of one PCB move on together. *)
Lemma handed_both r i a p c thc p' q' k' js es mj me mj' me' t th' :
  system_ok r -> used (processTab r) i -> slot (processTab r) i a p c thc ->
  pcb_sems r !! a = Some (js, es) -> semaphores (threads_ r) !! js = Some mj -> semaphores (threads_ r) !! es = Some me ->
  ProcTable.Inv p' -> is_Some (procs (processTab r) !! t) -> procs p' = <[t := th']> (procs (processTab r)) ->
  ProcTable.bm p' = ProcTable.bm (processTab r) -> pcb p' = pcb (processTab r) -> pcbs p' = <[a := q']> (pcbs (processTab r)) ->
  Threads.Inv k' -> ext k' = ext (threads_ r) -> alive (threads_ r) k' ->
  semaphores k' = <[js := mj']> (<[es := me']> (semaphores (threads_ r))) -> value mj' = joinsem q' -> value me' = exitsem q' ->
  handed_over (put_threads (put_procs r p') k').
Proof.
  intros Hok Hu Hs Hm Hj He Hp' Ht Hpr Hbm Hpcb Hpcbs Hk' Hext Hal Hse Hvj Hve.
  pose proof (system_handed _ Hok) as [Hk HT Hsem Hp Hsame Hps].
  split; cbn [threads_ put_threads put_procs processTab pcb_sems]; try done.
  - by rewrite Hext.
  - intros n x. rewrite Hext, Hse. intros Hx. by do 2 apply insert_is_Some; apply (Hsem n).
  - intros x Hx. rewrite Hpr in Hx. destruct (Hsame x (insert_dom _ _ _ _ Ht Hx)) as (y & Hy & Hd). by apply (Hal x y).
  - apply (pcb_sems_update (threads_ r) (processTab r) (pcb_sems r) k' p' i a p q' js es mj me mj' me'); try done; apply Hs.
Qed.

(** Joining a process that exists: only its parent waits for it, and only if it has
    not called Exit. *)
Lemma join_keeps_system s i :
  let r := rest_of s in
  let t := currentThread (threads_ r) in
  system_ok r -> used (processTab r) i ->
  exists a p th js es r', zget (pcb (processTab r)) i = Some (Some a) /\ pcbs (processTab r) !! a = Some p /\
    procs (processTab r) !! t = Some th /\ pcb_sems r !! a = Some (js, es) /\
    if negb (processID th =? parentID p) then
      call_Join others i s = Ok (-1, with_rest s r') /\ system_ok r' /\ threads_ r' = threads_ r
    else if joinsem p =? 0 then
      call_Join others i s = (others t;; answer t) (with_rest s r') /\ handed_over r' /\ queued r' t js /\
      procs (processTab r') !! t = Some (mkProc (name th) (processID th) (InJoin a i) (result th))
    else
      call_Join others i s = Ok (if exitcode p =? 0 then 0 else -1, with_rest s r') /\ system_ok r'.
Proof.
  intros r t Hok Hu. pose proof Hok as [Hk Hb (tht & Htht & Hwt) _ _ Hp (th & Hth & Hat) _ Hps]. fold t in Htht, Hth.
  destruct (i_slot _ Hp i Hu) as (a & p & c & thc & Hsl).
  destruct (pcb_sems_of r i a p c thc Hok Hu Hsl) as (js & es & mj & me & Hm & Hj & Hvj & He & Hve & Hne).
  destruct (JoinUpdate_ok _ t th i a p c thc Hp Hu Hsl Hth Hat) as (p' & E & Hp' & _ & Hwait & Hno & Hyes).
  pose proof (join_target_eq (processTab r) t i a p th (proj1 Hu) (sl_ptr _ _ _ _ _ _ Hsl) Hth (sl_pcb _ _ _ _ _ _ Hsl)) as Htg.
  unfold call_Join. rewrite (st_bind_Ok _ _ _ t s), (st_bind_Ok _ _ _ (join_target t i (processTab r)) s) by done. rewrite Htg.
  rewrite (st_bind_Ok _ _ _ _ _ (on_procs_ok _ s tt _ E)). fold r. set (s1 := with_rest s (put_procs r p')).
  exists a, p, th, js, es. destruct (Z.eqb_spec (processID th) (parentID p)) as [Hpar|Hpar]; cbn [negb].
  2:{ pose proof (Hno Hpar). subst p'. assert (system_ok (rest_of s1)) as Hok1.
      { eapply (system_ok_procs r); [done|done|apply lookup_insert_eq|done| |by eapply pcb_sems_table; [exact Hps|]].
        intros x. apply insert_dom. eauto. }
      exists (rest_of s1). split_and!; try done; try apply Hsl.
      rewrite (st_bind_Ok _ _ _ tt s1), (st_bind_Ok _ _ _ _ _ (go_on_back s1 t Hok1 eq_refl)) by done.
      by rewrite (answer_now s1 t (mkProc (name th) (processID th) InProgram (-1))) by apply lookup_insert_eq. }
  assert (forall q, pcbs p' !! a = Some q -> exists k', join_sems t a s1 = Ok (tt, with_rest s1 (put_threads (rest_of s1) k')) /\
    Threads.Inv k' /\ currentThread k' = t /\ ext k' = ext (threads_ r) /\ alive (threads_ r) k' /\ switching k' = (value mj =? 0) /\
    (exists th', threads k' !! t = Some th' /\ where_ th' = if value mj =? 0 then InP js else Normal) /\
    semaphores k' =
      <[js := mkSemaphore (if value mj =? 0 then 0 else value mj - 1) (if value mj =? 0 then queue mj ++ [t] else queue mj)]>
        (<[es := if negb (value mj =? 0) && (exitcode q =? 0) then mkSemaphore (value me + 1) (tail (queue me)) else me]>
          (semaphores (threads_ r)))) as Hjs.
  { intros q Hq. apply (join_sems_ok s1 t a js es tht mj me q); done. }
  rewrite <-Hvj. destruct (Z.eqb_spec (value mj) 0) as [Hv|Hv].
  - pose proof (Hwait Hpar ltac:(congruence)). subst p'. cbn [moved pcbs set_pcbs set_procs] in Hjs.
    destruct (Hjs (joined p) ltac:(by rewrite lookup_insert_eq)) as (k' & Ej & Hk' & Hcu & Hext & Hal & Hsw & (th' & Ht' & Hw') & Hse).
    cbn [negb andb] in Hse. set (r' := put_threads (rest_of s1) k') in *. exists r'. split_and!; try done; try apply Hsl.
    + rewrite (st_bind_Ok _ _ _ _ _ Ej). unfold mbind at 1, st_bind at 1. by rewrite (go_on_waits (with_rest s1 r') t Hsw).
    + eapply (handed_both r i a p c thc) with (t := t); try done; eauto; cbn; congruence.
    + split; [exact Hsw|]. eexists. split; [cbn; rewrite Hse; apply lookup_insert_eq|]. split_and!; eauto.
    + apply lookup_insert_eq.
  - assert (value mj = 1) as Hv1 by (destruct (slot_joinsem _ _ _ _ _ _ Hsl); congruence).
    destruct (Hyes Hpar ltac:(congruence)) as (q & -> & Hec & Hqj & Hqe & He0).
    destruct (Hjs q ltac:(cbn; by rewrite lookup_insert_eq)) as (k' & Ej & Hk' & Hcu & Hext & Hal & Hsw & Hth' & Hse).
    cbn [negb andb] in Hse. rewrite Hec in Hse. set (r' := put_threads (rest_of s1) k') in *. exists r'.
    assert (system_ok r') as Hok'.
    { apply handed_system; [|done|by cbn; rewrite Hcu|cbn; rewrite Hcu, lookup_insert_eq; eauto].
      eapply (handed_both r i a p c thc) with (t := t); try done; eauto; cbn [value]; [lia|]. destruct (exitcode p =? 0); cbn [value]; lia. }
    split_and!; try done; try apply Hsl. rewrite (st_bind_Ok _ _ _ _ _ Ej), (st_bind_Ok _ _ _ _ _ (go_on_back (with_rest s1 r') t Hok' (eq_sym Hcu))).
    erewrite answer_now by apply lookup_insert_eq. cbn [result]. by destruct (exitcode p =? 0).
Qed.

(** Exit of a process whose number is its own, or free since an earlier Exit:
    process 0 stops the machine; a process that nobody joins leaves its slot and
    Exit comes back; one that was joined wakes its parent and waits. *)
Lemma exit_target_eq p t th a q :
  procs p !! t = Some th -> zget (pcb p) (processID th) = Some (Some a) -> pcbs p !! a = Some q -> bit (ProcTable.bm p) (processID th) = true ->
  exit_target t p = if negb (JoinStatus q =? -1) then Some a else None.
Proof. intros Ht Hz Hq Hb. unfold exit_target. by rewrite Ht, Hz, Hq, Hb. Qed.
Lemma exit_target_free p t th :
  ProcTable.Inv p -> procs p !! t = Some th -> processID th <> 0 -> ~ used p (processID th) -> exit_target t p = None.
Proof.
  intros Hi Ht H0 Hu. unfold exit_target. rewrite Ht. destruct (zget (pcb p) (processID th)) as [[a|]|] eqn:Ez; try done.
  destruct (pcbs p !! a) as [q|]; [|done]. destruct (bit _ _) eqn:Eb; [|done]. destruct Hu. split; [|done].
  pose proof (zget_Some_range _ _ _ Ez) as Hr. rewrite (i_len _ Hi) in Hr. lia.
Qed.
Lemma exit_keeps_system s ec th :
  let r := rest_of s in
  let t := currentThread (threads_ r) in
  system_ok r -> procs (processTab r) !! t = Some th -> own_number (processTab r) t th ->
  (processID th = 0 -> call_Exit others ec s = Halted) /\
  (processID th <> 0 -> ~ used (processTab r) (processID th) ->
     exists r', call_Exit others ec s = Ok (-1, with_rest s r') /\ system_ok r' /\ threads_ r' = threads_ r) /\
  (forall a p, used (processTab r) (processID th) -> zget (pcb (processTab r)) (processID th) = Some (Some a) ->
     pcbs (processTab r) !! a = Some p ->
     exists js es r', pcb_sems r !! a = Some (js, es) /\
     if JoinStatus p =? -1 then
       call_Exit others ec s = Ok (to_int ec, with_rest s r') /\ system_ok r' /\ threads_ r' = threads_ r /\
       bit (ProcTable.bm (processTab r')) (processID th) = false
     else
       call_Exit others ec s = (others t;; answer t) (with_rest s r') /\ handed_over r' /\ queued r' t es /\
       procs (processTab r') !! t = Some (mkProc (name th) (processID th) (InExit a (processID th) ec) (result th))).
Proof.
  intros r t Hok Hth Hown. pose proof Hok as [Hk Hb (tht & Htht & Hwt) _ _ Hp (th0 & Hth0 & Hat) _ Hps]. fold t in Htht, Hth0.
  assert (th0 = th) as -> by congruence. unfold call_Exit.
  rewrite (st_bind_Ok _ _ _ t s), (st_bind_Ok _ _ _ (exit_target t (processTab r)) s) by done. split_and!.
  - intros H0. unfold mbind at 1, st_bind at 1, on_procs. fold r.
    assert (ProcTable.ExitUpdate t ec (processTab r) = Halted) as ->; [|done].
    unfold ProcTable.ExitUpdate. rewrite (st_bind_Ok _ _ _ _ _ (proc_at_ok _ _ _ Hth)), (st_bind_Ok _ _ _ _ _ (IsExist_ok _ _ Hp)), H0.
    by rewrite bool_decide_true by (split; [unfold MAXPROCESS; lia|apply Hp]).
  - intros H0 Hu. rewrite (exit_target_free _ t th Hp Hth H0 Hu).
    rewrite (st_bind_Ok _ _ _ _ _ (on_procs_ok _ s tt _ (exit_again _ t th ec Hp Hth H0 Hu))). fold r.
    set (r' := put_procs r _). assert (system_ok r') as Hok'.
    { eapply (system_ok_procs r); [done|by apply inv_returns; [| |left]|apply lookup_insert_eq|done| |by eapply pcb_sems_table; [exact Hps|]].
      intros x. apply insert_dom. eauto. }
    exists r'. split; [|done]. rewrite (st_bind_Ok _ _ _ tt (with_rest s r')), (st_bind_Ok _ _ _ _ _ (go_on_back (with_rest s r') t Hok' eq_refl)) by done.
    by rewrite (answer_now (with_rest s r') t (mkProc (name th) (processID th) InProgram (-1))) by apply lookup_insert_eq.
  - intros a p Hu Hz Hq. destruct (own_number_owns _ t th Hp Hth Hown Hu) as (_ & a' & p' & Hsl).
    assert (a' = a) as -> by (pose proof (sl_ptr _ _ _ _ _ _ Hsl); congruence).
    assert (p' = p) as -> by (pose proof (sl_pcb _ _ _ _ _ _ Hsl); congruence).
    assert (processID th <> 0) as H0 by (destruct Hu; lia).
    destruct (pcb_sems_of r _ a p t th Hok Hu Hsl) as (js & es & mj & me & Hm & Hj & Hvj & He & Hve & Hne).
    rewrite (exit_target_eq _ t th a p Hth Hz Hq (proj2 Hu)). exists js, es. destruct (Z.eqb_spec (JoinStatus p) (-1)) as [HJ|HJ]; cbn [negb].
    + destruct (exit_leaves _ t th ec a p Hp Hth H0 Hu Hsl HJ) as (b' & E & Hp' & Hbits).
      rewrite (st_bind_Ok _ _ _ _ _ (on_procs_ok _ s tt _ E)). fold r. set (r' := put_procs r _). assert (system_ok r') as Hok'.
      { eapply (system_ok_procs r); [done|exact Hp'|apply lookup_insert_eq|done| |].
        - intros x. cbn. destruct (decide (x = t)) as [->|]; [eauto|]. rewrite lookup_insert_ne, lookup_fmap by done. by intros ?%fmap_is_Some.
        - eapply pcb_sems_table; [exact Hps|]. intros i0 c q [Hr Hbi] Hz0 Hq0. cbn in Hbi, Hz0, Hq0. rewrite Hbits in Hbi.
          apply andb_true_iff in Hbi as [_ Hbi]. split; [by split|]. split; [done|]. by apply lookup_delete_Some in Hq0 as [_ ?]. }
      exists r'. split; [done|]. split; [|split; [done|]; split; [done|]; cbn; by rewrite Hbits, Z.eqb_refl].
      rewrite (st_bind_Ok _ _ _ tt (with_rest s r')), (st_bind_Ok _ _ _ _ _ (go_on_back (with_rest s r') t Hok' eq_refl)) by done.
      by rewrite (answer_now (with_rest s r') t (mkProc (name th) (processID th) InProgram ec)) by apply lookup_insert_eq.
    + destruct (exit_waits _ t th ec a p Hp Hth Hat H0 Hu Hsl HJ) as [E Hp']. destruct (DecNumWait_same (SetExitCode p ec)) as (_ & Hd5 & Hd6 & _).
      pose proof (proj1 (phase_plain a (processID th) p th ltac:(by rewrite Hat)) (sl_phase _ _ _ _ _ _ Hsl)) as [Hj0 He0].
      rewrite (st_bind_Ok _ _ _ _ _ (on_procs_ok _ s tt _ E)). fold r. set (s1 := with_rest s (put_procs r _)).
      destruct (exit_sems_ok s1 t a js es tht mj me Hk Hb eq_refl Htht Hwt Hm Hj He Hne ltac:(congruence))
        as (k' & Ee & Hk' & Hext & Hal & Hsw & (th' & Ht' & Hw') & Hse). set (r' := put_threads (rest_of s1) k') in *.
      exists r'. split; [done|]. split; [|split; [|split; [|apply lookup_insert_eq]]].
      * rewrite (st_bind_Ok _ _ _ _ _ Ee). unfold mbind at 1, st_bind at 1. by rewrite (go_on_waits (with_rest s1 r') t Hsw).
      * eapply (handed_both r _ a p t th) with (t := t); try done; eauto; cbn in Hd5, Hd6 |- *; lia.
      * split; [exact Hsw|]. eexists. split; [cbn; rewrite Hse, lookup_insert_ne by done; apply lookup_insert_eq|]. split_and!; eauto.
Qed.
End specs.

(** ** Properties *)

(** The system as the constructors leave it, with a machine that has a page. *)
Definition first_table : STable := match new_STable [7] with Ok T => T | _ => sample_table end.
Definition first_procs : ProcTable.sys := match new_PTable [9] MAXPROCESS 100 (boot_procs 0) with Ok p => p | _ => boot_table end.
Definition sample_system (a b c : Z) : S :=
  mkSim new_Interrupt new_Statistics
    (mkCpu (mach (world (call_state busy_fs a b c)))
       (mkKern busy_fs (new_SynchConsole []) (mkRest (Threads.boot first_table) first_procs (mkBitMap 0 0 []) None None None ∅ ∅))).
Lemma sample_system_ok a b c : system_ok (rest_of (sample_system a b c)).
Proof.
  destruct (new_STable_ok [7]) as (T & ET & HT & Hn & _); [reflexivity|repeat constructor; unfold two32; lia|].
  destruct (boot_ok [9] 100 0) as (p & Ep & Hp & Hun & Hpr & _); [reflexivity|repeat constructor; unfold two32; lia|].
  assert (first_table = T) as HT' by (unfold first_table; by rewrite ET).
  assert (first_procs = p) as Hp' by (unfold first_procs; by rewrite Ep).
  eapply (booted_system T p); try done; unfold sample_system, rest_of; cbn [world os rest threads_ processTab]; congruence.
Qed.

(** C23. The process calls on the whole system.  Between two system calls of a
    program, the threads, the semaphore table, the process table and the semaphores
    of the PCBs satisfy their invariants together ([system_ok], which holds when the
    first program starts).  Then Exec, Join of an existing process, Exit of a process
    whose number has not been given to another process since an earlier Exit,
    CreateSemaphore with any value, Up, Down and Yield find every object they use and
    fail no assertion.  They return to the program with the same invariant of the
    whole system, or they hand over to the other threads with that invariant (but
    for the caller, [handed_over]) and with the calling thread where it has to be:
    in the queue of the semaphore of the name, blocked in [P] of its child's
    [joinsem], blocked in [P] of its own [exitsem], or last in the ready list.  Only
    the parent of a process waits for it, and only before its Exit; Exit of process 0
    stops the machine, Exit of a process that nobody joins frees its slot and comes
    back with the code.  A process that Exec has made is a new thread at the end of
    the ready list. *)
Theorem process_calls_keep_system (permits : list Z -> bool) (open_max : nat)
    (others : Z -> st (sim (cpu (kern rest_t))) unit) (s : sim (cpu (kern rest_t))) :
  system_ok (rest_of s) ->
  let r := rest_of s in
  let k := threads_ r in
  let t := currentThread k in
  (forall filename, exists v r', call_Exec permits open_max others filename s = Ok (v, with_rest s r') /\ system_ok r' /\
     (v = -1 /\ threads_ r' = k \/
      1 <= v < MAXPROCESS /\ exists nt, readyList (threads_ r') = readyList k ++ [nt] /\
        procs (processTab r') !! nt = Some (mkProc filename v (Starting v) 0))) /\
  (forall i, used (processTab r) i ->
     exists a p th js es r', zget (pcb (processTab r)) i = Some (Some a) /\ pcbs (processTab r) !! a = Some p /\
       procs (processTab r) !! t = Some th /\ pcb_sems r !! a = Some (js, es) /\
       if negb (processID th =? parentID p) then
         call_Join others i s = Ok (-1, with_rest s r') /\ system_ok r' /\ threads_ r' = k
       else if joinsem p =? 0 then
         call_Join others i s = (others t;; answer t) (with_rest s r') /\ handed_over r' /\ queued r' t js /\
         procs (processTab r') !! t = Some (mkProc (name th) (processID th) (InJoin a i) (result th))
       else
         call_Join others i s = Ok (if exitcode p =? 0 then 0 else -1, with_rest s r') /\ system_ok r') /\
  (forall ec th, procs (processTab r) !! t = Some th -> own_number (processTab r) t th ->
     (processID th = 0 -> call_Exit others ec s = Halted) /\
     (processID th <> 0 -> ~ used (processTab r) (processID th) ->
        exists r', call_Exit others ec s = Ok (-1, with_rest s r') /\ system_ok r' /\ threads_ r' = k) /\
     (forall a p, used (processTab r) (processID th) -> zget (pcb (processTab r)) (processID th) = Some (Some a) ->
        pcbs (processTab r) !! a = Some p ->
        exists js es r', pcb_sems r !! a = Some (js, es) /\
        if JoinStatus p =? -1 then
          call_Exit others ec s = Ok (to_int ec, with_rest s r') /\ system_ok r' /\ threads_ r' = k /\
          bit (ProcTable.bm (processTab r')) (processID th) = false
        else
          call_Exit others ec s = (others t;; answer t) (with_rest s r') /\ handed_over r' /\ queued r' t es /\
          procs (processTab r') !! t = Some (mkProc (name th) (processID th) (InExit a (processID th) ec) (result th)))) /\
  (forall name v, exists i r', call_Create name v s = Ok (i, with_rest s r') /\ system_ok r' /\ -1 <= i <= 9 /\
     (i <> -1 -> exists sid, sem_named (ext (threads_ r')) name = Some sid /\ semaphores (threads_ r') !! sid = Some (new_Semaphore v))) /\
  (forall name, exists v r', call_Signal name s = Ok (v, with_rest s r') /\ system_ok r' /\
     v = if decide (is_Some (sem_named (ext k) name)) then 0 else -1) /\
  (forall name, match sem_named (ext k) name with
     | None => call_Wait others name s = Ok (-1, s)
     | Some sid => exists sem r', semaphores k !! sid = Some sem /\
         if value sem =? 0 then
           call_Wait others name s = (others t;; mret 0) (with_rest s r') /\ handed_over r' /\
           switching (threads_ r') = true /\ semaphores (threads_ r') !! sid = Some (mkSemaphore 0 (queue sem ++ [t]))
         else call_Wait others name s = Ok (0, with_rest s r') /\ system_ok r' /\
           semaphores (threads_ r') !! sid = Some (mkSemaphore (value sem - 1) (queue sem))
     end) /\
  match readyList k with
  | [] => call_Yield others s = Ok (tt, s)
  | n :: rl => exists r', call_Yield others s = others t (with_rest s r') /\
      handed_over r' /\ currentThread (threads_ r') = n /\ readyList (threads_ r') = rl ++ [t]
  end.
Proof.
  intros Hok r k t. split_and!.
  - intros f. destruct (exec_keeps_system permits open_max others s f Hok) as (v & r' & E & Hr & _ & Hc). eauto.
  - intros i. by apply join_keeps_system.
  - intros ec th. by apply exit_keeps_system.
  - intros n v. by apply create_keeps_system.
  - intros n. by apply signal_keeps_system.
  - intros n. by apply wait_keeps_system.
  - by apply yield_keeps_system.
Qed.
Definition first_proc : proc := mkProc main_name 0 InProgram 0.
Lemma process_calls_keep_system_witness :
  call_Yield (fun _ => Halt) (sample_system 0 0 0) = Ok (tt, sample_system 0 0 0) /\
  call_Exit (fun _ => Halt) 5 (sample_system 0 0 0) = Halted /\
  exists i r', call_Create [97] (-2) (sample_system 0 0 0) = Ok (i, with_rest (sample_system 0 0 0) r') /\ system_ok r' /\ -1 <= i <= 9.
Proof.
  destruct (process_calls_keep_system (fun _ => true) 64 (fun _ => Halt) (sample_system 0 0 0) (sample_system_ok 0 0 0))
    as (_ & _ & He & Hc & _ & _ & Hy).
  split; [exact Hy|]. split.
  - apply (He 5 first_proc); [vm_compute; reflexivity| |reflexivity]. intros a p [[H _] _]. cbn in H. lia.
  - destruct (Hc [97] (-2)) as (i & r' & E & Hr & Hi & _). eauto.
Defined.

(** The handler of the whole kernel keeps the types of the machine when it returns,
    whatever the exception, the call number and the arguments; the programs that run
    in between, and what Fork jumps to, have to keep the same. *)
Lemma handler_keeps_kernel (permits : list Z -> bool) (open_max : nat)
    (others : Z -> st (sim (cpu (kern rest_t))) unit) (alloc : gmap Z float -> Z) (fork : st (sim (cpu (kern rest_t))) unit)
    (fuel : nat) (junk : Z -> list Z) (which : ExceptionType) (s t : sim (cpu (kern rest_t))) :
  (forall x, keeps (fun _ => True) (others x)) -> keeps (fun _ => True) fork ->
  (forall n, Forall is_char (junk n)) -> zlen (junk MaxString) = MaxString -> kernel_ok s ->
  @ExceptionHandler rest_t (system_calls permits open_max others) permits open_max (other_calls alloc fork fuel junk) junk which s =
    Ok (tt, t) -> kernel_ok t.
Proof.
  intros Ho Hf Hj Hl Hs E. eapply (@handler_keeps rest_t (system_calls permits open_max others)); [|exact Hj| |exact Hs|exact E].
  - by apply system_keeps.
  - by apply keeps_other_calls.
Qed.
Definition sample_junk (n : Z) : list Z := replicate (Z.to_nat n) 0.
(** The handler of the kernel, on a machine with the word [w] as its next
    instruction. *)
Definition sample_handler (e : ExceptionType) : st S unit :=
  @ExceptionHandler rest_t (system_calls (fun _ => true) 64 (fun _ => Halt)) (fun _ => true) 64
    (other_calls sample_alloc Halt 9 sample_junk) sample_junk e.
Definition code_system (w : Z) (l : list Z) : S :=
  mkSim new_Interrupt new_Statistics (mkCpu (mach (world (code_sim w l))) (os (world (sample_system 0 0 0)))).
Lemma code_system_fetch raw r i : zget r PCReg = Some 0 -> Decode (to_uint (to_int raw)) = Ok i ->
  fetch (mach (world (code_system raw r))) = Some i.
Proof. apply code_sim_fetch. Qed.
Lemma sample_handler_keeps e (s s' : S) :
  machine_ok (mach (world s)) -> input_ok (console (os (world s))) -> sample_handler e s = Ok (tt, s') ->
  machine_ok (mach (world s')) /\ input_ok (console (os (world s'))).
Proof.
  intros Hm Hi E. refine (handler_keeps_kernel _ _ _ _ _ _ _ _ s s' _ _ _ _ (conj Hm Hi) E).
  - intros x. apply keeps_Halt.
  - apply keeps_Halt.
  - intros n. apply Forall_replicate. unfold is_char. lia.
  - reflexivity.
Qed.
(** DIV r1,r2 with the least integer and -1, ADDU r3,r1,r2, and SYSCALL with the
    number of Halt in r2. *)
Lemma instruction_contained_witness :
  (OneInstruction sample_handler (code_system 2228250 (two_regs (-2147483648) (-1))) = AssertFail \/
   OneInstruction sample_handler (code_system 2228250 (two_regs (-2147483648) (-1))) = UB) /\
  (exists s', OneInstruction sample_handler (code_system 2234401 (two_regs 5 7)) = Ok (tt, s') /\ machine_ok (mach (world s'))) /\
  (exists e s1, machine_ok (mach (world s1)) /\ failure_of (sample_handler e s1) <> None).
Proof.
  assert (input_ok (console (os (world (code_system 0 []))))) as Hi by (split; [constructor|unfold is_char; simpl; unfold EOF; lia]).
  destruct (two_regs_ok (-2147483648) (-1)) as [Hr Hz]; [unfold_int; lia|unfold_int; lia|].
  destruct (two_regs_ok 5 7) as [Hr' Hz']; [unfold_int; lia|unfold_int; lia|].
  destruct (two_regs_ok 0 0) as [Hr2 Hz2]; [unfold_int; lia|unfold_int; lia|].
  split; [|split].
  - pose proof (instruction_contained sample_handler (fun k => input_ok (console k)) (code_system 2228250 (two_regs (-2147483648) (-1)))
      sample_handler_keeps (code_sim_ok _ _ Hr Hz) Hi) as HC.
    rewrite (code_system_fetch 2228250 (two_regs (-2147483648) (-1)) (mkInstruction OP_DIV 1 2 0 0)
      eq_refl eq_refl) in HC.
    assert (stops (mach (world (code_system 2228250 (two_regs (-2147483648) (-1))))) (mkInstruction OP_DIV 1 2 0 0) = true) as E by reflexivity.
    rewrite E in HC. exact HC.
  - pose proof (instruction_contained sample_handler (fun k => input_ok (console k)) (code_system 2234401 (two_regs 5 7))
      sample_handler_keeps (code_sim_ok _ _ Hr' Hz') Hi) as HC.
    rewrite (code_system_fetch 2234401 (two_regs 5 7) (mkInstruction OP_ADDU 1 2 3 0) eq_refl eq_refl) in HC.
    assert (stops (mach (world (code_system 2234401 (two_regs 5 7)))) (mkInstruction OP_ADDU 1 2 3 0) = false) as Es by reflexivity. rewrite Es in HC. clear Es.
    assert (is_Ok (OneInstruction (contained sample_handler) (code_system 2234401 (two_regs 5 7))) = true) as E by (vm_compute; reflexivity).
    destruct (OneInstruction (contained sample_handler) _) as [[[] s']| | | |]; try discriminate E.
    destruct HC as (H1 & H2 & _). exists s'. split; [exact H1|exact H2].
  - pose proof (instruction_contained sample_handler (fun k => input_ok (console k)) (code_system 12 (two_regs 0 0))
      sample_handler_keeps (code_sim_ok _ _ Hr2 Hz2) Hi) as HC.
    rewrite (code_system_fetch 12 (two_regs 0 0) (mkInstruction OP_SYSCALL 0 0 0 0) eq_refl eq_refl) in HC.
    assert (stops (mach (world (code_system 12 (two_regs 0 0)))) (mkInstruction OP_SYSCALL 0 0 0 0) = false) as Es by reflexivity. rewrite Es in HC. clear Es.
    assert (OneInstruction (contained sample_handler) (code_system 12 (two_regs 0 0)) = Halted) as E by (vm_compute; reflexivity).
    rewrite E in HC. destruct HC as (e & s1 & H1 & _ & H2). exists e, s1. split; [exact H1|exact H2].
Defined.
