(* ===== verification/ThreadTest.v ===== *)
(** * threads/threadtest.cc: the thread test

    [ThreadTest1] forks a thread that runs [SimpleThread(1)] and runs
    [SimpleThread(0)] itself, on the kernel of Threads (without time slices). *)

From S2P Require Import Prelude Interrupt Threads.
From stdpp Require Import gmap list.
#[local] Open Scope Z_scope.

Section test.
Context {E : Type} (save_user restore_user : Z -> E -> E).

(** The kernel, the variable [num] of every thread in [SimpleThread], and the
    lines printed: which thread, how often it has looped. *)
Record test := mkTest { tkern : kernel E; num : gmap Z Z; lines : list (Z * Z) }.

(** One round of the loop of the running thread, which is [SimpleThread(which)];
    behind the loop the function returns. *)
Definition SimpleThread (which : Z -> Z) (s : test) : res test :=
  let t := currentThread (tkern s) in
  match num s !! t with
  | None => UB
  | Some n =>
      if n <? 5 then
        k ← Yield save_user restore_user (tkern s) t;
        Ok (mkTest k (<[t := n + 1]> (num s)) (lines s ++ [(which t, n)]))
      else Ok s
  end.
Fixpoint SimpleThreads (rounds : nat) (which : Z -> Z) (s : test) : res test :=
  match rounds with
  | O => Ok s
  | S r => s ← SimpleThread which s; SimpleThreads r which s
  end.

(** [t] is the new thread; the loops of both start with [num = 0]. *)
Definition ThreadTest1 (k : kernel E) (t : Z) : res test :=
  let k := set_threads k (<[t := new_Thread 0]> (threads k)) in
  k ← Fork k t;
  Ok (mkTest k {[ currentThread k := 0; t := 0 ]} []).
(** [None]: "No test specified." *)
Definition ThreadTest (testnum : Z) (k : kernel E) (t : Z) : res (option test) :=
  if testnum =? 1 then s ← ThreadTest1 k t; Ok (Some s) else Ok None.

Lemma simple_round which (s : test) t n k :
  currentThread (tkern s) = t -> num s !! t = Some n -> n < 5 -> Yield save_user restore_user (tkern s) t = Ok k ->
  SimpleThread which s = Ok (mkTest k (<[t := n + 1]> (num s)) (lines s ++ [(which t, n)])).
Proof. intros <- Hn Hlt Hy. unfold SimpleThread. by rewrite Hn, (proj2 (Z.ltb_lt n 5)), Hy by done. Qed.

(** Two threads take turns. *)
Lemma take_turns which a b : a <> b -> forall n i (s : test),
  Inv (tkern s) -> switching (tkern s) = false -> currentThread (tkern s) = a -> readyList (tkern s) = [b] ->
  num s !! a = Some i -> num s !! b = Some i -> i + Z.of_nat n <= 5 ->
  exists s', SimpleThreads (n + n) which s = Ok s' /\
    Inv (tkern s') /\ currentThread (tkern s') = a /\ readyList (tkern s') = [b] /\
    num s' !! a = Some (i + Z.of_nat n) /\ num s' !! b = Some (i + Z.of_nat n) /\
    lines s' = lines s ++ concat ((fun j => [(which a, j); (which b, j)]) <$> seqZ i (Z.of_nat n)).
Proof.
  intros Hab. induction n as [|n IH]; intros i s Hinv Hsw Hcur Hrd Ha Hb Hi.
  { exists s. rewrite Z.add_0_r. split_and!; try done. by rewrite app_nil_r. }
  destruct (Yield_spec save_user restore_user (tkern s) a Hinv Hsw (eq_sym Hcur)) as (k1 & E1 & Hinv1 & Hsw1 & _ & H1).
  rewrite Hrd in H1. destruct H1 as [Hcur1 Hrd1].
  destruct (Yield_spec save_user restore_user k1 b Hinv1 Hsw1 (eq_sym Hcur1)) as (k2 & E2 & Hinv2 & Hsw2 & _ & H2).
  rewrite Hrd1 in H2. destruct H2 as [Hcur2 Hrd2].
  set (s2 := mkTest k2 (<[b := i + 1]> (<[a := i + 1]> (num s))) ((lines s ++ [(which a, i)]) ++ [(which b, i)])).
  destruct (IH (i + 1) s2) as (s' & E' & Hinv' & Hcur' & Hrd' & Ha' & Hb' & Hl'); try done; simpl.
  { by rewrite lookup_insert_ne, lookup_insert_eq by done. }
  { by rewrite lookup_insert_eq. }
  { lia. }
  exists s'. split.
  - rewrite Nat.add_succ_r. cbn [SimpleThreads Nat.add].
    rewrite (simple_round which s a i k1) by (done || lia). cbn [mbind res_bind].
    rewrite (simple_round which _ b i k2); [exact E'|done| |lia|done]. simpl. by rewrite lookup_insert_ne.
  - replace (i + Z.of_nat (S n)) with (i + 1 + Z.of_nat n) by lia. split_and!; try done. rewrite Hl'.
    cbn [lines s2]. rewrite (seqZ_cons i) by lia. replace (Z.pred (Z.of_nat (S n))) with (Z.of_nat n) by lia.
    cbn [fmap list_fmap concat app]. by rewrite <-!app_assoc.
Qed.

(** The thread test alternates: from any sound kernel with no other thread ready,
    both loops of [ThreadTest1] run to their end, the five lines of the main
    thread and the five of the forked one in strict alternation, and nothing
    fails. *)
Lemma thread_test_alternates (k : kernel E) (t : Z) :
  Inv k -> switching k = false -> readyList k = [] -> threads k !! t = None ->
  exists s s', ThreadTest 1 k t = Ok (Some s) /\
    SimpleThreads 10 (fun x => if x =? currentThread k then 0 else 1) s = Ok s' /\
    lines s' = concat ((fun j => [(0, j); (1, j)]) <$> seqZ 0 5) /\
    num s' !! currentThread k = Some 5 /\ num s' !! t = Some 5 /\ Inv (tkern s') /\ currentThread (tkern s') = currentThread k.
Proof.
  intros Hinv Hsw Hrd Ht. assert (currentThread k <> t) as Hne by (intros <-; destruct Hinv as [_ [th Hth]]; congruence).
  set (k1 := set_threads k (<[t := new_Thread 0]> (threads k))).
  assert (Inv k1) as Hinv1.
  { destruct Hinv as [Hc Hcur]. split; [by apply core_create|]. simpl. by rewrite lookup_insert_ne. }
  destruct (Fork_spec k1 t (new_Thread 0) Hinv1) as (k2 & E2 & Hinv2 & Hrd2); [apply lookup_insert_eq|done|].
  assert (switching k2 = false /\ currentThread k2 = currentThread k) as [Hsw2 Hcur2].
  { revert E2. unfold Fork, ReadyToRun, setStatus. unfold k1. rewrite (thread_at_Ok _ _ (new_Thread 0)) by apply lookup_insert_eq. cbn [mbind res_bind].
    erewrite thread_at_Ok by (simpl; apply lookup_insert_eq). simpl. by intros [= <-]. }
  simpl in Hrd2. rewrite Hrd in Hrd2.
  set (s := mkTest k2 {[ currentThread k2 := 0; t := 0 ]} []).
  destruct (take_turns (fun x => if x =? currentThread k then 0 else 1) (currentThread k) t Hne 5 0 s) as (s' & E' & Hinv' & Hcur' & _ & Ha & Hb & Hl); try done.
  { simpl. rewrite Hcur2. apply lookup_insert_eq. }
  { simpl. rewrite Hcur2, lookup_insert_ne by done. apply lookup_singleton_eq. }
  exists s, s'. split.
  - unfold ThreadTest, ThreadTest1. cbn [Z.eqb Pos.eqb]. fold k1. rewrite E2. done.
  - split; [exact E'|]. split; [|done]. rewrite Hl, Z.eqb_refl, (proj2 (Z.eqb_neq t (currentThread k))) by congruence. done.
Qed.
End test.
