(* ===== verification/Coff2Flat.v ===== *)
(** * bin/coff2flat.c: flat images

    The tool copies the sections of an object file one behind the other into a
    file that is to be the image of the memory of the program, and makes room for
    the stack behind it.  It reads the same headers as coff2noff, with routines of
    the same bodies (Coff2Noff). *)

From stdpp Require Import list.
From S2P Require Import Prelude StubFS AddrSpace Coff2Noff.
#[local] Open Scope Z_scope.

Definition StackSize : Z := 1024.
(** [!strcmp(s_name, ".bss") || !strcmp(s_name, ".sbss")] *)
Definition is_bss (s : scnhdr) : bool := named_ s bss_name || named_ s sbss_name.
Definition end_of (s : scnhdr) : Z := to_int (s_paddr s + s_size s).

Section tool.
Context (coff : list Z).

(** The body of the loop, on [top]. *)
Definition flat_section (s : scnhdr) (top : Z) : st tool Z :=
  let top := if end_of s >? top then end_of s else top in
  (if negb (is_bss s) then copy_section coff s else mret tt);;
  mret top.
Fixpoint flat_sections (ss : list scnhdr) (top : Z) : st tool Z :=
  match ss with
  | [] => mret top
  | s :: r => top ← flat_section s top; flat_sections r top
  end.
Definition coff2flat_main : st tool unit :=
  fileh ← c2n_Read coff sizeof_filehdr;
  let fileh := parse_filehdr fileh in
  if negb (f_magic fileh =? MIPSELMAGIC) then lift Halted
  else
    systemh ← c2n_Read coff sizeof_aouthdr;
    if negb (magic (parse_aouthdr systemh) =? OMAGIC) then lift Halted
    else
      let numsections := f_nscns fileh in
      raw ← c2n_Read coff (numsections * sizeof_scnhdr);
      let sections := parse_sections (Z.to_nat numsections) raw in
      top ← flat_sections sections 0;
      lseek_out (to_int (top + StackSize - 4));;
      c2n_Write (le32 0) 4.
Definition coff2flat : res (list Z) := '(_, t) ← coff2flat_main (mkTool 0 [] 0); Ok (out t).

(** ** The image *)

(** The section lies in the file, and its end and the stack are addresses. *)
Record section_in (s : scnhdr) : Prop := {
  si_size : 0 <= s_size s;
  si_ptr : 0 <= s_scnptr s;
  si_in : s_scnptr s + s_size s <= zlen coff;
  si_end : 0 <= s_paddr s /\ s_paddr s + s_size s + StackSize < two31
}.
(** Sections that are copied follow each other in memory, from [p] on. *)
Fixpoint laid (p : Z) (ss : list scnhdr) : Prop :=
  match ss with
  | [] => True
  | s :: r => if is_bss s then laid p r else s_paddr s = p /\ laid (p + s_size s) r
  end.
Definition copied (ss : list scnhdr) : list scnhdr := List.filter (fun s => negb (is_bss s)) ss.
Definition flat_body (ss : list scnhdr) : list Z := concat (raw_of coff <$> copied ss).
Definition top_of (ss : list scnhdr) (top : Z) : Z := foldl (fun top s => Z.max top (s_paddr s + s_size s)) top ss.

Lemma copied_cons s ss : copied (s :: ss) = if is_bss s then copied ss else s :: copied ss.
Proof. unfold copied. simpl. by destruct (is_bss s). Qed.
Lemma flat_body_cons s ss : flat_body (s :: ss) = (if is_bss s then [] else raw_of coff s) ++ flat_body ss.
Proof. unfold flat_body. rewrite copied_cons. by destruct (is_bss s). Qed.
Lemma section_raw_len s : section_in s -> zlen (raw_of coff s) = s_size s.
Proof. intros [H1 H2 H3 _]. unfold raw_of. rewrite zlen_slice by lia. lia. Qed.
Lemma end_of_id s : section_in s -> end_of s = s_paddr s + s_size s.
Proof. intros [H1 _ _ [H2 H3]]. unfold end_of. apply to_int_id. unfold StackSize in H3. unfold_int. lia. Qed.
Lemma flat_copy s t : section_in s -> outpos t = zlen (out t) ->
  exists p, copy_section coff s t = Ok (tt, mkTool p (out t ++ raw_of coff s) (zlen (out t ++ raw_of coff s))).
Proof.
  intros Hs Hp. pose proof (section_raw_len s Hs) as Hl. destruct Hs as [H1 H2 H3 _]. unfold copy_section.
  exists (s_scnptr s + zlen (raw_of coff s)).
  rewrite (st_bind_Ok _ _ _ tt (mkTool (s_scnptr s) (out t) (outpos t))).
  2:{ unfold lseek_in. by rewrite (proj2 (Z.ltb_ge _ _)) by lia. }
  rewrite (st_bind_Ok _ _ _ (raw_of coff s) (mkTool (s_scnptr s + zlen (raw_of coff s)) (out t) (outpos t))).
  2:{ unfold c2n_Read. cbn [inpos out outpos]. fold (raw_of coff s). rewrite (proj2 (Z.ltb_ge _ _)) by lia. by rewrite Hl, Z.eqb_refl. }
  unfold c2n_Write. rewrite (proj2 (Z.ltb_ge _ _)), Z.eqb_refl by lia. cbn [negb inpos out outpos].
  rewrite take_ge by (unfold zlen in Hl; lia). by rewrite Hp, overwrite_append, zlen_app.
Qed.
Lemma flat_sections_ok ss : forall top t, Forall section_in ss -> outpos t = zlen (out t) ->
  exists p, flat_sections ss top t = Ok (top_of ss top, mkTool p (out t ++ flat_body ss) (zlen (out t ++ flat_body ss))).
Proof.
  induction ss as [|s ss IH]; intros top t Hss Hp.
  { exists (inpos t). unfold flat_body. simpl. rewrite app_nil_r, <-Hp. by destruct t. }
  inversion Hss as [|? ? Hs Hss']; subst. cbn [flat_sections top_of foldl].
  assert (exists p, flat_section s top t = Ok (Z.max top (s_paddr s + s_size s),
    mkTool p (out t ++ flat_body [s]) (zlen (out t ++ flat_body [s])))) as [p E].
  { unfold flat_section. rewrite (end_of_id s Hs). replace (if _ >? top then _ else top) with (Z.max top (s_paddr s + s_size s)).
    2:{ rewrite Z.gtb_ltb. destruct (Z.ltb_spec top (s_paddr s + s_size s)); lia. }
    rewrite flat_body_cons. change (flat_body []) with (@nil Z). rewrite app_nil_r. destruct (is_bss s); cbn [negb].
    - exists (inpos t). rewrite app_nil_r, <-Hp. by destruct t.
    - destruct (flat_copy s t Hs Hp) as [p E]. exists p. by rewrite (st_bind_Ok _ _ _ _ _ E). }
  rewrite (st_bind_Ok _ _ _ _ _ E).
  destruct (IH (Z.max top (s_paddr s + s_size s)) (mkTool p (out t ++ flat_body [s]) (zlen (out t ++ flat_body [s])))) as [p' E']; [done|done|].
  exists p'. rewrite E'. cbn [out]. rewrite !flat_body_cons. change (flat_body []) with (@nil Z). by rewrite app_nil_r, <-app_assoc.
Qed.

Lemma top_of_le ss : forall top, top <= top_of ss top.
Proof. induction ss as [|s ss IH]; intros top; [reflexivity|]. simpl. specialize (IH (Z.max top (s_paddr s + s_size s))). unfold top_of in *. lia. Qed.
Lemma top_of_bound ss : forall top, Forall section_in ss -> top + StackSize < two31 -> top_of ss top + StackSize < two31.
Proof.
  induction ss as [|s ss IH]; intros top Hss Ht; [done|]. inversion Hss as [|? ? [_ _ _ [_ Hs]] Hss']; subst. simpl. apply IH; [done|lia].
Qed.
(** What is copied ends at most at [top]; a section is where its address says. *)
Lemma laid_end ss : forall p top, Forall section_in ss -> laid p ss -> p <= top -> p + zlen (flat_body ss) <= top_of ss top.
Proof.
  induction ss as [|s ss IH]; intros p top Hss Hl Hp; [unfold flat_body; simpl; rewrite zlen_nil; lia|].
  inversion Hss as [|? ? Hs Hss']; subst. rewrite flat_body_cons. simpl in Hl |- *. destruct (is_bss s); cbn [app].
  - apply IH; [done|done|lia].
  - destruct Hl as [Hpa Hl]. rewrite zlen_app, (section_raw_len s Hs). rewrite Z.add_assoc. apply IH; [done|done|lia].
Qed.
Lemma laid_at ss : forall p s, Forall section_in ss -> laid p ss -> s ∈ copied ss ->
  p <= s_paddr s /\ 0 <= s_size s /\ slice (s_paddr s - p) (s_size s) (flat_body ss) = raw_of coff s /\ s_paddr s - p + s_size s <= zlen (flat_body ss).
Proof.
  induction ss as [|x ss IH]; intros p s Hss Hl Hin; [by apply elem_of_nil in Hin|].
  inversion Hss as [|? ? Hx Hss']; subst. rewrite copied_cons in Hin. rewrite flat_body_cons. simpl in Hl. destruct (is_bss x); cbn [app]; [by apply IH|].
  destruct Hl as [Hpa Hl]. pose proof (section_raw_len x Hx) as Hxl. pose proof (si_size _ Hx).
  rewrite zlen_app, Hxl. pose proof (zlen_nonneg (flat_body ss)). apply elem_of_cons in Hin as [->|Hin].
  - rewrite Hpa, Z.sub_diag. split; [lia|]. split; [done|]. split; [|lia]. rewrite <-Hxl. apply slice_front.
  - destruct (IH (p + s_size x) s Hss' Hl Hin) as (H1 & H0' & H2 & H3). split; [lia|]. split; [done|]. split; [|lia].
    rewrite <-H2. replace (s_paddr s - p) with (zlen (raw_of coff x) + (s_paddr s - (p + s_size x))) by lia.
    unfold slice, zlen. rewrite Z2Nat.inj_add, Nat2Z.id by lia. by rewrite drop_app_add.
Qed.

(** The flat file of a correct object file is the memory of the program: when the
    sections that are copied follow each other from address 0, every one of them is
    found at its own address, what is behind them (bss and stack) is zero, and the
    file ends 1024 bytes behind the last section. *)
Lemma flat_file_is_memory :
  zlen coff >= sizeof_filehdr + sizeof_aouthdr + nscns coff * sizeof_scnhdr ->
  f_magic (parse_filehdr (slice 0 sizeof_filehdr coff)) = MIPSELMAGIC ->
  magic (parse_aouthdr (slice sizeof_filehdr sizeof_aouthdr coff)) = OMAGIC ->
  Forall section_in (sections_of coff) -> laid 0 (sections_of coff) -> 0 <= nscns coff ->
  exists flat, coff2flat = Ok flat /\
    zlen flat = top_of (sections_of coff) 0 + StackSize /\
    (forall s, s ∈ copied (sections_of coff) -> slice (s_paddr s) (s_size s) flat = raw_of coff s) /\
    (forall i, zlen (flat_body (sections_of coff)) <= i < zlen flat -> zget flat i = Some 0).
Proof.
  intros Hl Hm Hom Hss Hld Hn. unfold sizeof_filehdr, sizeof_aouthdr, sizeof_scnhdr in Hl.
  set (ss := sections_of coff) in *. set (body := flat_body ss). set (top := top_of ss 0).
  assert (0 <= top /\ top + StackSize < two31) as [Ht0 Ht1].
  { split; [apply (top_of_le ss 0)|]. apply top_of_bound; [done|by vm_compute]. }
  pose proof (laid_end ss 0 0 Hss Hld ltac:(done)) as Hend. fold body top in Hend. pose proof (zlen_nonneg body).
  exists (body ++ replicate (Z.to_nat (top + StackSize - zlen body)) 0). unfold StackSize in *.
  assert (zlen (body ++ replicate (Z.to_nat (top + 1024 - zlen body)) 0) = top + 1024) as Hzl.
  { rewrite zlen_app. unfold zlen at 2. rewrite length_replicate. lia. }
  split_and!.
  - unfold coff2flat, coff2flat_main.
    rewrite (st_bind_Ok _ _ _ _ _ (read_front coff 0 sizeof_filehdr [] 0 ltac:(done) ltac:(done) ltac:(unfold sizeof_filehdr; lia))).
    cbv zeta. rewrite Hm, Z.eqb_refl. cbn [negb].
    rewrite (st_bind_Ok _ _ _ _ _ (read_front coff (0 + sizeof_filehdr) sizeof_aouthdr [] 0 ltac:(done) ltac:(done)
      ltac:(unfold sizeof_filehdr, sizeof_aouthdr; lia))).
    change (0 + sizeof_filehdr) with sizeof_filehdr. rewrite Hom, Z.eqb_refl. cbn [negb].
    change (f_nscns (parse_filehdr (slice 0 sizeof_filehdr coff))) with (nscns coff).
    rewrite (st_bind_Ok _ _ _ _ _ (read_front coff (sizeof_filehdr + sizeof_aouthdr) (nscns coff * sizeof_scnhdr) [] 0
      ltac:(done) ltac:(unfold sizeof_scnhdr; lia) ltac:(unfold sizeof_filehdr, sizeof_aouthdr, sizeof_scnhdr; lia))).
    fold (sections_of coff). fold ss.
    destruct (flat_sections_ok ss 0 (mkTool (sizeof_filehdr + sizeof_aouthdr + nscns coff * sizeof_scnhdr) [] 0) Hss eq_refl) as [p E].
    rewrite (st_bind_Ok _ _ _ _ _ E). fold top. cbn [out app]. fold body.
    rewrite (st_bind_Ok _ _ _ tt (mkTool p body (top + 1024 - 4))).
    2:{ unfold lseek_out, StackSize. rewrite to_int_id by (unfold_int; lia). by rewrite (proj2 (Z.ltb_ge _ _)) by lia. }
    unfold c2n_Write. cbn [Z.ltb Z.compare Z.eqb Pos.eqb negb mbind res_bind out outpos]. f_equal.
    change (take (Z.to_nat 4) (le32 0)) with (replicate 4 0). unfold overwrite. rewrite length_replicate.
    rewrite (drop_ge body), app_nil_r by (unfold zlen in *; lia).
    rewrite take_ge by (rewrite length_app, length_replicate; unfold zlen in *; lia).
    rewrite <-app_assoc, <-replicate_add. do 2 f_equal. lia.
  - exact Hzl.
  - intros s Hs. destruct (laid_at ss 0 s Hss Hld Hs) as (H1 & H0 & H2 & H3). rewrite Z.sub_0_r in *. rewrite <-H2. fold body in H3 |- *.
    unfold slice. rewrite drop_app_le by (unfold zlen in *; lia). apply take_app_le. rewrite length_drop. unfold zlen in *. lia.
  - intros i Hi. rewrite Hzl in Hi. rewrite zget_app, decide_False by lia. apply zget_zeros. lia.
Qed.
End tool.

(** The tool does not move to the address of a section before it copies it: with a
    gap between two sections the second one is written at the end of the first.
    Eight bytes of code at 0, one byte of data at 16. *)
Definition gap_coff : list Z :=
  pad 20 (le16 MIPSELMAGIC ++ le16 2) ++ pad 56 (le16 OMAGIC) ++
  scn_image text_name 0 8 156 ++ scn_image data_name 16 1 164 ++ [1; 2; 3; 4; 5; 6; 7; 8] ++ [77].
Lemma gap_is_closed :
  exists flat, coff2flat gap_coff = Ok flat /\ zget flat 16 = Some 0 /\ zget flat 8 = Some 77.
Proof. eexists. split; [vm_compute; reflexivity|]. split; reflexivity. Qed.
(** The object file of Coff2Noff has no gap. *)
Lemma tiny_flat : exists flat, coff2flat tiny_coff = Ok flat /\ zlen flat = 16 + 1024 /\ zget flat 12 = Some 77.
Proof.
  destruct (flat_file_is_memory tiny_coff) as (flat & E & Hl & Hs & _).
  - by vm_compute.
  - reflexivity.
  - reflexivity.
  - rewrite tiny_sections. repeat constructor; by vm_compute.
  - rewrite tiny_sections. by vm_compute.
  - by vm_compute.
  - exists flat. split; [exact E|]. rewrite tiny_sections in Hl, Hs. split; [exact Hl|].
    assert (slice 12 1 flat = [77]) as H1 by (apply (Hs tiny_data); vm_compute; right; left).
    replace (zget flat 12) with (zget (slice 12 1 flat) 0) by (by rewrite zget_slice by done). by rewrite H1.
Qed.
