(* ===== verification/Disasm.v ===== *)
(** * bin/d.c, bin/opstrings.c, bin/out.c: the disassembler

    [disassemble] prints the sections of an object file: code as instructions,
    data as words and characters, each with the name its relocation refers to, and
    then the external symbols.  The file is read into the arrays [scnhdr],
    [section], [symbols] and [sspace]; the layouts of the COFF structures belong to
    system headers, so that the model starts from the headers' fields.  Output goes through [myprintf], which formats
    into a buffer of 100 characters and keeps the column.  The fields of an
    instruction are those of HostSim. *)

From stdpp Require Import gmap list strings sets.
From S2P Require Import Prelude HostSim UserProgs.
#[local] Open Scope Z_scope.

(** ** bin/opstrings.c *)

Definition normalops : list string := [
  "special"; "bcond"; "j"; "jal"; "beq"; "bne"; "blez"; "bgtz";
  "addi"; "addiu"; "slti"; "sltiu"; "andi"; "ori"; "xori"; "lui";
  "cop0"; "cop1"; "cop2"; "cop3"; "024"; "025"; "026"; "027";
  "030"; "031"; "032"; "033"; "034"; "035"; "036"; "037";
  "lb"; "lh"; "lwl"; "lw"; "lbu"; "lhu"; "lwr"; "047";
  "sb"; "sh"; "swl"; "sw"; "054"; "055"; "swr"; "057";
  "lwc0"; "lwc1"; "lwc2"; "lwc3"; "064"; "065"; "066"; "067";
  "swc0"; "swc1"; "swc2"; "swc3"; "074"; "075"; "076"; "077"]%string.
Definition specialops : list string := [
  "sll"; "001"; "srl"; "sra"; "sllv"; "005"; "srlv"; "srav";
  "jr"; "jalr"; "012"; "013"; "syscall"; "break"; "016"; "017";
  "mfhi"; "mthi"; "mflo"; "mtlo"; "024"; "025"; "026"; "027";
  "mult"; "multu"; "div"; "divu"; "034"; "035"; "036"; "037";
  "add"; "addu"; "sub"; "subu"; "and"; "or"; "xor"; "nor";
  "050"; "051"; "slt"; "sltu"; "054"; "055"; "056"; "057";
  "060"; "061"; "062"; "063"; "064"; "065"; "066"; "067";
  "070"; "071"; "072"; "073"; "074"; "075"; "076"; "077"]%string.

(** ** Numbers as text *)

Definition hex_digit (d : Z) : Z := if d <? 10 then 48 + d else 87 + d.
(** The [k] last hexadecimal digits. *)
Fixpoint hex_low (k : nat) (n : Z) : list Z :=
  match k with
  | O => []
  | S k' => hex_low k' (n / 16) ++ [hex_digit (n mod 16)]
  end.
Fixpoint strip_zeros (l : list Z) : list Z :=
  match l with
  | c :: r => if (c =? 48) && negb (bool_decide (r = [])) then strip_zeros r else l
  | [] => []
  end.
(** %08x and %x of an [int] *)
Definition x08 (v : Z) : list Z := hex_low 8 (to_uint v).
Definition x_ (v : Z) : list Z := strip_zeros (x08 v).

(** ** bin/d.c *)

Definition regstrings : list string := [
  "0"; "r1"; "r2"; "r3"; "r4"; "r5"; "r6"; "r7"; "r8"; "r9";
  "r10"; "r11"; "r12"; "r13"; "r14"; "r15"; "r16"; "r17"; "r18"; "r19";
  "r20"; "r21"; "r22"; "r23"; "r24"; "r25"; "r26"; "r27"; "gp"; "sp";
  "r30"; "r31"]%string.
(** An entry of a table of strings; the indices are fields of five or six bits. *)
Definition entry (l : list string) (i : Z) : list Z := txt (nth (Z.to_nat i) l EmptyString).
Definition Rname (i : Z) : list Z := entry regstrings i.

(** bin/instr.h *)
Definition off26 (i : Z) : Z := Z.shiftl (Z.land i 67108863) 2.
Definition top4 (i : Z) : Z := Z.land i (Z.lnot 268435455).
Definition off16 (i : Z) : Z := to_int (Z.shiftl (I.immed i) 2).

(** The groups of cases of the two [switch]es. *)
Inductive operands := RdRtShamt | RdRtRs | RsOnly | RdOnly | RsRt | RdRsRt | NoOperands.
Definition special_case (opcode : Z) : operands :=
  match opcode with
  | 0 | 2 | 3 => RdRtShamt
  | 4 | 6 | 7 => RdRtRs
  | 8 | 9 | 18 | 19 => RsOnly
  | 16 | 17 => RdOnly
  | 24 | 25 | 26 | 27 => RsRt
  | 32 | 33 | 34 | 35 | 36 | 37 | 38 | 39 | 42 | 43 => RdRsRt
  | _ => NoOperands
  end.
Inductive operands_i := Target | RtRsOffset | RtRsImmed | RtImmed | RtOffsetRs | NoOperandsI.
Definition normal_case (opcode : Z) : operands_i :=
  match opcode with
  | 2 | 3 => Target
  | 4 | 5 => RtRsOffset
  | 8 | 9 | 10 | 11 | 12 | 13 | 14 => RtRsImmed
  | 15 => RtImmed
  | 32 | 33 | 34 | 35 | 36 | 37 | 38 | 40 | 41 | 42 | 43 | 46 | 48 | 49 | 50 | 51 | 56 | 57 | 58 | 59 => RtOffsetRs
  | _ => NoOperandsI
  end.

Definition comma : list Z := [44].
Definition zero_x : list Z := [48; 120].
(** What one call of [printf] prints. *)
Definition special_text (i : Z) : list Z :=
  match special_case (Z.land i 63) with
  | RdRtShamt => Rname (I.rd i) ++ comma ++ Rname (I.rt i) ++ comma ++ zero_x ++ x_ (I.shamt i)
  | RdRtRs => Rname (I.rd i) ++ comma ++ Rname (I.rt i) ++ comma ++ Rname (I.rs i)
  | RsOnly => Rname (I.rs i)
  | RdOnly => Rname (I.rd i)
  | RsRt => Rname (I.rs i) ++ comma ++ Rname (I.rt i)
  | RdRsRt => Rname (I.rd i) ++ comma ++ Rname (I.rs i) ++ comma ++ Rname (I.rt i)
  | NoOperands => []
  end.
Definition normal_text (opcode i pc : Z) : list Z :=
  match normal_case opcode with
  | Target => x08 (Z.lor (top4 pc) (off26 i))
  | RtRsOffset => Rname (I.rt i) ++ comma ++ Rname (I.rs i) ++ comma ++ x08 (off16 i + pc + 4)
  | RtRsImmed => Rname (I.rt i) ++ comma ++ Rname (I.rs i) ++ comma ++ zero_x ++ x_ (I.immed i)
  | RtImmed => Rname (I.rt i) ++ comma ++ zero_x ++ x_ (I.immed i)
  | RtOffsetRs => Rname (I.rt i) ++ comma ++ zero_x ++ x_ (I.immed i) ++ [40] ++ Rname (I.rs i) ++ [41]
  | NoOperandsI => []
  end.
Definition bcond_name (rt : Z) : list Z :=
  match rt with
  | 0 => txt "bltz"
  | 1 => txt "bgez"
  | 16 => txt "bltzal"
  | 17 => txt "bgezal"
  | _ => txt "BCOND"
  end.

(** The texts that [dump_ascii] prints, one after the other; [longdis] is 1. *)
Definition dump_ascii (instruction pc : Z) : list (list Z) :=
  let opcode := Z.shiftr (to_uint instruction) 26 in
  [x08 pc ++ txt ": " ++ x08 instruction ++ txt "  "; [9]] ++
  (if instruction =? 0 then [txt "nop"]
   else if opcode =? 0 then [entry specialops (Z.land instruction 63) ++ [9]; special_text instruction]
   else if opcode =? 1 then
     [bcond_name (I.rt instruction); [9] ++ Rname (I.rs instruction) ++ comma ++ x08 (off16 instruction + pc + 4)]
   else [entry normalops opcode ++ [9]; normal_text opcode instruction pc]).

(** ** bin/out.c: output with columns *)

Record screen := mkScreen { column : Z; printed : list Z }.
Definition next_column (col c : Z) : Z :=
  if c =? 10 then 1
  else if c =? 9 then Z.land (col + 7) (Z.lnot 7) + 1
  else col + 1.
(** [vsprintf] into [buf[100]]. *)
Definition myprintf (text : list Z) : st screen unit := fun s =>
  if zlen text <? 100 then Ok (tt, mkScreen (foldl next_column (column s) text) (printed s ++ text)) else UB.
(** [n - column] rounds of the loop. *)
Fixpoint tab_loop (k : nat) (n : Z) (s : screen) : screen :=
  match k with
  | O => s
  | S k' => if column s <? n then tab_loop k' n (mkScreen (column s + 1) (printed s ++ [32])) else s
  end.
Definition mytab (n : Z) : st screen bool := fun s =>
  let s := tab_loop (Z.to_nat (n - column s)) n s in Ok (column s =? n, s).
Fixpoint print_all (l : list (list Z)) : st screen unit :=
  match l with
  | [] => mret tt
  | t :: r => myprintf t;; print_all r
  end.

Record reloc := mkReloc { r_vaddr : Z; r_symndx : Z; r_extern : bool; r_type : Z }.
Record SYMR := mkSYMR { iss : Z; sym_value : Z; sym_st : Z; sym_sc : Z }.
Record section_ := mkSection { s_name : list Z; s_size : Z; s_vaddr : Z; data : list Z; relocs : list reloc }.
Definition MAXSYMS : Z := 300.
Definition MAXSSPACE : Z := 20000.

Definition section_name : list string := [
  "(null)"; ".text"; ".rdata"; ".data"; ".sdata"; ".sbss"; ".bss"; ".init"; ".lit8"; ".lit4"]%string.
Definition reloc_type : list string := ["abs"; "16"; "32"; "26"; "hi16"; "lo16"; "gpdata"; "gplit"]%string.
Definition symbol_type : list string := [
  "Nil"; "Global"; "Static"; "Param"; "Local"; "Label"; "Proc"; "Block";
  "End"; "Member"; "Type"; "File"; "Register"; "Forward"; "StaticProc"; "Constant"]%string.
Definition storage_class : list string := [
  "Nil"; "Text"; "Data"; "Bss"; "Register"; "Abs"; "Undefined"; "CdbLocal";
  "Bits"; "CdbSystem"; "RegImage"; "Info"; "UserStruct"; "SData"; "SBss";
  "RData"; "Var"; "Common"; "SCommon"; "VarRegister"; "Variant"; "SUndefined"; "Init"]%string.
Definition scUndefined : Z := 6.
(** An entry of a table by an index from the file. *)
Definition looked_up (l : list string) (i : Z) : res (list Z) := w ← rd l i; Ok (txt w).
Fixpoint c_text (l : list Z) : res (list Z) :=
  match l with
  | [] => UB
  | c :: r => if c =? 0 then Ok [] else t ← c_text r; Ok (c :: t)
  end.
(** [&sspace[i]] as a string *)
Definition name_at (sspace : list Z) (i : Z) : res (list Z) :=
  if (0 <=? i) && (i <=? zlen sspace) then c_text (drop (Z.to_nat i) sspace) else UB.
(** %d of an [int]; the digits of a number below [10^10]. *)
Definition d_ (v : Z) : list Z :=
  (if v <? 0 then [45] else []) ++ (if v =? 0 then [48] else Syscalls.dec_digits 10 (Z.abs v)).

Section out.
Context (symbols : list SYMR) (sspace : list Z).

(** What a relocation refers to: a symbol, or a section. *)
Definition reloc_name (rp : reloc) : res (list Z) :=
  if r_extern rp then
    if MAXSYMS <=? r_symndx rp then Ok (txt "sym $" ++ d_ (r_symndx rp))
    else sym ← rd symbols (r_symndx rp); n ← name_at sspace (iss sym); Ok ([34] ++ n ++ [34])
  else looked_up section_name (r_symndx rp).
Fixpoint print_reloc_loop (l : list reloc) (vaddr : Z) : st screen unit :=
  match l with
  | [] => mret tt
  | rp :: r =>
      if vaddr =? r_vaddr rp then
        mytab 57;;
        n ← lift (reloc_name rp);
        myprintf n;;
        t ← lift (looked_up reloc_type (r_type rp));
        myprintf ([32] ++ t)
      else print_reloc_loop r vaddr
  end.
Definition print_reloc (sec : section_) (vaddr : Z) : st screen unit :=
  print_reloc_loop (relocs sec) vaddr;; myprintf [10].

(** A character of a data word, or a point. *)
Definition shown_char (c : Z) : list Z := if (32 <=? to_char c) && (to_char c <? 127) then [to_char c] else [46].
Definition print_word (is_text : bool) (word pc : Z) : st screen unit :=
  if is_text then print_all (dump_ascii word pc)
  else
    myprintf (x08 pc ++ txt ": " ++ x08 word ++ txt "  ");;
    print_all (shown_char <$> le32 word);;
    myprintf ([9] ++ d_ word).
Fixpoint print_words (sec : section_) (is_text : bool) (ws : list Z) (j : Z) : st screen unit :=
  match ws with
  | [] => mret tt
  | word :: r =>
      let pc := to_int (s_vaddr sec + j * 4) in
      print_word is_text word pc;;
      print_reloc sec pc;;
      print_words sec is_text r (j + 1)
  end.
Definition print_section (sec : section_) : st screen unit :=
  myprintf (txt "Section: " ++ s_name sec ++ [9] ++ d_ (s_size sec) ++ [47] ++ d_ (zlen (relocs sec)) ++ [10]);;
  print_words sec (bool_decide (take 5 (s_name sec) = txt ".text")) (data sec) 0.

Definition print_symbol (sym : SYMR) : st screen unit :=
  (if sym_sc sym =? scUndefined then myprintf [9; 32] else myprintf (x08 (sym_value sym) ++ [32]));;
  t ← lift (looked_up symbol_type (sym_st sym));
  myprintf t;;
  mytab 25;;
  c ← lift (looked_up storage_class (sym_sc sym));
  myprintf c;;
  mytab 41;;
  n ← lift (name_at sspace (iss sym));
  myprintf (n ++ [10]).
Fixpoint each {A} (f : A -> st screen unit) (l : list A) : st screen unit :=
  match l with
  | [] => mret tt
  | x :: r => f x;; each f r
  end.
(** The part of [main] after the file has been read; the heading is printed with
    [printf] itself and leaves [column] alone. *)
Definition heading : list Z :=
  txt "External Symbols:" ++ [10] ++ txt "Value" ++ [9] ++ txt " Type" ++ [9; 9] ++ txt "Storage Class" ++ [9] ++ txt "Name" ++ [10].
Definition out_main (secs : list section_) (iextMax : Z) : st screen unit :=
  each print_section secs;;
  (fun s => Ok (tt, mkScreen (column s) (printed s ++ heading)));;
  each print_symbol (take (Z.to_nat (Z.min MAXSYMS iextMax)) symbols).
End out.

(** ** bin/out.c: reading the file *)

Definition MAXSCNS : Z := 10.
Definition MAXDATA : Z := 10000.
Definition MAXRELOCS : Z := 1000.
Definition little_endian_magic : Z := 354.
Record section_header := mkScnhdr { h_name : list Z; h_size : Z; h_vaddr : Z; h_scnptr : Z; h_relptr : Z; h_nreloc : Z }.
(** What the structures of the system headers hold, once read: the magic number, the
    section headers ([f_nscns] of them) and the counts of the symbolic header. *)
Record object := mkObject {
  f_magic : Z; f_nscns : Z; scnhdrs : list section_header; iextMax : Z; issExtMax : Z; cbSsExtOffset : Z }.

Section reading.
(** The bytes of the file; the relocations at an offset and the external symbols are
    structures of the system headers. *)
Context (exe : list Z) (relocs_at : Z -> Z -> list reloc) (externals : list SYMR).

(** [s_size > MAXDATA * sizeof(long)] compares as [unsigned]. *)
Definition too_big (h : section_header) : bool :=
  (4 * MAXDATA <? to_uint (h_size h)) && negb (h_scnptr h =? 0) || (MAXRELOCS <? h_nreloc h).
(** A static array of [n] elements into which [l] has been read. *)
Definition array {A} (n : Z) (zero : A) (l : list A) : list A := take (Z.to_nat n) (l ++ replicate (Z.to_nat n) zero).
(** [fread] of [n] words; what lies behind the end of the file stays 0. *)
Definition words_at (pos n : Z) : list Z :=
  (fun j => to_int (le_value (slice (pos + 4 * j) 4 exe))) <$> seqZ 0 n.
Definition read_section (h : section_header) : section_ :=
  if h_scnptr h =? 0 then mkSection (h_name h) (h_size h) (h_vaddr h) [] []
  else mkSection (h_name h) (h_size h) (h_vaddr h) (words_at (h_scnptr h) (Z.quot (h_size h) 4)) (relocs_at (h_relptr h) (h_nreloc h)).
Definition out_read (o : object) : res (list section_ * list SYMR * list Z) :=
  if negb (f_magic o =? little_endian_magic) then Halted
  else if MAXSCNS <? f_nscns o then Halted
  else if existsb too_big (scnhdrs o) then Halted
  else if MAXSSPACE <? issExtMax o then Halted
  else if issExtMax o <? 0 then UB
  else Ok (read_section <$> scnhdrs o, array MAXSYMS (mkSYMR 0 0 0 0) (take (Z.to_nat (Z.min MAXSYMS (iextMax o))) externals),
           array MAXSSPACE 0 (slice (cbSsExtOffset o) (issExtMax o) exe)).
Definition out (o : object) : st screen unit :=
  a ← lift (out_read o); let '(secs, symbols, sspace) := a in out_main symbols sspace secs (iextMax o).

(** What has been read fits in the arrays. *)
Lemma read_section_fits h : (forall p n, zlen (relocs_at p n) <= Z.max 0 n) -> is_int (h_size h) -> too_big h = false ->
  zlen (data (read_section h)) <= MAXDATA /\ zlen (relocs (read_section h)) <= MAXRELOCS.
Proof.
  intros Hrel Hi Hb. unfold too_big in Hb. apply orb_false_iff in Hb as [Hsz Hnr%Z.ltb_ge]. unfold read_section.
  destruct (h_scnptr h =? 0); [by cbn|]. cbn [data relocs andb negb] in *. rewrite andb_true_r in Hsz. apply Z.ltb_ge in Hsz.
  split; [|specialize (Hrel (h_relptr h) (h_nreloc h)); unfold MAXRELOCS in *; lia].
  unfold words_at, zlen. rewrite length_fmap, length_seqZ. unfold MAXDATA in *. unfold is_int, two31 in Hi.
  assert (0 <= h_size h) by (destruct (Z.ltb_spec (h_size h) 0); [unfold to_uint, two32 in Hsz; lia_mod|done]).
  rewrite to_uint_id in Hsz by (unfold is_uint, two32; lia). rewrite Z.quot_div_nonneg by lia. lia_mod.
Qed.
Lemma zlen_array {A} n (zero : A) l : 0 <= n -> zlen (array n zero l) = n.
Proof. intros. unfold array, zlen. rewrite length_take, length_app, length_replicate. lia. Qed.
Lemma out_read_fits o secs symbols sspace :
  (forall p n, zlen (relocs_at p n) <= Z.max 0 n) -> zlen (scnhdrs o) = Z.max 0 (f_nscns o) -> Forall (fun h => is_int (h_size h)) (scnhdrs o) ->
  out_read o = Ok (secs, symbols, sspace) ->
  zlen secs <= MAXSCNS /\ Forall (fun sec => zlen (data sec) <= MAXDATA /\ zlen (relocs sec) <= MAXRELOCS) secs /\
  zlen symbols = MAXSYMS /\ zlen sspace = MAXSSPACE.
Proof.
  intros Hrel Hn Hint. unfold out_read. destruct (negb _); [done|]. destruct (Z.ltb_spec MAXSCNS (f_nscns o)) as [|Hs]; [done|].
  destruct (existsb too_big (scnhdrs o)) eqn:Eb; [done|]. destruct (MAXSSPACE <? _); [done|]. destruct (_ <? 0); [done|].
  intros [= <- <- <-]. unfold zlen at 1. rewrite length_fmap. fold (zlen (scnhdrs o)). split; [unfold MAXSCNS in *; lia|].
  split_and!; [|by apply zlen_array|by apply zlen_array]. apply Forall_fmap. rewrite list.Forall_forall in *. intros h Hh.
  apply read_section_fits; [done|by apply Hint|]. apply not_true_iff_false. intros Ht.
  apply (eq_true_false_abs _ (proj2 (existsb_exists _ _) (ex_intro _ h (conj (proj1 (list_elem_of_In _ _) Hh) Ht))) Eb).
Qed.
End reading.

(** ** Reading an instruction back *)

(** The words of a line, cut at tabs, commas and parentheses. *)
Definition is_sep (c : Z) : bool := (c =? 9) || (c =? 44) || (c =? 40) || (c =? 41).
Fixpoint tokens (l : list Z) : list (list Z) :=
  match l with
  | [] => [[]]
  | c :: r =>
      if is_sep c then [] :: tokens r
      else match tokens r with t :: ts => (c :: t) :: ts | [] => [[c]] end
  end.
Definition index_of (l : list string) (t : list Z) : option Z := Z.of_nat ∘ fst <$> list_find (fun w => txt w = t) l.
Definition register (t : list Z) : option Z := index_of regstrings t.
Definition hex_step (v c : Z) : Z := v * 16 + (if c <? 58 then c - 48 else c - 87).
Definition hex_value (l : list Z) : Z := foldl hex_step 0 l.

(** The instruction with these fields, and an instruction with an immediate. *)
Definition word_r (rs rt rd shamt funct : Z) : Z := to_int (rs * 2 ^ 21 + rt * 2 ^ 16 + rd * 2 ^ 11 + shamt * 2 ^ 6 + funct).
Definition word_i (op rs rt imm : Z) : Z := to_int (op * 2 ^ 26 + rs * 2 ^ 21 + rt * 2 ^ 16 + imm mod 65536).
Definition word_j (op target : Z) : Z := to_int (op * 2 ^ 26 + target mod 2 ^ 28 / 4).
Definition branch_imm (pc target : Z) : Z := to_int (target - pc - 4) / 4.

Definition assemble_special (f : Z) (ops : list (list Z)) : option Z :=
  match special_case f, ops with
  | RdRtShamt, [d; t; n] => d ← register d; t ← register t; Some (word_r 0 t d (hex_value (drop 2 n)) f)
  | RdRtRs, [d; t; s] => d ← register d; t ← register t; s ← register s; Some (word_r s t d 0 f)
  | RsOnly, [s] => s ← register s; Some (word_r s 0 0 0 f)
  | RdOnly, [d] => d ← register d; Some (word_r 0 0 d 0 f)
  | RsRt, [s; t] => s ← register s; t ← register t; Some (word_r s t 0 0 f)
  | RdRsRt, [d; s; t] => d ← register d; s ← register s; t ← register t; Some (word_r s t d 0 f)
  | NoOperands, [[]] => Some (word_r 0 0 0 0 f)
  | _, _ => None
  end.
Definition assemble_normal (pc op : Z) (ops : list (list Z)) : option Z :=
  match normal_case op, ops with
  | Target, [a] => Some (word_j op (hex_value a))
  | RtRsOffset, [t; s; a] => t ← register t; s ← register s; Some (word_i op s t (branch_imm pc (hex_value a)))
  | RtRsImmed, [t; s; n] => t ← register t; s ← register s; Some (word_i op s t (hex_value (drop 2 n)))
  | RtImmed, [t; n] => t ← register t; Some (word_i op 0 t (hex_value (drop 2 n)))
  | RtOffsetRs, [t; n; s; []] => t ← register t; s ← register s; Some (word_i op s t (hex_value (drop 2 n)))
  | _, _ => None
  end.
Definition bcondops : list string := ["bltz"; "bgez"; "bltzal"; "bgezal"]%string.
Definition assemble (pc : Z) (line : list (list Z)) : option Z :=
  match line with
  | [m] => if decide (m = txt "nop") then Some 0 else None
  | m :: ops =>
      match index_of specialops m, index_of bcondops m, ops with
      | Some f, _, _ => assemble_special f ops
      | None, Some k, [s; a] => s ← register s; Some (word_i 1 s (nth (Z.to_nat k) [0; 1; 16; 17] 0) (branch_imm pc (hex_value a)))
      | None, _, _ => op ← index_of normalops m; assemble_normal pc op ops
      end
  | [] => None
  end.
(** The part of a line behind address and code. *)
Definition assembly (line : list Z) : list (list Z) := tokens (drop 21 line).

(** The instructions whose operands are all printed: the fields that are not
    shown are 0. *)
Definition readable (v : Z) : bool :=
  let op := Z.shiftr (to_uint v) 26 in
  if v =? 0 then true
  else if op =? 0 then
    match special_case (Z.land v 63) with
    | RdRtShamt => I.rs v =? 0
    | RdRtRs | RdRsRt => I.shamt v =? 0
    | RsOnly => (I.rt v =? 0) && (I.rd v =? 0) && (I.shamt v =? 0)
    | RdOnly => (I.rs v =? 0) && (I.rt v =? 0) && (I.shamt v =? 0)
    | RsRt => (I.rd v =? 0) && (I.shamt v =? 0)
    | NoOperands => (I.rs v =? 0) && (I.rt v =? 0) && (I.rd v =? 0) && (I.shamt v =? 0)
    end
  else if op =? 1 then bool_decide (I.rt v ∈ [0; 1; 16; 17])
  else
    match normal_case op with
    | RtImmed => I.rs v =? 0
    | NoOperandsI => false
    | _ => true
    end.

(** *** Words *)

Lemma tokens_ne l : tokens l <> [].
Proof. destruct l as [|c r]; [done|]. simpl. destruct (is_sep c); [done|]. by destruct (tokens r). Qed.
Definition plain (l : list Z) : Prop := Forall (fun c => is_sep c = false) l.
Lemma tokens_word a : plain a -> tokens a = [a].
Proof. induction 1 as [|c a Hc Ha IH]; [done|]. simpl. by rewrite Hc, IH. Qed.
Lemma tokens_cut a c r : plain a -> is_sep c = true -> tokens (a ++ c :: r) = a :: tokens r.
Proof. intros Ha Hc. induction Ha as [|x a Hx Ha IH]; simpl; [by rewrite Hc|]. by rewrite Hx, IH. Qed.
Lemma tokens_comma a r : plain a -> tokens (a ++ comma ++ r) = a :: tokens r.
Proof. intros. by apply tokens_cut. Qed.

(** The tables, checked entry by entry. *)
Definition names_ok (l : list string) : bool :=
  forallb (fun i => bool_decide (plain (entry l i) /\ index_of l (entry l i) = Some i)) (seqZ 0 (zlen l)).
#[export] Instance plain_dec l : Decision (plain l).
Proof. unfold plain. apply _. Defined.
Lemma table_entry l i : names_ok l = true -> 0 <= i < zlen l -> plain (entry l i) /\ index_of l (entry l i) = Some i.
Proof.
  unfold names_ok. rewrite forallb_forall. intros H Hi. specialize (H i).
  apply bool_decide_eq_true in H; [done|]. apply list_elem_of_In, elem_of_seqZ. lia.
Qed.
Lemma regstrings_ok : names_ok regstrings = true.
Proof. vm_compute. reflexivity. Qed.
Lemma specialops_ok : names_ok specialops = true.
Proof. vm_compute. reflexivity. Qed.
Lemma normalops_ok : names_ok normalops = true.
Proof. vm_compute. reflexivity. Qed.
(** No instruction with operands has the name of a special one or a branch. *)
Lemma normalops_apart :
  forallb (fun op => match normal_case op with NoOperandsI => true | _ =>
    bool_decide (index_of specialops (entry normalops op) = None /\ index_of bcondops (entry normalops op) = None) end) (seqZ 0 64) = true.
Proof. vm_compute. reflexivity. Qed.

(** *** Numbers *)

Lemma hex_digit_spec d : 0 <= d < 16 ->
  is_sep (hex_digit d) = false /\ (if hex_digit d <? 58 then hex_digit d - 48 else hex_digit d - 87) = d /\
  48 <= hex_digit d <= 102 /\ (hex_digit d = 48 <-> d = 0).
Proof.
  intros Hd. unfold hex_digit. destruct (Z.ltb_spec d 10).
  - rewrite (proj2 (Z.ltb_lt _ _)) by lia. unfold is_sep. rewrite !(proj2 (Z.eqb_neq _ _)) by lia. split_and!; try done; lia.
  - rewrite (proj2 (Z.ltb_ge _ _)) by lia. unfold is_sep. rewrite !(proj2 (Z.eqb_neq _ _)) by lia. split_and!; try done; lia.
Qed.
Lemma hex_low_plain k : forall n, plain (hex_low k n).
Proof.
  induction k as [|k IH]; intros n; [by constructor|]. simpl. apply Forall_app. split; [apply IH|].
  apply Forall_singleton. apply hex_digit_spec. lia_mod.
Qed.
Lemma hex_low_value k : forall n, 0 <= n < 16 ^ Z.of_nat k -> hex_value (hex_low k n) = n.
Proof.
  induction k as [|k IH]; intros n Hn; simpl.
  - simpl in Hn. change (hex_value []) with 0. lia.
  - rewrite Nat2Z.inj_succ, Z.pow_succ_r in Hn by lia. unfold hex_value. rewrite foldl_app. fold (hex_value (hex_low k (n / 16))).
    rewrite IH by lia_mod. cbn [foldl]. unfold hex_step. destruct (hex_digit_spec (n mod 16)) as (_ & -> & _); lia_mod.
Qed.
Lemma length_hex_low k : forall n, length (hex_low k n) = k.
Proof. induction k as [|k IH]; intros n; simpl; [done|]. rewrite length_app, IH. simpl. lia. Qed.
Lemma strip_zeros_spec l : (plain l -> plain (strip_zeros l)) /\ foldl hex_step 0 (strip_zeros l) = foldl hex_step 0 l /\
  (length (strip_zeros l) <= length l)%nat.
Proof.
  induction l as [|c r (IH1 & IH2 & IH3)]; [done|]. simpl. destruct (Z.eqb_spec c 48) as [->|Hc]; cbn [andb]; [|done].
  destruct (bool_decide_reflect (r = [])) as [->|Hr]; cbn [negb]; [done|]. split_and!; [|exact IH2|lia].
  intros H. apply IH1. by inversion H.
Qed.
Lemma x08_plain v : plain (x08 v).
Proof. apply hex_low_plain. Qed.
Lemma x08_value v : hex_value (x08 v) = to_uint v.
Proof. apply hex_low_value. pose proof (to_uint_range v) as Hr. unfold is_uint, two32 in Hr. change (16 ^ Z.of_nat 8) with 4294967296. lia. Qed.
Lemma zero_x_plain v : plain (zero_x ++ x_ v).
Proof. apply Forall_app. split; [by repeat constructor|]. apply strip_zeros_spec, x08_plain. Qed.
Lemma zero_x_value v : hex_value (drop 2 (zero_x ++ x_ v)) = to_uint v.
Proof. change (drop 2 (zero_x ++ x_ v)) with (x_ v). unfold hex_value, x_. rewrite (proj1 (proj2 (strip_zeros_spec _))). apply x08_value. Qed.

(** *** Fields *)

Lemma field_value v k : 0 <= k <= 27 -> Z.land (Z.shiftr v k) 31 = to_uint v / 2 ^ k mod 32.
Proof.
  intros Hk. change 31 with (Z.ones 5). rewrite <-(field_uint v k 5) by lia. rewrite Z.land_ones, Z.shiftr_div_pow2 by lia. done.
Qed.
Lemma funct_value v : Z.land v 63 = to_uint v mod 64.
Proof. change 63 with (Z.ones 6). rewrite <-(land_uint v 6) by lia. by rewrite Z.land_ones by lia. Qed.
Record fields (v op rs rt rd sh f : Z) : Prop := {
  fi_op : Z.shiftr (to_uint v) 26 = op;
  fi_rs : I.rs v = rs /\ 0 <= rs < 32;
  fi_rt : I.rt v = rt /\ 0 <= rt < 32;
  fi_rd : I.rd v = rd /\ 0 <= rd < 32;
  fi_sh : I.shamt v = sh /\ 0 <= sh < 32;
  fi_f : Z.land v 63 = f /\ 0 <= f < 64;
  fi_ops : 0 <= op < 64;
  fi_word : to_uint v = op * 2 ^ 26 + rs * 2 ^ 21 + rt * 2 ^ 16 + rd * 2 ^ 11 + sh * 2 ^ 6 + f
}.
Lemma split_fields v : exists op rs rt rd sh f, fields v op rs rt rd sh f.
Proof.
  exists (Z.shiftr (to_uint v) 26), (I.rs v), (I.rt v), (I.rd v), (I.shamt v), (Z.land v 63).
  pose proof (to_uint_range v) as Hr. unfold is_uint, two32 in Hr.
  split; unfold I.rs, I.rt, I.rd, I.shamt; rewrite ?field_value, ?funct_value, ?Z.shiftr_div_pow2 by lia;
    change (2 ^ 26) with 67108864; change (2 ^ 21) with 2097152; change (2 ^ 16) with 65536; change (2 ^ 11) with 2048; change (2 ^ 6) with 64;
    try done; lia_mod.
Qed.
Lemma immed_facts v : I.immed v mod 65536 = v mod 65536 /\ -32768 <= I.immed v < 32768.
Proof. exact (immed_mod (fun _ _ _ _ m => (0, m)) v). Qed.
Lemma word_r_fields v rs rt rd sh f : is_int v -> fields v 0 rs rt rd sh f -> word_r rs rt rd sh f = v.
Proof.
  intros Hv [_ _ _ _ _ _ _ E]. unfold word_r. transitivity (to_int (to_uint v)); [rewrite E; f_equal; lia|].
  rewrite to_int_to_uint. by apply to_int_id.
Qed.
Lemma word_i_fields v op rs rt rd sh f imm : is_int v -> fields v op rs rt rd sh f -> imm mod 65536 = I.immed v mod 65536 ->
  word_i op rs rt imm = v.
Proof.
  intros Hv [_ _ _ [_ Hd] [_ Hs] [_ Hf] _ E] Hi. unfold word_i. rewrite Hi, (proj1 (immed_facts v)).
  transitivity (to_int (to_uint v)); [|rewrite to_int_to_uint; by apply to_int_id]. f_equal.
  assert (v mod 65536 = to_uint v mod 65536) as -> by (unfold to_uint, two32; lia_mod). rewrite E.
  change (2 ^ 26) with 67108864. change (2 ^ 21) with 2097152. change (2 ^ 16) with 65536. change (2 ^ 11) with 2048. change (2 ^ 6) with 64.
  replace (op * 67108864 + rs * 2097152 + rt * 65536 + rd * 2048 + sh * 64 + f) with
    (rd * 2048 + sh * 64 + f + (op * 1024 + rs * 32 + rt) * 65536) by ring.
  rewrite Z.mod_add, Z.mod_small by lia. ring.
Qed.
Lemma to_uint_mod16 v : to_uint v mod 65536 = v mod 65536.
Proof. unfold to_uint, two32. lia_mod. Qed.
Lemma branch_imm_back v pc : branch_imm pc (to_uint (off16 v + pc + 4)) = I.immed v.
Proof.
  unfold branch_imm, off16. pose proof (proj2 (immed_facts v)) as Hi. rewrite Z.shiftl_mul_pow2 by lia. change (2 ^ 2) with 4.
  rewrite (to_int_id (I.immed v * 4)) by (unfold_int; lia).
  assert (to_int (to_uint (I.immed v * 4 + pc + 4) - pc - 4) = I.immed v * 4) as ->; [|by rewrite Z.div_mul by lia].
  rewrite <-(to_int_id (I.immed v * 4)) at 2 by (unfold_int; lia). unfold to_uint, to_int, two31, two32. lia_mod.
Qed.
Lemma jump_back pc v : to_uint (Z.lor (top4 pc) (off26 v)) mod 2 ^ 28 / 4 = to_uint v mod 2 ^ 26.
Proof.
  assert (forall x, to_uint x mod 2 ^ 28 = x mod 2 ^ 28) as -> by (intros; unfold to_uint, two32; change (2 ^ 28) with 268435456; lia_mod).
  rewrite <-Z.land_ones, Z.land_lor_distr_l by lia. unfold top4. change 268435455 with (Z.ones 28).
  rewrite <-Z.land_assoc, (Z.land_comm (Z.lnot _)), Z.land_lnot_diag, Z.land_0_r, Z.lor_0_l, Z.land_ones by lia.
  unfold off26. change 67108863 with (Z.ones 26). rewrite Z.land_ones, Z.shiftl_mul_pow2 by lia.
  change (2 ^ 28) with 268435456. change (2 ^ 26) with 67108864. change (2 ^ 2) with 4. unfold to_uint, two32. lia_mod.
Qed.

(** *** Lines *)

Lemma concat_pieces a b c : concat ([a; b] ++ c) = a ++ b ++ concat (c : list (list Z)).
Proof. done. Qed.
Lemma assembly_line v pc rest :
  assembly (concat ([x08 pc ++ txt ": " ++ x08 v ++ txt "  "; [9]] ++ rest)) = tokens (concat rest).
Proof.
  unfold assembly. rewrite concat_pieces, app_assoc. generalize (concat rest). intros l. f_equal.
Qed.
Lemma name_back i : 0 <= i < 32 -> plain (Rname i) /\ register (Rname i) = Some i.
Proof. intros Hi. by apply (table_entry regstrings i regstrings_ok). Qed.
Lemma assemble_cons pc m ops : ops <> [] ->
  assemble pc (m :: ops) = match index_of specialops m, index_of bcondops m, ops with
    | Some f, _, _ => assemble_special f ops
    | None, Some k, [s; a] => s ← register s; Some (word_i 1 s (nth (Z.to_nat k) [0; 1; 16; 17] 0) (branch_imm pc (hex_value a)))
    | None, _, _ => op ← index_of normalops m; assemble_normal pc op ops
    end.
Proof. by destruct ops. Qed.
Lemma tokens_name l i r : names_ok l = true -> 0 <= i < zlen l -> tokens ((entry l i ++ [9]) ++ r) = entry l i :: tokens r.
Proof. intros Hl Hi. rewrite <-app_assoc. apply tokens_cut; [by apply table_entry|done]. Qed.

(** Reads the registers of a list of operands. *)
Ltac read_names :=
  repeat match goal with
  | |- context [tokens (Rname ?i ++ comma ++ _)] => rewrite (tokens_comma (Rname i)) by (apply name_back; lia)
  | |- context [tokens (Rname ?i)] => rewrite (tokens_word (Rname i)) by (apply name_back; lia)
  | |- context [tokens (zero_x ++ x_ ?v)] => rewrite (tokens_word (zero_x ++ x_ v)) by apply zero_x_plain
  | |- context [tokens (x08 ?v)] => rewrite (tokens_word (x08 v)) by apply x08_plain
  end;
  cbv beta iota;
  repeat match goal with
  | |- context [register (Rname ?i)] => rewrite (proj2 (name_back i ltac:(lia))); cbn [mbind option_bind]
  end;
  rewrite ?zero_x_value, ?x08_value.

Lemma special_back v pc rs rt rd sh f :
  is_int v -> v <> 0 -> readable v = true -> fields v 0 rs rt rd sh f ->
  assemble pc (tokens (concat [entry specialops f ++ [9]; special_text v])) = Some v.
Proof.
  intros Hv H0 Hr Hf. pose proof Hf as [Hop [Ers Hrs] [Ert Hrt] [Erd Hrd] [Esh Hsh] [Ef Hff] _ _].
  unfold readable in Hr. rewrite Hop, (proj2 (Z.eqb_neq v 0)) in Hr by done. cbn [Z.eqb] in Hr.
  cbn [concat]. rewrite app_nil_r, tokens_name by (done || apply specialops_ok).
  rewrite assemble_cons by apply tokens_ne. rewrite (proj2 (table_entry specialops f specialops_ok Hff)).
  unfold special_text, assemble_special. rewrite Ef in *. rewrite Ers, Ert, Erd, Esh in *.
  destruct (special_case f); read_names.
  - apply Z.eqb_eq in Hr as ->. rewrite to_uint_id by (unfold is_uint, two32; lia). by rewrite (word_r_fields v 0 rt rd sh f).
  - apply Z.eqb_eq in Hr as ->. by rewrite (word_r_fields v rs rt rd 0 f).
  - rewrite !andb_true_iff, !Z.eqb_eq in Hr. destruct Hr as [[-> ->] ->]. by rewrite (word_r_fields v rs 0 0 0 f).
  - rewrite !andb_true_iff, !Z.eqb_eq in Hr. destruct Hr as [[-> ->] ->]. by rewrite (word_r_fields v 0 0 rd 0 f).
  - rewrite !andb_true_iff, !Z.eqb_eq in Hr. destruct Hr as [-> ->]. by rewrite (word_r_fields v rs rt 0 0 f).
  - apply Z.eqb_eq in Hr as ->. by rewrite (word_r_fields v rs rt rd 0 f).
  - rewrite !andb_true_iff, !Z.eqb_eq in Hr. destruct Hr as [[[-> ->] ->] ->]. cbn. by rewrite (word_r_fields v 0 0 0 0 f).
Qed.
Lemma bcond_back v pc rs rt rd sh f :
  is_int v -> v <> 0 -> readable v = true -> fields v 1 rs rt rd sh f ->
  assemble pc (tokens (concat [bcond_name rt; [9] ++ Rname rs ++ comma ++ x08 (off16 v + pc + 4)])) = Some v.
Proof.
  intros Hv H0 Hr Hf. pose proof Hf as [Hop [Ers Hrs] [Ert Hrt] _ _ _ _ _].
  unfold readable in Hr. rewrite Hop, (proj2 (Z.eqb_neq v 0)), Ert in Hr by done. cbn [Z.eqb] in Hr.
  apply bool_decide_eq_true in Hr.
  assert (exists k m, bcond_name rt = m /\ plain m /\ index_of specialops m = None /\ index_of bcondops m = Some k /\
    nth (Z.to_nat k) [0; 1; 16; 17] 0 = rt) as (k & m & -> & Hm & H1 & H2 & H3).
  { repeat (apply elem_of_cons in Hr as [->|Hr]);
      [exists 0, (txt "bltz")|exists 1, (txt "bgez")|exists 2, (txt "bltzal")|exists 3, (txt "bgezal")|by apply elem_of_nil in Hr];
      (split; [done|]; split; [by repeat constructor|done]). }
  cbn [concat]. rewrite app_nil_r. change (m ++ [9] ++ ?r) with (m ++ 9 :: r). rewrite tokens_cut by done.
  rewrite assemble_cons by apply tokens_ne. rewrite H1, H2. read_names.
  rewrite branch_imm_back, H3. by rewrite (word_i_fields v 1 rs rt rd sh f).
Qed.
Lemma normal_apart op : 0 <= op < 64 -> normal_case op <> NoOperandsI ->
  index_of specialops (entry normalops op) = None /\ index_of bcondops (entry normalops op) = None.
Proof.
  intros Ho Hn. pose proof normalops_apart as H. rewrite forallb_forall in H. specialize (H op).
  rewrite <-list_elem_of_In, elem_of_seqZ in H. specialize (H ltac:(lia)). destruct (normal_case op); try done; by apply bool_decide_eq_true in H.
Qed.
Lemma word_j_fields v op rs rt rd sh f t : is_int v -> fields v op rs rt rd sh f -> t mod 2 ^ 28 / 4 = to_uint v mod 2 ^ 26 -> word_j op t = v.
Proof.
  intros Hv [Hop _ _ _ _ _ _ _] Ht. unfold word_j. rewrite Ht. transitivity (to_int (to_uint v)); [|rewrite to_int_to_uint; by apply to_int_id].
  f_equal. rewrite <-Hop, Z.shiftr_div_pow2 by lia. change (2 ^ 26) with 67108864. lia_mod.
Qed.
Lemma normal_back v pc op rs rt rd sh f :
  is_int v -> v <> 0 -> op <> 0 -> op <> 1 -> readable v = true -> fields v op rs rt rd sh f ->
  assemble pc (tokens (concat [entry normalops op ++ [9]; normal_text op v pc])) = Some v.
Proof.
  intros Hv H0 H1 H2 Hr Hf. pose proof Hf as [Hop [Ers Hrs] [Ert Hrt] _ _ _ Hops _].
  unfold readable in Hr. rewrite Hop, (proj2 (Z.eqb_neq v 0)), (proj2 (Z.eqb_neq op 0)), (proj2 (Z.eqb_neq op 1)) in Hr by done.
  cbn [concat]. rewrite app_nil_r, tokens_name by (done || apply normalops_ok). rewrite assemble_cons by apply tokens_ne.
  destruct (normal_apart op Hops) as [-> ->]; [by destruct (normal_case op)|].
  rewrite (proj2 (table_entry normalops op normalops_ok Hops)). cbn [mbind option_bind].
  unfold normal_text, assemble_normal. rewrite Ers, Ert in *. destruct (normal_case op); try done; read_names.
  - by rewrite (word_j_fields v op rs rt rd sh f) by (done || apply jump_back).
  - by rewrite branch_imm_back, (word_i_fields v op rs rt rd sh f).
  - by rewrite (word_i_fields v op rs rt rd sh f) by (done || apply to_uint_mod16).
  - apply Z.eqb_eq in Hr as ->. by rewrite (word_i_fields v op 0 rt rd sh f) by (done || apply to_uint_mod16).
  - rewrite (app_assoc zero_x). cbn [app]. rewrite (tokens_cut (zero_x ++ x_ _)), tokens_cut; try done;
      [|apply name_back; lia|apply zero_x_plain].
    cbn [tokens]. read_names. by rewrite (word_i_fields v op rs rt rd sh f) by (done || apply to_uint_mod16).
Qed.

(** C25. The disassembler prints the instruction.  For every instruction word whose
    operands it prints (shifts, arithmetic, loads, stores, immediates, branches,
    jumps, multiplications, system calls; the fields that are not printed must be
    0), at every address, the text behind the address and the code determines the
    word: a reader that knows the tables of names and the order of the operands gets
    back exactly the instruction, its registers, shift count, immediate and branch
    or jump target. *)
Theorem disassembly_roundtrip (v pc : Z) :
  is_int v -> readable v = true -> assemble pc (assembly (concat (dump_ascii v pc))) = Some v.
Proof.
  intros Hv Hr. unfold dump_ascii. cbv zeta. rewrite assembly_line. destruct (Z.eqb_spec v 0) as [->|H0]; [done|].
  destruct (split_fields v) as (op & rs & rt & rd & sh & f & Hf). pose proof Hf as [Hop [Ers _] [Ert _] _ _ [Ef _] _ _].
  rewrite Hop, Ef, Ers, Ert. destruct (Z.eqb_spec op 0) as [->|Hop0]; [by eapply special_back|].
  destruct (Z.eqb_spec op 1) as [->|Hop1]; [by eapply bcond_back|]. by eapply normal_back.
Qed.
(** lw r31,0x14(sp) *)
Lemma disassembly_roundtrip_witness :
  concat (dump_ascii (to_int 2411659284) 4096) = txt "00001000: 8fbf0014  " ++ [9] ++ txt "lw" ++ [9] ++ txt "r31,0x14(sp)" /\
  assemble 4096 (assembly (concat (dump_ascii (to_int 2411659284) 4096))) = Some (to_int 2411659284).
Proof.
  split; [vm_compute; reflexivity|]. apply (disassembly_roundtrip (to_int 2411659284) 4096).
  - apply to_int_range.
  - vm_compute. reflexivity.
Defined.

(** Operands that are not printed, or not the right ones: mflo r2 shows register
    0 (it prints rs), mthi r5 shows register 0 (it prints rd), and blez r4 shows no
    operands. *)
Lemma operands_lost :
  concat (drop 2 (dump_ascii 4114 0)) = txt "mflo" ++ [9] ++ txt "0" /\
  concat (drop 2 (dump_ascii 10485777 0)) = txt "mthi" ++ [9] ++ txt "0" /\
  concat (drop 2 (dump_ascii 411041794 0)) = txt "blez" ++ [9].
Proof. split_and!; vm_compute; reflexivity. Qed.

(** ** The listing *)

(** At most [n] characters, no tab and no line end. *)
Definition fits (l : list Z) (n : Z) : Prop := Forall (fun c => c <> 9 /\ c <> 10) l /\ zlen l <= n.
#[export] Instance fits_dec l n : Decision (fits l n).
Proof. unfold fits. apply _. Defined.
Lemma fits_app a b n m k : fits a n -> fits b m -> n + m <= k -> fits (a ++ b) k.
Proof. intros [Ha Hn] [Hb Hm] Hk. split; [by apply Forall_app|]. rewrite zlen_app. lia. Qed.
Lemma fits_le a n m : fits a n -> n <= m -> fits a m.
Proof. intros [Ha Hn] Hm. split; [done|lia]. Qed.
Lemma columns l : forall col n, fits l n -> foldl next_column col l = col + zlen l.
Proof.
  induction l as [|c l IH]; intros col n [Hl Hn]; [simpl; rewrite zlen_nil; lia|]. inversion Hl as [|? ? [H9 H10] Hl']; subst.
  simpl. rewrite (IH _ (zlen l)) by (split; [done|lia]). unfold next_column. rewrite (proj2 (Z.eqb_neq c 10)), (proj2 (Z.eqb_neq c 9)) by done.
  rewrite zlen_cons. lia.
Qed.
Lemma entry_fits l n i :
  forallb (fun w => bool_decide (fits (txt w) n)) l = true -> 0 <= n -> fits (entry l i) n.
Proof.
  intros H Hn. unfold entry. rewrite forallb_forall in H. destruct (nth_in_or_default (Z.to_nat i) l EmptyString) as [Hin| ->].
  - by apply H, bool_decide_eq_true in Hin.
  - split; [constructor|done].
Qed.
Lemma Rname_fits i : fits (Rname i) 3.
Proof. by apply entry_fits; [vm_compute; reflexivity|]. Qed.
Lemma hex_low_fits k : forall n, fits (hex_low k n) (Z.of_nat k).
Proof.
  intros n. split; [|unfold zlen; by rewrite length_hex_low]. revert n. induction k as [|k IH]; intros n; [constructor|]. simpl.
  apply Forall_app. split; [apply IH|]. apply Forall_singleton. destruct (hex_digit_spec (n mod 16)) as (_ & _ & H & _); [lia_mod|]. lia.
Qed.
Lemma x08_fits v : fits (x08 v) 8.
Proof. apply (hex_low_fits 8). Qed.
Lemma strip_fits l n : fits l n -> fits (strip_zeros l) n.
Proof.
  revert n. induction l as [|c r IH]; intros n Hl; [done|]. simpl. destruct (_ && _); [|done]. apply IH. destruct Hl as [Hl Hn].
  rewrite zlen_cons in Hn. split; [by inversion Hl|lia].
Qed.
Lemma x_fits v : fits (x_ v) 8.
Proof. apply strip_fits, x08_fits. Qed.
Lemma fits_cat a b n m : fits a n -> fits b m -> fits (a ++ b) (n + m).
Proof. intros Ha Hb. by eapply fits_app. Qed.
Lemma fits_known l : forallb (fun c => negb (c =? 9) && negb (c =? 10)) l = true -> fits l (zlen l).
Proof.
  intros H. split; [|done]. rewrite forallb_forall in H. apply list.Forall_forall. intros c Hc%list_elem_of_In%H.
  apply andb_true_iff in Hc as [?%negb_true_iff%Z.eqb_neq ?%negb_true_iff%Z.eqb_neq]. done.
Qed.
Ltac fit :=
  lazymatch goal with
  | |- fits (Rname _) _ => apply Rname_fits
  | |- fits (x08 _) _ => apply x08_fits
  | |- fits (x_ _) _ => apply x_fits
  | |- fits (_ ++ _) _ => apply fits_cat; fit
  | |- fits _ _ => apply fits_known; reflexivity
  end.
Lemma special_text_fits v : fits (special_text v) 24.
Proof. unfold special_text. destruct (special_case _); (eapply fits_le; [fit|vm_compute; congruence]). Qed.
Lemma normal_text_fits op v pc : fits (normal_text op v pc) 24.
Proof. unfold normal_text. destruct (normal_case _); (eapply fits_le; [fit|vm_compute; congruence]). Qed.
Lemma tab_stop col : next_column col 9 = (col + 7) / 8 * 8 + 1.
Proof.
  unfold next_column. cbn [Z.eqb Pos.eqb]. f_equal. change (Z.land (col + 7) (Z.lnot 7)) with (Z.land (col + 7) (Z.lnot (Z.ones 3))).
  rewrite <-Z.ldiff_land, Z.ldiff_ones_r, Z.shiftr_div_pow2, Z.shiftl_mul_pow2 by lia. done.
Qed.
Lemma print_all_ok l : forall s, Forall (fun t => zlen t < 100) l ->
  print_all l s = Ok (tt, mkScreen (foldl next_column (column s) (concat l)) (printed s ++ concat l)).
Proof.
  induction l as [|t l IH]; intros s Hl; [simpl; rewrite app_nil_r; by destruct s|]. inversion Hl; subst. cbn [print_all].
  rewrite (st_bind_Ok (myprintf t) _ s tt (mkScreen (foldl next_column (column s) t) (printed s ++ t)))
    by (unfold myprintf; by rewrite (proj2 (Z.ltb_lt _ _)) by done).
  rewrite IH by done. cbn [column printed concat]. by rewrite foldl_app, app_assoc.
Qed.
(** A name, a tab and operands, from the tab stop at column 25. *)
Lemma two_columns a b : fits a 7 -> fits b 24 -> 33 <= foldl next_column 25 (a ++ [9] ++ b) <= 57.
Proof.
  intros Ha Hb. rewrite !foldl_app. rewrite (columns a 25 7 Ha). cbn [foldl]. pose proof (proj2 Ha). pose proof (zlen_nonneg a).
  rewrite tab_stop. replace ((25 + zlen a + 7) / 8 * 8 + 1) with 33 by lia_mod. rewrite (columns b 33 24 Hb).
  pose proof (proj2 Hb). pose proof (zlen_nonneg b). lia.
Qed.
Lemma bcond_name_fits rt : fits (bcond_name rt) 7.
Proof.
  unfold bcond_name. repeat match goal with |- fits (match ?x with _ => _ end) _ => destruct x end;
    (eapply fits_le; [apply fits_known; reflexivity|vm_compute; congruence]).
Qed.
Lemma specialops_fits i : fits (entry specialops i) 7.
Proof. by apply entry_fits; [vm_compute; reflexivity|]. Qed.
Lemma normalops_fits i : fits (entry normalops i) 7.
Proof. by apply entry_fits; [vm_compute; reflexivity|]. Qed.

(** The text of an instruction: short pieces, on one line, that ends before
    column 57. *)
Definition one_line (col : Z) (t : list Z) : Prop := (10 ∉ t) /\ foldl next_column 1 t = col /\ 1 <= col <= 57.
Lemma fits_no_lf a n : fits a n -> 10 ∉ a.
Proof. intros [Ha _] Hin. rewrite list.Forall_forall in Ha. by destruct (Ha 10 Hin). Qed.
Lemma dump_tail v pc :
  exists a b, fits a 7 /\ fits b 24 /\
    ((drop 2 (dump_ascii v pc) = [a] /\ b = []) \/ drop 2 (dump_ascii v pc) = [a ++ [9]; b] \/ drop 2 (dump_ascii v pc) = [a; [9] ++ b]).
Proof.
  unfold dump_ascii. cbn [app drop]. destruct (v =? 0).
  { exists (txt "nop"), []. split; [by eapply fits_le; [apply fits_known; reflexivity|vm_compute; congruence]|].
    split; [by split; [constructor|]|]. by left. }
  destruct (_ =? 0); [|destruct (_ =? 1)].
  - exists (entry specialops (Z.land v 63)), (special_text v). split; [apply specialops_fits|]. split; [apply special_text_fits|]. right. by left.
  - exists (bcond_name (I.rt v)), (Rname (I.rs v) ++ comma ++ x08 (off16 v + pc + 4)). split; [apply bcond_name_fits|].
    split; [eapply fits_le; [fit|vm_compute; congruence]|]. right. by right.
  - exists (entry normalops (Z.shiftr (to_uint v) 26)), (normal_text (Z.shiftr (to_uint v) 26) v pc).
    split; [apply normalops_fits|]. split; [apply normal_text_fits|]. right. by left.
Qed.
Lemma dump_one_line v pc : Forall (fun t => zlen t < 100) (dump_ascii v pc) /\ exists col, one_line col (concat (dump_ascii v pc)).
Proof.
  set (h := x08 pc ++ txt ": " ++ x08 v ++ txt "  ").
  assert (fits h 20 /\ zlen h = 20) as [Hh Hhl].
  { split; [unfold h; eapply fits_le; [fit|vm_compute; congruence]|]. unfold h, x08, zlen. rewrite !length_app, !length_hex_low. done. }
  assert (dump_ascii v pc = h :: [9] :: drop 2 (dump_ascii v pc)) as Ed by done. rewrite Ed.
  destruct (dump_tail v pc) as (a & b & Ha & Hb & Hd). pose proof (proj2 Ha). pose proof (proj2 Hb).
  assert (foldl next_column 1 (h ++ [9]) = 25) as H25.
  { rewrite foldl_app, (columns h 1 20 Hh), Hhl. cbn [foldl]. by rewrite tab_stop. }
  pose proof (two_columns a b Ha Hb) as Htc. rewrite foldl_app, (columns a 25 7 Ha) in Htc.
  assert (10 ∉ h ++ [9] ++ a ++ [9] ++ b) as Hlf.
  { assert (10 ∉ [9]) as H9 by (intros [=]%list_elem_of_singleton). rewrite !not_elem_of_app.
    split_and!; [exact (fits_no_lf _ _ Hh)|exact H9|exact (fits_no_lf _ _ Ha)|exact H9|exact (fits_no_lf _ _ Hb)]. }
  assert (concat (h :: [9] :: drop 2 (dump_ascii v pc)) = (h ++ [9]) ++ a ++ [9] ++ b \/
          concat (h :: [9] :: drop 2 (dump_ascii v pc)) = (h ++ [9]) ++ a) as Hc.
  { destruct Hd as [[-> ->]|[->| ->]]; cbn [concat]; rewrite ?app_nil_r, <-?app_assoc; auto. }
  split.
  { constructor; [lia|]. constructor; [done|].
    destruct Hd as [[-> _]|[->| ->]]; repeat constructor; rewrite ?zlen_app; change (zlen [9]) with 1; lia. }
  destruct Hc as [->| ->].
  - exists (foldl next_column 25 (a ++ [9] ++ b)). split; [by rewrite <-app_assoc|]. rewrite foldl_app, H25. split; [done|].
    rewrite foldl_app, (columns a 25 7 Ha). lia.
  - exists (25 + zlen a). split; [rewrite <-app_assoc; rewrite !not_elem_of_app in *; tauto|]. rewrite foldl_app, H25, (columns a 25 7 Ha).
    pose proof (zlen_nonneg a). split; [done|lia].
Qed.

Lemma d_fits v : is_int v -> fits (d_ v) 11.
Proof.
  intros Hv. unfold d_. assert (fits (if v <? 0 then [45] else []) 1) as H1.
  { destruct (v <? 0); [by apply fits_known|by split; [constructor|]]. }
  refine (fits_app _ _ 1 10 11 H1 _ _); [|lia]. destruct (v =? 0); [by eapply fits_le; [apply fits_known; reflexivity|done]|].
  split; [|apply (Syscalls.zlen_dec_digits 10); lia]. eapply list.Forall_impl; [apply (Syscalls.dec_digits_range 10); lia|].
  intros c Hc. cbn in Hc. lia.
Qed.
Lemma shown_char_spec c : fits (shown_char c) 1 /\ zlen (shown_char c) = 1.
Proof.
  unfold shown_char. destruct ((32 <=? to_char c) && (to_char c <? 127)) eqn:E; [|split; [by apply fits_known|done]].
  apply andb_true_iff in E as [H1%Z.leb_le H2%Z.ltb_lt]. split; [|done]. split; [apply Forall_singleton; lia|done].
Qed.
Lemma myprintf_ok t s : zlen t < 100 -> myprintf t s = Ok (tt, mkScreen (foldl next_column (column s) t) (printed s ++ t)).
Proof. intros H. unfold myprintf. by rewrite (proj2 (Z.ltb_lt _ _)). Qed.

(** The text of a word of a section. *)
Lemma print_word_ok is_text word pc s : is_int word -> column s = 1 ->
  exists col text, print_word is_text word pc s = Ok (tt, mkScreen col (printed s ++ text)) /\ one_line col text.
Proof.
  intros Hw Hc. unfold print_word. destruct is_text.
  - destruct (dump_one_line word pc) as (Hp & col & Hl). rewrite print_all_ok, Hc by done. pose proof Hl as (_ & -> & _). eauto.
  - set (h := x08 pc ++ txt ": " ++ x08 word ++ txt "  ").
    assert (fits h 20 /\ zlen h = 20) as [Hh Hhl].
    { split; [unfold h; eapply fits_le; [fit|vm_compute; congruence]|]. unfold h, x08, zlen. rewrite !length_app, !length_hex_low. done. }
    rewrite (st_bind_Ok _ _ _ _ _ (myprintf_ok h s ltac:(lia))), Hc, (columns h 1 20 Hh), Hhl.
    set (cs := concat (shown_char <$> le32 word)).
    assert (fits cs 4 /\ zlen cs = 4) as [Hcs Hcl].
    { unfold cs, le32. cbn [fmap list_fmap concat]. rewrite app_nil_r. split.
      - repeat (eapply (fits_app _ _ 1); [apply shown_char_spec| |]); try apply shown_char_spec; try apply Z.le_refl; lia.
      - rewrite !zlen_app. by rewrite !(proj2 (shown_char_spec _)). }
    rewrite (st_bind_Ok _ _ _ tt (mkScreen 25 ((printed s ++ h) ++ cs))).
    2:{ rewrite print_all_ok; [|apply Forall_fmap, list.Forall_forall; intros c _; cbn; rewrite (proj2 (shown_char_spec c)); lia].
        fold cs. cbn [column printed]. rewrite (columns cs _ 4 Hcs), Hcl. done. }
    destruct (d_fits word Hw) as [Hd1 Hd2].
    rewrite myprintf_ok by (rewrite zlen_app; change (zlen [9]) with 1; lia). cbn [column printed].
    exists (33 + zlen (d_ word)), (h ++ cs ++ [9] ++ d_ word). rewrite foldl_app. cbn [foldl]. rewrite tab_stop.
    change ((25 + 7) / 8 * 8 + 1) with 33. rewrite (columns (d_ word) 33 11) by done. split; [by rewrite <-!app_assoc|].
    split; [|split; [|pose proof (zlen_nonneg (d_ word)); lia]].
    + rewrite !not_elem_of_app. split_and!; [exact (fits_no_lf _ _ Hh)|exact (fits_no_lf _ _ Hcs)|by intros [=]%list_elem_of_singleton|].
      exact (fits_no_lf (d_ word) 11 (conj Hd1 Hd2)).
    + rewrite foldl_app, (columns h 1 20 Hh), foldl_app, (columns cs _ 4 Hcs), Hhl, Hcl, foldl_app. cbn [foldl]. rewrite tab_stop.
      change ((1 + 20 + 4 + 7) / 8 * 8 + 1) with 33. by rewrite (columns (d_ word) 33 11).
Qed.
Lemma tab_loop_ok n : forall k s, column s + Z.of_nat k = n ->
  tab_loop k n s = mkScreen n (printed s ++ replicate k 32).
Proof.
  intros k. induction k as [|k IH]; intros s Hk; cbn [tab_loop replicate].
  - rewrite app_nil_r. destruct s as [c p]. cbn in *. f_equal. lia.
  - rewrite (proj2 (Z.ltb_lt _ _)) by lia. rewrite IH by (cbn; lia). cbn [printed]. by rewrite <-app_assoc.
Qed.
Lemma reloc_type_short i t : looked_up reloc_type i = Ok t -> fits t 6.
Proof.
  unfold looked_up. destruct (rd reloc_type i) as [w| | | |] eqn:E; cbn [mbind res_bind]; try done. intros [= <-].
  apply rd_Ok in E. unfold zget in E. case_decide; [|done]. apply list_elem_of_lookup_2 in E.
  assert (forallb (fun w => bool_decide (fits (txt w) 6)) reloc_type = true) as H6 by (vm_compute; reflexivity).
  rewrite forallb_forall in H6. apply list_elem_of_In, H6, bool_decide_eq_true in E. done.
Qed.

(** The lines of the listing.  Every word of a section, an instruction or a datum
    of any value at any address, is printed without overrunning the buffer of 100
    characters, on one line that ends before column 57; if no relocation refers to
    its address the line ends there, and if one does, its name (of less than 100
    characters) starts exactly in column 57, for the first such relocation. *)
Theorem listing_lines (symbols : list SYMR) (sspace : list Z) (sec : section_) (is_text : bool) (word pc : Z) (s : screen) :
  is_int word -> column s = 1 ->
  exists col text, print_word is_text word pc s = Ok (tt, mkScreen col (printed s ++ text)) /\ one_line col text /\
    (Forall (fun rp => r_vaddr rp <> pc) (relocs sec) ->
       print_reloc symbols sspace sec pc (mkScreen col (printed s ++ text)) = Ok (tt, mkScreen 1 (printed s ++ text ++ [10]))) /\
    (forall before rp after n t, relocs sec = before ++ rp :: after -> Forall (fun rp => r_vaddr rp <> pc) before -> r_vaddr rp = pc ->
       reloc_name symbols sspace rp = Ok n -> fits n 99 -> looked_up reloc_type (r_type rp) = Ok t ->
       print_reloc symbols sspace sec pc (mkScreen col (printed s ++ text)) =
         Ok (tt, mkScreen 1 (printed s ++ text ++ replicate (Z.to_nat (57 - col)) 32 ++ n ++ [32] ++ t ++ [10]))).
Proof.
  intros Hw Hc. destruct (print_word_ok is_text word pc s Hw Hc) as (col & text & E & Hl). exists col, text. split; [done|]. split; [done|].
  set (s1 := mkScreen col (printed s ++ text)).
  assert (forall l r s, Forall (fun rp => r_vaddr rp <> pc) l -> print_reloc_loop symbols sspace (l ++ r) pc s = print_reloc_loop symbols sspace r pc s) as Hskip.
  { intros l r s0 Hf. induction Hf as [|rp l Hrp Hf IH]; [done|]. cbn [app print_reloc_loop].
    by rewrite (proj2 (Z.eqb_neq pc (r_vaddr rp))), IH by congruence. }
  split.
  - intros Hno. unfold print_reloc. rewrite (st_bind_Ok _ _ _ tt s1) by (rewrite <-(app_nil_r (relocs sec)); by rewrite Hskip).
    rewrite myprintf_ok by done. cbn. by rewrite <-app_assoc.
  - intros before rp after n t Hr Hb Hv Hn Hfit Ht. unfold print_reloc. pose proof Hl as (_ & _ & Hcol).
    set (s2 := mkScreen 57 (printed s1 ++ replicate (Z.to_nat (57 - col)) 32)). pose proof (reloc_type_short _ _ Ht) as Hft.
    rewrite (st_bind_Ok _ _ _ tt (mkScreen (57 + zlen n + 1 + zlen t) ((printed s2 ++ n) ++ [32] ++ t))).
    + rewrite myprintf_ok by done. cbn. by rewrite <-!app_assoc.
    + rewrite Hr, Hskip by done. cbn [print_reloc_loop]. rewrite Hv, Z.eqb_refl.
      rewrite (st_bind_Ok (mytab 57) _ s1 true s2).
      2:{ unfold mytab. rewrite (tab_loop_ok 57) by (cbn; lia). done. }
      rewrite (lift_bind_Ok _ _ _ _ Hn), (st_bind_Ok _ _ _ _ _ (myprintf_ok n s2 ltac:(pose proof (proj2 Hfit); lia))).
      rewrite (lift_bind_Ok _ _ _ _ Ht), myprintf_ok by (rewrite zlen_app; change (zlen [32]) with 1; pose proof (proj2 Hft); lia).
      cbn [column printed s2]. rewrite (columns n 57 99 Hfit), (columns ([32] ++ t) _ 7).
      * do 3 f_equal. rewrite zlen_app. change (zlen [32]) with 1. lia.
      * eapply (fits_app _ _ 1 6); [by apply fits_known|done|lia].
Qed.
Definition sample_section : section_ :=
  mkSection (txt ".text") 8 4096 [0; 201326596] [mkReloc 4100 0 true 3].
Lemma listing_lines_witness :
  exists col text, print_word true 201326596 4100 (mkScreen 1 []) = Ok (tt, mkScreen col text) /\ col = 41 /\
    print_reloc [mkSYMR 2 0 6 1] [97; 0; 109; 97; 105; 110; 0] sample_section 4100 (mkScreen col text) =
      Ok (tt, mkScreen 1 (text ++ replicate 16 32 ++ [34; 109; 97; 105; 110; 34] ++ [32] ++ txt "26" ++ [10])).
Proof.
  destruct (listing_lines [mkSYMR 2 0 6 1] [97; 0; 109; 97; 105; 110; 0] sample_section true 201326596 4100 (mkScreen 1 []))
    as (col & text & E & _ & _ & Hr).
  - unfold_int. lia.
  - reflexivity.
  - assert (col = 41) as ->.
    { assert (match print_word true 201326596 4100 (mkScreen 1 []) with Ok (_, s) => column s | _ => 0 end = 41) as Hc by (vm_compute; reflexivity).
      rewrite E in Hc. exact Hc. }
    exists 41, text. split; [exact E|]. split; [reflexivity|].
    exact (Hr [] (mkReloc 4100 0 true 3) [] [34; 109; 97; 105; 110; 34] (txt "26") eq_refl (Forall_nil_2 _) eq_refl eq_refl
      (bool_decide_eq_true_1 (fits [34; 109; 97; 105; 110; 34] 99) eq_refl) eq_refl).
Defined.
(** A symbol of 98 characters does not fit in the buffer with its quotes. *)
Lemma long_symbol_overruns s : myprintf ([34] ++ replicate 98 97 ++ [34]) s = UB.
Proof. reflexivity. Qed.

(** ** bin/disasm.c, bin/main.c: loading the sections *)

Record scn := mkScn { scn_ptr : Z; scn_vaddr : Z; scn_size : Z }.
(** [getc]: a byte, or EOF as a [char] behind the end. *)
Definition getc (exe : list Z) (pos : Z) : Z := default 255 (zget exe pos).
(** [*((mem - memoffset) + pc++) = getc(fp)], with the test of disasm.c before it
    or without a test. *)
Fixpoint load_loop (tested : bool) (n : nat) (exe : list Z) (pos pc : Z) (m : gmap Z Z) : res (gmap Z Z) :=
  match n with
  | O => Ok m
  | S n' =>
      if tested && (MEMSIZE <=? pc - memoffset) then Halted
      else if in_mem pc 1 then load_loop tested n' exe (pos + 1) (pc + 1) (<[pc - memoffset := getc exe pos]> m)
      else UB
  end.
Definition load_section (exe : list Z) (hd : scn) (m : gmap Z Z) : res (gmap Z Z) :=
  if scn_ptr hd =? 0 then Ok m else load_loop true (Z.to_nat (scn_size hd)) exe (scn_ptr hd) (scn_vaddr hd) m.
(** [LOADSECTION] of main.c looks at the size when it is too late. *)
Definition LOADSECTION (exe : list Z) (hd : scn) (m : gmap Z Z) : res (gmap Z Z) :=
  if scn_ptr hd =? 0 then Ok m
  else
    m ← load_loop false (Z.to_nat (scn_size hd)) exe (scn_ptr hd) (scn_vaddr hd) m;
    if MEMSIZE <=? scn_vaddr hd + Z.max 0 (scn_size hd) - memoffset then Halted else Ok m.
(** The sections that the headers have, in order: .text, .rdata, .data, .sdata,
    .sbss, .bss. *)
Fixpoint load_sections (load : list Z -> scn -> gmap Z Z -> res (gmap Z Z)) (exe : list Z) (l : list (option scn)) (m : gmap Z Z)
  : res (gmap Z Z) :=
  match l with
  | [] => Ok m
  | None :: r => load_sections load exe r m
  | Some hd :: r => m ← load exe hd m; load_sections load exe r m
  end.

(** [load_program]: [ldopen] gives the type and the section headers of the file, or
    NULL. *)
Definition load_program (load : list Z -> scn -> gmap Z Z -> res (gmap Z Z)) (exe : list Z) (ldptr : option (Z * list (option scn))) (m : gmap Z Z)
  : res (gmap Z Z) :=
  match ldptr with
  | None => Halted
  | Some (ftype, heads) => if ftype =? 354 then load_sections load exe heads m else Halted
  end.

Definition fetch_word (m : gmap Z Z) (a : Z) : res Z :=
  if in_mem a 4 then Ok (to_int (le_value (get_bytes m a 4))) else UB.
Definition dis1 (m : gmap Z Z) (pc : Z) : res (list Z) := instr ← fetch_word m pc; Ok (concat (dump_ascii instr pc) ++ [10]).
Fixpoint disasm_loop (n : nat) (m : gmap Z Z) (pc : Z) : res (list Z) :=
  match n with
  | O => Ok []
  | S n' => l ← dis1 m pc; r ← disasm_loop n' m (pc + 4); Ok (l ++ r)
  end.
(** One line for every four bytes of text, from [memoffset] on. *)
Definition disasm (m : gmap Z Z) (text_size : Z) : res (list Z) := disasm_loop (Z.to_nat ((text_size + 3) / 4)) m memoffset.

(** A section that lies in the memory is loaded byte by byte, by both loaders. *)
Lemma load_loop_ok tested exe n : forall pos pc m, memoffset <= pc -> pc + Z.of_nat n <= memoffset + MEMSIZE ->
  exists m', load_loop tested n exe pos pc m = Ok m' /\
    forall i, byte_at m' i = if decide (pc - memoffset <= i < pc - memoffset + Z.of_nat n) then getc exe (pos + (i - (pc - memoffset))) else byte_at m i.
Proof.
  induction n as [|n IH]; intros pos pc m H1 H2; cbn [load_loop].
  - exists m. split; [done|]. intros i. by rewrite decide_False by lia.
  - rewrite (proj2 (Z.leb_gt MEMSIZE (pc - memoffset))) by lia. rewrite andb_false_r. unfold in_mem.
    rewrite (proj2 (Z.leb_le _ _)), (proj2 (Z.leb_le _ _)) by lia. cbn [andb].
    destruct (IH (pos + 1) (pc + 1) (<[pc - memoffset := getc exe pos]> m)) as (m' & E & Hm); [lia|lia|].
    exists m'. split; [done|]. intros i. rewrite Hm. unfold byte_at at 1. destruct (decide (i = pc - memoffset)) as [->|Hi].
    + rewrite lookup_insert_eq, decide_False, decide_True by lia. cbn. f_equal. lia.
    + rewrite lookup_insert_ne by done. do 2 case_decide; try lia; [f_equal; lia|done].
Qed.
(** The text section of an executable: at [memoffset], whole words, in the file. *)
Record text_ok (exe : list Z) (hd : scn) (k : nat) : Prop := {
  tx_ptr : 0 < scn_ptr hd;
  tx_addr : scn_vaddr hd = memoffset;
  tx_size : scn_size hd = 4 * Z.of_nat k;
  tx_file : scn_ptr hd + scn_size hd <= zlen exe;
  tx_room : scn_size hd < MEMSIZE
}.
(** The line for the [i]th word of the text. *)
Definition text_line (exe : list Z) (hd : scn) (i : Z) : list Z :=
  concat (dump_ascii (to_int (le_value (slice (scn_ptr hd + 4 * i) 4 exe))) (memoffset + 4 * i)) ++ [10].
Lemma getc_slice exe pos : 0 <= pos -> pos + 4 <= zlen exe -> (fun k => getc exe (pos + k)) <$> seqZ 0 4 = slice pos 4 exe.
Proof.
  intros H1 H2. apply zget_ext_range.
  - rewrite zlen_slice by lia. unfold zlen. rewrite length_fmap, length_seqZ. unfold zlen in H2. lia.
  - intros i Hi. unfold zlen in Hi. rewrite length_fmap, length_seqZ in Hi. rewrite zget_slice, decide_True by lia.
    unfold zget at 1. rewrite decide_True by lia. rewrite list_lookup_fmap, lookup_seqZ_lt by lia. cbn.
    destruct (zget_is_Some exe (pos + i)) as [b Hb]; [lia|]. unfold getc. rewrite Z2Nat.id by lia. by rewrite Z.add_0_l, Hb.
Qed.
Lemma disasm_loop_ok exe hd k m : text_ok exe hd k ->
  (forall i, 0 <= i < scn_size hd -> byte_at m i = getc exe (scn_ptr hd + i)) ->
  forall n j, 0 <= j -> j + Z.of_nat n <= Z.of_nat k ->
  disasm_loop n m (memoffset + 4 * j) = Ok (concat (text_line exe hd <$> seqZ j (Z.of_nat n))).
Proof.
  intros [H1 H2 H3 H4 H5] Hm n. induction n as [|n IH]; intros j Hj Hn; [done|]. cbn [disasm_loop]. unfold dis1, fetch_word, in_mem.
  rewrite (proj2 (Z.leb_le _ _)), (proj2 (Z.leb_le _ _)) by (unfold MEMSIZE, memoffset in *; lia). cbn [andb mbind res_bind].
  replace (memoffset + 4 * j + 4) with (memoffset + 4 * (j + 1)) by lia. rewrite IH by lia. cbn [mbind res_bind].
  rewrite (seqZ_cons j) by lia. cbn [fmap list_fmap concat]. replace (Z.pred (Z.of_nat (S n))) with (Z.of_nat n) by lia.
  replace (Z.succ j) with (j + 1) by lia. do 2 f_equal. unfold text_line. do 4 f_equal.
  rewrite <-(getc_slice exe) by lia. unfold get_bytes. f_equal. apply list_fmap_ext. intros i x Hx. apply lookup_seqZ in Hx as [-> Hx].
  rewrite Hm by lia. f_equal. lia.
Qed.

(** From the file to the listing.  The loaders of disasm.c and main.c put a text
    section that fits in memory there byte for byte, and agree; the disassembler
    then prints one line per word of the file, in order, each the text of exactly
    that word at its address. *)
Theorem load_then_disassemble (exe : list Z) (hd : scn) (k : nat) (m : gmap Z Z) :
  text_ok exe hd k ->
  exists m', load_section exe hd m = Ok m' /\ LOADSECTION exe hd m = Ok m' /\
    disasm m' (scn_size hd) = Ok (concat (text_line exe hd <$> seqZ 0 (Z.of_nat k))).
Proof.
  intros Hok. pose proof Hok as [H1 H2 H3 H4 H5]. unfold load_section, LOADSECTION. rewrite (proj2 (Z.eqb_neq _ 0)) by lia.
  assert (forall tested, load_loop tested (Z.to_nat (scn_size hd)) exe (scn_ptr hd) (scn_vaddr hd) m =
    load_loop true (Z.to_nat (scn_size hd)) exe (scn_ptr hd) (scn_vaddr hd) m) as Hsame.
  { intros []; [done|]. assert (scn_vaddr hd + Z.of_nat (Z.to_nat (scn_size hd)) <= memoffset + MEMSIZE) as Hfit by lia. revert Hfit.
    generalize (Z.to_nat (scn_size hd)) as n, (scn_ptr hd) as pos, (scn_vaddr hd) as pc. clear. intros n. revert m.
    induction n as [|n IH]; intros m pos pc Hfit; [done|]. cbn [load_loop]. rewrite (proj2 (Z.leb_gt MEMSIZE _)) by lia. cbn [andb].
    destruct (in_mem pc 1); [apply IH; lia|done]. }
  destruct (load_loop_ok true exe (Z.to_nat (scn_size hd)) (scn_ptr hd) (scn_vaddr hd) m) as (m' & E & Hm); [lia|lia|].
  rewrite (Hsame false), E. cbn [mbind res_bind]. rewrite (proj2 (Z.leb_gt MEMSIZE _)) by lia. exists m'. split; [done|]. split; [done|].
  unfold disasm. replace (Z.to_nat ((scn_size hd + 3) / 4)) with k by (rewrite H3; lia_mod).
  apply (disasm_loop_ok exe hd k m' Hok) with (j := 0); [|lia|lia]. intros i Hi. rewrite Hm, decide_True by lia. f_equal. lia.
Qed.
Lemma load_then_disassemble_witness :
  exists m', load_section [7; 8; 0; 224; 3] (mkScn 1 memoffset 4) ∅ = Ok m' /\ LOADSECTION [7; 8; 0; 224; 3] (mkScn 1 memoffset 4) ∅ = Ok m' /\
    disasm m' 4 = Ok (txt "10000000: 03e00008  " ++ [9] ++ txt "jr" ++ [9] ++ txt "r31" ++ [10]).
Proof.
  destruct (load_then_disassemble [7; 8; 0; 224; 3] (mkScn 1 memoffset 4) 1 ∅) as (m' & H1 & H2 & H3).
  - split; reflexivity || (vm_compute; congruence).
  - exists m'. split; [exact H1|]. split; [exact H2|]. refine (eq_trans H3 _). vm_compute. reflexivity.
Defined.

(** main.c notices too late, and refuses a program that just fits; a section with an
    address below [memoffset] is not noticed at all. *)
Lemma section_overruns exe m pos n : (0 < n)%nat -> load_loop false n exe pos (memoffset + MEMSIZE) m = UB.
Proof. intros Hn. destruct n; [lia|]. reflexivity. Qed.
Lemma section_below exe m pos n : (0 < n)%nat -> load_loop true n exe pos (memoffset - 1) m = UB.
Proof. intros Hn. destruct n; [lia|]. reflexivity. Qed.
