(* ===== verification/SmallProgs.v ===== *)
(** * test/: the small programs

    [ascii.c], [help.c], [customer.c], [shell.c], [createfile.c], [halt.c] and
    [test.c], as C code that makes system calls.  A call is an event of the sequence
    of calls; what the kernel answers, the value in register 2 and the bytes it
    stores at the buffer of the call, is an argument, a function of the calls so far
    and the new one. *)

From stdpp Require Import gmap list strings sets.
From S2P Require Import Prelude Syscalls.
From S2P Require Import UserProgs.
#[local] Open Scope Z_scope.

Inductive event :=
| EPrintString (s : list Z)
| EPrintInt (n : Z)
| EPrintChar (c : Z)
| EReadChar
| ECreate (name : list Z)
| EOpen (name : list Z) (type : Z)
| ERead (size id : Z)
| EWrite (buffer : list Z) (size id : Z)
| EClose (id : Z)
| EExec (name : list Z)
| EJoin (id : Z)
| EHalt.
#[export] Instance event_eq_dec : EqDecision event.
Proof. solve_decision. Defined.

(** [Halt] does not return: [None] ends a program. *)
#[local] Abbreviation trace := (list event).
Definition kernel_answers : Type := trace -> event -> Z * list Z.
Definition tell (e : event) : st trace unit := fun h => Ok (tt, h ++ [e]).
Definition request (env : kernel_answers) (e : event) : st trace (Z * list Z) := fun h => Ok (env h e, h ++ [e]).

(** What the calls show on the console, and write to the file [id]. *)
Definition shown (e : event) : list Z :=
  match e with
  | EPrintString s => s
  | EPrintInt n => if n =? 0 then [48] else (if n <? 0 then [45] else []) ++ dec_digits 10 (Z.abs n)
  | EPrintChar c => [c]
  | _ => []
  end.
Definition on_screen (h : trace) : list Z := h ≫= shown.
Definition in_file (id : Z) (h : trace) : list Z :=
  h ≫= fun e => match e with EWrite b n j => if j =? id then slice 0 n b else [] | _ => [] end.

(** Bytes that the kernel stores at [&buffer[i]]. *)
Fixpoint stored_at (buffer : list Z) (i : Z) (bs : list Z) : res (list Z) :=
  match bs with
  | [] => Ok buffer
  | b :: r => buffer ← wr buffer i b; stored_at buffer (i + 1) r
  end.

(** ** halt.c, test.c, createfile.c *)

Definition halt_main : st trace unit := tell EHalt.
Definition test_main (env : kernel_answers) : st trace unit :=
  '(c, _) ← request env EReadChar;
  tell (EPrintChar (to_char c));;
  tell (EPrintString (txt "Ok" ++ [10]));;
  tell EHalt.
Definition createfile_main (env : kernel_answers) : st trace unit :=
  let filename := txt "../test/text.txt" in
  '(r, _) ← request env (ECreate filename);
  (if r =? -1 then
     tell (EPrintString ([10] ++ txt " Create file ~"));;
     tell (EPrintString filename);;
     tell (EPrintString (txt " failed." ++ [10]))
   else
     tell (EPrintString ([10] ++ txt " Create file ~"));;
     tell (EPrintString filename);;
     tell (EPrintString (txt " successfully." ++ [10])));;
  tell EHalt.

(** ** ascii.c *)

Definition header : list Z := txt "Dec  Char  ".
(** One call on the console and one on the file. *)
Definition both (e : event) (s : list Z) (n id : Z) : st trace unit := tell e;; tell (EWrite s n id).
(** The four characters of [num], with the digits of [i + j]. *)
Definition cell_digits (k : Z) (num : list Z) : res (list Z) :=
  if k <? 100 then
    num ← wr num 0 (to_char (Z.quot k 10 + 48));
    num ← wr num 1 (to_char (Z.rem k 10 + 48));
    num ← wr num 2 0;
    wr num 3 0
  else
    num ← wr num 0 49;
    num ← wr num 1 (to_char (Z.quot (k - 100) 10 + 48));
    num ← wr num 2 (to_char (Z.rem (k - 100) 10 + 48));
    wr num 3 0.
Definition cell (id i j : Z) (b : list Z * list Z) : st trace (list Z * list Z) :=
  let '(num, cur) := b in
  num ← lift (cell_digits (i + j) num);
  (if i + j <? 100 then
     both (EPrintInt (i + j)) num 2 id;;
     both (EPrintString (txt "   ")) (txt "   ") 3 id
   else
     both (EPrintInt (i + j)) num 3 id;;
     both (EPrintString (txt "  ")) (txt "  ") 2 id);;
  cur ← lift (wr cur 0 (to_char (i + j)));
  c ← lift (rd cur 0);
  both (EPrintChar c) cur 1 id;;
  both (EPrintString (txt "     ")) (txt "     ") 5 id;;
  mret (num, cur).
(** [for (i = 32; i <= 127; i += 8)]: twelve rows. *)
Definition ascii_row (id r : Z) (b : list Z * list Z) : st trace (list Z * list Z) :=
  b ← for_st 0 8 (fun j => cell id (32 + 8 * r) j) b;
  both (EPrintChar 10) [10] 1 id;;
  mret b.
Definition ascii_main (env : kernel_answers) : st trace unit :=
  request env (ECreate (txt "ascii.txt"));;
  '(asciiFile, _) ← request env (EOpen (txt "ascii.txt") 0);
  if asciiFile =? -1 then tell (EPrintString (txt "Error opening file" ++ [10]));; tell EHalt
  else
    for_st 0 8 (fun _ _ => both (EPrintString header) header 11 asciiFile) tt;;
    both (EPrintChar 10) [10] 1 asciiFile;;
    for_st 0 12 (ascii_row asciiFile) (txt "0000" ++ [0], txt "0" ++ [0]);;
    tell (EClose asciiFile);;
    tell EHalt.

(** ** help.c *)

Fixpoint help_loop (fuel : nat) (env : kernel_answers) (helpFile : Z) (buffer : list Z) : st trace unit :=
  match fuel with
  | O => fun _ => NoFuel
  | S f =>
      '(n, bs) ← request env (ERead 1 helpFile);
      buffer ← lift (stored_at buffer 0 bs);
      if 0 <? n then
        c ← lift (rd buffer 0);
        tell (EPrintChar c);;
        help_loop f env helpFile buffer
      else mret tt
  end.
Definition temporary : list Z := txt "Temporary buffer" ++ [0].
Definition help_main (fuel : nat) (env : kernel_answers) : st trace unit :=
  '(helpFile, _) ← request env (EOpen (txt "mota.txt") 1);
  (if helpFile =? -1 then tell (EPrintString (txt "Error opening file" ++ [10]))
   else help_loop fuel env helpFile temporary;; tell (EPrintChar 10));;
  tell (EClose helpFile);;
  tell EHalt.

(** ** customer.c *)

Definition digit_char (c : Z) : bool := (48 <=? c) && (c <=? 57).
(** [while (Read(buffer, 1, testFile) > 0) ...]: the number of times; [None] when the
    program has halted. *)
Fixpoint read_total (fuel : nat) (env : kernel_answers) (testFile : Z) (buffer : list Z) (totalLen : Z) : st trace (option (Z * list Z)) :=
  match fuel with
  | O => fun _ => NoFuel
  | S f =>
      '(n, bs) ← request env (ERead 1 testFile);
      buffer ← lift (stored_at buffer 0 bs);
      if 0 <? n then
        c ← lift (rd buffer 0);
        if digit_char c then read_total f env testFile buffer (to_int (to_int (totalLen * 10) + (c - 48)))
        else if (c =? 10) || (c =? 32) then mret (Some (totalLen, buffer))
        else tell (EClose testFile);; tell EHalt;; mret None
      else mret (Some (totalLen, buffer))
  end.
(** [while (isRun == 1) ...]: one line of numbers. *)
Fixpoint customer_line (fuel : nat) (env : kernel_answers) (testFile : Z) (buffer : list Z) (curNum : Z) : st trace (option (list Z)) :=
  match fuel with
  | O => fun _ => NoFuel
  | S f =>
      '(curLen, bs) ← request env (ERead 1 testFile);
      buffer ← lift (stored_at buffer 0 bs);
      if curLen =? -1 then tell (EClose testFile);; tell EHalt;; mret None
      else
        c ← lift (rd buffer 0);
        if digit_char c then
          let curNum := to_int (to_int (curNum * 10) + (c - 48)) in
          if (c =? 10) || (curLen =? 0) then mret (Some buffer) else customer_line f env testFile buffer curNum
        else if (c =? 32) || (c =? 10) || (curLen =? 0) then
          tell (EPrintInt curNum);;
          if (c =? 10) || (curLen =? 0) then mret (Some buffer) else customer_line f env testFile buffer 0
        else tell (EClose testFile);; tell EHalt;; mret None
  end.
Fixpoint customer_lines (n : nat) (fuel : nat) (env : kernel_answers) (testFile : Z) (buffer : list Z) : st trace (option (list Z)) :=
  match n with
  | O => mret (Some buffer)
  | S n' =>
      o ← customer_line fuel env testFile buffer 0;
      match o with
      | None => mret None
      | Some buffer => customer_lines n' fuel env testFile buffer
      end
  end.
Definition customer_main (fuel : nat) (env : kernel_answers) : st trace unit :=
  '(testFile, _) ← request env (EOpen (txt "input.txt") 1);
  if testFile =? -1 then
    tell (EPrintString (txt "Error opening file" ++ [10]));;
    tell (EClose testFile);; tell EHalt
  else
    o ← read_total fuel env testFile temporary 0;
    match o with
    | None => mret tt
    | Some (totalLen, buffer) =>
        if totalLen =? 0 then tell EHalt
        else
          o ← customer_lines (Z.to_nat totalLen) fuel env testFile buffer;
          match o with
          | None => mret tt
          | Some _ => tell (EClose testFile);; tell EHalt
          end
    end.

(** ** shell.c *)

(** [do { Read(&buffer[i], 1, input); } while (buffer[i++] != '\n');] *)
Fixpoint shell_read (fuel : nat) (env : kernel_answers) (buffer : list Z) (i : Z) : st trace (list Z * Z) :=
  match fuel with
  | O => fun _ => NoFuel
  | S f =>
      '(_, bs) ← request env (ERead 1 0);
      buffer ← lift (stored_at buffer i bs);
      c ← lift (rd buffer i);
      if c =? 10 then mret (buffer, i + 1) else shell_read f env buffer (i + 1)
  end.
(** One round of [while (1)]. *)
Definition shell_round (fuel : nat) (env : kernel_answers) (buffer : list Z) : st trace (list Z) :=
  tell (EWrite [45; 45] 2 1);;
  '(buffer, i) ← shell_read fuel env buffer 0;
  buffer ← lift (wr buffer (i - 1) 0);
  (if 0 <? i - 1 then
     '(newProc, _) ← request env (EExec (cstr buffer));
     request env (EJoin newProc);;
     mret tt
   else mret tt);;
  mret buffer.

(** ** Tracing *)

Lemma tell_bind {B} e (k : unit -> st trace B) h : (tell e ≫= k) h = k tt (h ++ [e]).
Proof. done. Qed.
Lemma request_bind {B} env e (k : Z * list Z -> st trace B) h : (request env e ≫= k) h = k (env h e) (h ++ [e]).
Proof. done. Qed.
Lemma lift_ok_bind {A B} (r : res A) a (k : A -> st trace B) h : r = Ok a -> (lift r ≫= k) h = k a h.
Proof. intros ->. done. Qed.
Lemma on_screen_app h l : on_screen (h ++ l) = on_screen h ++ on_screen l.
Proof. apply bind_app. Qed.
Lemma in_file_app id h l : in_file id (h ++ l) = in_file id h ++ in_file id l.
Proof. apply bind_app. Qed.

(** ** ascii.c: the table *)

(** The text [t] is on the screen and in the file. *)
Definition has_text (id : Z) (t : list Z) (h : trace) : Prop := on_screen h = t /\ in_file id h = t.
Lemma both_text e s n id t h : has_text id t h -> shown e = slice 0 n s -> in_file id [e] = [] ->
  exists h', both e s n id h = Ok (tt, h') /\ has_text id (t ++ shown e) h'.
Proof.
  intros [Hs Hf] He Hn. exists ((h ++ [e]) ++ [EWrite s n id]). split; [done|]. split.
  - rewrite !on_screen_app, Hs. cbn. by rewrite !app_nil_r.
  - rewrite !in_file_app, Hf, Hn. cbn. by rewrite Z.eqb_refl, !app_nil_r, He.
Qed.
Definition table_cell (k : Z) : list Z :=
  dec_digits 10 k ++ (if k <? 100 then txt "   " else txt "  ") ++ [to_char k] ++ txt "     ".
Definition table_row (r : Z) : list Z := concat (table_cell <$> seqZ (32 + 8 * r) 8) ++ [10].
(** Eight headings, and the characters 32 to 127 in rows of eight, each with its
    number. *)
Definition ascii_table : list Z := concat (replicate 8 header) ++ [10] ++ concat (table_row <$> seqZ 0 12).

(** The digits of a number of two or three digits. *)
Lemma cell_digits_ok k num : 32 <= k < 128 -> zlen num = 5 ->
  exists num', cell_digits k num = Ok num' /\ zlen num' = 5 /\ slice 0 (if k <? 100 then 2 else 3) num' = shown (EPrintInt k) /\ shown (EPrintInt k) = dec_digits 10 k.
Proof.
  intros Hk Hl. destruct num as [|a [|b [|c [|d [|e [|]]]]]]; try (unfold zlen in Hl; simpl in Hl; lia).
  assert (forallb (fun k => bool_decide (match cell_digits k [0; 0; 0; 0; 0] with Ok n => slice 0 (if k <? 100 then 2 else 3) n | _ => [] end = shown (EPrintInt k)
    /\ shown (EPrintInt k) = dec_digits 10 k)) (seqZ 32 96) = true) as H by (vm_compute; reflexivity).
  rewrite forallb_forall in H. specialize (H k (proj1 (list_elem_of_In _ _) (proj2 (elem_of_seqZ 32 96 k) ltac:(lia)))).
  apply bool_decide_eq_true in H as [H1 H2]. unfold cell_digits in *. destruct (k <? 100).
  - eexists. split; [reflexivity|]. split; [done|]. split; [exact H1|done].
  - eexists. split; [reflexivity|]. split; [done|]. split; [exact H1|done].
Qed.
Definition buffers_ok (b : list Z * list Z) : Prop := zlen b.1 = 5 /\ zlen b.2 = 2.
Lemma cell_ok id i j b t h : 32 <= i + j < 128 -> buffers_ok b -> has_text id t h ->
  exists b' h', cell id i j b h = Ok (b', h') /\ buffers_ok b' /\ has_text id (t ++ table_cell (i + j)) h'.
Proof.
  intros Hk [Hn Hc] Ht. destruct b as [num cur]. cbn in Hn, Hc. unfold cell. set (k := i + j) in *.
  destruct (cell_digits_ok k num Hk Hn) as (num' & Ed & Hn' & Hs & Hd). rewrite (lift_ok_bind _ _ _ _ Ed).
  destruct cur as [|c0 [|c1 [|]]]; try (unfold zlen in Hc; simpl in Hc; lia).
  assert (exists h', (if k <? 100 then both (EPrintInt k) num' 2 id;; both (EPrintString (txt "   ")) (txt "   ") 3 id
     else both (EPrintInt k) num' 3 id;; both (EPrintString (txt "  ")) (txt "  ") 2 id) h = Ok (tt, h') /\
     has_text id ((t ++ dec_digits 10 k) ++ (if k <? 100 then txt "   " else txt "  ")) h') as (h1 & E1 & H1).
  { destruct (k <? 100).
    - destruct (both_text (EPrintInt k) num' 2 id t h Ht) as (h1 & E1 & H1); [done|done|]. rewrite (st_bind_Ok _ _ _ _ _ E1).
      rewrite Hd in H1. by apply both_text.
    - destruct (both_text (EPrintInt k) num' 3 id t h Ht) as (h1 & E1 & H1); [done|done|]. rewrite (st_bind_Ok _ _ _ _ _ E1).
      rewrite Hd in H1. by apply both_text. }
  rewrite (st_bind_Ok _ _ _ _ _ E1). rewrite (lift_ok_bind _ [to_char k; c1]) by done. rewrite (lift_ok_bind _ (to_char k)) by done.
  destruct (both_text (EPrintChar (to_char k)) [to_char k; c1] 1 id _ h1 H1) as (h2 & E2 & H2); [done|done|]. rewrite (st_bind_Ok _ _ _ _ _ E2).
  destruct (both_text (EPrintString (txt "     ")) (txt "     ") 5 id _ h2 H2) as (h3 & E3 & H3); [done|done|]. rewrite (st_bind_Ok _ _ _ _ _ E3).
  exists (num', [to_char k; c1]), h3. split; [done|]. split; [done|]. unfold table_cell. by rewrite <-!app_assoc in *.
Qed.
Lemma seqZ_text_snoc {A} (f : Z -> list A) lo n : 0 <= n -> concat (f <$> seqZ lo (n + 1)) = concat (f <$> seqZ lo n) ++ f (lo + n).
Proof.
  intros Hn. rewrite seqZ_app, fmap_app, concat_app, (seqZ_cons (lo + n) 1) by lia. change (Z.pred 1) with 0. rewrite (seqZ_nil (Z.succ _) 0) by lia.
  cbn [fmap list_fmap concat]. by rewrite app_nil_r.
Qed.
Lemma row_ok id r b t h : 0 <= r < 12 -> buffers_ok b -> has_text id t h ->
  exists b' h', ascii_row id r b h = Ok (b', h') /\ buffers_ok b' /\ has_text id (t ++ table_row r) h'.
Proof.
  intros Hr Hb Ht. unfold ascii_row.
  destruct (for_st_inv (fun j b h => 0 <= j <= 8 /\ buffers_ok b /\ has_text id (t ++ concat (table_cell <$> seqZ (32 + 8 * r) j)) h)
    (fun j => cell id (32 + 8 * r) j) 0 8 b h) as (b1 & h1 & E1 & _ & Hb1 & H1); [lia|split; [lia|]; split; [done|]; rewrite seqZ_nil by lia; cbn [fmap list_fmap concat]; by rewrite app_nil_r| |].
  { intros j b' h' Hj (_ & Hb' & Ht'). destruct (cell_ok id (32 + 8 * r) j b' _ h' ltac:(lia) Hb' Ht') as (b2 & h2 & E & Hb2 & Ht2).
    exists b2, h2. split; [done|]. split; [lia|]. split; [done|]. rewrite seqZ_text_snoc, app_assoc by lia. done. }
  rewrite (st_bind_Ok _ _ _ _ _ E1). destruct (both_text (EPrintChar 10) [10] 1 id _ h1 H1) as (h2 & E2 & H2); [done|done|].
  rewrite (st_bind_Ok _ _ _ _ _ E2). exists b1, h2. split; [done|]. split; [done|]. unfold table_row. by rewrite app_assoc.
Qed.

(** The program of ascii.c: when the file can be opened, it ends, and the screen and
    the file hold the same text, the table of the characters 32 to 127. *)
Theorem ascii_program (env : kernel_answers) (id : Z) :
  (env [ECreate (txt "ascii.txt")] (EOpen (txt "ascii.txt") 0)).1 = id -> id <> -1 ->
  exists h, ascii_main env [] = Ok (tt, h) /\ on_screen h = ascii_table /\ in_file id h = ascii_table.
Proof.
  intros Ho Hid. unfold ascii_main. rewrite !request_bind. cbn [app]. destruct (env [_] _) as [id' bs] eqn:Ee. cbn in Ho. subst id'.
  rewrite (proj2 (Z.eqb_neq _ _)) by done. set (h0 := [_; _]).
  destruct (for_st_inv (fun j _ h => 0 <= j /\ has_text id (concat (replicate (Z.to_nat j) header)) h)
    (fun _ _ => both (EPrintString header) header 11 id) 0 8 tt h0) as ([] & h1 & E1 & _ & H1); [lia|done| |].
  { intros j [] h Hj [Hj0 Ht]. destruct (both_text (EPrintString header) header 11 id _ h Ht) as (h' & E & H'); [done|done|].
    exists tt, h'. split; [done|]. split; [lia|]. replace (Z.to_nat (j + 1)) with (S (Z.to_nat j)) by lia.
    rewrite replicate_S_end, concat_app. cbn [concat]. by rewrite app_nil_r. }
  rewrite (st_bind_Ok _ _ _ _ _ E1). destruct (both_text (EPrintChar 10) [10] 1 id _ h1 H1) as (h2 & E2 & H2); [done|done|].
  rewrite (st_bind_Ok _ _ _ _ _ E2). cbn [shown] in H2. change (Z.to_nat 8) with 8%nat in H2. set (t := concat (replicate 8 header) ++ [10]) in *.
  destruct (for_st_inv (fun r b h => 0 <= r <= 12 /\ buffers_ok b /\ has_text id (t ++ concat (table_row <$> seqZ 0 r)) h)
    (ascii_row id) 0 12 (txt "0000" ++ [0], txt "0" ++ [0]) h2) as (b & h3 & E3 & _ & _ & H3); [lia|split; [lia|]; split; [done|]; rewrite seqZ_nil by lia; cbn [fmap list_fmap concat]; by rewrite app_nil_r| |].
  { intros r b' h' Hr (_ & Hb' & Ht'). destruct (row_ok id r b' _ h' ltac:(lia) Hb' Ht') as (b2 & h4 & E & Hb2 & Ht2).
    exists b2, h4. split; [done|]. split; [lia|]. split; [done|]. rewrite seqZ_text_snoc, app_assoc by lia. done. }
  rewrite (st_bind_Ok _ _ _ _ _ E3). eexists. split; [reflexivity|]. destruct H3 as [Hs Hf]. rewrite !on_screen_app, !in_file_app, Hs, Hf.
  change (on_screen [_]) with (@nil Z). change (in_file id [_]) with (@nil Z). rewrite !app_nil_r. unfold ascii_table, t. by rewrite <-!app_assoc.
Qed.

(** ** Reading a file character by character *)

Definition reads (id : Z) (h : trace) : nat := length (filter (fun e => e = ERead 1 id) h).
(** The answers of the kernel to reads of one character: the characters of [text] in
    order, each with the terminator behind it, and then 0 with an empty text. *)
Definition reads_file (env : kernel_answers) (text : list Z) (id : Z) : Prop := forall h,
  env h (ERead 1 id) = match text !! reads id h with Some c => (1, [c; 0]) | None => (0, [0]) end.
Lemma reads_cat id h l : reads id (h ++ l) = (reads id h + reads id l)%nat.
Proof. unfold reads. by rewrite list.filter_app, length_app. Qed.
Lemma reads_one id h : reads id (h ++ [ERead 1 id]) = S (reads id h).
Proof. rewrite reads_cat. unfold reads at 2. rewrite filter_cons_True by done. simpl. lia. Qed.
Lemma reads_unless id h e : e <> ERead 1 id -> reads id (h ++ [e]) = reads id h.
Proof. intros He. rewrite reads_cat. unfold reads at 2. rewrite filter_cons_False by done. simpl. lia. Qed.
Lemma stored_char buffer c : 2 <= zlen buffer ->
  exists b, stored_at buffer 0 [c; 0] = Ok b /\ 2 <= zlen b /\ rd b 0 = Ok c.
Proof.
  intros Hl. cbn [stored_at]. rewrite wr_Ok by lia. cbn [mbind res_bind]. rewrite wr_Ok by (rewrite zlen_zset; lia). cbn [mbind res_bind].
  eexists. split; [reflexivity|]. rewrite !zlen_zset. split; [lia|]. unfold rd. rewrite zget_zset_ne, zget_zset_eq by lia. done.
Qed.
Lemma stored_end buffer : 2 <= zlen buffer -> exists b, stored_at buffer 0 [0] = Ok b /\ 2 <= zlen b.
Proof. intros Hl. cbn [stored_at]. rewrite wr_Ok by lia. cbn [mbind res_bind]. eexists. split; [reflexivity|]. by rewrite zlen_zset. Qed.

Section reading.
Context (env : kernel_answers) (text : list Z) (id : Z) (Hfile : reads_file env text id).

(** The next character of the text. *)
Lemma next_char {B} h pre c rest buffer (k : Z * list Z -> st trace B) :
  text = pre ++ c :: rest -> reads id h = length pre -> 2 <= zlen buffer ->
  exists b, (request env (ERead 1 id) ≫= k) h = k (1, [c; 0]) (h ++ [ERead 1 id]) /\
    stored_at buffer 0 [c; 0] = Ok b /\ 2 <= zlen b /\ rd b 0 = Ok c /\ reads id (h ++ [ERead 1 id]) = length (pre ++ [c]).
Proof using Hfile.
  intros Ht Hr Hl. destruct (stored_char buffer c Hl) as (b & Hb). exists b.
  rewrite request_bind, Hfile, Hr, Ht, lookup_app_r, Nat.sub_diag by lia. split; [done|]. split_and!; try apply Hb.
  rewrite reads_one, Hr, length_app. simpl. lia.
Qed.

Lemma help_loop_ok rest : forall pre h buffer fuel,
  text = pre ++ rest -> reads id h = length pre -> 2 <= zlen buffer -> (length rest < fuel)%nat ->
  exists h', help_loop fuel env id buffer h = Ok (tt, h') /\ on_screen h' = on_screen h ++ rest.
Proof using Hfile.
  induction rest as [|c rest IH]; intros pre h buffer fuel Ht Hr Hl Hf; (destruct fuel as [|f]; [simpl in Hf; lia|]); cbn [help_loop].
  - destruct (stored_end buffer Hl) as (b & Eb & _). rewrite app_nil_r in Ht.
    rewrite request_bind, Hfile, Hr, Ht, lookup_ge_None_2 by lia. rewrite (lift_ok_bind _ _ _ _ Eb). eexists. split; [reflexivity|].
    by rewrite on_screen_app.
  - match goal with |- context [(request env _ ≫= ?k) h] => destruct (next_char h pre c rest buffer k Ht Hr Hl) as (b & -> & Eb & Hb & Ec & Hr') end.
    cbv beta iota. rewrite (lift_ok_bind _ _ _ _ Eb). change (0 <? 1) with true. cbv iota. rewrite (lift_ok_bind _ _ _ _ Ec), tell_bind.
    destruct (IH (pre ++ [c]) ((h ++ [ERead 1 id]) ++ [EPrintChar c]) b f) as (h' & E & Hs); [by rewrite <-app_assoc|by rewrite reads_unless|done|simpl in Hf; lia|].
    exists h'. split; [done|]. rewrite Hs, !on_screen_app. cbn. by rewrite app_nil_r, <-app_assoc.
Qed.

(** The numbers that a program has printed. *)
Definition printed_numbers (h : trace) : list Z := h ≫= fun e => match e with EPrintInt n => [n] | _ => [] end.
Lemma printed_app h l : printed_numbers (h ++ l) = printed_numbers h ++ printed_numbers l.
Proof. apply bind_app. Qed.
Lemma digit_char_true c : 48 <= c <= 57 -> digit_char c = true.
Proof. intros Hc. unfold digit_char. by rewrite !(proj2 (Z.leb_le _ _)) by lia. Qed.
Lemma digit_step v c ds : 48 <= c <= 57 -> 0 <= v -> Forall (fun c => 48 <= c <= 57) ds -> foldl dec_step v (c :: ds) < two31 ->
  to_int (to_int (v * 10) + (c - 48)) = dec_step v c /\ 0 <= dec_step v c.
Proof.
  intros Hc Hv Hds Hb. cbn [foldl] in Hb. pose proof (dec_step_mono ds (dec_step v c) ltac:(unfold dec_step; lia) Hds) as Hm.
  unfold dec_step in *. unfold two31 in Hb. rewrite (to_int_id (v * 10)), to_int_id by (unfold_int; lia). lia.
Qed.
(** The state behind the characters [ds]: [numbers] have been printed. *)
Definition behind (h h' : trace) (b : list Z) (pre ds numbers : list Z) : Prop :=
  2 <= zlen b /\ reads id h' = length (pre ++ ds) /\ printed_numbers h' = printed_numbers h ++ numbers.
Lemma behind_trans h h1 h2 b1 b2 pre ds es ns ms : behind h h1 b1 pre ds ns -> behind h1 h2 b2 (pre ++ ds) es ms ->
  behind h h2 b2 pre (ds ++ es) (ns ++ ms).
Proof. intros (_ & _ & H1) (? & H2 & H3). split; [done|]. rewrite H2, H3, H1, !app_assoc. done. Qed.
Lemma total_digits ds : forall pre rest h buffer v f, Forall (fun c => 48 <= c <= 57) ds -> text = pre ++ ds ++ rest -> reads id h = length pre ->
  2 <= zlen buffer -> 0 <= v -> foldl dec_step v ds < two31 ->
  exists b h', read_total (length ds + f) env id buffer v h = read_total f env id b (foldl dec_step v ds) h' /\ behind h h' b pre ds [].
Proof using Hfile.
  induction ds as [|c ds IH]; intros pre rest h buffer v f Hds Ht Hr Hl Hv Hb.
  - exists buffer, h. split; [done|]. split; [done|]. by rewrite !app_nil_r.
  - apply list.Forall_cons in Hds as [Hc Hds']. destruct (digit_step v c ds Hc Hv Hds' Hb) as [Es Hs]. cbn [length Nat.add read_total].
    match goal with |- context [(request env _ ≫= ?k) h] => destruct (next_char h pre c (ds ++ rest) buffer k Ht Hr Hl) as (b & -> & Eb & Hlb & Ec & Hr') end.
    cbv beta iota. rewrite (lift_ok_bind _ _ _ _ Eb). change (0 <? 1) with true. cbv iota. rewrite (lift_ok_bind _ _ _ _ Ec), digit_char_true, Es by done.
    destruct (IH (pre ++ [c]) rest (h ++ [ERead 1 id]) b (dec_step v c) f) as (b' & h' & E & Hlb' & Hrd & Hp); try done; [by rewrite <-app_assoc|].
    exists b', h'. split; [done|]. split; [done|]. rewrite Hrd, Hp, printed_app, <-app_assoc. cbn. by rewrite app_nil_r.
Qed.
Lemma line_digits ds : forall pre rest h buffer v f, Forall (fun c => 48 <= c <= 57) ds -> text = pre ++ ds ++ rest -> reads id h = length pre ->
  2 <= zlen buffer -> 0 <= v -> foldl dec_step v ds < two31 ->
  exists b h', customer_line (length ds + f) env id buffer v h = customer_line f env id b (foldl dec_step v ds) h' /\ behind h h' b pre ds [].
Proof using Hfile.
  induction ds as [|c ds IH]; intros pre rest h buffer v f Hds Ht Hr Hl Hv Hb.
  - exists buffer, h. split; [done|]. split; [done|]. by rewrite !app_nil_r.
  - apply list.Forall_cons in Hds as [Hc Hds']. destruct (digit_step v c ds Hc Hv Hds' Hb) as [Es Hs]. cbn [length Nat.add customer_line].
    match goal with |- context [(request env _ ≫= ?k) h] => destruct (next_char h pre c (ds ++ rest) buffer k Ht Hr Hl) as (b & -> & Eb & Hlb & Ec & Hr') end.
    cbv beta iota. rewrite (lift_ok_bind _ _ _ _ Eb). change (1 =? -1) with false. cbv iota. rewrite (lift_ok_bind _ _ _ _ Ec), digit_char_true, Es by done.
    rewrite (proj2 (Z.eqb_neq c 10)) by lia. change (1 =? 0) with false. cbn [orb]. cbv zeta.
    destruct (IH (pre ++ [c]) rest (h ++ [ERead 1 id]) b (dec_step v c) f) as (b' & h' & E & Hlb' & Hrd & Hp); try done; [by rewrite <-app_assoc|].
    exists b', h'. split; [done|]. split; [done|]. rewrite Hrd, Hp, printed_app, <-app_assoc. cbn. by rewrite app_nil_r.
Qed.
(** A blank or a line end: the number is printed. *)
Lemma line_separator c pre rest h buffer v f : c = 32 \/ c = 10 -> text = pre ++ c :: rest -> reads id h = length pre -> 2 <= zlen buffer ->
  exists b h', customer_line (S f) env id buffer v h = (if c =? 10 then Ok (Some b, h') else customer_line f env id b 0 h') /\ behind h h' b pre [c] [v].
Proof using Hfile.
  intros Hc Ht Hr Hl. cbn [customer_line].
  match goal with |- context [(request env _ ≫= ?k) h] => destruct (next_char h pre c rest buffer k Ht Hr Hl) as (b & -> & Eb & Hlb & Ec & Hr') end.
  cbv beta iota. rewrite (lift_ok_bind _ _ _ _ Eb). change (1 =? -1) with false. cbv iota. rewrite (lift_ok_bind _ _ _ _ Ec).
  assert (digit_char c = false) as -> by (by destruct Hc as [-> | ->]). assert ((c =? 32) || (c =? 10) = true) as -> by (by destruct Hc as [-> | ->]).
  change (1 =? 0) with false. cbn [orb]. rewrite tell_bind, orb_false_r.
  exists b, ((h ++ [ERead 1 id]) ++ [EPrintInt v]). split; [by destruct (c =? 10)|]. split; [done|]. rewrite reads_unless by done. split; [done|].
  rewrite !printed_app. cbn. by rewrite app_nil_r.
Qed.

(** A number and a line of numbers, as text. *)
Definition decimal_text (n : Z) : list Z := if n =? 0 then [48] else dec_digits 10 n.
Fixpoint line_text (l : list Z) : list Z :=
  match l with
  | [] => []
  | [n] => decimal_text n ++ [10]
  | n :: r => decimal_text n ++ [32] ++ line_text r
  end.
Lemma decimal_text_ok n : 0 <= n < two31 -> Forall (fun c => 48 <= c <= 57) (decimal_text n) /\ foldl dec_step 0 (decimal_text n) = n.
Proof.
  intros Hn. unfold decimal_text. destruct (Z.eqb_spec n 0) as [->|]; [split; [repeat constructor; lia|done]|].
  unfold two31 in Hn. split; [apply dec_digits_range; lia|]. apply (dec_digits_value 10). change (10 ^ Z.of_nat 10) with 10000000000. lia.
Qed.
Lemma customer_line_ok l : forall pre rest h buffer f, l <> [] -> Forall (fun n => 0 <= n < two31) l -> text = pre ++ line_text l ++ rest ->
  reads id h = length pre -> 2 <= zlen buffer -> (length (line_text l) <= f)%nat ->
  exists b h', customer_line f env id buffer 0 h = Ok (Some b, h') /\ behind h h' b pre (line_text l) l.
Proof using Hfile.
  induction l as [|n l IH]; intros pre rest h buffer f Hne Hl Ht Hr Hb Hf; [done|]. apply list.Forall_cons in Hl as [Hn Hl].
  destruct (decimal_text_ok n Hn) as [Hds Hv].
  set (c := match l with [] => 10 | _ => 32 end). set (more := match l with [] => [] | _ => line_text l end).
  assert (line_text (n :: l) = decimal_text n ++ c :: more) as El by (by destruct l). rewrite El in *. rewrite <-app_assoc in Ht. cbn [app] in Ht.
  rewrite length_app in Hf. cbn [length] in Hf. replace f with (length (decimal_text n) + S (f - length (decimal_text n) - 1))%nat by lia.
  destruct (line_digits (decimal_text n) pre (c :: more ++ rest) h buffer 0 (S (f - length (decimal_text n) - 1))) as (b1 & h1 & -> & H1);
    [done|done|done|done|lia|rewrite Hv; apply Hn|]. rewrite Hv. pose proof H1 as (Hb1 & Hr1 & _).
  destruct (line_separator c (pre ++ decimal_text n) (more ++ rest) h1 b1 n (f - length (decimal_text n) - 1)) as (b2 & h2 & -> & H2);
    [destruct l; [by right|by left]|by rewrite <-app_assoc|done|done|].
  pose proof (behind_trans _ _ _ _ _ _ _ _ _ _ H1 H2) as H12. cbn [app] in H12. destruct l as [|m l].
  - exists b2, h2. split; [done|]. done.
  - change (c =? 10) with false. cbv iota. pose proof H12 as (Hb2 & Hr2 & _).
    destruct (IH (pre ++ decimal_text n ++ [c]) rest h2 b2 (f - length (decimal_text n) - 1)%nat) as (b3 & h3 & -> & H3); [done|done| |done|done| |].
    { rewrite <-!app_assoc. exact Ht. }
    { unfold more in Hf. lia. }
    exists b3, h3. split; [done|]. pose proof (behind_trans _ _ _ _ _ _ _ _ _ _ H12 H3) as H. rewrite <-app_assoc in H. exact H.
Qed.
Lemma customer_lines_ok ls : forall pre rest h buffer f, Forall (fun l => l <> [] /\ Forall (fun n => 0 <= n < two31) l) ls ->
  text = pre ++ concat (line_text <$> ls) ++ rest -> reads id h = length pre -> 2 <= zlen buffer -> (length text <= f)%nat ->
  exists b h', customer_lines (length ls) f env id buffer h = Ok (Some b, h') /\ behind h h' b pre (concat (line_text <$> ls)) (concat ls).
Proof using Hfile.
  induction ls as [|l ls IH]; intros pre rest h buffer f Hls Ht Hr Hb Hf.
  { exists buffer, h. split; [done|]. split; [done|]. cbn. by rewrite !app_nil_r. }
  apply list.Forall_cons in Hls as [[Hne Hl] Hls]. cbn [fmap list_fmap concat length customer_lines] in *. rewrite <-app_assoc in Ht.
  destruct (customer_line_ok l pre (concat (line_text <$> ls) ++ rest) h buffer f) as (b1 & h1 & E1 & H1); try done.
  { rewrite Ht, !length_app in Hf. lia. }
  rewrite (st_bind_Ok _ _ _ _ _ E1). pose proof H1 as (Hb1 & Hr1 & _).
  destruct (IH (pre ++ line_text l) rest h1 b1 f) as (b2 & h2 & E2 & H2); try done; [by rewrite <-app_assoc|].
  exists b2, h2. split; [done|]. by apply (behind_trans _ h1 _ b1).
Qed.
End reading.

(** help.c shows the whole file, and a line end. *)
Theorem help_program (env : kernel_answers) (text : list Z) (id : Z) :
  (env [] (EOpen (txt "mota.txt") 1)).1 = id -> id <> -1 -> reads_file env text id ->
  exists h, help_main (S (length text)) env [] = Ok (tt, h) /\ on_screen h = text ++ [10].
Proof.
  intros Ho Hid Hf. unfold help_main. rewrite request_bind. destruct (env [] _) as [id' bs]. cbn in Ho. subst id'.
  rewrite (proj2 (Z.eqb_neq _ _)) by done. cbn [app].
  destruct (help_loop_ok env text id Hf text [] [EOpen (txt "mota.txt") 1] temporary (S (length text))) as (h & E & Hs); [done|done|by vm_compute|lia|].
  exists (((h ++ [EPrintChar 10]) ++ [EClose id]) ++ [EHalt]). split.
  - unfold mbind, st_bind in *. by rewrite E.
  - rewrite !on_screen_app, Hs. cbn. by rewrite !app_nil_r.
Qed.

(** C40. The program of customer.c.  On a file that holds a count and then that many
    lines of numbers below 2^31, separated by blanks, the program ends: it reads the
    file to the last line, prints exactly the numbers of the lines, in order, closes
    the file and halts.  The reads are those of the kernel, one character at a time
    with a terminator behind it. *)
Theorem customer_program (env : kernel_answers) (ls : list (list Z)) (rest : list Z) (id : Z) (fuel : nat) :
  let text := decimal_text (zlen ls) ++ [10] ++ concat (line_text <$> ls) ++ rest in
  (env [] (EOpen (txt "input.txt") 1)).1 = id -> id <> -1 -> reads_file env text id ->
  0 < zlen ls < two31 -> Forall (fun l => l <> [] /\ Forall (fun n => 0 <= n < two31) l) ls -> (length text <= fuel)%nat ->
  exists h, customer_main fuel env [] = Ok (tt, h ++ [EClose id; EHalt]) /\ printed_numbers h = concat ls /\
    reads id h = length (decimal_text (zlen ls) ++ [10] ++ concat (line_text <$> ls)).
Proof.
  intros text Ho Hid Hf Hn Hls Hfuel. unfold customer_main. rewrite request_bind. destruct (env [] _) as [id' bs]. cbn in Ho. subst id'.
  rewrite (proj2 (Z.eqb_neq _ _)) by done. cbn [app]. set (h0 := [EOpen _ 1]). destruct (decimal_text_ok (zlen ls) ltac:(lia)) as [Hds Hv].
  assert (2 <= zlen temporary) as Hbuf by (by vm_compute).
  set (ds := decimal_text (zlen ls)) in *.
  assert (length ds + 1 <= fuel)%nat as Hfd by (unfold text in Hfuel; rewrite !length_app in Hfuel; simpl in Hfuel; lia).
  destruct (total_digits env text id Hf ds [] ([10] ++ concat (line_text <$> ls) ++ rest) h0 temporary 0 (S (fuel - length ds - 1))) as (b1 & h1 & E1 & H1);
    [done|done|done|done|lia|rewrite Hv; lia|]. replace (length ds + S (fuel - length ds - 1))%nat with fuel in E1 by lia.
  destruct H1 as (Hb1 & Hr1 & Hp1). rewrite Hv in E1.
  destruct (next_char env text id Hf h1 ds 10 (concat (line_text <$> ls) ++ rest) b1
    (fun a => mret a)) as (b2 & _ & Eb & Hb2 & Ec & Hr2); [done|done|done|].
  assert (read_total fuel env id temporary 0 h0 = Ok (Some (zlen ls, b2), h1 ++ [ERead 1 id])) as E2.
  { rewrite E1. cbn [read_total]. rewrite request_bind, Hf.
    assert (text !! reads id h1 = Some 10) as -> by (rewrite Hr1; unfold text; cbn [app]; by rewrite lookup_app_r, Nat.sub_diag by lia).
    rewrite (lift_ok_bind _ _ _ _ Eb). change (0 <? 1) with true. cbv iota. rewrite (lift_ok_bind _ _ _ _ Ec). done. }
  rewrite (st_bind_Ok _ _ _ _ _ E2), (proj2 (Z.eqb_neq _ _)) by lia.
  destruct (customer_lines_ok env text id Hf ls (ds ++ [10]) rest (h1 ++ [ERead 1 id]) b2 fuel Hls) as (b3 & h3 & E3 & _ & Hr3 & Hp3);
    [unfold text; by rewrite <-app_assoc|done|done|done|]. unfold zlen at 1. rewrite Nat2Z.id. rewrite (st_bind_Ok _ _ _ _ _ E3).
  exists h3. split; [rewrite tell_bind; unfold tell; by rewrite <-app_assoc|]. rewrite Hp3, printed_app, Hp1, Hr3. split; [done|]. by rewrite <-app_assoc.
Qed.
(** Two lines, "3 40" and "5". *)
Definition two_lines : list (list Z) := [[3; 40]; [5]].
Definition two_lines_text : list Z := decimal_text (zlen two_lines) ++ [10] ++ concat (line_text <$> two_lines) ++ [].
Definition two_lines_env (h : trace) (e : event) : Z * list Z :=
  match e with
  | EOpen _ _ => (2, [])
  | ERead 1 2 => match two_lines_text !! reads 2 h with Some c => (1, [c; 0]) | None => (0, [0]) end
  | _ => (0, [])
  end.
Lemma customer_program_witness :
  exists h, customer_main 20 two_lines_env [] = Ok (tt, h ++ [EClose 2; EHalt]) /\ printed_numbers h = [3; 40; 5].
Proof.
  destruct (customer_program two_lines_env two_lines [] 2 20) as (h & E & Hp & _).
  - reflexivity.
  - discriminate.
  - intros h. reflexivity.
  - unfold two31. vm_compute. split; congruence.
  - repeat constructor; (discriminate || unfold two31; lia).
  - vm_compute. lia.
  - exists h. split; [exact E|exact Hp].
Defined.

(** ** shell.c *)

(** A user types the command and a line end, from the [n]th character on. *)
Definition types_line (env : kernel_answers) (n : nat) (cmd : list Z) : Prop := forall h k c,
  (cmd ++ [10]) !! k = Some c -> reads 0 h = (n + k)%nat -> (env h (ERead 1 0)).2 = [c; 0].
Lemma typed_char buffer i c : 0 <= i -> i + 1 < zlen buffer ->
  exists b, stored_at buffer i [c; 0] = Ok b /\ zlen b = zlen buffer /\ rd b i = Ok c /\ take (Z.to_nat (i + 1)) b = take (Z.to_nat i) buffer ++ [c].
Proof.
  intros Hi Hl. cbn [stored_at]. rewrite wr_Ok by lia. cbn [mbind res_bind]. rewrite wr_Ok by (rewrite zlen_zset; lia). cbn [mbind res_bind].
  eexists. split; [reflexivity|]. rewrite !zlen_zset. split; [done|]. unfold rd. rewrite zget_zset_ne, zget_zset_eq by lia. split; [done|].
  unfold zset. unfold zlen in Hl. rewrite !decide_True by (rewrite ?length_insert; lia). rewrite take_insert_ge by lia.
  replace (Z.to_nat (i + 1)) with (S (Z.to_nat i)) by lia. rewrite (take_S_r _ _ c) by (apply list_lookup_insert_eq; lia). by rewrite take_insert_ge.
Qed.
Lemma shell_read_ok env cmd : forall n buffer i h fuel,
  types_line env n cmd -> reads 0 h = n -> Forall (fun c => c <> 10) cmd -> zlen buffer = 60 -> 0 <= i -> i + zlen cmd < 59 -> (length cmd < fuel)%nat ->
  exists b, shell_read fuel env buffer i h = Ok ((b, i + zlen cmd + 1), h ++ replicate (S (length cmd)) (ERead 1 0)) /\ zlen b = 60 /\
    take (Z.to_nat (i + zlen cmd + 1)) b = take (Z.to_nat i) buffer ++ cmd ++ [10].
Proof.
  induction cmd as [|c cmd IH]; intros n buffer i h fuel Hty Hn Hc Hl Hi Hlt Hf; (destruct fuel as [|f]; [simpl in Hf; lia|]); cbn [shell_read]; rewrite request_bind.
  - pose proof (Hty h 0%nat 10 eq_refl ltac:(lia)) as E. destruct (env h _) as [v bs]. cbn in E. subst bs. rewrite zlen_nil in *.
    destruct (typed_char buffer i 10 Hi ltac:(lia)) as (b & Eb & Hb & Ec & Ht). rewrite (lift_ok_bind _ _ _ _ Eb), (lift_ok_bind _ _ _ _ Ec).
    exists b. replace (i + zlen (@nil Z) + 1) with (i + 1) by (change (zlen (@nil Z)) with 0; lia). split; [reflexivity|]. split; [lia|]. rewrite Ht. reflexivity.
  - pose proof (Hty h 0%nat c eq_refl ltac:(lia)) as E. destruct (env h _) as [v bs]. cbn in E. subst bs. rewrite zlen_cons in *. pose proof (zlen_nonneg cmd).
    apply list.Forall_cons in Hc as [Hc Hcs].
    destruct (typed_char buffer i c Hi ltac:(lia)) as (b & Eb & Hb & Ec & Ht). rewrite (lift_ok_bind _ _ _ _ Eb), (lift_ok_bind _ _ _ _ Ec).
    rewrite (proj2 (Z.eqb_neq c 10)) by done.
    destruct (IH (S n) b (i + 1) (h ++ [ERead 1 0]) f) as (b' & E & Hb' & Ht'); [|by rewrite reads_one, Hn|done|lia|lia|lia|simpl in Hf; lia|].
    { intros h' k x Hk Hr. apply (Hty h' (S k) x Hk). lia. }
    exists b'. replace (i + (1 + zlen cmd) + 1) with (i + 1 + zlen cmd + 1) by lia. split; [|split; [done|]].
    + rewrite E, <-app_assoc. reflexivity.
    + rewrite Ht', Ht, <-app_assoc. done.
Qed.
(** A command of at most 58 characters is executed, and the shell waits for it. *)
Theorem shell_command (env : kernel_answers) (cmd buffer : list Z) (h : trace) :
  types_line env (reads 0 h) cmd -> Forall (fun c => c <> 10 /\ c <> 0) cmd -> zlen buffer = 60 -> 0 < zlen cmd < 59 ->
  exists b pid, shell_round 60 env buffer h = Ok (b, h ++ [EWrite [45; 45] 2 1] ++ replicate (S (length cmd)) (ERead 1 0) ++ [EExec cmd; EJoin pid]) /\
    zlen b = 60 /\ pid = (env (h ++ [EWrite [45; 45] 2 1] ++ replicate (S (length cmd)) (ERead 1 0)) (EExec cmd)).1.
Proof.
  intros Hty Hc Hl Hn. unfold shell_round. rewrite tell_bind.
  destruct (shell_read_ok env cmd (reads 0 h) buffer 0 (h ++ [EWrite [45; 45] 2 1]) 60) as (b & E & Hb & Ht);
    [done|by rewrite reads_unless|by eapply list.Forall_impl; [exact Hc|intros ? []]|done|lia|lia|unfold zlen in Hn; lia|].
  rewrite (st_bind_Ok _ _ _ _ _ E). cbv beta iota. replace (0 + zlen cmd + 1 - 1) with (zlen cmd) by lia.
  rewrite (lift_ok_bind _ (zset b (zlen cmd) 0)) by (apply wr_Ok; lia).
  assert (cstr (zset b (zlen cmd) 0) = cmd) as Hs.
  { assert (b = cmd ++ 10 :: drop (S (length cmd)) b) as Eb.
    { rewrite <-(take_drop (S (length cmd)) b) at 1. replace (Z.to_nat (0 + zlen cmd + 1)) with (S (length cmd)) in Ht by (unfold zlen; lia).
      rewrite Ht. change (Z.to_nat 0) with 0%nat. rewrite take_0, app_nil_l. by rewrite <-app_assoc. }
    rewrite Eb. unfold zset. unfold zlen. rewrite decide_True by lia. rewrite Nat2Z.id, insert_app_r_alt, Nat.sub_diag by lia.
    cbn [insert list_insert]. apply cstr_app. by eapply list.Forall_impl; [exact Hc|intros ? []]. }
  rewrite (proj2 (Z.ltb_lt _ _)) by lia. rewrite Hs.
  eexists (zset b (zlen cmd) 0), _. split; [|by rewrite zlen_zset].
  set (h1 := (h ++ [EWrite [45; 45] 2 1]) ++ replicate (S (length cmd)) (ERead 1 0)).
  replace (h ++ [EWrite [45; 45] 2 1] ++ replicate (S (length cmd)) (ERead 1 0)) with h1 by (unfold h1; by rewrite <-app_assoc).
  unfold mbind at 1, st_bind at 1. rewrite request_bind. destruct (env h1 (EExec cmd)) as [pid bs]. cbv beta iota. rewrite request_bind. cbn.
  unfold h1. by rewrite <-!app_assoc.
Qed.
(** [buffer] has 60 characters and nothing checks [i]: without a line end the shell
    writes behind it. *)
Lemma shell_overruns env : forall fuel buffer i h, (forall h, exists c, c <> 10 /\ (env h (ERead 1 0)).2 = [c]) ->
  0 <= i -> zlen buffer - i < Z.of_nat fuel -> i <= zlen buffer -> shell_read fuel env buffer i h = UB.
Proof.
  intros fuel. induction fuel as [|f IH]; intros buffer i h He Hi Hf Hl; [lia|]. cbn [shell_read]. rewrite request_bind.
  destruct (He h) as (c & Hc & E). destruct (env h _) as [v bs]. cbn in E. subst bs. cbn [stored_at].
  destruct (decide (i = zlen buffer)) as [->|].
  - unfold wr. destruct (zget buffer (zlen buffer)) eqn:Eg; [apply zget_Some_range in Eg; lia|done].
  - rewrite wr_Ok by lia. rewrite (lift_ok_bind _ (zset buffer i c)) by done. rewrite (lift_ok_bind _ c) by (unfold rd; by rewrite zget_zset_eq by lia).
    rewrite (proj2 (Z.eqb_neq c 10)) by done. apply IH; rewrite ?zlen_zset; (done || lia).
Qed.
