(* ===== verification/NetTest.v ===== *)
(** * network/nettest.cc: the mail test

    [MailTest] runs on two machines at once: each sends a letter to box 0 of the
    other, waits for the letter of the other, acknowledges it to the box that the
    letter names, and waits for the acknowledgement.  The machines are those of Post,
    with their interrupts and postal workers in between, in any order. *)

From stdpp Require Import gmap list strings sets.
From S2P Require Import Prelude Post.
From S2P Require Import UserProgs.
#[local] Open Scope Z_scope.

(** Where [MailTest] is, the headers of the last letter it received, and what it
    has printed: text, machine and box. *)
(** [Send] has two parts: up to its wait for the device, and the end of the wait. *)
Inductive place := SendData | InSendData | WaitData | SendAck | InSendAck | WaitAck | Finished.
#[export] Instance place_eq_dec : EqDecision place.
Proof. solve_decision. Defined.
Record mail_tester := mkTest { at_place : place; inLetter : option letter; got : list (list Z * Z * Z) }.
Definition new_test : mail_tester := mkTest SendData None [].

(** [strlen(s) + 1] characters are sent. *)
Definition hello_text : list Z := txt "Hello there!" ++ [0].
Definition ack_text : list Z := txt "Got it!" ++ [0].

Section MailTest.
(** The fields of the headers that nobody has written. *)
Context (junk_from junk_length : Z).

(** The call that [MailTest(farAddr)] makes next. *)
Definition next_call (farAddr : Z) (p : mail_tester) : option action :=
  match at_place p, inLetter p with
  | SendData, _ => Some (ASend false (mkPkt farAddr junk_from junk_length) (mkMailHdr 0 1 (zlen hello_text)) hello_text)
  | InSendData, _ | InSendAck, _ => Some ASent
  | WaitData, _ => Some (AReceive 0)
  | SendAck, Some l => Some (ASend false (mkPkt (l_from l) junk_from junk_length) (mkMailHdr (l_reply l) 1 (zlen ack_text)) ack_text)
  | SendAck, None => None
  | WaitAck, _ => Some (AReceive 1)
  | Finished, _ => None
  end.
(** The test when the call has returned with the event [e]. *)
Definition after_call (e : event) (p : mail_tester) : mail_tester :=
  match at_place p, e with
  | SendData, _ => mkTest InSendData (inLetter p) (got p)
  | InSendData, _ => mkTest WaitData (inLetter p) (got p)
  | WaitData, EReceived _ _ l => mkTest SendAck (Some l) (got p ++ [(l_text l, l_from l, l_reply l)])
  | SendAck, _ => mkTest InSendAck (inLetter p) (got p)
  | InSendAck, _ => mkTest WaitAck (inLetter p) (got p)
  | WaitAck, EReceived _ _ l => mkTest Finished (Some l) (got p ++ [(l_text l, l_from l, l_reply l)])
  | _, _ => p
  end.

Context (junk : Z -> list Z) (x y : Z).
Definition far (a : Z) : Z := if decide (a = x) then y else x.

(** The two machines: a test makes its call, or a device or a postal worker runs. *)
Definition background (act : action) : bool := match act with ASend _ _ _ _ | ASent | AReceive _ => false | _ => true end.
Inductive both_run : world -> (Z -> mail_tester) -> list event -> Prop :=
| run_start : both_run (boot junk 10 [x; y]) (fun _ => new_test) []
| run_call w ps es a act n n' ws' e :
    both_run w ps es -> nodes w !! a = Some n -> next_call (far a) (ps a) = Some act ->
    perform junk a act (mkLoc n (sockets w)) = Ok (e, mkLoc n' ws') ->
    both_run (mkWorld (<[a := n']> (nodes w)) ws') (at_machine ps a (after_call e (ps a))) (es ++ [e])
| run_background w ps es a act n n' ws' e :
    both_run w ps es -> nodes w !! a = Some n -> background act = true ->
    perform junk a act (mkLoc n (sockets w)) = Ok (e, mkLoc n' ws') ->
    both_run (mkWorld (<[a := n']> (nodes w)) ws') ps (es ++ [e]).

(** ** The dialogue *)

Definition hello (a : Z) : letter := mkLetter (far a) a 0 1 hello_text.
Definition ack (a : Z) : letter := mkLetter (far a) a 1 1 ack_text.
Definition passed (p q : place) : bool :=
  let n p := match p with SendData => 0 | InSendData => 1 | WaitData => 2 | SendAck => 3 | InSendAck => 4 | WaitAck => 5 | Finished => 6 end in
  n q <? n p.
(** What machine [a] has sent and received, by the place where its test is. *)
Record talk (a : Z) (p : mail_tester) (es : list event) : Prop := {
  tk_hello : sent_to es (far a) 0 = if passed (at_place p) SendData then [hello a] else [];
  tk_ack : sent_to es (far a) 1 = if passed (at_place p) SendAck then [ack a] else [];
  tk_got_hello : received_by es a 0 = if passed (at_place p) WaitData then [hello (far a)] else [];
  tk_got_ack : received_by es a 1 = if passed (at_place p) WaitAck then [ack (far a)] else [];
  tk_letter : at_place p = SendAck -> inLetter p = Some (hello (far a));
  tk_got : got p = (if passed (at_place p) WaitData then [(hello_text, far a, 1)] else []) ++
                   (if passed (at_place p) WaitAck then [(ack_text, far a, 1)] else [])
}.
Hypothesis Hxy : x <> y.
Hypothesis Hx : is_int x.
Hypothesis Hy : is_int y.
Hypothesis junk_len : forall n, 0 <= n -> zlen (junk n) = n.

Lemma far_far a : a = x \/ a = y -> far (far a) = a /\ far a <> a /\ (far a = x \/ far a = y).
Proof using Hxy. unfold far. intros [-> | ->]; repeat case_decide; try congruence; (split; [done|]; split; [congruence|]; auto). Qed.
Lemma sent_snoc es e a k : sent_to (es ++ [e]) a k = sent_to es a k ++ sent_to [e] a k.
Proof. apply omap_app. Qed.
Lemma received_snoc es e a k : received_by (es ++ [e]) a k = received_by es a k ++ received_by [e] a k.
Proof. apply omap_app. Qed.
(** An event that is not this machine's call. *)
Lemma talk_other a p es e : (forall k, sent_to [e] (far a) k = []) -> (forall k, received_by [e] a k = []) -> talk a p es -> talk a p (es ++ [e]).
Proof. intros Hs Hr []. split; rewrite ?sent_snoc, ?received_snoc, ?Hs, ?Hr, ?app_nil_r; done. Qed.

(** The event of a call. *)
Lemma call_event a act n ws e s' : perform junk a act (mkLoc n ws) = Ok (e, s') ->
  match act with
  | ASend false h m t => e = ESent (letter_of a h m t)
  | ASend true _ _ _ | ASent | ASendDone | APoll | AWake => e = ENone
  | ADeliver => e = EDelivered a
  | AReceive k => exists l, e = EReceived a k l
  end.
Proof.
  unfold perform, mbind, st_bind. cbn [me wires]. destruct act as [lost h m t| | | | | |k]; intros H.
  - destruct (Send _ _ _ _ _ _) as [[[] ?]| | | |]; try done. injection H as <- _. by destruct lost.
  - destruct (_ && _); [by injection H as <- _|done].
  - destruct (0 <? _); [|done]. destruct (SendDone _) as [[[] ?]| | | |]; try done. by injection H as <- _.
  - destruct (CheckPktAvail _) as [[[] ?]| | | |]; try done. by injection H as <- _.
  - destruct (_ && _); [by injection H as <- _|done].
  - destruct (woken n); [|done]. destruct (PostalDelivery _ _) as [[[] ?]| | | |]; try done. by injection H as <- _.
  - destruct (Receive _ _) as [[[[? ?] ?] ?]| | | |]; try done. injection H as <- _. eauto.
Qed.

(** The two programs and the network. *)
Record running_pair (w : world) (ps : Z -> mail_tester) (es : list event) : Prop := {
  rp_steps : steps junk (boot junk 10 [x; y]) es w;
  rp_nodes : forall a, is_Some (nodes w !! a) -> a = x \/ a = y;
  rp_talk : forall a, a = x \/ a = y -> talk a (ps a) es
}.
Lemma pair_accounted w es : steps junk (boot junk 10 [x; y]) es w -> exists m, world_rep 10 w m /\ accounted es m.
Proof using Hx Hy junk_len.
  intros Hs. apply (steps_refine junk junk_len 10 (boot junk 10 [x; y]) no_mails es w); [|done|done].
  apply (boot_world_rep junk junk_len); [lia|constructor; [done|constructor; [done|constructor]]].
Qed.
Lemma far_int a : a = x \/ a = y -> is_int (far a).
Proof using Hx Hy. unfold far. intros _. by case_decide. Qed.
Lemma nodes_after w a n n' (Hn : nodes w !! a = Some n) :
  (forall b, is_Some (nodes w !! b) -> b = x \/ b = y) -> forall b, is_Some (<[a := n']> (nodes w) !! b) -> b = x \/ b = y.
Proof. intros H b. destruct (decide (b = a)) as [->|]; [intros _; apply H; eauto|rewrite lookup_insert_ne by done; apply H]. Qed.
(** The next step of a run of the network. *)
Lemma pair_step w es a act n n' ws' e : steps junk (boot junk 10 [x; y]) es w -> nodes w !! a = Some n ->
  (forall h m t, act = ASend false h m t -> is_int (pkt_to h) /\ is_int (mail_to m) /\ is_int (mail_from m) /\ is_uint (mail_length m)) ->
  (forall h m t, act <> ASend true h m t) -> perform junk a act (mkLoc n (sockets w)) = Ok (e, mkLoc n' ws') ->
  steps junk (boot junk 10 [x; y]) (es ++ [e]) (mkWorld (<[a := n']> (nodes w)) ws').
Proof using Hx Hy junk_len.
  intros Hs Hn Hty Hnl Hp. eapply steps_snoc; [exact Hs|]. apply (step_at junk w e a act n); [done| |done].
  destruct act as [[] h m t| | | | | |k]; try done; [by destruct (Hnl h m t)|]. destruct (Hty h m t eq_refl) as (H1 & H2 & H3 & H4).
  destruct (pair_accounted w es Hs) as (m' & Hw & _). destruct (proj2 Hw a n Hn) as (_ & q & _ & Hr).
  split; try done. rewrite (proj1 (nr_boxes _ _ _ _ _ _ Hr)). unfold_int. lia.
Qed.
(** A letter that is received is the first that was sent to the box. *)
Lemma received_first es e m a k l : accounted (es ++ [e]) m -> e = EReceived a k l -> received_by es a k = [] -> exists r, sent_to es a k = l :: r.
Proof.
  intros Hacc -> Hr. specialize (Hacc a k). rewrite sent_snoc, received_snoc, Hr in Hacc. unfold sent_to at 2, received_by in Hacc. cbn in Hacc.
  rewrite decide_True, app_nil_r in Hacc by done. eauto.
Qed.

Lemma sent_hello a : sent_to [ESent (hello a)] (far a) 0 = [hello a] /\ sent_to [ESent (hello a)] (far a) 1 = [].
Proof. unfold sent_to. cbn. by rewrite decide_True, decide_False by naive_solver. Qed.
Lemma sent_ack a : sent_to [ESent (ack a)] (far a) 1 = [ack a] /\ sent_to [ESent (ack a)] (far a) 0 = [].
Proof. unfold sent_to. cbn. by rewrite decide_True, decide_False by naive_solver. Qed.
Lemma received_one a k j l : received_by [EReceived a k l] a j = if decide (j = k) then [l] else [].
Proof. unfold received_by. cbn. repeat case_decide; naive_solver. Qed.
(** What a call of machine [a] does to its own side. *)
Definition own_event (a : Z) (e : event) : Prop :=
  e = ENone \/ (exists l, e = ESent l /\ l_to l = far a) \/ exists k l, e = EReceived a k l.
Lemma talk_call w ps es a act n n' ws' e :
  running_pair w ps es -> nodes w !! a = Some n -> next_call (far a) (ps a) = Some act ->
  perform junk a act (mkLoc n (sockets w)) = Ok (e, mkLoc n' ws') ->
  steps junk (boot junk 10 [x; y]) (es ++ [e]) (mkWorld (<[a := n']> (nodes w)) ws') /\ own_event a e /\ talk a (after_call e (ps a)) (es ++ [e]).
Proof using Hxy Hx Hy junk_len.
  intros [Hs Hnd Ht] Hn Hc Hp. assert (a = x \/ a = y) as Ha by (apply Hnd; eauto). pose proof (far_far a Ha) as (Hff & Hne & Hb).
  pose proof (far_int a Ha) as Hfi. pose proof (Ht a Ha) as [T1 T2 T3 T4 T5 T6]. pose proof (call_event _ _ _ _ _ _ Hp) as He.
  assert (forall act, (forall h m t, act <> ASend true h m t) ->
    (forall h m t, act = ASend false h m t -> is_int (pkt_to h) /\ is_int (mail_to m) /\ is_int (mail_from m) /\ is_uint (mail_length m)) ->
    perform junk a act (mkLoc n (sockets w)) = Ok (e, mkLoc n' ws') ->
    steps junk (boot junk 10 [x; y]) (es ++ [e]) (mkWorld (<[a := n']> (nodes w)) ws')) as Hst by (intros ? ? ? ?; by eapply pair_step).
  assert (is_int 0 /\ is_int 1 /\ is_uint (zlen hello_text) /\ is_uint (zlen ack_text)) as (I0 & I1 & U1 & U2) by (split_and!; by vm_compute).
  destruct (ps a) as [pl il g] eqn:Ep. unfold next_call in Hc. cbn [at_place inLetter got] in *.
  destruct pl; try (injection Hc as <-); cbn in He.
  - assert (e = ESent (hello a)) as -> by exact He. split; [refine (Hst _ _ _ Hp); [done|intros ? ? ? [= <- <- <-]; done]|].
    split; [right; left; eauto|]. split; rewrite ?sent_snoc, ?received_snoc; unfold after_call; cbn [at_place inLetter got] in *;
      rewrite ?T1, ?T2, ?T3, ?T4, ?(proj1 (sent_hello a)), ?(proj2 (sent_hello a)); done.
  - subst e. split; [by refine (Hst _ _ _ Hp)|]. split; [by left|]. split; rewrite ?sent_snoc, ?received_snoc; cbn; rewrite ?T1, ?T2, ?T3, ?T4; done.
  - destruct He as [l ->]. pose proof (Hst (AReceive 0) ltac:(done) ltac:(done) Hp) as Hs'. split; [done|]. split; [right; right; eauto|].
    destruct (pair_accounted _ _ Hs') as (m & _ & Hacc). destruct (received_first es _ m a 0 l Hacc eq_refl T3) as [r Hr].
    pose proof (tk_hello _ _ _ (Ht (far a) Hb)) as Hsent. rewrite Hff, Hr in Hsent. destruct (passed (at_place (ps (far a))) SendData); [|done]. injection Hsent as -> ->.
    split; rewrite ?sent_snoc, ?received_snoc; unfold after_call; cbn [at_place inLetter got] in *; rewrite ?T1, ?T2, ?T3, ?T4, ?T6, ?received_one; done.
  - rewrite (T5 eq_refl) in Hc. injection Hc as <-. cbn in He. assert (e = ESent (ack a)) as -> by exact He.
    split; [refine (Hst _ _ _ Hp); [done|intros ? ? ? [= <- <- <-]; done]|].
    split; [right; left; eauto|]. split; rewrite ?sent_snoc, ?received_snoc; unfold after_call; cbn [at_place inLetter got] in *;
      rewrite ?T1, ?T2, ?T3, ?T4, ?(proj1 (sent_ack a)), ?(proj2 (sent_ack a)); done.
  - subst e. split; [by refine (Hst _ _ _ Hp)|]. split; [by left|]. split; rewrite ?sent_snoc, ?received_snoc; cbn; rewrite ?T1, ?T2, ?T3, ?T4; done.
  - destruct He as [l ->]. pose proof (Hst (AReceive 1) ltac:(done) ltac:(done) Hp) as Hs'. split; [done|]. split; [right; right; eauto|].
    destruct (pair_accounted _ _ Hs') as (m & _ & Hacc). destruct (received_first es _ m a 1 l Hacc eq_refl T4) as [r Hr].
    pose proof (tk_ack _ _ _ (Ht (far a) Hb)) as Hsent. rewrite Hff, Hr in Hsent. destruct (passed (at_place (ps (far a))) SendAck); [|done]. injection Hsent as -> ->.
    split; rewrite ?sent_snoc, ?received_snoc; unfold after_call; cbn [at_place inLetter got] in *; rewrite ?T1, ?T2, ?T3, ?T4, ?T6, ?received_one; done.
  - done.
Qed.

Lemma pair_invariant w ps es : both_run w ps es -> running_pair w ps es.
Proof using Hxy Hx Hy junk_len.
  induction 1 as [|w ps es a act n n' ws' e _ IH Hn Hc Hp|w ps es a act n n' ws' e _ IH Hn Hb Hp].
  - split; [constructor| |done]. intros a. cbn. rewrite lookup_insert_is_Some. intros [->|[_ Hs]]; [by left|right].
    rewrite lookup_insert_is_Some, lookup_empty in Hs. destruct Hs as [->|[_ [? ?]]]; done.
  - destruct (talk_call w ps es a act n n' ws' e IH Hn Hc Hp) as (Hs & Hev & Ht). pose proof IH as [_ Hnd Htk].
    assert (a = x \/ a = y) as Ha by (apply Hnd; eauto). pose proof (far_far a Ha) as (Hff & Hne & Hb).
    split; [done|exact (nodes_after w a n n' Hn Hnd)|]. intros c Hcc. unfold at_machine. case_decide as Hca; [by subst|].
    assert (c = far a) as -> by (unfold far; case_decide; destruct Ha, Hcc; congruence). apply talk_other; [| |by apply Htk].
    + intros k. rewrite Hff. destruct Hev as [->|[(l & -> & Hl)|(j & l & ->)]]; try done. unfold sent_to. cbn. by rewrite decide_False by naive_solver.
    + intros k. destruct Hev as [->|[(l & -> & Hl)|(j & l & ->)]]; try done. unfold received_by. cbn. by rewrite decide_False by naive_solver.
  - pose proof IH as [Hs Hnd Htk]. pose proof (call_event _ _ _ _ _ _ Hp) as He.
    assert (e = ENone \/ e = EDelivered a) as Hq by (destruct act as [[]| | | | | |]; try done; auto).
    split; [eapply pair_step; [exact Hs|exact Hn| | |exact Hp]; intros ? ? ?; by destruct act|exact (nodes_after w a n n' Hn Hnd)|].
    intros c Hcc. apply talk_other; [by intros k; destruct Hq as [-> | ->]..|by apply Htk].
Qed.
End MailTest.

(** The mail test.  Two machines run [MailTest] against each other, with interrupts
    and postal workers in any order, on a network that loses nothing.  Each prints
    exactly the letter of the other and then its acknowledgement, both with the
    other's number and its box 1; and a test that waits for a letter that has been
    sent finds it in its box, or it is under way. *)
Theorem mail_test (junk_from junk_length : Z) (junk : Z -> list Z) (x y : Z) (w : world) (ps : Z -> mail_tester) (es : list event) (a : Z) :
  x <> y -> is_int x -> is_int y -> (forall n, 0 <= n -> zlen (junk n) = n) -> both_run junk_from junk_length junk x y w ps es -> a = x \/ a = y ->
  let b := far x y a in
  got (ps a) = (if passed (at_place (ps a)) WaitData then [(hello_text, b, 1)] else []) ++
               (if passed (at_place (ps a)) WaitAck then [(ack_text, b, 1)] else []) /\
  exists m, world_rep 10 w m /\
    (at_place (ps a) = WaitData -> passed (at_place (ps b)) SendData = true -> inboxes m a 0 ++ for_box 0 (under m a) = [hello x y b]) /\
    (at_place (ps a) = WaitAck -> passed (at_place (ps b)) SendAck = true -> inboxes m a 1 ++ for_box 1 (under m a) = [ack x y b]).
Proof.
  intros Hxy Hx Hy Hj Hr Ha b. destruct (pair_invariant junk_from junk_length junk x y Hxy Hx Hy Hj w ps es Hr) as [Hs _ Ht].
  pose proof (far_far x y Hxy a Ha) as (Hff & _ & Hb). pose proof (Ht a Ha) as [_ _ T3 T4 _ T6]. split; [exact T6|].
  destruct (pair_accounted junk x y Hx Hy Hj w es Hs) as (m & Hw & Hacc). exists m. split; [done|].
  pose proof (Ht b Hb) as [B1 B2 _ _ _ _]. unfold b in B1, B2. rewrite Hff in B1, B2. split; intros Hp Hq; unfold b in Hq; rewrite Hp in *; cbn in T3, T4.
  - pose proof (Hacc a 0) as H. by rewrite B1, Hq, T3 in H.
  - pose proof (Hacc a 1) as H. by rewrite B2, Hq, T4 in H.
Qed.

(** ** A dialogue *)

(** Runs a schedule: the next call of the test of a machine, or an interrupt or the
    postal worker. *)
Fixpoint drive (sched : list (Z * option action)) (w : world) (ps : Z -> mail_tester) : option (world * (Z -> mail_tester)) :=
  match sched with
  | [] => Some (w, ps)
  | (a, o) :: r =>
      n ← nodes w !! a;
      act ← match o with None => next_call 0 0 (far 0 1 a) (ps a) | Some act => if background act then Some act else None end;
      match perform zeros a act (mkLoc n (sockets w)) with
      | Ok (e, s) => drive r (mkWorld (<[a := me s]> (nodes w)) (wires s)) (match o with None => at_machine ps a (after_call e (ps a)) | Some _ => ps end)
      | _ => None
      end
  end.
Lemma drive_runs sched : forall w ps es w' ps', both_run 0 0 zeros 0 1 w ps es -> drive sched w ps = Some (w', ps') ->
  exists es', both_run 0 0 zeros 0 1 w' ps' es'.
Proof.
  induction sched as [|[a o] r IH]; intros w ps es w' ps' Hr; cbn [drive]; [intros [= <- <-]; eauto|].
  destruct (nodes w !! a) as [n|] eqn:Hn; cbn [mbind option_bind]; [|done].
  destruct o as [act|]; [destruct (background act) eqn:Hb; [|done]|destruct (next_call 0 0 (far 0 1 a) (ps a)) as [act|] eqn:Hc; [|done]]; cbn [mbind option_bind];
    destruct (perform zeros a act _) as [[e [n' ws']]| | | |] eqn:Hp; try done; apply (IH _ _ (es ++ [e])).
  - exact (run_background 0 0 zeros 0 1 w ps es a act n n' ws' e Hr Hn Hb Hp).
  - exact (run_call 0 0 zeros 0 1 w ps es a act n n' ws' e Hr Hn Hc Hp).
Qed.
(** A call; the device; a letter comes in. *)
Definition sends (a : Z) : list (Z * option action) := [(a, None); (a, Some ASendDone); (a, None)].
Definition comes_in (a : Z) : list (Z * option action) := [(a, Some APoll); (a, Some AWake); (a, Some ADeliver)].
Definition dialogue : list (Z * option action) :=
  sends 0 ++ sends 1 ++ comes_in 1 ++ comes_in 0 ++ [(0, None); (1, None)] ++ sends 1 ++ comes_in 0 ++ sends 0 ++ comes_in 1 ++ [(0, None); (1, None)].
(** The test runs to its end on both machines. *)
Lemma dialogue_ends :
  exists w ps es, both_run 0 0 zeros 0 1 w ps es /\ at_place (ps 0) = Finished /\ at_place (ps 1) = Finished /\
    got (ps 0) = [(hello_text, 1, 1); (ack_text, 1, 1)] /\ got (ps 1) = [(hello_text, 0, 1); (ack_text, 0, 1)].
Proof.
  assert (is_int 0 /\ is_int 1) as [I0 I1] by (split; unfold_int; lia). assert ((0 : Z) <> 1) as H01 by lia.
  assert ((fun x => (at_place (x.2 0), at_place (x.2 1))) <$> drive dialogue (boot zeros 10 [0; 1]) (fun _ => new_test) = Some (Finished, Finished)) as Hd
    by (vm_compute; reflexivity).
  destruct (drive dialogue (boot zeros 10 [0; 1]) (fun _ => new_test)) as [[w ps]|] eqn:E; [|done]. injection Hd as H0 H1. simpl in H0, H1.
  destruct (drive_runs dialogue (boot zeros 10 [0; 1]) (fun _ => new_test) [] w ps (run_start 0 0 zeros 0 1) E) as [es Hr]. clear E.
  exists w, ps, es.
  destruct (mail_test 0 0 zeros 0 1 w ps es 0 H01 I0 I1 zeros_len Hr (or_introl eq_refl)) as [G0 _].
  destruct (mail_test 0 0 zeros 0 1 w ps es 1 H01 I0 I1 zeros_len Hr (or_intror eq_refl)) as [G1 _].
  rewrite H0 in G0. rewrite H1 in G1. done.
Qed.
